(* ===== verification/_CoqProject ===== *)
-Q . S2P
Prelude.v
Types.v
Kstate.v
Cstring.v
Machine.v
Asm.v
Boot.v
Spinlock.v
Frame.v
Printf.v
Accounting.v
Kalloc.v
Vm.v
Pagetable.v
Uvm.v
Proc.v
Procalloc.v
Copy.v
Console.v
Uart.v
Bio.v
Bcache.v
Blocks.v
Virtio.v
Ring.v
Log.v
Commit.v
Transaction.v
Fs.v
Content.v
Schedule.v
Durable.v
Inode.v
Dir.v
Mkfs.v
Image.v
File.v
Pipe.v
Line.v
Process.v
Fork.v
Container.v
Command.v
Sysfile.v
Trap.v
Stubs.v
User.v
Umalloc.v
Ulib.v
Grep.v
Tools.v
Ctools.v
Shell.v
Cmdline.v
