(* ===== verification/Prelude.v ===== *)
(** * The xv6 kernel with containers, in Rocq

    The program ([src/kernel/]) is the RISC-V xv6 teaching kernel, extended with containers: every
    process belongs to a container with its own root directory, console and limits on memory, disk
    and processes.  The parts build on each other: spin-locks and [printf]; the page allocator, which
    charges pages to containers; page tables and user memory; the process table and the scheduler; the
    buffer cache, the log and the file system over a disk; files, pipes and consoles; system calls,
    traps and boot.  Around the kernel stand the assembly that enters and leaves it, the drivers of the disk, the
    serial port and the interrupt controller, [mkfs], which makes the first disk image, and the user programs
    ([src/user/]) with their library and allocator.

    ** How the code is modelled

    A kernel function is a computation of one hart in the monad [K] of [Kstate], over the record
    [kstate] of the kernel's global variables, its RAM (pages of bytes), its disk (blocks of bytes)
    and the characters sent to the uart.  It returns ([Ok]) or stops ([Stop]) for a reason: [panic], an
    access outside an object, a spin on a lock that is held, a sleep nobody ends, an infinite loop,
    [exit], or the exhausted budget of a loop.  Pointers into static tables are indices; a null
    pointer is [None]; other addresses are integers.  Integers carry their C width: the conversions
    [u8], [u16], [u32], [u64], [i16], [i32] are written where the C type wraps.  Free pages, page tables,
    trap frames, directory entries and disk inodes are bytes in pages and blocks, at the offsets the code uses.
    What is not C code of the repository is a member of the class [Env]: the context switch (other threads run
    between a call of [swtch] and its return), link-time symbols, and how often a waiting thread wakes
    in vain.  Uninitialised variables the code reads are arguments.

    Four parts run outside [K].  Assembly is a list of instructions run on the machine of [Machine], with address
    translation, the traps that can be delegated and called C functions as the class [Platform].  The disk driver of [Virtio] has its own state and
    interleaves with a device given by a class of steps; [Log] and [Fs] use the disk it implements.  [mkfs] has a monad
    over the image file.  A user program is a computation in the monad [U] of [User]: it sees the kernel through the
    results of its system calls (class [World]), and returns, exits, crashes or exhausts the budget of a loop.

    ** The files

    - [Prelude] (this file): integers, record updates, byte lists and their lemmas and hints.
    - [Types]: the constants and structures of the headers.  [Kstate]: state, monad and the rules of [wp]
      (a computation returns, in a state with the post-condition) and [stops].
    - [Machine] (registers and the accessors of [riscv.h]), [Asm] ([swtch.S], [trampoline.S], [kernelvec.S]), [Boot]
      ([entry.S], [start.c], [plic.c]), [Uart] (the registers of [uart.c]), [Stubs] ([syscall.h], [usys.pl], [initcode.S]).
    - [Frame]: which fields a call may change.
    - [Cstring] ([string.c]), [Spinlock] ([spinlock.c]), [Printf] ([printf.c], output half of [uart.c]).
    - [Accounting]: charging containers and the limit handler ([container.c]).
    - [Kalloc] ([kalloc.c]); [Vm] ([vm.c]) with its theory in [Pagetable] (page-table trees),
      [Uvm] (copies between kernel and user memory) and [Copy] ([uvmcopy]).
    - [Proc] ([proc.c]: table, scheduling, sleep, kill, pause), [Procalloc] ([allocproc]).
    - [Console] ([console.c], input half of [uart.c]) and its theory [Line].
    - [Bio] ([sleeplock.c], [bio.c]) with [Bcache] (by buffer) and [Blocks] (by block number); [Log]
      ([log.c]) with [Commit] (disk writes and recovery), [Transaction] ([begin_op], [log_write], [end_op]) and
      [Schedule] (operations of several processes over one log).
    - [Fs] ([fs.c]) with [Content] (file contents), [Inode] (disk inodes), [Dir] (directories and
      paths) and [Durable] (cache, log and files together); [Virtio] ([virtio_disk.c]) with its theory [Ring];
      [Mkfs] ([mkfs.c]) with its theory [Image].
    - [File] ([file.c], [pipe.c]) with [Pipe]; [Process] ([fork], [exit], [wait], suspend and resume of
      [proc.c], and [exec.c]) with [Fork]; [Container] (the rest of [container.c]) with [Command].
    - [Sysfile] ([sysfile.c], arguments of [syscall.c]); [Trap] ([sysproc.c], [syscall.c], [trap.c], [main.c]).
    - [User] (system calls and the monad), [Ulib] ([ulib.c], [printf.c]), [Umalloc] ([umalloc.c]), [Grep] ([grep.c]),
      [Shell] ([sh.c]) with its theory [Cmdline], [Tools] (the small programs and [init.c]) and [Ctools] (the programs
      that manage containers).

    ** What the theorems show

    - Crash safety: the disk writes of [commit] are atomic under a crash at any point ([commit_atomic]), and
      a file written by [writei] in a committed transaction is after recovery as before or as after the write
      ([write_crash_safe]); the cache is one logical disk ([bread_coherent], [binit_empty]); [log_write]
      refines the set of blocks of a transaction, with its panics ([log_write_refines]); interleaved operations of
      at most [MAXOPBLOCKS - 1] blocks each never overflow the log, and the disk holds what the last commit left
      ([schedule_refines]).  These hold for the log that [mkfs] makes, [LOGSIZE] blocks with the header.
    - Files: [writei] and [readi] agree, also across the indirect block ([writei_readi]); [iupdate] and
      [ilock] are inverse; [dirlookup] finds the first entry with the name; [skipelem] cuts a path into its
      elements.
    - Memory: [kalloc], [kfree], [kinit] against the list of free pages; page-table operations against the map
      from virtual addresses to entries; [copyout], [copyin] and [copyinstr] against user memory; [uvmcopy].
    - Processes: [fork] makes a copy of its caller; [allocproc], [wakeup], [kill], pausing and the
      round-robin choice of the next process.
    - Containers: no sequence of charges exceeds a limit, and a container over its limit is stopped.
    - Pipes are queues and consoles are line editors ([pipe_fifo], [uartintr_refines],
      [consoleread_line]), with counters that wrap modulo 2^32.
    - Machine: a trap from user space and the return from it restore every register ([trap_roundtrip]); [swtch] goes on
      in the other context and an interrupt in the kernel leaves its registers alone ([swtch_resumes],
      [kernelvec_transparent]); a hart reaches [main] in supervisor mode with its timer set ([boot_ready]); a system
      call goes from its stub through the trap frame to the handler of its name, and the result comes back in [a0]
      ([stub_dispatch]).
    - Devices: the disk driver implements a disk of blocks under every interleaving, never gives a descriptor away
      twice and finishes ([virtio_refines], [virtio_safe], [virtio_progress]); the serial port sends and receives bytes in
      order ([uart_refines]).
    - [mkfs] writes an image in which the kernel's structures describe exactly the files given ([mkfs_image]).
    - User programs: [malloc] and [free] keep live blocks disjoint ([allocator_sound]); the shell's parser ends and
      builds the command a line means ([parsecmd_total], [parsecmd_meaning]); [grep], [cat], [wc] and the copying of
      [ccreate] do to a stream what they promise, however it is cut into reads ([grep_filters], [cat_copies],
      [wc_counts], [cp_copies]; the last only as far as writes are not short).
    - Flaws: what the code does where it goes wrong is proved too ([kalloc_empty_keeps_lock],
      [kalloc_over_limit], [recovery_miscounts], [log_one_short], [getnextproc_hangs], [kill_zero_faults],
      [setmaxmem_fixed], [cp_read_error]).

    ** Bounds and fuel

    A C loop with a known number of turns is [kfor] or a fold and needs no fuel.  Other loops get as much
    fuel as the data allows turns: the pages of a range, the bytes of a transfer, the levels of a
    page table, 32 digits of a number.  The theorems are about [wp], so they include that the call returns:
    the fuel is enough wherever they hold.  Waiting loops use [env_patience] of [Env]: a theorem either
    covers the run in which the wait is not needed or holds for every patience.  The examples
    of the witnesses use a machine with 16 free pages and disks of a few blocks.  The filters among the user programs need
    one turn more than their input has bytes, since a read may deliver one byte; programs that run for ever ([init],
    [counter]) only have a budget.

    ** Not modelled

    One hart runs at a time and is not preempted inside a call: other threads appear only at context
    switches.  For the kernel the disk is atomic per block; the queues below it are in [Virtio] and [Ring] only.  The TLB,
    instruction fetch and the caches of the processor are left out, and so are the writes of [kvminithart] and
    [trapinithart].  [ramdisk.c] is not linked into the kernel, [kernel.ld] places sections, and the test and stress programs
    under [src/user/] ([usertests.c] and others) exercise the kernel without being part of it.  [Process],
    [Container], [Sysfile], [Trap], [Tools] and [Ctools] define more operations than there are theorems about them:
    [exit], [wait], [exec], most system calls, the traps and the programs that only pass their arguments on to a
    system call are executable definitions. *)
From stdpp Require Import base numbers list gmap strings.
From Stdlib Require Import ZArith Lia.

Local Open Scope Z_scope.
Declare Scope xv6_scope.
Delimit Scope xv6_scope with xv6.

(** ** Integers at their C width *)

(** Conversions to the C types of [kernel/types.h]: unsigned types reduce
    modulo the width, signed ones are read back in two's complement. *)
Definition u8 (x : Z) : Z := x mod 2 ^ 8.
Definition u16 (x : Z) : Z := x mod 2 ^ 16.
Definition u32 (x : Z) : Z := x mod 2 ^ 32.
Definition u64 (x : Z) : Z := x mod 2 ^ 64.
Definition i16 (x : Z) : Z := (x + 2 ^ 15) mod 2 ^ 16 - 2 ^ 15.
Definition i32 (x : Z) : Z := (x + 2 ^ 31) mod 2 ^ 32 - 2 ^ 31.

Lemma u64_range x : 0 <= u64 x < 2 ^ 64.
Proof. unfold u64. apply Z.mod_pos_bound. lia. Qed.

Lemma u32_range x : 0 <= u32 x < 2 ^ 32.
Proof. unfold u32. apply Z.mod_pos_bound. lia. Qed.

Lemma u8_range x : 0 <= u8 x < 2 ^ 8.
Proof. unfold u8. apply Z.mod_pos_bound. lia. Qed.

Lemma i32_range x : - 2 ^ 31 <= i32 x < 2 ^ 31.
Proof. unfold i32. pose proof (Z.mod_pos_bound (x + 2 ^ 31) (2 ^ 32)). lia. Qed.

Lemma u64_small x : 0 <= x < 2 ^ 64 -> u64 x = x.
Proof. apply Z.mod_small. Qed.

Lemma u32_small x : 0 <= x < 2 ^ 32 -> u32 x = x.
Proof. apply Z.mod_small. Qed.

Lemma u8_small x : 0 <= x < 256 -> u8 x = x.
Proof. apply Z.mod_small. Qed.

Lemma i32_small x : - 2 ^ 31 <= x < 2 ^ 31 -> i32 x = x.
Proof. intros ?. unfold i32. rewrite Z.mod_small; lia. Qed.

Lemma u64_neg x : - 2 ^ 64 <= x < 0 -> u64 x = 2 ^ 64 + x.
Proof.
  intros ?. unfold u64. symmetry. apply (Z.mod_unique _ _ (-1)); lia.
Qed.

#[export] Set Warnings "-clear-no-such-hyp".

Create HintDb xv6.
Create Rewrite HintDb xv6.
#[export] Hint Rewrite u64_small u32_small u8_small i32_small using lia : xv6.

Lemma lor_lt a b n : 0 <= a < 2 ^ n -> 0 <= b < 2 ^ n -> Z.lor a b < 2 ^ n.
Proof.
  intros Ha Hb. destruct (Z.eq_dec (Z.lor a b) 0) as [->|Hne]; [lia|].
  assert (0 <= Z.lor a b) by (apply Z.lor_nonneg; lia).
  assert (0 <= n) by (destruct (Z.neg_nonneg_cases n); [rewrite Z.pow_neg_r in Ha by done; lia|done]).
  apply Z.log2_lt_pow2; [lia|]. rewrite Z.log2_lor by lia.
  assert (0 < n \/ n = 0) as [Hn| ->] by lia; [|rewrite Z.pow_0_r in *; replace a with 0 in * by lia;
    replace b with 0 in * by lia; done].
  apply Z.max_lub_lt.
  - destruct (Z.eq_dec a 0) as [->|]; [done|]. apply Z.log2_lt_pow2; lia.
  - destruct (Z.eq_dec b 0) as [->|]; [done|]. apply Z.log2_lt_pow2; lia.
Qed.

#[global] Arguments Z.add _ _ : simpl never.
#[global] Arguments Z.sub _ _ : simpl never.
#[global] Arguments Z.mul _ _ : simpl never.
#[global] Arguments Z.div _ _ : simpl never.
#[global] Arguments Z.modulo _ _ : simpl never.
#[global] Arguments Z.pow _ _ : simpl never.
#[global] Arguments Z.ltb _ _ : simpl never.
#[global] Arguments Z.leb _ _ : simpl never.
#[global] Arguments Z.eqb _ _ : simpl never.
#[global] Arguments Z.land _ _ : simpl never.
#[global] Arguments Z.lor _ _ : simpl never.
#[global] Arguments Z.shiftl _ _ : simpl never.
#[global] Arguments Z.shiftr _ _ : simpl never.
#[global] Arguments Z.of_nat _ : simpl never.
#[global] Arguments Z.to_nat _ : simpl never.

(** ** Boolean tests *)

(** Case analysis on the integer tests the C code branches on. *)
Ltac case_Z :=
  match goal with
  | |- context [?x <? ?y] => destruct (Z.ltb_spec x y)
  | |- context [?x <=? ?y] => destruct (Z.leb_spec x y)
  | |- context [?x =? ?y] => destruct (Z.eqb_spec x y)
  | H : context [?x <? ?y] |- _ => destruct (Z.ltb_spec x y)
  | H : context [?x <=? ?y] |- _ => destruct (Z.leb_spec x y)
  | H : context [?x =? ?y] |- _ => destruct (Z.eqb_spec x y)
  end.

(** ** Record update *)

(** [x <| f := v |>] is the C assignment [x.f = v] on a record value; the
    setter of a field is computed from the record's [Eta] instance. *)
Class Setter {R T : Type} (getter : R -> T) : Type := set : (T -> T) -> R -> R.
Arguments set {R T} getter {Setter} _ _.
Class Eta (R : Type) : Type := eta : R -> R.

Ltac build_setter getter :=
  match type of getter with
  | ?R -> _ =>
    let inst := constr:(_ : Eta R) in
    let body := eval hnf in inst in
    match eval pattern getter in body with
    | ?ctx _ =>
      let t := eval cbn beta in (fun u : _ -> _ => ctx (fun r => u (getter r))) in
      exact t
    end
  end.

#[export] Hint Extern 1 (@Setter _ _ ?getter) => build_setter getter : typeclass_instances.

Notation "x <| f ::= g |>" := (set f g x) (at level 1, left associativity) : xv6_scope.
Notation "x <| f := v |>" := (set f (fun _ => v) x) (at level 1, left associativity) : xv6_scope.

(** ** Byte lists *)

Definition byte (b : Z) : Prop := 0 <= b < 256.

(** Little-endian encoding of an [n]-byte integer and its inverse: how the
    structures of [fs.h], the page-table entries and the trapframe lie in
    memory on RISC-V. *)
Fixpoint le_bytes (n : nat) (v : Z) : list Z :=
  match n with
  | O => []
  | S n => v mod 256 :: le_bytes n (v / 256)
  end.

Fixpoint le_value (bs : list Z) : Z :=
  match bs with
  | [] => 0
  | b :: r => b + 256 * le_value r
  end.

Lemma length_le_bytes n v : length (le_bytes n v) = n.
Proof. revert v. induction n as [|n IH]; intros v; simpl; [done|]. by rewrite IH. Qed.

Lemma le_bytes_byte n v : Forall byte (le_bytes n v).
Proof.
  revert v. induction n as [|n IH]; intros v; simpl; constructor; [|apply IH].
  unfold byte. apply Z.mod_pos_bound. lia.
Qed.

Lemma le_value_bytes n v : le_value (le_bytes n v) = v mod 2 ^ (8 * Z.of_nat n).
Proof.
  revert v. induction n as [|n IH]; intros v; simpl le_bytes; simpl le_value.
  - by rewrite Z.mod_1_r.
  - rewrite IH. replace (8 * Z.of_nat (S n)) with (8 + 8 * Z.of_nat n) by lia.
    rewrite Z.pow_add_r by lia. change (2 ^ 8) with 256.
    rewrite Z.rem_mul_r by lia. lia.
Qed.

Lemma le_bytes_value bs : Forall byte bs -> le_bytes (length bs) (le_value bs) = bs.
Proof.
  induction 1 as [|b bs Hb _ IH]; simpl; [done|].
  unfold byte in Hb. f_equal.
  - rewrite Z.mul_comm, Z.mod_add by lia. by apply Z.mod_small.
  - replace ((b + 256 * le_value bs) / 256) with (le_value bs); [done|].
    rewrite Z.mul_comm, Z.div_add by lia. rewrite Z.div_small by lia. lia.
Qed.

Lemma le_value_range bs : Forall byte bs -> 0 <= le_value bs < 2 ^ (8 * Z.of_nat (length bs)).
Proof.
  induction 1 as [|b bs Hb _ IH]; simpl length; [simpl; lia|].
  replace (8 * Z.of_nat (S (length bs))) with (8 + 8 * Z.of_nat (length bs)) by lia.
  rewrite Z.pow_add_r by lia. simpl le_value. unfold byte in Hb. lia.
Qed.

(** [slice off n l] is what a copy of [n] bytes from offset [off] reads and
    [splice off new l] what a copy of [new] to offset [off] leaves. *)
Definition slice {A} (off n : nat) (l : list A) : list A := take n (drop off l).
Definition splice {A} (off : nat) (new l : list A) : list A :=
  take off l ++ new ++ drop (off + length new) l.

Section splice.
Context {A : Type}.
Implicit Types l new : list A.

Lemma length_splice off new l :
  (off + length new <= length l)%nat -> length (splice off new l) = length l.
Proof. intros ?. unfold splice. rewrite !length_app, length_take, length_drop. lia. Qed.

Lemma length_slice off n l : (off + n <= length l)%nat -> length (slice off n l) = n.
Proof. intros ?. unfold slice. rewrite length_take, length_drop. lia. Qed.

Lemma slice_splice_same off new l :
  (off + length new <= length l)%nat -> slice off (length new) (splice off new l) = new.
Proof.
  intros ?. unfold slice, splice.
  rewrite drop_app_length' by (rewrite length_take; lia).
  by rewrite take_app_length.
Qed.

Lemma lookup_splice off new l i :
  (off + length new <= length l)%nat ->
  splice off new l !! i =
    if decide (off <= i < off + length new)%nat then new !! (i - off)%nat else l !! i.
Proof.
  intros ?. unfold splice. case_decide.
  - rewrite lookup_app_r by (rewrite length_take; lia).
    rewrite lookup_app_l by (rewrite length_take; lia).
    f_equal. rewrite length_take. lia.
  - destruct (decide (i < off)%nat).
    + rewrite lookup_app_l by (rewrite length_take; lia). by apply lookup_take_lt.
    + rewrite !lookup_app_r by (rewrite ?length_take; lia).
      rewrite lookup_drop, length_take. f_equal. lia.
Qed.

Lemma lookup_slice off n l i : (i < n)%nat -> slice off n l !! i = l !! (off + i)%nat.
Proof. intros ?. unfold slice. rewrite lookup_take_lt by lia. apply lookup_drop. Qed.

Lemma slice_splice_ne off off' n new l :
  (off + length new <= length l)%nat ->
  (off' + n <= off \/ off + length new <= off')%nat ->
  slice off' n (splice off new l) = slice off' n l.
Proof.
  intros Hb Hd. apply list_eq. intros i. destruct (decide (i < n)%nat).
  - rewrite !lookup_slice, lookup_splice by lia. case_decide; [lia|done].
  - unfold slice. rewrite !lookup_take_ge by lia. done.
Qed.
End splice.

#[export] Hint Rewrite @length_splice @length_slice using lia : xv6.

(** Loads and stores of an [n]-byte little-endian integer in a byte array. *)
Definition load (n off : nat) (l : list Z) : Z := le_value (slice off n l).
Definition store (n off : nat) (v : Z) (l : list Z) : list Z := splice off (le_bytes n v) l.

Lemma length_store n off v l :
  (off + n <= length l)%nat -> length (store n off v l) = length l.
Proof. intros ?. apply length_splice. rewrite length_le_bytes. lia. Qed.

Lemma load_store_same n off v l :
  (off + n <= length l)%nat -> load n off (store n off v l) = v mod 2 ^ (8 * Z.of_nat n).
Proof.
  intros ?. unfold load, store.
  replace n with (length (le_bytes n v)) at 1 by apply length_le_bytes.
  rewrite slice_splice_same by (rewrite length_le_bytes; lia). apply le_value_bytes.
Qed.

Lemma load_store_ne n m off off' v l :
  (off + n <= length l)%nat -> (off' + m <= off \/ off + n <= off')%nat ->
  load m off' (store n off v l) = load m off' l.
Proof.
  intros ??. unfold load, store.
  rewrite slice_splice_ne; rewrite ?length_le_bytes; done.
Qed.

Lemma Forall_splice {A} (P : A -> Prop) off new l :
  Forall P l -> Forall P new -> Forall P (splice off new l).
Proof. intros. unfold splice. repeat apply Forall_app_2; auto using Forall_take, Forall_drop. Qed.

Lemma Forall_slice {A} (P : A -> Prop) off n l : Forall P l -> Forall P (slice off n l).
Proof. intros. unfold slice. auto using Forall_take, Forall_drop. Qed.

Lemma store_byte n off v l : Forall byte l -> Forall byte (store n off v l).
Proof. intros. apply Forall_splice; [done|apply le_bytes_byte]. Qed.

Lemma load_range n off l :
  Forall byte l -> (off + n <= length l)%nat -> 0 <= load n off l < 2 ^ (8 * Z.of_nat n).
Proof.
  intros Hl Ho. unfold load. pose proof (le_value_range (slice off n l)) as Hr.
  rewrite length_slice in Hr by lia. apply Hr. by apply Forall_slice.
Qed.

#[export] Hint Resolve le_bytes_byte Forall_splice Forall_slice store_byte : xv6.

(** The elements of a range, as a loop over it meets them. *)
Lemma seqZ_middle n pre x post :
  seqZ 0 (Z.of_nat n) = pre ++ x :: post -> x = Z.of_nat (length pre) /\ (length pre < n)%nat.
Proof.
  intros Hs. assert (seqZ 0 (Z.of_nat n) !! length pre = Some x) as Hx by (by rewrite Hs, list_lookup_middle).
  apply lookup_seqZ in Hx. lia.
Qed.
