(* ===== verification/Types.v ===== *)
(** The constants and structures of the kernel's headers: [param.h],
    [riscv.h], [memlayout.h], [fs.h], [file.h], [buf.h], [proc.h],
    [stat.h], [fcntl.h], [log.c], [pipe.c] and [console.c].

    Pointers into the kernel's static tables ([proc[NPROC]], [cont[NCONT]],
    [icache.inode[NINODE]], [ftable.file[NFILE]], [bcache.buf[NBUF]]) are
    the index of the entry, with [None] for the null pointer.  Physical
    addresses are integers, with 0 for null.  [char] is unsigned on RISC-V,
    so characters are bytes, and a [char] array is the list of its bytes. *)
From S2P Require Import Prelude.
From stdpp Require Import base numbers list gmap strings.
From Stdlib Require Import ZArith Lia.

Local Open Scope Z_scope.

(** ** param.h *)

Definition NPROC : nat := 64.
Definition NOFILE : nat := 16.
Definition NFILE : nat := 100.
Definition NINODE : nat := 50.
Definition NDEV : Z := 10.
Definition ROOTDEV : Z := 1.
Definition MAXARG : Z := 32.
Definition MAXOPBLOCKS : Z := 10.
Definition LOGSIZE : Z := MAXOPBLOCKS * 3.
Definition NBUF : nat := 30.
Definition FSSIZE : Z := 5000.
Definition MAXPATH : Z := 128.
Definition NCONT : nat := 8.
Definition ROOTCONT : nat := 0.
Definition MAX_CDISK : Z := 64 * 40 * 1024.
Definition MAX_CMEM : Z := 64 * 100 * 4096.

(** ** riscv.h and memlayout.h *)

Definition PGSIZE : Z := 4096.
Definition MAXVA : Z := 2 ^ 38.
Definition KERNBASE : Z := 0x80000000.
Definition PHYSTOP : Z := KERNBASE + 128 * 1024 * 1024.
Definition TRAMPOLINE : Z := MAXVA - PGSIZE.
Definition TRAPFRAME : Z := TRAMPOLINE - PGSIZE.
Definition KSTACK (p : Z) : Z := TRAMPOLINE - (p + 1) * 2 * PGSIZE.
Definition UART0 : Z := 0x10000000.
Definition VIRTIO0 : Z := 0x10001000.
Definition CLINT : Z := 0x2000000.
Definition PLIC : Z := 0x0c000000.

(** [PGROUNDUP] and [PGROUNDDOWN]: the mask is [~(PGSIZE-1)]; the operands
    are 64-bit unsigned, so the sum of [PGROUNDUP] wraps. *)
Definition PGROUNDDOWN (a : Z) : Z := Z.land a (Z.lnot (PGSIZE - 1)).
Definition PGROUNDUP (sz : Z) : Z := PGROUNDDOWN (u64 (sz + PGSIZE - 1)).

Definition PTE_V : Z := Z.shiftl 1 0.
Definition PTE_R : Z := Z.shiftl 1 1.
Definition PTE_W : Z := Z.shiftl 1 2.
Definition PTE_X : Z := Z.shiftl 1 3.
Definition PTE_U : Z := Z.shiftl 1 4.

Definition PA2PTE (pa : Z) : Z := u64 (Z.shiftl (Z.shiftr pa 12) 10).
Definition PTE2PA (pte : Z) : Z := u64 (Z.shiftl (Z.shiftr pte 10) 12).
Definition PTE_FLAGS (pte : Z) : Z := Z.land pte 0x3FF.

Definition PXMASK : Z := 0x1FF.
Definition PXSHIFT (level : Z) : Z := 12 + 9 * level.
Definition PX (level va : Z) : Z := Z.land (Z.shiftr va (PXSHIFT level)) PXMASK.

(** ** proc.h *)

Inductive procstate := UNUSED | SLEEPING | RUNNABLE | RUNNING | ZOMBIE | SUSPENDED.
Inductive contstate := CUNUSED | CINITED | CRUNNABLE | CPAUSED | CSTOPPED.

#[export] Instance procstate_eq_dec : EqDecision procstate.
Proof. solve_decision. Defined.
#[export] Instance contstate_eq_dec : EqDecision contstate.
Proof. solve_decision. Defined.

(** The sleep-locks are those of the buffers and of the cached inodes. *)
Inductive slid := SLBuf (i : nat) | SLInode (i : nat).

(** The spin-locks of the kernel. *)
Inductive lockid :=
  | LPid | LCid | LKmem | LLog | LBcache | LIcache | LFtable | LTicks | LPr | LVdisk
  | LProc (i : nat) | LCont (i : nat) | LCons (i : nat) | LPipe (pa : Z) | LSleep (l : slid).

(** Sleep channels: the kernel uses the address of an object. *)
Inductive chan :=
  | CNone | CTicks | CLog | CDisk
  | CProc (i : nat) | CBuf (i : nat) | CCons (i : nat)
  | CPipeRead (pa : Z) | CPipeWrite (pa : Z) | CSleep (l : slid).

#[export] Instance slid_eq_dec : EqDecision slid.
Proof. solve_decision. Defined.
#[export] Instance lockid_eq_dec : EqDecision lockid.
Proof. solve_decision. Defined.
#[export] Instance chan_eq_dec : EqDecision chan.
Proof. solve_decision. Defined.

Definition lockid_code (l : lockid) : nat * Z :=
  match l with
  | LPid => (0%nat, 0) | LCid => (1%nat, 0) | LKmem => (2%nat, 0) | LLog => (3%nat, 0)
  | LBcache => (4%nat, 0) | LIcache => (5%nat, 0) | LFtable => (6%nat, 0)
  | LTicks => (7%nat, 0) | LPr => (8%nat, 0) | LVdisk => (9%nat, 0)
  | LProc i => (10%nat, Z.of_nat i) | LCont i => (11%nat, Z.of_nat i)
  | LCons i => (12%nat, Z.of_nat i) | LPipe pa => (13%nat, pa)
  | LSleep (SLBuf i) => (14%nat, Z.of_nat i) | LSleep (SLInode i) => (15%nat, Z.of_nat i)
  end.
Definition lockid_decode (c : nat * Z) : lockid :=
  match c with
  | (0, _) => LPid | (1, _) => LCid | (2, _) => LKmem | (3, _) => LLog
  | (4, _) => LBcache | (5, _) => LIcache | (6, _) => LFtable
  | (7, _) => LTicks | (8, _) => LPr | (9, _) => LVdisk
  | (10, z) => LProc (Z.to_nat z) | (11, z) => LCont (Z.to_nat z)
  | (12, z) => LCons (Z.to_nat z) | (13, z) => LPipe z
  | (14, z) => LSleep (SLBuf (Z.to_nat z)) | (_, z) => LSleep (SLInode (Z.to_nat z))
  end%nat.

#[export] Instance lockid_countable : Countable lockid.
Proof.
  refine (inj_countable' lockid_code lockid_decode _).
  intros [| | | | | | | | | | | | | |[]]; simpl; by rewrite ?Nat2Z.id.
Defined.

Record context := mkcontext {
  ctx_ra : Z; ctx_sp : Z; ctx_s : list Z (* s0..s11 *)
}.
#[export] Instance context_eta : Eta context := fun x =>
  mkcontext (ctx_ra x) (ctx_sp x) (ctx_s x).

Record proc := mkproc {
  p_state : procstate;
  p_parent : option nat;
  p_chan : chan;
  p_killed : Z;
  p_xstate : Z;
  p_pid : Z;
  p_local_pid : Z;
  p_kstack : Z;
  p_sz : Z;
  p_pagetable : Z;
  p_tf : Z;
  p_context : context;
  p_ofile : list (option nat);
  p_cwd : option nat;
  p_name : list Z;
  p_tracing : Z;
  p_cont : option nat;
  p_ticks : Z
}.
#[export] Instance proc_eta : Eta proc := fun x =>
  mkproc (p_state x) (p_parent x) (p_chan x) (p_killed x) (p_xstate x) (p_pid x)
    (p_local_pid x) (p_kstack x) (p_sz x) (p_pagetable x) (p_tf x) (p_context x)
    (p_ofile x) (p_cwd x) (p_name x) (p_tracing x) (p_cont x) (p_ticks x).

Record container := mkcontainer {
  c_state : contstate;
  c_nextlocalpid : Z;
  c_cid : Z;
  c_nextproctorun : option nat;
  c_used_proc : Z;
  c_used_mem : Z;
  c_used_dsk : Z;
  c_name : list Z;
  c_max_proc : Z;
  c_max_sz : Z;
  c_max_dsk : Z;
  c_rootdir : option nat;
  c_vc_name : list Z;
  c_isroot : Z;
  c_ticks : Z
}.
#[export] Instance container_eta : Eta container := fun x =>
  mkcontainer (c_state x) (c_nextlocalpid x) (c_cid x) (c_nextproctorun x) (c_used_proc x)
    (c_used_mem x) (c_used_dsk x) (c_name x) (c_max_proc x) (c_max_sz x) (c_max_dsk x)
    (c_rootdir x) (c_vc_name x) (c_isroot x) (c_ticks x).

(** The part of [struct cpu] the running hart uses, with its interrupt
    enable bit ([SSTATUS_SIE]); [ht_id] is its [tp] register. *)
Record hart := mkhart {
  ht_id : nat;
  ht_proc : option nat;
  ht_noff : Z;
  ht_intena : bool;
  ht_sie : bool
}.
#[export] Instance hart_eta : Eta hart := fun x =>
  mkhart (ht_id x) (ht_proc x) (ht_noff x) (ht_intena x) (ht_sie x).

(** ** sleeplock.h, buf.h, file.h, fs.h *)

Record sleeplock := mksleeplock { sl_locked : Z; sl_pid : Z }.
#[export] Instance sleeplock_eta : Eta sleeplock := fun x => mksleeplock (sl_locked x) (sl_pid x).

Definition BSIZE : Z := 1024.
Definition ROOTINO : Z := 1.
Definition FSMAGIC : Z := 0x10203040.
Definition NDIRECT : Z := 12.
Definition NINDIRECT : Z := BSIZE / 4.
Definition MAXFILE : Z := NDIRECT + NINDIRECT.
Definition DIRSIZ : Z := 14.
Definition BPB : Z := BSIZE * 8.
Definition DINODE_SIZE : Z := 64.
Definition IPB : Z := BSIZE / DINODE_SIZE.
Definition DIRENT_SIZE : Z := 16.

Definition T_DIR : Z := 1.
Definition T_FILE : Z := 2.
Definition T_DEVICE : Z := 3.

Definition O_RDONLY : Z := 0x000.
Definition O_WRONLY : Z := 0x001.
Definition O_RDWR : Z := 0x002.
Definition O_CREATE : Z := 0x200.

Record superblock := mksb {
  sb_magic : Z; sb_size : Z; sb_nblocks : Z; sb_ninodes : Z;
  sb_nlog : Z; sb_logstart : Z; sb_inodestart : Z; sb_bmapstart : Z
}.

Definition IBLOCK (i : Z) (sb : superblock) : Z := i / IPB + sb_inodestart sb.
Definition BBLOCK (b : Z) (sb : superblock) : Z := b / BPB + sb_bmapstart sb.

Record buf := mkbuf {
  b_valid : Z; b_disk : Z; b_dev : Z; b_blockno : Z;
  b_lock : sleeplock; b_refcnt : Z; b_data : list Z
}.
#[export] Instance buf_eta : Eta buf := fun x =>
  mkbuf (b_valid x) (b_disk x) (b_dev x) (b_blockno x) (b_lock x) (b_refcnt x) (b_data x).

Record inode := mkinode {
  i_dev : Z; i_inum : Z; i_ref : Z; i_lock : sleeplock; i_valid : Z;
  i_type : Z; i_major : Z; i_minor : Z; i_nlink : Z; i_size : Z; i_addrs : list Z
}.
#[export] Instance inode_eta : Eta inode := fun x =>
  mkinode (i_dev x) (i_inum x) (i_ref x) (i_lock x) (i_valid x) (i_type x)
    (i_major x) (i_minor x) (i_nlink x) (i_size x) (i_addrs x).

Inductive filetype := FD_NONE | FD_PIPE | FD_INODE | FD_DEVICE.
#[export] Instance filetype_eq_dec : EqDecision filetype.
Proof. solve_decision. Defined.

Record file := mkfile {
  f_type : filetype; f_ref : Z; f_readable : Z; f_writable : Z;
  f_pipe : Z; f_ip : option nat; f_off : Z; f_major : Z
}.
#[export] Instance file_eta : Eta file := fun x =>
  mkfile (f_type x) (f_ref x) (f_readable x) (f_writable x) (f_pipe x) (f_ip x) (f_off x) (f_major x).

(** ** pipe.c, log.c, console.c *)

Definition PIPESIZE : Z := 512.

Record pipe := mkpipe {
  pi_data : list Z; pi_nread : Z; pi_nwrite : Z; pi_readopen : Z; pi_writeopen : Z
}.
#[export] Instance pipe_eta : Eta pipe := fun x =>
  mkpipe (pi_data x) (pi_nread x) (pi_nwrite x) (pi_readopen x) (pi_writeopen x).

(** [struct log] with its [struct logheader lh]: [lh_n] and [lh_block]. *)
Record log := mklog {
  lg_start : Z; lg_size : Z; lg_outstanding : Z; lg_committing : Z; lg_dev : Z;
  lh_n : Z; lh_block : list Z
}.
#[export] Instance log_eta : Eta log := fun x =>
  mklog (lg_start x) (lg_size x) (lg_outstanding x) (lg_committing x) (lg_dev x) (lh_n x) (lh_block x).

Definition INPUT_BUF : Z := 128.

Record input := mkinput { in_buf : list Z; in_r : Z; in_w : Z; in_e : Z }.
#[export] Instance input_eta : Eta input := fun x => mkinput (in_buf x) (in_r x) (in_w x) (in_e x).

(** Unfolds the header constants, so that [lia] sees their values. *)
Ltac consts :=
  unfold NPROC, NOFILE, NFILE, NINODE, NDEV, ROOTDEV, MAXARG, LOGSIZE, MAXOPBLOCKS, NBUF, FSSIZE,
    MAXPATH, NCONT, ROOTCONT, MAX_CDISK, MAX_CMEM, TRAPFRAME, TRAMPOLINE, KSTACK, PHYSTOP,
    KERNBASE, MAXVA, PGSIZE, MAXFILE, NINDIRECT, NDIRECT, BPB, IPB, BSIZE, DIRSIZ, DINODE_SIZE,
    DIRENT_SIZE, PIPESIZE, INPUT_BUF in *.

Lemma PGROUNDDOWN_eq a : PGROUNDDOWN a = a - a mod PGSIZE.
Proof.
  unfold PGROUNDDOWN. change (PGSIZE - 1) with (Z.ones 12).
  rewrite <- Z.ldiff_land. rewrite Z.ldiff_ones_r by lia.
  rewrite Z.shiftl_mul_pow2, Z.shiftr_div_pow2 by lia. unfold PGSIZE.
  change 4096 with (2 ^ 12). pose proof (Z.div_mod a (2 ^ 12)). lia.
Qed.

Lemma PGROUNDDOWN_div a : PGROUNDDOWN a = PGSIZE * (a / PGSIZE).
Proof. rewrite PGROUNDDOWN_eq. pose proof (Z.div_mod a PGSIZE ltac:(done)). lia. Qed.

Lemma PGROUNDDOWN_mod a : PGROUNDDOWN a mod PGSIZE = 0.
Proof.
  rewrite PGROUNDDOWN_eq. rewrite Zminus_mod, Zmod_mod, Z.sub_diag. done.
Qed.

Lemma PGROUNDDOWN_bounds a : a - PGSIZE < PGROUNDDOWN a <= a.
Proof. rewrite PGROUNDDOWN_eq. pose proof (Z.mod_pos_bound a PGSIZE ltac:(done)). lia. Qed.

Lemma PGROUNDDOWN_id a : a mod PGSIZE = 0 -> PGROUNDDOWN a = a.
Proof. rewrite PGROUNDDOWN_eq. lia. Qed.

Lemma PGROUNDUP_mod a : PGROUNDUP a mod PGSIZE = 0.
Proof. apply PGROUNDDOWN_mod. Qed.

Lemma PGROUNDUP_bounds a : 0 <= a <= 2 ^ 64 - PGSIZE -> a <= PGROUNDUP a < a + PGSIZE.
Proof.
  intros Ha. unfold PGROUNDUP. unfold PGSIZE in Ha.
  pose proof (PGROUNDDOWN_bounds (u64 (a + PGSIZE - 1))) as Hb.
  rewrite u64_small in * by (unfold PGSIZE; lia). unfold PGSIZE in *. lia.
Qed.

(** Two page-aligned addresses are equal or a page apart. *)
Lemma page_step a b : a mod PGSIZE = 0 -> b mod PGSIZE = 0 -> a < b -> a + PGSIZE <= b.
Proof. unfold PGSIZE. intros. Z.to_euclidean_division_equations; lia. Qed.

(** ** Page-table entries *)

Lemma PX_range level va : 0 <= PX level va < 512.
Proof.
  unfold PX, PXMASK. change 0x1FF with (Z.ones 9). rewrite Z.land_ones by lia.
  apply Z.mod_pos_bound. lia.
Qed.

Lemma PX_eq level va : 0 <= level -> PX level va = va / 2 ^ (12 + 9 * level) mod 512.
Proof.
  intros. unfold PX, PXMASK, PXSHIFT. change 0x1FF with (Z.ones 9).
  rewrite Z.land_ones, Z.shiftr_div_pow2 by lia. done.
Qed.

(** The three indices determine the page. *)
Lemma PX_inj va va' : 0 <= va < MAXVA -> 0 <= va' < MAXVA ->
  PX 2 va = PX 2 va' -> PX 1 va = PX 1 va' -> PX 0 va = PX 0 va' -> va / PGSIZE = va' / PGSIZE.
Proof.
  unfold MAXVA, PGSIZE. intros Hv Hv'. rewrite !PX_eq by lia.
  change (2 ^ (12 + 9 * 2)) with 1073741824. change (2 ^ (12 + 9 * 1)) with 2097152.
  change (2 ^ (12 + 9 * 0)) with 4096. intros H2 H1 H0.
  Z.to_euclidean_division_equations; lia.
Qed.

Lemma PX_page level va : 0 <= level -> PX level (PGROUNDDOWN va) = PX level va.
Proof.
  intros. rewrite !PX_eq, PGROUNDDOWN_eq by lia. f_equal. unfold PGSIZE.
  replace (2 ^ (12 + 9 * level)) with (4096 * 2 ^ (9 * level)) by (rewrite Z.pow_add_r by lia; done).
  rewrite <- !Z.div_div by lia. f_equal. Z.to_euclidean_division_equations; lia.
Qed.

Lemma PA2PTE_div p : 0 <= p < 2 ^ 56 -> p mod PGSIZE = 0 -> PA2PTE p = p / 4.
Proof.
  intros Hp Hm. unfold PA2PTE. rewrite Z.shiftl_mul_pow2, Z.shiftr_div_pow2 by lia.
  unfold PGSIZE in *. change (2 ^ 12) with 4096. change (2 ^ 10) with 1024.
  rewrite u64_small; Z.to_euclidean_division_equations; lia.
Qed.

(** The entry for page [p] with flags [f]. *)
Lemma PTE2PA_lor p f : 0 <= p < 2 ^ 56 -> p mod PGSIZE = 0 -> 0 <= f < 1024 ->
  PTE2PA (Z.lor (PA2PTE p) f) = p.
Proof.
  intros Hp Hm Hf. unfold PTE2PA. rewrite Z.shiftr_lor.
  rewrite (Z.shiftr_div_pow2 f) by lia. rewrite (Z.div_small f) by lia. rewrite Z.lor_0_r.
  rewrite PA2PTE_div by done. rewrite Z.shiftl_mul_pow2, Z.shiftr_div_pow2 by lia.
  unfold PGSIZE in *. change (2 ^ 12) with 4096. change (2 ^ 10) with 1024.
  rewrite u64_small; Z.to_euclidean_division_equations; lia.
Qed.

Lemma PTE_FLAGS_lor p f : 0 <= p < 2 ^ 56 -> p mod PGSIZE = 0 -> 0 <= f < 1024 ->
  PTE_FLAGS (Z.lor (PA2PTE p) f) = f.
Proof.
  intros Hp Hm Hf. unfold PTE_FLAGS. rewrite Z.land_lor_distr_l, PA2PTE_div by done.
  change 0x3FF with (Z.ones 10). rewrite !Z.land_ones by lia.
  rewrite (Z.mod_small f) by lia.
  replace (p / 4 mod 2 ^ 10) with 0; [by rewrite Z.lor_0_l|].
  unfold PGSIZE in *. change (2 ^ 10) with 1024. Z.to_euclidean_division_equations; lia.
Qed.

Lemma PTE_range p f : 0 <= p < 2 ^ 56 -> p mod PGSIZE = 0 -> 0 <= f < 1024 ->
  0 <= Z.lor (PA2PTE p) f < 2 ^ 64.
Proof.
  intros Hp Hm Hf. rewrite PA2PTE_div by done.
  assert (0 <= p / 4) by (apply Z.div_pos; lia).
  split; [apply Z.lor_nonneg; lia|].
  destruct (Z.eq_dec (Z.lor (p / 4) f) 0) as [->|Hne]; [lia|].
  assert (0 <= Z.lor (p / 4) f) by (apply Z.lor_nonneg; lia).
  apply Z.log2_lt_pow2; [lia|]. rewrite Z.log2_lor by lia.
  apply Z.max_lub_lt.
  - destruct (Z.eq_dec (p / 4) 0) as [->|]; [done|]. apply Z.log2_lt_pow2; [lia|].
    Z.to_euclidean_division_equations; lia.
  - destruct (Z.eq_dec f 0) as [->|]; [done|]. apply Z.log2_lt_pow2; lia.
Qed.

Lemma PTE_V_set x : Z.land (Z.lor x PTE_V) PTE_V = PTE_V.
Proof. rewrite Z.land_lor_distr_l, Z.land_diag. apply Z.bits_inj'. intros n Hn.
  rewrite Z.lor_spec, Z.land_spec. by destruct (Z.testbit x n), (Z.testbit PTE_V n). Qed.
