(* ===== verification/Kstate.v ===== *)
(** The kernel state, the monad its functions run in, and the rules used to
    reason about them.

    A kernel function is a computation [K A := kstate -> outcome A] of one
    hart: it either returns a value with the state it leaves ([Ok]) or stops
    ([Stop]) for one of the [reason]s a kernel thread does not come back:
    [panic], an access outside an object or through a null pointer, a spin on
    a lock another hart holds, a sleep from which it is never woken, [for(;;)],
    [exit], or an exhausted loop budget of the model.

    What other processes and harts do while a thread is switched out is the
    parameter [env_swtch] of class [Env]: it maps the state in which the
    thread calls [swtch] to the state in which it runs again, if ever.  The
    link-time symbols of [kernel.ld] and the entry points written in assembly
    are the other members of [Env]. *)
From S2P Require Import Prelude Types.
From stdpp Require Import base numbers list gmap strings.
From Stdlib Require Import ZArith Lia.

Local Open Scope Z_scope.
Local Open Scope xv6_scope.

Record kstate := mkK {
  k_hart : hart;                   (* the running hart *)
  k_locks : gmap lockid nat;       (* held spin-locks, with the holding hart *)
  k_freelist : Z;                  (* kmem.freelist *)
  k_mem : gmap Z (list Z);         (* RAM: page address to its 4096 bytes *)
  k_disk : gmap Z (list Z);        (* disk: block number to its 1024 bytes *)
  k_writes : list (Z * list Z);    (* disk writes so far, the latest first *)
  k_out : list Z;                  (* characters sent to the uart, the latest first *)
  k_panicked : bool;
  k_pr_locking : bool;             (* pr.locking *)
  k_procs : list proc;             (* proc[NPROC] *)
  k_nextpid : Z;
  k_initproc : option nat;
  k_conts : list container;        (* cont[NCONT] *)
  k_ticks : Z;
  k_bufs : list buf;               (* bcache.buf *)
  k_lru : list nat;                (* bcache list from head.next to head.prev *)
  k_log : log;
  k_sb : superblock;
  k_inodes : list inode;           (* icache.inode *)
  k_files : list file;             (* ftable.file *)
  k_pipes : gmap Z pipe;           (* the pipe held by each pipe page *)
  k_cons : list input;             (* cons[NDEV] *)
  k_active : Z;
  k_consa : option nat;            (* consa *)
  k_devsw : list bool;             (* devsw[NDEV]: the console's functions are registered *)
  k_kpt : Z;                       (* kernel_pagetable *)
  k_root : option nat;             (* root_container *)
  k_first : bool                   (* first of forkret *)
}.
#[export] Instance kstate_eta : Eta kstate := fun x =>
  mkK (k_hart x) (k_locks x) (k_freelist x) (k_mem x) (k_disk x) (k_writes x) (k_out x)
    (k_panicked x) (k_pr_locking x) (k_procs x) (k_nextpid x) (k_initproc x) (k_conts x)
    (k_ticks x) (k_bufs x) (k_lru x) (k_log x) (k_sb x) (k_inodes x) (k_files x) (k_pipes x)
    (k_cons x) (k_active x) (k_consa x) (k_devsw x) (k_kpt x)
    (k_root x) (k_first x).

(** The static data the kernel starts with: zero but for [nextpid = 1] ([proc.c])
    [active = 1] ([console.c]) and [first = 1] ([forkret]). *)
Definition zero_proc : proc :=
  mkproc UNUSED None CNone 0 0 0 0 0 0 0 0 (mkcontext 0 0 (replicate 12 0)) (replicate NOFILE None)
    None (replicate 16 0) 0 None 0.
Definition zero_container : container :=
  mkcontainer CUNUSED 0 0 None 0 0 0 (replicate 16 0) 0 0 0 None (replicate 16 0) 0 0.
Definition zero_buf : buf := mkbuf 0 0 0 0 (mksleeplock 0 0) 0 (replicate 1024 0).
Definition zero_inode : inode := mkinode 0 0 0 (mksleeplock 0 0) 0 0 0 0 0 0 (replicate 13 0).
Definition zero_file : file := mkfile FD_NONE 0 0 0 0 None 0 0.
Definition zero_input : input := mkinput (replicate 128 0) 0 0 0.
Definition bss : kstate :=
  mkK (mkhart 0 None 0 false false) ∅ 0 ∅ ∅ [] [] false false (replicate NPROC zero_proc) 1 None
    (replicate NCONT zero_container) 0 (replicate NBUF zero_buf) []
    (mklog 0 0 0 0 0 0 (replicate 30 0)) (mksb 0 0 0 0 0 0 0 0) (replicate NINODE zero_inode)
    (replicate NFILE zero_file) ∅ (replicate 10 zero_input) 1 None
    (replicate 10 false) 0 None true.

(** Reduces the fields of an updated state and nothing else. *)
Ltac kfields :=
  cbn [set k_hart k_locks k_freelist k_mem k_disk k_writes k_out k_panicked
    k_pr_locking k_procs k_nextpid k_initproc k_conts k_ticks k_bufs k_lru k_log k_sb k_inodes
    k_files k_pipes k_cons k_active k_consa k_devsw k_kpt k_root k_first].

(** Writes updated states out in full. *)
Ltac kunfold := cbv beta iota delta [set k_hart k_locks k_freelist k_mem k_disk k_writes k_out k_panicked
    k_pr_locking k_procs k_nextpid k_initproc k_conts k_ticks k_bufs k_lru k_log k_sb k_inodes
    k_files k_pipes k_cons k_active k_consa k_devsw k_kpt k_root k_first].

Class Env := {
  env_swtch : kstate -> option kstate;
  env_patience : nat;   (* how often a thread that waits in a loop may wake up in vain *)
  sym_end : Z;          (* end[]: first address after the kernel *)
  sym_etext : Z;        (* etext[] *)
  sym_trampoline : Z;   (* trampoline[] *)
  sym_forkret : Z       (* address of forkret *)
}.

(** A machine for the examples: a kernel that leaves [n] pages of RAM free and
    threads that, once switched out, resume in the state they left. *)
Definition machine (n : Z) : Env := {|
  env_swtch := fun s => Some s;
  env_patience := 3;
  sym_end := PHYSTOP - n * PGSIZE - 100;
  sym_etext := KERNBASE + 8 * PGSIZE;
  sym_trampoline := KERNBASE + 7 * PGSIZE;
  sym_forkret := KERNBASE + 0x1234
|}.

Definition small_machine : Env := machine 16.

(** ** The monad *)

Inductive reason :=
  | Panic (msg : string)
  | Fault
  | Spin (l : lockid)
  | Asleep (c : chan)
  | Exited
  | Hang
  | OutOfFuel.

Inductive outcome (A : Type) :=
  | Ok (a : A) (s : kstate)
  | Stop (r : reason) (s : kstate).
Arguments Ok {A} a s.
Arguments Stop {A} r s.

Definition K (A : Type) : Type := kstate -> outcome A.

#[export] Instance K_ret : MRet K := fun A a s => Ok a s.
#[export] Instance K_bind : MBind K := fun A B f m s =>
  match m s with
  | Ok a s' => f a s'
  | Stop r s' => Stop r s'
  end.

Definition stop {A} (r : reason) : K A := fun s => Stop r s.
Definition fault {A} : K A := stop Fault.
Definition gets {A} (f : kstate -> A) : K A := fun s => Ok (f s) s.
Definition modify (f : kstate -> kstate) : K unit := fun s => Ok tt (f s).

(** A value that must exist: the access faults otherwise. *)
Definition deref {A} (o : option A) : K A :=
  match o with Some a => mret a | None => fault end.

Definition when (b : bool) (m : K unit) : K unit := if b then m else mret tt.

(** [for(x in l) body], and the same loop left by the first body that
    yields a result. *)
Fixpoint kfor {X} (l : list X) (body : X -> K unit) : K unit :=
  match l with
  | [] => mret tt
  | x :: l => body x ;; kfor l body
  end.

Fixpoint kfind {X R} (l : list X) (body : X -> K (option R)) : K (option R) :=
  match l with
  | [] => mret None
  | x :: l => r ← body x; match r with Some v => mret (Some v) | None => kfind l body end
  end.

(** The same with a variable [a] that the body updates. *)
Fixpoint kfold {X A} (l : list X) (body : A -> X -> K A) (a : A) : K A :=
  match l with
  | [] => mret a
  | x :: l => a ← body a x; kfold l body a
  end.

(** [while] with its local variables [v]: the body gives the next values
    or the value the loop is left with. *)
Fixpoint kloop {V R} (fuel : nat) (body : V -> K (V + R)) (v : V) : K R :=
  match fuel with
  | O => stop OutOfFuel
  | S fuel => r ← body v; match r with inl v' => kloop fuel body v' | inr x => mret x end
  end.

(** ** The kernel tables *)

Definition get_proc (i : nat) : K proc := o ← gets (fun s => k_procs s !! i); deref o.
Definition get_cont (i : nat) : K container := o ← gets (fun s => k_conts s !! i); deref o.
Definition get_inode (i : nat) : K inode := o ← gets (fun s => k_inodes s !! i); deref o.
Definition get_file (i : nat) : K file := o ← gets (fun s => k_files s !! i); deref o.
Definition get_buf (i : nat) : K buf := o ← gets (fun s => k_bufs s !! i); deref o.
Definition get_pipe (pa : Z) : K pipe := o ← gets (fun s => k_pipes s !! pa); deref o.
Definition get_cons (i : nat) : K input := o ← gets (fun s => k_cons s !! i); deref o.

Definition upd_proc (i : nat) (f : proc -> proc) : K unit :=
  p ← get_proc i; modify (set k_procs <[i := f p]>).
Definition upd_cont (i : nat) (f : container -> container) : K unit :=
  c ← get_cont i; modify (set k_conts <[i := f c]>).
Definition upd_inode (i : nat) (f : inode -> inode) : K unit :=
  p ← get_inode i; modify (set k_inodes <[i := f p]>).
Definition upd_file (i : nat) (f : file -> file) : K unit :=
  p ← get_file i; modify (set k_files <[i := f p]>).
Definition upd_buf (i : nat) (f : buf -> buf) : K unit :=
  b ← get_buf i; modify (set k_bufs <[i := f b]>).
Definition upd_pipe (pa : Z) (f : pipe -> pipe) : K unit :=
  p ← get_pipe pa; modify (set k_pipes <[pa := f p]>).
Definition upd_cons (i : nat) (f : input -> input) : K unit :=
  p ← get_cons i; modify (set k_cons <[i := f p]>).

(** Physical memory: whole pages and the 64-bit words in them. *)
Definition get_page (pa : Z) : K (list Z) := o ← gets (fun s => k_mem s !! pa); deref o.
Definition set_page (pa : Z) (bs : list Z) : K unit := modify (set k_mem <[pa := bs]>).

(** ** Reasoning *)

(** [wp m Q s]: from [s], [m] returns, with a value and a state in [Q]. *)
Definition wp {A} (m : K A) (Q : A -> kstate -> Prop) (s : kstate) : Prop :=
  match m s with Ok a s' => Q a s' | Stop _ _ => False end.

(** [stops m r s]: from [s], [m] does not return, for reason [r]. *)
Definition stops {A} (m : K A) (r : reason) (s : kstate) : Prop := exists s', m s = Stop r s'.

Section wp.
Implicit Types (s : kstate).

Lemma wp_Ok {A} (m : K A) Q s a s' : m s = Ok a s' -> wp m Q s <-> Q a s'.
Proof. intros H. unfold wp. by rewrite H. Qed.

Lemma wp_inv {A} (m : K A) Q s : wp m Q s -> exists a s', m s = Ok a s' /\ Q a s'.
Proof. unfold wp. destruct (m s); [eauto|done]. Qed.

Lemma wp_ret {A} (a : A) Q s : Q a s -> wp (mret a) Q s.
Proof. done. Qed.

Lemma wp_bind {A B} (m : K A) (f : A -> K B) Q s :
  wp m (fun a s' => wp (f a) Q s') s -> wp (m ≫= f) Q s.
Proof. unfold wp, mbind, K_bind. destruct (m s); [done|done]. Qed.

Lemma stops_here {A} r s : stops (@stop A r) r s.
Proof. by exists s. Qed.

Lemma stops_bind {A B} (m : K A) (f : A -> K B) r s : stops m r s -> stops (m ≫= f) r s.
Proof. intros [s' H]. exists s'. unfold mbind, K_bind. by rewrite H. Qed.

Lemma stops_later {A B} (m : K A) (f : A -> K B) r s :
  wp m (fun a s' => stops (f a) r s') s -> stops (m ≫= f) r s.
Proof. unfold wp, stops, mbind, K_bind. destruct (m s); done. Qed.

Lemma wp_mono {A} (m : K A) (Q Q' : A -> kstate -> Prop) s :
  wp m Q s -> (forall a s', Q a s' -> Q' a s') -> wp m Q' s.
Proof. unfold wp. destruct (m s); auto. Qed.

Lemma wp_gets {A} (f : kstate -> A) Q s : Q (f s) s -> wp (gets f) Q s.
Proof. done. Qed.

Lemma wp_modify (f : kstate -> kstate) Q s : Q tt (f s) -> wp (modify f) Q s.
Proof. done. Qed.

Lemma wp_deref {A} (o : option A) Q s a : o = Some a -> Q a s -> wp (deref o) Q s.
Proof. by intros ->. Qed.

Lemma wp_kfind {X A} (I : list X -> kstate -> Prop) (l : list X) (body : X -> K (option A)) Q s :
  I [] s ->
  (forall pre x post s, l = pre ++ x :: post -> I pre s ->
     wp (body x) (fun r s' => match r with Some v => Q (Some v) s' | None => I (pre ++ [x]) s' end) s) ->
  (forall s, I l s -> Q None s) ->
  wp (kfind l body) Q s.
Proof.
  intros H0 Hstep Hend.
  enough (forall post pre s, l = pre ++ post -> I pre s -> wp (kfind post body) Q s) as H
    by (by apply (H l [])).
  clear H0 s. induction post as [|x post IH]; intros pre s Hl Hs; simpl.
  - apply wp_ret, Hend. by rewrite Hl, app_nil_r.
  - apply wp_bind. eapply wp_mono; [by eapply Hstep|].
    intros [v|] s' H'; [by apply wp_ret|].
    apply (IH (pre ++ [x])); [|done]. by rewrite Hl, <- app_assoc.
Qed.

Lemma wp_kfor {X} (I : list X -> kstate -> Prop) (l : list X) (body : X -> K unit) Q s :
  I [] s ->
  (forall pre x post s, l = pre ++ x :: post -> I pre s ->
     wp (body x) (fun _ s' => I (pre ++ [x]) s') s) ->
  (forall s, I l s -> Q tt s) ->
  wp (kfor l body) Q s.
Proof.
  intros H0 Hstep Hend.
  enough (forall post pre s, l = pre ++ post -> I pre s -> wp (kfor post body) Q s) as H
    by (by apply (H l [])).
  clear H0 s. induction post as [|x post IH]; intros pre s Hl Hs; simpl.
  - apply wp_ret, Hend. by rewrite Hl, app_nil_r.
  - apply wp_bind. eapply wp_mono; [by eapply Hstep|].
    intros [] s' H'. apply (IH (pre ++ [x])); [|done]. by rewrite Hl, <- app_assoc.
Qed.

Lemma wp_kfold {X A} (I : list X -> A -> kstate -> Prop) (l : list X) (body : A -> X -> K A) Q a s :
  I [] a s ->
  (forall pre x post a s, l = pre ++ x :: post -> I pre a s ->
     wp (body a x) (fun a' s' => I (pre ++ [x]) a' s') s) ->
  (forall a s, I l a s -> Q a s) ->
  wp (kfold l body a) Q s.
Proof.
  intros H0 Hstep Hend.
  enough (forall post pre a s, l = pre ++ post -> I pre a s -> wp (kfold post body a) Q s) as H
    by (by apply (H l [])).
  clear H0 a s. induction post as [|x post IH]; intros pre a s Hl Hs; simpl.
  - apply wp_ret, Hend. by rewrite Hl, app_nil_r.
  - apply wp_bind. eapply wp_mono; [by eapply Hstep|].
    intros a' s' H'. apply (IH (pre ++ [x])); [|done]. by rewrite Hl, <- app_assoc.
Qed.
End wp.

Lemma kloop_S {V R} fuel (body : V -> K (V + R)) v :
  kloop (S fuel) body v = (r ← body v; match r with inl v' => kloop fuel body v' | inr x => mret x end).
Proof. done. Qed.

(** A loop that decreases a measure needs no more fuel than its measure. *)
Lemma wp_kloop {V R} (I : V -> kstate -> Prop) (mu : V -> nat) (body : V -> K (V + R)) Q fuel v s :
  I v s -> (mu v < fuel)%nat ->
  (forall v s, I v s ->
     wp (body v) (fun r s' => match r with
                              | inl v' => I v' s' /\ (mu v' < mu v)%nat
                              | inr x => Q x s' end) s) ->
  wp (kloop fuel body v) Q s.
Proof.
  intros HI Hf Hstep. revert v s HI Hf.
  induction fuel as [|fuel IH]; intros v s HI Hf; [lia|]; simpl.
  apply wp_bind. eapply wp_mono; [by apply Hstep|].
  intros [v'|x] s'; [intros [HI' ?]; apply IH; [done|lia]|apply wp_ret].
Qed.

Section tables.
Context (s : kstate).

Lemma wp_get_proc i p Q : k_procs s !! i = Some p -> Q p s -> wp (get_proc i) Q s.
Proof. intros H HQ. unfold get_proc. apply wp_bind, wp_gets. by eapply wp_deref. Qed.

Lemma wp_upd_proc i p f Q :
  k_procs s !! i = Some p -> Q tt (s <| k_procs ::= <[i := f p]> |>) -> wp (upd_proc i f) Q s.
Proof. intros H HQ. unfold upd_proc. apply wp_bind. eapply wp_get_proc; [done|]. by apply wp_modify. Qed.

Lemma wp_get_cont i c Q : k_conts s !! i = Some c -> Q c s -> wp (get_cont i) Q s.
Proof. intros H HQ. unfold get_cont. apply wp_bind, wp_gets. by eapply wp_deref. Qed.

Lemma wp_upd_cont i c f Q :
  k_conts s !! i = Some c -> Q tt (s <| k_conts ::= <[i := f c]> |>) -> wp (upd_cont i f) Q s.
Proof. intros H HQ. unfold upd_cont. apply wp_bind. eapply wp_get_cont; [done|]. by apply wp_modify. Qed.

Lemma wp_get_inode i x Q : k_inodes s !! i = Some x -> Q x s -> wp (get_inode i) Q s.
Proof. intros H HQ. unfold get_inode. apply wp_bind, wp_gets. by eapply wp_deref. Qed.

Lemma wp_upd_inode i x f Q :
  k_inodes s !! i = Some x -> Q tt (s <| k_inodes ::= <[i := f x]> |>) -> wp (upd_inode i f) Q s.
Proof. intros H HQ. unfold upd_inode. apply wp_bind. eapply wp_get_inode; [done|]. by apply wp_modify. Qed.

Lemma wp_get_file i x Q : k_files s !! i = Some x -> Q x s -> wp (get_file i) Q s.
Proof. intros H HQ. unfold get_file. apply wp_bind, wp_gets. by eapply wp_deref. Qed.

Lemma wp_upd_file i x f Q :
  k_files s !! i = Some x -> Q tt (s <| k_files ::= <[i := f x]> |>) -> wp (upd_file i f) Q s.
Proof. intros H HQ. unfold upd_file. apply wp_bind. eapply wp_get_file; [done|]. by apply wp_modify. Qed.

Lemma wp_get_buf i x Q : k_bufs s !! i = Some x -> Q x s -> wp (get_buf i) Q s.
Proof. intros H HQ. unfold get_buf. apply wp_bind, wp_gets. by eapply wp_deref. Qed.

Lemma wp_upd_buf i x f Q :
  k_bufs s !! i = Some x -> Q tt (s <| k_bufs ::= <[i := f x]> |>) -> wp (upd_buf i f) Q s.
Proof. intros H HQ. unfold upd_buf. apply wp_bind. eapply wp_get_buf; [done|]. by apply wp_modify. Qed.

Lemma wp_get_pipe pa x Q : k_pipes s !! pa = Some x -> Q x s -> wp (get_pipe pa) Q s.
Proof. intros H HQ. unfold get_pipe. apply wp_bind, wp_gets. by eapply wp_deref. Qed.

Lemma wp_upd_pipe pa x f Q :
  k_pipes s !! pa = Some x -> Q tt (s <| k_pipes ::= <[pa := f x]> |>) -> wp (upd_pipe pa f) Q s.
Proof. intros H HQ. unfold upd_pipe. apply wp_bind. eapply wp_get_pipe; [done|]. by apply wp_modify. Qed.

Lemma wp_get_cons i x Q : k_cons s !! i = Some x -> Q x s -> wp (get_cons i) Q s.
Proof. intros H HQ. unfold get_cons. apply wp_bind, wp_gets. by eapply wp_deref. Qed.

Lemma wp_upd_cons i x f Q :
  k_cons s !! i = Some x -> Q tt (s <| k_cons ::= <[i := f x]> |>) -> wp (upd_cons i f) Q s.
Proof. intros H HQ. unfold upd_cons. apply wp_bind. eapply wp_get_cons; [done|]. by apply wp_modify. Qed.

Lemma wp_get_page pa bs Q : k_mem s !! pa = Some bs -> Q bs s -> wp (get_page pa) Q s.
Proof. intros H HQ. unfold get_page. apply wp_bind, wp_gets. by eapply wp_deref. Qed.

Lemma wp_set_page pa bs Q : Q tt (s <| k_mem ::= <[pa := bs]> |>) -> wp (set_page pa bs) Q s.
Proof. intros HQ. by apply wp_modify. Qed.

Lemma insert_proc_id i p : k_procs s !! i = Some p -> s <| k_procs ::= <[i := p]> |> = s.
Proof. intros H. unfold set. simpl. rewrite list_insert_id by done. by destruct s. Qed.

Lemma insert_proc_twice i p q :
  s <| k_procs ::= <[i := p]> |> <| k_procs ::= <[i := q]> |> = s <| k_procs ::= <[i := q]> |>.
Proof. unfold set. simpl. by rewrite list_insert_insert_eq. Qed.

Lemma insert_cont_id i p : k_conts s !! i = Some p -> s <| k_conts ::= <[i := p]> |> = s.
Proof. intros H. unfold set. simpl. rewrite list_insert_id by done. by destruct s. Qed.

Lemma insert_cont_twice i p q :
  s <| k_conts ::= <[i := p]> |> <| k_conts ::= <[i := q]> |> = s <| k_conts ::= <[i := q]> |>.
Proof. unfold set. simpl. by rewrite list_insert_insert_eq. Qed.
End tables.

#[export] Hint Rewrite insert_proc_twice insert_cont_twice : xv6.

(** Looks a table entry up: an assumption, or the entry just written. *)
Ltac tbl :=
  first [ eassumption
        | kfields; apply lookup_insert_eq
        | kfields; apply list_lookup_insert_eq; rewrite ?length_insert;
          eapply lookup_lt_Some; eassumption ].

(** Symbolic execution up to the next call, test or loop. *)
Ltac kstep1 :=
  cbv beta;
  lazymatch goal with
  | |- wp (mret _) _ _ => apply wp_ret
  | |- wp (mbind _ _) _ _ => apply wp_bind
  | |- wp (gets _) _ _ => apply wp_gets
  | |- wp (modify _) _ _ => apply wp_modify
  | |- wp (get_cont _) _ _ => eapply wp_get_cont; [tbl|]
  | |- wp (get_proc _) _ _ => eapply wp_get_proc; [tbl|]
  | |- wp (upd_cont _ _) _ _ => eapply wp_upd_cont; [tbl|]
  | |- wp (upd_proc _ _) _ _ => eapply wp_upd_proc; [tbl|]
  | |- wp (get_inode _) _ _ => eapply wp_get_inode; [tbl|]
  | |- wp (upd_inode _ _) _ _ => eapply wp_upd_inode; [tbl|]
  | |- wp (get_file _) _ _ => eapply wp_get_file; [tbl|]
  | |- wp (upd_file _ _) _ _ => eapply wp_upd_file; [tbl|]
  | |- wp (get_buf _) _ _ => eapply wp_get_buf; [tbl|]
  | |- wp (upd_buf _ _) _ _ => eapply wp_upd_buf; [tbl|]
  | |- wp (get_pipe _) _ _ => eapply wp_get_pipe; [tbl|]
  | |- wp (upd_pipe _ _) _ _ => eapply wp_upd_pipe; [tbl|]
  | |- wp (get_cons _) _ _ => eapply wp_get_cons; [tbl|]
  | |- wp (upd_cons _ _) _ _ => eapply wp_upd_cons; [tbl|]
  | |- wp (get_page _) _ _ => eapply wp_get_page; [tbl|]
  | |- wp (set_page _ _) _ _ => apply wp_set_page
  | |- wp (deref (Some _)) _ _ => eapply wp_deref; [reflexivity|]
  | |- wp (when true _) _ _ => unfold when
  | |- wp (when false _) _ _ => unfold when
  end.
Ltac kstep := repeat kstep1; cbv beta.

(** Decides the closed parts of a test. *)
Ltac kbool := rewrite ?Z.eqb_refl; cbn [negb orb andb]; cbv iota.
