(* ===== verification/Cstring.v ===== *)
(** [kernel/string.c] and the [strcmp] of [kernel/proc.c].

    A pointer to characters is the list of the bytes from there to the end of
    the object; [None] is an access outside it.  [memmove] takes the object
    both of its pointers point into and the two offsets, so that the overlap
    its direction test is for can occur. *)
From S2P Require Import Prelude Types.
From stdpp Require Import base numbers list gmap strings.
From Stdlib Require Import ZArith Lia.

Local Open Scope Z_scope.

(** One byte store, defined inside the object only. *)
Definition put (l : list Z) (i : nat) (v : Z) : option (list Z) :=
  if decide (i < length l)%nat then Some (<[i := v]> l) else None.

Fixpoint memset_from (i n : nat) (c : Z) (l : list Z) : option (list Z) :=
  match n with
  | O => Some l
  | S n => l' ← put l i (u8 c); memset_from (S i) n c l'
  end.

(** [void* memset(void *dst, int c, uint n)] *)
Definition memset (l : list Z) (c : Z) (n : nat) : option (list Z) := memset_from 0 n c l.

(** [int memcmp(const void *v1, const void *v2, uint n)] *)
Fixpoint memcmp (s1 s2 : list Z) (n : nat) : option Z :=
  match n with
  | O => Some 0
  | S n =>
    match s1, s2 with
    | a :: s1, b :: s2 => if negb (a =? b) then Some (a - b) else memcmp s1 s2 n
    | _, _ => None
    end
  end.

(** The two copy loops of [memmove]: [*--d = *--s] and [*d++ = *s++]. *)
Fixpoint copy_backward (m : list Z) (d s n : nat) : option (list Z) :=
  match n with
  | O => Some m
  | S n => v ← m !! (s + n)%nat; m' ← put m (d + n)%nat v; copy_backward m' d s n
  end.

Fixpoint copy_forward (m : list Z) (d s n : nat) : option (list Z) :=
  match n with
  | O => Some m
  | S n => v ← m !! s; m' ← put m d v; copy_forward m' (S d) (S s) n
  end.

(** [void* memmove(void *dst, const void *src, uint n)] *)
Definition memmove (m : list Z) (d s n : nat) : option (list Z) :=
  if ((s <? d) && (d <? s + n))%nat then copy_backward m d s n else copy_forward m d s n.

(** [void* memcpy(void *dst, const void *src, uint n)] *)
Definition memcpy (m : list Z) (d s n : nat) : option (list Z) := memmove m d s n.

(** [int strncmp(const char *p, const char *q, uint n)] *)
Fixpoint strncmp (p q : list Z) (n : nat) : option Z :=
  match n with
  | O => Some 0
  | S n =>
    a ← head p;
    b ← head q;
    if negb (a =? 0) && (a =? b) then strncmp (tail p) (tail q) n else Some (a - b)
  end.

(** The second loop of [strncpy]: [while(n-- > 0) *s++ = 0]. *)
Fixpoint zero_from (s : list Z) (i n : nat) : option (list Z) :=
  match n with
  | O => Some s
  | S n => s' ← put s i 0; zero_from s' (S i) n
  end.

Fixpoint strncpy_from (s : list Z) (i : nat) (t : list Z) (n : nat) : option (list Z) :=
  match n with
  | O => Some s
  | S n =>
    c ← head t;
    s' ← put s i c;
    if c =? 0 then zero_from s' (S i) n else strncpy_from s' (S i) (tail t) n
  end.

(** [char* strncpy(char *s, const char *t, int n)]; a negative [n] copies nothing. *)
Definition strncpy (s t : list Z) (n : Z) : option (list Z) := strncpy_from s 0 t (Z.to_nat n).

Fixpoint safestrcpy_from (s : list Z) (i : nat) (t : list Z) (n : nat) : option (list Z) :=
  match n with
  | O => put s i 0
  | S n =>
    c ← head t;
    s' ← put s i c;
    if c =? 0 then put s' (S i) 0 else safestrcpy_from s' (S i) (tail t) n
  end.

(** [char* safestrcpy(char *s, const char *t, int n)] *)
Definition safestrcpy (s t : list Z) (n : Z) : option (list Z) :=
  if n <=? 0 then Some s else safestrcpy_from s 0 t (Z.to_nat (n - 1)).

(** [int strlen(const char *s)] *)
Fixpoint strlen (s : list Z) : option Z :=
  match s with
  | [] => None
  | c :: s => if c =? 0 then Some 0 else n ← strlen s; Some (n + 1)
  end.

(** [int strcmp(char string1[], char string2[])] of [proc.c] *)
Fixpoint strcmp (string1 string2 : list Z) : option Z :=
  match string1, string2 with
  | a :: s1, b :: s2 =>
    if negb (a =? b) then Some (if a <? b then -1 else 1)
    else if a =? 0 then Some 0
    else strcmp s1 s2
  | _, _ => None
  end.

(** ** What a buffer holds as a C string *)

(** The characters before the first NUL. *)
Fixpoint cstr (l : list Z) : list Z :=
  match l with
  | [] => []
  | c :: l => if c =? 0 then [] else c :: cstr l
  end.

(** The bytes of a literal as the C source writes it, with the escapes it
    uses, and the same with its NUL. *)
Fixpoint unescape (l : list Z) : list Z :=
  match l with
  | [] => []
  | c :: l =>
    match l with
    | d :: l' =>
      if (c =? 92) && (d =? 110) then 10 :: unescape l'
      else if (c =? 92) && (d =? 116) then 9 :: unescape l'
      else if (c =? 92) && (d =? 92) then 92 :: unescape l'
      else c :: unescape l
    | [] => [c]
    end
  end.
Definition bytes_of (s : string) : list Z :=
  unescape ((fun a => Z.of_N (Ascii.N_of_ascii a)) <$> String.list_ascii_of_string s).
Definition lit (s : string) : list Z := bytes_of s ++ [0].
#[global] Arguments bytes_of : simpl never.
#[global] Arguments lit : simpl never.

Lemma put_Some l i v : (i < length l)%nat -> put l i v = Some (<[i := v]> l).
Proof. intros. unfold put. by rewrite decide_True. Qed.

Lemma terminated_split l : 0 ∈ l -> exists r, l = cstr l ++ 0 :: r.
Proof.
  induction l as [|c l IH]; [by rewrite elem_of_nil|]. simpl. intros Hin.
  destruct (Z.eqb_spec c 0) as [->|Hc]; [by exists l|].
  apply elem_of_cons in Hin as [?|?]; [done|].
  destruct IH as [r Hr]; [done|]. exists r. simpl. by f_equal.
Qed.

Lemma cstr_nonzero l : Forall (fun c => c <> 0) (cstr l).
Proof. induction l as [|c l IH]; simpl; [done|]. destruct (Z.eqb_spec c 0); by constructor. Qed.

Lemma cstr_app_zero l r : Forall (fun c => c <> 0) l -> cstr (l ++ 0 :: r) = l.
Proof.
  induction 1 as [|c l Hc _ IH]; simpl; [done|].
  rewrite (proj2 (Z.eqb_neq c 0)) by done. by f_equal.
Qed.

(** ** Correctness *)

Lemma memset_from_spec n : forall i c l, (i + n <= length l)%nat ->
  memset_from i n c l = Some (splice i (replicate n (u8 c)) l).
Proof.
  induction n as [|n IH]; intros i c l Hl; simpl.
  - unfold splice. simpl. rewrite Nat.add_0_r. by rewrite take_drop.
  - rewrite put_Some by lia. simpl. rewrite IH by (rewrite length_insert; lia).
    f_equal. apply list_eq. intros j.
    rewrite !lookup_splice by (simpl; rewrite ?length_insert, ?length_replicate; lia).
    simpl. rewrite length_replicate.
    destruct (decide (j = i)) as [->|].
    + rewrite decide_False by lia. rewrite decide_True by lia.
      rewrite list_lookup_insert_eq by lia. by rewrite Nat.sub_diag.
    + rewrite list_lookup_insert_ne by done.
      repeat case_decide; try lia; [|done].
      replace (j - i)%nat with (S (j - S i)) by lia. done.
Qed.

(** [memset] fills the first [n] bytes and changes nothing else. *)
Lemma memset_spec l c n : (n <= length l)%nat ->
  memset l c n = Some (replicate n (u8 c) ++ drop n l).
Proof.
  intros. unfold memset. rewrite memset_from_spec by lia.
  unfold splice. simpl. by rewrite length_replicate.
Qed.

Lemma copy_backward_spec n : forall m d s, (s < d)%nat -> (d + n <= length m)%nat ->
  copy_backward m d s n = Some (splice d (slice s n m) m).
Proof.
  induction n as [|n IH]; intros m d s Hsd Hd; simpl.
  - unfold slice, splice. simpl. by rewrite Nat.add_0_r, take_drop.
  - destruct (lookup_lt_is_Some_2 m (s + n)%nat) as [v Hv]; [lia|].
    rewrite Hv. simpl. rewrite put_Some by lia. simpl.
    rewrite IH by (rewrite ?length_insert; lia). f_equal. apply list_eq. intros j.
    rewrite !lookup_splice by (rewrite ?length_slice; rewrite ?length_insert; lia).
    rewrite !length_slice by (rewrite ?length_insert; lia).
    destruct (decide (j = d + n)%nat) as [->|Hj].
    + rewrite decide_False by lia. rewrite list_lookup_insert_eq by lia.
      rewrite decide_True by lia. rewrite lookup_slice by lia.
      rewrite <- Hv. f_equal. lia.
    + destruct (decide (d <= j < d + n)%nat).
      * rewrite (decide_True _ _ (P := (d <= j < d + S n)%nat)) by lia.
        rewrite !lookup_slice by lia. apply list_lookup_insert_ne. lia.
      * rewrite decide_False by lia. by apply list_lookup_insert_ne.
Qed.

Lemma copy_forward_spec n : forall m d s,
  (d <= s \/ s + n <= d)%nat -> (d + n <= length m)%nat -> (s + n <= length m)%nat ->
  copy_forward m d s n = Some (splice d (slice s n m) m).
Proof.
  induction n as [|n IH]; intros m d s Hov Hd Hs; simpl.
  - unfold slice, splice. simpl. by rewrite Nat.add_0_r, take_drop.
  - destruct (lookup_lt_is_Some_2 m s) as [v Hv]; [lia|].
    rewrite Hv. simpl. rewrite put_Some by lia. simpl.
    rewrite IH by (rewrite ?length_insert; lia). f_equal. apply list_eq. intros j.
    rewrite !lookup_splice by (rewrite ?length_slice; rewrite ?length_insert; lia).
    rewrite !length_slice by (rewrite ?length_insert; lia).
    destruct (decide (j = d)) as [->|Hj].
    + rewrite decide_False by lia. rewrite list_lookup_insert_eq by lia.
      rewrite decide_True by lia. rewrite lookup_slice by lia.
      rewrite <- Hv. f_equal. lia.
    + destruct (decide (S d <= j < S d + n)%nat).
      * rewrite (decide_True _ _ (P := (d <= j < d + S n)%nat)) by lia.
        rewrite !lookup_slice by lia.
        rewrite list_lookup_insert_ne by lia. f_equal. lia.
      * rewrite decide_False by lia. by apply list_lookup_insert_ne.
Qed.

(** [memmove] copies the bytes the source had before the call, whatever the
    overlap of the two ranges. *)
Lemma memmove_spec m d s n :
  (d + n <= length m)%nat -> (s + n <= length m)%nat ->
  memmove m d s n = Some (splice d (slice s n m) m).
Proof.
  intros Hd Hs. unfold memmove.
  destruct (Nat.ltb_spec s d); simpl.
  - destruct (Nat.ltb_spec d (s + n)); [by apply copy_backward_spec|].
    apply copy_forward_spec; lia.
  - apply copy_forward_spec; lia.
Qed.

Lemma strlen_spec l : 0 ∈ l -> strlen l = Some (Z.of_nat (length (cstr l))).
Proof.
  induction l as [|c l IH]; [by rewrite elem_of_nil|]. intros Hin. simpl.
  apply elem_of_cons in Hin as [<-|?]; [done|].
  destruct (Z.eqb_spec c 0); [done|]. rewrite IH by done. simpl. f_equal. lia.
Qed.

(** Over the length of [p], [strncmp] decides whether [p] is a prefix of [q]:
    the test container names are looked up with. *)
Lemma strncmp_strlen_prefix p q :
  0 ∈ p -> (length (cstr p) <= length q)%nat ->
  exists r, strncmp p q (length (cstr p)) = Some r /\ (r = 0 <-> cstr p `prefix_of` q).
Proof.
  revert q. induction p as [|a p IH]; [intros ? ?%elem_of_nil; done|]. intros q Hin. simpl.
  destruct (Z.eqb_spec a 0) as [->|Ha]; simpl.
  - intros _. exists 0. split; [done|]. split; [intros _; apply prefix_nil|done].
  - intros Hq. destruct q as [|b q]; simpl in *; [lia|].
    rewrite (proj2 (Z.eqb_neq a 0)) by done. simpl.
    apply elem_of_cons in Hin as [?|Hin]; [done|].
    destruct (Z.eqb_spec a b) as [->|Hab].
    + destruct (IH q) as (r & Hr & Hiff); [done|lia|].
      exists r. split; [done|]. rewrite Hiff. split; [apply prefix_cons|].
      intros ?%prefix_cons_inv_2. done.
    + exists (a - b). split; [done|]. split; [lia|].
      intros ?%prefix_cons_inv_1. done.
Qed.

Lemma zero_from_spec n : forall i s, (i + n <= length s)%nat ->
  zero_from s i n = Some (splice i (replicate n 0) s).
Proof.
  intros i s Hl. pose proof (memset_from_spec n i 0 s Hl) as Hm.
  change (u8 0) with 0 in Hm. rewrite <- Hm. clear Hm.
  revert i s Hl. induction n as [|n IH]; intros i s Hl; simpl; [done|].
  change (u8 0) with 0. rewrite put_Some by lia. simpl. apply IH. rewrite length_insert. lia.
Qed.

Lemma splice_cons {A} i (x : A) new l : (i + S (length new) <= length l)%nat ->
  splice (S i) new (<[i := x]> l) = splice i (x :: new) l.
Proof.
  intros Hl. apply list_eq. intros j.
  rewrite !lookup_splice by (simpl; rewrite ?length_insert; lia). simpl.
  destruct (decide (j = i)) as [->|].
  - rewrite decide_False by lia. rewrite decide_True by lia.
    rewrite list_lookup_insert_eq by lia. by rewrite Nat.sub_diag.
  - rewrite list_lookup_insert_ne by done. repeat case_decide; try lia; [|done].
    replace (j - i)%nat with (S (j - S i)) by lia. done.
Qed.

(** What [strncpy] leaves in the first [n] bytes: the string, truncated to
    [n] bytes or padded with NULs up to [n]. *)
Definition strncpy_image (n : nat) (t : list Z) : list Z :=
  take n (cstr t ++ replicate n 0).

Lemma length_strncpy_image n t : length (strncpy_image n t) = n.
Proof. unfold strncpy_image. rewrite length_take, length_app, length_replicate. lia. Qed.

Lemma strncpy_image_cons n c t : c <> 0 ->
  strncpy_image (S n) (c :: t) = c :: strncpy_image n t.
Proof.
  intros Hc. unfold strncpy_image. simpl. rewrite (proj2 (Z.eqb_neq c 0)) by done. simpl.
  f_equal. change (0 :: replicate n 0) with (replicate (S n) 0).
  rewrite replicate_S_end, app_assoc, take_app_le; [done|].
  rewrite length_app, length_replicate. lia.
Qed.

Lemma strncpy_from_spec n : forall i s t,
  (i + n <= length s)%nat -> 0 ∈ t \/ (n <= length t)%nat ->
  strncpy_from s i t n = Some (splice i (strncpy_image n t) s).
Proof.
  induction n as [|n IH]; intros i s t Hl Ht; simpl.
  - unfold strncpy_image, splice. simpl. by rewrite Nat.add_0_r, take_drop.
  - destruct t as [|c t]; [destruct Ht as [?%elem_of_nil|?]; simpl in *; [done|lia]|].
    simpl. rewrite put_Some by lia. simpl.
    destruct (Z.eqb_spec c 0) as [->|Hc].
    + rewrite zero_from_spec by (rewrite length_insert; lia).
      rewrite splice_cons by (rewrite length_replicate; lia).
      unfold strncpy_image. simpl. by rewrite take_ge by (rewrite length_replicate; lia).
    + pose proof (length_strncpy_image n t).
      rewrite IH; [|rewrite length_insert; lia|].
      * rewrite splice_cons by lia. by rewrite strncpy_image_cons.
      * destruct Ht as [[?|?]%elem_of_cons|?]; [done|by left|right; simpl in *; lia].
Qed.

(** [strncpy] writes exactly [n] bytes: the string cut at [n] or padded with NULs. *)
Lemma strncpy_spec s t n :
  0 <= n -> (Z.to_nat n <= length s)%nat -> 0 ∈ t \/ (Z.to_nat n <= length t)%nat ->
  strncpy s t n = Some (strncpy_image (Z.to_nat n) t ++ drop (Z.to_nat n) s).
Proof.
  intros ? Hs Ht. unfold strncpy. rewrite strncpy_from_spec by (done || lia).
  unfold splice. simpl. by rewrite length_strncpy_image.
Qed.

(** The bytes [safestrcpy] writes: it stores a second NUL when it copied one. *)
Fixpoint safestrcpy_image (n : nat) (t : list Z) : list Z :=
  match n, t with
  | S n, c :: t => if c =? 0 then [0; 0] else c :: safestrcpy_image n t
  | _, _ => [0]
  end.

Lemma length_safestrcpy_image n t : (length (safestrcpy_image n t) <= S n)%nat.
Proof.
  revert t. induction n as [|n IH]; intros [|c t]; simpl; try lia.
  destruct (c =? 0); simpl; [lia|]. specialize (IH t). lia.
Qed.

Lemma splice_1 {A} i (x : A) l : (i < length l)%nat -> <[i := x]> l = splice i [x] l.
Proof.
  intros. rewrite <- splice_cons by (simpl; lia). unfold splice. simpl.
  by rewrite Nat.add_0_r, take_drop.
Qed.

Lemma safestrcpy_from_spec n : forall i s t,
  (i + S n <= length s)%nat -> 0 ∈ t \/ (n <= length t)%nat ->
  safestrcpy_from s i t n = Some (splice i (safestrcpy_image n t) s).
Proof.
  induction n as [|n IH]; intros i s t Hl Ht; simpl.
  - rewrite put_Some by lia. by rewrite splice_1 by lia.
  - destruct t as [|c t]; [destruct Ht as [?%elem_of_nil|?]; simpl in *; [done|lia]|].
    simpl. rewrite put_Some by lia. simpl.
    destruct (Z.eqb_spec c 0) as [->|Hc].
    + rewrite put_Some by (rewrite length_insert; lia).
      by rewrite splice_1, splice_cons by (rewrite ?length_insert; simpl; lia).
    + pose proof (length_safestrcpy_image n t).
      rewrite IH; [by rewrite splice_cons by lia|rewrite length_insert; lia|].
      destruct Ht as [[?|?]%elem_of_cons|?]; [done|by left|right; simpl in *; lia].
Qed.

Lemma cstr_safestrcpy_image n t r :
  cstr (safestrcpy_image n t ++ r) = take n (cstr t).
Proof.
  revert t. induction n as [|n IH]; intros [|c t]; simpl; try done.
  destruct (Z.eqb_spec c 0) as [->|Hc]; simpl; [done|].
  rewrite (proj2 (Z.eqb_neq c 0)) by done. by rewrite IH.
Qed.

(** [safestrcpy] into a buffer of [n] bytes always leaves a terminated
    string: the source, cut to [n-1] characters. *)
Lemma safestrcpy_spec s t n :
  0 < n -> (Z.to_nat n <= length s)%nat -> 0 ∈ t ->
  exists s', safestrcpy s t n = Some s' /\ length s' = length s /\ 0 ∈ s' /\
    cstr s' = take (Z.to_nat n - 1) (cstr t).
Proof.
  intros Hn Hs Ht. unfold safestrcpy. rewrite (proj2 (Z.leb_gt _ _)) by lia.
  replace (Z.to_nat (n - 1)) with (Z.to_nat n - 1)%nat by lia.
  set (k := (Z.to_nat n - 1)%nat). pose proof (length_safestrcpy_image k t).
  rewrite safestrcpy_from_spec by (lia || auto).
  eexists. split; [done|]. rewrite length_splice by lia. split; [done|].
  unfold splice. simpl. split; [|apply cstr_safestrcpy_image].
  apply elem_of_app. left. clear. revert t.
  induction k as [|k IH]; intros [|c t]; simpl; try set_solver.
  destruct (c =? 0); set_solver.
Qed.
