(* ===== verification/Machine.v ===== *)
(** A RISC-V hart as [kernel/riscv.h] and the assembly files use it: registers, control and status registers, and
    memory in doublewords behind the translation that [satp] selects.

    The translation, the part of [mstatus] that [sstatus] shows, the traps that can be delegated, and what a C function
    called from assembly does are those of the class [Platform].  Instructions are fetched from a list: the page with the code is taken to be mapped
    throughout.  An access that is not mapped or not aligned, and running past the end of the list, have no result. *)
From S2P Require Import Prelude Types.
From stdpp Require Import functions base numbers list gmap strings.
From Stdlib Require Import ZArith Lia.

Local Open Scope Z_scope.
Local Open Scope xv6_scope.

(** ** State *)

Inductive reg :=
  ZERO | RA | SP | GP | TP | T0 | T1 | T2 | S0 | S1 | A0 | A1 | A2 | A3 | A4 | A5 | A6 | A7
  | S2 | S3 | S4 | S5 | S6 | S7 | S8 | S9 | S10 | S11 | T3 | T4 | T5 | T6.
Inductive csr :=
  MHARTID | MSTATUS | MEPC | MEDELEG | MIDELEG | MTVEC | MSCRATCH | MIE | MIP | MCOUNTEREN | TIME
  | SSTATUS | SIP | SIE | SEPC | STVEC | SATP | SSCRATCH | SCAUSE | STVAL.
#[export] Instance reg_eq_dec : EqDecision reg.
Proof. solve_decision. Defined.
#[export] Instance csr_eq_dec : EqDecision csr.
Proof. solve_decision. Defined.

Inductive priv := User_mode | Supervisor_mode | Machine_mode.
Record machine := mkmachine { m_priv : priv; m_reg : reg -> Z; m_csr : csr -> Z; m_mem : gmap Z Z }.
#[export] Instance machine_eta : Eta machine := fun x => mkmachine (m_priv x) (m_reg x) (m_csr x) (m_mem x).

Class Platform := {
  translate : Z -> Z -> option Z;              (* satp, virtual address *)
  sstatus_mask : Z;                            (* the bits of mstatus seen as sstatus *)
  medeleg_mask : Z;                            (* the exceptions and the interrupts that can be delegated: *)
  mideleg_mask : Z;                            (* the other bits of medeleg and mideleg are read-only zeros *)
  call : string -> machine -> option machine   (* from the jump into a C function to its return *)
}.

Section machine.
Context {PF : Platform}.
Implicit Types m : machine.

Definition get m (r : reg) : Z := if decide (r = ZERO) then 0 else m_reg m r.
Definition put (r : reg) (v : Z) m : machine := if decide (r = ZERO) then m else m <| m_reg ::= <[r := u64 v]> |>.

(** [sstatus], [sie] and [sip] are views of the machine's registers; of [sip] only the software interrupt can be written. *)
Definition view (mask old x : Z) : Z := Z.lor (Z.land old (Z.lnot mask)) (Z.land x mask).
Definition csr_read m (c : csr) : Z :=
  match c with
  | SSTATUS => Z.land (m_csr m MSTATUS) sstatus_mask
  | SIE => Z.land (m_csr m MIE) (m_csr m MIDELEG)
  | SIP => Z.land (m_csr m MIP) (m_csr m MIDELEG)
  | c => m_csr m c
  end.
Definition csr_write (c : csr) (x : Z) m : machine :=
  match c with
  | SSTATUS => m <| m_csr ::= <[MSTATUS := view sstatus_mask (m_csr m MSTATUS) x]> |>
  | SIE => m <| m_csr ::= <[MIE := view (m_csr m MIDELEG) (m_csr m MIE) x]> |>
  | SIP => m <| m_csr ::= <[MIP := view (Z.land (m_csr m MIDELEG) 2) (m_csr m MIP) x]> |>
  | MEDELEG => m <| m_csr ::= <[MEDELEG := Z.land x medeleg_mask]> |>
  | MIDELEG => m <| m_csr ::= <[MIDELEG := Z.land x mideleg_mask]> |>
  | MHARTID | TIME => m
  | c => m <| m_csr ::= <[c := x]> |>
  end.

(** The physical address of the doubleword at a virtual address; in machine mode addresses are physical. *)
Definition at_va m (va : Z) : option Z :=
  pa ← match m_priv m with Machine_mode => Some (u64 va) | _ => translate (m_csr m SATP) (u64 va) end;
  if (pa mod 8 =? 0) && bool_decide (is_Some (m_mem m !! pa)) then Some pa else None.
Definition load_va m (va : Z) : option Z := pa ← at_va m va; m_mem m !! pa.
Definition store_va (va v : Z) m : option machine := pa ← at_va m va; Some (m <| m_mem ::= <[pa := v]> |>).

(** ** Instructions *)

Inductive instr :=
  | Sd (r : reg) (off : Z) (b : reg) | Ld (r : reg) (off : Z) (b : reg)
  | Addi (rd rs : reg) (imm : Z) | Iadd (rd r1 r2 : reg) | Imul (rd r1 r2 : reg) | Li (rd : reg) (imm : Z)
  | Csrrw (rd : reg) (c : csr) (rs : reg) | Csrr (rd : reg) (c : csr) | Csrw (c : csr) (rs : reg)
  | Sfence | Call (f : string) | Jr (r : reg) | Jal (pc : Z) | Sret | Mret | Ecall.

(** How a stretch of code is left; a jump or a call out of it does not record a return address. *)
Inductive leave := Jump (pc : Z) | Sreturn | Mreturn | Trap_ecall.

Definition exec (i : instr) m : option (machine + leave) :=
  match i with
  | Sd r off b => m' ← store_va (get m b + off) (get m r) m; Some (inl m')
  | Ld r off b => v ← load_va m (get m b + off); Some (inl (put r v m))
  | Addi rd rs imm => Some (inl (put rd (get m rs + imm) m))
  | Iadd rd r1 r2 => Some (inl (put rd (get m r1 + get m r2) m))
  | Imul rd r1 r2 => Some (inl (put rd (get m r1 * get m r2) m))
  | Li rd imm => Some (inl (put rd imm m))
  | Csrrw rd c rs => Some (inl (put rd (csr_read m c) (csr_write c (get m rs) m)))
  | Csrr rd c => Some (inl (put rd (csr_read m c) m))
  | Csrw c rs => Some (inl (csr_write c (get m rs) m))
  | Sfence => Some (inl m)
  | Call f => m' ← call f m; Some (inl m')
  | Jr r => Some (inr (Jump (get m r)))
  | Jal pc => Some (inr (Jump pc))
  | Sret => Some (inr Sreturn)
  | Mret => Some (inr Mreturn)
  | Ecall => Some (inr Trap_ecall)
  end.
Fixpoint run (p : list instr) m : option (leave * machine) :=
  match p with
  | [] => None
  | i :: p => match exec i m with
              | Some (inl m') => run p m'
              | Some (inr l) => Some (l, m)
              | None => None
              end
  end.

(** ** [kernel/riscv.h] *)

Definition MSTATUS_MPP_MASK : Z := Z.shiftl 3 11.
Definition MSTATUS_MPP_M : Z := Z.shiftl 3 11.
Definition MSTATUS_MPP_S : Z := Z.shiftl 1 11.
Definition MSTATUS_MPP_U : Z := Z.shiftl 0 11.
Definition MSTATUS_MIE : Z := Z.shiftl 1 3.
Definition SSTATUS_SIE : Z := Z.shiftl 1 1.
Definition SIE_SEIE : Z := Z.shiftl 1 9.
Definition SIE_STIE : Z := Z.shiftl 1 5.
Definition SIE_SSIE : Z := Z.shiftl 1 1.
Definition MIE_MTIE : Z := Z.shiftl 1 7.

Definition r_mhartid m : Z := csr_read m MHARTID.
Definition r_mstatus m : Z := csr_read m MSTATUS.
Definition w_mstatus (x : Z) m : machine := csr_write MSTATUS x m.
Definition w_mepc (x : Z) m : machine := csr_write MEPC x m.
Definition r_sstatus m : Z := csr_read m SSTATUS.
Definition w_sstatus (x : Z) m : machine := csr_write SSTATUS x m.
Definition r_sip m : Z := csr_read m SIP.
Definition w_sip (x : Z) m : machine := csr_write SIP x m.
Definition r_sie m : Z := csr_read m SIE.
Definition w_sie (x : Z) m : machine := csr_write SIE x m.
Definition r_mie m : Z := csr_read m MIE.
Definition w_mie (x : Z) m : machine := csr_write MIE x m.
Definition w_sepc (x : Z) m : machine := csr_write SEPC x m.
Definition r_sepc m : Z := csr_read m SEPC.
Definition r_medeleg m : Z := csr_read m MEDELEG.
Definition w_medeleg (x : Z) m : machine := csr_write MEDELEG x m.
Definition r_mideleg m : Z := csr_read m MIDELEG.
Definition w_mideleg (x : Z) m : machine := csr_write MIDELEG x m.
Definition w_stvec (x : Z) m : machine := csr_write STVEC x m.
Definition r_stvec m : Z := csr_read m STVEC.
Definition w_mtvec (x : Z) m : machine := csr_write MTVEC x m.
Definition w_satp (x : Z) m : machine := csr_write SATP x m.
Definition r_satp m : Z := csr_read m SATP.
Definition w_sscratch (x : Z) m : machine := csr_write SSCRATCH x m.
Definition w_mscratch (x : Z) m : machine := csr_write MSCRATCH x m.
Definition r_scause m : Z := csr_read m SCAUSE.
Definition r_stval m : Z := csr_read m STVAL.
Definition w_mcounteren (x : Z) m : machine := csr_write MCOUNTEREN x m.
Definition r_mcounteren m : Z := csr_read m MCOUNTEREN.
Definition r_time m : Z := csr_read m TIME.
Definition r_sp m : Z := get m SP.
Definition r_tp m : Z := get m TP.
Definition w_tp (x : Z) m : machine := put TP x m.
Definition r_ra m : Z := get m RA.
Definition sfence_vma m : machine := m.

Definition csr_intr_on m : machine :=
  let m := w_sie (Z.lor (Z.lor (Z.lor (r_sie m) SIE_SEIE) SIE_STIE) SIE_SSIE) m in
  w_sstatus (Z.lor (r_sstatus m) SSTATUS_SIE) m.
Definition csr_intr_off m : machine := w_sstatus (Z.land (r_sstatus m) (Z.lnot SSTATUS_SIE)) m.
Definition csr_intr_get m : bool := negb (Z.land (r_sstatus m) SSTATUS_SIE =? 0).
End machine.
