(* ===== verification/Asm.v ===== *)
(** The assembly of the kernel: [kernel/swtch.S], [kernel/trampoline.S], [kernel/kernelvec.S], run by [Machine].

    The theorems say what survives: a system call changes only [a0] of the user's registers, a context switch resumes
    a thread where it left off, and interrupts in the kernel and in machine mode are invisible to the code they
    interrupt. *)
From S2P Require Import Prelude Types Machine.
From stdpp Require Import functions base numbers list gmap strings.
From Stdlib Require Import ZArith Lia.

Local Open Scope Z_scope.
Local Open Scope xv6_scope.

(** [void swtch(struct context *old, struct context *new)] *)
Definition swtch : list instr :=
  [Sd RA 0 A0; Sd SP 8 A0; Sd S0 16 A0; Sd S1 24 A0; Sd S2 32 A0; Sd S3 40 A0; Sd S4 48 A0; Sd S5 56 A0;
   Sd S6 64 A0; Sd S7 72 A0; Sd S8 80 A0; Sd S9 88 A0; Sd S10 96 A0; Sd S11 104 A0; Ld RA 0 A1; Ld SP 8 A1;
   Ld S0 16 A1; Ld S1 24 A1; Ld S2 32 A1; Ld S3 40 A1; Ld S4 48 A1; Ld S5 56 A1; Ld S6 64 A1; Ld S7 72 A1;
   Ld S8 80 A1; Ld S9 88 A1; Ld S10 96 A1; Ld S11 104 A1; Jr RA].

(** Traps from user space start here. *)
Definition uservec : list instr :=
  [Csrrw A0 SSCRATCH A0; Sd RA 40 A0; Sd SP 48 A0; Sd GP 56 A0; Sd TP 64 A0; Sd T0 72 A0; Sd T1 80 A0;
   Sd T2 88 A0; Sd S0 96 A0; Sd S1 104 A0; Sd A1 120 A0; Sd A2 128 A0; Sd A3 136 A0; Sd A4 144 A0;
   Sd A5 152 A0; Sd A6 160 A0; Sd A7 168 A0; Sd S2 176 A0; Sd S3 184 A0; Sd S4 192 A0; Sd S5 200 A0;
   Sd S6 208 A0; Sd S7 216 A0; Sd S8 224 A0; Sd S9 232 A0; Sd S10 240 A0; Sd S11 248 A0; Sd T3 256 A0;
   Sd T4 264 A0; Sd T5 272 A0; Sd T6 280 A0; Csrr T0 SSCRATCH; Sd T0 112 A0; Ld SP 8 A0; Ld TP 32 A0;
   Ld T0 16 A0; Ld T1 0 A0; Csrw SATP T1; Sfence; Jr T0].

(** [userret(TRAPFRAME, pagetable)] *)
Definition userret : list instr :=
  [Csrw SATP A1; Sfence; Ld T0 112 A0; Csrw SSCRATCH T0; Ld RA 40 A0; Ld SP 48 A0; Ld GP 56 A0; Ld TP 64 A0;
   Ld T0 72 A0; Ld T1 80 A0; Ld T2 88 A0; Ld S0 96 A0; Ld S1 104 A0; Ld A1 120 A0; Ld A2 128 A0; Ld A3 136 A0;
   Ld A4 144 A0; Ld A5 152 A0; Ld A6 160 A0; Ld A7 168 A0; Ld S2 176 A0; Ld S3 184 A0; Ld S4 192 A0;
   Ld S5 200 A0; Ld S6 208 A0; Ld S7 216 A0; Ld S8 224 A0; Ld S9 232 A0; Ld S10 240 A0; Ld S11 248 A0;
   Ld T3 256 A0; Ld T4 264 A0; Ld T5 272 A0; Ld T6 280 A0; Csrrw A0 SSCRATCH A0; Sret].

(** Interrupts and exceptions in supervisor mode. *)
Definition kernelvec : list instr :=
  [Addi SP SP (-256); Sd RA 0 SP; Sd SP 8 SP; Sd GP 16 SP; Sd TP 24 SP; Sd T0 32 SP; Sd T1 40 SP; Sd T2 48 SP;
   Sd S0 56 SP; Sd S1 64 SP; Sd A0 72 SP; Sd A1 80 SP; Sd A2 88 SP; Sd A3 96 SP; Sd A4 104 SP; Sd A5 112 SP;
   Sd A6 120 SP; Sd A7 128 SP; Sd S2 136 SP; Sd S3 144 SP; Sd S4 152 SP; Sd S5 160 SP; Sd S6 168 SP;
   Sd S7 176 SP; Sd S8 184 SP; Sd S9 192 SP; Sd S10 200 SP; Sd S11 208 SP; Sd T3 216 SP; Sd T4 224 SP;
   Sd T5 232 SP; Sd T6 240 SP; Call "kerneltrap"; Ld RA 0 SP; Ld SP 8 SP; Ld GP 16 SP; Ld T0 32 SP;
   Ld T1 40 SP; Ld T2 48 SP; Ld S0 56 SP; Ld S1 64 SP; Ld A0 72 SP; Ld A1 80 SP; Ld A2 88 SP; Ld A3 96 SP;
   Ld A4 104 SP; Ld A5 112 SP; Ld A6 120 SP; Ld A7 128 SP; Ld S2 136 SP; Ld S3 144 SP; Ld S4 152 SP;
   Ld S5 160 SP; Ld S6 168 SP; Ld S7 176 SP; Ld S8 184 SP; Ld S9 192 SP; Ld S10 200 SP; Ld S11 208 SP;
   Ld T3 216 SP; Ld T4 224 SP; Ld T5 232 SP; Ld T6 240 SP; Addi SP SP 256; Sret].

(** The timer interrupt in machine mode. *)
Definition timervec : list instr :=
  [Csrrw A0 MSCRATCH A0; Sd A1 0 A0; Sd A2 8 A0; Sd A3 16 A0; Ld A1 32 A0; Ld A2 40 A0; Ld A3 0 A1;
   Iadd A3 A3 A2; Sd A3 0 A1; Li A1 2; Csrw SIP A1; Ld A3 16 A0; Ld A2 8 A0; Ld A1 0 A0; Csrrw A0 MSCRATCH A0;
   Mret].

(** ** Runs of stores and loads *)

Section asm.
Context {PF : Platform}.
Implicit Types m : machine.

Definition saves (b : reg) (l : list (reg * Z)) : list instr := (fun x => Sd x.1 x.2 b) <$> l.
Definition loads (b : reg) (l : list (reg * Z)) : list instr := (fun x => Ld x.1 x.2 b) <$> l.
Definition stored (pa : Z) (g : reg -> Z) (l : list (reg * Z)) (mem : gmap Z Z) : gmap Z Z :=
  foldl (fun mem x => <[pa + x.2 := g x.1]> mem) mem l.
Definition loaded_regs (pa : Z) (mem : gmap Z Z) (l : list (reg * Z)) (g : reg -> Z) : reg -> Z :=
  foldl (fun g x => <[x.1 := default 0 (mem !! (pa + x.2))]> g) g l.

(** The [n] bytes at the virtual address [va] are the doublewords at [pa]. *)
Definition mapped m (va pa n : Z) : Prop :=
  pa mod 8 = 0 /\ forall o, 0 <= o < n -> o mod 8 = 0 ->
    (match m_priv m with Machine_mode => Some (u64 (va + o)) | _ => translate (m_csr m SATP) (u64 (va + o)) end) = Some (pa + o) /\
    is_Some (m_mem m !! (pa + o)).

(** The words of memory and of registers are 64 bits. *)
Definition words m : Prop := (forall r, 0 <= m_reg m r < 2 ^ 64) /\ forall a v, m_mem m !! a = Some v -> 0 <= v < 2 ^ 64.
Definition slots_ok (n : Z) (l : list (reg * Z)) : Prop := Forall (fun x => 0 <= x.2 < n /\ x.2 mod 8 = 0 /\ x.1 <> ZERO) l.

Lemma mapped_at m va pa n o : mapped m va pa n -> 0 <= o < n -> o mod 8 = 0 -> at_va m (va + o) = Some (pa + o).
Proof.
  intros [Hpa H] Ho Hm. destruct (H o Ho Hm) as [Ht Hs]. unfold at_va. rewrite Ht. cbn [mbind option_bind].
  rewrite bool_decide_eq_true_2 by done. assert (((pa + o) mod 8 =? 0) = true) as ->; [|done].
  apply Z.eqb_eq. rewrite Z.add_mod, Hpa, Hm by lia. done.
Qed.

Lemma mapped_mem m va pa n mem : mapped m va pa n -> (forall a, is_Some (m_mem m !! a) -> is_Some (mem !! a)) -> mapped (m <| m_mem := mem |>) va pa n.
Proof. intros [Hpa H] Hm. split; [done|]. intros o Ho Ho8. destruct (H o Ho Ho8) as [Ht Hs]. split; [done|]. by apply Hm. Qed.

Lemma mapped_regs m va pa n g : mapped m va pa n -> mapped (m <| m_reg := g |>) va pa n.
Proof. done. Qed.

Lemma run_saves l : forall m b pa n rest, slots_ok n l -> b <> ZERO -> mapped m (m_reg m b) pa n ->
  run (saves b l ++ rest) m = run rest (m <| m_mem := stored pa (m_reg m) l (m_mem m) |>).
Proof.
  induction l as [|[r o] l IH]; intros m b pa n rest Hl Hb Hm; [by destruct m|]. apply Forall_cons in Hl as [(Ho & Ho8 & Hr) Hl]. cbn [fst snd] in *.
  cbn [saves fmap list_fmap app run exec fst snd]. unfold store_va, get. rewrite !decide_False by done.
  rewrite (mapped_at _ _ _ _ _ Hm) by done. cbn [mbind option_bind]. fold (saves b l). rewrite (IH _ b pa n); [done|done|done|].
  apply mapped_mem; [done|]. intros a Ha. destruct (decide (a = pa + o)) as [->|]; [rewrite lookup_insert_eq; eauto|by rewrite lookup_insert_ne].
Qed.

Lemma u64_word v : 0 <= v < 2 ^ 64 -> u64 v = v.
Proof. intros. unfold u64. by apply Z.mod_small. Qed.

(** Loading the base register itself must give what it has. *)
Lemma run_loads l : forall m b pa n rest, slots_ok n l -> b <> ZERO -> mapped m (m_reg m b) pa n -> words m ->
  (forall o, (b, o) ∈ l -> m_mem m !! (pa + o) = Some (m_reg m b)) ->
  run (loads b l ++ rest) m = run rest (m <| m_reg := loaded_regs pa (m_mem m) l (m_reg m) |>).
Proof.
  induction l as [|[r o] l IH]; intros m b pa n rest Hl Hb Hm Hw Hbase; [by destruct m|]. apply Forall_cons in Hl as [(Ho & Ho8 & Hr) Hl]. cbn [fst snd] in *.
  cbn [loads fmap list_fmap app run exec fst snd]. unfold load_va, get. rewrite decide_False by done. rewrite (mapped_at _ _ _ _ _ Hm) by done.
  destruct (proj2 (proj2 Hm o Ho Ho8)) as [v Hv]. cbn [mbind option_bind]. rewrite Hv. cbn [mbind option_bind]. unfold put. rewrite decide_False by done.
  rewrite u64_word by (eapply (proj2 Hw); exact Hv). fold (loads b l).
  assert (<[r := v]> (m_reg m) b = m_reg m b) as Eb.
  { destruct (decide (b = r)) as [<-|]; [|by rewrite fn_lookup_insert_ne]. rewrite fn_lookup_insert. rewrite (Hbase o) in Hv by (by left). by injection Hv as ->. }
  rewrite (IH _ b pa n); [|done|done| | |].
  - unfold set. cbn. do 2 f_equal. rewrite Hv. done.
  - cbn [m_reg set]. rewrite Eb. exact Hm.
  - destruct Hw as [Hw1 Hw2]. split; [|done]. intros r'. cbn [m_reg set]. destruct (decide (r' = r)) as [->|]; [rewrite fn_lookup_insert; eauto|by rewrite fn_lookup_insert_ne].
  - intros o' Ho'. cbn [m_reg m_mem set]. rewrite Eb. apply Hbase. by right.
Qed.

Lemma stored_other pa g l : forall mem a, (forall r o, (r, o) ∈ l -> a <> pa + o) -> stored pa g l mem !! a = mem !! a.
Proof.
  induction l as [|[r o] l IH]; intros mem a H; [done|]. cbn [stored foldl fst snd]. fold (stored pa g l (<[pa + o := g r]> mem)).
  rewrite IH by (intros r' o' ?; apply (H r'); by right). apply lookup_insert_ne. intros E. apply (H r o); [by left|done].
Qed.

Lemma stored_range pa n g l mem a : slots_ok n l -> a < pa \/ pa + n <= a -> stored pa g l mem !! a = mem !! a.
Proof. intros Hl Ha. apply stored_other. intros r o Hin. apply (proj1 (Forall_forall _ _) Hl) in Hin as (Ho & _). cbn in Ho. lia. Qed.

Lemma stored_lookup pa g l : forall mem r o, NoDup l.*2 -> (r, o) ∈ l -> stored pa g l mem !! (pa + o) = Some (g r).
Proof.
  induction l as [|[r' o'] l IH]; intros mem r o Hnd Hin; [by apply elem_of_nil in Hin|]. cbn in Hnd. apply NoDup_cons in Hnd as [Hno Hnd].
  cbn [stored foldl fst snd]. fold (stored pa g l (<[pa + o' := g r']> mem)). apply elem_of_cons in Hin as [E|Hin]; [|by apply IH].
  injection E as -> ->. rewrite stored_other; [apply lookup_insert_eq|]. intros r o Hin E. apply Hno. replace o' with o by lia. apply list_elem_of_fmap. by exists (r, o).
Qed.

Lemma loaded_other pa mem l : forall g r, (r ∉ l.*1) -> loaded_regs pa mem l g r = g r.
Proof.
  induction l as [|[r' o] l IH]; intros g r H; [done|]. cbn in H. apply not_elem_of_cons in H as [Hne H]. cbn [loaded_regs foldl fst snd].
  fold (loaded_regs pa mem l (<[r' := default 0 (mem !! (pa + o))]> g)). rewrite IH by done. by rewrite fn_lookup_insert_ne.
Qed.

Lemma loaded_lookup pa mem l : forall g r o, NoDup l.*1 -> (r, o) ∈ l -> loaded_regs pa mem l g r = default 0 (mem !! (pa + o)).
Proof.
  induction l as [|[r' o'] l IH]; intros g r o Hnd Hin; [by apply elem_of_nil in Hin|]. cbn in Hnd. apply NoDup_cons in Hnd as [Hno Hnd].
  cbn [loaded_regs foldl fst snd]. fold (loaded_regs pa mem l (<[r' := default 0 (mem !! (pa + o'))]> g)).
  apply elem_of_cons in Hin as [E|Hin]; [|by apply IH]. injection E as -> ->. rewrite loaded_other by done. by rewrite fn_lookup_insert.
Qed.

Lemma stored_words pa l : forall mem g, (forall r, 0 <= g r < 2 ^ 64) -> (forall a v, mem !! a = Some v -> 0 <= v < 2 ^ 64) ->
  forall a v, stored pa g l mem !! a = Some v -> 0 <= v < 2 ^ 64.
Proof.
  induction l as [|[r o] l IH]; intros mem g Hg Hm; [done|]. cbn [stored foldl fst snd]. apply (IH _ g Hg). intros a v.
  destruct (decide (a = pa + o)) as [->|]; [rewrite lookup_insert_eq; intros [= <-]; auto|rewrite lookup_insert_ne by done; apply Hm].
Qed.

Lemma stored_dom pa g l : forall mem a, is_Some (mem !! a) -> is_Some (stored pa g l mem !! a).
Proof.
  induction l as [|[r o] l IH]; intros mem a H; [done|]. cbn [stored foldl fst snd]. apply (IH (<[pa + o := g r]> mem)).
  destruct (decide (a = pa + o)) as [->|]; [rewrite lookup_insert_eq; eauto|by rewrite lookup_insert_ne].
Qed.

Lemma loaded_words pa mem l : forall g, (forall r, 0 <= g r < 2 ^ 64) -> (forall a v, mem !! a = Some v -> 0 <= v < 2 ^ 64) ->
  forall r, 0 <= loaded_regs pa mem l g r < 2 ^ 64.
Proof.
  induction l as [|[r o] l IH]; intros g Hg Hm; [done|]. cbn [loaded_regs foldl fst snd]. apply IH; [|done]. intros r'.
  destruct (decide (r' = r)) as [->|]; [|by rewrite fn_lookup_insert_ne]. rewrite fn_lookup_insert.
  destruct (mem !! (pa + o)) as [v|] eqn:E; [by eapply Hm|done].
Qed.

Lemma word_insert (g : reg -> Z) r v : 0 <= v < 2 ^ 64 -> (forall r, 0 <= g r < 2 ^ 64) -> forall r', 0 <= <[r := v]> g r' < 2 ^ 64.
Proof. intros Hv Hg r'. destruct (decide (r' = r)) as [->|]; [by rewrite fn_lookup_insert|by rewrite fn_lookup_insert_ne]. Qed.

(** What a list of registers and offsets is when each has its own place. *)
Definition layout (n : Z) (l : list (reg * Z)) : bool :=
  bool_decide (NoDup l.*2) && bool_decide (NoDup l.*1) && forallb (fun x => (0 <=? x.2) && (x.2 <? n) && (x.2 mod 8 =? 0) && negb (bool_decide (x.1 = ZERO))) l.

Lemma layout_ok n l : layout n l = true -> NoDup l.*2 /\ NoDup l.*1 /\ slots_ok n l.
Proof.
  unfold layout. rewrite !andb_true_iff, !bool_decide_eq_true. intros [[H2 H1] H]. split_and!; [done|done|].
  apply Forall_forall. intros x Hx. rewrite forallb_forall in H. specialize (H x). rewrite <- list_elem_of_In in H. apply H in Hx.
  rewrite !andb_true_iff, negb_true_iff, bool_decide_eq_false in Hx. destruct Hx as [[[? ?] ?] ?]. split_and!; [lia|lia|lia|done].
Qed.

(** ** System calls and other traps from user space *)

(** Where [struct trapframe] has the user's registers, [a0] apart. *)
Definition trap_regs : list (reg * Z) :=
  [(RA, 40); (SP, 48); (GP, 56); (TP, 64); (T0, 72); (T1, 80); (T2, 88); (S0, 96); (S1, 104); (A1, 120); (A2, 128); (A3, 136); (A4, 144);
   (A5, 152); (A6, 160); (A7, 168); (S2, 176); (S3, 184); (S4, 192); (S5, 200); (S6, 208); (S7, 216); (S8, 224); (S9, 232); (S10, 240);
   (S11, 248); (T3, 256); (T4, 264); (T5, 272); (T6, 280)].

Lemma trap_regs_all r : r = ZERO \/ r = A0 \/ exists o, (r, o) ∈ trap_regs.
Proof.
  destruct (decide (r ∈ ZERO :: A0 :: trap_regs.*1)) as [H|H].
  - apply elem_of_cons in H as [->|H]; [by left|]. apply elem_of_cons in H as [->|H]; [by right; left|]. right; right.
    apply list_elem_of_fmap in H as ([r' o] & -> & H). by exists o.
  - exfalso. apply H. destruct r; repeat (first [by left | right]).
Qed.

Lemma trap_layout : NoDup trap_regs.*2 /\ NoDup trap_regs.*1 /\ slots_ok 288 trap_regs.
Proof. apply layout_ok. by vm_compute. Qed.

Lemma trap_offsets r o : (r, o) ∈ trap_regs -> 40 <= o < 288 /\ o <> 112.
Proof. intros H. apply (proj1 (Forall_forall (fun x : reg * Z => 40 <= x.2 < 288 /\ x.2 <> 112) trap_regs)) in H; [done|]. by repeat constructor. Qed.

Lemma run_uservec m tf : m_priv m = Supervisor_mode -> words m -> m_csr m SSCRATCH = TRAPFRAME -> mapped m TRAPFRAME tf 288 ->
  exists m1 satp ksp trap hart, run uservec m = Some (Jump trap, m1) /\
    m_mem m !! tf = Some satp /\ m_mem m !! (tf + 8) = Some ksp /\ m_mem m !! (tf + 16) = Some trap /\ m_mem m !! (tf + 32) = Some hart /\
    get m1 SP = ksp /\ get m1 TP = hart /\ m_csr m1 SATP = satp /\ m_priv m1 = Supervisor_mode /\
    m_mem m1 = <[tf + 112 := m_reg m A0]> (stored tf (m_reg m) trap_regs (m_mem m)).
Proof.
  destruct m as [pr g c mem]. cbn [m_priv m_csr m_mem m_reg]. intros -> [Hg Hmem] Hss Hmap. cbn [m_priv m_csr m_mem m_reg] in *.
  destruct trap_layout as (Hnd & _ & Hok). pose proof (proj2 Hmap) as Hm. cbn [m_priv m_csr m_mem m_reg] in Hm.
  destruct (proj2 (Hm 0 ltac:(lia) eq_refl)) as [satp H0]. destruct (proj2 (Hm 8 ltac:(lia) eq_refl)) as [ksp H8].
  destruct (proj2 (Hm 16 ltac:(lia) eq_refl)) as [trap H16]. destruct (proj2 (Hm 32 ltac:(lia) eq_refl)) as [hart H32]. rewrite Z.add_0_r in H0.
  eexists _, satp, ksp, trap, hart.
  change uservec with (Csrrw A0 SSCRATCH A0 :: saves A0 trap_regs ++ (Csrr T0 SSCRATCH :: saves A0 [(T0, 112)] ++
    loads A0 [(SP, 8); (TP, 32); (T0, 16); (T1, 0)] ++ [Csrw SATP T1; Sfence; Jr T0])).
  set (mem1 := stored tf g trap_regs mem). set (mem2 := <[tf + 112 := g A0]> mem1).
  assert (forall o, 0 <= o < 40 -> mem2 !! (tf + o) = mem !! (tf + o)) as Hlow.
  { intros o Ho. unfold mem2, mem1. rewrite lookup_insert_ne by lia. apply stored_other. intros r o' Hin.
    apply trap_offsets in Hin. lia. }
  assert (mem2 !! tf = Some satp /\ mem2 !! (tf + 8) = Some ksp /\ mem2 !! (tf + 16) = Some trap /\ mem2 !! (tf + 32) = Some hart) as (E0 & E8 & E16 & E32).
  { rewrite <- (Z.add_0_r tf) at 1. rewrite !Hlow, Z.add_0_r by lia. done. }
  assert (forall a v, mem2 !! a = Some v -> 0 <= v < 2 ^ 64) as Hw2.
  { intros a v. unfold mem2. destruct (decide (a = tf + 112)) as [->|]; [rewrite lookup_insert_eq; intros [= <-]; apply Hg|].
    rewrite lookup_insert_ne by done. by apply stored_words. }
  assert (forall a, is_Some (mem !! a) -> is_Some (mem2 !! a)) as Hdom.
  { intros a Ha. unfold mem2. destruct (decide (a = tf + 112)) as [->|]; [rewrite lookup_insert_eq; eauto|]. rewrite lookup_insert_ne by done. by apply stored_dom. }
  split_and!; [|done..| | | | |].
  { cbn [run exec]. change (put A0 _ _) with (mkmachine Supervisor_mode (<[A0 := u64 (c SSCRATCH)]> g) (<[SSCRATCH := g A0]> c) mem).
    rewrite Hss. change (u64 TRAPFRAME) with TRAPFRAME. rewrite (run_saves trap_regs _ A0 tf 288) by done. cbn [m_reg m_mem set].
    change (stored tf (<[A0 := TRAPFRAME]> g) trap_regs mem) with mem1. cbn [run exec].
    change (put T0 _ _) with (mkmachine Supervisor_mode (<[T0 := u64 (g A0)]> (<[A0 := TRAPFRAME]> g)) (<[SSCRATCH := g A0]> c) mem1).
    rewrite u64_word by apply Hg. rewrite (run_saves _ _ A0 tf 288); [|by repeat constructor|done|by apply (mapped_mem (mkmachine _ _ _ mem)); [|intros a; apply stored_dom]].
    cbn [stored foldl fst snd m_reg m_mem set]. change (<[T0 := g A0]> (<[A0 := TRAPFRAME]> g) T0) with (g A0). fold mem2.
    rewrite (run_loads _ _ A0 tf 288); [|by repeat constructor|done| | |intros o; set_solver].
    - cbn [loaded_regs foldl fst snd m_reg m_mem set]. rewrite Z.add_0_r, E0, E8, E16, E32. reflexivity.
    - apply (mapped_mem (mkmachine _ _ _ mem)); [exact Hmap|]. exact Hdom.
    - split; [|exact Hw2]. cbn [m_reg]. apply word_insert; [apply Hg|]. by apply word_insert. }
  all: reflexivity.
Qed.

Lemma run_userret m tf : m_priv m = Supervisor_mode -> words m -> get m A0 = TRAPFRAME ->
  mapped (csr_write SATP (get m A1) m) TRAPFRAME tf 288 ->
  exists m1 arg, run userret m = Some (Sreturn, m1) /\ m_mem m !! (tf + 112) = Some arg /\ get m1 A0 = arg /\
    (forall r o, (r, o) ∈ trap_regs -> m_mem m !! (tf + o) = Some (get m1 r)) /\
    m_csr m1 SATP = get m A1 /\ m_csr m1 SSCRATCH = TRAPFRAME /\ m_mem m1 = m_mem m.
Proof.
  destruct m as [pr g c mem]. unfold get. cbn [m_priv m_csr m_mem m_reg]. intros -> [Hg Hmem] HA0 Hmap. cbn [m_priv m_csr m_mem m_reg] in *.
  change (if decide (A0 = ZERO) then 0 else g A0) with (g A0) in HA0. change (if decide (A1 = ZERO) then 0 else g A1) with (g A1) in *.
  destruct trap_layout as (_ & Hnd & Hok). pose proof (proj2 Hmap) as Hm. cbn in Hm.
  assert (A0 ∉ trap_regs.*1) as HA0n by (apply (bool_decide_unpack _); by vm_compute).
  assert (forall o, (A0, o) ∉ trap_regs) as HA0no by (intros o Ho; apply HA0n, list_elem_of_fmap; by exists (A0, o)).
  destruct (proj2 (Hm 112 ltac:(lia) eq_refl)) as [arg H112]. eexists _, arg. split_and!; [|done| | | | |].
  { change userret with (Csrw SATP A1 :: Sfence :: loads A0 [(T0, 112)] ++ (Csrw SSCRATCH T0 :: loads A0 trap_regs ++ [Csrrw A0 SSCRATCH A0; Sret])).
    cbn [run exec]. change (csr_write SATP _ _) with (mkmachine Supervisor_mode g (<[SATP := g A1]> c) mem).
    rewrite (run_loads _ _ A0 tf 288); [|by repeat constructor|done|cbn [m_reg]; rewrite HA0; exact Hmap|done|intros o; set_solver].
    cbn [loaded_regs foldl fst snd m_reg m_mem set]. rewrite H112. cbn [from_option id run exec].
    change (csr_write SSCRATCH _ _) with (mkmachine Supervisor_mode (<[T0 := arg]> g) (<[SSCRATCH := arg]> (<[SATP := g A1]> c)) mem).
    rewrite (run_loads trap_regs _ A0 tf 288); [|done|done| | |].
    - cbn [run exec m_reg m_mem set]. reflexivity.
    - change (mapped (mkmachine Supervisor_mode (<[T0 := arg]> g) (<[SSCRATCH := arg]> (<[SATP := g A1]> c)) mem) (g A0) tf 288). rewrite HA0. exact Hmap.
    - split; [|done]. cbn [m_reg]. apply word_insert; [by eapply Hmem|done].
    - intros o Ho. by apply HA0no in Ho. }
  - change (u64 arg = arg). apply u64_word. by eapply Hmem.
  - intros r o Hin. pose proof (proj1 (Forall_forall _ _) Hok _ Hin) as (Ho & Ho8 & Hr). cbn [fst snd] in *.
    destruct (proj2 (Hm o ltac:(lia) Ho8)) as [v Hv]. rewrite decide_False by done.
    change (mem !! (tf + o) = Some (<[A0 := u64 arg]> (loaded_regs tf mem trap_regs (<[T0 := arg]> g)) r)). rewrite fn_lookup_insert_ne.
    + by rewrite (loaded_lookup _ _ _ _ _ o), Hv.
    + intros <-. by apply (HA0no o).
  - reflexivity.
  - change (loaded_regs tf mem trap_regs (<[T0 := arg]> g) A0 = TRAPFRAME). by rewrite loaded_other.
  - reflexivity.
Qed.

(** C9. A trap from user space and the return from it preserve the user's registers. Let the trap frame of the process be mapped at [TRAPFRAME] in its page table, with [sscratch] pointing there. Then [uservec] saves all registers of the process and enters the kernel at the address, on the stack, with the hart number and the page table that the trap frame gives. Whatever the kernel then does, if the saved registers other than [a0] are still in the trap frame when it calls [userret] with [TRAPFRAME] and the user's page table, the process resumes with every register as it was at the trap, except that [a0] has what the kernel left in the trap frame for it; [sscratch] is ready for the next trap. *)
Theorem trap_roundtrip m tf :
  m_priv m = Supervisor_mode -> words m -> m_csr m SSCRATCH = TRAPFRAME -> mapped m TRAPFRAME tf 288 ->
  exists m1 satp ksp trap hart, run uservec m = Some (Jump trap, m1) /\
    m_mem m !! tf = Some satp /\ m_mem m !! (tf + 8) = Some ksp /\ m_mem m !! (tf + 16) = Some trap /\ m_mem m !! (tf + 32) = Some hart /\
    m_csr m1 SATP = satp /\ get m1 SP = ksp /\ get m1 TP = hart /\ m_mem m1 !! (tf + 112) = Some (get m A0) /\
    (forall a, (forall o, 40 <= o < 288 -> a <> tf + o) -> m_mem m1 !! a = m_mem m !! a) /\
    forall m2, m_priv m2 = Supervisor_mode -> words m2 -> get m2 A0 = TRAPFRAME -> get m2 A1 = m_csr m SATP ->
      mapped (csr_write SATP (m_csr m SATP) m2) TRAPFRAME tf 288 ->
      (forall o, 40 <= o < 288 -> o <> 112 -> m_mem m2 !! (tf + o) = m_mem m1 !! (tf + o)) ->
      exists m3, run userret m2 = Some (Sreturn, m3) /\ (forall r, r <> A0 -> get m3 r = get m r) /\ m_mem m2 !! (tf + 112) = Some (get m3 A0) /\
        m_csr m3 SATP = m_csr m SATP /\ m_csr m3 SSCRATCH = TRAPFRAME /\ m_mem m3 = m_mem m2.
Proof.
  intros Hp Hw Hss Hmap. destruct (run_uservec m tf Hp Hw Hss Hmap) as (m1 & satp & ksp & trap & hart & Hrun & H0 & H8 & H16 & H32 & Hsp & Htp & Hsatp & _ & Hmem).
  destruct trap_layout as (Hnd & _ & Hok). exists m1, satp, ksp, trap, hart. split_and!; try done.
  { rewrite Hmem. by rewrite lookup_insert_eq. }
  { intros a Ha. rewrite Hmem, lookup_insert_ne by (intros <-; by apply (Ha 112)). apply stored_other. intros r o Hin ->.
    apply trap_offsets in Hin. apply (Ha o); [lia|done]. }
  intros m2 Hp2 Hw2 HA0 HA1 Hmap2 Hsame. rewrite <- HA1 in Hmap2. destruct (run_userret m2 tf Hp2 Hw2 HA0 Hmap2) as (m3 & arg & Hrun3 & H112 & Harg & Hregs & Hsatp3 & Hss3 & Hmem3).
  exists m3. split_and!; [done| |by rewrite Harg|congruence|done|done]. intros r Hr. destruct (trap_regs_all r) as [->|[->|[o Ho]]]; [done|done|].
  apply trap_offsets in Ho as Hr2. pose proof (Hregs r o Ho) as E. rewrite Hsame, Hmem, lookup_insert_ne in E by lia.
  rewrite (stored_lookup _ _ _ _ r o) in E by done. injection E as E. rewrite <- E. unfold get. rewrite decide_False; [done|].
  intros ->. by apply (proj1 (Forall_forall _ _) Hok) in Ho as (_ & _ & ?).
Qed.

(** ** Context switches *)

(** Where [struct context] has the registers. *)
Definition context_regs : list (reg * Z) :=
  [(RA, 0); (SP, 8); (S0, 16); (S1, 24); (S2, 32); (S3, 40); (S4, 48); (S5, 56); (S6, 64); (S7, 72); (S8, 80); (S9, 88); (S10, 96); (S11, 104)].

Lemma context_layout : NoDup context_regs.*2 /\ NoDup context_regs.*1 /\ slots_ok 112 context_regs.
Proof. apply layout_ok. by vm_compute. Qed.

Lemma run_swtch m old new : words m -> mapped m (get m A0) old 112 -> mapped m (get m A1) new 112 -> old + 112 <= new \/ new + 112 <= old ->
  exists m1 pc, run swtch m = Some (Jump pc, m1) /\ m_mem m !! new = Some pc /\
    (forall r o, (r, o) ∈ context_regs -> m_mem m !! (new + o) = Some (get m1 r) /\ m_mem m1 !! (old + o) = Some (get m r)) /\
    (forall r, (r ∉ context_regs.*1) -> get m1 r = get m r) /\
    (forall a, a < old \/ old + 112 <= a -> m_mem m1 !! a = m_mem m !! a).
Proof.
  destruct m as [pr g c mem]. unfold get. cbn [m_priv m_csr m_mem m_reg]. intros [Hg Hmem] Ho Hn Hdis. cbn [m_priv m_csr m_mem m_reg] in *.
  change (if decide (A0 = ZERO) then 0 else g A0) with (g A0) in Ho. change (if decide (A1 = ZERO) then 0 else g A1) with (g A1) in *.
  destruct context_layout as (Hnd2 & Hnd1 & Hok). pose proof (proj2 Hn) as Hm. cbn [m_mem] in Hm.
  assert (forall r o, (r, o) ∈ context_regs -> r <> ZERO /\ 0 <= o < 112 /\ is_Some (mem !! (new + o))) as Hin.
  { intros r o Hin. pose proof (proj1 (Forall_forall _ _) Hok _ Hin) as (H1 & H2 & H3). split_and!; [done|simpl in *; lia..|]. by apply Hm. }
  assert (forall a, a < old \/ old + 112 <= a -> stored old g context_regs mem !! a = mem !! a) as Hout.
  { intros a Ha. by apply (stored_range _ 112). }
  destruct (proj2 (Hm 0 ltac:(lia) eq_refl)) as [pc Hpc]. rewrite Z.add_0_r in Hpc. eexists _, pc. split_and!; [|done| | |].
  { change swtch with (saves A0 context_regs ++ loads A1 context_regs ++ [Jr RA]). rewrite (run_saves _ _ A0 old 112) by done. cbn [m_reg m_mem set].
    rewrite (run_loads _ _ A1 new 112); [|done|done| | |].
    - cbn [run exec]. unfold get. cbn [m_reg m_mem set]. change (if decide (RA = ZERO) then 0 else ?f RA) with (f RA).
      rewrite (loaded_lookup _ _ _ _ RA 0) by (done || by left). rewrite Z.add_0_r, Hout, Hpc by lia. reflexivity.
    - apply (mapped_mem (mkmachine pr g c mem)); [exact Hn|]. intros a. apply stored_dom.
    - split; [exact Hg|]. cbn [m_mem set]. by apply stored_words.
    - intros o Hin1. exfalso. assert (A1 ∈ context_regs.*1) as H by (apply list_elem_of_fmap; by exists (A1, o)). revert H. apply (bool_decide_unpack _). by vm_compute. }
  - intros r o Hro. destruct (Hin r o Hro) as (Hr & Ho' & v & Hv). cbn [m_reg m_mem set]. rewrite !decide_False by done. split; [|by apply stored_lookup].
    rewrite (loaded_lookup _ _ _ _ r o), Hout by (done || lia). by rewrite Hv.
  - intros r Hr. cbn [m_reg set]. by rewrite loaded_other.
  - intros a Ha. cbn [m_mem set]. by apply Hout.
Qed.

(** C20. A context switch is invisible to the thread that makes it. [swtch] saves the callee-saved registers of the running thread in the old context and continues with those of the new one, at its return address, touching no other memory. When, later, any thread switches back to the old context, and its 112 bytes are as [swtch] left them, the first thread continues at its return address with its stack pointer and all its saved registers as they were when it called [swtch]. *)
Theorem swtch_resumes m old new : words m -> mapped m (get m A0) old 112 -> mapped m (get m A1) new 112 -> old + 112 <= new \/ new + 112 <= old ->
  exists m1 pc, run swtch m = Some (Jump pc, m1) /\ m_mem m !! new = Some pc /\
    (forall r o, (r, o) ∈ context_regs -> m_mem m !! (new + o) = Some (get m1 r)) /\
    (forall a, a < old \/ old + 112 <= a -> m_mem m1 !! a = m_mem m !! a) /\
    forall m2 from, words m2 -> mapped m2 (get m2 A0) from 112 -> mapped m2 (get m2 A1) old 112 -> from + 112 <= old \/ old + 112 <= from ->
      (forall o, 0 <= o < 112 -> m_mem m2 !! (old + o) = m_mem m1 !! (old + o)) ->
      exists m3, run swtch m2 = Some (Jump (get m RA), m3) /\ forall r, r ∈ context_regs.*1 -> get m3 r = get m r.
Proof.
  intros Hw Ho Hn Hdis. destruct (run_swtch m old new Hw Ho Hn Hdis) as (m1 & pc & Hrun & Hpc & Hregs & _ & Hout). exists m1, pc.
  split_and!; [done|done|intros r o Hin; by apply Hregs|done|]. intros m2 from Hw2 Hf Hb Hdis2 Hsame.
  destruct (run_swtch m2 from old Hw2 Hf Hb Hdis2) as (m3 & pc3 & Hrun3 & Hpc3 & Hregs3 & _ & _). exists m3.
  assert (forall r o, (r, o) ∈ context_regs -> get m3 r = get m r) as Hall.
  { intros r o Hin. pose proof (proj1 (Hregs3 r o Hin)) as E. rewrite Hsame in E; [|by apply (proj1 (Forall_forall _ _) (proj2 (proj2 context_layout))) in Hin as [? _]].
    rewrite (proj2 (Hregs r o Hin)) in E. by injection E. }
  split.
  - rewrite Hrun3. do 3 f_equal. rewrite <- (Z.add_0_r old), Hsame in Hpc3 by lia. rewrite (proj2 (Hregs RA 0 ltac:(by left))) in Hpc3. by injection Hpc3.
  - intros r ([r' o] & -> & Hin)%list_elem_of_fmap. by apply (Hall r' o).
Qed.

(** ** Interrupts in the kernel *)

Definition frame_regs : list (reg * Z) :=
  [(T0, 32); (T1, 40); (T2, 48); (S0, 56); (S1, 64); (A0, 72); (A1, 80); (A2, 88); (A3, 96); (A4, 104); (A5, 112); (A6, 120); (A7, 128);
   (S2, 136); (S3, 144); (S4, 152); (S5, 160); (S6, 168); (S7, 176); (S8, 184); (S9, 192); (S10, 200); (S11, 208); (T3, 216); (T4, 224);
   (T5, 232); (T6, 240)].
Definition pushed : list (reg * Z) := [(RA, 0); (SP, 8); (GP, 16); (TP, 24)] ++ frame_regs.
Definition popped : list (reg * Z) := [(RA, 0); (SP, 8); (GP, 16)] ++ frame_regs.

Lemma pushed_layout : NoDup pushed.*2 /\ NoDup pushed.*1 /\ slots_ok 256 pushed.
Proof. apply layout_ok. by vm_compute. Qed.
Lemma popped_layout : NoDup popped.*2 /\ NoDup popped.*1 /\ slots_ok 256 popped.
Proof. apply layout_ok. by vm_compute. Qed.

Lemma popped_all r : r <> ZERO -> r <> TP -> exists o, (r, o) ∈ popped.
Proof.
  intros H0 H1. assert (r ∈ popped.*1) as ([r' o] & -> & Hin)%list_elem_of_fmap; [|by exists o]. destruct r; try done; repeat (first [by left | right]).
Qed.

Lemma popped_pushed r o : (r, o) ∈ popped -> (r, o) ∈ pushed.
Proof. unfold popped, pushed. rewrite !elem_of_app, !elem_of_cons. tauto. Qed.

(** The state in which [kernelvec] calls [kerneltrap]: 256 bytes of stack, at [frame] in memory, are taken and hold the
    registers. *)
Definition kernelvec_saved m (frame : Z) : machine :=
  let g := <[SP := get m SP - 256]> (m_reg m) in m <| m_reg := g |> <| m_mem := stored frame g pushed (m_mem m) |>.

(** What [kernelvec] needs of [kerneltrap]: it returns with its stack pointer, in supervisor mode, and with the caller's 256 bytes at [frame] where they were and as they were. *)
Record c_return (m m' : machine) (frame : Z) : Prop := {
  cr_sp : get m' SP = get m SP;
  cr_priv : m_priv m' = m_priv m;
  cr_words : words m';
  cr_mapped : mapped m' (get m SP) frame 256;
  cr_frame o : 0 <= o < 256 -> m_mem m' !! (frame + o) = m_mem m !! (frame + o)
}.

(** C19. An interrupt taken in the kernel is invisible to the kernel code it interrupts, apart from the effects of [kerneltrap] on memory and on the control registers. With 256 bytes of stack, [kernelvec] saves the registers there and calls [kerneltrap] with all registers but the stack pointer as they were. If that one call returns in supervisor mode with its stack pointer, and with those 256 bytes mapped and unchanged, then [kernelvec] returns from the trap with every register as it was; only [tp] is what [kerneltrap] left, since the thread may continue on another hart. *)
Theorem kernelvec_transparent m m2 frame :
  m_priv m = Supervisor_mode -> words m -> 256 <= get m SP -> mapped m (get m SP - 256) frame 256 ->
  let m1 := kernelvec_saved m frame in
  call "kerneltrap" m1 = Some m2 -> c_return m1 m2 frame ->
  exists m3, run kernelvec m = Some (Sreturn, m3) /\
    (forall r, r <> SP -> get m1 r = get m r) /\ (forall a, a < frame \/ frame + 256 <= a -> m_mem m1 !! a = m_mem m !! a) /\
    (forall r, r <> TP -> get m3 r = get m r) /\ get m3 TP = get m2 TP /\ m_mem m3 = m_mem m2 /\ m_csr m3 = m_csr m2.
Proof.
  destruct m as [pr g c mem]. intros Hp [Hg Hmem] Hsp Hmap m1 Hc Hret. cbn [m_priv m_csr m_mem m_reg] in Hp, Hg, Hmem, Hmap. subst pr.
  change (get (mkmachine Supervisor_mode g c mem) SP) with (g SP) in *. destruct pushed_layout as (Hnd2 & _ & Hok). destruct popped_layout as (_ & Hnd1 & Hok').
  assert (0 <= g SP - 256 < 2 ^ 64) as Hr by (pose proof (Hg SP); lia).
  set (g1 := <[SP := g SP - 256]> g). change m1 with (mkmachine Supervisor_mode g1 c (stored frame g1 pushed mem)) in *. clear m1.
  set (m1 := mkmachine Supervisor_mode g1 c (stored frame g1 pushed mem)) in *.
  destruct Hret as [Hsp2 Hp2 Hw2 Hm2 Hf2]. change (get m1 SP) with (g SP - 256) in *.
  assert (forall r o, (r, o) ∈ popped -> m_mem m2 !! (frame + o) = Some (g1 r)) as Hpop.
  { intros r o Hin. pose proof (proj1 (Forall_forall _ _) Hok' _ Hin) as (Ho & _). rewrite Hf2 by done. apply stored_lookup; [done|by apply popped_pushed]. }
  change (get m2 SP) with (m_reg m2 SP) in Hsp2.
  eexists. split_and!; [| | | | | |].
  { change kernelvec with (Addi SP SP (-256) :: saves SP pushed ++ (Call "kerneltrap" :: loads SP popped ++ [Addi SP SP 256; Sret])). cbn [run exec].
    change (put SP _ _) with (mkmachine Supervisor_mode (<[SP := u64 (g SP + -256)]> g) c mem). rewrite u64_word by lia. fold g1.
    rewrite (run_saves _ _ SP frame 256) by done. cbn [m_reg m_mem set run exec]. change (call "kerneltrap" _) with (call "kerneltrap" m1). rewrite Hc. cbn [mbind option_bind].
    rewrite (run_loads _ _ SP frame 256); [|done|done|by rewrite Hsp2|done|intros o Ho; rewrite (Hpop _ _ Ho), Hsp2; done]. cbn [run exec]. reflexivity. }
  - intros r Hr'. unfold get. cbn [m1 m_reg]. unfold g1. by rewrite fn_lookup_insert_ne.
  - intros a Ha. cbn [m1 m_mem]. by apply (stored_range _ 256).
  - intros r Hr'. destruct (decide (r = ZERO)) as [->|H0]; [done|]. destruct (popped_all r H0 Hr') as [o Ho]. pose proof (Hpop r o Ho) as Hv.
    destruct (decide (r = SP)) as [->|Hs].
    + change (u64 (loaded_regs frame (m_mem m2) popped (m_reg m2) SP + 256) = g SP). rewrite (loaded_lookup _ _ _ _ SP o), Hv by done.
      cbn [from_option id]. unfold g1. rewrite fn_lookup_insert, u64_word; [lia|]. pose proof (Hg SP). lia.
    + unfold get, put. rewrite decide_False by done. cbn [m_reg set]. rewrite decide_False by done. cbn [m_reg set]. rewrite fn_lookup_insert_ne by done.
      rewrite (loaded_lookup _ _ _ _ r o), Hv by done. cbn [from_option id]. unfold g1. rewrite fn_lookup_insert_ne by done. by rewrite decide_False.
  - change (loaded_regs frame (m_mem m2) popped (m_reg m2) TP = m_reg m2 TP). apply loaded_other. apply (bool_decide_unpack _). by vm_compute.
  - reflexivity.
  - reflexivity.
Qed.

(** ** The timer *)

Lemma view_bit mask old x i : 0 <= i -> Z.testbit (view mask old x) i = if Z.testbit mask i then Z.testbit x i else Z.testbit old i.
Proof.
  intros Hi. unfold view. rewrite Z.lor_spec, !Z.land_spec, Z.lnot_spec by done.
  by destruct (Z.testbit mask i), (Z.testbit old i), (Z.testbit x i).
Qed.

Lemma mapped_phys g c mem va n g' c' mem' : mapped (mkmachine Machine_mode g c mem) va va n -> (forall a, is_Some (mem !! a) -> is_Some (mem' !! a)) ->
  mapped (mkmachine Machine_mode g' c' mem') va va n.
Proof. intros [H8 H] Hd. split; [done|]. intros o Ho Ho8. destruct (H o Ho Ho8) as [E Hs]. split; [exact E|by apply Hd]. Qed.

(** The timer interrupt in machine mode is invisible to the code it interrupts. With [mscratch] pointing to a scratch area that has the address of the timer's comparison register and the interval, [timervec] moves the comparison register on by the interval, modulo [2 ^ 64], raises a supervisor software interrupt, changes no other memory but the three saved words of the scratch area, and returns with every register as it was. *)
Lemma run_timervec m scr cmp interval count :
  m_priv m = Machine_mode -> words m -> m_csr m MSCRATCH = scr -> mapped m scr scr 48 -> mapped m cmp cmp 8 -> cmp + 8 <= scr \/ scr + 48 <= cmp ->
  m_mem m !! (scr + 32) = Some cmp -> m_mem m !! (scr + 40) = Some interval -> m_mem m !! cmp = Some count -> Z.testbit (m_csr m MIDELEG) 1 = true ->
  exists m1, run timervec m = Some (Mreturn, m1) /\ (forall r, get m1 r = get m r) /\ m_mem m1 !! cmp = Some (u64 (count + interval)) /\
    (forall a, a <> cmp -> a < scr \/ scr + 24 <= a -> m_mem m1 !! a = m_mem m !! a) /\
    Z.testbit (m_csr m1 MIP) 1 = true /\ forall c, c <> MIP -> m_csr m1 c = m_csr m c.
Proof.
  destruct m as [pr g c mem]. unfold words. cbn [m_priv m_csr m_mem m_reg]. intros -> [Hg Hmem] Hss Hms Hmc Hdis H32 H40 Hc Hdel.
  assert (0 <= scr < 2 ^ 64) as Hscr.
  { destruct (proj2 Hms 0 ltac:(lia) eq_refl) as [E _]. cbn [m_priv] in E. injection E as E. rewrite !Z.add_0_r in E. rewrite <- E. apply Z.mod_pos_bound. done. }
  set (g1 := <[A0 := scr]> g). set (c1 := <[MSCRATCH := g A0]> c). set (mem1 := stored scr g [(A1, 0); (A2, 8); (A3, 16)] mem).
  set (mem2 := <[cmp := u64 (count + interval)]> mem1).
  assert (forall a, a < scr \/ scr + 24 <= a -> mem1 !! a = mem !! a) as Hout by (intros a Ha; apply (stored_range _ 24); [by repeat constructor|done]).
  assert (forall r o, (r, o) ∈ [(A1, 0); (A2, 8); (A3, 16)] -> mem2 !! (scr + o) = Some (g r)) as Hsaved.
  { intros r o Hin. unfold mem2. rewrite lookup_insert_ne.
    - apply stored_lookup; [|done]. apply (bool_decide_unpack _). by vm_compute.
    - revert Hin. rewrite !elem_of_cons, elem_of_nil. intros [[= -> ->]|[[= -> ->]|[[= -> ->]|[]]]]; lia. }
  assert (forall a v, mem1 !! a = Some v -> 0 <= v < 2 ^ 64) as Hw1 by (by apply stored_words).
  assert (forall a v, mem2 !! a = Some v -> 0 <= v < 2 ^ 64) as Hw2.
  { intros a v. unfold mem2. destruct (decide (a = cmp)) as [->|]; [|rewrite lookup_insert_ne by done; apply Hw1]. rewrite lookup_insert_eq. intros [= <-].
    apply Z.mod_pos_bound. done. }
  assert (forall a, is_Some (mem !! a) -> is_Some (mem1 !! a)) as Hd1 by (intros a; apply stored_dom).
  assert (forall a, is_Some (mem !! a) -> is_Some (mem2 !! a)) as Hd2.
  { intros a Ha. unfold mem2. destruct (decide (a = cmp)) as [->|]; [rewrite lookup_insert_eq; eauto|rewrite lookup_insert_ne by done; auto]. }
  set (g2 := <[A2 := interval]> (<[A1 := cmp]> g1)). set (g4 := <[A3 := u64 (count + interval)]> (<[A3 := count]> g2)).
  set (c2 := <[MIP := view (Z.land (c MIDELEG) 2) (c MIP) 2]> c1).
  assert (forall r, 0 <= g2 r < 2 ^ 64) as Hg2 by (repeat apply word_insert; eauto).
  assert (forall r, 0 <= g4 r < 2 ^ 64) as Hg4 by (repeat apply word_insert; eauto; apply Z.mod_pos_bound; done).
  exists (mkmachine Machine_mode (<[A0 := g A0]> (loaded_regs scr mem2 [(A3, 16); (A2, 8); (A1, 0)] (<[A1 := 2]> g4))) (<[MSCRATCH := scr]> c2) mem2). split_and!.
  { change timervec with (Csrrw A0 MSCRATCH A0 :: saves A0 [(A1, 0); (A2, 8); (A3, 16)] ++ loads A0 [(A1, 32); (A2, 40)] ++ loads A1 [(A3, 0)] ++
      (Iadd A3 A3 A2 :: saves A1 [(A3, 0)] ++ (Li A1 2 :: Csrw SIP A1 :: loads A0 [(A3, 16); (A2, 8); (A1, 0)] ++ [Csrrw A0 MSCRATCH A0; Mret]))).
    cbn [run exec]. change (put A0 _ _) with (mkmachine Machine_mode (<[A0 := u64 (c MSCRATCH)]> g) c1 mem). rewrite Hss, u64_word by done. fold g1.
    rewrite (run_saves _ _ A0 scr 48); [|by repeat constructor|done|exact Hms]. cbn [m_reg m_mem set]. change (stored scr g1 _ mem) with mem1.
    rewrite (run_loads _ _ A0 scr 48); [|by repeat constructor|done|by eapply mapped_phys|by split; [apply word_insert|]|intros o; set_solver].
    cbn [loaded_regs foldl fst snd m_reg m_mem set]. rewrite !Hout, H32, H40 by lia. cbn [from_option id]. fold g2.
    rewrite (run_loads _ _ A1 cmp 8); [|by repeat constructor|done|by eapply mapped_phys|by split|intros o; set_solver].
    cbn [loaded_regs foldl fst snd m_reg m_mem set run exec]. rewrite Z.add_0_r, Hout, Hc by lia. cbn [from_option id].
    change (put A3 _ _) with (mkmachine Machine_mode g4 c1 mem1).
    rewrite (run_saves _ _ A1 cmp 8); [|by repeat constructor|done|by eapply mapped_phys]. cbn [stored foldl fst snd m_reg m_mem set run exec]. rewrite Z.add_0_r.
    change (<[cmp := g4 A3]> mem1) with mem2. change (csr_write SIP _ _) with (mkmachine Machine_mode (<[A1 := 2]> g4) c2 mem2).
    rewrite (run_loads _ _ A0 scr 48); [|by repeat constructor|done|by eapply mapped_phys|by split; [apply word_insert|]|intros o; set_solver].
    cbn [run exec m_reg m_mem set]. rewrite <- (u64_word (g A0)) at 1 by done. reflexivity. }
  - intros r. unfold get. cbn [m_reg]. destruct (decide (r = ZERO)); [done|]. destruct (decide (r = A0)) as [->|H0]; [by rewrite fn_lookup_insert|].
    rewrite fn_lookup_insert_ne by done. destruct (decide (r ∈ [(A3, 16); (A2, 8); (A1, 0)].*1)) as [Hin|Hin].
    + apply list_elem_of_fmap in Hin as ([r' o] & -> & Hin). rewrite (loaded_lookup _ _ _ _ _ o); [|apply (bool_decide_unpack _); by vm_compute|done].
      cbn [fst]. rewrite (Hsaved r' o); [done|]. revert Hin. rewrite !elem_of_cons. tauto.
    + rewrite loaded_other by done. assert (r <> A1 /\ r <> A2 /\ r <> A3) as (? & ? & ?) by (split_and!; intros ->; apply Hin; repeat (first [by left | right])).
      unfold g4, g2, g1. by rewrite !fn_lookup_insert_ne by done.
  - cbn [m_mem]. apply lookup_insert_eq.
  - intros a Ha Hr. cbn [m_mem]. unfold mem2. by rewrite lookup_insert_ne, Hout.
  - change (Z.testbit (view (Z.land (c MIDELEG) 2) (c MIP) 2) 1 = true). rewrite view_bit, Z.land_spec, Hdel by lia. done.
  - intros x Hx. cbn [m_csr]. unfold c2, c1. destruct (decide (x = MSCRATCH)) as [->|]; [by rewrite fn_lookup_insert|]. by rewrite !fn_lookup_insert_ne.
Qed.

End asm.

(** ** A small machine *)

Section example.
#[local] Instance flat : Platform := {
  translate _ va := Some va;
  sstatus_mask := 307;
  medeleg_mask := 0xb3ff;
  mideleg_mask := 0x222;
  call _ m := Some (m <| m_reg ::= fun g => <[TP := 1]> (<[A0 := 99]> g) |>)
}.

(** [n] doublewords from [base] on. *)
Definition ram (base n : Z) : gmap Z Z := list_to_map ((fun k => (base + 8 * k, k)) <$> seqZ 0 n).
Definition small (p : priv) (base n : Z) (g : reg -> Z) (c : csr -> Z) : machine := mkmachine p g c (ram base n).

Lemma ram_lookup base n k : 0 <= k < n -> ram base n !! (base + 8 * k) = Some k.
Proof.
  intros Hk. apply elem_of_list_to_map_1.
  - rewrite <- list_fmap_compose. apply NoDup_fmap; [intros x y E; cbn in E; lia|apply NoDup_seqZ].
  - apply list_elem_of_fmap. exists k. split; [done|]. by apply elem_of_seqZ.
Qed.

Lemma ram_words base n a v : n <= 2 ^ 64 -> ram base n !! a = Some v -> 0 <= v < 2 ^ 64.
Proof. intros Hn H. apply elem_of_list_to_map_2, list_elem_of_fmap in H as (k & [= -> ->] & Hk). apply elem_of_seqZ in Hk. lia. Qed.

Lemma small_mapped p base n g c va len : base mod 8 = 0 -> 0 <= base -> base + 8 * n < 2 ^ 64 -> base <= va -> va mod 8 = 0 -> va + len <= base + 8 * n ->
  mapped (small p base n g c) va va len.
Proof.
  intros H8 H0 Hmax Hva Hva8 Hlen. split; [done|]. intros o Ho Ho8. cbn [small m_priv m_mem]. split.
  - destruct p; cbn [translate flat]; f_equal; apply u64_word; lia.
  - replace (va + o) with (base + 8 * ((va + o - base) / 8)) by (Z.to_euclidean_division_equations; lia).
    eexists. apply ram_lookup. Z.to_euclidean_division_equations. lia.
Qed.

Lemma trap_roundtrip_witness :
  let m := small Supervisor_mode TRAPFRAME 36 (fun _ => 5) (fun c => if decide (c = SSCRATCH) then TRAPFRAME else 3) in
  exists m1, run uservec m = Some (Jump 2, m1) /\ get m1 SP = 1 /\ get m1 TP = 4 /\ m_csr m1 SATP = 0 /\ m_mem m1 !! (TRAPFRAME + 112) = Some 5.
Proof.
  intros m. destruct (trap_roundtrip m TRAPFRAME) as (m1 & satp & ksp & trap & hart & Hrun & H0 & H8 & H16 & H32 & Hs & Hk & Ht & Ha & _).
  - reflexivity.
  - split; [intros r; cbn; lia|intros a v; by apply ram_words].
  - reflexivity.
  - apply small_mapped; by vm_compute.
  - exists m1. vm_compute in H0, H8, H16, H32. injection H0 as <-. injection H8 as <-. injection H16 as <-. injection H32 as <-. exact (conj Hrun (conj Hk (conj Ht (conj Hs Ha)))).
Defined.

Lemma swtch_resumes_witness :
  let m := small Supervisor_mode 4096 28 (fun r => if decide (r = A0) then 4096 else if decide (r = A1) then 4208 else 7) (fun _ => 0) in
  exists m1, run swtch m = Some (Jump 14, m1) /\ (forall a, a < 4096 \/ 4208 <= a -> m_mem m1 !! a = m_mem m !! a).
Proof.
  intros m. destruct (swtch_resumes m 4096 4208) as (m1 & pc & Hrun & Hpc & _ & Hout & _).
  - split; [intros r; cbn; repeat case_decide; lia|intros a v; by apply ram_words].
  - apply small_mapped; by vm_compute.
  - apply small_mapped; by vm_compute.
  - by left.
  - exists m1. vm_compute in Hpc. injection Hpc as <-. exact (conj Hrun Hout).
Defined.

Lemma kernelvec_transparent_witness :
  let m := small Supervisor_mode 4096 32 (fun r => if decide (r = SP) then 4352 else 7) (fun _ => 0) in
  exists m3, run kernelvec m = Some (Sreturn, m3) /\ (forall r, r <> TP -> get m3 r = get m r) /\ get m3 TP = 1.
Proof.
  intros m. assert (words m) as Hw by (split; [intros r; cbn; repeat case_decide; lia|intros a v; by apply ram_words]).
  assert (mapped m (get m SP - 256) 4096 256) as Hmap by (apply small_mapped; by vm_compute).
  set (m1 := kernelvec_saved m 4096). destruct Hw as [Hg Hmem].
  assert (forall r, 0 <= m_reg m1 r < 2 ^ 64) as Hg1 by (apply word_insert; [by vm_compute|exact Hg]).
  destruct (kernelvec_transparent m (m1 <| m_reg ::= fun g => <[TP := 1]> (<[A0 := 99]> g) |>) 4096) as (m3 & Hrun & _ & _ & Hr & Ht & _).
  - reflexivity.
  - by split.
  - by vm_compute.
  - exact Hmap.
  - reflexivity.
  - split; [done|done| | |done].
    + split; [|by apply stored_words]. cbn [m_reg set]. repeat apply word_insert; done.
    + destruct Hmap as [H8 Hmap]. split; [exact H8|]. intros o Ho Ho8. destruct (Hmap o Ho Ho8) as [E Hs]. split; [exact E|]. by apply stored_dom.
  - exists m3. exact (conj Hrun (conj Hr Ht)).
Defined.

End example.
