(* ===== verification/Boot.v ===== *)
(** From reset to [main]: [kernel/entry.S], [kernel/start.c] and [kernel/plic.c].

    The addresses of [stack0], [mscratch0], [start], [main] and [timervec] are the linker's.  The registers of the
    interrupt controller are 32-bit words at their addresses; what a read of the claim register gives is the
    controller's. *)
From S2P Require Import Prelude Types Machine Asm.
From stdpp Require Import functions base numbers list gmap strings.
From Stdlib Require Import ZArith Lia.

Local Open Scope Z_scope.
Local Open Scope xv6_scope.

Definition NCPU : Z := 8.
Definition CLINT_MTIMECMP (hartid : Z) : Z := CLINT + 0x4000 + 8 * hartid.
Definition CLINT_MTIME : Z := CLINT + 0xBFF8.

(** ** [kernel/entry.S] *)

Definition entry (stack0 start_addr : Z) : list instr :=
  [Li SP stack0; Li A0 (1024 * 4); Csrr A1 MHARTID; Addi A1 A1 1; Imul A0 A0 A1; Iadd SP SP A0; Jal start_addr].

(** ** [kernel/start.c] *)

(** The effect of [mret]: the privilege and the interrupt enable bit are the previous ones. *)
Definition mret_priv (x : Z) : priv :=
  match Z.land (Z.shiftr x 11) 3 with 3 => Machine_mode | 1 => Supervisor_mode | _ => User_mode end.
Definition do_mret (m : machine) : machine :=
  let x := m_csr m MSTATUS in
  m <| m_priv := mret_priv x |>
    <| m_csr ::= <[MSTATUS := Z.land (Z.lor (view MSTATUS_MIE x (Z.shiftr x 4)) (Z.shiftl 1 7)) (Z.lnot MSTATUS_MPP_MASK)]> |>.

Section boot.
Context {PF : Platform} (mscratch0 main_addr timervec_addr : Z).
Implicit Types m : machine.

Definition timerinit m : option machine :=
  let id := i32 (r_mhartid m) in
  let interval := 1000000 in
  time ← load_va m CLINT_MTIME;
  m ← store_va (CLINT_MTIMECMP id) (u64 (time + interval)) m;
  let scratch := mscratch0 + 8 * (32 * id) in
  m ← store_va (scratch + 8 * 4) (CLINT_MTIMECMP id) m;
  m ← store_va (scratch + 8 * 5) interval m;
  let m := w_mscratch scratch m in
  let m := w_mtvec timervec_addr m in
  let m := w_mstatus (Z.lor (r_mstatus m) MSTATUS_MIE) m in
  Some (w_mie (Z.lor (r_mie m) MIE_MTIE) m).

(** Up to its [mret]. *)
Definition start m : option machine :=
  let x := r_mstatus m in
  let x := Z.land x (Z.lnot MSTATUS_MPP_MASK) in
  let x := Z.lor x MSTATUS_MPP_S in
  let m := w_mstatus x m in
  let m := w_mepc main_addr m in
  let m := w_satp 0 m in
  let m := w_medeleg 0xffff m in
  let m := w_mideleg 0xffff m in
  m ← timerinit m;
  let id := i32 (r_mhartid m) in
  Some (w_tp (u64 id) m).
End boot.

(** ** [kernel/plic.c] *)

Definition PLIC_PENDING : Z := PLIC + 0x1000.
Definition PLIC_SENABLE (hart : Z) : Z := PLIC + 0x2080 + hart * 0x100.
Definition PLIC_SPRIORITY (hart : Z) : Z := PLIC + 0x201000 + hart * 0x2000.
Definition PLIC_SCLAIM (hart : Z) : Z := PLIC + 0x201004 + hart * 0x2000.
Definition PLIC_UART0_IRQ : Z := 10.
Definition PLIC_VIRTIO0_IRQ : Z := 1.

Definition plicinit (regs : gmap Z Z) : gmap Z Z :=
  <[PLIC + PLIC_VIRTIO0_IRQ * 4 := 1]> (<[PLIC + PLIC_UART0_IRQ * 4 := 1]> regs).
Definition plicinithart (hart : Z) (regs : gmap Z Z) : gmap Z Z :=
  <[PLIC_SPRIORITY hart := 0]> (<[PLIC_SENABLE hart := Z.lor (Z.shiftl 1 PLIC_UART0_IRQ) (Z.shiftl 1 PLIC_VIRTIO0_IRQ)]> regs).
(** The 64 bits at [PLIC_PENDING]. *)
Definition plic_pending (regs : gmap Z Z) : Z :=
  default 0 (regs !! PLIC_PENDING) + 2 ^ 32 * default 0 (regs !! (PLIC_PENDING + 4)).
Definition plic_claim (read : Z -> gmap Z Z -> Z * gmap Z Z) (hart : Z) (regs : gmap Z Z) : Z * gmap Z Z :=
  let '(irq, regs) := read (PLIC_SCLAIM hart) regs in (i32 irq, regs).
Definition plic_complete (hart irq : Z) (regs : gmap Z Z) : gmap Z Z := <[PLIC_SCLAIM hart := u32 irq]> regs.

(** ** The stack *)

Section ready.
Context {PF : Platform} (stack0 mscratch0 start_addr main_addr timervec_addr : Z) (m : machine) (id : Z).
Context (Hmode : m_priv m = Machine_mode) (Hid : m_csr m MHARTID = id) (Hcpu : 0 <= id < NCPU) (Hstack : 0 <= stack0 < 2 ^ 63).

Lemma run_entry : exists m0, run (entry stack0 start_addr) m = Some (Jump start_addr, m0) /\ get m0 SP = stack0 + 4096 * (id + 1) /\
  m_priv m0 = Machine_mode /\ m_csr m0 = m_csr m /\ m_mem m0 = m_mem m /\ (words m -> words m0).
Proof.
  eexists. split_and!; [reflexivity| | | | |].
  - unfold NCPU in Hcpu. change (get _ SP) with (u64 (u64 stack0 + u64 (u64 4096 * u64 (u64 (m_csr m MHARTID) + 1)))). rewrite Hid. rewrite (u64_word id), (u64_word (id + 1)), (u64_word stack0), (u64_word 4096), (u64_word (4096 * (id + 1))), u64_word by lia. lia.
  - exact Hmode.
  - reflexivity.
  - reflexivity.
  - intros [Hg Hm]. split; [|exact Hm]. repeat (apply word_insert; [apply Z.mod_pos_bound; done|]). done.
Qed.

Abbreviation scr := (mscratch0 + 256 * id).
Abbreviation cmp := (CLINT_MTIMECMP id).
Context (Hw : words m) (Hscr : KERNBASE <= mscratch0) (Hms : mapped m scr scr 48) (Hmc : mapped m cmp cmp 8) (Hmt : mapped m CLINT_MTIME CLINT_MTIME 8).

(** The memory and the registers after [timerinit] has run on [m']. *)
Lemma run_timerinit m' : m_priv m' = Machine_mode -> m_csr m' MHARTID = id -> m_mem m' = m_mem m ->
  exists t m1, m_mem m !! CLINT_MTIME = Some t /\ timerinit mscratch0 timervec_addr m' = Some m1 /\ m_reg m1 = m_reg m' /\ m_priv m1 = Machine_mode /\
    m_mem m1 = <[scr + 40 := 1000000]> (<[scr + 32 := cmp]> (<[cmp := u64 (t + 1000000)]> (m_mem m))) /\
    m_csr m1 = <[MIE := Z.lor (m_csr m' MIE) MIE_MTIE]> (<[MSTATUS := Z.lor (m_csr m' MSTATUS) MSTATUS_MIE]> (<[MTVEC := timervec_addr]> (<[MSCRATCH := scr]> (m_csr m')))).
Proof.
  intros Hp Hh Hm. destruct (proj2 (proj2 Hmt 0 ltac:(lia) eq_refl)) as [t Ht]. rewrite Z.add_0_r in Ht. unfold NCPU in Hcpu.
  destruct m' as [p' g' c' mem']. cbn [m_priv m_csr m_mem m_reg] in *. subst p' mem'. exists t. eexists. split; [done|].
  assert (forall c mem va n o, mapped m va va n -> 0 <= o < n -> o mod 8 = 0 -> (forall a, is_Some (m_mem m !! a) -> is_Some (mem !! a)) ->
    at_va (mkmachine Machine_mode g' c mem) (va + o) = Some (va + o)) as Hat.
  { intros c mem va n o Hmap Ho Ho8 Hdom. apply (mapped_at _ _ _ n); [|done|done]. destruct m as [pm gm cm mm]. cbn [m_priv m_mem] in *. subst pm. by eapply mapped_phys. }
  assert (forall c mem va, mapped m va va 8 -> (forall a, is_Some (m_mem m !! a) -> is_Some (mem !! a)) -> at_va (mkmachine Machine_mode g' c mem) va = Some va) as Hat0.
  { intros c mem va Hmap Hd. pose proof (Hat c mem va 8 0 Hmap ltac:(lia) eq_refl Hd) as E. by rewrite Z.add_0_r in E. }
  assert (forall (mem : gmap Z Z) a v, (forall a, is_Some (m_mem m !! a) -> is_Some (mem !! a)) -> forall b, is_Some (m_mem m !! b) -> is_Some (<[a := v]> mem !! b)) as Hdom.
  { intros mem a v H b Hb. destruct (decide (b = a)) as [->|]; [rewrite lookup_insert_eq; eauto|rewrite lookup_insert_ne by done; auto]. }
  unfold timerinit, r_mhartid, csr_read. cbn [m_csr]. rewrite Hh, i32_small by lia. unfold load_va, store_va.
  rewrite !Hat0 by done. cbn [mbind option_bind m_mem]. rewrite Ht. cbn [mbind option_bind].
  replace (mscratch0 + 8 * (32 * id)) with scr by lia. change (8 * 4) with 32. change (8 * 5) with 40.
  change ((mkmachine ?p ?g ?c ?mem) <| m_mem ::= ?f |>) with (mkmachine p g c (f mem)). rewrite (Hat _ _ _ 48) by (auto; lia). cbn [mbind option_bind].
  change ((mkmachine ?p ?g ?c ?mem) <| m_mem ::= ?f |>) with (mkmachine p g c (f mem)). rewrite (Hat _ _ _ 48) by (auto; lia). cbn [mbind option_bind].
  split_and!; reflexivity.
Qed.

Lemma mpp_supervisor x : mret_priv (Z.lor (Z.lor (Z.land x (Z.lnot MSTATUS_MPP_MASK)) MSTATUS_MPP_S) MSTATUS_MIE) = Supervisor_mode.
Proof.
  unfold mret_priv. match goal with |- context [Z.land (Z.shiftr ?y 11) 3] => assert (Z.land (Z.shiftr y 11) 3 = 1) as ->; [|done] end.
  apply Z.bits_inj'. intros n Hn. rewrite Z.land_spec, Z.shiftr_spec, !Z.lor_spec, Z.land_spec, Z.lnot_spec by lia.
  destruct (decide (n = 0)) as [->|]; [by rewrite orb_true_r|]. destruct (decide (n = 1)) as [->|]; [by rewrite andb_false_r|].
  replace (Z.testbit 3 n) with false; [replace (Z.testbit 1 n) with false; [apply andb_false_r|]|]; symmetry; apply Z.bits_above_log2; change (Z.log2 _) with 1 || change (Z.log2 _) with 0; lia.
Qed.

Lemma start_runs m0 : m_priv m0 = Machine_mode -> m_csr m0 = m_csr m -> m_mem m0 = m_mem m ->
  exists t m1, m_mem m !! CLINT_MTIME = Some t /\ start mscratch0 main_addr timervec_addr m0 = Some m1 /\
    (forall r, r <> TP -> get m1 r = get m0 r) /\ get m1 TP = id /\ m_priv m1 = Machine_mode /\
    m_mem m1 = <[scr + 40 := 1000000]> (<[scr + 32 := cmp]> (<[cmp := u64 (t + 1000000)]> (m_mem m))) /\
    mret_priv (m_csr m1 MSTATUS) = Supervisor_mode /\ m_csr m1 MEPC = main_addr /\ m_csr m1 SATP = 0 /\ m_csr m1 MEDELEG = Z.land 0xffff medeleg_mask /\ m_csr m1 MIDELEG = Z.land 0xffff mideleg_mask /\
    m_csr m1 MTVEC = timervec_addr /\ m_csr m1 MSCRATCH = scr /\ Z.testbit (m_csr m1 MIE) 7 = true.
Proof.
  intros Hp Hc Hm. unfold NCPU in Hcpu. unfold start, r_mstatus, w_mstatus, w_mepc, w_satp, w_medeleg, w_mideleg. cbn [csr_read csr_write].
  match goal with |- context [timerinit _ _ ?z] => set (m0' := z) end.
  destruct (run_timerinit m0' Hp ltac:(change (m_csr m0 MHARTID = id); by rewrite Hc) Hm) as (t & m1 & Ht & Hrun & Hreg & Hpr & Hmem & Hcsr). rewrite Hrun. cbn [mbind option_bind].
  assert (r_mhartid m1 = id) as Hh1.
  { unfold r_mhartid, csr_read. rewrite Hcsr. change (m_csr m0 MHARTID = id). by rewrite Hc. }
  exists t. eexists. split_and!; [done|reflexivity|..].
  - intros r Hr. rewrite Hh1, i32_small by lia. unfold w_tp, get, put. cbn [m_reg set decide]. destruct (decide (TP = ZERO)); [done|]. cbn [m_reg set].
    rewrite fn_lookup_insert_ne by done. by rewrite Hreg.
  - rewrite Hh1, i32_small, !u64_word by (rewrite ?u64_word; lia). change (u64 id = id). apply u64_word. lia.
  - exact Hpr.
  - exact Hmem.
  - change (mret_priv (m_csr m1 MSTATUS) = Supervisor_mode). rewrite Hcsr.
    change (mret_priv (Z.lor (Z.lor (Z.land (m_csr m0 MSTATUS) (Z.lnot MSTATUS_MPP_MASK)) MSTATUS_MPP_S) MSTATUS_MIE) = Supervisor_mode). apply mpp_supervisor.
  - change (m_csr m1 MEPC = main_addr). by rewrite Hcsr.
  - change (m_csr m1 SATP = 0). by rewrite Hcsr.
  - change (m_csr m1 MEDELEG = Z.land 0xffff medeleg_mask). by rewrite Hcsr.
  - change (m_csr m1 MIDELEG = Z.land 0xffff mideleg_mask). by rewrite Hcsr.
  - change (m_csr m1 MTVEC = timervec_addr). by rewrite Hcsr.
  - change (m_csr m1 MSCRATCH = scr). by rewrite Hcsr.
  - change (Z.testbit (m_csr m1 MIE) 7 = true). rewrite Hcsr. change (Z.testbit (Z.lor (m_csr m0' MIE) MIE_MTIE) 7 = true). rewrite Z.lor_spec. apply orb_true_r.
Qed.

(** Supervisor software interrupts can be delegated, the machine's own timer interrupt cannot. *)
Context (Hsoft : Z.testbit mideleg_mask 1 = true) (Htimer : Z.testbit mideleg_mask 7 = false).

(** C18. A hart that comes out of reset reaches [main] ready to run the kernel. [entry.S] gives it a stack of its own and calls [start]; [start] then returns by [mret] to [main] in supervisor mode, without paging, with the hart's number in [tp], the traps that can be delegated delegated, and the timer set; the machine's timer interrupt is not delegated, so it goes to [timervec] ([Htimer] and [Hsoft] are what the privileged architecture says of the delegation of interrupts 7 and 1). From then on every timer interrupt works: as long as the hart's scratch area is intact, [timervec] moves the timer on by one interval, raises a software interrupt for the kernel and leaves the interrupted code's registers alone. *)
Theorem boot_ready : exists m0 m1 t,
  run (entry stack0 start_addr) m = Some (Jump start_addr, m0) /\ start mscratch0 main_addr timervec_addr m0 = Some m1 /\ m_mem m !! CLINT_MTIME = Some t /\
  let m2 := do_mret m1 in
  m_priv m2 = Supervisor_mode /\ m_csr m2 MEPC = main_addr /\ m_csr m2 SATP = 0 /\ get m2 TP = id /\ get m2 SP = stack0 + 4096 * (id + 1) /\
  m_csr m2 MEDELEG = Z.land 0xffff medeleg_mask /\ (forall i, 0 <= i < 16 -> Z.testbit (m_csr m2 MIDELEG) i = Z.testbit mideleg_mask i) /\
  Z.testbit (m_csr m2 MIDELEG) 7 = false /\ m_csr m2 MTVEC = timervec_addr /\ Z.testbit (m_csr m2 MIE) 7 = true /\
  m_mem m2 !! cmp = Some (u64 (t + 1000000)) /\
  forall m3 count, m_priv m3 = Machine_mode -> words m3 -> m_csr m3 MSCRATCH = m_csr m2 MSCRATCH -> m_csr m3 MIDELEG = m_csr m2 MIDELEG ->
    (forall a, is_Some (m_mem m2 !! a) -> is_Some (m_mem m3 !! a)) -> (forall o, 24 <= o < 48 -> m_mem m3 !! (scr + o) = m_mem m2 !! (scr + o)) -> m_mem m3 !! cmp = Some count ->
    exists m4, run timervec m3 = Some (Mreturn, m4) /\ (forall r, get m4 r = get m3 r) /\ m_mem m4 !! cmp = Some (u64 (count + 1000000)) /\ Z.testbit (m_csr m4 MIP) 1 = true.
Proof.
  destruct run_entry as (m0 & Hrun & Hsp & Hp0 & Hc0 & Hm0 & _). destruct (start_runs m0 Hp0 Hc0 Hm0) as (t & m1 & Ht & Hst & Hr & Htp & Hp1 & Hmem & Hmpp & H1 & H2 & H3 & H4 & H5 & H6 & H7).
  unfold NCPU in Hcpu. assert (cmp + 8 <= scr) as Hdis by (unfold CLINT_MTIMECMP, CLINT; unfold KERNBASE in Hscr; lia).
  exists m0, m1, t. split_and!; [done|done|done|]. intros m2. split_and!; [exact Hmpp|exact H1|exact H2|exact Htp| |exact H3| | |exact H5|exact H7| |].
  - change (get m1 SP = stack0 + 4096 * (id + 1)). by rewrite Hr.
  - intros i Hi. change (m_csr m2 MIDELEG) with (m_csr m1 MIDELEG). rewrite H4, Z.land_spec. change 0xffff with (Z.ones 16). by rewrite Z.ones_spec_low by lia.
  - change (m_csr m2 MIDELEG) with (m_csr m1 MIDELEG). by rewrite H4, Z.land_spec, Htimer.
  - change (m_mem m1 !! cmp = Some (u64 (t + 1000000))). rewrite Hmem, !lookup_insert_ne by lia. apply lookup_insert_eq.
  - intros m3 count Hp3 Hw3 Hs3 Hd3 Hdom Hscr3 Hcmp3. change (m_csr m2 MSCRATCH) with (m_csr m1 MSCRATCH) in Hs3. change (m_csr m2 MIDELEG) with (m_csr m1 MIDELEG) in Hd3.
    assert (forall a, is_Some (m_mem m !! a) -> is_Some (m_mem m3 !! a)) as Hdom3.
    { intros a Ha. apply Hdom. change (is_Some (m_mem m1 !! a)). rewrite Hmem, !lookup_insert_is_Some'. by repeat right. }
    assert (forall va n, mapped m va va n -> mapped m3 va va n) as Hmap3.
    { intros va n Hmap. destruct m as [pm gm cm mm], m3 as [p3 g3 c3 mm3]. cbn [m_priv m_mem] in *. subst pm p3. by eapply mapped_phys. }
    destruct (run_timervec m3 scr cmp 1000000 count) as (m4 & Hrun4 & Hr4 & Hc4 & _ & Hb4 & _); [done|done|congruence|by apply Hmap3|by apply Hmap3|by left| | |done|by rewrite Hd3, H4, Z.land_spec, Hsoft|by exists m4].
    + rewrite Hscr3 by lia. change (m_mem m1 !! (scr + 32) = Some cmp). rewrite Hmem, lookup_insert_ne by lia. apply lookup_insert_eq.
    + rewrite Hscr3 by lia. change (m_mem m1 !! (scr + 40) = Some 1000000). rewrite Hmem. apply lookup_insert_eq.
Qed.
End ready.

(** ** The interrupt controller *)

(** After the controller has been set up, the interrupts of the uart and of the disk have a priority above the threshold of every hart that called [plicinithart], and are enabled for it; setting up one hart leaves the others alone. *)
Lemma plic_delivers hart irq regs : 0 <= hart < NCPU -> irq = PLIC_UART0_IRQ \/ irq = PLIC_VIRTIO0_IRQ ->
  let regs' := plicinithart hart (plicinit regs) in
  exists priority threshold enable, regs' !! (PLIC + irq * 4) = Some priority /\ regs' !! PLIC_SPRIORITY hart = Some threshold /\ regs' !! PLIC_SENABLE hart = Some enable /\
    threshold < priority /\ Z.testbit enable irq = true /\
    forall other, 0 <= other < NCPU -> other <> hart -> regs' !! PLIC_SENABLE other = regs !! PLIC_SENABLE other /\ regs' !! PLIC_SPRIORITY other = regs !! PLIC_SPRIORITY other.
Proof.
  unfold NCPU. intros Hh Hirq. exists 1, 0, 1026. unfold plicinithart, plicinit.
  unfold PLIC_SPRIORITY, PLIC_SENABLE, PLIC_UART0_IRQ, PLIC_VIRTIO0_IRQ in *. split_and!.
  - rewrite !lookup_insert_ne by lia. destruct Hirq as [-> | ->]; [rewrite lookup_insert_ne by lia|]; apply lookup_insert_eq.
  - apply lookup_insert_eq.
  - rewrite lookup_insert_ne by lia. apply lookup_insert_eq.
  - lia.
  - by destruct Hirq as [-> | ->].
  - intros other Ho Hne. by rewrite !lookup_insert_ne by lia.
Qed.

Section example.
#[local] Existing Instance flat.
Definition reset_mem : gmap Z Z := <[CLINT_MTIME := 5]> (<[CLINT_MTIMECMP 1 := 0]> (ram KERNBASE 64)).

Lemma reset_mapped g c va n : mapped (small Machine_mode KERNBASE 64 g c) va va n -> mapped (mkmachine Machine_mode g c reset_mem) va va n.
Proof. intros H. eapply mapped_phys; [exact H|]. intros a Ha. unfold reset_mem. rewrite !lookup_insert_is_Some'. by repeat right. Qed.

Lemma boot_ready_witness :
  let m := mkmachine Machine_mode (fun _ => 0) (fun c => if decide (c = MHARTID) then 1 else 0) reset_mem in
  exists m0 m1, run (entry 0x80010000 77) m = Some (Jump 77, m0) /\ start KERNBASE 88 99 m0 = Some m1 /\ m_priv (do_mret m1) = Supervisor_mode /\ get (do_mret m1) TP = 1.
Proof.
  intros m. destruct (boot_ready 0x80010000 KERNBASE 77 88 99 m 1) as (m0 & m1 & t & H0 & H1 & _ & H2 & _ & _ & H3 & _).
  - reflexivity.
  - reflexivity.
  - by vm_compute.
  - by vm_compute.
  - split; [done|]. intros a v. cbn [m m_mem]. unfold reset_mem. rewrite !lookup_insert_Some. intros [[_ <-]|(_ & [[_ <-]|(_ & H)])]; [lia|lia|]. apply (ram_words KERNBASE 64 a); [lia|exact H].
  - done.
  - apply reset_mapped, small_mapped; by vm_compute.
  - split; [done|]. intros o Ho Ho8. assert (o = 0) as -> by (Z.to_euclidean_division_equations; lia). split; [done|]. vm_compute. by eexists.
  - split; [done|]. intros o Ho Ho8. assert (o = 0) as -> by (Z.to_euclidean_division_equations; lia). split; [done|]. vm_compute. by eexists.
  - reflexivity.
  - reflexivity.
  - exists m0, m1. exact (conj H0 (conj H1 (conj H2 H3))).
Defined.
End example.
