(* ===== verification/Spinlock.v ===== *)
(** [kernel/spinlock.c], with the interrupt-enable bit of [riscv.h] and the
    [cpuid]/[mycpu]/[myproc] of [proc.c].

    The hart's nesting depth [noff] is an unbounded integer: each level is a
    live stack frame.  [acquire] spins while another hart holds the lock; in
    the run of one hart that is the outcome [Spin]. *)
From S2P Require Import Prelude Types Kstate.
From stdpp Require Import base numbers list gmap strings.
From Stdlib Require Import ZArith Lia.

Local Open Scope Z_scope.
Local Open Scope xv6_scope.

(** [panic]: the thread stops.  The output it makes first is [panic_print] of
    [Printf.v]. *)
Definition panic {A} (msg : string) : K A := stop (Panic msg).

Definition intr_get : K bool := gets (fun s => ht_sie (k_hart s)).
Definition intr_on : K unit := modify (set k_hart (set ht_sie (fun _ => true))).
Definition intr_off : K unit := modify (set k_hart (set ht_sie (fun _ => false))).

Definition cpuid : K nat := gets (fun s => ht_id (k_hart s)).
Definition mycpu : K hart := gets k_hart.

Definition push_off : K unit :=
  old ← intr_get;
  intr_off;;
  c ← mycpu;
  when (ht_noff c =? 0) (modify (set k_hart (set ht_intena (fun _ => old))));;
  modify (set k_hart (set ht_noff (fun n => n + 1))).

Definition pop_off : K unit :=
  i ← intr_get;
  (if i : bool then panic "pop_off - interruptible" else mret tt);;
  modify (set k_hart (set ht_noff (fun n => n - 1)));;
  c ← mycpu;
  (if ht_noff c <? 0 then panic "pop_off" else mret tt);;
  when ((ht_noff c =? 0) && ht_intena c) intr_on.

Definition holding (lk : lockid) : K bool :=
  push_off;;
  c ← mycpu;
  o ← gets (fun s => k_locks s !! lk);
  pop_off;;
  mret (bool_decide (o = Some (ht_id c))).

Definition initlock (lk : lockid) : K unit := modify (set k_locks (delete lk)).

Definition acquire (lk : lockid) : K unit :=
  push_off;;
  h ← holding lk;
  (if h : bool then panic "acquire" else mret tt);;
  o ← gets (fun s => k_locks s !! lk);
  match o with
  | Some _ => stop (Spin lk)
  | None => c ← mycpu; modify (set k_locks <[lk := ht_id c]>)
  end.

Definition release (lk : lockid) : K unit :=
  h ← holding lk;
  (if h : bool then mret tt else panic "release");;
  modify (set k_locks (delete lk));;
  pop_off.

(** The current process, with interrupts off around the read. *)
Definition myproc : K (option nat) :=
  push_off;;
  c ← mycpu;
  pop_off;;
  mret (ht_proc c).

(** The index of the current process, where the code dereferences [myproc()]. *)
Definition curproc : K nat := o ← myproc; deref o.

(** ** The effect of the operations *)

(** Interrupts are off while [noff] is positive. *)
Definition hart_ok (h : hart) : Prop :=
  0 <= ht_noff h /\ (0 < ht_noff h -> ht_sie h = false).

Definition hpush (h : hart) : hart :=
  h <| ht_intena := if ht_noff h =? 0 then ht_sie h else ht_intena h |>
    <| ht_sie := false |> <| ht_noff ::= fun n => n + 1 |>.
Definition hpop (h : hart) : hart :=
  h <| ht_noff ::= fun n => n - 1 |>
    <| ht_sie := if (ht_noff h =? 1) && ht_intena h then true else ht_sie h |>.

Definition acq (lk : lockid) (s : kstate) : kstate :=
  s <| k_hart ::= hpush |> <| k_locks ::= <[lk := ht_id (k_hart s)]> |>.
Definition rel (lk : lockid) (s : kstate) : kstate :=
  s <| k_hart ::= hpop |> <| k_locks ::= delete lk |>.

(** Reduces the fields of updated harts and nothing else. *)
Ltac hsimp := cbv beta iota delta [set ht_id ht_proc ht_noff ht_intena ht_sie hpush hpop] in *.

(** Two harts that differ at most in [intena], and only while nothing reads it. *)
Definition hart_equiv (h h' : hart) : Prop :=
  ht_id h = ht_id h' /\ ht_proc h = ht_proc h' /\ ht_noff h = ht_noff h' /\
  ht_sie h = ht_sie h' /\ (0 < ht_noff h -> ht_intena h = ht_intena h').

#[export] Instance hart_equiv_equivalence : Equivalence hart_equiv.
Proof.
  split; unfold hart_equiv.
  - by intros h.
  - intros h h' (?&?&Hn&?&Hi). rewrite <- Hn. split_and!; [done..|]. intros. by rewrite Hi.
  - intros h1 h2 h3 (?&?&Hn&?&Hi) (?&?&Hn'&?&Hi').
    split_and!; try congruence. intros. rewrite Hi by done. apply Hi'. lia.
Qed.

(** The state a call that takes and releases locks in a balanced way leaves
    the processor in. *)
Definition same_cpu (s s' : kstate) : Prop :=
  hart_equiv (k_hart s) (k_hart s') /\ k_locks s = k_locks s'.

#[export] Instance same_cpu_equivalence : Equivalence same_cpu.
Proof.
  split; unfold same_cpu.
  - by intros s.
  - intros s s' [? ?]. by split; symmetry.
  - intros s1 s2 s3 [? ?] [? ?]. split; [by etrans|congruence].
Qed.

Lemma hart_ok_equiv h h' : hart_equiv h h' -> hart_ok h -> hart_ok h'.
Proof. intros (?&?&Hn&Hs&?) [??]. split; rewrite <- Hn; [done|]. rewrite <- Hs. auto. Qed.

Lemma hart_ok_hpush h : hart_ok h -> hart_ok (hpush h).
Proof. intros [??]. split; simpl; [lia|done]. Qed.

Lemma hpop_hpush h : hart_ok h -> hart_equiv h (hpop (hpush h)).
Proof.
  intros [Hn Hs]. unfold hart_equiv, hpop, hpush. simpl.
  destruct (Z.eqb_spec (ht_noff h) 0) as [H0|H0].
  - rewrite H0. simpl. by destruct (ht_sie h).
  - rewrite (proj2 (Z.eqb_neq (ht_noff h + 1) 1)) by lia. simpl.
    rewrite Hs by lia. split_and!; [done..|lia|done|done].
Qed.

Lemma hpop_equiv h h' : 0 < ht_noff h -> hart_equiv h h' -> hart_equiv (hpop h) (hpop h').
Proof.
  intros H0 (Hi&Hp&Hn&Hs&He). unfold hart_equiv, hpop; simpl.
  rewrite <- Hn, <- Hs, He, Hi, Hp by done. done.
Qed.

Lemma push_off_eq s : push_off s = Ok tt (s <| k_hart ::= hpush |>).
Proof.
  unfold push_off, intr_get, intr_off, mycpu, when, modify, gets, mbind, K_bind, mret, K_ret.
  destruct s as [h]. destruct h as [id p n ie sie]. unfold hpush, set. simpl. by destruct (n =? 0).
Qed.

Lemma pop_off_eq s : 0 < ht_noff (k_hart s) -> ht_sie (k_hart s) = false ->
  pop_off s = Ok tt (s <| k_hart ::= hpop |>).
Proof.
  intros Hn Hs. unfold pop_off, intr_get, intr_on, mycpu, when, modify, gets, mbind, K_bind, mret, K_ret.
  rewrite Hs. cbn beta iota.
  match goal with |- context [?x <? 0] => destruct (Z.ltb_spec x 0) as [Hlt|_] end; [simpl in Hlt; lia|].
  unfold hpop, set. cbn beta iota. cbn [k_hart ht_noff ht_intena].
  destruct (Z.eqb_spec (ht_noff (k_hart s)) 1) as [->|].
  - change (1 - 1 =? 0) with true. rewrite Hs. by destruct (ht_intena (k_hart s)).
  - rewrite (proj2 (Z.eqb_neq (ht_noff (k_hart s) - 1) 0)) by lia. by rewrite Hs.
Qed.

(** Reading under [push_off]/[pop_off] leaves the processor as it was. *)
Definition norm (s : kstate) : kstate := s <| k_hart ::= fun h => hpop (hpush h) |>.

Lemma norm_same s : hart_ok (k_hart s) -> same_cpu s (norm s).
Proof. intros. split; [by apply hpop_hpush|done]. Qed.

Lemma myproc_eq s : hart_ok (k_hart s) -> myproc s = Ok (ht_proc (k_hart s)) (norm s).
Proof.
  intros [??]. unfold myproc, mbind at 1, K_bind at 1. rewrite push_off_eq.
  unfold mbind, K_bind, mycpu, gets. rewrite pop_off_eq by (simpl; done || lia). done.
Qed.

Lemma holding_eq lk s : hart_ok (k_hart s) ->
  holding lk s = Ok (bool_decide (k_locks s !! lk = Some (ht_id (k_hart s)))) (norm s).
Proof.
  intros [??]. unfold holding, mbind at 1, K_bind at 1. rewrite push_off_eq.
  unfold mbind, K_bind, mycpu, gets. rewrite pop_off_eq by (simpl; done || lia). done.
Qed.

Lemma acquire_eq lk s : hart_ok (k_hart s) -> k_locks s !! lk = None ->
  acquire lk s = Ok tt (s <| k_hart ::= fun h => hpop (hpush (hpush h)) |>
                          <| k_locks ::= <[lk := ht_id (k_hart s)]> |>).
Proof.
  intros Hok Hlk. unfold acquire, mbind at 1, K_bind at 1. rewrite push_off_eq.
  unfold mbind, K_bind. rewrite holding_eq by (by apply hart_ok_hpush). simpl.
  rewrite bool_decide_eq_false_2 by (by rewrite Hlk). unfold mret, K_ret, gets, mycpu. simpl.
  rewrite Hlk. done.
Qed.

Lemma hpop_hpush_hpush h : hart_ok h -> hpop (hpush (hpush h)) = hpush h.
Proof.
  intros [? _]. destruct h as [id p n ie sie]. hsimp.
  rewrite (proj2 (Z.eqb_neq (n + 1) 0)) by lia.
  rewrite (proj2 (Z.eqb_neq (n + 1 + 1) 1)) by lia. simpl. f_equal. lia.
Qed.

Lemma wp_acquire lk Q s :
  hart_ok (k_hart s) -> k_locks s !! lk = None -> Q tt (acq lk s) -> wp (acquire lk) Q s.
Proof.
  intros Hok Hlk HQ. apply (wp_Ok _ _ _ _ _ (acquire_eq lk s Hok Hlk)).
  unfold acq in HQ. destruct s as [h]. simpl in *. unfold set in *. simpl in *.
  by rewrite hpop_hpush_hpush.
Qed.

Lemma release_eq lk s :
  hart_ok (k_hart s) -> 0 < ht_noff (k_hart s) -> k_locks s !! lk = Some (ht_id (k_hart s)) ->
  release lk s = Ok tt (s <| k_hart ::= fun h => hpop (hpop (hpush h)) |> <| k_locks ::= delete lk |>).
Proof.
  intros Hok Hn Hlk. unfold release, mbind at 1, K_bind at 1. rewrite holding_eq by done.
  rewrite bool_decide_eq_true_2 by done. unfold mbind, K_bind, mret, K_ret, modify.
  destruct (hpop_hpush (k_hart s) Hok) as (_&_&Hn'&Hs'&_).
  rewrite pop_off_eq; [done|..]; simpl in *.
  - lia.
  - destruct Hok as [_ Hs]. rewrite <- Hs'. auto.
Qed.

Lemma hpop_hpush_pos h : hart_ok h -> 0 < ht_noff h -> hpop (hpush h) = h.
Proof.
  intros [? Hs] ?. destruct h as [id p n ie sie]. hsimp.
  rewrite (proj2 (Z.eqb_neq n 0)) by lia.
  rewrite (proj2 (Z.eqb_neq (n + 1) 1)) by lia. rewrite Hs by lia. simpl. f_equal. lia.
Qed.

Lemma wp_release lk Q s :
  hart_ok (k_hart s) -> 0 < ht_noff (k_hart s) -> k_locks s !! lk = Some (ht_id (k_hart s)) ->
  Q tt (rel lk s) -> wp (release lk) Q s.
Proof.
  intros Hok Hn Hlk HQ. apply (wp_Ok _ _ _ _ _ (release_eq lk s Hok Hn Hlk)).
  unfold rel in HQ. destruct s as [h]. unfold set in *. simpl in *. by rewrite hpop_hpush_pos.
Qed.

Lemma wp_myproc Q s : hart_ok (k_hart s) -> Q (ht_proc (k_hart s)) (norm s) -> wp myproc Q s.
Proof. intros Hok HQ. by apply (wp_Ok _ _ _ _ _ (myproc_eq s Hok)). Qed.

Lemma wp_curproc i Q s : hart_ok (k_hart s) -> ht_proc (k_hart s) = Some i -> Q i (norm s) -> wp curproc Q s.
Proof. intros Hok Hp HQ. apply wp_bind, wp_myproc; [done|]. by rewrite Hp. Qed.

(** After a critical section whose body left the processor as it found it,
    [release] brings back the processor state of before [acquire]. *)
Lemma same_cpu_rel lk s s' :
  hart_ok (k_hart s) -> k_locks s !! lk = None ->
  same_cpu (acq lk s) s' -> same_cpu s (rel lk s').
Proof.
  intros Hok Hlk [Hh Hl]. split; simpl in *.
  - etrans; [by apply hpop_hpush|]. apply hpop_equiv; [|done].
    destruct Hok. simpl. lia.
  - rewrite <- Hl. by rewrite delete_insert_id.
Qed.

Lemma wp_release_acq lk Q s s' :
  hart_ok (k_hart s) -> k_locks s !! lk = None -> same_cpu (acq lk s) s' ->
  (same_cpu s (rel lk s') -> Q tt (rel lk s')) -> wp (release lk) Q s'.
Proof.
  intros Hok Hlk Hs HQ. pose proof (same_cpu_rel _ _ _ Hok Hlk Hs) as Hr.
  destruct Hs as [Hh Hl]. pose proof Hh as (Hid&_&Hn&_&_). simpl in *.
  apply wp_release; [| | |by apply HQ].
  - eapply hart_ok_equiv; [done|]. by apply hart_ok_hpush.
  - destruct Hok. lia.
  - rewrite <- Hl, <- Hid. by rewrite lookup_insert_eq.
Qed.
