(* ===== verification/Frame.v ===== *)
(** Which parts of the kernel state a call leaves alone.

    [frame ex s s'] says that [s'] agrees with [s] on every field of the state
    but those listed in [ex]; the hart may differ in the dead [intena] only
    ([hart_equiv]).  A function's specification states its frame and the new
    values of the fields it excludes, and callers compose them. *)
From S2P Require Import Prelude Types Kstate Spinlock.
From stdpp Require Import base numbers list gmap strings.
From Stdlib Require Import ZArith Lia.

Local Open Scope Z_scope.
Local Open Scope xv6_scope.

Inductive field :=
  | Fhart | Flocks | Ffreelist | Fmem | Fdisk | Fwrites | Fout | Fpanicked | Fpr_locking
  | Fprocs | Fnextpid | Finitproc | Fconts | Fticks | Fbufs | Flru | Flog | Fsb | Finodes
  | Ffiles | Fpipes | Fcons | Factive | Fconsa | Fdevsw | Fkpt | Froot | Ffirst.

#[export] Instance field_eq_dec : EqDecision field.
Proof. solve_decision. Defined.

Definition same_field (f : field) (s s' : kstate) : Prop :=
  match f with
  | Fhart => hart_equiv (k_hart s) (k_hart s')
  | Flocks => k_locks s = k_locks s'
  | Ffreelist => k_freelist s = k_freelist s'
  | Fmem => k_mem s = k_mem s'
  | Fdisk => k_disk s = k_disk s'
  | Fwrites => k_writes s = k_writes s'
  | Fout => k_out s = k_out s'
  | Fpanicked => k_panicked s = k_panicked s'
  | Fpr_locking => k_pr_locking s = k_pr_locking s'
  | Fprocs => k_procs s = k_procs s'
  | Fnextpid => k_nextpid s = k_nextpid s'
  | Finitproc => k_initproc s = k_initproc s'
  | Fconts => k_conts s = k_conts s'
  | Fticks => k_ticks s = k_ticks s'
  | Fbufs => k_bufs s = k_bufs s'
  | Flru => k_lru s = k_lru s'
  | Flog => k_log s = k_log s'
  | Fsb => k_sb s = k_sb s'
  | Finodes => k_inodes s = k_inodes s'
  | Ffiles => k_files s = k_files s'
  | Fpipes => k_pipes s = k_pipes s'
  | Fcons => k_cons s = k_cons s'
  | Factive => k_active s = k_active s'
  | Fconsa => k_consa s = k_consa s'
  | Fdevsw => k_devsw s = k_devsw s'
  | Fkpt => k_kpt s = k_kpt s'
  | Froot => k_root s = k_root s'
  | Ffirst => k_first s = k_first s'
  end.

Definition frame (ex : list field) (s s' : kstate) : Prop :=
  forall f, f ∉ ex -> same_field f s s'.

#[export] Instance same_field_equivalence f : Equivalence (same_field f).
Proof.
  split.
  - intros s. by destruct f.
  - intros s s' H. destruct f; simpl in *; by symmetry.
  - intros s1 s2 s3 H1 H2. destruct f; simpl in *; by etrans.
Qed.

#[export] Instance frame_equivalence ex : Equivalence (frame ex).
Proof.
  unfold frame. split.
  - by intros s f _.
  - intros s s' H f Hf. symmetry. auto.
  - intros s1 s2 s3 H1 H2 f Hf. etrans; eauto.
Qed.

Lemma frame_weaken ex ex' s s' : ex ⊆ ex' -> frame ex s s' -> frame ex' s s'.
Proof. intros Hex H f Hf. apply H. intros ?. by apply Hf, Hex. Qed.

(** Weakens the list of changed fields, both lists being closed. *)
Lemma frame_more ex ex' s s' :
  forallb (fun f => bool_decide (f ∈ ex')) ex = true -> frame ex s s' -> frame ex' s s'.
Proof.
  intros Hex. apply frame_weaken. intros f Hf. rewrite forallb_forall in Hex.
  apply list_elem_of_In, Hex in Hf. by apply bool_decide_eq_true_1 in Hf.
Qed.

Lemma frame_trans_app ex ex' s1 s2 s3 :
  frame ex s1 s2 -> frame ex' s2 s3 -> frame (ex ++ ex') s1 s3.
Proof.
  intros H1 H2. etrans; (eapply frame_weaken; [|eassumption]); set_solver.
Qed.

(** Reads off an unchanged field. *)
Lemma frame_get f ex s s' : frame ex s s' -> bool_decide (f ∈ ex) = false -> same_field f s s'.
Proof. intros H Hf%bool_decide_eq_false_1. auto. Qed.

Lemma frame_same_cpu ex s s' :
  frame ex s s' -> bool_decide (Fhart ∈ ex) = false -> bool_decide (Flocks ∈ ex) = false ->
  same_cpu s s'.
Proof.
  intros H Hh Hl. split; [apply (frame_get Fhart _ _ _ H Hh)|apply (frame_get Flocks _ _ _ H Hl)].
Qed.

(** Proves [frame ex s s'] for a state written out as updates of [s]. *)
Ltac frame_solve :=
  let f := fresh "f" in let Hf := fresh "Hf" in
  intros f Hf; destruct f; cbn [same_field]; kfields;
  first [ reflexivity | assumption
        | exfalso; apply Hf; apply (bool_decide_unpack _); vm_compute; exact I | idtac ].

(** [frame_use H F] adds to the context what [H : frame ex s s'] says of field [F]. *)
Ltac frame_use H F :=
  let G := fresh "Hfr" in
  pose proof (frame_get F _ _ _ H eq_refl) as G; simpl in G.

Lemma hart_ok_frame ex s s' :
  frame ex s s' -> bool_decide (Fhart ∈ ex) = false -> hart_ok (k_hart s) -> hart_ok (k_hart s').
Proof. intros H Hh. apply hart_ok_equiv, (frame_get Fhart _ _ _ H Hh). Qed.

Lemma frame_norm s : hart_ok (k_hart s) -> frame [] s (norm s).
Proof. intros Hh. unfold norm. frame_solve. by apply hpop_hpush. Qed.

Lemma wp_myproc_frame Q s : hart_ok (k_hart s) ->
  (forall s', frame [] s s' -> Q (ht_proc (k_hart s)) s') -> wp myproc Q s.
Proof. intros Hh HQ. apply wp_myproc; [done|]. by apply HQ, frame_norm. Qed.

Lemma wp_curproc_frame i Q s : hart_ok (k_hart s) -> ht_proc (k_hart s) = Some i ->
  (forall s', frame [] s s' -> Q i s') -> wp curproc Q s.
Proof. intros Hh Hi HQ. eapply wp_curproc; [done..|]. by apply HQ, frame_norm. Qed.

(** Releasing the lock taken in state [s] at the end of a critical section that
    changed the fields [ex] only. *)
Lemma wp_release_frame ex lk Q s s' :
  hart_ok (k_hart s) -> k_locks s !! lk = None -> frame ex (acq lk s) s' ->
  bool_decide (Fhart ∈ ex) = false -> bool_decide (Flocks ∈ ex) = false ->
  (frame ex s (rel lk s') -> Q tt (rel lk s')) -> wp (release lk) Q s'.
Proof.
  intros Hh Hl Hf H1 H2 HQ. apply (wp_release_acq _ _ s); [done..| |].
  - by eapply frame_same_cpu.
  - intros [Hcpu Hlk]. apply HQ. intros f Hf'. specialize (Hf f Hf').
    destruct f; simpl in *; done.
Qed.

(** ** Walks over the process table *)

(** No process lock is held. *)
Definition procs_unlocked (s : kstate) : Prop := forall i, k_locks s !! LProc i = None.

(** A loop over [proc[]] whose body changes its own entry by [g] applies [g]
    to the whole table. *)
Lemma wp_proc_table ex (g : nat -> proc -> proc) (body : nat -> K unit) Q s :
  length (k_procs s) = NPROC ->
  (forall i p s0, frame ex s s0 -> k_procs s0 !! i = Some p ->
     wp (body i) (fun _ s' => frame ex s0 s' /\ k_procs s' = <[i := g i p]> (k_procs s0)) s0) ->
  (forall s', frame ex s s' -> k_procs s' = imap g (k_procs s) -> Q tt s') ->
  wp (kfor (seq 0 NPROC) body) Q s.
Proof.
  intros Hlen Hbody HQ.
  apply (wp_kfor (fun pre s' => frame ex s s' /\
    k_procs s' = imap (fun j p => if decide (j < length pre)%nat then g j p else p) (k_procs s))).
  - split; [reflexivity|]. symmetry. apply list_eq. intros j. rewrite list_lookup_imap.
    by destruct (k_procs s !! j).
  - intros pre i post s0 Hseq [Hf Hp].
    assert (i = length pre) as ->.
    { assert (seq 0 NPROC !! length pre = Some i) as H by (by rewrite Hseq, list_lookup_middle).
      apply lookup_seq in H as [-> _]. lia. }
    assert (length pre < NPROC)%nat as Hi.
    { pose proof (length_seq NPROC 0) as H. rewrite Hseq, length_app in H. simpl in H. lia. }
    destruct (lookup_lt_is_Some_2 (k_procs s) (length pre)) as [p Hpi]; [lia|].
    eapply wp_mono; [apply (Hbody _ p); [done|]|].
    { rewrite Hp, list_lookup_imap, Hpi. simpl. case_decide; [lia|done]. }
    intros [] s' [Hf' Hp']. split; [by etrans|]. rewrite Hp', Hp. apply list_eq. intros j.
    rewrite length_app. simpl.
    destruct (decide (j = length pre)) as [->|Hne].
    + rewrite list_lookup_insert_eq by (rewrite length_imap; lia).
      rewrite list_lookup_imap, Hpi. simpl. case_decide; [done|lia].
    + rewrite list_lookup_insert_ne by done. rewrite !list_lookup_imap.
      destruct (k_procs s !! j); [|done]. simpl. f_equal. repeat case_decide; lia || done.
  - intros s' [Hf Hp]. apply HQ; [done|]. rewrite Hp. apply list_eq. intros j.
    rewrite !list_lookup_imap, length_seq. destruct (k_procs s !! j) eqn:Hj; [|done].
    apply lookup_lt_Some in Hj. cbn. case_decide; [done|lia].
Qed.

(** The same where the body works on its entry under [p->lock], which it releases
    at its end. *)
Lemma wp_proc_walk (g : proc -> proc) (body : nat -> K unit) Q s :
  length (k_procs s) = NPROC -> hart_ok (k_hart s) -> procs_unlocked s ->
  (forall i p s0 Q, k_procs s0 !! i = Some p ->
     wp (release (LProc i)) Q (s0 <| k_procs ::= <[i := g p]> |>) -> wp (body i) Q s0) ->
  (forall s', frame [Fprocs] s s' -> k_procs s' = g <$> k_procs s -> Q tt s') ->
  wp (kfor (seq 0 NPROC) (fun i => acquire (LProc i);; body i)) Q s.
Proof.
  intros Hlen Hh Hl Hbody HQ.
  apply (wp_proc_table [Fprocs] (fun _ => g)); [done| |].
  - intros i p s0 Hf Hp. frame_use Hf Flocks.
    pose proof (hart_ok_frame _ _ _ Hf eq_refl Hh) as Hh0.
    assert (k_locks s0 !! LProc i = None) as Hl0 by (rewrite <- Hfr; apply Hl).
    kstep. apply wp_acquire; [done..|].
    apply (Hbody i p); [done|]. apply (wp_release_acq _ _ s0); [done..|].
    intros [Hcpu Hlk]. split; [|done]. frame_solve; done.
  - intros s' Hf Hp. apply HQ; [done|]. rewrite Hp. apply list_eq. intros j.
    by rewrite list_lookup_imap, list_lookup_fmap.
Qed.

(** ** Searches of a table *)

(** A search that leaves the state alone until it finds the first entry in [P]. *)
Lemma wp_find_table {X R} (P : X -> Prop) `{forall x, Decision (P x)} (L : list X)
    (body : nat -> K (option R)) Q s :
  (forall i x s0, frame [] s s0 -> L !! i = Some x -> ~ P x ->
     wp (body i) (fun r s' => r = None /\ frame [] s0 s') s0) ->
  (forall i x s0, frame [] s s0 -> list_find P L = Some (i, x) ->
     wp (body i) (fun r s' => exists v, r = Some v /\ Q (Some v) s') s0) ->
  (forall s', frame [] s s' -> list_find P L = None -> Q None s') ->
  wp (kfind (seq 0 (length L)) body) Q s.
Proof.
  intros Hno Hyes Hnone.
  apply (wp_kfind (fun pre s' => frame [] s s' /\
    forall j x, (j < length pre)%nat -> L !! j = Some x -> ~ P x)).
  - split; [reflexivity|]. simpl. lia.
  - intros pre i post s0 Hseq [Hf Hpre].
    assert (seq 0 (length L) !! length pre = Some i) as Hi by (by rewrite Hseq, list_lookup_middle).
    apply lookup_seq in Hi as [-> Hi]. simpl in *.
    destruct (lookup_lt_is_Some_2 L (length pre) Hi) as [x Hx].
    destruct (decide (P x)) as [Hp|Hp].
    + eapply wp_mono; [apply (Hyes _ x _ Hf)|].
      * apply list_find_Some. split_and!; [done..|]. intros j y Hj Hlt. by eapply Hpre.
      * by intros r s' (v & -> & HQ).
    + eapply wp_mono; [by apply (Hno _ x)|]. intros r s' [-> Hf']. split; [by etrans|].
      intros j y Hj Hy. rewrite length_app in Hj. simpl in Hj.
      destruct (decide (j = length pre)) as [->|]; [by simplify_eq|]. eapply Hpre; [|done]. lia.
  - intros s' [Hf Hall]. apply Hnone; [done|]. apply list_find_None, Forall_lookup.
    intros j x Hx. eapply Hall; [|done]. rewrite length_seq. by eapply lookup_lt_Some.
Qed.

(** A search whose body does not return at the first entry in [P]. *)
Lemma stops_find_table {X R} (P : X -> Prop) `{forall x, Decision (P x)} (L : list X)
    (body : nat -> K (option R)) r i x s :
  list_find P L = Some (i, x) ->
  (forall j y s0, frame [] s s0 -> L !! j = Some y -> ~ P y ->
     wp (body j) (fun r s' => r = None /\ frame [] s0 s') s0) ->
  (forall s0, frame [] s s0 -> stops (body i) r s0) ->
  stops (kfind (seq 0 (length L)) body) r s.
Proof.
  intros (Hi & _ & Hmin)%list_find_Some Hno Hstop. pose proof (lookup_lt_Some _ _ _ Hi) as Hlt.
  enough (forall n k s0, (k <= i < k + n)%nat -> frame [] s s0 -> stops (kfind (seq k n) body) r s0) as Hgen
    by (apply Hgen; [lia|reflexivity]).
  induction n as [|n IH]; intros k s0 Hk F; [lia|]. cbn [seq kfind].
  destruct (decide (k = i)) as [->|Hne]; [by apply stops_bind, Hstop|].
  destruct (lookup_lt_is_Some_2 L k ltac:(lia)) as [y Hy].
  apply stops_later. eapply wp_mono; [eapply (Hno k y); [done..|]|].
  - eapply Hmin; [done|lia].
  - intros o s1 [-> F1]. apply IH; [lia|by etrans].
Qed.
