(* ===== verification/Printf.v ===== *)
(** [kernel/printf.c] with the output path of [console.c] ([consputc]) and
    [uart.c] ([uartputc]).

    The uart accepts every character sent to it: its busy-wait on the line
    status register ends, and the character is appended to [k_out].  The
    variable arguments of [printf] are 64-bit registers ([AInt]) or pointers to
    characters ([AStr]); reading a string argument as a number, or the
    reverse, is undefined and modelled as a fault. *)
From S2P Require Import Prelude Types Kstate Cstring Spinlock Frame.
From stdpp Require Import base numbers list gmap strings.
From Stdlib Require Import ZArith Lia.

Local Open Scope Z_scope.
Local Open Scope xv6_scope.

Definition BACKSPACE : Z := 0x100.

(** [WriteReg(THR, c)] on a register of one byte. *)
Definition uartputc (c : Z) : K unit := modify (set k_out (cons (u8 c))).

Definition consputc (c : Z) : K unit :=
  panicked ← gets k_panicked;
  if panicked : bool then stop Hang
  else if c =? BACKSPACE then uartputc 8;; uartputc 32;; uartputc 8
  else uartputc c.

Inductive arg := AInt (z : Z) | AStr (s : option (list Z)).

Definition digits : list Z := bytes_of "0123456789abcdef".

(** [do { buf[i++] = digits[x % base]; } while((x /= base) != 0)], the digits
    in the order they are stored.  [fuel] bounds the number of iterations. *)
Fixpoint printint_loop (fuel : nat) (x base : Z) : option (list Z) :=
  match fuel with
  | O => None
  | S fuel =>
    d ← digits !! Z.to_nat (x mod base);
    if x / base =? 0 then Some [d] else r ← printint_loop fuel (x / base) base; Some (d :: r)
  end.

(** [printint(xx, base, sign)]: the characters it passes to [consputc].  [buf]
    has 16 bytes. *)
Definition printint (xx base sign : Z) : option (list Z) :=
  let neg := negb (sign =? 0) && (xx <? 0) in
  let x := if neg then u32 (- xx) else u32 xx in
  ds ← printint_loop 32 x base;
  let buf := if neg then ds ++ [45] else ds in
  if (length buf <=? 16)%nat then Some (reverse buf) else None.

(** [printptr(x)]: 16 hexadecimal digits, the most significant first. *)
Definition printptr (x : Z) : list Z :=
  [48; 120] ++
  ((fun i => default 0 (digits !! Z.to_nat (Z.shiftr (u64 (Z.shiftl x (4 * Z.of_nat i))) 60)))
     <$> seq 0 16).

(** The characters [printf] prints, for a format and its arguments. *)
Fixpoint format (fmt : list Z) (args : list arg) : option (list Z) :=
  match fmt with
  | [] => None
  | c :: fmt =>
    if c =? 0 then Some []
    else if negb (c =? 37) then out ← format fmt args; Some (c :: out)
    else match fmt with
    | [] => None
    | c :: fmt =>
      if c =? 0 then Some []
      else if c =? 100 then (* 'd' *)
        match args with
        | AInt z :: args => a ← printint (i32 z) 10 1; out ← format fmt args; Some (a ++ out)
        | _ => None
        end
      else if c =? 120 then (* 'x' *)
        match args with
        | AInt z :: args => a ← printint (i32 z) 16 1; out ← format fmt args; Some (a ++ out)
        | _ => None
        end
      else if c =? 112 then (* 'p' *)
        match args with
        | AInt z :: args => out ← format fmt args; Some (printptr (u64 z) ++ out)
        | _ => None
        end
      else if c =? 115 then (* 's' *)
        match args with
        | AStr o :: args =>
          let s := default (lit "(null)") o in
          if decide (0 ∈ s) then out ← format fmt args; Some (cstr s ++ out) else None
        | _ => None
        end
      else if c =? 37 then out ← format fmt args; Some (37 :: out)
      else out ← format fmt args; Some (37 :: c :: out)
    end
  end.

Definition printf (fmt : string) (args : list arg) : K unit :=
  locking ← gets k_pr_locking;
  when locking (acquire LPr);;
  cs ← deref (format (lit fmt) args);
  kfor cs consputc;;
  when locking (release LPr).

(** What [panic] prints before it stops the machine. *)
Definition panic_print (msg : string) : K unit :=
  modify (set k_pr_locking (fun _ => false));;
  printf "panic: " [];;
  printf msg [];;
  printf "\n" [];;
  modify (set k_panicked (fun _ => true)).

Definition printfinit : K unit :=
  initlock LPr;; modify (set k_pr_locking (fun _ => true)).

(** ** Number formatting *)

Definition digit_char (d : Z) : Z := if d <? 10 then 48 + d else 87 + d.

(** The value of a digit string, the least significant digit first. *)
Fixpoint digits_value (base : Z) (ds : list Z) : Z :=
  match ds with [] => 0 | d :: ds => d + base * digits_value base ds end.

Lemma digits_lookup d : 0 <= d < 16 -> digits !! Z.to_nat d = Some (digit_char d).
Proof.
  intros Hd. assert (d ∈ seqZ 0 16) as Hin by (apply elem_of_seqZ; lia).
  apply list_elem_of_In in Hin. vm_compute in Hin.
  repeat (destruct Hin as [<-|Hin]; [vm_compute; reflexivity|]). done.
Qed.

Lemma printint_loop_spec base : 2 <= base <= 16 -> forall fuel x,
  0 <= x < base ^ Z.of_nat fuel -> (0 < fuel)%nat ->
  exists ds, printint_loop fuel x base = Some (digit_char <$> ds) /\
    Forall (fun d => 0 <= d < base) ds /\ digits_value base ds = x /\
    (length ds <= fuel)%nat /\ (0 < length ds)%nat /\ (x <> 0 -> last ds <> Some 0).
Proof.
  intros Hb. induction fuel as [|fuel IH]; intros x Hx Hf; [lia|]. simpl.
  pose proof (Z.mod_pos_bound x base) as Hm. pose proof (Z.div_mod x base) as Hdm.
  rewrite digits_lookup by lia. simpl.
  destruct (Z.eqb_spec (x / base) 0) as [H0|H0].
  - exists [x mod base]. simpl. rewrite H0 in Hdm. split_and!; [done| |lia|lia|lia|].
    + by repeat constructor; lia.
    + intros ? [=]. lia.
  - destruct (IH (x / base)) as (ds & Hds & Hr & Hv & Hl & Hl0 & Hlast).
    + split; [apply Z.div_pos; lia|]. apply Z.div_lt_upper_bound; [lia|].
      rewrite <- Z.pow_succ_r by lia. rewrite <- Nat2Z.inj_succ. lia.
    + destruct fuel; [|lia]. exfalso. apply H0. apply Z.div_small. rewrite Z.pow_1_r in Hx. lia.
    + exists (x mod base :: ds). rewrite Hds. simpl. split_and!; [done| | |lia|lia|].
      * constructor; [lia|done].
      * lia.
      * intros _. destruct ds as [|d ds]; [simpl in *; lia|]. by apply Hlast.
Qed.

Lemma printint_loop_fuel base f k : forall x r,
  printint_loop f x base = Some r -> printint_loop (f + k) x base = Some r.
Proof.
  induction f as [|f IH]; intros x r; simpl; [done|].
  destruct (digits !! _) as [d|]; simpl; [|done]. case_match; [done|].
  destruct (printint_loop f (x / base) base) as [r'|] eqn:E; simpl; [|done].
  by rewrite (IH _ _ E).
Qed.

#[global] Arguments printint_loop : simpl never.

(** The decimal or hexadecimal numeral of [xx]: an optional minus sign and the
    digits of its absolute value, the most significant first. *)
Definition is_numeral (base xx : Z) (cs : list Z) : Prop :=
  exists ds, cs = (if xx <? 0 then [45] else []) ++ (digit_char <$> reverse ds) /\
    Forall (fun d => 0 <= d < base) ds /\ digits_value base ds = Z.abs xx /\
    (0 < length ds)%nat /\ (xx <> 0 -> last ds <> Some 0).

Lemma printint_numeral base xx :
  10 <= base <= 16 -> - 2 ^ 31 <= xx < 2 ^ 31 ->
  exists cs, printint xx base 1 = Some cs /\ is_numeral base xx cs.
Proof.
  intros Hb Hx. unfold printint.
  assert ((if xx <? 0 then u32 (- xx) else u32 xx) = Z.abs xx) as Habs.
  { case_Z; rewrite u32_small; lia. }
  change (negb (1 =? 0)) with true. rewrite andb_true_l, Habs.
  destruct (printint_loop_spec base ltac:(lia) 10 (Z.abs xx)) as (ds & Hds & Hr & Hv & Hl & Hl0 & Hlast); [|lia|].
  { split; [lia|]. change (Z.of_nat 10) with 10.
    pose proof (Z.pow_le_mono_l 10 base 10). lia. }
  apply (printint_loop_fuel base 10 22) in Hds. change (10 + 22)%nat with 32%nat in Hds.
  rewrite Hds. simpl.
  match goal with |- context [(?x <=? 16)%nat] => assert ((x <=? 16)%nat = true) as -> end.
  { apply Nat.leb_le. case_Z; rewrite ?length_app, length_fmap; simpl; lia. }
  eexists. split; [done|]. exists ds. split_and!; [|done|done|done|].
  - rewrite fmap_reverse. case_Z; [by rewrite reverse_app|done].
  - intros. apply Hlast. lia.
Qed.

#[global] Arguments printint : simpl never.
#[global] Arguments printptr : simpl never.

(** ** The effect of [printf] *)

(** The bytes the uart receives for one character. *)
Definition uart_image (c : Z) : list Z :=
  if c =? BACKSPACE then [8; 32; 8] else [u8 c].

Lemma kfor_consputc cs : forall s, k_panicked s = false ->
  kfor cs consputc s = Ok tt (s <| k_out ::= app (reverse (cs ≫= uart_image)) |>).
Proof.
  induction cs as [|c cs IH]; intros s Hp.
  - unfold set. by destruct s.
  - cbn [kfor]. unfold mbind at 1, K_bind.
    assert (consputc c s = Ok tt (s <| k_out ::= app (reverse (uart_image c)) |>)) as ->.
    { unfold consputc, uartputc, gets, modify, mbind, K_bind, uart_image. rewrite Hp.
      by destruct (c =? BACKSPACE). }
    rewrite IH by done. f_equal. rewrite bind_cons, reverse_app. unfold set.
    f_equal. apply app_assoc.
Qed.

(** The console is usable: not frozen by a panic, and its lock is free. *)
Definition console_ok (s : kstate) : Prop :=
  k_panicked s = false /\ k_locks s !! LPr = None.

Lemma wp_printf fmt args cs Q s :
  format (lit fmt) args = Some cs -> hart_ok (k_hart s) -> console_ok s ->
  (forall h, hart_equiv (k_hart s) h ->
     Q tt (s <| k_hart := h |> <| k_out ::= app (reverse (cs ≫= uart_image)) |>)) ->
  wp (printf fmt args) Q s.
Proof.
  intros Hf Hh [Hp Hl] HQ. unfold printf. apply wp_bind, wp_gets.
  destruct (k_pr_locking s); simpl when; apply wp_bind.
  - apply wp_acquire; [done..|]. apply wp_bind. eapply wp_deref; [done|]. apply wp_bind.
    apply (wp_Ok _ _ _ _ _ (kfor_consputc cs (acq LPr s) Hp)).
    apply (wp_release_acq _ _ s); [done..|].
    intros [Hsame _]. specialize (HQ _ Hsame). revert HQ. unfold rel, acq. kunfold.
    by rewrite delete_insert_id.
  - apply wp_ret, wp_bind. eapply wp_deref; [done|]. apply wp_bind.
    apply (wp_Ok _ _ _ _ _ (kfor_consputc cs s Hp)). apply wp_ret.
    specialize (HQ (k_hart s) ltac:(reflexivity)). by destruct s.
Qed.

(** The conversions of a format, checked against the kinds of the arguments
    ([true] for a string). *)
Fixpoint format_ok (fmt : list Z) (kinds : list bool) : bool :=
  match fmt with
  | [] => false
  | c :: fmt =>
    if c =? 0 then true
    else if negb (c =? 37) then format_ok fmt kinds
    else match fmt with
    | [] => false
    | c :: fmt =>
      if c =? 0 then true
      else if (c =? 100) || (c =? 120) || (c =? 112) then
        match kinds with false :: kinds => format_ok fmt kinds | _ => false end
      else if c =? 115 then
        match kinds with true :: kinds => format_ok fmt kinds | _ => false end
      else format_ok fmt kinds
    end
  end.

Definition is_str (a : arg) : bool := match a with AStr _ => true | AInt _ => false end.

(** A string argument is null or terminated. *)
Definition arg_ok (a : arg) : Prop :=
  match a with AStr (Some s) => 0 ∈ s | _ => True end.

Lemma printint_i32 z base : 10 <= base <= 16 -> exists cs, printint (i32 z) base 1 = Some cs.
Proof.
  intros Hb. pose proof (i32_range z).
  destruct (printint_numeral base (i32 z)) as (cs & ? & _); [done|lia|eauto].
Qed.

Lemma format_is_Some args : Forall arg_ok args -> forall fmt,
  format_ok fmt (is_str <$> args) = true -> is_Some (format fmt args).
Proof.
  intros Hargs fmt. remember (length fmt) as n eqn:Hn. revert fmt args Hargs Hn.
  induction n as [n IH] using lt_wf_ind. intros [|c fmt] args Hargs ->;
    cbn [format format_ok]; [done|]. cbn [length] in IH. destruct (c =? 0); [by eauto|].
  destruct (c =? 37); cbn [negb].
  2:{ intros H. destruct (IH (length fmt) ltac:(lia) fmt args Hargs eq_refl H) as [o ->]. by eauto. }
  destruct fmt as [|d fmt]; [done|]. cbn [length] in IH.
  assert (forall args, Forall arg_ok args -> format_ok fmt (is_str <$> args) = true ->
    is_Some (format fmt args)) as IH' by (intros; by apply (IH (length fmt)); [lia|..]).
  clear IH. destruct (d =? 0); [by eauto|].
  destruct (d =? 100); cbn [orb].
  { destruct args as [|[z|os] args]; [done| |done]. intros H. apply Forall_cons in Hargs as [_ Hargs].
    destruct (printint_i32 z 10 ltac:(lia)) as [cs ->], (IH' args Hargs H) as [o Ho].
    cbn [mbind option_bind]. rewrite Ho. by eauto. }
  destruct (d =? 120); cbn [orb].
  { destruct args as [|[z|os] args]; [done| |done]. intros H. apply Forall_cons in Hargs as [_ Hargs].
    destruct (printint_i32 z 16 ltac:(lia)) as [cs ->], (IH' args Hargs H) as [o Ho].
    cbn [mbind option_bind]. rewrite Ho. by eauto. }
  destruct (d =? 112).
  { destruct args as [|[z|os] args]; [done| |done]. intros H. apply Forall_cons in Hargs as [_ Hargs].
    destruct (IH' args Hargs H) as [o Ho]. rewrite Ho. by eauto. }
  destruct (d =? 115).
  { destruct args as [|[z|os] args]; [done|done|]. intros H. apply Forall_cons in Hargs as [Ha Hargs].
    destruct (IH' args Hargs H) as [o Ho]. rewrite decide_True; [rewrite Ho; by eauto|].
    destruct os; [done|]. cbn [default]. apply elem_of_app. right. set_solver. }
  intros H. destruct (IH' args Hargs H) as [o ->]. destruct (d =? 37); by eauto.
Qed.

(** [printf] changes nothing but the output. *)
Lemma wp_printf_frame fmt args Q s :
  format_ok (lit fmt) (is_str <$> args) = true -> Forall arg_ok args ->
  hart_ok (k_hart s) -> console_ok s ->
  (forall s', frame [Fout] s s' -> Q tt s') -> wp (printf fmt args) Q s.
Proof.
  intros Hf Ha Hh Hc HQ. destruct (format_is_Some args Ha _ Hf) as [cs Hcs].
  eapply wp_printf; [done..|]. intros h Hh'. apply HQ. frame_solve.
Qed.
