(* ===== verification/Accounting.v ===== *)
(** The resource accounting of [container.c] that the page allocator, the block
    allocator and [fork] call: looking containers up, charging and releasing
    memory, disk and processes, and what happens to a container that
    exceeds a limit ([climitexceedhandler], with [stopprocforcontainer] of [proc.c]
    and [freecontainer]). *)
From S2P Require Import Prelude Types Kstate Cstring Spinlock Frame Printf.
From stdpp Require Import base numbers list gmap strings.
From Stdlib Require Import ZArith Lia.

Local Open Scope Z_scope.
Local Open Scope xv6_scope.

(** ** Lookups *)

Definition cid2cont (cid : Z) : K (option nat) :=
  kfind (seq 0 NCONT) (fun i =>
    c ← get_cont i;
    if (c_cid c =? cid) && bool_decide (c_state c <> CUNUSED) then mret (Some i) else mret None).

(** [strncmp(name, c->name, strlen(name)) == 0] *)
Definition name_matches (name cname : list Z) : K bool :=
  n ← deref (strlen name);
  r ← deref (strncmp name cname (Z.to_nat n));
  mret (r =? 0).

Definition name2cont (name : list Z) : K (option nat) :=
  kfind (seq 0 NCONT) (fun i =>
    c ← get_cont i;
    m ← name_matches name (c_name c);
    mret (if m : bool then Some i else None)).

Definition name2cid (name : list Z) : K Z :=
  r ← kfind (seq 0 NCONT) (fun i =>
    c ← get_cont i;
    m ← name_matches name (c_name c);
    mret (if m : bool then Some (c_cid c) else None));
  mret (default (-1) r).

(** ** Charging a container *)

(** [memchanged] is a [uint64]: a release passes [(uint64)-n]. *)
Definition updatecontmem (memchanged : Z) (oc : option nat) : K Z :=
  match oc with
  | None => mret 0
  | Some i =>
    c ← get_cont i;
    if bool_decide (c_state c = CUNUSED) then mret 0
    else if (c_max_sz c <? u64 (c_used_mem c + memchanged)) && (c_isroot c =? 0) then
      printf "Container %s memory exceed\n" [AStr (Some (c_name c))];;
      mret (-1)
    else
      upd_cont i (set c_used_mem (fun m => u64 (m + memchanged)));;
      c ← get_cont i;
      when (i32 (c_used_mem c) <? 0) (upd_cont i (set c_used_mem (fun _ => 0)));;
      mret 1
  end.

(** The test [c->used_dsk < 0] is on an unsigned field. *)
Definition updatecontdsk (dskchanged : Z) (oc : option nat) : K Z :=
  match oc with
  | None => mret 0
  | Some i =>
    c ← get_cont i;
    if bool_decide (c_state c = CUNUSED) then mret 0
    else if (c_max_dsk c <? u64 (c_used_dsk c + dskchanged)) && (c_isroot c =? 0) then
      printf "Container disk exceed\n" [];;
      mret (-1)
    else
      upd_cont i (set c_used_dsk (fun m => u64 (m + dskchanged)));;
      mret 1
  end.

Definition updatecontproc (procchange : Z) (oc : option nat) : K Z :=
  match oc with
  | None => mret 0
  | Some i =>
    c ← get_cont i;
    if bool_decide (c_state c = CUNUSED) then mret 0
    else if c_max_proc c <? i32 (c_used_proc c + procchange) then
      printf "Container proc exceed\n" [];;
      mret (-1)
    else
      upd_cont i (set c_used_proc (fun m => i32 (m + procchange)));;
      c ← get_cont i;
      when (c_used_proc c <? 0) (upd_cont i (set c_used_proc (fun _ => 0)));;
      mret 1
  end.

(** ** Exceeding a limit *)

(** [proc.c]: mark every process of the container killed and wake the ones
    that sleep or are suspended. *)
Definition stopprocforcontainer (c : nat) : K unit :=
  kfor (seq 0 NPROC) (fun i =>
    acquire (LProc i);;
    p ← get_proc i;
    when (bool_decide (p_cont p = Some c))
      (upd_proc i (set p_killed (fun _ => 1));;
       when (bool_decide (p_state p = SLEEPING \/ p_state p = SUSPENDED))
         (upd_proc i (set p_state (fun _ => RUNNABLE))));;
    release (LProc i)).

Definition freecontainer (i : nat) : K Z :=
  acquire (LCont i);;
  c ← get_cont i;
  name ← deref (strncpy (c_name c) (lit "") 16);
  upd_cont i (set c_name (fun _ => name));;
  vc_name ← deref (strncpy (c_vc_name c) (lit "") 16);
  upd_cont i (set c_vc_name (fun _ => vc_name));;
  upd_cont i (fun c =>
    c <| c_max_dsk := 0 |> <| c_max_sz := 0 |> <| c_max_proc := 0 |>
      <| c_rootdir := None |> <| c_nextlocalpid := 0 |> <| c_nextproctorun := None |>
      <| c_used_dsk := 0 |> <| c_used_mem := 0 |> <| c_used_proc := 0 |>
      <| c_state := CUNUSED |> <| c_ticks := 0 |>);;
  release (LCont i);;
  mret 1.

Definition climitexceedhandler (oc : option nat) : K unit :=
  i ← deref oc;
  c ← get_cont i;
  if negb (c_isroot c =? 0) then
    printf "Error: handling exceed resource limit,  cannot stop root container\n" []
  else if bool_decide (c_state c = CUNUSED) then mret tt
  else
    printf "kernel: stopping container %s state\n" [AStr (Some (c_name c))];;
    upd_cont i (set c_state (fun _ => CSTOPPED));;
    stopprocforcontainer i;;
    freecontainer i;;
    c ← get_cont i;
    printf "kernel: container %s stopped\n" [AStr (Some (c_name c))].

(** ** The accounting as pure functions of the container *)

Definition charge_mem (chg : Z) (c : container) : Z * container :=
  if bool_decide (c_state c = CUNUSED) then (0, c)
  else if (c_max_sz c <? u64 (c_used_mem c + chg)) && (c_isroot c =? 0) then (-1, c)
  else (1, c <| c_used_mem := if i32 (u64 (c_used_mem c + chg)) <? 0 then 0
                              else u64 (c_used_mem c + chg) |>).

Definition charge_dsk (chg : Z) (c : container) : Z * container :=
  if bool_decide (c_state c = CUNUSED) then (0, c)
  else if (c_max_dsk c <? u64 (c_used_dsk c + chg)) && (c_isroot c =? 0) then (-1, c)
  else (1, c <| c_used_dsk := u64 (c_used_dsk c + chg) |>).

Definition charge_proc (chg : Z) (c : container) : Z * container :=
  if bool_decide (c_state c = CUNUSED) then (0, c)
  else if c_max_proc c <? i32 (c_used_proc c + chg) then (-1, c)
  else (1, c <| c_used_proc := Z.max 0 (i32 (c_used_proc c + chg)) |>).

(** ** Containers within their limits *)

(** The counters are in range, the name is a string, and a container in use is within
    its process limit and, unless it is the root, its memory and disk limits. *)
Record cont_ok (c : container) : Prop := {
  ok_name : 0 ∈ c_name c;
  ok_mem : 0 <= c_used_mem c < 2 ^ 64;
  ok_dsk : 0 <= c_used_dsk c < 2 ^ 64;
  ok_proc : 0 <= c_used_proc c < 2 ^ 31;
  ok_max : 0 <= c_max_sz c < 2 ^ 64 /\ 0 <= c_max_dsk c < 2 ^ 64 /\ 0 <= c_max_proc c < 2 ^ 31;
  ok_proc_limit : c_state c <> CUNUSED -> c_used_proc c <= c_max_proc c;
  ok_mem_limit : c_state c <> CUNUSED -> c_isroot c = 0 -> c_used_mem c <= c_max_sz c;
  ok_dsk_limit : c_state c <> CUNUSED -> c_isroot c = 0 -> c_used_dsk c <= c_max_dsk c
}.

Definition conts_ok (s : kstate) : Prop := Forall cont_ok (k_conts s).

(** The charges the kernel makes: pages by [kalloc] and [kfree], blocks by
    [balloc] and [bfree], processes by [fork] and [freeproc]. *)
Inductive charge :=
  | ChMem (chg : Z) (c : option nat)
  | ChDsk (chg : Z) (c : option nat)
  | ChProc (chg : Z) (c : option nat).

Definition do_charge (ch : charge) : K unit :=
  match ch with
  | ChMem chg c => updatecontmem chg c ;; mret tt
  | ChDsk chg c => updatecontdsk chg c ;; mret tt
  | ChProc chg c => updatecontproc chg c ;; mret tt
  end.

Definition charge_cont (ch : charge) : option nat :=
  match ch with ChMem _ c | ChDsk _ c | ChProc _ c => c end.

Ltac charge_ok :=
  intros Hok; pose proof Hok as []; unfold charge_mem, charge_dsk, charge_proc;
  case_bool_decide; [done|];
  match goal with |- context [if ?b then (-1, _) else _] => destruct b eqn:? end; [done|].

Lemma charge_mem_ok chg c : cont_ok c -> cont_ok (charge_mem chg c).2.
Proof.
  charge_ok. pose proof (u64_range (c_used_mem c + chg)).
  split; cbn [set c_state c_name c_used_mem c_used_dsk c_used_proc c_max_sz c_max_dsk c_max_proc c_isroot snd]; auto.
  - destruct (i32 _ <? 0); lia.
  - intros _ Hr. rewrite Hr in *. destruct (i32 _ <? 0); [lia|].
    rewrite andb_true_r in *. lia.
Qed.

Lemma charge_dsk_ok chg c : cont_ok c -> cont_ok (charge_dsk chg c).2.
Proof.
  charge_ok. pose proof (u64_range (c_used_dsk c + chg)).
  split; cbn [set c_state c_name c_used_mem c_used_dsk c_used_proc c_max_sz c_max_dsk c_max_proc c_isroot snd]; auto.
  intros _ Hr. rewrite Hr, andb_true_r in *. lia.
Qed.

Lemma charge_proc_ok chg c : cont_ok c -> cont_ok (charge_proc chg c).2.
Proof.
  charge_ok. pose proof (i32_range (c_used_proc c + chg)).
  split; cbn [set c_state c_name c_used_mem c_used_dsk c_used_proc c_max_sz c_max_dsk c_max_proc c_isroot snd]; auto; lia.
Qed.

(** The charge as a function of the container table. *)
Definition charge_table (chg : Z) (oc : option nat) (l : list container) : Z * list container :=
  match oc with
  | None => (0, l)
  | Some i => match l !! i with
              | None => (0, l)
              | Some c => let '(r, c') := charge_mem chg c in (r, <[i := c']> l)
              end
  end.

Section acct.
Context (i : nat) (c : container) (s : kstate).
Hypothesis Hc : k_conts s !! i = Some c.
Hypothesis Hh : hart_ok (k_hart s).
Hypothesis Hcons : console_ok s.

Lemma frame_id_cont s' : frame [Fout] s s' ->
  k_conts s' = <[i := c]> (k_conts s) /\ frame [Fout; Fconts] s s'.
Proof.
  intros Hf. split.
  - frame_use Hf Fconts. rewrite list_insert_id; by symmetry.
  - by eapply frame_more; [|done].
Qed.

Lemma wp_updatecontmem chg Q :
  0 ∈ c_name c ->
  (forall s', frame [Fout; Fconts] s s' ->
     k_conts s' = <[i := (charge_mem chg c).2]> (k_conts s) -> Q (charge_mem chg c).1 s') ->
  wp (updatecontmem chg (Some i)) Q s.
Proof.
  intros Hn HQ. unfold updatecontmem, charge_mem in *. kstep.
  destruct (bool_decide (c_state c = CUNUSED)).
  - kstep. destruct (frame_id_cont s) as [? ?]; [reflexivity|]. by apply HQ.
  - destruct ((c_max_sz c <? _) && _).
    + kstep. apply wp_printf_frame; [reflexivity|by repeat constructor|done..|].
      intros s' Hf. kstep. destruct (frame_id_cont s' Hf). by apply HQ.
    + assert (i < length (k_conts s))%nat by (by eapply lookup_lt_Some).
      kstep. cbn [c_used_mem set]. destruct (i32 _ <? 0); kstep.
      * apply HQ; [frame_solve|]. kfields. by rewrite list_insert_insert_eq.
      * apply HQ; [frame_solve|done].
Qed.

Lemma wp_updatecontdsk chg Q :
  (forall s', frame [Fout; Fconts] s s' ->
     k_conts s' = <[i := (charge_dsk chg c).2]> (k_conts s) -> Q (charge_dsk chg c).1 s') ->
  wp (updatecontdsk chg (Some i)) Q s.
Proof.
  intros HQ. unfold updatecontdsk, charge_dsk in *. kstep.
  destruct (bool_decide (c_state c = CUNUSED)).
  - kstep. destruct (frame_id_cont s) as [? ?]; [reflexivity|]. by apply HQ.
  - destruct ((c_max_dsk c <? _) && _).
    + kstep. apply wp_printf_frame; [reflexivity|done..|].
      intros s' Hf. kstep. destruct (frame_id_cont s' Hf). by apply HQ.
    + kstep. apply HQ; [frame_solve|done].
Qed.

Lemma wp_updatecontproc chg Q :
  (forall s', frame [Fout; Fconts] s s' ->
     k_conts s' = <[i := (charge_proc chg c).2]> (k_conts s) -> Q (charge_proc chg c).1 s') ->
  wp (updatecontproc chg (Some i)) Q s.
Proof.
  intros HQ. unfold updatecontproc, charge_proc in *. kstep.
  destruct (bool_decide (c_state c = CUNUSED)).
  - kstep. destruct (frame_id_cont s) as [? ?]; [reflexivity|]. by apply HQ.
  - destruct (c_max_proc c <? _).
    + kstep. apply wp_printf_frame; [reflexivity|done..|].
      intros s' Hf. kstep. destruct (frame_id_cont s' Hf). by apply HQ.
    + kstep. cbn [c_used_proc set]. destruct (Z.ltb_spec (i32 (c_used_proc c + chg)) 0); kstep.
      * apply HQ; [frame_solve|]. kfields. rewrite list_insert_insert_eq.
        by rewrite Z.max_l by lia.
      * apply HQ; [frame_solve|]. kfields. by rewrite Z.max_r by lia.
Qed.
End acct.

(** ** What the kernel relies on between calls *)

(** The container of the current process. *)
Definition cont_of (s : kstate) : option nat :=
  i ← ht_proc (k_hart s); p ← k_procs s !! i; p_cont p.

Record kernel_ok (s : kstate) : Prop := {
  kok_hart : hart_ok (k_hart s);
  kok_console : console_ok s;
  kok_names : Forall (fun c => 0 ∈ c_name c) (k_conts s);
  kok_cur : forall i, ht_proc (k_hart s) = Some i -> (i < length (k_procs s))%nat;
  kok_cont : forall i, cont_of s = Some i -> (i < length (k_conts s))%nat
}.

Lemma cont_of_frame ex s s' :
  frame ex s s' -> bool_decide (Fhart ∈ ex) = false -> bool_decide (Fprocs ∈ ex) = false ->
  cont_of s' = cont_of s.
Proof.
  intros Hf H1 H2. pose proof (frame_get Fhart _ _ _ Hf H1) as (_&Hp&_).
  pose proof (frame_get Fprocs _ _ _ Hf H2) as Hps. simpl in *. unfold cont_of.
  by rewrite Hp, Hps.
Qed.

Lemma console_ok_frame ex s s' :
  frame ex s s' -> bool_decide (Fpanicked ∈ ex) = false -> bool_decide (Flocks ∈ ex) = false ->
  console_ok s -> console_ok s'.
Proof.
  intros Hf H1 H2 [??]. pose proof (frame_get Fpanicked _ _ _ Hf H1) as Hp.
  pose proof (frame_get Flocks _ _ _ Hf H2) as Hl. simpl in *. split; congruence.
Qed.

(** The container table keeps its shape. *)
Definition same_names (l l' : list container) : Prop :=
  length l = length l' /\ (Forall (fun c => 0 ∈ c_name c) l -> Forall (fun c => 0 ∈ c_name c) l').

#[export] Instance same_names_refl : Reflexive same_names.
Proof. by split. Qed.

Lemma kernel_ok_frame ex s s' :
  frame ex s s' ->
  forallb (fun f => negb (bool_decide (f ∈ ex))) [Fhart; Flocks; Fpanicked; Fprocs] = true ->
  same_names (k_conts s) (k_conts s') -> kernel_ok s -> kernel_ok s'.
Proof.
  intros Hf Hex [Hlen Hn] []. simpl in Hex.
  rewrite !andb_true_iff, !negb_true_iff in Hex. destruct Hex as (H1&H2&H3&H4&_).
  pose proof (frame_get Fhart _ _ _ Hf H1) as (_&Hp&_).
  pose proof (frame_get Fprocs _ _ _ Hf H4) as Hps. simpl in *. split.
  - by eapply hart_ok_frame.
  - by eapply console_ok_frame.
  - auto.
  - rewrite <- Hp, <- Hps. done.
  - rewrite (cont_of_frame _ _ _ Hf H1 H4), <- Hlen. done.
Qed.

Lemma kernel_ok_same ex s s' :
  frame ex s s' ->
  forallb (fun f => negb (bool_decide (f ∈ ex))) [Fhart; Flocks; Fpanicked; Fprocs; Fconts] = true ->
  kernel_ok s -> kernel_ok s'.
Proof.
  intros Hf Hex. simpl in Hex. rewrite !andb_true_iff, !negb_true_iff in Hex.
  destruct Hex as (?&?&?&?&H5&_). eapply kernel_ok_frame; [done|..].
  - simpl. rewrite !andb_true_iff, !negb_true_iff. done.
  - pose proof (frame_get Fconts _ _ _ Hf H5) as <-. done.
Qed.

Lemma charge_mem_name chg c : c_name (charge_mem chg c).2 = c_name c.
Proof. unfold charge_mem. repeat case_match; simplify_eq/=; done. Qed.

Lemma charge_table_names chg oc l : same_names l (charge_table chg oc l).2.
Proof.
  unfold charge_table. destruct oc as [i|]; [|done]. destruct (l !! i) as [c|] eqn:Hc; [|done].
  pose proof (charge_mem_name chg c) as Hn. destruct (charge_mem chg c) as [r c']. simpl in *.
  split; [by rewrite length_insert|]. intros Hl. apply Forall_insert; [done|].
  rewrite Hn. by eapply (Forall_lookup_1 _ _ _ _ Hl).
Qed.

(** A charge that fits is undone by the opposite charge. *)
Lemma charge_table_room chg oc l : 0 <= chg ->
  (forall i c, oc = Some i -> l !! i = Some c ->
     0 <= c_used_mem c < 2 ^ 31 - chg /\ c_used_mem c + chg <= c_max_sz c) ->
  0 <= (charge_table chg oc l).1 /\
  (charge_table (u64 (- chg)) oc (charge_table chg oc l).2).2 = l.
Proof.
  intros Hchg Hroom. unfold charge_table. destruct oc as [i|]; [|done].
  destruct (l !! i) as [c|] eqn:Hc; [|simpl; by rewrite ?Hc]. destruct (Hroom i c eq_refl Hc) as [Hu Hm].
  assert (u64 (c_used_mem c + chg) = c_used_mem c + chg) as Hu1 by (apply u64_small; lia).
  assert (u64 (c_used_mem c + chg + u64 (- chg)) = c_used_mem c) as Hu2.
  { unfold u64. rewrite Zplus_mod_idemp_r. replace (_ + - chg) with (c_used_mem c) by lia.
    apply Z.mod_small. lia. }
  pose proof (lookup_lt_Some _ _ _ Hc) as Hlt. unfold charge_mem at 1.
  destruct (bool_decide (c_state c = CUNUSED)) eqn:Hst.
  - split; [done|]. unfold charge_mem. rewrite Hst. simpl. rewrite list_lookup_insert_eq by done.
    rewrite Hst. simpl. rewrite list_insert_insert_eq. by apply list_insert_id.
  - unfold charge_mem. rewrite Hu1, Hst. rewrite (proj2 (Z.ltb_ge (c_max_sz c) _)) by lia. simpl.
    rewrite i32_small, (proj2 (Z.ltb_ge (c_used_mem c + chg) 0)) by lia.
    split; [done|]. rewrite list_lookup_insert_eq by done. simpl. rewrite Hst, Hu2.
    rewrite (proj2 (Z.ltb_ge (c_max_sz c) _)) by lia. simpl.
    rewrite i32_small, (proj2 (Z.ltb_ge (c_used_mem c) 0)) by lia. simpl.
    rewrite list_insert_insert_eq, list_insert_id; [done|]. rewrite Hc. by destruct c.
Qed.

Lemma wp_updatecontmem_cur chg Q s :
  kernel_ok s ->
  (forall s', frame [Fout; Fconts] s s' ->
     k_conts s' = (charge_table chg (cont_of s) (k_conts s)).2 ->
     Q (charge_table chg (cont_of s) (k_conts s)).1 s') ->
  wp (updatecontmem chg (cont_of s)) Q s.
Proof.
  intros [] HQ. destruct (cont_of s) as [i|] eqn:Hi; simpl in *.
  - destruct (lookup_lt_is_Some_2 (k_conts s) i (kok_cont0 i eq_refl)) as [c Hc].
    rewrite Hc in HQ. apply (wp_updatecontmem i c); [done..| |].
    + by eapply (Forall_lookup_1 _ _ _ _ kok_names0).
    + destruct (charge_mem chg c). done.
  - kstep. by apply HQ.
Qed.

(** ** Stopping and freeing *)

(** What [stopprocforcontainer] does to one process. *)
Definition stop_proc (c : nat) (p : proc) : proc :=
  if bool_decide (p_cont p = Some c) then
    p <| p_killed := 1 |>
      <| p_state := if bool_decide (p_state p = SLEEPING \/ p_state p = SUSPENDED)
                    then RUNNABLE else p_state p |>
  else p.

(** A container slot after [freecontainer]; its id and [isroot] stay. *)
Definition freed (c : container) : container :=
  mkcontainer CUNUSED 0 (c_cid c) None 0 0 0 (replicate 16 0) 0 0 0 None (replicate 16 0)
    (c_isroot c) 0.

(** [char name[16]] and [char vc_name[16]]. *)
Definition cont_wf (c : container) : Prop := length (c_name c) = 16%nat /\ length (c_vc_name c) = 16%nat.

Lemma strncpy_empty s : length s = 16%nat -> strncpy s (lit "") 16 = Some (replicate 16 0).
Proof.
  intros Hs. change (lit "") with [0]. rewrite strncpy_spec; [|lia|lia|left; set_solver].
  rewrite drop_ge by lia. by rewrite app_nil_r.
Qed.

Lemma wp_stopprocforcontainer c Q s :
  length (k_procs s) = NPROC -> hart_ok (k_hart s) -> procs_unlocked s ->
  (forall s', frame [Fprocs] s s' -> k_procs s' = stop_proc c <$> k_procs s -> Q tt s') ->
  wp (stopprocforcontainer c) Q s.
Proof.
  intros Hlen Hh Hl HQ. apply (wp_proc_walk (stop_proc c)); [done..| |done].
  intros i p s0 Q' Hp HQ'. kstep. unfold stop_proc in HQ'.
  destruct (bool_decide (p_cont p = Some c)).
  - kstep. destruct (bool_decide (p_state p = SLEEPING \/ _)); kstep.
    + by rewrite insert_proc_twice.
    + by destruct p.
  - kstep. by rewrite insert_proc_id in HQ'.
Qed.

Lemma wp_freecontainer i c Q s :
  k_conts s !! i = Some c -> cont_wf c -> hart_ok (k_hart s) -> k_locks s !! LCont i = None ->
  (forall s', frame [Fconts] s s' -> k_conts s' = <[i := freed c]> (k_conts s) -> Q 1 s') ->
  wp (freecontainer i) Q s.
Proof.
  intros Hc [Hn Hv] Hh Hl HQ. unfold freecontainer. kstep. apply wp_acquire; [done..|]. kstep.
  rewrite (strncpy_empty (c_name c)), (strncpy_empty (c_vc_name c)) by done. kstep.
  apply (wp_release_acq _ _ s); [done..|]. intros [Hcpu Hlk]. kstep. apply HQ.
  - frame_solve; done.
  - unfold rel. kfields. rewrite !list_insert_insert_eq. by destruct c.
Qed.

(** The limit handler of a container that is not the root: its processes are
    killed and woken, its slot is freed. *)
Lemma wp_climitexceedhandler i c Q s :
  k_conts s !! i = Some c -> cont_wf c -> 0 ∈ c_name c -> c_isroot c = 0 -> c_state c <> CUNUSED ->
  hart_ok (k_hart s) -> console_ok s -> k_locks s !! LCont i = None ->
  length (k_procs s) = NPROC -> procs_unlocked s ->
  (forall s', frame [Fout; Fconts; Fprocs] s s' -> k_conts s' = <[i := freed c]> (k_conts s) ->
     k_procs s' = stop_proc i <$> k_procs s -> Q tt s') ->
  wp (climitexceedhandler (Some i)) Q s.
Proof.
  intros Hc Hwf Hn Hr Hst Hh Hcons Hl Hlen Hpl HQ. unfold climitexceedhandler. kstep.
  rewrite Hr. change (negb (0 =? 0)) with false. cbn iota. rewrite bool_decide_eq_false_2 by done.
  kstep. apply wp_printf_frame; [reflexivity|by repeat constructor|done..|]. intros s1 H1.
  frame_use H1 Fconts. frame_use H1 Fprocs. frame_use H1 Flocks.
  kstep. eapply wp_upd_cont; [by rewrite <- Hfr|]. kstep.
  pose proof (hart_ok_frame _ _ _ H1 eq_refl Hh) as Hh1.
  apply wp_stopprocforcontainer; [kfields; congruence|done| |].
  { intros j. kfields. rewrite <- Hfr1. apply Hpl. }
  intros s2 H2 Hp2. kstep. frame_use H2 Fconts. frame_use H2 Flocks. revert Hfr2 Hfr3 Hp2. kfields.
  intros Hc2 Hl2 Hp2. pose proof (hart_ok_frame _ _ _ H2 eq_refl Hh1) as Hh2.
  assert (i < length (k_conts s1))%nat by (rewrite <- Hfr; by eapply lookup_lt_Some).
  apply (wp_freecontainer _ (c <| c_state := CSTOPPED |>)); [|done|done|congruence|].
  { rewrite <- Hc2. by apply list_lookup_insert_eq. }
  intros s3 H3 Hc3. kstep. eapply wp_get_cont.
  { rewrite Hc3, <- Hc2. apply list_lookup_insert_eq. by rewrite length_insert. }
  assert (frame [Fout; Fconts; Fprocs] s s3) as Hs3.
  { etrans; [eapply (frame_more [Fout]); [done|exact H1]|].
    transitivity (s1 <| k_conts ::= <[i := c <| c_state := CSTOPPED |>]> |>); [frame_solve|].
    etrans; (eapply frame_more; [|eassumption]); reflexivity. }
  apply wp_printf_frame; [reflexivity| | | |].
  - repeat constructor.
  - by eapply hart_ok_frame.
  - frame_use Hs3 Fpanicked. frame_use Hs3 Flocks. destruct Hcons as [??].
    split; congruence.
  - intros s4 H4. apply HQ.
    + etrans; [exact Hs3|]. by eapply frame_more; [|done].
    + frame_use H4 Fconts. rewrite <- Hfr2, Hc3, <- Hc2, list_insert_insert_eq, Hfr. by destruct c.
    + frame_use H3 Fprocs. frame_use H4 Fprocs. congruence.
Qed.

(** ** Charges keep every container within its limits *)

Lemma wp_do_charge ch Q s :
  conts_ok s -> hart_ok (k_hart s) -> console_ok s ->
  (forall i, charge_cont ch = Some i -> (i < length (k_conts s))%nat) ->
  (forall s', frame [Fout; Fconts] s s' -> conts_ok s' -> length (k_conts s') = length (k_conts s) ->
     Q tt s') ->
  wp (do_charge ch) Q s.
Proof.
  intros Hok Hh Hcons Hi HQ.
  destruct (charge_cont ch) as [i|] eqn:Hch.
  - destruct (lookup_lt_is_Some_2 (k_conts s) i (Hi i eq_refl)) as [c Hc].
    pose proof (Forall_lookup_1 _ _ _ _ Hok Hc) as Hcok.
    assert (forall c' s', cont_ok c' -> frame [Fout; Fconts] s s' ->
              k_conts s' = <[i := c']> (k_conts s) -> Q tt s') as Hfin.
    { intros c' s' Hc' Hf Heq. apply HQ; [done| |by rewrite Heq, length_insert].
      unfold conts_ok. rewrite Heq. by apply Forall_insert. }
    destruct ch as [chg o|chg o|chg o]; simpl in Hch; subst o; unfold do_charge; kstep.
    + apply (wp_updatecontmem i c); [done..|by destruct Hcok|]. intros s' Hf Heq. kstep.
      eapply Hfin; [by apply charge_mem_ok|done..].
    + apply (wp_updatecontdsk i c); [done..|]. intros s' Hf Heq. kstep.
      eapply Hfin; [by apply charge_dsk_ok|done..].
    + apply (wp_updatecontproc i c); [done..|]. intros s' Hf Heq. kstep.
      eapply Hfin; [by apply charge_proc_ok|done..].
  - destruct ch; simpl in Hch; subst; unfold do_charge; kstep; by apply HQ.
Qed.

(** C14. Whatever sequence of charges the kernel makes to its containers, every one of them
    returns and every container in use stays within its limits: the process limit for all of
    them, the memory and disk limits for all but the root container. *)
Theorem charges_within_limits (chs : list charge) (s : kstate) :
  conts_ok s -> hart_ok (k_hart s) -> console_ok s ->
  Forall (fun ch => forall i, charge_cont ch = Some i -> (i < length (k_conts s))%nat) chs ->
  wp (kfor chs do_charge) (fun _ s' => conts_ok s' /\ frame [Fout; Fconts] s s') s.
Proof.
  intros Hok Hh Hcons Hchs.
  apply (wp_kfor (fun _ s' => conts_ok s' /\ frame [Fout; Fconts] s s' /\
                              length (k_conts s') = length (k_conts s))).
  - done.
  - intros pre ch post s1 -> (Hok1 & Hf & Hlen).
    apply Forall_app in Hchs as [_ [Hch _]%Forall_cons].
    apply wp_do_charge; [done|by eapply hart_ok_frame| | |].
    + frame_use Hf Fpanicked. frame_use Hf Flocks. destruct Hcons. split; congruence.
    + rewrite Hlen. done.
    + intros s2 Hf2 Hok2 Hlen2. split_and!; [done|by etrans|congruence].
  - intros s' (?&?&?). done.
Qed.

Lemma charges_within_limits_witness :
  let c := zero_container <| c_state := CRUNNABLE |> <| c_max_sz := 8192 |> <| c_used_mem := 4096 |> in
  let s := bss <| k_conts ::= <[1%nat := c]> |> in
  wp (kfor [ChMem 4096 (Some 1%nat); ChMem 4096 (Some 1%nat); ChDsk 1024 None] do_charge)
     (fun _ s' => conts_ok s' /\ frame [Fout; Fconts] s s') s.
Proof.
  cbv zeta. apply charges_within_limits.
  - apply Forall_insert; [apply Forall_replicate|];
      split; simpl; (lia || done || (vm_compute; by left)).
  - split; simpl; [lia|done].
  - by split.
  - repeat (apply Forall_cons; split); [..|apply Forall_nil; done]; simpl; intros i H;
      [injection H as <-; unfold NCONT; simpl; lia..|done].
Defined.


