(* ===== verification/Kalloc.v ===== *)
(** The page allocator, [kernel/kalloc.c].

    The free list is linked through the first word of each free page, as in
    the code: [kmem_inv] relates the memory image to the list of the free
    pages.  [kalloc] charges the page to the container of the current process
    and [kfree] gives it back. *)
From S2P Require Import Prelude Types Kstate Cstring Spinlock Frame Printf Accounting.
From stdpp Require Import base numbers list gmap strings.
From Stdlib Require Import ZArith Lia.

Local Open Scope Z_scope.
Local Open Scope xv6_scope.

Section kalloc.
Context `{Env}.

(** [r->next], with [struct run] at the start of its page. *)
Definition run_next (r : Z) : K Z := bs ← get_page r; mret (load 8 0 bs).
Definition set_run_next (r next : Z) : K unit :=
  bs ← get_page r; set_page r (store 8 0 next bs).

(** [memset(pa, c, PGSIZE)] *)
Definition memset_page (pa c : Z) : K unit :=
  bs ← get_page pa;
  bs' ← deref (memset bs c (Z.to_nat PGSIZE));
  set_page pa bs'.

Definition kfree (pa : Z) : K unit :=
  (if negb (pa mod PGSIZE =? 0) || (pa <? sym_end) || (PHYSTOP <=? pa) then panic "kfree" else mret tt);;
  memset_page pa 1;;
  acquire LKmem;;
  fl ← gets k_freelist;
  set_run_next pa fl;;
  modify (set k_freelist (fun _ => pa));;
  release LKmem;;
  o ← myproc;
  when (bool_decide (o <> None))
    (i ← curproc; p ← get_proc i;
     updatecontmem (u64 (- PGSIZE)) (p_cont p);; mret tt).

Definition freerange (pa_start pa_end : Z) : K unit :=
  kloop (S (Z.to_nat (pa_end / PGSIZE))) (fun p =>
    if p + PGSIZE <=? pa_end then kfree p;; mret (inl (p + PGSIZE)) else mret (inr tt))
    (PGROUNDUP pa_start).

Definition kinit : K unit :=
  initlock LKmem;;
  freerange sym_end PHYSTOP.

(** The test of [updatecontmem]'s result: over the limit, the container is stopped. *)
Definition kalloc_charged (c : option nat) (x : Z) : K bool :=
  if x <? 0 then
    printf "kalloc: Not enough memory in container \n" [];;
    climitexceedhandler c;;
    mret false
  else mret true.

(** The lock is released only when a page was found. *)
Definition kalloc : K Z :=
  acquire LKmem;;
  r ← gets k_freelist;
  when (negb (r =? 0)) (n ← run_next r; modify (set k_freelist (fun _ => n));; release LKmem);;
  o ← myproc;
  ok ← (if bool_decide (o <> None) then
          i ← curproc; p ← get_proc i;
          x ← updatecontmem PGSIZE (p_cont p);
          kalloc_charged (p_cont p) x
        else mret true);
  if ok : bool then
    when (negb (r =? 0)) (memset_page r 5);;
    mret r
  else mret 0.

Definition kunusedmem : K Z :=
  acquire LKmem;;
  r ← gets k_freelist;
  res ← (if negb (r =? 0) then run_next r;; mret 1 else mret 0);
  release LKmem;;
  mret res.

(** ** The free list *)

Definition valid_page (pa : Z) : Prop := pa mod PGSIZE = 0 /\ sym_end <= pa < PHYSTOP.

(** The pages linked from [head] are [l], the last one holding a null pointer. *)
Fixpoint freelist_rep (mem : gmap Z (list Z)) (head : Z) (l : list Z) : Prop :=
  match l with
  | [] => head = 0
  | p :: l => head = p /\ valid_page p /\
      exists bs, mem !! p = Some bs /\ length bs = Z.to_nat PGSIZE /\
                 freelist_rep mem (load 8 0 bs) l
  end.

Definition kmem_inv (s : kstate) (l : list Z) : Prop :=
  freelist_rep (k_mem s) (k_freelist s) l /\ NoDup l.


(** ** The allocator's operations on the list *)

Lemma freelist_rep_ne mem head l p bs :
  freelist_rep mem head l -> p ∉ l -> freelist_rep (<[p := bs]> mem) head l.
Proof.
  revert head. induction l as [|q l IH]; simpl; [done|].
  intros head (-> & Hv & bs' & Hq & Hlen & Hl) Hp. apply not_elem_of_cons in Hp as [? ?].
  split_and!; [done..|]. exists bs'. rewrite lookup_insert_ne by done. auto.
Qed.

Lemma freelist_rep_head mem head l : KERNBASE <= sym_end ->
  freelist_rep mem head l -> 0 <= head < 2 ^ 64.
Proof.
  intros He. destruct l as [|p l]; simpl; [intros ->; lia|].
  intros (-> & [_ ?] & _). consts. lia.
Qed.

Lemma wp_memset_page pa c bs Q s :
  k_mem s !! pa = Some bs -> length bs = Z.to_nat PGSIZE ->
  Q tt (s <| k_mem ::= <[pa := replicate (Z.to_nat PGSIZE) (u8 c)]> |>) ->
  wp (memset_page pa c) Q s.
Proof.
  intros Hm Hl HQ. unfold memset_page. kstep. rewrite memset_spec by lia.
  rewrite drop_ge, app_nil_r by lia. by kstep.
Qed.

(** What [kfree] and [kalloc] do for the container of the current process. *)
Lemma wp_account {B} chg (k : option nat -> Z -> K B) (k0 : K B) R Q s :
  kernel_ok s ->
  (forall o s', wp (if bool_decide (o <> None)
                    then i ← curproc; p ← get_proc i; x ← updatecontmem chg (p_cont p); k (p_cont p) x
                    else k0) Q s' -> R o s') ->
  (forall s' r, frame [Fout; Fconts] s s' ->
     (r, k_conts s') = charge_table chg (cont_of s) (k_conts s) -> wp (k (cont_of s) r) Q s') ->
  (cont_of s = None -> forall s', frame [] s s' -> wp k0 Q s') ->
  wp myproc R s.
Proof.
  intros Hok HR HQ HQ0. pose proof Hok as []. apply wp_myproc_frame; [done|]. intros s1 H1.
  apply HR. destruct (ht_proc (k_hart s)) as [i|] eqn:Hi.
  - rewrite bool_decide_eq_true_2 by done. kstep.
    apply (wp_curproc_frame i); [by eapply hart_ok_frame| |].
    { by destruct (frame_get Fhart _ _ _ H1 eq_refl) as (_&<-&_). }
    intros s2 H2. pose proof (transitivity H1 H2) as H12.
    pose proof (kernel_ok_same _ _ _ H12 eq_refl Hok) as Hok2.
    destruct (lookup_lt_is_Some_2 (k_procs s) i (kok_cur i eq_refl)) as [p Hp].
    assert (cont_of s2 = p_cont p /\ cont_of s = p_cont p) as [Hc2 Hc].
    { rewrite (cont_of_frame _ _ _ H12) by done. unfold cont_of. rewrite Hi. simpl. by rewrite Hp. }
    frame_use H12 Fprocs. frame_use H12 Fconts. kstep. eapply wp_get_proc; [by rewrite <- Hfr|].
    kstep. rewrite <- Hc2. apply wp_updatecontmem_cur; [done|].
    rewrite Hc2, <- Hc, <- Hfr0. intros s3 H3 Hc3. apply HQ.
    + etrans; [|exact H3]. by eapply frame_more; [|exact H12].
    + rewrite Hc3. by destruct (charge_table _ _ _).
  - rewrite bool_decide_eq_false_2 by auto. apply HQ0; [|done]. unfold cont_of. by rewrite Hi.
Qed.

Definition is_page (s : kstate) (pa : Z) : Prop :=
  exists bs, k_mem s !! pa = Some bs /\ length bs = Z.to_nat PGSIZE.

(** The page image [kfree] leaves: junk, with the link in the first word. *)
Definition free_page (next : Z) : list Z := store 8 0 next (replicate (Z.to_nat PGSIZE) 1).

Lemma wp_kfree pa Q s :
  valid_page pa -> is_page s pa -> kernel_ok s -> k_locks s !! LKmem = None ->
  (forall s', frame [Ffreelist; Fmem; Fout; Fconts] s s' -> k_freelist s' = pa ->
     k_mem s' = <[pa := free_page (k_freelist s)]> (k_mem s) ->
     k_conts s' = (charge_table (u64 (- PGSIZE)) (cont_of s) (k_conts s)).2 -> Q tt s') ->
  wp (kfree pa) Q s.
Proof.
  intros [Hm [Hlo Hhi]] (bs & Hbs & Hlen) Hok Hl HQ. unfold kfree.
  rewrite Hm. rewrite (proj2 (Z.ltb_ge pa sym_end)) by lia.
  rewrite (proj2 (Z.leb_gt PHYSTOP pa)) by lia. kbool. kstep.
  eapply wp_memset_page; [done..|]. kstep. apply wp_acquire; [apply Hok|done|]. kstep.
  unfold set_run_next. kstep.
  eapply (wp_release_frame [Ffreelist; Fmem] _ _ _ _ (kok_hart _ Hok) Hl); [frame_solve|done..|].
  match goal with |- _ -> wp _ _ ?st =>
    assert (k_freelist st = pa /\ k_mem st = <[pa := free_page (k_freelist s)]> (k_mem s)) as [Hfl Hmem];
    [split; [done|]; unfold rel, acq; kfields; by rewrite insert_insert_eq|];
    generalize dependent st end.
  intros s1 Hfl Hmem Hf.
  pose proof (kernel_ok_same _ _ _ Hf eq_refl Hok) as Hok1. frame_use Hf Fconts.
  kstep. apply (wp_account (u64 (- PGSIZE)) (fun _ _ => mret tt) (mret tt) _ Q); [done|by intros| |].
  - rewrite (cont_of_frame _ _ _ Hf), <- Hfr by done. intros s2 r H2 Hc2. kstep.
    frame_use H2 Ffreelist. frame_use H2 Fmem. apply HQ; try congruence.
    + etrans; (eapply frame_more; [|eassumption]); done.
    + by rewrite <- Hc2.
  - rewrite (cont_of_frame _ _ _ Hf) by done. intros Hn s2 H2. kstep.
    frame_use H2 Ffreelist. frame_use H2 Fmem. frame_use H2 Fconts.
    apply HQ; rewrite ?Hn; simpl; try congruence.
    etrans; (eapply frame_more; [|eassumption]); done.
Qed.

Lemma kmem_inv_free pa s s' l :
  KERNBASE <= sym_end -> kmem_inv s l -> valid_page pa -> pa ∉ l ->
  k_freelist s' = pa -> k_mem s' = <[pa := free_page (k_freelist s)]> (k_mem s) ->
  kmem_inv s' (pa :: l).
Proof.
  intros He [Hl Hnd] Hv Hp Hfl Hm. split; [|by constructor]. simpl.
  split_and!; [done..|]. eexists. rewrite Hm, lookup_insert_eq. split_and!; [done| |].
  - unfold free_page. by rewrite length_store, length_replicate by (rewrite length_replicate; consts; lia).
  - unfold free_page. rewrite load_store_same by (rewrite length_replicate; consts; lia).
    rewrite Z.mod_small; [by apply freelist_rep_ne|]. by eapply freelist_rep_head.
Qed.

(** Taking the first page off the list. *)
Lemma wp_kalloc_pop p l Q s :
  kmem_inv s (p :: l) -> KERNBASE <= sym_end -> kernel_ok s -> k_locks s !! LKmem = None ->
  (forall s' n bs, frame [Ffreelist] s s' -> k_freelist s' = n -> freelist_rep (k_mem s) n l ->
     k_mem s !! p = Some bs -> length bs = Z.to_nat PGSIZE -> p <> 0 -> Q tt s') ->
  wp (when (negb (p =? 0)) (n ← run_next p; modify (set k_freelist (fun _ => n));; release LKmem)) Q
     (acq LKmem s).
Proof.
  intros [(_ & [_ Hv] & bs & Hbs & Hlen & Hl) _] He Hok Hlk HQ.
  assert (p <> 0) as Hp0 by (consts; lia).
  rewrite (proj2 (Z.eqb_neq p 0)) by done. unfold run_next. kbool. kstep.
  eapply (wp_release_frame [Ffreelist] _ _ _ _ (kok_hart _ Hok) Hlk); [frame_solve|done..|].
  intros Hf. by eapply HQ.
Qed.

Lemma wp_kalloc p l Q s :
  kmem_inv s (p :: l) -> KERNBASE <= sym_end -> kernel_ok s -> k_locks s !! LKmem = None ->
  0 <= (charge_table PGSIZE (cont_of s) (k_conts s)).1 ->
  (forall s', frame [Ffreelist; Fmem; Fout; Fconts] s s' -> kmem_inv s' l -> p <> 0 ->
     k_mem s' = <[p := replicate (Z.to_nat PGSIZE) 5]> (k_mem s) ->
     k_conts s' = (charge_table PGSIZE (cont_of s) (k_conts s)).2 -> Q p s') ->
  wp kalloc Q s.
Proof.
  intros Hinv He Hok Hlk Hroom HQ. pose proof Hinv as [(Hhd & _) Hnd]. unfold kalloc.
  kstep. apply wp_acquire; [apply Hok|done|]. kstep.
  change (k_freelist (acq LKmem s)) with (k_freelist s). rewrite Hhd.
  eapply wp_kalloc_pop; [done..|]. intros s1 n bs Hf Hfl Hrep Hbs Hlen Hp0.
  pose proof (kernel_ok_same _ _ _ Hf eq_refl Hok) as Hok1.
  frame_use Hf Fconts. frame_use Hf Fmem. pose proof (cont_of_frame _ _ _ Hf eq_refl eq_refl) as Hco.
  apply NoDup_cons in Hnd as [Hnp Hnd]. kstep.
  assert (forall s2, frame [Fout; Fconts] s1 s2 ->
            k_conts s2 = (charge_table PGSIZE (cont_of s) (k_conts s)).2 ->
            wp (when (negb (p =? 0)) (memset_page p 5)) (fun _ s' => wp (mret p) Q s') s2) as Hend.
  { intros s2 H2 Hc2. frame_use H2 Fmem. frame_use H2 Ffreelist.
    rewrite (proj2 (Z.eqb_neq p 0)) by done. kbool. kstep.
    eapply wp_memset_page; [by rewrite <- Hfr1, <- Hfr0|done|]. kstep.
    apply HQ; [|split|done|kfields; by rewrite <- Hfr1, <- Hfr0|done].
    - etrans; [eapply frame_more; [|exact Hf]; done|].
      transitivity s2; [eapply frame_more; [|exact H2]; done|]. frame_solve.
    - kfields. rewrite <- Hfr2, <- Hfr1, <- Hfr0, Hfl. by apply freelist_rep_ne.
    - done. }
  eapply (wp_account PGSIZE kalloc_charged (mret true)); [done| | |].
  - intros o s2 H2. apply wp_bind. exact H2.
  - rewrite Hco, <- Hfr. intros s2 r H2 Hc2.
    assert (0 <= r) by (by rewrite <- Hc2 in Hroom).
    unfold kalloc_charged. rewrite (proj2 (Z.ltb_ge r 0)) by done. kstep. apply Hend; [done|]. by rewrite <- Hc2.
  - rewrite Hco. intros Hn s2 H2. kstep. apply Hend.
    + by eapply frame_more; [|exact H2].
    + frame_use H2 Fconts. rewrite Hn. simpl. congruence.
Qed.

(** Over the limit: the page is off the list and goes to no one. *)
Lemma wp_kalloc_over p l i c Q s :
  kmem_inv s (p :: l) -> KERNBASE <= sym_end -> kernel_ok s -> k_locks s !! LKmem = None ->
  cont_of s = Some i -> k_conts s !! i = Some c -> (charge_mem PGSIZE c).1 < 0 ->
  cont_wf c -> k_locks s !! LCont i = None -> length (k_procs s) = NPROC -> procs_unlocked s ->
  (forall s', frame [Ffreelist; Fout; Fconts; Fprocs] s s' -> kmem_inv s' l ->
     k_conts s' = <[i := freed c]> (k_conts s) -> k_procs s' = stop_proc i <$> k_procs s -> Q 0 s') ->
  wp kalloc Q s.
Proof.
  intros Hinv He Hok Hlk Hci Hc Hover Hwf Hlc Hlen Hpl HQ. pose proof Hinv as [(Hhd & _) Hnd].
  unfold kalloc. kstep. apply wp_acquire; [apply Hok|done|]. kstep.
  change (k_freelist (acq LKmem s)) with (k_freelist s). rewrite Hhd.
  eapply wp_kalloc_pop; [done..|]. intros s1 n bs Hf Hfl Hrep Hbs _ _. kstep.
  pose proof (kernel_ok_same _ _ _ Hf eq_refl Hok) as Hok1.
  eapply (wp_account PGSIZE kalloc_charged (mret true)); [done| | |].
  - intros o s2 H2. apply wp_bind. exact H2.
  - rewrite (cont_of_frame _ _ _ Hf) by done. frame_use Hf Fconts. rewrite <- Hfr, Hci. simpl.
    rewrite Hc. intros s2 r H2 Hc2.
    unfold charge_mem in *. case_bool_decide; [simpl in Hover; lia|].
    destruct ((c_max_sz c <? _) && _) eqn:Hex; [|simpl in Hover; lia].
    injection Hc2 as -> Hc2. rewrite list_insert_id in Hc2 by done.
    apply andb_true_iff in Hex as [_ Hr%Z.eqb_eq].
    unfold kalloc_charged. change (-1 <? 0) with true. cbv iota. kstep.
    assert (frame [Ffreelist; Fout; Fconts] s s2) as Hs2
      by (etrans; (eapply frame_more; [|eassumption]); done).
    apply wp_printf_frame; [done|done|by eapply hart_ok_frame, Hok1|
                            by eapply console_ok_frame, Hok1|]. intros s3 H3. kstep.
    assert (frame [Ffreelist; Fout; Fconts] s s3) as Hs3
      by (etrans; [|eapply frame_more; [|exact H3]]; done).
    frame_use H3 Fconts. frame_use Hs3 Fprocs. frame_use Hs3 Flocks. 
    apply (wp_climitexceedhandler i c); [congruence|done| |done|done|by eapply hart_ok_frame, Hok|
      by eapply console_ok_frame, Hok|congruence|congruence| |].
    + by apply (Forall_lookup_1 _ _ _ _ (kok_names _ Hok) Hc).
    + intros j. rewrite <- Hfr2. apply Hpl.
    + intros s4 H4 Hc4 Hp4. kstep. frame_use Hs3 Fmem. frame_use H4 Fmem. frame_use H4 Ffreelist.
      frame_use H3 Ffreelist. frame_use H2 Ffreelist. apply HQ; [| |congruence..].
      * etrans; [eapply frame_more; [|exact Hs3]; done|by eapply frame_more; [|exact H4]].
      * split; [|by inversion Hnd]. by rewrite <- Hfr4, <- Hfr3, <- Hfr5, <- Hfr6, <- Hfr7, Hfl.
  - rewrite (cont_of_frame _ _ _ Hf), Hci by done. done.
Qed.

(** With no free page left [kalloc] returns 0 and keeps the lock. *)
Lemma wp_kalloc_empty Q s :
  k_freelist s = 0 -> kernel_ok s -> k_locks s !! LKmem = None ->
  0 <= (charge_table PGSIZE (cont_of s) (k_conts s)).1 ->
  (forall s', frame [Fout; Fconts] (acq LKmem s) s' -> Q 0 s') ->
  wp kalloc Q s.
Proof.
  intros Hfl Hok Hlk Hroom HQ. unfold kalloc. kstep. apply wp_acquire; [apply Hok|done|].
  kstep. change (k_freelist (acq LKmem s)) with (k_freelist s). rewrite Hfl. kbool. kstep.
  assert (kernel_ok (acq LKmem s)) as Hok1.
  { destruct Hok as [? [??] ???]. split; [by apply hart_ok_hpush| |done..].
    split; [done|]. unfold acq. kfields. by rewrite lookup_insert_ne. }
  eapply (wp_account PGSIZE kalloc_charged (mret true)); [done| | |].
  - intros o s2 H2. apply wp_bind. exact H2.
  - intros s2 r H2 Hc2. unfold kalloc_charged.
    rewrite (proj2 (Z.ltb_ge r 0)); [kstep; by apply HQ|].
    change (charge_table PGSIZE (cont_of s) (k_conts s))
      with (charge_table PGSIZE (cont_of (acq LKmem s)) (k_conts (acq LKmem s))) in Hroom.
    by rewrite <- Hc2 in Hroom.
  - intros _ s2 H2. kstep. apply HQ. by eapply frame_more; [|exact H2].
Qed.

(** A hart that holds [lk] panics when it takes it again. *)
Lemma acquire_held lk s :
  hart_ok (k_hart s) -> k_locks s !! lk = Some (ht_id (k_hart s)) ->
  stops (acquire lk) (Panic "acquire") s.
Proof.
  intros Hh Hl. eexists. unfold acquire, mbind, K_bind. rewrite push_off_eq.
  rewrite holding_eq by (by apply hart_ok_hpush).
  rewrite bool_decide_eq_true_2 by done. reflexivity.
Qed.

(** ** Initialisation *)

Definition boot_inv (p : Z) (s : kstate) : Prop :=
  (exists l, kmem_inv s l /\ forall q, q ∈ l <-> valid_page q /\ q < p) /\
  p mod PGSIZE = 0 /\ sym_end <= p /\
  (forall q, valid_page q -> is_page s q) /\
  kernel_ok s /\ cont_of s = None /\ k_locks s !! LKmem = None.

Lemma wp_freerange_step p s :
  KERNBASE <= sym_end -> boot_inv p s -> p < PHYSTOP ->
  wp (kfree p) (fun _ s' => boot_inv (p + PGSIZE) s') s.
Proof.
  intros He ((l & Hl & Hq) & Hm & Hlo & Hpg & Hok & Hco & Hlk) Hhi.
  assert (valid_page p) as Hv by done.
  apply wp_kfree; [done|by apply Hpg|done..|]. intros s' Hf Hfl Hmem Hc.
  rewrite Hco in Hc. simpl in Hc. split_and!.
  - exists (p :: l). split; [eapply kmem_inv_free; try done; rewrite Hq; intros [_ ?]; lia|].
    intros q. rewrite elem_of_cons, Hq. split.
    + intros [->|[? ?]]; (split; [done|unfold PGSIZE; lia]).
    + intros [Hv' Hlt]. destruct (decide (q = p)) as [->|Hne]; [by left|right; split; [done|]].
      destruct (Z.lt_trichotomy q p) as [?|[?|?]]; [done..|].
      pose proof (page_step p q Hm (proj1 Hv') ltac:(done)). lia.
  - rewrite Zplus_mod, Hm. done.
  - consts. lia.
  - intros q Hvq. unfold is_page. rewrite Hmem. destruct (decide (q = p)) as [->|Hne].
    + rewrite lookup_insert_eq. eexists. split; [done|]. unfold free_page.
      by rewrite length_store, length_replicate by (rewrite length_replicate; consts; lia).
    + rewrite lookup_insert_ne by done. by apply Hpg.
  - eapply kernel_ok_frame; [exact Hf|done|by rewrite Hc|done].
  - by rewrite (cont_of_frame _ _ _ Hf).
  - frame_use Hf Flocks. congruence.
Qed.

Lemma wp_kinit Q s :
  KERNBASE <= sym_end <= PHYSTOP -> kernel_ok s -> cont_of s = None -> k_freelist s = 0 ->
  (forall q, valid_page q -> is_page s q) ->
  (forall s' l, kmem_inv s' l -> (forall q, q ∈ l <-> valid_page q) ->
     kernel_ok s' -> k_locks s' !! LKmem = None -> Q tt s') ->
  wp kinit Q s.
Proof.
  intros He Hok Hco Hfl Hpg HQ. unfold kinit, initlock. kstep. unfold freerange.
  assert (sym_end <= PGROUNDUP sym_end < sym_end + PGSIZE) as Hb
    by (apply PGROUNDUP_bounds; consts; lia).
  apply (wp_kloop boot_inv (fun p => Z.to_nat (PHYSTOP / PGSIZE - p / PGSIZE))).
  - split_and!; [|apply PGROUNDUP_mod|lia|done| |done|kfields; by rewrite lookup_delete_eq].
    + exists []. split; [by split; [|constructor]|]. intros q. split; [by intros ?%elem_of_nil|].
      intros [[Hm ?] ?]. pose proof (page_step q _ Hm (PGROUNDUP_mod sym_end) ltac:(done)).
      consts. lia.
    + destruct Hok as [? [??] ???]. split; try done. split; [done|]. kfields.
      by rewrite lookup_delete_ne.
  - pose proof (Z.div_pos (PGROUNDUP sym_end) PGSIZE). consts. lia.
  - intros p s' Hinv. destruct (Z.leb_spec (p + PGSIZE) PHYSTOP) as [Hle|Hgt]; kstep.
    + eapply wp_mono; [apply wp_freerange_step; [lia|done|consts; lia]|].
      intros [] s2 H2. kstep. split; [done|]. destruct Hinv as (_&Hm&Hlo&_).
      consts. Z.to_euclidean_division_equations; lia.
    + destruct Hinv as ((l & Hl & Hq) & Hm & Hlo & _ & Hok' & _ & Hlk').
      eapply HQ; [done| |done..]. intros q. rewrite Hq. split; [by intros []|].
      intros Hv. split; [done|]. destruct Hv as [Hm' ?].
      assert (PHYSTOP mod PGSIZE = 0) by done.
      destruct (Z.lt_trichotomy p PHYSTOP) as [?|[?|?]]; [|lia..].
      pose proof (page_step p PHYSTOP Hm ltac:(done) ltac:(done)). lia.
Qed.

(** The memory image of a free list. *)
Fixpoint chain (l : list Z) : gmap Z (list Z) :=
  match l with
  | [] => ∅
  | p :: l => <[p := free_page (default 0 (head l))]> (chain l)
  end.

Lemma chain_rep l : KERNBASE <= sym_end -> NoDup l -> Forall valid_page l ->
  freelist_rep (chain l) (default 0 (head l)) l.
Proof.
  intros He. induction l as [|p l IH]; intros Hnd Hv; [done|].
  apply NoDup_cons in Hnd as [Hp Hnd]. apply Forall_cons in Hv as [Hvp Hv]. specialize (IH Hnd Hv).
  simpl. split_and!; [done..|]. eexists. rewrite lookup_insert_eq. split_and!; [done|..]; unfold free_page.
  - by rewrite length_store, length_replicate by (rewrite length_replicate; consts; lia).
  - rewrite load_store_same by (rewrite length_replicate; consts; lia).
    rewrite Z.mod_small by (by eapply freelist_rep_head). by apply freelist_rep_ne.
Qed.

(** ** Allocating several pages *)

(** The current container has room for [n] more pages. *)
Definition mem_room (s : kstate) (n : nat) : Prop :=
  match cont_of s with
  | None => True
  | Some i => forall c, k_conts s !! i = Some c ->
      c_state c = CUNUSED \/ c_isroot c <> 0 \/
      (0 <= c_used_mem c /\ c_used_mem c + PGSIZE * Z.of_nat n <= c_max_sz c < 2 ^ 31)
  end.

(** The allocator is ready, [l] are its free pages, and [n] of them may be taken. *)
Record alloc_ok (s : kstate) (l : list Z) (n : nat) : Prop := {
  ao_kernel : kernel_ok s;
  ao_lock : k_locks s !! LKmem = None;
  ao_free : kmem_inv s l;
  ao_room : mem_room s n
}.

Lemma charge_mem_room c n : 
  c_state c = CUNUSED \/ c_isroot c <> 0 \/
    (0 <= c_used_mem c /\ c_used_mem c + PGSIZE * Z.of_nat (S n) <= c_max_sz c < 2 ^ 31) ->
  0 <= (charge_mem PGSIZE c).1 /\
  let c' := (charge_mem PGSIZE c).2 in
  c_state c' = CUNUSED \/ c_isroot c' <> 0 \/
    (0 <= c_used_mem c' /\ c_used_mem c' + PGSIZE * Z.of_nat n <= c_max_sz c' < 2 ^ 31).
Proof.
  intros Hc. unfold charge_mem. case_bool_decide as Hst; [simpl; split; [lia|by left]|].
  destruct Hc as [?|[Hr|[Hlo Hhi]]]; [done| |].
  - rewrite (proj2 (Z.eqb_neq _ 0)) by done. rewrite andb_false_r. simpl. split; [lia|auto].
  - rewrite u64_small by (consts; lia). rewrite (proj2 (Z.ltb_ge (c_max_sz c) _)) by (consts; lia).
    simpl. rewrite i32_small by (consts; lia). rewrite (proj2 (Z.ltb_ge _ 0)) by (consts; lia).
    split; [lia|]. right; right. consts. lia.
Qed.

(** What the memory functions change: free list, memory, output and, of the containers, the memory
    they are charged for.  [standing] is what is left of a container when the two counters the
    allocators advance are taken out. *)
Definition vm_frame : list field := [Ffreelist; Fmem; Fout; Fconts].
Definition standing (c : container) : container := c <| c_used_mem := 0 |> <| c_nextlocalpid := 0 |>.
Definition vframe (s s' : kstate) : Prop :=
  frame vm_frame s s' /\ standing <$> k_conts s' = standing <$> k_conts s.

#[export] Instance vframe_refl : Reflexive vframe.
Proof. by split. Qed.
#[export] Instance vframe_trans : Transitive vframe.
Proof. intros s1 s2 s3 [F1 C1] [F2 C2]. split; [by etrans|congruence]. Qed.

Lemma vframe_ext ex s s1 s2 :
  vframe s s1 -> frame ex s1 s2 -> forallb (fun f => bool_decide (f ∈ vm_frame)) ex = true ->
  bool_decide (Fconts ∈ ex) = false -> vframe s s2.
Proof.
  intros V F Hex Hc. etrans; [exact V|]. split; [by eapply frame_more|].
  by rewrite (frame_get Fconts _ _ _ F Hc : k_conts s1 = k_conts s2).
Qed.

Lemma charge_table_standing chg oc l : standing <$> (charge_table chg oc l).2 = standing <$> l.
Proof.
  unfold charge_table. destruct oc as [i|]; [|done]. destruct (l !! i) as [c|] eqn:Hc; [|done].
  assert (standing (charge_mem chg c).2 = standing c) as E by (unfold charge_mem; repeat case_match; by simplify_eq/=).
  destruct (charge_mem chg c) as [r c']. simpl in *. rewrite list_fmap_insert, E.
  apply list_insert_id. by rewrite list_lookup_fmap, Hc.
Qed.

Lemma wp_kalloc_room p l n Q s :
  KERNBASE <= sym_end -> alloc_ok s (p :: l) (S n) ->
  (forall s', vframe s s' -> alloc_ok s' l n -> p <> 0 ->
     valid_page p -> k_mem s' = <[p := replicate (Z.to_nat PGSIZE) 5]> (k_mem s) -> Q p s') ->
  wp kalloc Q s.
Proof.
  intros He [Hok Hlk Hinv Hroom] HQ. pose proof Hinv as [(_ & Hv & _) [Hnp _]%NoDup_cons].
  assert (0 <= (charge_table PGSIZE (cont_of s) (k_conts s)).1 /\
          forall s', cont_of s' = cont_of s ->
            k_conts s' = (charge_table PGSIZE (cont_of s) (k_conts s)).2 -> mem_room s' n) as [Hr Hroom'].
  { unfold mem_room in *. destruct (cont_of s) as [i|] eqn:Hi; simpl.
    - destruct (k_conts s !! i) as [c|] eqn:Hc.
      + destruct (charge_mem_room c n (Hroom c eq_refl)) as [Hr Hc'].
        destruct (charge_mem PGSIZE c) as [r c'] eqn:Hcm. simpl in *. split; [done|].
        intros s' Hi' Hcs. rewrite Hi', Hcs. intros c0.
        rewrite list_lookup_insert_eq by (by eapply lookup_lt_Some). intros [= <-]. done.
      + split; [done|]. intros s' -> -> c0. simpl. by rewrite ?Hc.
    - split; [done|]. intros s' -> _. done. }
  eapply wp_kalloc; [done..|]. intros s' Hf Hinv' Hp0 Hm Hc.
  apply HQ; [split; [done|rewrite Hc; apply charge_table_standing]| |done..|done].
  split.
  - eapply kernel_ok_frame; [exact Hf|done| |done]. rewrite Hc. apply charge_table_names.
  - frame_use Hf Flocks. congruence.
  - done.
  - apply Hroom'; [by apply (cont_of_frame _ _ _ Hf)|done].
Qed.

Lemma mem_room_le s n m : (m <= n)%nat -> mem_room s n -> mem_room s m.
Proof.
  unfold mem_room. destruct (cont_of s); [|done]. intros Hm Hr c Hc.
  destruct (Hr c Hc) as [?|[?|?]]; [by auto..|]. right; right. consts. lia.
Qed.

Lemma freelist_rep_agree mem mem' head l :
  (forall q, q ∈ l -> mem' !! q = mem !! q) -> freelist_rep mem head l -> freelist_rep mem' head l.
Proof.
  revert head. induction l as [|q l IH]; simpl; [done|].
  intros head Ha (-> & Hv & bs & Hq & Hlen & Hl). split_and!; [done..|]. exists bs.
  rewrite Ha by (by left). split_and!; [done..|]. apply IH; [|done]. intros r Hr. apply Ha. by right.
Qed.

(** The allocator does not depend on the pages that are not free. *)
Lemma alloc_ok_agree ex s s' l n m :
  alloc_ok s l n -> (m <= n)%nat -> frame ex s s' ->
  forallb (fun f => negb (bool_decide (f ∈ ex)))
    [Fhart; Flocks; Fpanicked; Fprocs; Fconts; Ffreelist] = true ->
  (forall q, q ∈ l -> k_mem s' !! q = k_mem s !! q) -> alloc_ok s' l m.
Proof.
  intros [Hok Hlk [Hfr Hnd] Hroom] Hm Hf Hex Ha. simpl in Hex.
  rewrite !andb_true_iff, !negb_true_iff in Hex. destruct Hex as (H1&H2&H3&H4&H5&H6&_).
  pose proof (frame_get Flocks _ _ _ Hf H2) as E2. pose proof (frame_get Fconts _ _ _ Hf H5) as E5.
  pose proof (frame_get Ffreelist _ _ _ Hf H6) as E6. simpl in *. split.
  - eapply kernel_ok_frame; [done| |by rewrite <- E5|done].
    simpl. rewrite !andb_true_iff, !negb_true_iff. done.
  - congruence.
  - split; [|done]. rewrite <- E6. by eapply freelist_rep_agree.
  - eapply mem_room_le; [done|]. unfold mem_room in *.
    rewrite (cont_of_frame _ _ _ Hf), <- E5 by done. done.
Qed.

Lemma alloc_ok_le s l n m : alloc_ok s l n -> (m <= n)%nat -> alloc_ok s l m.
Proof. intros Hal Hm. by apply (alloc_ok_agree [] s s l n m). Qed.

(** The fields of a container that page allocation looks at. *)
Definition same_mem (c c' : container) : Prop :=
  c_state c' = c_state c /\ c_isroot c' = c_isroot c /\ c_used_mem c' = c_used_mem c /\
  c_max_sz c' = c_max_sz c /\ c_name c' = c_name c.

(** What else may change under the allocator's feet. *)
Lemma alloc_ok_change s s' l n :
  alloc_ok s l n -> hart_ok (k_hart s') -> console_ok s' -> k_locks s' !! LKmem = None ->
  k_freelist s' = k_freelist s -> (forall q, q ∈ l -> k_mem s' !! q = k_mem s !! q) ->
  ht_proc (k_hart s') = ht_proc (k_hart s) ->
  (forall i, ht_proc (k_hart s) = Some i -> k_procs s' !! i = k_procs s !! i) ->
  Forall2 same_mem (k_conts s) (k_conts s') -> alloc_ok s' l n.
Proof.
  intros [[] Hlk [Hfr Hnd] Hroom] Hh Hc Hl Hfl Hm Hp Hps Hcs.
  assert (cont_of s' = cont_of s) as Hco.
  { unfold cont_of. rewrite Hp. destruct (ht_proc (k_hart s)) as [i|] eqn:E; [|done]. simpl.
    by rewrite Hps. }
  split; [split|done|split; [|done]|].
  - done.
  - done.
  - apply Forall_lookup. intros i c' Hc'. destruct (Forall2_lookup_r _ _ _ _ _ Hcs Hc') as (c & Hc0 & ?&?&?&?&Hn).
    rewrite Hn. by apply (Forall_lookup_1 _ _ _ _ kok_names Hc0).
  - rewrite Hp. intros i Hi. apply lookup_lt_is_Some. rewrite Hps by done.
    by apply lookup_lt_is_Some, kok_cur.
  - rewrite Hco, <- (Forall2_length _ _ _ Hcs). done.
  - rewrite Hfl. by eapply freelist_rep_agree.
  - unfold mem_room in *. rewrite Hco. destruct (cont_of s) as [i|]; [|done]. intros c' Hc'.
    destruct (Forall2_lookup_r _ _ _ _ _ Hcs Hc') as (c & Hc0 & Hst & Hr & Hu & Hmx & _).
    rewrite Hst, Hr, Hu, Hmx. by apply Hroom.
Qed.

Lemma same_mem_refl l : Forall2 same_mem l l.
Proof. apply Forall2_same_length_lookup. split; [done|]. intros i c c' ??. simplify_eq. by repeat split. Qed.

(** ** The allocator's guarantees *)

(** C35. [kinit] terminates and puts every page from [end] up to [PHYSTOP] on the free list exactly
    once, and nothing else, leaving the allocator's lock free. *)
Theorem kinit_free_list (s : kstate) :
  KERNBASE <= sym_end <= PHYSTOP -> kernel_ok s -> cont_of s = None -> k_freelist s = 0 ->
  (forall q, valid_page q -> is_page s q) ->
  wp kinit (fun _ s' => exists l, kmem_inv s' l /\ NoDup l /\ (forall q, q ∈ l <-> valid_page q) /\
                                  k_locks s' !! LKmem = None) s.
Proof.
  intros. apply wp_kinit; [done..|]. intros s' l Hl Hq _ Hlk. exists l.
  split_and!; [done|apply Hl|done|done].
Qed.

(** C31. [kalloc] hands out the first free page: the page it returns leaves the free list (it is in
    the list no more, so it cannot be handed out twice), every byte of it is junk, no other page of
    memory changes, the lock is free again and the container of the current process is charged one
    page. *)
Theorem kalloc_fresh (p : Z) (l : list Z) (s : kstate) :
  kmem_inv s (p :: l) -> KERNBASE <= sym_end -> kernel_ok s -> k_locks s !! LKmem = None ->
  0 <= (charge_table PGSIZE (cont_of s) (k_conts s)).1 ->
  wp kalloc (fun r s' =>
    r = p /\ valid_page r /\ kmem_inv s' l /\ (r ∉ l) /\
    k_mem s' !! r = Some (replicate (Z.to_nat PGSIZE) 5) /\
    (forall q, q <> r -> k_mem s' !! q = k_mem s !! q) /\
    k_conts s' = (charge_table PGSIZE (cont_of s) (k_conts s)).2 /\
    frame [Ffreelist; Fmem; Fout; Fconts] s s') s.
Proof.
  intros Hinv ????. pose proof Hinv as [(_ & Hv & _) [? _]%NoDup_cons].
  eapply wp_kalloc; [done..|]. intros s' Hf Hinv' _ Hm Hc.
  split_and!; try done; rewrite Hm; [by rewrite lookup_insert_eq|].
  intros. by rewrite lookup_insert_ne.
Qed.

(** A page that [kalloc] returned and [kfree] gets back is the first page of the free list again:
    the list is the one before the call, the other pages of memory are as they were, and a
    container with room for the page has its old memory count. *)
Theorem kalloc_kfree (p : Z) (l : list Z) (s : kstate) :
  kmem_inv s (p :: l) -> KERNBASE <= sym_end -> kernel_ok s -> k_locks s !! LKmem = None ->
  (forall i c, cont_of s = Some i -> k_conts s !! i = Some c ->
     0 <= c_used_mem c < 2 ^ 31 - PGSIZE /\ c_used_mem c + PGSIZE <= c_max_sz c) ->
  wp (r ← kalloc; kfree r) (fun _ s' =>
    kmem_inv s' (p :: l) /\ k_conts s' = k_conts s /\
    (forall q, q <> p -> k_mem s' !! q = k_mem s !! q) /\
    frame [Ffreelist; Fmem; Fout; Fconts] s s') s.
Proof.
  intros Hinv He Hok Hlk Hroom. pose proof Hinv as [(_ & Hv & _) [Hnp _]%NoDup_cons].
  destruct (charge_table_room PGSIZE (cont_of s) (k_conts s)) as [Hr Hback]; [done|..].
  { intros i c Hi Hc. destruct (Hroom i c Hi Hc). lia. }
  kstep. eapply wp_kalloc; [done..|]. intros s1 Hf1 Hinv1 _ Hm1 Hc1.
  apply wp_kfree; [done| | | |].
  - unfold is_page. rewrite Hm1, lookup_insert_eq. eexists. split; [done|].
    by rewrite length_replicate.
  - eapply kernel_ok_frame; [exact Hf1|done| |done]. rewrite Hc1. apply charge_table_names.
  - frame_use Hf1 Flocks. congruence.
  - intros s2 Hf2 Hfl2 Hm2 Hc2. split_and!.
    + by eapply kmem_inv_free.
    + rewrite Hc2, Hc1, (cont_of_frame _ _ _ Hf1) by done. exact Hback.
    + intros q Hq. rewrite Hm2, lookup_insert_ne, Hm1, lookup_insert_ne by done. done.
    + by etrans.
Qed.


(** When no page is free, [kalloc] returns 0 without releasing the allocator's lock, and the next
    [kalloc] on the same hart panics. *)
Theorem kalloc_empty_keeps_lock (s : kstate) :
  kmem_inv s [] -> kernel_ok s -> k_locks s !! LKmem = None ->
  0 <= (charge_table PGSIZE (cont_of s) (k_conts s)).1 ->
  wp kalloc (fun r s' =>
    r = 0 /\ k_locks s' !! LKmem = Some (ht_id (k_hart s')) /\
    stops kalloc (Panic "acquire") s') s.
Proof.
  intros [Hfl _] Hok Hlk Hroom. apply wp_kalloc_empty; [done..|]. intros s' Hf.
  destruct (frame_get Fhart _ _ _ Hf eq_refl) as (Hid&_). frame_use Hf Flocks.
  assert (k_locks s' !! LKmem = Some (ht_id (k_hart s'))) as Hheld.
  { rewrite <- Hfr, <- Hid. unfold acq. kfields. by rewrite lookup_insert_eq. }
  split_and!; [done|done|].
  apply stops_bind, acquire_held; [|done].
  eapply hart_ok_frame; [exact Hf|done|]. apply hart_ok_hpush, Hok.
Qed.
End kalloc.

(** ** Examples: two free pages, process 0 of container 1 running *)

Definition page_a : Z := PHYSTOP - PGSIZE.
Definition page_b : Z := PHYSTOP - 2 * PGSIZE.

Definition two_pages (max_sz used : Z) : kstate :=
  bss <| k_freelist := page_a |> <| k_mem := chain [page_a; page_b] |>
      <| k_hart ::= set ht_proc (fun _ => Some 0%nat) |>
      <| k_procs ::= <[0%nat := zero_proc <| p_state := RUNNING |> <| p_cont := Some 1%nat |>]> |>
      <| k_conts ::= <[1%nat := zero_container <| c_state := CRUNNABLE |> <| c_max_sz := max_sz |>
                                               <| c_used_mem := used |>]> |>.

(** Decides [valid_page] and [NoDup] of closed lists of pages. *)
Ltac pages :=
  repeat match goal with
         | |- Forall _ (_ :: _) => apply Forall_cons; split; [by vm_compute|]
         | |- Forall _ [] => apply Forall_nil; done
         | |- NoDup _ => apply (bool_decide_unpack _); vm_compute; exact I
         end.

Lemma two_pages_inv max_sz used : kmem_inv (H := small_machine) (two_pages max_sz used) [page_a; page_b].
Proof. split; [apply (chain_rep (H := small_machine)); [done|..]|]; pages. Qed.

Lemma two_pages_ok max_sz used : kernel_ok (two_pages max_sz used).
Proof.
  split; [split; simpl; lia|done| | |].
  - apply Forall_insert; [apply Forall_replicate|]; vm_compute; by left.
  - intros i [= <-]. vm_compute. lia.
  - intros i [= <-]. vm_compute. lia.
Qed.

Lemma kalloc_fresh_witness :
  wp kalloc (fun r s' =>
    r = page_a /\ valid_page (H := small_machine) r /\ kmem_inv (H := small_machine) s' [page_b] /\ (r ∉ [page_b]) /\
    k_mem s' !! r = Some (replicate (Z.to_nat PGSIZE) 5) /\
    (forall q, q <> r -> k_mem s' !! q = k_mem (two_pages 8192 0) !! q) /\
    k_conts s' = (charge_table PGSIZE (cont_of (two_pages 8192 0)) (k_conts (two_pages 8192 0))).2 /\
    frame [Ffreelist; Fmem; Fout; Fconts] (two_pages 8192 0) s') (two_pages 8192 0).
Proof. apply kalloc_fresh; [apply two_pages_inv|done|apply two_pages_ok|done|by vm_compute]. Defined.

Lemma kalloc_kfree_witness :
  wp (r ← kalloc; kfree (H := small_machine) r) (fun _ s' =>
    kmem_inv (H := small_machine) s' [page_a; page_b] /\ k_conts s' = k_conts (two_pages 8192 0) /\
    (forall q, q <> page_a -> k_mem s' !! q = k_mem (two_pages 8192 0) !! q) /\
    frame [Ffreelist; Fmem; Fout; Fconts] (two_pages 8192 0) s') (two_pages 8192 0).
Proof.
  apply kalloc_kfree; [apply two_pages_inv|done|apply two_pages_ok|done|].
  intros i c [= <-] [= <-]. simpl. consts. lia.
Defined.


Lemma kalloc_empty_keeps_lock_witness :
  wp kalloc (fun r s' =>
    r = 0 /\ k_locks s' !! LKmem = Some (ht_id (k_hart s')) /\
    stops kalloc (Panic "acquire") s') bss.
Proof.
  apply (kalloc_empty_keeps_lock (H := small_machine)); [split; [done|constructor]| |done|by vm_compute].
  split; [split; simpl; lia|done|apply Forall_replicate; vm_compute; by left|done|done].
Defined.

Lemma kinit_free_list_witness :
  let blank := replicate (Z.to_nat PGSIZE) 0 in
  let s := bss <| k_mem := <[page_a := blank]> (<[page_b := blank]> (<[page_b - 4096 := blank]>
                            (<[page_b - 8192 := blank]> ∅))) |> in
  wp (kinit (H := machine 4)) (fun _ s' => exists l, kmem_inv (H := machine 4) s' l /\ NoDup l /\
      (forall q, q ∈ l <-> valid_page (H := machine 4) q) /\ k_locks s' !! LKmem = None) s.
Proof.
  cbv zeta. apply (kinit_free_list (H := machine 4)); [by vm_compute| |done|done|].
  - split; [split; simpl; lia|done|apply Forall_replicate; vm_compute; by left|done|done].
  - intros q [Hm [Hlo Hhi]]. unfold is_page. kfields.
    assert (q = page_a \/ q = page_b \/ q = page_b - 4096 \/ q = page_b - 8192) as Hq.
    { unfold page_a, page_b. simpl in Hlo. consts. Z.to_euclidean_division_equations; lia. }
    destruct Hq as [-> | [-> | [-> | ->]]]; eexists; (split; [reflexivity|]); by rewrite length_replicate.
Defined.
