(* ===== verification/Vm.v ===== *)
(** Virtual memory, [kernel/vm.c].

    A page table is the tree of pages the code builds in physical memory: a
    [pte_t *] is a physical address, and entries are read and written as
    64-bit little-endian words of the page they lie in.  A loop over the pages
    of a range gets as much fuel as the range has pages. *)
From S2P Require Import Prelude Types Kstate Cstring Spinlock Frame Printf Accounting Kalloc.
From stdpp Require Import base numbers list gmap strings.
From Stdlib Require Import ZArith Lia.

Local Open Scope Z_scope.
Local Open Scope xv6_scope.

Section vm.
Context `{Env}.

(** ** Physical memory *)

(** [n] bytes from physical address [a], all in one page. *)
Definition read_phys (a : Z) (n : nat) : K (list Z) :=
  bs ← get_page (PGROUNDDOWN a);
  if bool_decide (Z.to_nat (a mod PGSIZE) + n <= length bs)%nat
  then mret (slice (Z.to_nat (a mod PGSIZE)) n bs) else fault.

Definition write_phys (a : Z) (new : list Z) : K unit :=
  bs ← get_page (PGROUNDDOWN a);
  if bool_decide (Z.to_nat (a mod PGSIZE) + length new <= length bs)%nat
  then set_page (PGROUNDDOWN a) (splice (Z.to_nat (a mod PGSIZE)) new bs) else fault.

Definition read64 (a : Z) : K Z := bs ← read_phys a 8; mret (le_value bs).
Definition write64 (a v : Z) : K unit := write_phys a (le_bytes 8 v).

(** ** Walking a page table *)

(** The loop of [walk], from [level] down to 1. *)
Fixpoint walk_from (level : nat) (pagetable va : Z) (alloc : bool) : K Z :=
  match level with
  | O => mret (pagetable + 8 * PX 0 va)
  | S level' =>
    let pte := pagetable + 8 * PX (Z.of_nat level) va in
    e ← read64 pte;
    if negb (Z.land e PTE_V =? 0) then walk_from level' (PTE2PA e) va alloc
    else if negb alloc then mret 0
    else
      pagetable ← kalloc;
      if pagetable =? 0 then mret 0
      else
        memset_page pagetable 0;;
        write64 pte (Z.lor (PA2PTE pagetable) PTE_V);;
        walk_from level' pagetable va alloc
  end.

Definition walk (pagetable va : Z) (alloc : bool) : K Z :=
  (if MAXVA <=? va then panic "walk" else mret tt);;
  walk_from 2 pagetable va alloc.

Definition walkaddr (pagetable va : Z) : K Z :=
  if MAXVA <=? va then mret 0 else
  pte ← walk pagetable va false;
  if pte =? 0 then mret 0 else
  e ← read64 pte;
  if Z.land e PTE_V =? 0 then mret 0 else
  if Z.land e PTE_U =? 0 then mret 0 else
  mret (PTE2PA e).

(** The number of turns of a [for(;;)] that steps [a] by a page until it is [last]. *)
Definition page_turns (a last : Z) : nat := S (Z.to_nat (u64 (last - a) / PGSIZE)).

Definition mappages (pagetable va size pa perm : Z) : K Z :=
  let last := PGROUNDDOWN (u64 (va + size - 1)) in
  kloop (page_turns (PGROUNDDOWN va) last) (fun '(a, pa) =>
    pte ← walk pagetable a true;
    if pte =? 0 then mret (inr (-1)) else
    e ← read64 pte;
    (if negb (Z.land e PTE_V =? 0) then panic "remap" else mret tt);;
    write64 pte (Z.lor (Z.lor (PA2PTE pa) perm) PTE_V);;
    if a =? last then mret (inr 0)
    else mret (inl (u64 (a + PGSIZE), u64 (pa + PGSIZE))))
  (PGROUNDDOWN va, pa).

Definition uvmunmap (pagetable va size : Z) (do_free : bool) : K unit :=
  let last := PGROUNDDOWN (u64 (va + size - 1)) in
  kloop (page_turns (PGROUNDDOWN va) last) (fun a =>
    pte ← walk pagetable a false;
    (if pte =? 0 then panic "uvmunmap: walk" else mret tt);;
    e ← read64 pte;
    (if Z.land e PTE_V =? 0 then
       printf "va=%p pte=%p\n" [AInt a; AInt e];;
       panic "uvmunmap: not mapped"
     else mret tt);;
    (if PTE_FLAGS e =? PTE_V then panic "uvmunmap: not a leaf" else mret tt);;
    when do_free (kfree (PTE2PA e));;
    write64 pte 0;;
    if a =? last then mret (inr tt) else mret (inl (u64 (a + PGSIZE))))
  (PGROUNDDOWN va).

(** ** The kernel's page table *)

Definition kvmmap (va pa sz perm : Z) : K unit :=
  kernel_pagetable ← gets k_kpt;
  r ← mappages kernel_pagetable va sz pa perm;
  if negb (r =? 0) then panic "kvmmap" else mret tt.

Definition kvminit : K unit :=
  pt ← kalloc;
  modify (set k_kpt (fun _ => pt));;
  memset_page pt 0;;
  kvmmap UART0 UART0 PGSIZE (Z.lor PTE_R PTE_W);;
  kvmmap VIRTIO0 VIRTIO0 PGSIZE (Z.lor PTE_R PTE_W);;
  kvmmap CLINT CLINT 0x10000 (Z.lor PTE_R PTE_W);;
  kvmmap PLIC PLIC 0x400000 (Z.lor PTE_R PTE_W);;
  kvmmap KERNBASE KERNBASE (u64 (sym_etext - KERNBASE)) (Z.lor PTE_R PTE_X);;
  kvmmap sym_etext sym_etext (u64 (PHYSTOP - sym_etext)) (Z.lor PTE_R PTE_W);;
  kvmmap TRAMPOLINE sym_trampoline PGSIZE (Z.lor PTE_R PTE_X).

Definition kvmpa (va : Z) : K Z :=
  let off := va mod PGSIZE in
  kernel_pagetable ← gets k_kpt;
  pte ← walk kernel_pagetable va false;
  (if pte =? 0 then panic "kvmpa" else mret tt);;
  e ← read64 pte;
  (if Z.land e PTE_V =? 0 then panic "kvmpa" else mret tt);;
  mret (u64 (PTE2PA e + off)).

(** ** User memory *)

Definition uvmcreate : K Z :=
  pagetable ← kalloc;
  if pagetable =? 0 then mret 0
  else memset_page pagetable 0;; mret pagetable.

Definition uvminit (pagetable : Z) (src : list Z) (sz : Z) : K unit :=
  (if PGSIZE <=? sz then panic "inituvm: more than a page" else mret tt);;
  mem ← kalloc;
  memset_page mem 0;;
  mappages pagetable 0 PGSIZE mem (Z.lor (Z.lor (Z.lor PTE_W PTE_R) PTE_X) PTE_U);;
  bytes ← (if bool_decide (Z.to_nat sz <= length src)%nat then mret (take (Z.to_nat sz) src) else fault);
  write_phys mem bytes.

Definition uvmdealloc (pagetable oldsz newsz : Z) : K Z :=
  if oldsz <=? newsz then mret oldsz
  else
    let newup := PGROUNDUP newsz in
    when (newup <? PGROUNDUP oldsz) (uvmunmap pagetable newup (u64 (oldsz - newup)) true);;
    mret newsz.

Definition uvmalloc (pagetable oldsz newsz : Z) : K Z :=
  if newsz <? oldsz then mret oldsz
  else
    let oldsz := PGROUNDUP oldsz in
    kloop (S (Z.to_nat ((newsz - oldsz + PGSIZE - 1) / PGSIZE))) (fun a =>
      if a <? newsz then
        mem ← kalloc;
        if mem =? 0 then uvmdealloc pagetable a oldsz;; mret (inr 0)
        else
          memset_page mem 0;;
          r ← mappages pagetable a PGSIZE mem (Z.lor (Z.lor (Z.lor PTE_W PTE_X) PTE_R) PTE_U);
          if negb (r =? 0) then kfree mem;; uvmdealloc pagetable a oldsz;; mret (inr 0)
          else mret (inl (u64 (a + PGSIZE)))
      else mret (inr newsz))
    oldsz.

(** [freewalk] recurses once per level of the table: [fuel] is the depth. *)
Fixpoint freewalk (fuel : nat) (pagetable : Z) : K unit :=
  match fuel with
  | O => stop OutOfFuel
  | S fuel =>
    kfor (seqZ 0 512) (fun i =>
      pte ← read64 (pagetable + 8 * i);
      if negb (Z.land pte PTE_V =? 0) && (Z.land pte (Z.lor (Z.lor PTE_R PTE_W) PTE_X) =? 0) then
        freewalk fuel (PTE2PA pte);;
        write64 (pagetable + 8 * i) 0
      else if negb (Z.land pte PTE_V =? 0) then panic "freewalk: leaf"
      else mret tt);;
    kfree pagetable
  end.

(** The levels of an Sv39 table. *)
Definition LEVELS : nat := 3.

Definition uvmfree (pagetable sz : Z) : K unit :=
  uvmunmap pagetable 0 sz true;;
  freewalk LEVELS pagetable.

Definition uvmcopy (old new sz : Z) : K Z :=
  kloop (S (Z.to_nat ((sz + PGSIZE - 1) / PGSIZE))) (fun i =>
    let err := uvmunmap new 0 i true;; mret (inr (-1)) in
    if i <? sz then
      pte ← walk old i false;
      (if pte =? 0 then panic "uvmcopy: pte should exist" else mret tt);;
      e ← read64 pte;
      (if Z.land e PTE_V =? 0 then panic "uvmcopy: page not present" else mret tt);;
      mem ← kalloc;
      if mem =? 0 then err
      else
        bytes ← read_phys (PTE2PA e) (Z.to_nat PGSIZE);
        write_phys mem bytes;;
        r ← mappages new i PGSIZE mem (PTE_FLAGS e);
        if negb (r =? 0) then kfree mem;; err
        else mret (inl (u64 (i + PGSIZE)))
    else mret (inr 0))
  0.

Definition uvmclear (pagetable va : Z) : K unit :=
  pte ← walk pagetable va false;
  (if pte =? 0 then panic "uvmclear" else mret tt);;
  e ← read64 pte;
  write64 pte (Z.land e (Z.lnot PTE_U)).

(** ** Copying between kernel and user space *)

Definition copyout (pagetable dstva : Z) (src : list Z) (len : Z) : K Z :=
  kloop (S (Z.to_nat len)) (fun '(dstva, src, len) =>
    if 0 <? len then
      let va0 := PGROUNDDOWN dstva in
      pa0 ← walkaddr pagetable va0;
      if pa0 =? 0 then mret (inr (-1))
      else
        let n := Z.min (PGSIZE - (dstva - va0)) len in
        bytes ← (if bool_decide (Z.to_nat n <= length src)%nat then mret (take (Z.to_nat n) src) else fault);
        write_phys (pa0 + (dstva - va0)) bytes;;
        mret (inl (u64 (va0 + PGSIZE), drop (Z.to_nat n) src, len - n))
    else mret (inr 0))
  (dstva, src, len).

(** The result and the bytes stored from [dst] on. *)
Definition copyin (pagetable srcva len : Z) : K (Z * list Z) :=
  kloop (S (Z.to_nat len)) (fun '(acc, srcva, len) =>
    if 0 <? len then
      let va0 := PGROUNDDOWN srcva in
      pa0 ← walkaddr pagetable va0;
      if pa0 =? 0 then mret (inr (-1, acc))
      else
        let n := Z.min (PGSIZE - (srcva - va0)) len in
        bytes ← read_phys (pa0 + (srcva - va0)) (Z.to_nat n);
        mret (inl (acc ++ bytes, u64 (va0 + PGSIZE), len - n))
    else mret (inr (0, acc)))
  ([], srcva, len).

(** The inner loop of [copyinstr]: the bytes stored, and whether a NUL ended it. *)
Fixpoint copy_until_nul (bytes : list Z) : list Z * bool :=
  match bytes with
  | [] => ([], false)
  | b :: bytes => if b =? 0 then ([0], true)
                  else let '(r, nul) := copy_until_nul bytes in (b :: r, nul)
  end.

Definition copyinstr (pagetable srcva max : Z) : K (Z * list Z) :=
  kloop (S (Z.to_nat max)) (fun '(acc, srcva, max) =>
    if 0 <? max then
      let va0 := PGROUNDDOWN srcva in
      pa0 ← walkaddr pagetable va0;
      if pa0 =? 0 then mret (inr (-1, acc))
      else
        let n := Z.min (PGSIZE - (srcva - va0)) max in
        bytes ← read_phys (pa0 + (srcva - va0)) (Z.to_nat n);
        let '(got, nul) := copy_until_nul bytes in
        if nul : bool then mret (inr (0, acc ++ got))
        else mret (inl (acc ++ got, u64 (va0 + PGSIZE), max - n))
    else mret (inr (-1, acc)))
  ([], srcva, max).
End vm.
