(* ===== verification/Pagetable.v ===== *)
(** What the page tables built by [vm.c] mean.

    [pt_rep mem pt T] says that the pages of [T], a map from index paths to
    physical pages ([[]] is the root, [[i]] the table its entry [i] points to,
    and so on), form the tree rooted at [pt] in memory [mem].  [view mem T va] is
    the leaf entry that maps [va]: the operations of [vm.c] are specified by
    their effect on this function. *)
From S2P Require Import Prelude Types Kstate Cstring Spinlock Frame Printf Accounting Kalloc Vm.
From stdpp Require Import base numbers list gmap strings.
From Stdlib Require Import ZArith Lia.

Local Open Scope Z_scope.
Local Open Scope xv6_scope.

(** ** Representation *)

Definition entry (mem : gmap Z (list Z)) (p i : Z) : Z :=
  match mem !! p with Some bs => load 8 (Z.to_nat (8 * i)) bs | None => 0 end.

Definition good_page (p : Z) : Prop := p mod PGSIZE = 0 /\ 0 < p < 2 ^ 56.

Definition page_in (mem : gmap Z (list Z)) (p : Z) : Prop :=
  exists bs, mem !! p = Some bs /\ length bs = Z.to_nat PGSIZE.

(** The entry that points to a lower table. *)
Definition link (o : option Z) : Z :=
  match o with Some p => Z.lor (PA2PTE p) PTE_V | None => 0 end.

Abbreviation table := (gmap (list Z) Z).

Record pt_rep (mem : gmap Z (list Z)) (pt : Z) (T : table) : Prop := {
  pr_root : T !! [] = Some pt;
  pr_page : forall path p, T !! path = Some p -> good_page p /\ page_in mem p;
  pr_inj : forall path path' p, T !! path = Some p -> T !! path' = Some p -> path = path';
  pr_depth : forall path p, T !! path = Some p -> (length path <= 2)%nat;
  pr_closed : forall path i p, T !! (path ++ [i]) = Some p -> is_Some (T !! path) /\ 0 <= i < 512;
  pr_link : forall path p i, T !! path = Some p -> (length path < 2)%nat -> 0 <= i < 512 ->
    entry mem p i = link (T !! (path ++ [i]))
}.

(** The upper indices of an address. *)
Definition idx (va : Z) : list Z := [PX 2 va; PX 1 va].

Definition view (mem : gmap Z (list Z)) (T : table) (va : Z) : Z :=
  match T !! idx va with Some p0 => entry mem p0 (PX 0 va) | None => 0 end.

Definition in_table (T : table) (p : Z) : Prop := exists path, T !! path = Some p.

Section pagetable.
Context `{Env}.

(** ** Words in pages *)

Lemma page_index p i : good_page p -> 0 <= i < 512 ->
  PGROUNDDOWN (p + 8 * i) = p /\ (p + 8 * i) mod PGSIZE = 8 * i.
Proof.
  intros [Hm Hp] Hi. rewrite PGROUNDDOWN_eq. unfold PGSIZE in *.
  assert ((p + 8 * i) mod 4096 = 8 * i) as ->
    by (rewrite Zplus_mod, Hm; rewrite Z.add_0_l, Zmod_mod, Z.mod_small; lia).
  split; lia.
Qed.

Lemma wp_read64 p i Q s :
  good_page p -> page_in (k_mem s) p -> 0 <= i < 512 ->
  Q (entry (k_mem s) p i) s -> wp (read64 (p + 8 * i)) Q s.
Proof.
  intros Hp (bs & Hbs & Hlen) Hi HQ. destruct (page_index p i Hp Hi) as [Hd Hm].
  unfold read64, read_phys. rewrite Hd, Hm. kstep.
  rewrite bool_decide_eq_true_2 by (rewrite Hlen; consts; lia). kstep.
  unfold entry in HQ. by rewrite Hbs in HQ.
Qed.

Lemma wp_write64 p i v bs Q s :
  good_page p -> k_mem s !! p = Some bs -> length bs = Z.to_nat PGSIZE -> 0 <= i < 512 ->
  Q tt (s <| k_mem ::= <[p := store 8 (Z.to_nat (8 * i)) v bs]> |>) -> wp (write64 (p + 8 * i) v) Q s.
Proof.
  intros Hp Hbs Hlen Hi HQ. destruct (page_index p i Hp Hi) as [Hd Hm].
  unfold write64, write_phys. rewrite Hd, Hm. kstep.
  rewrite bool_decide_eq_true_2 by (rewrite length_le_bytes, Hlen; consts; lia). by kstep.
Qed.

Lemma entry_ne mem p q bs i : p <> q -> entry (<[q := bs]> mem) p i = entry mem p i.
Proof. intros. unfold entry. by rewrite lookup_insert_ne. Qed.

Lemma entry_store mem p bs i j v :
  length bs = Z.to_nat PGSIZE -> 0 <= i < 512 -> 0 <= j < 512 -> 0 <= v < 2 ^ 64 ->
  mem !! p = Some bs ->
  entry (<[p := store 8 (Z.to_nat (8 * i)) v bs]> mem) p j = if decide (i = j) then v else entry mem p j.
Proof.
  intros Hlen Hi Hj Hv Hbs. unfold entry. rewrite lookup_insert_eq, Hbs. consts. case_decide as Hij.
  - subst. rewrite load_store_same by lia. by apply Z.mod_small.
  - rewrite load_store_ne by lia. done.
Qed.

Lemma entry_zero mem p i : 0 <= i < 512 -> entry (<[p := replicate (Z.to_nat PGSIZE) 0]> mem) p i = 0.
Proof.
  intros Hi. unfold entry. rewrite lookup_insert_eq. unfold load, slice.
  rewrite drop_replicate, take_replicate.
  generalize (8 `min` (Z.to_nat PGSIZE - Z.to_nat (8 * i)))%nat. intros n.
  induction n as [|n IH]; simpl; [done|]. rewrite IH. done.
Qed.

Lemma page_in_insert mem p q bs :
  length bs = Z.to_nat PGSIZE -> page_in mem p -> page_in (<[q := bs]> mem) p.
Proof.
  intros Hl (bs' & ? & ?). destruct (decide (p = q)) as [->|].
  - exists bs. by rewrite lookup_insert_eq.
  - exists bs'. by rewrite lookup_insert_ne.
Qed.

Lemma page_in_eq mem p bs : length bs = Z.to_nat PGSIZE -> page_in (<[p := bs]> mem) p.
Proof. intros. exists bs. by rewrite lookup_insert_eq. Qed.

Lemma link_Some p : good_page p ->
  Z.land (link (Some p)) PTE_V = PTE_V /\ PTE2PA (link (Some p)) = p /\
  0 <= link (Some p) < 2 ^ 64.
Proof.
  intros [Hm Hp]. simpl. split_and!.
  - apply PTE_V_set.
  - apply PTE2PA_lor; [lia|done|by vm_compute].
  - apply PTE_range; [lia|done|by vm_compute].
  - apply PTE_range; [lia|done|by vm_compute].
Qed.

(** ** Looking an address up *)

(** The address [walk] returns. *)
Definition pte_addr (T : table) (va : Z) : Z :=
  match T !! idx va with Some p0 => p0 + 8 * PX 0 va | None => 0 end.

(** The path of [va] down to the table of the given level. *)
Definition path_at (level : nat) (va : Z) : list Z := take (2 - level) (idx va).

Lemma path_at_S level va : (level < 2)%nat ->
  path_at level va = path_at (S level) va ++ [PX (Z.of_nat (S level)) va].
Proof. destruct level as [|[|]]; [done|done|lia]. Qed.

Lemma path_at_closed mem pt T level va : pt_rep mem pt T -> (level <= 2)%nat ->
  T !! path_at level va = None -> T !! idx va = None.
Proof.
  intros HT. induction level as [|level IH]; intros Hl Hn; [exact Hn|].
  apply IH; [lia|]. rewrite path_at_S by lia.
  apply eq_None_not_Some. intros [q E]. apply (pr_closed _ _ _ HT) in E as [[? E] _].
  by rewrite Hn in E.
Qed.

Lemma wp_walk_from level p va Q s pt T :
  pt_rep (k_mem s) pt T -> (level <= 2)%nat -> T !! path_at level va = Some p ->
  Q (pte_addr T va) s -> wp (walk_from level p va false) Q s.
Proof.
  intros HT. revert p. induction level as [|level IH]; intros p Hl Hp HQ.
  - simpl. apply wp_ret. unfold pte_addr in HQ. change (path_at 0 va) with (idx va) in Hp.
    by rewrite Hp in HQ.
  - destruct (pr_page _ _ _ HT _ _ Hp) as [Hgood Hin]. pose proof (PX_range (Z.of_nat (S level)) va).
    cbn [walk_from]. kstep. apply wp_read64; [done..|].
    rewrite (pr_link _ _ _ HT _ _ _ Hp), <- path_at_S by (lia || (unfold path_at; simpl; rewrite length_take; simpl; lia)).
    destruct (T !! path_at level va) as [q|] eqn:Hq.
    + destruct (pr_page _ _ _ HT _ _ Hq) as [Hgq _]. destruct (link_Some q Hgq) as (-> & -> & _).
      change (negb (PTE_V =? 0)) with true. cbv iota. apply IH; [lia|done|done].
    + change (negb (Z.land (link None) PTE_V =? 0)) with false. kbool. kstep.
      unfold pte_addr in HQ. by rewrite (path_at_closed _ _ _ level va HT) in HQ by (done || lia).
Qed.

Lemma wp_walk va Q s pt T :
  pt_rep (k_mem s) pt T -> va < MAXVA -> Q (pte_addr T va) s -> wp (walk pt va false) Q s.
Proof.
  intros HT Hva HQ. unfold walk. rewrite (proj2 (Z.leb_gt MAXVA va)) by done. kstep.
  eapply wp_walk_from; [done|done|apply HT|done].
Qed.

(** ** Adding a table *)

Section extend.
Context (mem : gmap Z (list Z)) (pt : Z) (T : table) (path : list Z) (p i q : Z) (bs : list Z).
Hypothesis HT : pt_rep mem pt T.
Hypothesis Hp : T !! path = Some p.
Hypothesis Hlen : (length path < 2)%nat.
Hypothesis Hi : 0 <= i < 512.
Hypothesis Hnone : T !! (path ++ [i]) = None.
Hypothesis Hq : good_page q.
Hypothesis Hfresh : ~ in_table T q.
Hypothesis Hbs : mem !! p = Some bs.

Definition extend_mem : gmap Z (list Z) :=
  <[p := store 8 (Z.to_nat (8 * i)) (link (Some q)) bs]> (<[q := replicate (Z.to_nat PGSIZE) 0]> mem).

Lemma extend_len : length bs = Z.to_nat PGSIZE.
Proof. destruct (pr_page _ _ _ HT _ _ Hp) as [_ (bs' & Hb & Hl)]. rewrite Hbs in Hb. by injection Hb as <-. Qed.

Lemma extend_store_len : length (store 8 (Z.to_nat (8 * i)) (link (Some q)) bs) = Z.to_nat PGSIZE.
Proof. rewrite length_store; rewrite extend_len; [done|consts; lia]. Qed.

Lemma extend_pq : p <> q.
Proof. intros ->. apply Hfresh. by exists path. Qed.

Lemma extend_entry_q j : 0 <= j < 512 -> entry extend_mem q j = 0.
Proof.
  intros. unfold extend_mem. rewrite entry_ne by (symmetry; apply extend_pq). by apply entry_zero.
Qed.

Lemma extend_entry_p j : 0 <= j < 512 ->
  entry extend_mem p j = if decide (i = j) then link (Some q) else entry mem p j.
Proof.
  intros. unfold extend_mem. rewrite entry_store; [|by apply extend_len|done..| |].
  - case_decide; [done|]. apply entry_ne, extend_pq.
  - by apply link_Some.
  - rewrite lookup_insert_ne by (symmetry; apply extend_pq). done.
Qed.

Lemma extend_entry_other r j : r <> p -> r <> q -> entry extend_mem r j = entry mem r j.
Proof. intros. unfold extend_mem. by rewrite !entry_ne. Qed.

Lemma extend_below path' i' : path' = path ++ [i] -> T !! (path' ++ [i']) = None.
Proof.
  intros ->. apply eq_None_not_Some. intros [r Hr]. apply (pr_closed _ _ _ HT) in Hr as [[? Hr] _].
  by rewrite Hnone in Hr.
Qed.

Lemma extend_rep : pt_rep extend_mem pt (<[path ++ [i] := q]> T).
Proof.
  split.
  - rewrite lookup_insert_ne; [apply HT|]. by destruct path.
  - intros path' r. rewrite lookup_insert_Some. intros [[<- <-]|[_ Hr]].
    + split; [done|]. apply page_in_insert; [apply extend_store_len|].
      apply page_in_eq. by rewrite length_replicate.
    + destruct (pr_page _ _ _ HT _ _ Hr). split; [done|].
      apply page_in_insert; [apply extend_store_len|].
      apply page_in_insert; [by rewrite length_replicate|done].
  - intros a b r. rewrite !lookup_insert_Some. intros [[<- <-]|[Ha Hra]] [[<- Hb]|[Hb Hrb]].
    + done.
    + exfalso. apply Hfresh. by exists b.
    + exfalso. apply Hfresh. exists a. by rewrite Hb.
    + by eapply HT.
  - intros a r. rewrite lookup_insert_Some. intros [[<- <-]|[_ Hr]].
    + rewrite length_app. simpl. lia.
    + by eapply HT.
  - intros a j r. rewrite lookup_insert_Some. intros [[Heq <-]|[_ Hr]].
    + apply app_inj_tail in Heq as [<- <-]. split; [|done].
      rewrite lookup_insert_ne; [by eexists|]. intros E%(f_equal length). rewrite length_app in E.
      simpl in E. lia.
    + destruct (pr_closed _ _ _ HT _ _ _ Hr) as [[r' Hr'] Hj]. split; [|done].
      destruct (decide (a = path ++ [i])) as [->|Hne]; [by rewrite lookup_insert_eq|].
      rewrite lookup_insert_ne by done. by eexists.
  - intros a r j. rewrite lookup_insert_Some. intros [[<- <-]|[Hne Hr]] Hla Hj.
    + rewrite extend_entry_q by done. rewrite lookup_insert_ne.
      * by rewrite extend_below.
      * intros E%(f_equal length). rewrite !length_app in E. simpl in E. lia.
    + destruct (decide (r = p)) as [->|Hrp].
      * assert (a = path) as -> by (by eapply (pr_inj _ _ _ HT)). rewrite extend_entry_p by done.
        case_decide as Hij; [subst; by rewrite lookup_insert_eq|].
        rewrite lookup_insert_ne by (intros [_ ?]%app_inj_tail; congruence). by eapply HT.
      * rewrite extend_entry_other; [|done|intros ->; apply Hfresh; by exists a].
        rewrite lookup_insert_ne; [by eapply HT|]. intros [-> _]%app_inj_tail. congruence.
Qed.

Lemma extend_view va : view extend_mem (<[path ++ [i] := q]> T) va = view mem T va.
Proof.
  unfold view. destruct (decide (idx va = path ++ [i])) as [Heq|Hne].
  - rewrite Heq, lookup_insert_eq, Hnone. apply extend_entry_q, PX_range.
  - rewrite lookup_insert_ne by done. destruct (T !! idx va) as [p0|] eqn:H0; [|done].
    apply extend_entry_other; intros ->.
    + assert (idx va = path) as E by (by eapply (pr_inj _ _ _ HT)).
      rewrite <- E in Hlen. simpl in Hlen. lia.
    + apply Hfresh. by exists (idx va).
Qed.
End extend.

(** ** Walking with allocation *)

(** Two memories with their tables map every address alike. *)
Definition same_view (mem : gmap Z (list Z)) (T : table) (mem' : gmap Z (list Z)) (T' : table) : Prop :=
  forall va, view mem' T' va = view mem T va.

(** The table [T] grew to [T'] with pages of the free list [l], of which [l'] is left, and no page
    outside the table changed. *)
Record grown (s s' : kstate) (pt : Z) (T T' : table) (l l' : list Z) : Prop := {
  gr_frame : vframe s s';
  gr_rep : pt_rep (k_mem s') pt T';
  gr_sub : T ⊆ T';
  gr_new : forall q, in_table T' q -> in_table T q \/ q ∈ l;
  gr_list : exists used, l = used ++ l';
  gr_fresh : forall q, q ∈ l' -> ~ in_table T' q;
  gr_other : forall q, ~ in_table T' q -> k_mem s' !! q = k_mem s !! q
}.

Lemma grown_refl s pt T l :
  pt_rep (k_mem s) pt T -> (forall q, q ∈ l -> ~ in_table T q) -> grown s s pt T T l l.
Proof. intros HT Hl. split; try done; [by auto|by exists []]. Qed.

Lemma grown_trans s1 s2 s3 pt T1 T2 T3 l1 l2 l3 :
  grown s1 s2 pt T1 T2 l1 l2 -> grown s2 s3 pt T2 T3 l2 l3 -> grown s1 s3 pt T1 T3 l1 l3.
Proof.
  intros [F1 R1 S1 N1 [u1 ->] X1 O1] [F2 R2 S2 N2 [u2 ->] X2 O2]. split; try done.
  - by etrans.
  - by etrans.
  - intros q [[?|?]%N1|?]%N2; [by left|by right|right; apply elem_of_app; by right].
  - exists (u1 ++ u2). by rewrite app_assoc.
  - intros q Hq. rewrite O2 by done. apply O1. intros [path Hp]. apply Hq. exists path.
    by eapply lookup_weaken.
Qed.

Lemma valid_good p : KERNBASE <= sym_end -> valid_page p -> good_page p.
Proof. intros He [Hm ?]. split; [done|]. consts. lia. Qed.

(** One level: a fresh page becomes the table of entry [i] of table [p]. *)
Lemma wp_walk_grow (k : Z -> K Z) Q s pt T path p i q l n :
  KERNBASE <= sym_end -> pt_rep (k_mem s) pt T -> T !! path = Some p -> (length path < 2)%nat ->
  0 <= i < 512 -> T !! (path ++ [i]) = None ->
  alloc_ok s (q :: l) (S n) -> (forall r, r ∈ q :: l -> ~ in_table T r) ->
  (forall s', grown s s' pt T (<[path ++ [i] := q]> T) (q :: l) l -> alloc_ok s' l n ->
     same_view (k_mem s) T (k_mem s') (<[path ++ [i] := q]> T) -> wp (k q) Q s') ->
  wp (pagetable ← kalloc;
      if pagetable =? 0 then mret 0
      else memset_page pagetable 0;;
           write64 (p + 8 * i) (Z.lor (PA2PTE pagetable) PTE_V);; k pagetable) Q s.
Proof.
  intros He HT Hp Hlen Hi Hnone Hal Hfr HQ.
  destruct (pr_page _ _ _ HT _ _ Hp) as [Hgp (bs & Hbs & Hl)].
  assert (~ in_table T q) as Hq by (apply Hfr; by left).
  assert (p <> q) as Hpq by (intros ->; apply Hq; by exists path).
  pose proof (proj2 (ao_free _ _ _ Hal)) as [Hql _]%NoDup_cons.
  kstep. eapply wp_kalloc_room; [done..|]. intros s1 F1 A1 Hq0 Hv Hm1.
  pose proof (valid_good q He Hv) as Hgq.
  rewrite (proj2 (Z.eqb_neq q 0)) by done. kstep.
  eapply wp_memset_page; [by rewrite Hm1, lookup_insert_eq|by rewrite length_replicate|]. kstep.
  eapply (wp_write64 p i _ bs); [done| |done|done|].
  { kfields. by rewrite lookup_insert_ne, Hm1, lookup_insert_ne. }
  match goal with |- wp _ _ ?st => set (s2 := st) end.
  assert (k_mem s2 = extend_mem (k_mem s) p i q bs) as Hm2.
  { unfold s2, extend_mem. kfields. rewrite Hm1, insert_insert_eq. done. }
  assert (frame [Fmem] s1 s2) as F2 by frame_solve.
  apply HQ.
  - split.
    + by eapply vframe_ext.
    + rewrite Hm2. by apply extend_rep.
    + by apply insert_subseteq.
    + intros r [path' Hr]. apply lookup_insert_Some in Hr as [[<- <-]|[_ Hr]]; [right; by left|].
      left. by exists path'.
    + by exists [q].
    + intros r Hr [path' Hr']. apply lookup_insert_Some in Hr' as [[<- <-]|[_ Hr']]; [done|].
      apply (Hfr r); [by right|by exists path'].
    + intros r Hr. rewrite Hm2. unfold extend_mem. rewrite !lookup_insert_ne; [done|..].
      * intros ->. apply Hr. exists (path ++ [i]). by rewrite lookup_insert_eq.
      * intros ->. apply Hr. exists path. rewrite lookup_insert_ne; [done|].
        intros E%(f_equal length). rewrite length_app in E. simpl in E. lia.
  - eapply alloc_ok_agree; [exact A1|done|exact F2|done|]. intros r Hr. rewrite Hm2, Hm1.
    unfold extend_mem. rewrite !lookup_insert_ne; [done|intros ->; done|intros ->; done|].
    intros ->. apply (Hfr r); [by right|by exists path].
  - intros va. rewrite Hm2. by eapply extend_view.
Qed.

Lemma wp_walk_alloc_from level p va Q s pt T l n :
  KERNBASE <= sym_end -> (level <= 2)%nat -> pt_rep (k_mem s) pt T ->
  T !! path_at level va = Some p -> alloc_ok s l (level + n) -> (level <= length l)%nat ->
  (forall q, q ∈ l -> ~ in_table T q) ->
  (forall s' T' l' p0, grown s s' pt T T' l l' -> alloc_ok s' l' n ->
     (length l <= length l' + level)%nat -> same_view (k_mem s) T (k_mem s') T' ->
     T' !! idx va = Some p0 -> Q (p0 + 8 * PX 0 va) s') ->
  wp (walk_from level p va true) Q s.
Proof.
  intros He. revert p s T l Q.
  induction level as [|level IH]; intros p s T l Q Hl HT Hp Hal Hlen Hfr HQ.
  - simpl. apply wp_ret. eapply HQ; [by apply grown_refl|done|lia|done|exact Hp].
  - destruct (pr_page _ _ _ HT _ _ Hp) as [Hgood Hin]. pose proof (PX_range (Z.of_nat (S level)) va).
    assert (length (path_at (S level) va) < 2)%nat
      by (unfold path_at; rewrite length_take; simpl; lia).
    cbn [walk_from]. kstep. apply wp_read64; [done..|].
    rewrite (pr_link _ _ _ HT _ _ _ Hp), <- path_at_S by lia.
    destruct (T !! path_at level va) as [q|] eqn:Hq.
    + destruct (pr_page _ _ _ HT _ _ Hq) as [Hgq _]. destruct (link_Some q Hgq) as (-> & -> & _).
      change (negb (PTE_V =? 0)) with true. cbv iota.
      apply (IH q s T l); [lia|done|done| |lia|done|].
      * by eapply alloc_ok_le; [exact Hal|lia].
      * intros s' T' l' p0 Hg Ha Hle Hsv Hp0. eapply HQ; [done..|lia|done|done].
    + change (negb (Z.land (link None) PTE_V =? 0)) with false. kbool. cbv iota.
      destruct l as [|q l]; [simpl in Hlen; lia|].
      eapply wp_walk_grow; [done|exact HT|exact Hp|done|done| |done|done|].
      { by rewrite <- path_at_S by lia. }
      intros s1 G1 A1 V1. pose proof G1 as []. simpl in Hlen.
      eapply (IH q s1 _ l); [lia|done| |done|lia|done|].
      { rewrite path_at_S by lia. by rewrite lookup_insert_eq. }
      intros s' T' l' p0 Hg Ha Hle Hsv Hp0.
      eapply HQ; [by eapply grown_trans|done|simpl; lia| |done]. intros a. by rewrite Hsv.
Qed.

Lemma wp_walk_alloc va Q s pt T l n :
  KERNBASE <= sym_end -> va < MAXVA -> pt_rep (k_mem s) pt T ->
  alloc_ok s l (2 + n) -> (2 <= length l)%nat -> (forall q, q ∈ l -> ~ in_table T q) ->
  (forall s' T' l' p0, grown s s' pt T T' l l' -> alloc_ok s' l' n ->
     (length l <= length l' + 2)%nat -> same_view (k_mem s) T (k_mem s') T' ->
     T' !! idx va = Some p0 -> Q (p0 + 8 * PX 0 va) s') ->
  wp (walk pt va true) Q s.
Proof.
  intros He Hva HT Hal Hlen Hfr HQ. unfold walk. rewrite (proj2 (Z.leb_gt MAXVA va)) by done.
  kstep. eapply wp_walk_alloc_from; [done|done|exact HT|apply HT|done..].
Qed.

(** ** Writing a leaf entry *)

Section leaf.
Context (mem : gmap Z (list Z)) (pt : Z) (T : table) (va p0 v : Z) (bs : list Z).
Hypothesis HT : pt_rep mem pt T.
Hypothesis Hp0 : T !! idx va = Some p0.
Hypothesis Hv : 0 <= v < 2 ^ 64.
Hypothesis Hbs : mem !! p0 = Some bs.

Definition leaf_mem : gmap Z (list Z) := <[p0 := store 8 (Z.to_nat (8 * PX 0 va)) v bs]> mem.

Lemma leaf_len : length bs = Z.to_nat PGSIZE.
Proof. destruct (pr_page _ _ _ HT _ _ Hp0) as [_ (bs' & Hb & Hl)]. rewrite Hbs in Hb. by injection Hb as <-. Qed.

Lemma leaf_rep : pt_rep leaf_mem pt T.
Proof.
  pose proof (PX_range 0 va). pose proof leaf_len as Hlen. split; try apply HT.
  - intros path p Hp. destruct (pr_page _ _ _ HT _ _ Hp). split; [done|].
    apply page_in_insert; [|done]. rewrite length_store; rewrite Hlen; [done|consts; lia].
  - intros path p i Hp Hl Hi. unfold leaf_mem. rewrite entry_ne; [by eapply HT|].
    intros ->. assert (path = idx va) as -> by (by eapply (pr_inj _ _ _ HT)). simpl in Hl. lia.
Qed.

Lemma leaf_view va' : 0 <= va < MAXVA -> 0 <= va' < MAXVA ->
  view leaf_mem T va' = if decide (va' / PGSIZE = va / PGSIZE) then v else view mem T va'.
Proof.
  intros Hva Hva'. unfold view, leaf_mem. pose proof (PX_range 0 va). pose proof (PX_range 0 va').
  destruct (decide (idx va' = idx va)) as [Hi|Hi].
  - rewrite Hi, Hp0, entry_store by (try apply leaf_len; done).
    injection Hi as E2 E1. destruct (decide (PX 0 va = PX 0 va')) as [E0|E0].
    + rewrite decide_True; [done|]. by apply PX_inj.
    + rewrite decide_False; [done|]. intros E. apply E0. rewrite <- (PX_page 0 va), <- (PX_page 0 va') by lia.
      by rewrite !PGROUNDDOWN_div, E.
  - rewrite decide_False.
    + destruct (T !! idx va') as [q|] eqn:Hq; [|done]. apply entry_ne. intros ->.
      apply Hi. by eapply (pr_inj _ _ _ HT).
    + intros E. apply Hi. unfold idx. rewrite <- (PX_page 2 va), <- (PX_page 2 va'), <- (PX_page 1 va), <- (PX_page 1 va') by lia.
      by rewrite !PGROUNDDOWN_div, E.
Qed.
End leaf.

(** ** [mappages] *)

(** The entries of [n] bytes of address space from page [a] on that map to [pa] with [perm]. *)
Definition mapped (v : Z -> Z) (a n pa perm : Z) (va : Z) : Z :=
  if (a <=? va) && (va <? a + n) then Z.lor (Z.lor (PA2PTE (pa + (PGROUNDDOWN va - a))) perm) PTE_V
  else v va.

Definition user_va (va : Z) : Prop := 0 <= va < MAXVA.

(** One turn of the loop: the page at [a] is mapped. *)
Lemma wp_map_page Q s pt T l n a pa perm (k : K (Z * Z + Z)) :
  KERNBASE <= sym_end -> user_va a -> a mod PGSIZE = 0 -> pt_rep (k_mem s) pt T ->
  alloc_ok s l (2 + n) -> (2 <= length l)%nat -> (forall q, q ∈ l -> ~ in_table T q) ->
  0 <= pa < 2 ^ 56 -> pa mod PGSIZE = 0 -> 0 <= perm < 1024 -> Z.land (view (k_mem s) T a) PTE_V = 0 ->
  (forall s' T' l', grown s s' pt T T' l l' -> alloc_ok s' l' n -> (length l <= length l' + 2)%nat ->
     (forall va, user_va va ->
        view (k_mem s') T' va = mapped (view (k_mem s) T) a PGSIZE pa perm va) -> wp k Q s') ->
  wp (pte ← walk pt a true;
      if pte =? 0 then mret (inr (-1)) else
      e ← read64 pte;
      (if negb (Z.land e PTE_V =? 0) then panic "remap" else mret tt);;
      write64 pte (Z.lor (Z.lor (PA2PTE pa) perm) PTE_V);; k) Q s.
Proof.
  intros He Ha Hm HT Hal Hlen Hfr Hpa Hpm Hperm Hv HQ. kstep.
  eapply wp_walk_alloc; [done|apply Ha|done..|]. intros s1 T1 l1 p0 G1 A1 Hle Hsv Hp0.
  pose proof (gr_rep _ _ _ _ _ _ _ G1) as R1. pose proof (PX_range 0 a) as Hpx.
  destruct (pr_page _ _ _ R1 _ _ Hp0) as [Hgp (bs & Hbs & Hbl)].
  rewrite (proj2 (Z.eqb_neq (p0 + 8 * PX 0 a) 0)) by (destruct Hgp; lia). kstep.
  apply wp_read64; [done|by exists bs|done|].
  assert (entry (k_mem s1) p0 (PX 0 a) = view (k_mem s) T a) as ->.
  { rewrite <- Hsv. unfold view. by rewrite Hp0. }
  rewrite Hv. kbool. kstep. eapply (wp_write64 p0); [done..|].
  match goal with |- wp _ _ ?st => set (s2 := st) end.
  assert (0 <= Z.lor (Z.lor (PA2PTE pa) perm) PTE_V < 2 ^ 64) as Hr.
  { rewrite <- Z.lor_assoc. apply PTE_range; [done|done|].
    split; [apply Z.lor_nonneg; split; [lia|done]|].
    apply (lor_lt _ _ 10); [lia..|]. by vm_compute. }
  assert (frame [Fmem] s1 s2) as F2 by frame_solve.
  assert (k_mem s2 = leaf_mem (k_mem s1) a p0 (Z.lor (Z.lor (PA2PTE pa) perm) PTE_V) bs) as Hm2 by done.
  apply (HQ s2 T1 l1); [|..|done|].
  - destruct G1. split; try done.
    + by eapply vframe_ext.
    + rewrite Hm2. by apply leaf_rep.
    + intros q Hq. rewrite Hm2. unfold leaf_mem. rewrite lookup_insert_ne; [by apply gr_other0|].
      intros ->. apply Hq. by exists (idx a).
  - eapply alloc_ok_agree; [exact A1|done|exact F2|done|]. intros q Hq. rewrite Hm2. unfold leaf_mem.
    rewrite lookup_insert_ne; [done|]. intros ->. apply (gr_fresh _ _ _ _ _ _ _ G1 q Hq). by exists (idx a).
  - intros va Hva. rewrite Hm2. erewrite leaf_view; [|done..]. unfold mapped.
    case_decide as Hsame.
    + assert (PGROUNDDOWN va = a) as Hpg.
      { rewrite PGROUNDDOWN_div, Hsame, <- PGROUNDDOWN_div. by apply PGROUNDDOWN_id. }
      pose proof (PGROUNDDOWN_bounds va).
      rewrite (proj2 (Z.leb_le a va)), (proj2 (Z.ltb_lt va (a + PGSIZE))) by lia. simpl.
      by rewrite Hpg, Z.sub_diag, Z.add_0_r.
    + rewrite Hsv. destruct ((a <=? va) && (va <? a + PGSIZE)) eqn:E; [|done].
      exfalso. apply Hsame. apply andb_true_iff in E as [E1%Z.leb_le E2%Z.ltb_lt].
      unfold PGSIZE in *. Z.to_euclidean_division_equations; lia.
Qed.

Lemma mapped_0 v a pa perm va : mapped v a 0 pa perm va = v va.
Proof.
  unfold mapped. destruct ((a <=? va) && (va <? a + 0)) eqn:E; [|done].
  apply andb_true_iff in E as [E1%Z.leb_le E2%Z.ltb_lt]. lia.
Qed.

Lemma mapped_next v w a n pa perm va : 0 <= n ->
  w va = mapped v a n pa perm va ->
  mapped w (a + n) PGSIZE (pa + n) perm va = mapped v a (n + PGSIZE) pa perm va.
Proof.
  intros Hn Hw. unfold mapped in *. rewrite Hw.
  destruct (Z.leb_spec a va), (Z.leb_spec (a + n) va), (Z.ltb_spec va (a + n)),
    (Z.ltb_spec va (a + n + PGSIZE)), (Z.ltb_spec va (a + (n + PGSIZE)));
    simpl; try done; try (unfold PGSIZE in *; lia).
  do 3 f_equal. lia.
Qed.

Lemma wp_mappages Q s pt T l n va size pa perm :
  let a0 := PGROUNDDOWN va in
  let last := PGROUNDDOWN (va + size - 1) in
  let np := (last - a0) / PGSIZE + 1 in
  KERNBASE <= sym_end -> 0 <= va -> 0 < size -> va + size <= MAXVA -> pt_rep (k_mem s) pt T ->
  alloc_ok s l (Z.to_nat (2 * np) + n) -> 2 * np <= Z.of_nat (length l) ->
  (forall q, q ∈ l -> ~ in_table T q) ->
  0 <= pa -> pa + np * PGSIZE <= 2 ^ 56 -> pa mod PGSIZE = 0 -> 0 <= perm < 1024 ->
  (forall va', a0 <= va' < a0 + np * PGSIZE -> Z.land (view (k_mem s) T va') PTE_V = 0) ->
  (forall s' T' l', grown s s' pt T T' l l' -> alloc_ok s' l' n ->
     Z.of_nat (length l) <= Z.of_nat (length l') + 2 * np ->
     (forall va, user_va va ->
        view (k_mem s') T' va = mapped (view (k_mem s) T) a0 (np * PGSIZE) pa perm va) -> Q 0 s') ->
  wp (mappages pt va size pa perm) Q s.
Proof.
  intros a0 last np He Hva Hsz Hmax HT Hal Hlen Hfr Hpa Hpmax Hpm Hperm Hun HQ.
  pose proof (PGROUNDDOWN_bounds va) as Hb0. pose proof (PGROUNDDOWN_bounds (va + size - 1)) as Hb1.
  pose proof (PGROUNDDOWN_mod va) as Hm0. pose proof (PGROUNDDOWN_mod (va + size - 1)) as Hm1.
  assert (0 <= a0) by (unfold a0; rewrite PGROUNDDOWN_div; unfold PGSIZE; pose proof (Z.div_pos va 4096); lia).
  assert (a0 <= last).
  { unfold a0, last. rewrite !PGROUNDDOWN_div. unfold PGSIZE.
    pose proof (Z.div_le_mono va (va + size - 1) 4096). lia. }
  assert (last = a0 + (np - 1) * PGSIZE) as Hlast.
  { unfold np, a0, last in *. unfold PGSIZE in *. Z.to_euclidean_division_equations; lia. }
  unfold mappages. fold a0. rewrite u64_small by (consts; lia). fold last.
  fold a0 in Hb0, Hm0. fold last in Hb1, Hm1. clearbody np. clearbody a0 last.
  apply (wp_kloop (fun '(a, pc) s' => exists k T' l',
    a = a0 + k * PGSIZE /\ pc = pa + k * PGSIZE /\ 0 <= k < np /\
    grown s s' pt T T' l l' /\ alloc_ok s' l' (Z.to_nat (2 * (np - k)) + n) /\
    Z.of_nat (length l) <= Z.of_nat (length l') + 2 * k /\
    forall va, user_va va ->
      view (k_mem s') T' va = mapped (view (k_mem s) T) a0 (k * PGSIZE) pa perm va)
    (fun '(a, _) => Z.to_nat ((last - a) / PGSIZE))).
  - exists 0, T, l. split_and!; try (unfold PGSIZE in *; lia).
    + by apply grown_refl.
    + by rewrite Z.sub_0_r.
    + intros. by rewrite mapped_0.
  - unfold page_turns. rewrite u64_small by (consts; lia). lia.
  - intros [a pc] s1 (k & T1 & l1 & -> & -> & Hk & G1 & A1 & Hl1 & V1).
    pose proof G1 as [F1 R1 S1 N1 [used Hused] X1 O1].
    assert (user_va (a0 + k * PGSIZE)) by (unfold user_va; unfold PGSIZE in *; lia).
    assert ((a0 + k * PGSIZE) mod PGSIZE = 0) by (unfold PGSIZE in *; Z.to_euclidean_division_equations; lia).
    assert ((pa + k * PGSIZE) mod PGSIZE = 0) by (unfold PGSIZE in *; Z.to_euclidean_division_equations; lia).
    apply (wp_map_page _ _ pt T1 l1 (Z.to_nat (2 * (np - (k + 1))) + n)%nat); try done.
    + eapply alloc_ok_le; [exact A1|lia].
    + rewrite Hused, length_app in *. lia.
    + unfold PGSIZE in *. lia.
    + rewrite V1 by done. unfold mapped. rewrite (proj2 (Z.ltb_ge (a0 + k * PGSIZE) _)) by lia.
      rewrite andb_false_r. apply Hun. unfold PGSIZE in *. lia.
    + intros s2 T2 l2 G2 A2 Hl2 V2. pose proof (grown_trans _ _ _ _ _ _ _ _ _ _ G1 G2) as G12.
      assert (forall va, user_va va ->
        view (k_mem s2) T2 va = mapped (view (k_mem s) T) a0 ((k + 1) * PGSIZE) pa perm va) as V12.
      { intros v Hv. rewrite V2 by done. replace ((k + 1) * PGSIZE) with (k * PGSIZE + PGSIZE) by lia.
        apply mapped_next; [unfold PGSIZE; lia|]. by apply V1. }
      destruct (Z.eqb_spec (a0 + k * PGSIZE) last) as [Heq|Hne]; kstep.
      * assert (np = k + 1) as -> by (unfold PGSIZE in *; lia).
        apply (HQ s2 T2 l2); [done| |lia|done]. eapply alloc_ok_le; [exact A2|lia].
      * rewrite !u64_small by (consts; lia). split.
        -- exists (k + 1), T2, l2. split_and!; try done; try (unfold PGSIZE in *; lia).
        -- unfold PGSIZE in *. Z.to_euclidean_division_equations; lia.
Qed.

(** ** A fresh table *)

Definition zeros : list Z := replicate (Z.to_nat PGSIZE) 0.

Lemma empty_rep mem pt : good_page pt -> mem !! pt = Some zeros -> pt_rep mem pt {[ [] := pt ]}.
Proof.
  intros Hg Hm. split.
  - by rewrite lookup_singleton_eq.
  - intros path p [<- <-]%lookup_singleton_Some. split; [done|]. exists zeros.
    split; [done|apply length_replicate].
  - by intros path path' p [<- _]%lookup_singleton_Some [<- _]%lookup_singleton_Some.
  - intros path p [<- _]%lookup_singleton_Some. simpl. lia.
  - intros path i p [E _]%lookup_singleton_Some. by destruct path.
  - intros path p i [<- <-]%lookup_singleton_Some _ Hi. rewrite lookup_singleton_ne by done.
    simpl. rewrite <- (entry_zero mem pt i Hi). unfold entry. by rewrite lookup_insert_eq, Hm.
Qed.

Lemma empty_view mem pt va : view mem {[ [] := pt ]} va = 0.
Proof. unfold view. by rewrite lookup_singleton_ne. Qed.

Lemma wp_uvmcreate Q s p l n :
  KERNBASE <= sym_end -> alloc_ok s (p :: l) (S n) ->
  (forall s', vframe s s' -> alloc_ok s' l n -> pt_rep (k_mem s') p {[ [] := p ]} ->
     (forall q, q <> p -> k_mem s' !! q = k_mem s !! q) -> Q p s') ->
  wp uvmcreate Q s.
Proof.
  intros He Hal HQ. unfold uvmcreate. kstep. pose proof (proj2 (ao_free _ _ _ Hal)) as [Hpl _]%NoDup_cons.
  eapply wp_kalloc_room; [done..|]. intros s1 F1 A1 Hp0 Hv Hm1.
  rewrite (proj2 (Z.eqb_neq p 0)) by done. kstep.
  eapply wp_memset_page; [by rewrite Hm1, lookup_insert_eq|apply length_replicate|]. kstep.
  match goal with |- Q _ ?st => set (s2 := st) end. assert (frame [Fmem] s1 s2) as F2 by frame_solve.
  assert (k_mem s2 = <[p := zeros]> (k_mem s)) as Hm2
    by (unfold s2; kfields; by rewrite Hm1, insert_insert_eq).
  apply HQ.
  - by eapply vframe_ext.
  - eapply alloc_ok_agree; [exact A1|done|exact F2|done|]. intros q Hq.
    rewrite Hm2, Hm1, !lookup_insert_ne by (intros ->; done). done.
  - apply empty_rep; [by apply valid_good|]. by rewrite Hm2, lookup_insert_eq.
  - intros q Hq. by rewrite Hm2, lookup_insert_ne.
Qed.

(** ** What [uvmcreate] and [mappages] guarantee *)

(** [uvmcreate] returns a new page table in which no address is mapped, taking one page from the
    free list and changing no other memory. *)
Theorem uvmcreate_empty (s : kstate) (p : Z) (l : list Z) (n : nat) :
  KERNBASE <= sym_end -> alloc_ok s (p :: l) (S n) ->
  wp uvmcreate (fun pt s' =>
    pt = p /\ alloc_ok s' l n /\
    (exists T, pt_rep (k_mem s') pt T /\ forall va, view (k_mem s') T va = 0) /\
    (forall q, q <> pt -> k_mem s' !! q = k_mem s !! q)) s.
Proof.
  intros He Hal. eapply wp_uvmcreate; [done..|]. intros s' _ Hal' HT Hm.
  split_and!; [done..| |done]. eexists. split; [done|]. intros. apply empty_view.
Qed.

(** C30. [mappages] to an aligned physical address, on a range none of whose pages is mapped, when two
    free pages for each page of the range are left within the container's limit (fewer may make it
    return -1), returns 0 and maps every page of the
    range to the corresponding physical page with the permissions given and the valid bit, for
    unaligned ranges too; every other address is mapped as before, the table is well formed, the
    pages it took were free ones, and no page outside the table changed.  The loop takes as many
    turns as the range has pages. *)
Theorem mappages_maps (s : kstate) (pt : Z) (T : table) (l : list Z) (va size pa perm : Z) :
  let a0 := PGROUNDDOWN va in
  let np := (PGROUNDDOWN (va + size - 1) - a0) / PGSIZE + 1 in
  KERNBASE <= sym_end -> 0 <= va -> 0 < size -> va + size <= MAXVA -> pt_rep (k_mem s) pt T ->
  alloc_ok s l (Z.to_nat (2 * np)) -> 2 * np <= Z.of_nat (length l) ->
  (forall q, q ∈ l -> ~ in_table T q) ->
  0 <= pa -> pa + np * PGSIZE <= 2 ^ 56 -> pa mod PGSIZE = 0 -> 0 <= perm < 1024 ->
  (forall va', a0 <= va' < a0 + np * PGSIZE -> Z.land (view (k_mem s) T va') PTE_V = 0) ->
  wp (mappages pt va size pa perm) (fun r s' =>
    r = 0 /\ exists T' l', pt_rep (k_mem s') pt T' /\ T ⊆ T' /\
      (forall va', user_va va' ->
         view (k_mem s') T' va' =
           if (a0 <=? va') && (va' <? a0 + np * PGSIZE)
           then Z.lor (Z.lor (PA2PTE (pa + (PGROUNDDOWN va' - a0))) perm) PTE_V
           else view (k_mem s) T va') /\
      (exists used, l = used ++ l') /\ kmem_inv s' l' /\
      (forall q, ~ in_table T' q -> k_mem s' !! q = k_mem s !! q)) s.
Proof.
  intros a0 np He Hva Hsz Hmax HT Hal Hlen Hfr Hpa Hpm Hpx Hperm Hun.
  eapply (wp_mappages _ s pt T l 0); try done.
  - rewrite Nat.add_0_r. done.
  - intros s' T' l' G A _ V. split; [done|]. exists T', l'. destruct G.
    split_and!; [done..|apply A|done].
Qed.
End pagetable.

(** ** Examples: a table at [page_a], three free pages *)

Definition page_c : Z := PHYSTOP - 3 * PGSIZE.
Definition page_d : Z := PHYSTOP - 4 * PGSIZE.

Definition fresh_table : kstate :=
  bss <| k_freelist := page_b |>
      <| k_mem := <[page_a := zeros]> (chain [page_b; page_c; page_d]) |>.

Lemma bss_ok : kernel_ok bss.
Proof. split; [split; simpl; lia|done|apply Forall_replicate; vm_compute; by left|done|done]. Qed.

Lemma fresh_table_ok n : alloc_ok (H := small_machine) fresh_table [page_b; page_c; page_d] n.
Proof.
  split; [|done| |done].
  { apply (kernel_ok_same [Ffreelist; Fmem] bss); [frame_solve|done|apply bss_ok]. }
  split; [|pages].
  apply freelist_rep_ne; [apply (chain_rep (H := small_machine)); [done|pages..]|].
  apply (bool_decide_unpack _). vm_compute. exact I.
Qed.

Lemma fresh_table_rep : pt_rep (k_mem fresh_table) page_a {[ [] := page_a ]}.
Proof. apply empty_rep; [by vm_compute|done]. Qed.

Lemma uvmcreate_empty_witness :
  wp (uvmcreate) (fun pt s' =>
    pt = page_b /\ alloc_ok (H := small_machine) s' [page_c; page_d] 0 /\
    (exists T, pt_rep (k_mem s') pt T /\ forall va, view (k_mem s') T va = 0) /\
    (forall q, q <> pt -> k_mem s' !! q = k_mem fresh_table !! q)) fresh_table.
Proof. apply uvmcreate_empty; [done|apply fresh_table_ok]. Defined.

Lemma mappages_maps_witness :
  wp (mappages page_a 5 100 KERNBASE 22) (fun r s' =>
    r = 0 /\ exists T' l', pt_rep (k_mem s') page_a T' /\ {[ [] := page_a ]} ⊆ T' /\
      (forall va', user_va va' ->
         view (k_mem s') T' va' =
           if (0 <=? va') && (va' <? 0 + 1 * PGSIZE)
           then Z.lor (Z.lor (PA2PTE (KERNBASE + (PGROUNDDOWN va' - 0))) 22) PTE_V
           else view (k_mem fresh_table) {[ [] := page_a ]} va') /\
      (exists used, [page_b; page_c; page_d] = used ++ l') /\ kmem_inv (H := small_machine) s' l' /\
      (forall q, ~ in_table T' q -> k_mem s' !! q = k_mem fresh_table !! q)) fresh_table.
Proof.
  apply (mappages_maps (H := small_machine) fresh_table page_a {[ [] := page_a ]}
           [page_b; page_c; page_d] 5 100 KERNBASE 22); try done.
  - apply fresh_table_rep.
  - apply fresh_table_ok.
  - intros q Hq [path [_ <-]%lookup_singleton_Some]. revert Hq.
    apply (bool_decide_unpack _). by vm_compute.
  - intros. by rewrite empty_view.
Defined.
