(* ===== verification/Uvm.v ===== *)
(** User memory: [copyout], [copyin] and [walkaddr] of [vm.c] against the address
    space a page table gives a process.

    [ubyte mem T va] is the byte user code sees at [va].  [copyout] writes a
    byte string into that address space and changes nothing else; [copyin]
    reads it back. *)
From S2P Require Import Prelude Types Kstate Cstring Spinlock Frame Printf Accounting Kalloc Vm Pagetable.
From stdpp Require Import base numbers list gmap strings.
From Stdlib Require Import ZArith Lia.

Local Open Scope Z_scope.
Local Open Scope xv6_scope.

(** The page a user access to [va] goes to, 0 if it faults. *)
Definition upage (e : Z) : Z :=
  if Z.land e PTE_V =? 0 then 0 else if Z.land e PTE_U =? 0 then 0 else PTE2PA e.

Definition uaddr (mem : gmap Z (list Z)) (T : table) (va : Z) : Z := upage (view mem T va).

Definition ubyte (mem : gmap Z (list Z)) (T : table) (va : Z) : option Z :=
  if uaddr mem T va =? 0 then None
  else bs ← mem !! uaddr mem T va; bs !! Z.to_nat (va mod PGSIZE).

(** User pages are whole pages of their own, apart from the table. *)
Record vm_sep (mem : gmap Z (list Z)) (T : table) : Prop := {
  vs_page : forall va, user_va va -> uaddr mem T va <> 0 ->
    page_in mem (uaddr mem T va) /\ ~ in_table T (uaddr mem T va);
  vs_inj : forall va va', user_va va -> user_va va' -> uaddr mem T va <> 0 ->
    uaddr mem T va = uaddr mem T va' -> va / PGSIZE = va' / PGSIZE
}.

Section uvm.
Context `{Env}.

Lemma PTE2PA_mod e : PTE2PA e mod PGSIZE = 0.
Proof.
  unfold PTE2PA, u64, PGSIZE. rewrite Z.shiftl_mul_pow2 by lia.
  change (2 ^ 64) with (4096 * 2 ^ 52). change (2 ^ 12) with 4096.
  rewrite Z.mul_comm, Z.mul_mod_distr_l by lia. by rewrite Z.mul_comm, Z.mod_mul.
Qed.

Lemma upage_mod e : upage e mod PGSIZE = 0.
Proof. unfold upage. repeat case_match; [done..|]. apply PTE2PA_mod. Qed.

Lemma wp_walkaddr Q s pt T va :
  pt_rep (k_mem s) pt T -> user_va va -> Q (uaddr (k_mem s) T va) s -> wp (walkaddr pt va) Q s.
Proof.
  intros HT Hva HQ. unfold walkaddr. destruct Hva as [? Hmax].
  rewrite (proj2 (Z.leb_gt MAXVA va)) by done. kstep. eapply wp_walk; [done..|].
  unfold uaddr, view, pte_addr in *. destruct (T !! idx va) as [p0|] eqn:Hp0.
  - destruct (pr_page _ _ _ HT _ _ Hp0) as [Hg Hin]. pose proof (PX_range 0 va).
    rewrite (proj2 (Z.eqb_neq _ 0)) by (destruct Hg; lia). kstep. apply wp_read64; [done..|].
    unfold upage in HQ. destruct (Z.land _ PTE_V =? 0); [by kstep|].
    destruct (Z.land _ PTE_U =? 0); by kstep.
  - change (upage 0) with 0 in HQ. rewrite Z.eqb_refl. by kstep.
Qed.

(** A page outside the table may change at will. *)
Lemma pt_rep_data mem pt T q bs :
  pt_rep mem pt T -> ~ in_table T q -> length bs = Z.to_nat PGSIZE -> pt_rep (<[q := bs]> mem) pt T.
Proof.
  intros HT Hq Hl. split; try apply HT.
  - intros path p Hp. destruct (pr_page _ _ _ HT _ _ Hp). split; [done|]. by apply page_in_insert.
  - intros path p i Hp ??. rewrite entry_ne; [by eapply HT|]. intros ->. apply Hq. by exists path.
Qed.

Lemma view_data mem T q bs va : ~ in_table T q -> view (<[q := bs]> mem) T va = view mem T va.
Proof.
  intros Hq. unfold view. destruct (T !! idx va) as [p|] eqn:Hp; [|done].
  apply entry_ne. intros ->. apply Hq. by exists (idx va).
Qed.

Lemma uaddr_data mem T q bs va : ~ in_table T q -> uaddr (<[q := bs]> mem) T va = uaddr mem T va.
Proof. intros. unfold uaddr. by rewrite view_data. Qed.

Lemma vm_sep_data mem T q bs :
  vm_sep mem T -> ~ in_table T q -> length bs = Z.to_nat PGSIZE -> vm_sep (<[q := bs]> mem) T.
Proof.
  intros [Hp Hi] Hq Hl. split; intros *; rewrite !uaddr_data by done.
  - intros ??. destruct (Hp va) as [??]; [done..|]. split; [|done]. by apply page_in_insert.
  - apply Hi.
Qed.

Lemma view_page mem T va : view mem T (PGROUNDDOWN va) = view mem T va.
Proof. unfold view, idx. by rewrite !PX_page by lia. Qed.

Lemma uaddr_page mem T va va' : va / PGSIZE = va' / PGSIZE -> uaddr mem T va = uaddr mem T va'.
Proof.
  intros E. unfold uaddr. by rewrite <- (view_page _ _ va), <- (view_page _ _ va'), !PGROUNDDOWN_div, E.
Qed.

(** The effect on user memory of writing [new] at offset [off] of the page of [va0]. *)
Lemma ubyte_splice mem T va0 off new bs va :
  vm_sep mem T -> user_va va0 -> user_va va -> uaddr mem T va0 <> 0 -> va0 mod PGSIZE = 0 ->
  mem !! uaddr mem T va0 = Some bs -> length bs = Z.to_nat PGSIZE ->
  (off + length new <= Z.to_nat PGSIZE)%nat ->
  ubyte (<[uaddr mem T va0 := splice off new bs]> mem) T va =
    if decide (va0 + Z.of_nat off <= va < va0 + Z.of_nat off + Z.of_nat (length new))
    then new !! Z.to_nat (va - va0 - Z.of_nat off) else ubyte mem T va.
Proof.
  intros Hs Hv0 Hv H0 Hm Hbs Hlen Hoff. destruct (vs_page _ _ Hs va0 Hv0 H0) as [_ Hnt].
  unfold ubyte. rewrite uaddr_data by done.
  destruct (decide (uaddr mem T va = uaddr mem T va0)) as [Heq|Hne].
  - rewrite Heq, (proj2 (Z.eqb_neq _ 0)) by done. rewrite lookup_insert_eq, Hbs. simpl.
    assert (va / PGSIZE = va0 / PGSIZE) as Hpg by (apply (vs_inj _ _ Hs); congruence).
    assert (va = va0 + va mod PGSIZE) as Hva
      by (unfold PGSIZE in *; Z.to_euclidean_division_equations; lia).
    pose proof (Z.mod_pos_bound va PGSIZE ltac:(done)).
    rewrite lookup_splice by lia. unfold PGSIZE in *.
    destruct (decide (off <= Z.to_nat (va mod 4096) < off + length new)%nat), (decide (_ <= va < _));
      try lia; [|done]. f_equal. lia.
  - rewrite lookup_insert_ne by done. rewrite decide_False; [done|]. intros Hin. apply Hne.
    apply uaddr_page. unfold PGSIZE in *. Z.to_euclidean_division_equations; lia.
Qed.

(** ** [copyout] *)

(** User memory [s'] is that of [s] with [new] written at [dst]. *)
Record written (s s' : kstate) (pt : Z) (T : table) (dst : Z) (new : list Z) : Prop := {
  wr_frame : frame [Fmem] s s';
  wr_rep : pt_rep (k_mem s') pt T;
  wr_sep : vm_sep (k_mem s') T;
  wr_view : forall va, view (k_mem s') T va = view (k_mem s) T va;
  wr_bytes : forall va, user_va va ->
    ubyte (k_mem s') T va = if decide (dst <= va < dst + Z.of_nat (length new))
                            then new !! Z.to_nat (va - dst) else ubyte (k_mem s) T va;
  wr_other : forall q, (forall va, user_va va -> uaddr (k_mem s) T va <> q) -> k_mem s' !! q = k_mem s !! q
}.

Lemma written_nil s pt T dst : pt_rep (k_mem s) pt T -> vm_sep (k_mem s) T -> written s s pt T dst [].
Proof.
  intros HT Hs. split; try done. intros va Hva. rewrite decide_False; [done|]. simpl. lia.
Qed.

Lemma written_app s1 s2 s3 pt T dst new new' :
  written s1 s2 pt T dst new -> written s2 s3 pt T (dst + Z.of_nat (length new)) new' ->
  written s1 s3 pt T dst (new ++ new').
Proof.
  intros [F1 R1 S1 V1 B1 O1] [F2 R2 S2 V2 B2 O2]. split; try done.
  - by etrans.
  - intros va. by rewrite V2.
  - intros va Hva. rewrite B2, B1, length_app by done.
    destruct (decide (dst + _ <= va < _)), (decide (dst <= va < dst + Z.of_nat (_ + _))); try lia.
    + rewrite lookup_app_r by lia. f_equal. lia.
    + rewrite decide_True by lia. rewrite lookup_app_l by lia. done.
    + rewrite decide_False by lia. done.
  - intros q Hq. rewrite O2; [by apply O1|]. intros va Hva. unfold uaddr. rewrite V1. by apply Hq.
Qed.

(** Writing within one user page. *)
Lemma wp_write_user Q s pt T va0 off new :
  pt_rep (k_mem s) pt T -> vm_sep (k_mem s) T -> user_va va0 -> va0 mod PGSIZE = 0 ->
  uaddr (k_mem s) T va0 <> 0 -> 0 <= off -> off + Z.of_nat (length new) <= PGSIZE -> off < PGSIZE ->
  (forall s', written s s' pt T (va0 + off) new -> Q tt s') ->
  wp (write_phys (uaddr (k_mem s) T va0 + off) new) Q s.
Proof.
  intros HT Hs Hv0 Hm H0 Hoff Hlen Hlt HQ.
  destruct (vs_page _ _ Hs va0 Hv0 H0) as [(bs & Hbs & Hbl) Hnt].
  pose proof (upage_mod (view (k_mem s) T va0)) as Hum. fold (uaddr (k_mem s) T va0) in Hum.
  assert ((uaddr (k_mem s) T va0 + off) mod PGSIZE = off) as Hmod.
  { rewrite Zplus_mod, Hum, Z.add_0_l, Zmod_mod. apply Z.mod_small. lia. }
  assert (PGROUNDDOWN (uaddr (k_mem s) T va0 + off) = uaddr (k_mem s) T va0) as Hpd.
  { rewrite PGROUNDDOWN_eq, Hmod. lia. }
  unfold write_phys. rewrite Hpd, Hmod. kstep.
  rewrite bool_decide_eq_true_2 by (rewrite Hbl; lia). kstep. apply HQ.
  assert (length (splice (Z.to_nat off) new bs) = Z.to_nat PGSIZE) by (rewrite length_splice; rewrite Hbl; lia).
  split; kfields.
  - frame_solve.
  - by apply pt_rep_data.
  - by apply vm_sep_data.
  - intros va. by apply view_data.
  - intros va Hva. rewrite ubyte_splice by (try done; lia).
    rewrite !Z2Nat.id by lia. case_decide; [|done]. f_equal. lia.
  - intros q Hq. rewrite lookup_insert_ne; [done|]. by apply Hq.
Qed.

Lemma copy_step dst len : 0 < len ->
  let va0 := PGROUNDDOWN dst in let n := Z.min (PGSIZE - (dst - va0)) len in
  0 < n <= len /\ 0 <= dst - va0 < PGSIZE /\ (dst - va0) + n <= PGSIZE /\
  (n < len -> va0 + PGSIZE = dst + n).
Proof. intros Hl va0 n. pose proof (PGROUNDDOWN_bounds dst). unfold va0, n, PGSIZE in *. lia. Qed.

Lemma wp_copyout Q s pt T dst src len :
  pt_rep (k_mem s) pt T -> vm_sep (k_mem s) T -> 0 <= dst -> 0 <= len -> dst + len <= MAXVA ->
  (Z.to_nat len <= length src)%nat ->
  (forall va, dst <= va < dst + len -> uaddr (k_mem s) T va <> 0) ->
  (forall s', written s s' pt T dst (take (Z.to_nat len) src) -> Q 0 s') ->
  wp (copyout pt dst src len) Q s.
Proof.
  intros HT Hs Hd Hl Hmax Hsrc Hmap HQ. unfold copyout.
  apply (wp_kloop (fun '(d, sr, ln) s' => 0 <= ln <= len /\ (0 < ln -> d = dst + (len - ln)) /\
    sr = drop (Z.to_nat (len - ln)) src /\ written s s' pt T dst (take (Z.to_nat (len - ln)) src))
    (fun '(_, _, ln) => Z.to_nat ln)).
  - rewrite Z.sub_diag. split_and!; try lia; [done|]. by apply written_nil.
  - lia.
  - intros [[d sr] ln] s1 (Hln & Hdd & -> & W1). destruct (Z.ltb_spec 0 ln) as [Hpos|Hz]; kstep.
    + specialize (Hdd Hpos). pose proof (copy_step d ln Hpos) as Hst. cbv zeta in Hst.
      set (va0 := PGROUNDDOWN d) in *. set (n := Z.min (PGSIZE - (d - va0)) ln) in *.
      destruct Hst as (Hn & Hoff & Hfit & Hnext). pose proof W1 as [F1 R1 S1 V1 B1 O1].
      assert (user_va va0) as Hv0.
      { unfold user_va, va0 in *. rewrite PGROUNDDOWN_div in *.
        pose proof (Z.div_pos d PGSIZE). unfold PGSIZE in *. lia. }
      assert (uaddr (k_mem s1) T va0 <> 0) as Hu.
      { unfold uaddr, va0. rewrite V1, view_page. apply Hmap. lia. }
      apply (wp_walkaddr _ _ _ T); [done..|]. rewrite (proj2 (Z.eqb_neq _ 0)) by done.
      rewrite bool_decide_eq_true_2 by (rewrite length_drop; lia). kstep.
      apply (wp_write_user _ s1 pt); try done; try lia.
      { apply PGROUNDDOWN_mod. }
      { rewrite length_take, length_drop. lia. }
      intros s2 W2. kstep. split; [|lia].
      assert (take (Z.to_nat (len - (ln - n))) src =
              take (Z.to_nat (len - ln)) src ++ take (Z.to_nat n) (drop (Z.to_nat (len - ln)) src)) as Htk.
      { rewrite take_take_drop. f_equal. lia. }
      split_and!; [lia|lia| | |].
      * intros Hrest. rewrite u64_small; [lia|]. unfold user_va in *. consts. lia.
      * rewrite drop_drop. f_equal. lia.
      * rewrite Htk. eapply written_app; [done|].
        replace (dst + _) with (va0 + (d - va0)); [done|]. rewrite length_take. lia.
    + apply HQ. by replace (len - ln) with len in W1 by lia.
Qed.

(** ** [copyin] and [copyinstr] *)

(** [bs] are the user bytes from [va] on. *)
Definition user_bytes (mem : gmap Z (list Z)) (T : table) (va : Z) (bs : list Z) : Prop :=
  forall i, (i < length bs)%nat -> bs !! i = ubyte mem T (va + Z.of_nat i).

Lemma user_bytes_app mem T va bs bs' :
  user_bytes mem T va bs -> user_bytes mem T (va + Z.of_nat (length bs)) bs' ->
  user_bytes mem T va (bs ++ bs').
Proof.
  intros H1 H2 i Hi. rewrite length_app in Hi. destruct (decide (i < length bs)%nat).
  - rewrite lookup_app_l by done. auto.
  - rewrite lookup_app_r, H2 by lia. f_equal. lia.
Qed.

(** Of two byte strings at the same address, the shorter is the start of the longer. *)
Lemma user_bytes_prefix mem T va bs bs' :
  user_bytes mem T va bs -> user_bytes mem T va bs' -> (length bs <= length bs')%nat ->
  bs = take (length bs) bs'.
Proof.
  intros H1 H2 Hl. apply list_eq. intros i. destruct (decide (i < length bs)%nat).
  - rewrite lookup_take_lt, H1, H2 by lia. done.
  - rewrite lookup_take_ge by lia. apply lookup_ge_None_2. lia.
Qed.

Lemma user_bytes_unique mem T va bs bs' :
  user_bytes mem T va bs -> user_bytes mem T va bs' -> length bs = length bs' -> bs = bs'.
Proof.
  intros H1 H2 Hl. apply list_eq. intros i. destruct (decide (i < length bs)%nat).
  - rewrite H1, H2 by lia. done.
  - rewrite !lookup_ge_None_2 by lia. done.
Qed.

Lemma wp_read_user Q s T va0 off n :
  vm_sep (k_mem s) T -> user_va va0 -> va0 mod PGSIZE = 0 ->
  uaddr (k_mem s) T va0 <> 0 -> 0 <= off < PGSIZE -> off + Z.of_nat n <= PGSIZE ->
  (forall bs, length bs = n -> user_bytes (k_mem s) T (va0 + off) bs -> Q bs s) ->
  wp (read_phys (uaddr (k_mem s) T va0 + off) n) Q s.
Proof.
  intros Hs Hv0 Hm H0 Hoff Hn HQ.
  destruct (vs_page _ _ Hs va0 Hv0 H0) as [(bs & Hbs & Hbl) Hnt].
  pose proof (upage_mod (view (k_mem s) T va0)) as Hum. fold (uaddr (k_mem s) T va0) in Hum.
  assert ((uaddr (k_mem s) T va0 + off) mod PGSIZE = off) as Hmod.
  { rewrite Zplus_mod, Hum, Z.add_0_l, Zmod_mod. apply Z.mod_small. lia. }
  assert (PGROUNDDOWN (uaddr (k_mem s) T va0 + off) = uaddr (k_mem s) T va0) as Hpd.
  { rewrite PGROUNDDOWN_eq, Hmod. lia. }
  unfold read_phys. rewrite Hpd, Hmod. kstep.
  rewrite bool_decide_eq_true_2 by (rewrite Hbl; lia). kstep. apply HQ.
  - rewrite length_slice; [done|]. rewrite Hbl. lia.
  - intros i Hi. rewrite length_slice in Hi by (rewrite Hbl; lia). rewrite lookup_slice by done.
    unfold ubyte. rewrite (uaddr_page _ _ (va0 + off + Z.of_nat i) va0)
      by (unfold PGSIZE in *; Z.to_euclidean_division_equations; lia).
    rewrite (proj2 (Z.eqb_neq _ 0)) by done. rewrite Hbs. simpl. f_equal.
    unfold PGSIZE in *. Z.to_euclidean_division_equations; lia.
Qed.

Section copy_turn.
Context (s : kstate) (pt : Z) (T : table).
Hypothesis HT : pt_rep (k_mem s) pt T.
Hypothesis Hs : vm_sep (k_mem s) T.

(** One turn of the loops of [copyin] and [copyinstr]: the rest of the page is read, or the
    page is not there. *)
Lemma wp_copy_turn {B} (k : list Z -> K B) (kerr : K B) Q srcva len :
  0 <= srcva -> 0 < len -> srcva < MAXVA ->
  let va0 := PGROUNDDOWN srcva in
  let n := Z.min (PGSIZE - (srcva - va0)) len in
  (uaddr (k_mem s) T srcva = 0 -> wp kerr Q s) ->
  (uaddr (k_mem s) T srcva <> 0 -> forall bs, length bs = Z.to_nat n ->
     user_bytes (k_mem s) T srcva bs -> wp (k bs) Q s) ->
  wp (pa0 ← walkaddr pt va0;
      if pa0 =? 0 then kerr else bytes ← read_phys (pa0 + (srcva - va0)) (Z.to_nat n); k bytes) Q s.
Proof.
  intros Hsrc Hpos Hmax va0 n Herr Hk. pose proof (copy_step srcva len Hpos) as Hst.
  cbv zeta in Hst. fold va0 in Hst. fold n in Hst. destruct Hst as (Hn & Hoff & Hfit & Hnext).
  assert (user_va va0) as Hv0.
  { unfold user_va, va0 in *. rewrite PGROUNDDOWN_div in *.
    pose proof (Z.div_pos srcva PGSIZE). unfold PGSIZE in *. lia. }
  assert (uaddr (k_mem s) T va0 = uaddr (k_mem s) T srcva) as Hu
    by (unfold uaddr, va0; by rewrite view_page).
  kstep. apply (wp_walkaddr _ _ _ T); [done..|]. destruct (Z.eqb_spec (uaddr (k_mem s) T va0) 0).
  - apply Herr. congruence.
  - kstep. apply wp_read_user; try done; try lia; [apply PGROUNDDOWN_mod|].
    intros bs Hl Hub. apply Hk; [congruence|done|]. by replace (va0 + (srcva - va0)) with srcva in Hub by lia.
Qed.
End copy_turn.

Lemma wp_copyin Q s pt T src len :
  pt_rep (k_mem s) pt T -> vm_sep (k_mem s) T -> 0 <= src -> 0 <= len -> src + len <= MAXVA ->
  (forall va, src <= va < src + len -> uaddr (k_mem s) T va <> 0) ->
  (forall bs, length bs = Z.to_nat len -> user_bytes (k_mem s) T src bs -> Q (0, bs) s) ->
  wp (copyin pt src len) Q s.
Proof.
  intros HT Hs Hd Hl Hmax Hmap HQ. unfold copyin.
  apply (wp_kloop (fun '(acc, d, ln) s' => s' = s /\ 0 <= ln <= len /\ (0 < ln -> d = src + (len - ln)) /\
    length acc = Z.to_nat (len - ln) /\ user_bytes (k_mem s) T src acc)
    (fun '(_, _, ln) => Z.to_nat ln)).
  - split_and!; try lia; [done|simpl; lia|]. intros i Hi. simpl in Hi. lia.
  - lia.
  - intros [[acc d] ln] s1 (-> & Hln & Hdd & Hal & Hub). destruct (Z.ltb_spec 0 ln) as [Hpos|Hz].
    + specialize (Hdd Hpos). eapply (wp_copy_turn s pt T HT Hs (fun bytes => mret (inl (acc ++ bytes, _, _)))).
      * lia.
      * done.
      * lia.
      * intros E. exfalso. apply (Hmap d); [lia|done].
      * intros _ bs Hbl Hbs. pose proof (copy_step d ln Hpos) as (Hn & Hoff & Hfit & Hnext). kstep.
        split; [|lia]. split_and!; try lia; [done| | |].
        -- intros Hrest. rewrite u64_small; [lia|]. consts. lia.
        -- rewrite length_app. lia.
        -- apply user_bytes_app; [done|]. by replace (src + _) with d by lia.
    + kstep. replace ln with 0 in Hal by lia. rewrite Z.sub_0_r in Hal. by apply HQ.
Qed.

(** The copy stops at the first page that is not mapped for the user. *)
Lemma wp_copyin_fault Q s pt T src len bad :
  pt_rep (k_mem s) pt T -> vm_sep (k_mem s) T -> 0 <= src -> 0 <= len -> src + len <= MAXVA ->
  src <= bad < src + len -> uaddr (k_mem s) T bad = 0 ->
  (forall bs, user_bytes (k_mem s) T src bs -> Q (-1, bs) s) ->
  wp (copyin pt src len) Q s.
Proof.
  intros HT Hs Hd Hl Hmax Hbad Hu HQ. unfold copyin.
  apply (wp_kloop (fun '(acc, d, ln) s' => s' = s /\ 0 <= ln <= len /\ d = src + (len - ln) /\ d <= bad /\
    length acc = Z.to_nat (len - ln) /\ user_bytes (k_mem s) T src acc)
    (fun '(_, _, ln) => Z.to_nat ln)).
  - split_and!; try lia; [done|simpl; lia|]. intros i Hi. simpl in Hi. lia.
  - lia.
  - intros [[acc d] ln] s1 (-> & Hln & Hdd & Hdb & Hal & Hub).
    destruct (Z.ltb_spec 0 ln) as [Hpos|Hz]; [|lia].
    eapply (wp_copy_turn s pt T HT Hs (fun bytes => mret (inl (acc ++ bytes, _, _)))).
    * lia.
    * done.
    * lia.
    * intros _. kstep. by apply HQ.
    * intros Hmap bs Hbl Hbs. pose proof (copy_step d ln Hpos) as (Hn & Hoff & Hfit & Hnext). kstep.
      assert (d / PGSIZE <> bad / PGSIZE) by (intros E; apply Hmap; by rewrite (uaddr_page _ _ _ _ E)).
      pose proof (PGROUNDDOWN_div d). 
      assert (PGROUNDDOWN d + PGSIZE <= bad)
        by (unfold PGSIZE in *; Z.to_euclidean_division_equations; lia).
      rewrite u64_small by (consts; lia).
      split; [|lia]. split_and!; try lia; [done| |].
      -- rewrite length_app. lia.
      -- apply user_bytes_app; [done|]. by replace (src + _) with d by lia.
Qed.

Lemma copy_until_nul_no bs : Forall (fun b => b <> 0) bs -> copy_until_nul bs = (bs, false).
Proof.
  induction 1 as [|b bs Hb _ IH]; simpl; [done|]. rewrite (proj2 (Z.eqb_neq b 0)) by done. by rewrite IH.
Qed.

Lemma copy_until_nul_yes bs rest :
  Forall (fun b => b <> 0) bs -> copy_until_nul (bs ++ 0 :: rest) = (bs ++ [0], true).
Proof.
  induction 1 as [|b bs Hb _ IH]; simpl; [done|]. rewrite (proj2 (Z.eqb_neq b 0)) by done. by rewrite IH.
Qed.

Lemma user_bytes_drop mem T va bs bs' :
  user_bytes mem T va (bs ++ bs') -> user_bytes mem T (va + Z.of_nat (length bs)) bs'.
Proof.
  intros Hub i Hi. specialize (Hub (length bs + i)%nat). rewrite lookup_app_r in Hub by lia.
  replace (length bs + i - length bs)%nat with i in Hub by lia.
  rewrite Hub by (rewrite length_app; lia). f_equal. lia.
Qed.

(** Bytes read at the address of a NUL-terminated string: a part of it, or all of it. *)
Lemma user_bytes_string mem T va str bs :
  user_bytes mem T va (str ++ [0]) -> user_bytes mem T va bs ->
  ((length bs <= length str)%nat /\ bs = take (length bs) str) \/ (exists tl, bs = str ++ 0 :: tl).
Proof.
  intros H1 H2. destruct (decide (length bs <= length str)%nat) as [Hle|Hgt].
  - left. split; [done|]. rewrite <- (take_app_le str [0]) by done.
    by apply (user_bytes_prefix mem T va); [..|rewrite length_app; lia].
  - right. exists (drop (length (str ++ [0])) bs).
    rewrite (cons_middle 0), app_assoc.
    rewrite (user_bytes_prefix mem T va (str ++ [0]) bs) at 1; [|done..|rewrite length_app; simpl; lia].
    by rewrite take_drop.
Qed.

(** The user string [str], which ends within [max] bytes, is copied with its NUL. *)
Lemma wp_copyinstr Q s pt T src max str :
  pt_rep (k_mem s) pt T -> vm_sep (k_mem s) T -> 0 <= src -> src + max <= MAXVA ->
  user_bytes (k_mem s) T src (str ++ [0]) -> Forall (fun b => b <> 0) str ->
  Z.of_nat (length str) < max ->
  (forall va, src <= va <= src + Z.of_nat (length str) -> uaddr (k_mem s) T va <> 0) ->
  Q (0, str ++ [0]) s -> wp (copyinstr pt src max) Q s.
Proof.
  intros HT Hs Hd Hmax Hub Hnz Hlen Hmap HQ. unfold copyinstr.
  apply (wp_kloop (fun '(acc, d, ln) s' => s' = s /\ 0 < ln <= max /\ d = src + (max - ln) /\
    exists rest, str = acc ++ rest /\ length acc = Z.to_nat (max - ln))
    (fun '(_, _, ln) => Z.to_nat ln)).
  - split_and!; try lia; [done|]. exists str. split; [done|simpl; lia].
  - lia.
  - intros [[acc d] ln] s1 (-> & Hln & Hdd & rest & Hstr & Hal).
    rewrite (proj2 (Z.ltb_lt 0 ln)) by lia.
    assert (length str = length acc + length rest)%nat as Hls by (by rewrite Hstr, length_app).
    eapply (wp_copy_turn s pt T HT Hs (fun bytes => let '(got, nul) := copy_until_nul bytes in _)); try lia.
    + intros E. exfalso. apply (Hmap d); [lia|done].
    + intros _ bs Hbl Hbs. pose proof (copy_step d ln ltac:(lia)) as (Hn & Hoff & Hfit & Hnext).
      set (n := Z.min _ ln) in *.
      assert (user_bytes (k_mem s) T d (rest ++ [0])) as Hrest.
      { rewrite Hdd. replace (max - ln) with (Z.of_nat (length acc)) by lia.
        apply (user_bytes_drop _ _ _ acc). by rewrite app_assoc, <- Hstr. }
      destruct (user_bytes_string _ _ _ _ _ Hrest Hbs) as [[Hle Hbs']|[tl ->]].
      * rewrite copy_until_nul_no.
        2:{ rewrite Hbs'. apply Forall_take. rewrite Hstr in Hnz. by apply Forall_app in Hnz as [_ ?]. }
        kstep. split; [|lia]. rewrite u64_small by (consts; lia). split_and!; try lia; [done|].
        exists (drop (length bs) rest). split; [|rewrite length_app; lia].
        rewrite Hstr, <- app_assoc. f_equal. rewrite Hbs' at 1. by rewrite take_drop.
      * rewrite copy_until_nul_yes by (rewrite Hstr in Hnz; by apply Forall_app in Hnz as [_ ?]).
        kstep. by rewrite app_assoc, <- Hstr.
Qed.

(** ** What copying guarantees *)

(** C35. [copyout] of [len] bytes to user addresses that are all mapped for the user returns 0; the user
    sees exactly those bytes at [dstva], every other byte of the user's memory is unchanged, every
    address is mapped as before, and no page that is not the user's changes. *)
Theorem copyout_writes (s : kstate) (pt : Z) (T : table) (dstva : Z) (src : list Z) (len : Z) :
  pt_rep (k_mem s) pt T -> vm_sep (k_mem s) T -> 0 <= dstva -> 0 <= len -> dstva + len <= MAXVA ->
  (Z.to_nat len <= length src)%nat ->
  (forall va, dstva <= va < dstva + len -> uaddr (k_mem s) T va <> 0) ->
  wp (copyout pt dstva src len) (fun r s' =>
    r = 0 /\ frame [Fmem] s s' /\
    (forall va, user_va va ->
       ubyte (k_mem s') T va = if decide (dstva <= va < dstva + len) then src !! Z.to_nat (va - dstva)
                               else ubyte (k_mem s) T va) /\
    (forall va, view (k_mem s') T va = view (k_mem s) T va) /\
    (forall q, (forall va, user_va va -> uaddr (k_mem s) T va <> q) -> k_mem s' !! q = k_mem s !! q)) s.
Proof.
  intros HT Hs Hd Hl Hmax Hsrc Hmap. eapply wp_copyout; [done..|]. intros s' [F R S V B O].
  split_and!; [done..| |done|done]. intros va Hva.
  rewrite B by done. rewrite length_take, Nat.min_l, Z2Nat.id by lia.
  case_decide; [|done]. rewrite lookup_take_lt by lia. done.
Qed.

(** C29. Bytes that [copyout] put into user memory are the bytes [copyin] reads back. *)
Theorem copyout_copyin (s : kstate) (pt : Z) (T : table) (va : Z) (src : list Z) (len : Z) :
  pt_rep (k_mem s) pt T -> vm_sep (k_mem s) T -> 0 <= va -> 0 <= len -> va + len <= MAXVA ->
  (Z.to_nat len <= length src)%nat ->
  (forall a, va <= a < va + len -> uaddr (k_mem s) T a <> 0) ->
  wp (r ← copyout pt va src len; x ← copyin pt va len; mret (r, x))
     (fun v _ => v = (0, (0, take (Z.to_nat len) src))) s.
Proof.
  intros HT Hs Hd Hl Hmax Hsrc Hmap. kstep. eapply wp_copyout; [done..|]. intros s' [F R S V B O].
  kstep. eapply wp_copyin; [done..| |].
  - intros a Ha. unfold uaddr. rewrite V. by apply Hmap.
  - intros bs Hbl Hbs. kstep. do 2 f_equal. apply list_eq. intros i.
    destruct (decide (i < Z.to_nat len)%nat).
    + rewrite Hbs by lia. rewrite B by (unfold user_va; lia). rewrite length_take, Nat.min_l by lia.
      rewrite decide_True by lia. f_equal. lia.
    + rewrite lookup_ge_None_2, lookup_take_ge by lia. done.
Qed.

(** [copyin] from a range with an unmapped (or kernel-only) page returns -1, having read only
    bytes of the user's own memory, and changes nothing. *)
Theorem copyin_unmapped (s : kstate) (pt : Z) (T : table) (src len bad : Z) :
  pt_rep (k_mem s) pt T -> vm_sep (k_mem s) T -> 0 <= src -> 0 <= len -> src + len <= MAXVA ->
  src <= bad < src + len -> uaddr (k_mem s) T bad = 0 ->
  wp (copyin pt src len) (fun x s' => x.1 = -1 /\ user_bytes (k_mem s) T src x.2 /\ s' = s) s.
Proof. intros. eapply wp_copyin_fault; done. Qed.

(** [copyinstr] of a NUL-terminated user string that ends within [max] bytes returns 0 and the
    string with its NUL, and nothing after it. *)
Theorem copyinstr_string (s : kstate) (pt : Z) (T : table) (src max : Z) (str : list Z) :
  pt_rep (k_mem s) pt T -> vm_sep (k_mem s) T -> 0 <= src -> src + max <= MAXVA ->
  user_bytes (k_mem s) T src (str ++ [0]) -> Forall (fun b => b <> 0) str ->
  Z.of_nat (length str) < max ->
  (forall va, src <= va <= src + Z.of_nat (length str) -> uaddr (k_mem s) T va <> 0) ->
  wp (copyinstr pt src max) (fun x s' => x = (0, str ++ [0]) /\ s' = s) s.
Proof. intros. by eapply wp_copyinstr. Qed.
End uvm.

(** ** Examples: one user page, [page_d], mapped at address 0 *)

Definition mem_0 : gmap Z (list Z) := <[page_a := zeros]> ∅.
Definition mem_1 : gmap Z (list Z) := extend_mem mem_0 page_a 0 page_b zeros.
Definition mem_2 : gmap Z (list Z) := extend_mem mem_1 page_b 0 page_c zeros.
Definition mem_3 : gmap Z (list Z) := leaf_mem mem_2 0 page_c (Z.lor (PA2PTE page_d) 31) zeros.
Definition one_page : kstate := bss <| k_mem := <[page_d := lit "hi" ++ replicate 4093 7]> mem_3 |>.
Definition tree : table := <[ [0; 0] := page_c ]> (<[ [0] := page_b ]> {[ [] := page_a ]}).

Lemma page_d_apart : ~ in_table tree page_d.
Proof.
  intros [path E]. unfold tree in E.
  rewrite !lookup_insert_Some, lookup_singleton_Some in E.
  destruct E as [[_ E]|[_ [[_ E]|[_ [_ E]]]]]; by vm_compute in E.
Qed.

Lemma mem_2_rep : pt_rep mem_2 page_a tree /\ forall va, view mem_2 tree va = 0.
Proof.
  assert (forall p q : Z, p <> q -> ~ in_table {[ [] := p ]} q) as H0.
  { intros p q ? [path [_ E]%lookup_singleton_Some]. done. }
  assert (pt_rep mem_0 page_a {[ [] := page_a ]}) as R0 by (apply empty_rep; [by vm_compute|done]).
  assert (pt_rep mem_1 page_a (<[ [0] := page_b ]> {[ [] := page_a ]}) /\
          forall va, view mem_1 (<[ [0] := page_b ]> {[ [] := page_a ]}) va = 0) as [R1 V1].
  { split; [apply (extend_rep mem_0 page_a {[ [] := page_a ]} [] page_a 0 page_b zeros); try done|].
    - simpl; lia.
    - by apply H0.
    - intros va. rewrite (extend_view mem_0 page_a {[ [] := page_a ]} [] page_a 0 page_b zeros); try done.
      + apply empty_view.
      + simpl; lia.
      + by apply H0. }
  assert (~ in_table (<[ [0] := page_b ]> {[ [] := page_a ]}) page_c) as H1.
  { intros [path E]. rewrite lookup_insert_Some, lookup_singleton_Some in E.
    destruct E as [[_ E]|[_ [_ E]]]; by vm_compute in E. }
  split; [apply (extend_rep mem_1 page_a (<[ [0] := page_b ]> {[ [] := page_a ]}) [0] page_b 0 page_c zeros); try done; simpl; lia|].
  intros va. unfold tree.
  rewrite (extend_view mem_1 page_a (<[ [0] := page_b ]> {[ [] := page_a ]}) [0] page_b 0 page_c zeros);
    try done; simpl; lia.
Qed.

Lemma one_page_rep : pt_rep (k_mem one_page) page_a tree /\
  forall va, user_va va ->
    view (k_mem one_page) tree va = if decide (va / PGSIZE = 0) then Z.lor (PA2PTE page_d) 31 else 0.
Proof.
  destruct mem_2_rep as [R2 V2]. pose proof page_d_apart as Hd. split.
  - apply pt_rep_data; [|done|by vm_compute]. by apply leaf_rep.
  - intros va Hva. unfold one_page. kfields. rewrite view_data by done.
    unfold mem_3. erewrite leaf_view; [|done..|done|done]. by rewrite V2.
Qed.

Lemma one_page_uaddr va : user_va va ->
  uaddr (k_mem one_page) tree va = if decide (va / PGSIZE = 0) then page_d else 0.
Proof. intros Hva. unfold uaddr. rewrite (proj2 one_page_rep) by done. by case_decide. Qed.

Lemma one_page_sep : vm_sep (k_mem one_page) tree.
Proof.
  split.
  - intros va Hva. rewrite one_page_uaddr by done. case_decide; [|done]. intros _.
    split; [|apply page_d_apart]. eexists. split; [reflexivity|by vm_compute].
  - intros va va' Hva Hva'. rewrite !one_page_uaddr by done. repeat case_decide; congruence || done.
Qed.

Lemma one_page_mapped va : 0 <= va < 4096 -> uaddr (k_mem one_page) tree va <> 0.
Proof.
  intros. rewrite one_page_uaddr by (unfold user_va; consts; lia).
  rewrite decide_True; [done|]. by apply Z.div_small.
Qed.

Lemma copyout_writes_witness :
  wp (copyout page_a 100 [1; 2; 3] 3) (fun r s' =>
    r = 0 /\ frame [Fmem] one_page s' /\
    (forall va, user_va va ->
       ubyte (k_mem s') tree va = if decide (100 <= va < 100 + 3) then [1; 2; 3] !! Z.to_nat (va - 100)
                                  else ubyte (k_mem one_page) tree va) /\
    (forall va, view (k_mem s') tree va = view (k_mem one_page) tree va) /\
    (forall q, (forall va, user_va va -> uaddr (k_mem one_page) tree va <> q) ->
               k_mem s' !! q = k_mem one_page !! q)) one_page.
Proof.
  apply copyout_writes; try done; [apply one_page_rep|apply one_page_sep|].
  intros. apply one_page_mapped. lia.
Defined.

Lemma copyout_copyin_witness :
  wp (r ← copyout page_a 100 [1; 2; 3] 3; x ← copyin page_a 100 3; mret (r, x))
     (fun v _ => v = (0, (0, take (Z.to_nat 3) [1; 2; 3]))) one_page.
Proof.
  apply (copyout_copyin one_page page_a tree); try done; [apply one_page_rep|apply one_page_sep|].
  intros. apply one_page_mapped. lia.
Defined.

Lemma copyin_unmapped_witness :
  wp (copyin page_a 4000 200) (fun x s' => x.1 = -1 /\ user_bytes (k_mem one_page) tree 4000 x.2 /\
                                          s' = one_page) one_page.
Proof.
  apply (copyin_unmapped one_page page_a tree 4000 200 4100); try done; [apply one_page_rep|apply one_page_sep].
Defined.

Lemma copyinstr_string_witness :
  wp (copyinstr page_a 0 10) (fun x s' => x = (0, [104; 105] ++ [0]) /\ s' = one_page) one_page.
Proof.
  apply (copyinstr_string one_page page_a tree 0 10 [104; 105]); try done.
  - apply one_page_rep.
  - apply one_page_sep.
  - intros i Hi. simpl in Hi. destruct i as [|[|[|]]]; [by vm_compute..|lia].
  - by repeat constructor.
  - intros. apply one_page_mapped. simpl in *. lia.
Defined.
