(* ===== verification/Proc.v ===== *)
(** The process table of [kernel/proc.c]: allocation and freeing of processes,
    their page tables, context switches, sleep and wakeup, kill, and the
    container-wide operations that [container.c] uses.  What needs the file
    system ([fork], [exit], [wait], suspend and resume) is in a later file.

    [swtch] hands the processor over: [env_swtch] gives the state in which the
    thread continues.  A thread that is never switched back to stops, for the
    reason its process state tells. *)
From S2P Require Import Prelude Types Kstate Cstring Spinlock Frame Printf Accounting Kalloc Vm.
From stdpp Require Import base numbers list gmap strings.
From Stdlib Require Import ZArith Lia.

Local Open Scope Z_scope.
Local Open Scope xv6_scope.

Section proc_c.
Context `{Env}.

(** ** Initialisation and identifiers *)

(** Turning paging on ([kvminithart]) has no counterpart in the model. *)
Definition procinit : K unit :=
  initlock LPid;;
  kfor (seq 0 NPROC) (fun i =>
    initlock (LProc i);;
    pa ← kalloc;
    (if pa =? 0 then panic "kalloc" else mret tt);;
    let va := KSTACK (Z.of_nat i) in
    kvmmap va pa PGSIZE (Z.lor PTE_R PTE_W);;
    upd_proc i (set p_kstack (fun _ => va))).

Definition allocpid : K Z :=
  acquire LPid;;
  pid ← gets k_nextpid;
  modify (set k_nextpid (fun n => i32 (n + 1)));;
  release LPid;;
  mret pid.

Definition acquirecidlock : K unit := acquire LCid.
Definition releasecidlock : K unit := release LCid.

Definition alloclocalpid (c : nat) : K Z :=
  acquirecidlock;;
  cont ← get_cont c;
  upd_cont c (set c_nextlocalpid (fun n => i32 (n + 1)));;
  releasecidlock;;
  mret (c_nextlocalpid cont).

(** ** Page tables of processes *)

Definition proc_pagetable (i : nat) : K Z :=
  pagetable ← uvmcreate;
  mappages pagetable TRAMPOLINE PGSIZE sym_trampoline (Z.lor PTE_R PTE_X);;
  p ← get_proc i;
  mappages pagetable TRAPFRAME PGSIZE (p_tf p) (Z.lor PTE_R PTE_W);;
  mret pagetable.

Definition proc_freepagetable (pagetable sz : Z) : K unit :=
  uvmunmap pagetable TRAMPOLINE PGSIZE false;;
  uvmunmap pagetable TRAPFRAME PGSIZE false;;
  when (0 <? sz) (uvmfree pagetable sz).

(** ** Allocating and freeing a process *)

(** The first loop of [allocproc]: an unused entry, returned with its lock held. *)
Definition find_unused : K (option nat) :=
  kfind (seq 0 NPROC) (fun i =>
    acquire (LProc i);;
    p ← get_proc i;
    if bool_decide (p_state p = UNUSED) then mret (Some i)
    else release (LProc i);; mret None).

Definition allocproc (c : nat) : K (option nat) :=
  r ← find_unused;
  match r with
  | None => mret None
  | Some i =>
    pid ← allocpid;
    upd_proc i (set p_pid (fun _ => pid));;
    cont ← get_cont c;
    lpid ← (if negb (c_isroot cont =? 0) then mret pid else alloclocalpid c);
    upd_proc i (set p_local_pid (fun _ => lpid));;
    upd_proc i (set p_cont (fun _ => Some c));;
    tf ← kalloc;
    upd_proc i (set p_tf (fun _ => tf));;
    if tf =? 0 then release (LProc i);; mret None
    else
      pagetable ← proc_pagetable i;
      upd_proc i (set p_pagetable (fun _ => pagetable));;
      if pagetable =? 0 then mret None
      else
        p ← get_proc i;
        upd_proc i (set p_context (fun _ =>
          mkcontext sym_forkret (u64 (p_kstack p + PGSIZE)) (replicate 12 0)));;
        mret (Some i)
  end.

Definition freeproc (i : nat) : K unit :=
  p ← get_proc i;
  when (negb (p_tf p =? 0)) (kfree (p_tf p));;
  upd_proc i (set p_tf (fun _ => 0));;
  p ← get_proc i;
  when (negb (p_pagetable p =? 0)) (proc_freepagetable (p_pagetable p) (p_sz p));;
  upd_proc i (fun p =>
    p <| p_pagetable := 0 |> <| p_sz := 0 |> <| p_pid := 0 |> <| p_parent := None |>
      <| p_name ::= <[0%nat := 0]> |> <| p_chan := CNone |> <| p_killed := 0 |>
      <| p_xstate := 0 |> <| p_state := UNUSED |>);;
  p ← get_proc i;
  updatecontproc (-1) (p_cont p);;
  upd_proc i (fun p => p <| p_cont := None |> <| p_tracing := 0 |>).

(** [sz] is a [uint]. *)
Definition growproc (n : Z) : K Z :=
  i ← curproc;
  p ← get_proc i;
  let sz := u32 (p_sz p) in
  r ← (if 0 <? n then
         r ← uvmalloc (p_pagetable p) sz (u32 (sz + n));
         if u32 r =? 0 then mret None else mret (Some (u32 r))
       else if n <? 0 then
         r ← uvmdealloc (p_pagetable p) sz (u32 (sz + n)); mret (Some (u32 r))
       else mret (Some sz));
  match r with
  | None => mret (-1)
  | Some sz => upd_proc i (set p_sz (fun _ => sz));; mret 0
  end.

(** ** Switching, sleeping and waking *)

Definition switch_reason (s : kstate) : reason :=
  match ht_proc (k_hart s) ≫= (fun i => k_procs s !! i) with
  | Some p => match p_state p with SLEEPING => Asleep (p_chan p) | ZOMBIE => Exited | _ => Hang end
  | None => Hang
  end.

Definition swtch : K unit := fun s =>
  match env_swtch s with Some s' => Ok tt s' | None => Stop (switch_reason s) s end.

Definition sched : K unit :=
  i ← curproc;
  h ← holding (LProc i);
  (if h : bool then mret tt else panic "sched p->lock");;
  c ← mycpu;
  (if negb (ht_noff c =? 1) then panic "sched locks" else mret tt);;
  p ← get_proc i;
  (if bool_decide (p_state p = RUNNING) then panic "sched running" else mret tt);;
  on ← intr_get;
  (if on : bool then panic "sched interruptible" else mret tt);;
  c ← mycpu;
  swtch;;
  modify (set k_hart (set ht_intena (fun _ => ht_intena c))).

Definition yield : K unit :=
  i ← curproc;
  acquire (LProc i);;
  upd_proc i (set p_state (fun _ => RUNNABLE));;
  sched;;
  release (LProc i).

Definition sleep (ch : chan) (lk : lockid) : K unit :=
  i ← curproc;
  when (bool_decide (lk <> LProc i)) (acquire (LProc i);; release lk);;
  upd_proc i (set p_chan (fun _ => ch));;
  upd_proc i (set p_state (fun _ => SLEEPING));;
  sched;;
  upd_proc i (set p_chan (fun _ => CNone));;
  when (bool_decide (lk <> LProc i)) (release (LProc i);; acquire lk).

Definition wakeup (ch : chan) : K unit :=
  kfor (seq 0 NPROC) (fun i =>
    acquire (LProc i);;
    p ← get_proc i;
    when (bool_decide (p_state p = SLEEPING /\ p_chan p = ch))
      (upd_proc i (set p_state (fun _ => RUNNABLE)));;
    release (LProc i)).

Definition wakeup1 (i : nat) : K unit :=
  h ← holding (LProc i);
  (if h : bool then mret tt else panic "wakeup1");;
  p ← get_proc i;
  when (bool_decide (p_chan p = CProc i /\ p_state p = SLEEPING))
    (upd_proc i (set p_state (fun _ => RUNNABLE))).

(** ** Killing *)

(** [p->killed = 1], and out of [sleep] or suspension. *)
Definition mark_killed (i : nat) : K unit :=
  upd_proc i (set p_killed (fun _ => 1));;
  p ← get_proc i;
  when (bool_decide (p_state p = SLEEPING \/ p_state p = SUSPENDED))
    (upd_proc i (set p_state (fun _ => RUNNABLE))).

Definition containerkillwithpid (c : nat) (local_pid : Z) : K Z :=
  r ← kfind (seq 0 NPROC) (fun i =>
    p ← get_proc i;
    if bool_decide (p_cont p = Some c) then
      acquire (LProc i);;
      p ← get_proc i;
      if p_local_pid p =? local_pid then
        mark_killed i;;
        release (LProc i);;
        mret (Some 0)
      else release (LProc i);; mret None
    else mret None);
  mret (default (-1) r).

Definition kill (pid : Z) : K Z :=
  cur ← curproc;
  p ← get_proc cur;
  c ← deref (p_cont p);
  cont ← get_cont c;
  if negb (c_isroot cont =? 1) then containerkillwithpid c pid
  else
    r ← kfind (seq 0 NPROC) (fun i =>
      acquire (LProc i);;
      p ← get_proc i;
      if p_pid p =? pid then
        pc ← deref (p_cont p);
        pcont ← get_cont pc;
        if negb (c_isroot pcont =? 1) then
          printf "Root container has no access to this pid\n" [];;
          release (LProc i);;
          mret (Some (-1))
        else
          mark_killed i;;
          release (LProc i);;
          mret (Some 0)
      else release (LProc i);; mret None);
    mret (default (-1) r).

Definition containerkillall (c : nat) : K Z :=
  kfor (seq 0 NPROC) (fun i =>
    p ← get_proc i;
    when (bool_decide (p_cont p = Some c))
      (acquire (LProc i);;
       mark_killed i;;
       freeproc i;;
       release (LProc i)));;
  mret (-1).

Definition pauseprocforcontainer (c : nat) : K unit :=
  kfor (seq 0 NPROC) (fun i =>
    acquire (LProc i);;
    p ← get_proc i;
    when (bool_decide (p_cont p = Some c))
      (when (bool_decide (p_state p = SLEEPING \/ p_state p = RUNNABLE))
         (upd_proc i (set p_state (fun _ => SUSPENDED))));;
    release (LProc i)).

Definition resumeprocforcontainer (c : nat) : K unit :=
  printf "resuming process...\n" [];;
  kfor (seq 0 NPROC) (fun i =>
    acquire (LProc i);;
    p ← get_proc i;
    when (bool_decide (p_cont p = Some c))
      (when (bool_decide (p_state p = SUSPENDED))
         (upd_proc i (set p_state (fun _ => RUNNABLE))));;
    release (LProc i));;
  printf "resume processes ok\n" [].

(** ** Counting *)

Definition numprocs : K Z :=
  kfold (seq 0 NPROC) (fun count i =>
    p ← get_proc i;
    mret (if bool_decide (p_state p <> UNUSED) then count + 1 else count)) 0.

Definition totalusedproc : K Z :=
  kfold (seq 0 NPROC) (fun count i =>
    acquire (LProc i);;
    p ← get_proc i;
    release (LProc i);;
    mret (if bool_decide (p_state p <> UNUSED) then count + 1 else count)) 0.

Definition totalusedmem : K Z :=
  kfold (seq 0 NPROC) (fun totalmem i =>
    acquire (LProc i);;
    p ← get_proc i;
    release (LProc i);;
    mret (if bool_decide (p_state p <> UNUSED) then u64 (totalmem + p_sz p) else totalmem)) 0.

Definition usedprocforcontainer (c : nat) : K Z :=
  kfold (seq 0 NPROC) (fun count i =>
    p ← get_proc i;
    if bool_decide (p_cont p = Some c) then
      acquire (LProc i);;
      p ← get_proc i;
      release (LProc i);;
      mret (if bool_decide (p_state p <> UNUSED) then count + 1 else count)
    else mret count) 0.

Definition usedmemforcontainer (c : nat) : K Z :=
  kfold (seq 0 NPROC) (fun totalmem i =>
    p ← get_proc i;
    if bool_decide (p_cont p = Some c) then
      acquire (LProc i);;
      p ← get_proc i;
      release (LProc i);;
      mret (if bool_decide (p_state p <> UNUSED) then u64 (totalmem + p_sz p) else totalmem)
    else mret totalmem) 0.

Definition ktraceon : K Z :=
  i ← curproc;
  upd_proc i (set p_tracing (fun _ => 1));;
  mret 1.

(** ** Scheduling *)

(** The process after [curproc] in the table, found round robin.  A whole round of the [for(;;)]
    that finds no process of the container leaves the state as it was, so the loop then goes on
    for ever. *)
Definition getnextproc (c : nat) : K nat :=
  cont ← get_cont c;
  let curproc := c_nextproctorun cont in
  r ← (if bool_decide (curproc = None) then
         kfind (seq 0 NPROC) (fun i =>
           p ← get_proc i;
           if bool_decide (p_cont p = Some c) then
             upd_cont c (set c_nextproctorun (fun _ => Some i));; mret (Some i)
           else mret None)
       else mret None);
  match r with
  | Some i => mret i
  | None =>
    let index := match list_find (fun i => Some i = curproc) (seq 0 NPROC) with
                 | Some (k, _) => S k | None => NPROC end in
    r ← kfind (seq index NPROC) (fun index =>
      let i := (index mod NPROC)%nat in
      acquire (LProc i);;
      p ← get_proc i;
      if bool_decide (p_cont p = Some c) then
        upd_cont c (set c_nextproctorun (fun _ => Some i));;
        release (LProc i);;
        mret (Some i)
      else release (LProc i);; mret None);
    match r with Some i => mret i | None => stop Hang end
  end.

(** One turn of the scheduler's [for] over container ids: [swtch] runs the process and comes
    back when it gives up the processor. *)
Definition scheduler_turn (i : nat) : K unit :=
  r ← cid2cont (Z.of_nat i);
  match r with
  | None => mret tt
  | Some c =>
    cont ← get_cont c;
    if bool_decide (c_state cont <> CRUNNABLE) then mret tt
    else match c_nextproctorun cont with
    | None => getnextproc c;; mret tt
    | Some pi =>
      acquire (LProc pi);;
      p ← get_proc pi;
      when (bool_decide (p_state p = RUNNABLE))
        (start ← gets k_ticks;
         upd_proc pi (set p_state (fun _ => RUNNING));;
         modify (set k_hart (set ht_proc (fun _ => Some pi)));;
         swtch;;
         modify (set k_hart (set ht_proc (fun _ => None)));;
         ticks ← gets k_ticks;
         upd_proc pi (set p_ticks (fun t => i32 (t + (ticks - i32 start))));;
         upd_cont c (set c_ticks (fun t => i32 (t + (ticks - i32 start)))));;
      release (LProc pi);;
      getnextproc c;; mret tt
    end
  end.

(** The body of the scheduler's [for(;;)]. *)
Definition scheduler_round : K unit :=
  intr_on;;
  kfor (seq 0 NCONT) scheduler_turn.

(** ** Copying to and from either space *)

(** Where a copy goes to or comes from: a user address, kernel memory at a physical address
    (the kernel maps RAM one to one), or the caller's local variable, whose new bytes are
    returned to it. *)
Inductive place := User (va : Z) | Phys (pa : Z) | Local (bytes : list Z).

(** [dst + n] *)
Definition place_add (pl : place) (n : Z) : place :=
  match pl with
  | User va => User (u64 (va + n))
  | Phys pa => Phys (pa + n)
  | Local bytes => Local (drop (Z.to_nat n) bytes)
  end.

Definition either_copyout (dst : place) (src : list Z) (len : Z) : K Z :=
  i ← curproc;
  p ← get_proc i;
  bytes ← (if bool_decide (Z.to_nat len <= length src)%nat then mret (take (Z.to_nat len) src) else fault);
  match dst with
  | User va => copyout (p_pagetable p) va bytes len
  | Phys pa => write_phys pa bytes;; mret 0
  | Local _ => mret 0
  end.

Definition either_copyin (src : place) (len : Z) : K (Z * list Z) :=
  i ← curproc;
  p ← get_proc i;
  match src with
  | User va => copyin (p_pagetable p) va len
  | Phys pa => bytes ← read_phys pa (Z.to_nat len); mret (0, bytes)
  | Local bytes =>
    if bool_decide (Z.to_nat len <= length bytes)%nat then mret (0, take (Z.to_nat len) bytes) else fault
  end.

(** ** Listing *)

Definition state_name (st : procstate) : string :=
  match st with
  | UNUSED => "unused" | SLEEPING => "sleep " | RUNNABLE => "runble"
  | RUNNING => "run   " | ZOMBIE => "zombie" | SUSPENDED => "suspended"
  end.

Definition procdump : K unit :=
  printf "\n" [];;
  kfor (seq 0 NPROC) (fun i =>
    p ← get_proc i;
    when (bool_decide (p_state p <> UNUSED))
      (printf "%d %s %s" [AInt (p_pid p); AStr (Some (lit (state_name (p_state p)))); AStr (Some (p_name p))];;
       printf "\n" [])).
(** ** What the walks over the table do *)

(** One process of a table that [kill] hits. *)
Definition killed_proc (p : proc) : proc :=
  p <| p_killed := 1 |>
    <| p_state := if bool_decide (p_state p = SLEEPING \/ p_state p = SUSPENDED)
                  then RUNNABLE else p_state p |>.
Definition woken (ch : chan) (p : proc) : proc :=
  if bool_decide (p_state p = SLEEPING /\ p_chan p = ch) then p <| p_state := RUNNABLE |> else p.
Definition paused (c : nat) (p : proc) : proc :=
  if bool_decide (p_cont p = Some c /\ (p_state p = SLEEPING \/ p_state p = RUNNABLE))
  then p <| p_state := SUSPENDED |> else p.
Definition resumed (c : nat) (p : proc) : proc :=
  if bool_decide (p_cont p = Some c /\ p_state p = SUSPENDED) then p <| p_state := RUNNABLE |> else p.

Section walks.
Context (s : kstate).
Hypothesis Hlen : length (k_procs s) = NPROC.
Hypothesis Hh : hart_ok (k_hart s).
Hypothesis Hl : procs_unlocked s.

Lemma wp_wakeup ch Q :
  (forall s', frame [Fprocs] s s' -> k_procs s' = woken ch <$> k_procs s -> Q tt s') ->
  wp (wakeup ch) Q s.
Proof.
  intros HQ. apply (wp_proc_walk (woken ch)); [done..| |done].
  intros i p s0 Q' Hp HQ'. kstep. unfold woken in HQ'.
  destruct (bool_decide _); kstep; [done|]. by rewrite insert_proc_id in HQ'.
Qed.

Lemma wp_pauseprocforcontainer c Q :
  (forall s', frame [Fprocs] s s' -> k_procs s' = paused c <$> k_procs s -> Q tt s') ->
  wp (pauseprocforcontainer c) Q s.
Proof.
  intros HQ. apply (wp_proc_walk (paused c)); [done..| |done].
  intros i p s0 Q' Hp HQ'. kstep. unfold paused in HQ'. rewrite bool_decide_and in HQ'.
  destruct (bool_decide (p_cont p = Some c)); kstep; [|by rewrite insert_proc_id in HQ'].
  simpl in HQ'. destruct (bool_decide _); kstep; [done|]. by rewrite insert_proc_id in HQ'.
Qed.

Lemma wp_resumeprocforcontainer c Q :
  console_ok s ->
  (forall s', frame [Fprocs; Fout] s s' -> k_procs s' = resumed c <$> k_procs s -> Q tt s') ->
  wp (resumeprocforcontainer c) Q s.
Proof.
  intros Hc HQ. unfold resumeprocforcontainer. kstep.
  apply wp_printf_frame; [done..|]. intros s1 F1. kstep. frame_use F1 Fprocs. frame_use F1 Flocks.
  apply (wp_proc_walk (resumed c)).
  - congruence.
  - by eapply hart_ok_frame.
  - intros i. rewrite <- Hfr0. apply Hl.
  - intros i p s0 Q' Hp HQ'. kstep. unfold resumed in HQ'. rewrite bool_decide_and in HQ'.
    destruct (bool_decide (p_cont p = Some c)); kstep; [|by rewrite insert_proc_id in HQ'].
    simpl in HQ'. destruct (bool_decide _); kstep; [done|]. by rewrite insert_proc_id in HQ'.
  - intros s2 F2 Hp2. apply wp_printf_frame; [done|done| | |].
    + eapply hart_ok_frame; [exact F2|done|]. by eapply hart_ok_frame.
    + eapply console_ok_frame; [exact F2|done..|]. by eapply console_ok_frame.
    + intros s3 F3. apply HQ.
      * etrans; [eapply frame_more; [|exact F1]; done|].
        etrans; (eapply frame_more; [|eassumption]); done.
      * frame_use F3 Fprocs. congruence.
Qed.
End walks.
(** ** [kill] *)

Lemma wp_mark_killed i p Q s :
  k_procs s !! i = Some p -> Q tt (s <| k_procs ::= <[i := killed_proc p]> |>) -> wp (mark_killed i) Q s.
Proof.
  intros Hp HQ. unfold mark_killed, killed_proc in *. kstep. cbn [p_state set].
  change (p_state (p <| p_killed := 1 |>)) with (p_state p).
  destruct (bool_decide _); kstep; [by rewrite insert_proc_twice|]. by destruct p.
Qed.

(** A look at one process under its lock. *)
Lemma wp_peek {B} i p (k : proc -> K B) Q s :
  hart_ok (k_hart s) -> k_locks s !! LProc i = None -> k_procs s !! i = Some p ->
  wp (k p) Q (acq (LProc i) s) -> wp (acquire (LProc i);; p ← get_proc i; k p) Q s.
Proof.
  intros Hh Hl Hp HQ. kstep. apply wp_acquire; [done..|]. kstep. done.
Qed.

Section kill.
Context (s : kstate).
Hypothesis Hlen : length (k_procs s) = NPROC.
Hypothesis Hh : hart_ok (k_hart s).
Hypothesis Hl : procs_unlocked s.

Lemma peek_ok s0 i : frame [] s s0 -> hart_ok (k_hart s0) /\ k_locks s0 !! LProc i = None.
Proof.
  intros Hf. split; [by eapply hart_ok_frame|]. frame_use Hf Flocks. rewrite <- Hfr. apply Hl.
Qed.

(** Killing the process at [i] and releasing its lock. *)
Lemma wp_kill_release {B} i p (k : K B) Q s0 :
  frame [] s s0 -> k_procs s !! i = Some p ->
  (forall s', frame [Fprocs] s s' -> k_procs s' = <[i := killed_proc p]> (k_procs s) -> wp k Q s') ->
  wp (mark_killed i;; release (LProc i);; k) Q (acq (LProc i) s0).
Proof.
  intros Hf Hp HQ. destruct (peek_ok s0 i Hf) as [Hh0 Hl0]. frame_use Hf Fprocs.
  assert (k_procs s0 !! i = Some p) as Hp0 by congruence.
  kstep. eapply wp_mark_killed; [exact Hp0|]. kstep.
  eapply (wp_release_frame [Fprocs] _ _ s0); [done|done|frame_solve|done..|]. intros Hf2. apply HQ.
  - etrans; [eapply frame_more; [|exact Hf]; done|done].
  - unfold rel, acq. kfields. by rewrite <- Hfr.
Qed.

Lemma wp_release_peek {B} i (k : K B) Q s0 :
  frame [] s s0 -> (forall s', frame [] s0 s' -> wp k Q s') ->
  wp (release (LProc i);; k) Q (acq (LProc i) s0).
Proof.
  intros Hf HQ. destruct (peek_ok s0 i Hf) as [Hh0 Hl0]. kstep.
  eapply (wp_release_frame [] _ _ s0); [done|done|reflexivity|done..|]. intros Hf2. by apply HQ.
Qed.

Lemma wp_containerkillwithpid c lp Q s1 :
  frame [] s s1 ->
  (forall s', match list_find (fun p => p_cont p = Some c /\ p_local_pid p = lp) (k_procs s) with
              | Some (i, p) => frame [Fprocs] s s' /\ k_procs s' = <[i := killed_proc p]> (k_procs s) -> Q 0 s'
              | None => frame [] s s' -> Q (-1) s'
              end) ->
  wp (containerkillwithpid c lp) Q s1.
Proof.
  intros Hs1 HQ. unfold containerkillwithpid. kstep. rewrite <- Hlen.
  apply (wp_find_table (fun p => p_cont p = Some c /\ p_local_pid p = lp)).
  - intros i p s0 Hf0 Hp Hno. pose proof (transitivity Hs1 Hf0) as Hf. frame_use Hf Fprocs.
    assert (k_procs s0 !! i = Some p) as Hp0 by congruence. destruct (peek_ok s0 i Hf). kstep.
    case_bool_decide; [|kstep; done]. apply (wp_peek i p); [done..|].
    destruct (Z.eqb_spec (p_local_pid p) lp); [naive_solver|].
    apply wp_release_peek; [done|]. intros s2 Hf2. by kstep.
  - intros i p s0 Hf0 Hfind. pose proof (transitivity Hs1 Hf0) as Hf. frame_use Hf Fprocs.
    pose proof Hfind as (Hp & [Hc Hlp] & _)%list_find_Some.
    assert (k_procs s0 !! i = Some p) as Hp0 by congruence. destruct (peek_ok s0 i Hf). kstep.
    rewrite bool_decide_eq_true_2 by done. apply (wp_peek i p); [done..|].
    rewrite Hlp, Z.eqb_refl. eapply wp_kill_release; [done..|]. intros s2 Hf2 Hp2. kstep.
    exists 0. split; [done|]. kstep. specialize (HQ s2). rewrite Hfind in HQ. by apply HQ.
  - intros s' Hf' Hnone. kstep. specialize (HQ s'). rewrite Hnone in HQ. apply HQ. by etrans.
Qed.
End kill.
(** The outcomes of [kill] by a process of container [c]. *)
Definition kill_effect (s s' : kstate) (c : nat) (cont : container) (pid r : Z) : Prop :=
  (r = -1 /\ k_procs s' = k_procs s) \/
  (r = 0 /\ exists j p pc pcont,
     k_procs s !! j = Some p /\ p_cont p = Some pc /\ k_conts s !! pc = Some pcont /\
     k_procs s' = <[j := killed_proc p]> (k_procs s) /\
     if c_isroot cont =? 1 then p_pid p = pid /\ c_isroot pcont = 1
     else p_local_pid p = pid /\ pc = c).

Lemma wp_kill pid i0 p0 c cont s Q :
  length (k_procs s) = NPROC -> hart_ok (k_hart s) -> procs_unlocked s -> console_ok s ->
  ht_proc (k_hart s) = Some i0 -> k_procs s !! i0 = Some p0 -> p_cont p0 = Some c ->
  k_conts s !! c = Some cont ->
  (forall j p, k_procs s !! j = Some p -> p_pid p = pid ->
     exists pc pcont, p_cont p = Some pc /\ k_conts s !! pc = Some pcont) ->
  (forall r s', frame [Fprocs; Fout] s s' -> kill_effect s s' c cont pid r -> Q r s') ->
  wp (kill pid) Q s.
Proof.
  intros Hlen Hh Hl Hcons Hcur Hp0 Hc Hcont Hval HQ. unfold kill. kstep.
  apply (wp_curproc_frame i0); [done..|]. intros s1 F1. frame_use F1 Fprocs. frame_use F1 Fconts.
  kstep. eapply wp_get_proc; [by rewrite <- Hfr|]. rewrite Hc. kstep.
  eapply wp_get_cont; [by rewrite <- Hfr0|]. unfold kill_effect in HQ.
  destruct (Z.eqb_spec (c_isroot cont) 1) as [Hroot|Hroot]; cbn [negb].
  - kstep. rewrite <- Hlen. apply (wp_find_table (fun p => p_pid p = pid)).
    + intros i p s2 F2 Hp Hno. pose proof (transitivity F1 F2) as F. frame_use F Fprocs.
      destruct (peek_ok s Hh Hl s2 i F). apply (wp_peek i p); [done..|congruence|].
      rewrite (proj2 (Z.eqb_neq (p_pid p) pid)) by done.
      apply (wp_release_peek s Hh Hl); [done|]. intros s3 F3. by kstep.
    + intros i p s2 F2 Hfind. pose proof (transitivity F1 F2) as F. frame_use F Fprocs. frame_use F Fconts.
      pose proof Hfind as (Hp & Hpid & _)%list_find_Some.
      destruct (Hval i p Hp Hpid) as (pc & pcont & Hpc & Hpcont).
      destruct (peek_ok s Hh Hl s2 i F). apply (wp_peek i p); [done..|congruence|].
      rewrite Hpid, Z.eqb_refl, Hpc. kstep. eapply wp_get_cont; [rewrite <- Hpcont, Hfr2; reflexivity|].
      destruct (Z.eqb_spec (c_isroot pcont) 1) as [Hpr|Hpr]; cbn [negb].
      * eapply (wp_kill_release s Hh Hl); [done..|]. intros s3 F3 Hp3. kstep. exists 0.
        split; [done|]. kstep. apply HQ; [by eapply frame_more; [|exact F3]|].
        right. split; [done|]. exists i, p, pc, pcont. done.
      * kstep. apply wp_printf_frame; [done|done| | |].
        { by apply hart_ok_hpush. }
        { destruct Hcons as [Hpan Hpr']. frame_use F Fpanicked. frame_use F Flocks.
          split; unfold acq; kfields; [congruence|]. rewrite lookup_insert_ne by done. congruence. }
        intros s3 F3. kstep. eapply (wp_release_frame [Fout] _ _ s2); [done|done|done|done..|].
        intros F4. kstep. exists (-1). split; [done|]. kstep. apply HQ.
        -- etrans; [eapply frame_more; [|exact F]; done|]. by eapply frame_more; [|exact F4].
        -- left. split; [done|]. rewrite Hfr1. symmetry. exact (frame_get Fprocs _ _ _ F4 eq_refl).
    + intros s2 F2 _. kstep. pose proof (transitivity F1 F2) as F. frame_use F Fprocs. apply HQ.
      * by eapply frame_more; [|exact F].
      * by left.
  - apply (wp_containerkillwithpid s Hlen Hh Hl c pid _ s1 F1). intros s2.
    destruct (list_find _ _) as [[i p]|] eqn:Hfind.
    + intros [F2 Hp2]. apply list_find_Some in Hfind as (Hp & [Hpc Hlp] & _). apply HQ.
      * by eapply frame_more; [|exact F2].
      * right. split; [done|]. exists i, p, c, cont. done.
    + intros F2. frame_use F2 Fprocs. apply HQ; [by eapply frame_more; [|exact F2]|]. by left.
Qed.
(** ** Round robin *)

Definition in_cont (procs : list proc) (c j : nat) : Prop :=
  exists p, procs !! j = Some p /\ p_cont p = Some c.

(** [j] is the first process of container [c] from [start] on, going round the table. *)
Definition rr_pick (procs : list proc) (c start j : nat) : Prop :=
  exists k, (k < NPROC)%nat /\ j = ((start + k) mod NPROC)%nat /\ in_cont procs c j /\
    forall k', (k' < k)%nat -> ~ in_cont procs c ((start + k') mod NPROC)%nat.

Definition rr_start (cur : option nat) : nat := match cur with Some i => S i | None => 0 end.

Section getnext.
Context (s : kstate) (c : nat) (cont : container).
Hypothesis Hlen : length (k_procs s) = NPROC.
Hypothesis Hh : hart_ok (k_hart s).
Hypothesis Hl : procs_unlocked s.
Hypothesis Hc : k_conts s !! c = Some cont.

(** The container with its next process set. *)
Definition set_next (j : nat) : container := cont <| c_nextproctorun := Some j |>.

Lemma wp_next_found {B} j (k : K B) Q s0 :
  frame [] s s0 ->
  (forall s', frame [Fconts] s s' -> k_conts s' = <[c := set_next j]> (k_conts s) -> wp k Q s') ->
  wp (upd_cont c (set c_nextproctorun (fun _ => Some j));; release (LProc j);; k) Q (acq (LProc j) s0).
Proof.
  intros Hf HQ. destruct (peek_ok s Hh Hl s0 j Hf) as [Hh0 Hl0]. frame_use Hf Fconts.
  assert (k_conts s0 !! c = Some cont) as Hc0 by congruence.
  kstep. eapply (wp_release_frame [Fconts] _ _ s0); [done|done|frame_solve|done..|]. intros Hf2.
  apply HQ.
  - etrans; [eapply frame_more; [|exact Hf]; done|done].
  - unfold rel, acq. kfields. by rewrite <- Hfr.
Qed.

Lemma wp_next_round start Q s0 :
  frame [] s s0 ->
  (forall j s', frame [Fconts] s s' -> k_conts s' = <[c := set_next j]> (k_conts s) ->
     rr_pick (k_procs s) c start j -> Q (Some j) s') ->
  (forall s', frame [] s s' -> (forall j, ~ in_cont (k_procs s) c j) -> Q None s') ->
  wp (kfind (seq start NPROC) (fun index =>
        let i := (index mod NPROC)%nat in
        acquire (LProc i);;
        p ← get_proc i;
        if bool_decide (p_cont p = Some c) then
          upd_cont c (set c_nextproctorun (fun _ => Some i));; release (LProc i);; mret (Some i)
        else release (LProc i);; mret None)) Q s0.
Proof.
  intros Hf0 HQ HN.
  apply (wp_kfind (fun pre s' => frame [] s s' /\
    forall k, (k < length pre)%nat -> ~ in_cont (k_procs s) c ((start + k) mod NPROC)%nat)).
  - split; [done|]. simpl. lia.
  - intros pre i post s1 Hseq [Hf Hpre].
    assert (seq start NPROC !! length pre = Some i) as Hi by (by rewrite Hseq, list_lookup_middle).
    apply lookup_seq in Hi as [-> Hi].
    assert ((start + length pre) mod NPROC < NPROC)%nat as Hj by (apply Nat.mod_upper_bound; done).
    set (j := ((start + length pre) mod NPROC)%nat) in *. cbv zeta.
    destruct (lookup_lt_is_Some_2 (k_procs s) j) as [p Hp]; [lia|].
    destruct (peek_ok s Hh Hl s1 j Hf). frame_use Hf Fprocs.
    apply (wp_peek j p); [done..|congruence|]. case_bool_decide as Hcp.
    + apply wp_next_found; [done|]. intros s2 F2 Hc2. kstep. apply HQ; [done..|].
      exists (length pre). split_and!; [done..| |done]. by exists p.
    + apply (wp_release_peek s Hh Hl); [done|]. intros s2 F2. kstep. split; [by etrans|].
      intros k Hk. rewrite length_app in Hk. simpl in Hk.
      destruct (decide (k = length pre)) as [->|]; [|apply Hpre; lia].
      intros (p' & Hp' & ?). fold j in Hp'. congruence.
  - intros s1 [Hf Hpre]. apply HN; [done|]. intros j Hj.
    assert (j < NPROC)%nat as Hlt.
    { destruct Hj as (p & Hp & _). apply lookup_lt_Some in Hp. lia. }
    rewrite length_seq in Hpre.
    apply (Hpre ((j + NPROC * S start - start) mod NPROC)%nat); [by apply Nat.mod_upper_bound|].
    rewrite Nat.Div0.add_mod_idemp_r. replace (start + (j + NPROC * S start - start))%nat with (j + S start * NPROC)%nat by (unfold NPROC; lia).
    by rewrite Nat.Div0.mod_add, Nat.mod_small.
Qed.
Lemma rr_index cur : (forall i, cur = Some i -> (i < NPROC)%nat) ->
  match list_find (fun i => Some i = cur) (seq 0 NPROC) with Some (k, _) => S k | None => NPROC end =
  match cur with Some i => S i | None => NPROC end.
Proof.
  intros Hcur. destruct (list_find _ _) as [[k i]|] eqn:E.
  - apply list_find_Some in E as (Hk & <- & _). apply lookup_seq in Hk as [-> _]. done.
  - apply list_find_None in E. destruct cur as [i|]; [|done]. exfalso.
    rewrite Forall_forall in E. apply (E i); [|done]. apply elem_of_seq. split; [lia|].
    by apply Hcur.
Qed.

Lemma wp_getnextproc Q :
  (forall i, c_nextproctorun cont = Some i -> (i < NPROC)%nat) ->
  (exists j, in_cont (k_procs s) c j) ->
  (forall j s', frame [Fconts] s s' -> k_conts s' = <[c := set_next j]> (k_conts s) ->
     rr_pick (k_procs s) c (rr_start (c_nextproctorun cont)) j -> Q j s') ->
  wp (getnextproc c) Q s.
Proof.
  intros Hcur Hex HQ. unfold getnextproc. kstep. rewrite (rr_index _ Hcur).
  destruct (c_nextproctorun cont) as [i|] eqn:Hnext; cbn [rr_start] in HQ.
  - rewrite bool_decide_eq_false_2 by done. kstep. eapply wp_next_round; [reflexivity| |].
    + intros j s' F Hc' Hpick. kstep. by apply HQ.
    + intros s' _ Hno. exfalso. destruct Hex as [j Hj]. by eapply Hno.
  - rewrite bool_decide_eq_true_2 by done. rewrite <- Hlen at 1. kstep.
    apply (wp_find_table (fun p => p_cont p = Some c)).
    + intros j p s0 Hf Hp Hno. frame_use Hf Fprocs. kstep.
      eapply wp_get_proc; [by rewrite <- Hfr|]. rewrite bool_decide_eq_false_2 by done. by kstep.
    + intros j p s0 Hf (Hp & Hpc & Hmin)%list_find_Some. frame_use Hf Fprocs. frame_use Hf Fconts.
      kstep. eapply wp_get_proc; [by rewrite <- Hfr|]. rewrite bool_decide_eq_true_2 by done. kstep.
      eapply wp_upd_cont; [by rewrite <- Hfr0|]. kstep. exists j. split; [done|]. kstep. apply HQ.
      * etrans; [eapply frame_more; [|exact Hf]; done|frame_solve].
      * kfields. by rewrite Hfr0.
      * pose proof (lookup_lt_Some _ _ _ Hp). exists j. split_and!.
        -- lia.
        -- by rewrite Nat.mod_small by lia.
        -- by exists p.
        -- intros k Hk. rewrite Nat.mod_small by lia. intros (p' & Hp' & ?). by eapply Hmin.
    + intros s' _ Hnone%list_find_None. exfalso. destruct Hex as (j & p & Hp & Hpc).
      rewrite Forall_lookup in Hnone. by eapply Hnone.
Qed.

(** Without a process of the container the search does not end. *)
Lemma getnextproc_hang :
  (forall i, c_nextproctorun cont = Some i -> (i < NPROC)%nat) ->
  (forall j, ~ in_cont (k_procs s) c j) ->
  stops (getnextproc c) Hang s.
Proof.
  intros Hcur Hno.
  assert (wp (kfind (seq 0 NPROC) (fun i =>
           p ← get_proc i;
           if bool_decide (p_cont p = Some c) then
             upd_cont c (set c_nextproctorun (fun _ => Some i));; mret (Some i)
           else mret None)) (fun r s' => r = None /\ frame [] s s') s) as Hfirst.
  { rewrite <- Hlen. apply (wp_find_table (fun p => p_cont p = Some c)).
    - intros j p s0 Hf Hp Hn. frame_use Hf Fprocs. kstep.
      eapply wp_get_proc; [by rewrite <- Hfr|]. rewrite bool_decide_eq_false_2 by done. by kstep.
    - intros j p s0 Hf (Hp & Hpc & Hmin)%list_find_Some. exfalso. apply (Hno j). by exists p.
    - done. }
  assert (forall start s0, frame [] s s0 -> wp (kfind (seq start NPROC) (fun index =>
        let i := (index mod NPROC)%nat in
        acquire (LProc i);;
        p ← get_proc i;
        if bool_decide (p_cont p = Some c) then
          upd_cont c (set c_nextproctorun (fun _ => Some i));; release (LProc i);; mret (Some i)
        else release (LProc i);; mret None)) (fun r s' => r = None) s0) as Hround.
  { intros start s0 Hf. apply wp_next_round; [done| |done].
    intros j s' _ _ (k & _ & _ & Hj & _). by apply Hno in Hj. }
  unfold getnextproc. apply stops_later. eapply wp_get_cont; [done|].
  apply stops_later. apply (wp_mono _ (fun r s' => r = None /\ frame [] s s')).
  { destruct (bool_decide _); [done|]. by apply wp_ret. }
  intros r s1 [-> Hf]. cbv zeta. apply stops_later. eapply wp_mono; [by apply Hround|].
  intros r s2 ->. apply stops_here.
Qed.
End getnext.
(** ** Fairness of the round robin *)

(** The entries scanned after [i] before [j]. *)
Definition rr_dist (i j : nat) : nat := ((j + NPROC - S i) mod NPROC)%nat.

Lemma rr_closer procs c i j j' :
  (i < NPROC)%nat -> (j < NPROC)%nat -> in_cont procs c j -> rr_pick procs c (S i) j' ->
  j' = j \/ (rr_dist j' j < rr_dist i j)%nat.
Proof.
  intros Hi Hj Hin (k & Hk & -> & _ & Hno). unfold rr_dist in *.
  destruct (decide (k = (j + NPROC - S i) mod NPROC)%nat) as [->|Hne].
  - left. rewrite Nat.Div0.add_mod_idemp_r. replace (S i + (j + NPROC - S i))%nat with (j + 1 * NPROC)%nat by lia.
    by rewrite Nat.Div0.mod_add, Nat.mod_small.
  - right. assert (k < (j + NPROC - S i) mod NPROC)%nat as Hlt.
    { destruct (decide (k < (j + NPROC - S i) mod NPROC)%nat); [done|]. exfalso.
      apply (Hno ((j + NPROC - S i) mod NPROC)%nat); [lia|].
      rewrite Nat.Div0.add_mod_idemp_r. replace (S i + (j + NPROC - S i))%nat with (j + 1 * NPROC)%nat by lia.
      by rewrite Nat.Div0.mod_add, Nat.mod_small. }
    clear Hno Hin. unfold NPROC in *.
    pose proof (Nat.div_mod_eq (j + 64 - S i) 64). pose proof (Nat.mod_upper_bound (j + 64 - S i) 64 ltac:(done)).
    pose proof (Nat.div_mod_eq (S i + k) 64). pose proof (Nat.mod_upper_bound (S i + k) 64 ltac:(done)).
    set (m := ((S i + k) mod 64)%nat) in *.
    pose proof (Nat.div_mod_eq (j + 64 - S m) 64). pose proof (Nat.mod_upper_bound (j + 64 - S m) 64 ltac:(done)).
    lia.
Qed.

Lemma wp_rr_fair c j n : forall s cont i,
  length (k_procs s) = NPROC -> hart_ok (k_hart s) -> procs_unlocked s ->
  k_conts s !! c = Some cont -> c_nextproctorun cont = Some i -> (i < NPROC)%nat -> (j < NPROC)%nat ->
  in_cont (k_procs s) c j -> (rr_dist i j < n)%nat ->
  exists m, (1 <= m <= n)%nat /\
    wp (kfor (replicate m tt) (fun _ => getnextproc c;; mret tt))
       (fun _ s' => (c_nextproctorun <$> k_conts s' !! c) = Some (Some j) /\ frame [Fconts] s s') s.
Proof.
  induction n as [|n IH]; intros s cont i Hlen Hh Hl Hc Hnext Hi Hj Hin Hd; [lia|].
  assert (wp (getnextproc c) (fun j' s' => frame [Fconts] s s' /\
            k_conts s' = <[c := set_next cont j']> (k_conts s) /\ rr_pick (k_procs s) c (S i) j') s) as Hone.
  { apply (wp_getnextproc s c cont); [done..| | |].
    - intros i' E. rewrite Hnext in E. by injection E as <-.
    - by exists j.
    - rewrite Hnext. done. }
  apply wp_inv in Hone as (j' & s1 & E1 & F1 & Hc1 & Hpick).
  assert (k_conts s1 !! c = Some (set_next cont j')) as Hcs1.
  { rewrite Hc1. apply list_lookup_insert_eq. by eapply lookup_lt_Some. }
  destruct (rr_closer _ _ _ _ _ Hi Hj Hin Hpick) as [->|Hlt].
  - exists 1%nat. split; [lia|]. simpl. kstep. apply (wp_Ok _ _ _ _ _ E1). kstep.
    rewrite Hcs1. done.
  - frame_use F1 Fprocs. frame_use F1 Flocks.
    assert (j' < NPROC)%nat as Hj' by (destruct Hpick as (k & _ & -> & _); by apply Nat.mod_upper_bound).
    destruct (IH s1 (set_next cont j') j') as (m & Hm & Hwp); [congruence|by eapply hart_ok_frame| |done|done|done|done|congruence|lia|].
    { intros x. rewrite <- Hfr0. apply Hl. }
    exists (S m). split; [lia|]. simpl. kstep. apply (wp_Ok _ _ _ _ _ E1). kstep.
    eapply wp_mono; [exact Hwp|]. intros [] s2 [? ?]. split; [done|by etrans].
Qed.
(** ** What the process table guarantees *)

(** [kill] never crosses a container boundary.  Called by a process of container [c], it changes at
    most one entry of the process table, whose process it marks killed and wakes: in a non-root
    container the first process of that container with the given local pid, from the root container a
    process of a root container with the given global pid.  Otherwise it returns -1 and changes no
    process. *)
Theorem kill_isolated (pid : Z) (i0 : nat) (p0 : proc) (c : nat) (cont : container) (s : kstate) :
  length (k_procs s) = NPROC -> hart_ok (k_hart s) -> procs_unlocked s -> console_ok s ->
  ht_proc (k_hart s) = Some i0 -> k_procs s !! i0 = Some p0 -> p_cont p0 = Some c ->
  k_conts s !! c = Some cont ->
  (forall j p, k_procs s !! j = Some p -> p_pid p = pid ->
     exists pc pcont, p_cont p = Some pc /\ k_conts s !! pc = Some pcont) ->
  wp (kill pid) (fun r s' => kill_effect s s' c cont pid r /\ frame [Fprocs; Fout] s s') s.
Proof. intros. eapply wp_kill; [done..|]. done. Qed.

(** [wakeup] makes runnable exactly the processes that sleep on the channel; it changes no other
    process and nothing else, and leaves every process lock free. *)
Theorem wakeup_exact (ch : chan) (s : kstate) :
  length (k_procs s) = NPROC -> hart_ok (k_hart s) -> procs_unlocked s ->
  wp (wakeup ch) (fun _ s' =>
    (forall i p, k_procs s !! i = Some p ->
       k_procs s' !! i = Some (if bool_decide (p_state p = SLEEPING /\ p_chan p = ch)
                               then p <| p_state := RUNNABLE |> else p)) /\
    procs_unlocked s' /\ frame [Fprocs] s s') s.
Proof.
  intros Hlen Hh Hl. apply wp_wakeup; [done..|]. intros s' F Hp. split_and!; [| |done].
  - intros i p Hi. by rewrite Hp, list_lookup_fmap, Hi.
  - frame_use F Flocks. intros i. rewrite <- Hfr. apply Hl.
Qed.

(** Pausing a container and resuming it leaves the processes of every other container as they
    were; the container's own processes that slept, were runnable or were suspended are runnable
    afterwards, so a process that was sleeping is woken, and one that was suspended on its own is
    resumed with the rest. *)
Theorem pause_resume (c : nat) (s : kstate) :
  length (k_procs s) = NPROC -> hart_ok (k_hart s) -> procs_unlocked s -> console_ok s ->
  wp (pauseprocforcontainer c;; resumeprocforcontainer c) (fun _ s' =>
    (forall i p, k_procs s !! i = Some p ->
       k_procs s' !! i = Some (if bool_decide (p_cont p = Some c /\ (p_state p = SLEEPING \/
                                                 p_state p = RUNNABLE \/ p_state p = SUSPENDED))
                               then p <| p_state := RUNNABLE |> else p)) /\
    frame [Fprocs; Fout] s s') s.
Proof.
  intros Hlen Hh Hl Hc. kstep. apply wp_pauseprocforcontainer; [done..|]. intros s1 F1 Hp1.
  frame_use F1 Flocks. kstep. apply wp_resumeprocforcontainer.
  - by rewrite Hp1, length_fmap.
  - by eapply hart_ok_frame.
  - intros i. rewrite <- Hfr. apply Hl.
  - by eapply console_ok_frame.
  - intros s2 F2 Hp2. split; [|etrans; [eapply frame_more; [|exact F1]; done|done]].
    intros i p Hi. rewrite Hp2, Hp1, !list_lookup_fmap, Hi. simpl. f_equal. unfold paused, resumed.
    repeat case_bool_decide; destruct p; simpl in *; naive_solver.
Qed.

(** C37. The scheduler's round robin is fair to the processes of a container: while the process table
    does not change, and once the container has a process to run next, every process of the container is the one to run next after at most [NPROC]
    calls of [getnextproc]. *)
Theorem getnextproc_fair (c j : nat) (cont : container) (i : nat) (s : kstate) :
  length (k_procs s) = NPROC -> hart_ok (k_hart s) -> procs_unlocked s ->
  k_conts s !! c = Some cont -> c_nextproctorun cont = Some i -> (i < NPROC)%nat ->
  in_cont (k_procs s) c j ->
  exists m, (1 <= m <= NPROC)%nat /\
    wp (kfor (replicate m tt) (fun _ => getnextproc c;; mret tt))
       (fun _ s' => (c_nextproctorun <$> k_conts s' !! c) = Some (Some j) /\ frame [Fconts] s s') s.
Proof.
  intros Hlen Hh Hl Hc Hn Hi Hin.
  assert (j < NPROC)%nat by (destruct Hin as (p & Hp & _); rewrite <- Hlen; by eapply lookup_lt_Some).
  eapply wp_rr_fair; try done. by apply Nat.mod_upper_bound.
Qed.

(** [getnextproc] on a container without a process never returns, so the hart that schedules a
    runnable container whose processes are gone is lost. *)
Theorem getnextproc_hangs (c : nat) (cont : container) (s : kstate) :
  length (k_procs s) = NPROC -> hart_ok (k_hart s) -> procs_unlocked s ->
  k_conts s !! c = Some cont -> (forall i, c_nextproctorun cont = Some i -> (i < NPROC)%nat) ->
  (forall j, ~ in_cont (k_procs s) c j) ->
  stops (getnextproc c) Hang s.
Proof. intros. by eapply getnextproc_hang. Qed.

(** From the root container, [kill] of pid 0 reads the container of an unused entry, a null pointer,
    when the first entry with pid 0 is unused. *)
Theorem kill_zero_faults (i0 : nat) (p0 : proc) (c : nat) (cont : container) (j : nat) (p : proc) (s : kstate) :
  length (k_procs s) = NPROC -> hart_ok (k_hart s) -> procs_unlocked s ->
  ht_proc (k_hart s) = Some i0 -> k_procs s !! i0 = Some p0 -> p_cont p0 = Some c ->
  k_conts s !! c = Some cont -> c_isroot cont = 1 ->
  list_find (fun p => p_pid p = 0) (k_procs s) = Some (j, p) -> p_cont p = None ->
  stops (kill 0) Fault s.
Proof.
  intros Hlen Hh Hl Hcur Hp0 Hc Hcont Hroot Hfind Hnone. unfold kill.
  apply stops_later. apply (wp_curproc_frame i0); [done..|]. intros s1 F1.
  frame_use F1 Fprocs. frame_use F1 Fconts.
  apply stops_later. eapply wp_get_proc; [by rewrite <- Hfr|]. rewrite Hc.
  apply stops_later. kstep. apply stops_later. eapply wp_get_cont; [by rewrite <- Hfr0|].
  rewrite Hroot, Z.eqb_refl. cbn [negb]. apply stops_bind. rewrite <- Hlen.
  apply (stops_find_table (fun p => p_pid p = 0) _ _ _ _ _ _ Hfind).
  - intros k y s2 F2 Hy Hno. pose proof (transitivity F1 F2) as F. frame_use F Fprocs.
    destruct (peek_ok s Hh Hl s2 k F). apply (wp_peek k y); [done..|congruence|].
    rewrite (proj2 (Z.eqb_neq (p_pid y) 0)) by done.
    apply (wp_release_peek s Hh Hl); [done|]. intros s3 F3. by kstep.
  - intros s2 F2. pose proof (transitivity F1 F2) as F. frame_use F Fprocs.
    apply list_find_Some in Hfind as (Hp & Hpid & _).
    destruct (peek_ok s Hh Hl s2 j F). apply stops_later, wp_acquire; [done..|].
    apply stops_later. eapply wp_get_proc; [simpl; by rewrite <- Hfr1|].
    rewrite Hpid, Z.eqb_refl, Hnone. apply stops_bind, stops_here.
Qed.
End proc_c.

(** ** Examples: the root container 0 with processes 0 and 3, container 1 with processes 1 and 2 *)

Definition some_procs : kstate :=
  bss <| k_hart ::= set ht_proc (fun _ => Some 1%nat) |>
      <| k_conts ::= <[0%nat := zero_container <| c_state := CRUNNABLE |> <| c_isroot := 1 |>]> |>
      <| k_conts ::= <[1%nat := zero_container <| c_state := CRUNNABLE |> <| c_cid := 1 |>
                                               <| c_nextproctorun := Some 2%nat |>]> |>
      <| k_procs ::= <[0%nat := zero_proc <| p_state := SLEEPING |> <| p_chan := CTicks |> <| p_pid := 1 |>
                                          <| p_local_pid := 1 |> <| p_cont := Some 0%nat |>]> |>
      <| k_procs ::= <[1%nat := zero_proc <| p_state := RUNNING |> <| p_pid := 2 |> <| p_local_pid := 1 |>
                                          <| p_cont := Some 1%nat |>]> |>
      <| k_procs ::= <[2%nat := zero_proc <| p_state := SLEEPING |> <| p_chan := CTicks |> <| p_pid := 3 |>
                                          <| p_local_pid := 2 |> <| p_cont := Some 1%nat |>]> |>
      <| k_procs ::= <[3%nat := zero_proc <| p_state := RUNNING |> <| p_pid := 4 |> <| p_local_pid := 4 |>
                                          <| p_cont := Some 0%nat |>]> |>.

Lemma some_procs_hart : hart_ok (k_hart some_procs).
Proof. split; simpl; [lia|done]. Qed.

Lemma kill_isolated_witness :
  wp (kill 2) (fun r s' => kill_effect some_procs s' 1
     (zero_container <| c_state := CRUNNABLE |> <| c_cid := 1 |> <| c_nextproctorun := Some 2%nat |>) 2 r /\
     frame [Fprocs; Fout] some_procs s') some_procs.
Proof.
  apply (kill_isolated 2 1 (zero_proc <| p_state := RUNNING |> <| p_pid := 2 |> <| p_local_pid := 1 |>
                                      <| p_cont := Some 1%nat |>));
    try reflexivity; [apply some_procs_hart|by intros i|by split|].
  intros j p Hp Hpid. apply list_elem_of_lookup_2 in Hp. revert Hpid.
  assert (Forall (fun p => p_pid p = 2 -> p_cont p = Some 1%nat) (k_procs some_procs)) as Hall.
  { apply (bool_decide_unpack _). vm_compute. exact I. }
  rewrite Forall_forall in Hall. intros Hpid. exists 1%nat. eexists. split; [by apply Hall|reflexivity].
Defined.

Lemma wakeup_exact_witness :
  wp (wakeup CTicks) (fun _ s' =>
    (forall i p, k_procs some_procs !! i = Some p ->
       k_procs s' !! i = Some (if bool_decide (p_state p = SLEEPING /\ p_chan p = CTicks)
                               then p <| p_state := RUNNABLE |> else p)) /\
    procs_unlocked s' /\ frame [Fprocs] some_procs s') some_procs.
Proof. apply wakeup_exact; [reflexivity|apply some_procs_hart|by intros i]. Defined.

Lemma pause_resume_witness :
  wp (pauseprocforcontainer 1;; resumeprocforcontainer 1) (fun _ s' =>
    (forall i p, k_procs some_procs !! i = Some p ->
       k_procs s' !! i = Some (if bool_decide (p_cont p = Some 1%nat /\ (p_state p = SLEEPING \/
                                                 p_state p = RUNNABLE \/ p_state p = SUSPENDED))
                               then p <| p_state := RUNNABLE |> else p)) /\
    frame [Fprocs; Fout] some_procs s') some_procs.
Proof. apply pause_resume; [reflexivity|apply some_procs_hart|by intros i|by split]. Defined.

Lemma getnextproc_fair_witness :
  exists m, (1 <= m <= NPROC)%nat /\
    wp (kfor (replicate m tt) (fun _ => getnextproc 1;; mret tt))
       (fun _ s' => (c_nextproctorun <$> k_conts s' !! 1%nat) = Some (Some 1%nat) /\
                    frame [Fconts] some_procs s') some_procs.
Proof.
  eapply (getnextproc_fair 1 1 _ 2 some_procs); try reflexivity;
    [apply some_procs_hart|by intros i|unfold NPROC; lia|].
  eexists. split; reflexivity.
Defined.

Lemma getnextproc_hangs_witness : stops (getnextproc 4) Hang some_procs.
Proof.
  eapply (getnextproc_hangs 4 zero_container); try reflexivity; [apply some_procs_hart|by intros i|done|].
  intros j (p & Hp & Hc). apply list_elem_of_lookup_2 in Hp. revert Hc.
  assert (Forall (fun p => p_cont p <> Some 4%nat) (k_procs some_procs)) as Hall.
  { apply (bool_decide_unpack _). vm_compute. exact I. }
  rewrite Forall_forall in Hall. by apply Hall.
Defined.

Lemma kill_zero_faults_witness :
  stops (kill 0) Fault (some_procs <| k_hart ::= set ht_proc (fun _ => Some 3%nat) |>).
Proof.
  eapply (kill_zero_faults 3 _ 0 _ 4 zero_proc); try reflexivity; [split; simpl; [lia|done]|by intros i].
Defined.
