(* ===== verification/Procalloc.v ===== *)
(** [allocproc] and [proc_pagetable] of [proc.c]: a new process gets a fresh pid,
    a trapframe page and a page table in which only the trampoline and the
    trapframe are mapped, out of the reach of user code. *)
From S2P Require Import Prelude Types Kstate Cstring Spinlock Frame Printf Accounting Kalloc Vm Pagetable Proc.
From stdpp Require Import base numbers list gmap strings.
From Stdlib Require Import ZArith Lia.

Local Open Scope Z_scope.
Local Open Scope xv6_scope.

Section procalloc.
Context `{Env}.

(** ** The page table of a new process *)

(** The entries [proc_pagetable] makes. *)
Definition proc_view (tf va : Z) : Z :=
  if va / PGSIZE =? TRAMPOLINE / PGSIZE then Z.lor (Z.lor (PA2PTE sym_trampoline) (Z.lor PTE_R PTE_X)) PTE_V
  else if va / PGSIZE =? TRAPFRAME / PGSIZE then Z.lor (Z.lor (PA2PTE tf) (Z.lor PTE_R PTE_W)) PTE_V
  else 0.

Lemma mapped_page v a pa perm va : a mod PGSIZE = 0 ->
  mapped v a PGSIZE pa perm va =
    if va / PGSIZE =? a / PGSIZE then Z.lor (Z.lor (PA2PTE pa) perm) PTE_V else v va.
Proof.
  intros Ha. unfold mapped. destruct (Z.eqb_spec (va / PGSIZE) (a / PGSIZE)) as [E|E].
  - assert (PGROUNDDOWN va = a) as Hp by (rewrite PGROUNDDOWN_div, E, <- PGROUNDDOWN_div; by apply PGROUNDDOWN_id).
    pose proof (PGROUNDDOWN_bounds va).
    rewrite (proj2 (Z.leb_le a va)), (proj2 (Z.ltb_lt va _)) by lia. simpl.
    by rewrite Hp, Z.sub_diag, Z.add_0_r.
  - destruct ((a <=? va) && (va <? a + PGSIZE)) eqn:X; [|done]. exfalso. apply E.
    apply andb_true_iff in X as [X1%Z.leb_le X2%Z.ltb_lt].
    unfold PGSIZE in *. Z.to_euclidean_division_equations; lia.
Qed.

(** [mappages] of one page. *)
Lemma wp_mappage Q s pt T l n a pa perm :
  KERNBASE <= sym_end -> 0 <= a -> a mod PGSIZE = 0 -> a + PGSIZE <= MAXVA -> pt_rep (k_mem s) pt T ->
  alloc_ok s l (2 + n) -> (2 <= length l)%nat -> (forall q, q ∈ l -> ~ in_table T q) ->
  0 <= pa -> pa + PGSIZE <= 2 ^ 56 -> pa mod PGSIZE = 0 -> 0 <= perm < 1024 ->
  (forall va, va / PGSIZE = a / PGSIZE -> Z.land (view (k_mem s) T va) PTE_V = 0) ->
  (forall s' T' l', grown s s' pt T T' l l' -> alloc_ok s' l' n -> (length l <= length l' + 2)%nat ->
     (forall va, user_va va ->
        view (k_mem s') T' va =
          if va / PGSIZE =? a / PGSIZE then Z.lor (Z.lor (PA2PTE pa) perm) PTE_V else view (k_mem s) T va) ->
     Q 0 s') ->
  wp (mappages pt a PGSIZE pa perm) Q s.
Proof.
  intros He Ha Hm Hmax HT Hal Hlen Hfr Hpa Hpm Hpx Hperm Hun HQ.
  assert (PGROUNDDOWN a = a) as Ha0 by (by apply PGROUNDDOWN_id).
  assert (PGROUNDDOWN (a + PGSIZE - 1) = a) as Hlast.
  { rewrite PGROUNDDOWN_eq. unfold PGSIZE in *. Z.to_euclidean_division_equations; lia. }
  apply (wp_mappages _ s pt T l n); rewrite ?Ha0, ?Hlast, ?Z.sub_diag;
    change (0 / PGSIZE + 1) with 1; rewrite ?Z.mul_1_l; try done; try lia.
  - intros va Hva. apply Hun. unfold PGSIZE in *. Z.to_euclidean_division_equations; lia.
  - intros s' T' l' G A Hl V. apply (HQ s' T' l'); [done|done|lia|].
    intros va Hva. rewrite V by done. by apply mapped_page.
Qed.

Lemma wp_proc_pagetable i p Q s r l n :
  KERNBASE <= sym_end -> k_procs s !! i = Some p -> alloc_ok s (r :: l) (5 + n) -> (4 <= length l)%nat ->
  sym_trampoline mod PGSIZE = 0 -> 0 <= sym_trampoline < PHYSTOP ->
  p_tf p mod PGSIZE = 0 -> 0 <= p_tf p < PHYSTOP ->
  (forall s' T l', vframe s s' -> alloc_ok s' l' n -> (length l <= length l' + 4)%nat ->
     (exists used, l = used ++ l') -> pt_rep (k_mem s') r T ->
     (forall q, in_table T q -> q ∈ r :: l) -> (forall q, q ∈ l' -> ~ in_table T q) ->
     (forall va, user_va va -> view (k_mem s') T va = proc_view (p_tf p) va) ->
     (forall q, q ∉ r :: l -> k_mem s' !! q = k_mem s !! q) -> Q r s') ->
  wp (proc_pagetable i) Q s.
Proof.
  intros He Hp Hal Hlen Htm Htr Hfm Hfr HQ. unfold proc_pagetable. kstep.
  pose proof (proj2 (ao_free _ _ _ Hal)) as [Hrl _]%NoDup_cons.
  apply (wp_uvmcreate _ s r l (2 + (2 + n))); [done..|]. intros s1 F1 A1 R1 O1. kstep.
  eapply (wp_mappage _ s1 r _ l (2 + n)); try done.
  - lia.
  - intros q Hq [path [_ E]%lookup_singleton_Some]. congruence.
  - lia.
  - consts. lia.
  - intros va _. by rewrite empty_view.
  - intros s2 T2 l2 G2 A2 Hl2 V2. kstep. pose proof G2 as [F2 R2 S2 N2 [u2 Hu2] X2 O2].
    pose proof F1 as [F1' _]. pose proof F2 as [F2' _]. frame_use F1' Fprocs. frame_use F2' Fprocs.
    eapply wp_get_proc; [by rewrite <- Hfr1, <- Hfr0|]. kstep.
    eapply (wp_mappage _ s2 r T2 l2 n); try done.
    + lia.
    + lia.
    + consts. lia.
    + intros va E. rewrite V2.
      * rewrite (proj2 (Z.eqb_neq _ _)) by (rewrite E; by vm_compute). by rewrite empty_view.
      * unfold user_va. consts. change ((2 ^ 38 - 4096 - 4096) / 4096) with 67108862 in E.
        Z.to_euclidean_division_equations; lia.
    + intros s3 T3 l3 G3 A3 Hl3 V3. kstep. pose proof G3 as [F3 R3 S3 N3 [u3 Hu3] X3 O3].
      assert (forall q, in_table T3 q -> q ∈ r :: l) as Hin.
      { intros q [[[path [_ <-]%lookup_singleton_Some]|?]%N2|Hq]%N3; [by left|by right|].
        right. rewrite Hu2. apply elem_of_app. by right. }
      apply (HQ s3 T3 l3); try done.
      * etrans; [exact F1|by etrans].
      * lia.
      * exists (u2 ++ u3). rewrite Hu2, Hu3. by rewrite app_assoc.
      * intros va Hva. rewrite V3, V2 by done. unfold proc_view. rewrite empty_view.
        destruct (Z.eqb_spec (va / PGSIZE) (TRAMPOLINE / PGSIZE)) as [E|E]; [|done].
        rewrite (proj2 (Z.eqb_neq _ _)); [done|]. rewrite E. by vm_compute.
      * intros q Hq. rewrite O3, O2, O1; [done|..].
        -- intros ->. apply Hq. by left.
        -- intros [path Hx]. apply Hq, Hin. exists path. by eapply lookup_weaken.
        -- intros Hx. by apply Hq, Hin.
Qed.

(** ** Identifiers *)

Lemma wp_allocpid Q s :
  hart_ok (k_hart s) -> k_locks s !! LPid = None ->
  (forall s', frame [Fnextpid] s s' -> k_nextpid s' = i32 (k_nextpid s + 1) -> Q (k_nextpid s) s') ->
  wp allocpid Q s.
Proof.
  intros Hh Hl HQ. unfold allocpid. kstep. apply wp_acquire; [done..|]. kstep.
  eapply (wp_release_frame [Fnextpid] _ _ s); [done|done|frame_solve|done..|]. intros F. kstep.
  by apply HQ.
Qed.

Lemma wp_alloclocalpid c cont Q s :
  hart_ok (k_hart s) -> k_locks s !! LCid = None -> k_conts s !! c = Some cont ->
  (forall s', frame [Fconts] s s' ->
     k_conts s' = <[c := cont <| c_nextlocalpid := i32 (c_nextlocalpid cont + 1) |>]> (k_conts s) ->
     Q (c_nextlocalpid cont) s') ->
  wp (alloclocalpid c) Q s.
Proof.
  intros Hh Hl Hc HQ. unfold alloclocalpid, acquirecidlock, releasecidlock. kstep.
  apply wp_acquire; [done..|]. kstep.
  eapply (wp_release_frame [Fconts] _ _ s); [done|done|frame_solve|done..|]. intros F. kstep.
  by apply HQ.
Qed.

(** ** Finding a slot *)

Lemma wp_find_unused Q s :
  length (k_procs s) = NPROC -> hart_ok (k_hart s) -> procs_unlocked s ->
  (forall i p s0, list_find (fun p => p_state p = UNUSED) (k_procs s) = Some (i, p) -> frame [] s s0 ->
     Q (Some i) (acq (LProc i) s0)) ->
  (forall s', list_find (fun p => p_state p = UNUSED) (k_procs s) = None -> frame [] s s' -> Q None s') ->
  wp find_unused Q s.
Proof.
  intros Hlen Hh Hl HQ HN. unfold find_unused. rewrite <- Hlen.
  apply (wp_find_table (fun p => p_state p = UNUSED)).
  - intros i p s0 F Hp Hno. destruct (peek_ok s Hh Hl s0 i F). frame_use F Fprocs.
    apply (wp_peek i p); [done..|congruence|]. rewrite bool_decide_eq_false_2 by done.
    apply (wp_release_peek s Hh Hl); [done|]. intros s1 F1. by kstep.
  - intros i p s0 F Hfind. pose proof Hfind as (Hp & Hst & _)%list_find_Some.
    destruct (peek_ok s Hh Hl s0 i F). frame_use F Fprocs.
    apply (wp_peek i p); [done..|congruence|]. rewrite bool_decide_eq_true_2 by done. kstep.
    exists i. split; [done|]. by eapply HQ.
  - intros s' F Hnone. by apply HN.
Qed.

Lemma frame_acq lk s s0 : hart_ok (k_hart s) -> frame [] s s0 -> frame [] (acq lk s) (acq lk s0).
Proof.
  intros [Hn _] F f Hf. pose proof (F Fhart ltac:(set_solver)) as (E1 & E2 & E3 & E4 & E5).
  specialize (F f Hf). destruct f; simpl in *; try done.
  - unfold hart_equiv, hpush; simpl. rewrite <- E1, <- E2, <- E3, <- E4. split_and!; [done..|].
    intros _. destruct (Z.eqb_spec (ht_noff (k_hart s)) 0); [done|]. apply E5. lia.
  - by rewrite F, E1.
Qed.

(** ** [allocproc] *)

(** A page allocator that works keeps working while another lock is held and while the entry of a
    process that is not the current one changes. *)
Lemma alloc_ok_acq lk s s0 l n :
  alloc_ok s l n -> frame [] s s0 -> lk <> LKmem -> lk <> LPr -> alloc_ok (acq lk s0) l n.
Proof.
  intros A F H1 H2. pose proof A as [[? [Hpan Hpr] ???] Hlk ? ?].
  pose proof (frame_get Fhart _ _ _ F eq_refl) as (_ & Hp & _).
  frame_use F Flocks. frame_use F Fpanicked. frame_use F Fprocs. frame_use F Fconts.
  frame_use F Fmem. frame_use F Ffreelist.
  eapply alloc_ok_change; [exact A|..].
  - by apply hart_ok_hpush, (hart_ok_frame _ _ _ F).
  - split; unfold acq; kfields; [congruence|]. rewrite lookup_insert_ne by done. congruence.
  - unfold acq; kfields. rewrite lookup_insert_ne by done. congruence.
  - unfold acq; kfields. congruence.
  - unfold acq; kfields. intros. by rewrite Hfr3.
  - unfold acq; kfields. simpl. done.
  - unfold acq; kfields. intros. by rewrite Hfr1.
  - unfold acq; kfields. rewrite <- Hfr2. apply same_mem_refl.
Qed.

Lemma alloc_ok_proc i p s l n :
  alloc_ok s l n -> ht_proc (k_hart s) <> Some i -> alloc_ok (s <| k_procs ::= <[i := p]> |>) l n.
Proof.
  intros A Hi. pose proof A as [[] ? ? ?]. eapply alloc_ok_change; [exact A|done..| |].
  - kfields. intros j Hj. rewrite list_lookup_insert_ne; [done|]. congruence.
  - apply same_mem_refl.
Qed.

Lemma alloc_ok_conts c cont cont' s l n :
  alloc_ok s l n -> k_conts s !! c = Some cont -> same_mem cont cont' ->
  forall s', frame [Fconts] s s' -> k_conts s' = <[c := cont']> (k_conts s) -> alloc_ok s' l n.
Proof.
  intros A Hc Hsm s' F Hc'. pose proof A as [[] Hlk ? ?].
  pose proof (frame_get Fhart _ _ _ F eq_refl) as (_ & Hp & _).
  frame_use F Flocks. frame_use F Fprocs. frame_use F Fmem. frame_use F Ffreelist.
  eapply alloc_ok_change; [exact A|..].
  - by eapply hart_ok_frame.
  - by eapply console_ok_frame.
  - congruence.
  - done.
  - intros. by rewrite Hfr1.
  - done.
  - intros. by rewrite Hfr0.
  - rewrite Hc'. apply Forall2_same_length_lookup. split; [by rewrite length_insert|].
    intros j x y Hx Hy. destruct (decide (j = c)) as [->|].
    + rewrite list_lookup_insert_eq in Hy by (by eapply lookup_lt_Some). by simplify_eq.
    + rewrite list_lookup_insert_ne in Hy by done. simplify_eq. by repeat split.
Qed.

Definition alloc_frame : list field := [Fprocs; Fnextpid; Fconts; Ffreelist; Fmem; Fout].

Definition new_proc (p : proc) (c : nat) (pid lpid tf pt : Z) : proc :=
  p <| p_pid := pid |> <| p_local_pid := lpid |> <| p_cont := Some c |> <| p_tf := tf |>
    <| p_pagetable := pt |>
    <| p_context := mkcontext sym_forkret (u64 (p_kstack p + PGSIZE)) (replicate 12 0) |>.

(** The identifiers: the part of [allocproc] before the first allocation. *)
Lemma wp_allocproc_ids {B} (k : Z -> K B) i p c cont l n Q s :
  alloc_ok s l n -> ht_proc (k_hart s) <> Some i -> k_procs s !! i = Some p -> k_conts s !! c = Some cont ->
  k_locks s !! LPid = None -> k_locks s !! LCid = None ->
  (forall s' lpid, frame [Fprocs; Fnextpid; Fconts] s s' -> alloc_ok s' l n ->
     lpid = (if c_isroot cont =? 0 then c_nextlocalpid cont else k_nextpid s) ->
     k_nextpid s' = i32 (k_nextpid s + 1) -> standing <$> k_conts s' = standing <$> k_conts s ->
     k_procs s' = <[i := p <| p_pid := k_nextpid s |> <| p_local_pid := lpid |> <| p_cont := Some c |>]> (k_procs s) ->
     wp (k lpid) Q s') ->
  wp (pid ← allocpid;
      upd_proc i (set p_pid (fun _ => pid));;
      cont ← get_cont c;
      lpid ← (if negb (c_isroot cont =? 0) then mret pid else alloclocalpid c);
      upd_proc i (set p_local_pid (fun _ => lpid));;
      upd_proc i (set p_cont (fun _ => Some c));;
      k lpid) Q s.
Proof.
  intros A Hcur Hp Hc Hlp Hlc HQ. pose proof (kok_hart _ (ao_kernel _ _ _ A)) as Hh.
  assert (i < length (k_procs s))%nat as Hlt by (by eapply lookup_lt_Some).
  kstep. apply wp_allocpid; [done..|]. intros s1 F1 Hn1. kstep.
  frame_use F1 Fprocs. frame_use F1 Fconts. frame_use F1 Flocks.
  eapply wp_upd_proc; [by rewrite <- Hfr|]. kstep. eapply wp_get_cont; [kfields; by rewrite <- Hfr0|]. kstep.
  match goal with |- wp _ _ ?st => set (s2 := st) end.
  assert (alloc_ok s2 l n) as A2.
  { apply alloc_ok_proc.
    - eapply alloc_ok_agree; [exact A|done|exact F1|done|]. frame_use F1 Fmem. intros. by rewrite Hfr2.
    - by destruct (frame_get Fhart _ _ _ F1 eq_refl) as (_ & <- & _). }
  assert (frame [Fprocs; Fnextpid; Fconts] s s2) as F2.
  { etrans; [eapply frame_more; [|exact F1]; done|frame_solve]. }
  assert (forall s3 lpid, frame [Fconts] s2 s3 -> alloc_ok s3 l n ->
            lpid = (if c_isroot cont =? 0 then c_nextlocalpid cont else k_nextpid s) ->
            standing <$> k_conts s3 = standing <$> k_conts s ->
            wp (upd_proc i (set p_local_pid (fun _ => lpid)))
               (fun _ s' => wp (upd_proc i (set p_cont (fun _ => Some c));; k lpid) Q s') s3) as Hend.
  { intros s3 lpid F3 A3 Hlpid Hst. frame_use F3 Fprocs. frame_use F3 Fnextpid.
    assert (k_procs s3 !! i = Some (p <| p_pid := k_nextpid s |>)) as Hp3.
    { rewrite <- Hfr2. unfold s2. kfields. apply list_lookup_insert_eq. by rewrite <- Hfr. }
    kstep. apply HQ; [| |done| |done|].
    - etrans; [exact F2|]. etrans; [eapply frame_more; [|exact F3]; done|frame_solve].
    - assert (ht_proc (k_hart s3) <> Some i).
      { destruct (frame_get Fhart _ _ _ F3 eq_refl) as (_ & <- & _).
        by destruct (frame_get Fhart _ _ _ F2 eq_refl) as (_ & <- & _). }
      by do 2 (apply alloc_ok_proc; [|done]).
    - kfields. rewrite <- Hfr3. done.
    - kfields. rewrite <- Hfr2. unfold s2. kfields. rewrite !list_insert_insert_eq, <- Hfr. done. }
  destruct (Z.eqb_spec (c_isroot cont) 0) as [Hr|Hr]; cbn [negb].
  - apply (wp_alloclocalpid c cont).
    + apply A2.
    + unfold s2. kfields. congruence.
    + unfold s2. kfields. congruence.
    + intros s3 F3 Hc3. kstep. apply Hend; [done| |done|].
      2: { rewrite Hc3. unfold s2. kfields. rewrite <- Hfr0, list_fmap_insert. apply list_insert_id.
           by rewrite list_lookup_fmap, Hc. }
      eapply (alloc_ok_conts c cont); [exact A2| | |exact F3|exact Hc3]; [unfold s2; kfields; congruence|].
      by repeat split.
  - kstep. apply Hend; [done..|]. unfold s2. kfields. by rewrite Hfr0.
Qed.

(** What [allocproc] leaves: entry [i] holds the new process, whose table [T] maps only the
    trampoline and the trapframe; the pages were free ones, and there is room for [n] more. *)
Record allocated (s s' : kstate) (i : nat) (p : proc) (c : nat) (cont : container) (l : list Z) (n : nat) : Prop := {
  al_frame : frame alloc_frame (acq (LProc i) s) s';
  al_conts : standing <$> k_conts s' = standing <$> k_conts s;
  al_pid : k_nextpid s' = i32 (k_nextpid s + 1);
  al_proc : exists tf pt T l', 
    k_procs s' = <[i := new_proc p c (k_nextpid s)
                          (if c_isroot cont =? 0 then c_nextlocalpid cont else k_nextpid s) tf pt]> (k_procs s) /\
    pt_rep (k_mem s') pt T /\ (forall va, user_va va -> view (k_mem s') T va = proc_view tf va) /\
    (exists used, l = tf :: pt :: used ++ l' /\ (length used <= 4)%nat) /\ alloc_ok s' l' n /\
    (forall q, in_table T q -> q ∈ l) /\ (forall q, q ∈ l' -> ~ in_table T q) /\ ~ in_table T tf /\
    good_page tf /\ page_in (k_mem s') tf /\ (forall q, (q ∉ l) -> k_mem s' !! q = k_mem s !! q)
}.

Lemma wp_allocproc c cont i p tf pt l n Q s :
  KERNBASE <= sym_end -> sym_trampoline mod PGSIZE = 0 -> 0 <= sym_trampoline < PHYSTOP ->
  length (k_procs s) = NPROC -> procs_unlocked s ->
  k_locks s !! LPid = None -> k_locks s !! LCid = None -> k_conts s !! c = Some cont ->
  alloc_ok s (tf :: pt :: l) (6 + n) -> (4 <= length l)%nat ->
  list_find (fun p => p_state p = UNUSED) (k_procs s) = Some (i, p) -> ht_proc (k_hart s) <> Some i ->
  (forall s', allocated s s' i p c cont (tf :: pt :: l) n -> Q (Some i) s') ->
  wp (allocproc c) Q s.
Proof.
  intros He Htm Htr Hlen Hpl Hlp Hlc Hc A Hll Hfind Hcur HQ.
  pose proof (kok_hart _ (ao_kernel _ _ _ A)) as Hh. pose proof Hfind as (Hp & _ & _)%list_find_Some.
  unfold allocproc. kstep. apply wp_find_unused; [done..| |by rewrite Hfind].
  intros i' p' s0 Hf' F0. rewrite Hfind in Hf'. injection Hf' as <- <-.
  pose proof (alloc_ok_acq (LProc i) s s0 _ _ A F0 ltac:(done) ltac:(done)) as A0.
  pose proof (frame_acq (LProc i) _ _ Hh F0) as FA. frame_use F0 Fprocs. frame_use F0 Fconts. frame_use F0 Flocks.
  frame_use F0 Fnextpid. frame_use F0 Fmem.
  eapply (wp_allocproc_ids (fun lpid => _) i p c cont); [exact A0| | | | | |].
  { by destruct (frame_get Fhart _ _ _ F0 eq_refl) as (_ & Hx & _); simpl; rewrite <- Hx. }
  { simpl. by rewrite <- Hfr. }
  { simpl. by rewrite <- Hfr0. }
  { unfold acq. kfields. rewrite lookup_insert_ne by done. by rewrite <- Hfr1. }
  { unfold acq. kfields. rewrite lookup_insert_ne by done. by rewrite <- Hfr1. }
  intros s1 lpid F1 A1 Hlpid Hn1 Hc1 Hp1. kstep.
  change (k_conts (acq (LProc i) s0)) with (k_conts s0) in Hc1. rewrite <- Hfr0 in Hc1.
  change (k_procs (acq (LProc i) s0)) with (k_procs s0) in Hp1. rewrite <- Hfr in Hp1.
  change (k_nextpid (acq (LProc i) s0)) with (k_nextpid s0) in *. rewrite <- Hfr2 in *.
  assert (i < length (k_procs s))%nat as Hlt by (by eapply lookup_lt_Some).
  pose proof A1 as [_ _ [_ Hnd] _]. apply NoDup_cons in Hnd as [Htf Hnd].
  eapply (wp_kalloc_room tf (pt :: l) (5 + n)); [done|exact A1|]. intros s2 [F2 Hc2] A2 Htf0 Hvtf Hm2. kstep.
  frame_use F2 Fprocs. frame_use F2 Fnextpid. frame_use F1 Fmem.
  change (k_mem (acq (LProc i) s0)) with (k_mem s0) in Hfr6. rewrite <- Hfr6, <- Hfr3 in Hm2.
  eapply wp_upd_proc; [rewrite <- Hfr4, Hp1; by apply list_lookup_insert_eq|].
  rewrite (proj2 (Z.eqb_neq tf 0)) by done. kstep.
  match goal with |- wp _ _ ?st => set (s3 := st) end.
  set (p3 := p <| p_pid := k_nextpid s |> <| p_local_pid := lpid |> <| p_cont := Some c |>
               <| p_tf := tf |>).
  assert (k_procs s3 = <[i := p3]> (k_procs s)) as Hp3.
  { unfold s3. kfields. rewrite <- Hfr4, Hp1, list_insert_insert_eq. done. }
  assert (frame alloc_frame (acq (LProc i) s) s3) as F3.
  { etrans; [eapply frame_more; [|exact FA]; done|]. etrans; [eapply frame_more; [|exact F1]; done|].
    etrans; [eapply frame_more; [|exact F2]; done|frame_solve]. }
  assert (alloc_ok s3 (pt :: l) (5 + n)) as A3.
  { apply alloc_ok_proc; [done|]. destruct (frame_get Fhart _ _ _ F2 eq_refl) as (_ & <- & _).
    destruct (frame_get Fhart _ _ _ F1 eq_refl) as (_ & <- & _).
    by destruct (frame_get Fhart _ _ _ F0 eq_refl) as (_ & Hx & _); simpl; rewrite <- Hx. }
  assert (k_nextpid s3 = i32 (k_nextpid s + 1)) as Hn3 by (unfold s3; kfields; congruence).
  assert (k_mem s3 = <[tf := replicate (Z.to_nat PGSIZE) 5]> (k_mem s)) as Hm3 by done.
  assert (standing <$> k_conts s3 = standing <$> k_conts s) as Hc3 by (unfold s3; kfields; congruence).
  clearbody s3. assert (0 <= tf < PHYSTOP) by (destruct Hvtf; consts; lia).
  apply (wp_proc_pagetable i p3 _ s3 pt l n); try done.
  { rewrite Hp3. by apply list_lookup_insert_eq. }
  { apply Hvtf. }
  intros s4 T l4 [F4 Hc4] A4 Hl4 [used Hused] R4 Hin4 Hfr4' V4 O4. kstep. frame_use F4 Fprocs. frame_use F4 Fnextpid.
  assert (k_procs s4 !! i = Some p3) as Hp4 by (rewrite <- Hfr7, Hp3; by apply list_lookup_insert_eq).
  kstep. destruct (pr_page _ _ _ R4 _ _ (pr_root _ _ _ R4)) as [[_ Hpt] _].
  rewrite (proj2 (Z.eqb_neq pt 0)) by lia. kstep. apply HQ. split.
  - etrans; [exact F3|]. etrans; [eapply frame_more; [|exact F4]; done|frame_solve].
  - kfields. congruence.
  - kfields. congruence.
  - exists tf, pt, T, l4. kfields. split_and!; try done.
    + rewrite !list_insert_insert_eq, <- Hfr7, Hp3, list_insert_insert_eq. by subst lpid.
    + exists used. rewrite Hused. split; [done|]. rewrite Hused, length_app in Hl4. lia.
    + assert (ht_proc (k_hart s4) <> Some i).
      { destruct (frame_get Fhart _ _ _ F4 eq_refl) as (_ & <- & _).
        by destruct (frame_get Fhart _ _ _ F3 eq_refl) as (_ & <- & _). }
      by do 2 (apply alloc_ok_proc; [|done]).
    + intros q ?%Hin4. by right.
    + intros Hx%Hin4. done.
    + by apply valid_good.
    + exists (replicate (Z.to_nat PGSIZE) 5). rewrite O4, Hm3, lookup_insert_eq by done.
      split; [done|apply length_replicate].
    + intros q Hq. apply not_elem_of_cons in Hq as [Hq1 Hq2]. rewrite O4 by done.
      by rewrite Hm3, lookup_insert_ne.
Qed.

(** C34. [allocproc] with an unused slot and six free pages returns the first unused slot with its lock
    held.  The process has the next global pid (which is also its local pid in the root container;
    in another one it has the container's next local pid), belongs to the container, starts in
    [forkret] on its own kernel stack, and its page table maps the trampoline and the new trapframe
    page for the kernel only and no other address.  Other processes are untouched and no page that
    was in use changes. *)
Theorem allocproc_new (c : nat) (cont : container) (i : nat) (p : proc) (tf pt : Z) (l : list Z) (s : kstate) :
  KERNBASE <= sym_end -> sym_trampoline mod PGSIZE = 0 -> 0 <= sym_trampoline < PHYSTOP ->
  length (k_procs s) = NPROC -> procs_unlocked s ->
  k_locks s !! LPid = None -> k_locks s !! LCid = None -> k_conts s !! c = Some cont ->
  alloc_ok s (tf :: pt :: l) 6 -> (4 <= length l)%nat ->
  list_find (fun p => p_state p = UNUSED) (k_procs s) = Some (i, p) -> ht_proc (k_hart s) <> Some i ->
  wp (allocproc c) (fun r s' =>
    r = Some i /\ allocated s s' i p c cont (tf :: pt :: l) 0 /\
    k_locks s' !! LProc i = Some (ht_id (k_hart s'))) s.
Proof.
  intros. eapply (wp_allocproc _ _ _ _ _ _ _ 0); [done..|]. intros s' Hal. split_and!; [done..|].
  destruct Hal as [F _ _ _]. frame_use F Flocks. destruct (frame_get Fhart _ _ _ F eq_refl) as (Hid & _).
  rewrite <- Hfr, <- Hid. simpl. by rewrite lookup_insert_eq.
Qed.
End procalloc.

(** ** Example: six free pages, slot 0 is the first unused one *)

Definition page_n (k : Z) : Z := PHYSTOP - k * PGSIZE.
Definition four_pages : list Z := [page_n 3; page_n 4; page_n 5; page_n 6].
Definition cont_1 : container := zero_container <| c_state := CRUNNABLE |> <| c_nextlocalpid := 1 |>.
Definition roomy : kstate :=
  bss <| k_freelist := page_n 1 |> <| k_mem := chain (page_n 1 :: page_n 2 :: four_pages) |>
      <| k_conts ::= <[1%nat := cont_1]> |>.

Lemma allocproc_new_witness :
  wp (allocproc (H := small_machine) 1) (fun r s' =>
    r = Some 0%nat /\
    allocated (H := small_machine) roomy s' 0 zero_proc 1 cont_1 (page_n 1 :: page_n 2 :: four_pages) 0 /\
    k_locks s' !! LProc 0 = Some (ht_id (k_hart s'))) roomy.
Proof.
  apply (allocproc_new (H := small_machine) 1 cont_1 0 zero_proc (page_n 1) (page_n 2) four_pages roomy).
  - by vm_compute.
  - by vm_compute.
  - by vm_compute.
  - reflexivity.
  - intros i. reflexivity.
  - reflexivity.
  - reflexivity.
  - reflexivity.
  - split; [|reflexivity| |exact I].
    + split; [split; simpl; [lia|done]|split; reflexivity| |intros i Hi; discriminate Hi|intros i Hi; discriminate Hi].
      apply Forall_insert; [apply Forall_replicate|]; vm_compute; by left.
    + split; [apply (chain_rep (H := small_machine)); [by vm_compute|..]|]; unfold four_pages; pages.
  - simpl. lia.
  - reflexivity.
  - intros Hx. discriminate Hx.
Defined.
