(* ===== verification/Copy.v ===== *)
(** [uvmcopy] of [kernel/vm.c]: the user memory of a new process is a copy of its parent's. *)
From S2P Require Import Prelude Types Kstate Cstring Spinlock Frame Printf Accounting Kalloc Vm Pagetable Uvm Proc Procalloc.
From stdpp Require Import base numbers list gmap strings.
From Stdlib Require Import ZArith Lia.

Local Open Scope Z_scope.
Local Open Scope xv6_scope.

(** ** Memories that agree on a table *)

Lemma entry_agree mem mem' p i : mem' !! p = mem !! p -> entry mem' p i = entry mem p i.
Proof. intros E. unfold entry. by rewrite E. Qed.

Lemma pt_rep_agree mem mem' pt T :
  (forall q, in_table T q -> mem' !! q = mem !! q) -> pt_rep mem pt T -> pt_rep mem' pt T.
Proof.
  intros Hq [? Hpg ? ? ? Hlk]. split; try done.
  - intros path p Hp. destruct (Hpg _ _ Hp) as [? (bs & Hbs & ?)]. split; [done|]. exists bs.
    by rewrite Hq by (by exists path).
  - intros path p i Hp ??. rewrite (entry_agree mem) by (apply Hq; by exists path). by apply Hlk.
Qed.

Lemma view_agree mem mem' T va :
  (forall q, in_table T q -> mem' !! q = mem !! q) -> view mem' T va = view mem T va.
Proof. intros Hq. unfold view. destruct (T !! idx va) eqn:E; [|done]. apply entry_agree, Hq. by exists (idx va). Qed.

Lemma flags_lt e : 0 <= PTE_FLAGS e < 1024.
Proof. unfold PTE_FLAGS. change 0x3FF with (Z.ones 10). rewrite Z.land_ones by lia. apply Z.mod_pos_bound. lia. Qed.

Lemma flags_range e : 0 <= Z.lor (PTE_FLAGS e) PTE_V < 1024.
Proof.
  unfold PTE_FLAGS. change 0x3FF with (Z.ones 10). rewrite Z.land_ones by lia.
  pose proof (Z.mod_pos_bound e (2 ^ 10) ltac:(lia)). split; [apply Z.lor_nonneg; split; [lia|done]|].
  destruct (Z.eq_dec (Z.lor (e mod 2 ^ 10) PTE_V) 0) as [->|Hne]; [lia|].
  assert (0 <= Z.lor (e mod 2 ^ 10) PTE_V) by (apply Z.lor_nonneg; split; [lia|done]).
  apply (Z.log2_lt_pow2 _ 10); [lia|]. rewrite Z.log2_lor by (done || lia). apply Z.max_lub_lt; [|done].
  destruct (Z.eq_dec (e mod 2 ^ 10) 0) as [->|]; [done|]. apply Z.log2_lt_pow2; lia.
Qed.

Lemma in_page k va : k mod PGSIZE = 0 -> k <= va < k + PGSIZE <-> va / PGSIZE = k / PGSIZE.
Proof. unfold PGSIZE. intros. split; Z.to_euclidean_division_equations; lia. Qed.

Section copy.
Context {EN : Env} (old new : Z) (T U : table) (l : list Z) (s : kstate) (sz : Z).

(** The page the parent has at [va], whether or not the user may touch it. *)
Definition frame_of (va : Z) : Z := PTE2PA (view (k_mem s) T va).

(** The parent's pages below [sz] are mapped and apart from the new table and the free pages. *)
Record copy_ok : Prop := {
  ck_end : KERNBASE <= sym_end;
  ck_sz : 0 <= sz <= MAXVA - 2 * PGSIZE;
  ck_old : pt_rep (k_mem s) old T;
  ck_new : pt_rep (k_mem s) new U;
  ck_fresh : forall q, q ∈ l -> ~ in_table U q;
  ck_old_apart : forall q, in_table T q -> (q ∉ l) /\ ~ in_table U q;
  ck_there : forall va, 0 <= va < PGROUNDUP sz -> Z.land (view (k_mem s) T va) PTE_V <> 0;
  ck_pages : forall va, 0 <= va < PGROUNDUP sz ->
    frame_of va <> 0 /\ page_in (k_mem s) (frame_of va) /\ (frame_of va ∉ l) /\ ~ in_table U (frame_of va);
  ck_blank : forall va, 0 <= va < PGROUNDUP sz -> Z.land (view (k_mem s) U va) PTE_V = 0
}.

(** State [s'] with the pages below [k] copied: the new table is [U'] and [l'] is free. *)
Record copied (k : Z) (s' : kstate) (U' : table) (l' : list Z) : Prop := {
  cp_frame : vframe s s';
  cp_rep : pt_rep (k_mem s') new U';
  cp_list : exists used, l = used ++ l';
  cp_in : forall q, in_table U' q -> in_table U q \/ q ∈ l;
  cp_fresh : forall q, q ∈ l' -> ~ in_table U' q;
  cp_other : forall q, (q ∉ l) -> ~ in_table U q -> k_mem s' !! q = k_mem s !! q;
  cp_above : forall va, user_va va -> k <= va -> view (k_mem s') U' va = view (k_mem s) U va;
  cp_below : forall va, 0 <= va < k -> exists pa,
    view (k_mem s') U' va = Z.lor (Z.lor (PA2PTE pa) (PTE_FLAGS (view (k_mem s) T va))) PTE_V /\
    good_page pa /\ (pa ∈ l) /\ (pa ∉ l') /\ ~ in_table U' pa /\ k_mem s' !! pa = k_mem s !! frame_of va;
  cp_inj : forall va va', 0 <= va < k -> 0 <= va' < k ->
    PTE2PA (view (k_mem s') U' va) = PTE2PA (view (k_mem s') U' va') -> va / PGSIZE = va' / PGSIZE
}.

Lemma frame_of_page va : PGROUNDDOWN (frame_of va) = frame_of va /\ frame_of va mod PGSIZE = 0.
Proof. pose proof (PTE2PA_mod (view (k_mem s) T va)). split; [|done]. by apply PGROUNDDOWN_id. Qed.

(** The whole page at [pa]. *)
Lemma wp_read_page pa bs Q s2 :
  pa mod PGSIZE = 0 -> k_mem s2 !! pa = Some bs -> length bs = Z.to_nat PGSIZE -> Q bs s2 ->
  wp (read_phys pa (Z.to_nat PGSIZE)) Q s2.
Proof.
  intros Hm Hb Hl HQ. unfold read_phys. rewrite PGROUNDDOWN_id, Hm by done. kstep.
  rewrite bool_decide_eq_true_2 by (simpl; lia). kstep. unfold slice. simpl. by rewrite drop_0, take_ge by lia.
Qed.

Lemma wp_write_page pa bs new_bs Q s2 :
  pa mod PGSIZE = 0 -> k_mem s2 !! pa = Some bs -> length bs = Z.to_nat PGSIZE ->
  length new_bs = Z.to_nat PGSIZE -> Q tt (s2 <| k_mem ::= <[pa := new_bs]> |>) -> wp (write_phys pa new_bs) Q s2.
Proof.
  intros Hm Hb Hl Hn HQ. unfold write_phys. rewrite PGROUNDDOWN_id, Hm by done. kstep.
  rewrite bool_decide_eq_true_2 by (simpl; lia). kstep. unfold splice. simpl. rewrite drop_ge, app_nil_r by lia. done.
Qed.

Section turn.
Context (Hck : copy_ok) (k : Z) (s2 : kstate) (U2 : table) (l2 : list Z).
Hypothesis Hcp : copied k s2 U2 l2.

Lemma copied_old q : in_table T q -> k_mem s2 !! q = k_mem s !! q.
Proof. intros Hq. destruct (ck_old_apart Hck q Hq). by apply (cp_other _ _ _ _ Hcp). Qed.

Lemma copied_frame va : 0 <= va < PGROUNDUP sz -> k_mem s2 !! frame_of va = k_mem s !! frame_of va.
Proof. intros Hva. destruct (ck_pages Hck va Hva) as (_ & _ & ? & ?). by apply (cp_other _ _ _ _ Hcp). Qed.

(** One more page: [p] was free, holds the parent's page, and is entered in the table. *)
Section next.
Context (p : Z) (l3 : list Z) (bs : list Z) (s3 s4 : kstate) (U4 : table) (l4 : list Z).
Hypothesis Hl2 : l2 = p :: l3.
Hypothesis Hnd : NoDup l2.
Hypothesis Hgp : good_page p.
Hypothesis Hk : 0 <= k < sz.
Hypothesis Hkm : k mod PGSIZE = 0.
Hypothesis F3 : vframe s2 s3.
Hypothesis Hm3 : k_mem s3 = <[p := bs]> (k_mem s2).
Hypothesis Hbs : k_mem s !! frame_of k = Some bs.
Hypothesis G : grown s3 s4 new U2 U4 l3 l4.
Hypothesis Hview : forall va, user_va va -> view (k_mem s4) U4 va =
  if va / PGSIZE =? k / PGSIZE then Z.lor (Z.lor (PA2PTE p) (PTE_FLAGS (view (k_mem s) T k))) PTE_V
  else view (k_mem s3) U2 va.

Lemma next_not q : (q ∉ l2) -> ~ in_table U2 q -> ~ in_table U4 q.
Proof. intros Hq Hu [Hx|Hx]%(gr_new _ _ _ _ _ _ _ G); [done|]. apply Hq. rewrite Hl2. by right. Qed.

Lemma next_p : ~ in_table U2 p /\ ~ in_table U4 p.
Proof.
  assert (~ in_table U2 p) by (apply (cp_fresh _ _ _ _ Hcp); rewrite Hl2; by left). split; [done|].
  intros [Hx|Hx]%(gr_new _ _ _ _ _ _ _ G); [done|]. rewrite Hl2 in Hnd. by apply NoDup_cons in Hnd as [? _].
Qed.

Lemma next_keep q : (q ∉ l2) -> ~ in_table U2 q -> k_mem s4 !! q = k_mem s2 !! q.
Proof.
  intros Hq Hu. rewrite (gr_other _ _ _ _ _ _ _ G) by (by apply next_not). rewrite Hm3.
  rewrite lookup_insert_ne; [done|]. intros ->. apply Hq. rewrite Hl2. by left.
Qed.

Lemma next_user va : 0 <= va < k + PGSIZE -> user_va va.
Proof. pose proof (ck_sz Hck). unfold user_va. revert Hk. consts. lia. Qed.

Lemma next_there va : k <= va < k + PGSIZE ->
  view (k_mem s4) U4 va = Z.lor (Z.lor (PA2PTE p) (PTE_FLAGS (view (k_mem s) T k))) PTE_V.
Proof.
  intros Hva. rewrite Hview by (apply next_user; lia). by rewrite (proj2 (Z.eqb_eq _ _)) by (by apply in_page).
Qed.

Lemma next_elsewhere va : user_va va -> va < k \/ k + PGSIZE <= va ->
  view (k_mem s4) U4 va = view (k_mem s2) U2 va.
Proof.
  intros Hu Hva. rewrite Hview by done. rewrite (proj2 (Z.eqb_neq _ _)).
  - rewrite Hm3. apply view_data, next_p.
  - intros ?%in_page; [lia|done].
Qed.

(** The page of an entry. *)
Lemma entry_page pa e : good_page pa -> PTE2PA (Z.lor (Z.lor (PA2PTE pa) (PTE_FLAGS e)) PTE_V) = pa.
Proof. intros [? ?]. rewrite <- Z.lor_assoc. apply PTE2PA_lor; [lia|done|apply flags_range]. Qed.

Lemma next_old_page va : 0 <= va < k -> PTE2PA (view (k_mem s2) U2 va) ∉ l2.
Proof.
  intros Hva. destruct (cp_below _ _ _ _ Hcp va Hva) as (pa & -> & Hg & _ & Hn & _). by rewrite entry_page.
Qed.

Lemma next_below va : 0 <= va < k + PGSIZE -> exists pa,
  view (k_mem s4) U4 va = Z.lor (Z.lor (PA2PTE pa) (PTE_FLAGS (view (k_mem s) T va))) PTE_V /\
  good_page pa /\ (pa ∈ l) /\ (pa ∉ l4) /\ ~ in_table U4 pa /\ k_mem s4 !! pa = k_mem s !! frame_of va.
Proof.
  intros Hva. destruct (gr_list _ _ _ _ _ _ _ G) as [used Hused]. destruct (cp_list _ _ _ _ Hcp) as [used2 Hl].
  destruct (decide (va < k)) as [Hlt|Hge].
  - destruct (cp_below _ _ _ _ Hcp va ltac:(lia)) as (pa & Hpv & Hgpa & Hpl & Hpn & HpU & Hpm). exists pa.
    rewrite next_elsewhere by (lia || apply next_user; lia). split_and!; try done; [|by apply next_not|by rewrite next_keep].
    intros Hx. apply Hpn. rewrite Hl2, Hused. right. apply elem_of_app. by right.
  - exists p. rewrite next_there by lia.
    assert (view (k_mem s) T va = view (k_mem s) T k) as Hvk.
    { rewrite <- (view_page _ _ va), <- (view_page _ _ k), !PGROUNDDOWN_div, (proj1 (in_page k va Hkm)) by lia. done. }
    unfold frame_of. rewrite Hvk. fold (frame_of k). split_and!; try done.
    + rewrite Hl, Hl2. apply elem_of_app. right. by left.
    + intros Hx. rewrite Hl2 in Hnd. apply NoDup_cons in Hnd as [Hpl _]. apply Hpl. rewrite Hused. apply elem_of_app. by right.
    + apply next_p.
    + rewrite (gr_other _ _ _ _ _ _ _ G) by apply next_p. by rewrite Hm3, lookup_insert_eq.
Qed.

Lemma next_inj va va' : 0 <= va < k + PGSIZE -> 0 <= va' < k + PGSIZE ->
  PTE2PA (view (k_mem s4) U4 va) = PTE2PA (view (k_mem s4) U4 va') -> va / PGSIZE = va' / PGSIZE.
Proof.
  assert (forall a b, 0 <= a < k -> k <= b < k + PGSIZE -> PTE2PA (view (k_mem s4) U4 a) <> PTE2PA (view (k_mem s4) U4 b)) as Hno.
  { intros a b Ha Hb. rewrite next_elsewhere by (lia || apply next_user; lia). rewrite (next_there b), entry_page by done.
    intros E. apply (next_old_page a Ha). rewrite E, Hl2. by left. }
  intros Hva Hva' E. destruct (decide (va < k)), (decide (va' < k)).
  - rewrite !next_elsewhere in E by (lia || apply next_user; lia). apply (cp_inj _ _ _ _ Hcp); [lia..|done].
  - exfalso. apply (Hno va va'); [lia|lia|done].
  - exfalso. apply (Hno va' va); [lia|lia|done].
  - rewrite (proj1 (in_page k va Hkm)), (proj1 (in_page k va' Hkm)) by lia. done.
Qed.

Lemma copied_next : copied (k + PGSIZE) s4 U4 l4.
Proof.
  destruct (gr_list _ _ _ _ _ _ _ G) as [used Hused]. destruct (cp_list _ _ _ _ Hcp) as [used2 Hl].
  assert (forall q, (q ∉ l) -> (q ∉ l2)) as Hsub by (intros q Hq Hx; apply Hq; rewrite Hl; apply elem_of_app; by right).
  split; [|apply G| |..|apply next_below|apply next_inj].
  - etrans; [apply (cp_frame _ _ _ _ Hcp)|]. etrans; [exact F3|apply G].
  - exists (used2 ++ [p] ++ used). rewrite Hl, Hl2, Hused. by rewrite <- !app_assoc.
  - intros q [Hx|Hx]%(gr_new _ _ _ _ _ _ _ G); [by apply (cp_in _ _ _ _ Hcp)|]. right. rewrite Hl, Hl2.
    apply elem_of_app. right. by right.
  - apply G.
  - intros q Hq Hu. assert (~ in_table U2 q) by (intros [?|?]%(cp_in _ _ _ _ Hcp); done).
    rewrite next_keep by auto. by apply (cp_other _ _ _ _ Hcp).
  - intros va Hu Hva. rewrite next_elsewhere by (done || lia). apply (cp_above _ _ _ _ Hcp); [done|unfold PGSIZE in *; lia].
Qed.
End next.

(** The body of the loop for a page that is there. *)
Lemma wp_copy_turn_page p l3 n (err : K (Z + Z)) Q :
  l2 = p :: l3 -> 0 <= k < sz -> k mod PGSIZE = 0 -> alloc_ok s2 l2 (3 + n) -> (2 <= length l3)%nat ->
  (forall s4 U4 l4, copied (k + PGSIZE) s4 U4 l4 -> alloc_ok s4 l4 n -> (length l3 <= length l4 + 2)%nat ->
     Q (inl (k + PGSIZE)) s4) ->
  wp (pte ← walk old k false;
      (if pte =? 0 then panic "uvmcopy: pte should exist" else mret tt);;
      e ← read64 pte;
      (if Z.land e PTE_V =? 0 then panic "uvmcopy: page not present" else mret tt);;
      mem ← kalloc;
      if mem =? 0 then err
      else
        bytes ← read_phys (PTE2PA e) (Z.to_nat PGSIZE);
        write_phys mem bytes;;
        r ← mappages new k PGSIZE mem (PTE_FLAGS e);
        if negb (r =? 0) then kfree mem;; err
        else mret (inl (u64 (k + PGSIZE)))) Q s2.
Proof.
  intros Hl2 Hk Hkm A2 Hlen HQ. pose proof (ck_sz Hck) as Hsz. pose proof (ck_end Hck) as He.
  assert (k + PGSIZE <= PGROUNDUP sz) as Hup.
  { pose proof (PGROUNDUP_bounds sz ltac:(revert Hsz; consts; lia)). pose proof (PGROUNDUP_mod sz).
    apply page_step; [done..|lia]. }
  assert (0 <= k < PGROUNDUP sz) as Hkr by (unfold PGSIZE in *; lia).
  assert (pt_rep (k_mem s2) old T) as R by (eapply pt_rep_agree; [apply copied_old|apply (ck_old Hck)]).
  assert (view (k_mem s2) T k = view (k_mem s) T k) as Hv by (apply view_agree, copied_old).
  pose proof (ck_there Hck k Hkr) as Hthere.
  destruct (T !! idx k) as [p0|] eqn:Hp0; [|unfold view in Hthere; by rewrite Hp0 in Hthere].
  destruct (pr_page _ _ _ R _ _ Hp0) as [Hg0 Hin0]. pose proof (PX_range 0 k).
  kstep. apply (wp_walk k _ _ _ T); [done|revert Hsz Hk; consts; lia|]. unfold pte_addr. rewrite Hp0.
  rewrite (proj2 (Z.eqb_neq _ 0)) by (destruct Hg0; lia). kstep. apply wp_read64; [done..|].
  assert (entry (k_mem s2) p0 (PX 0 k) = view (k_mem s) T k) as -> by (rewrite <- Hv; unfold view; by rewrite Hp0).
  rewrite (proj2 (Z.eqb_neq _ 0)) by done. kstep. rewrite Hl2 in A2.
  destruct (ck_pages Hck k Hkr) as (_ & (bs & Hbs & Hbl) & Hfl & HfU). destruct (frame_of_page k) as [_ Hfm].
  pose proof (ao_free _ _ _ A2) as [_ Hnd].
  eapply wp_kalloc_room; [done|exact A2|]. intros s3 F3 A3 Hp Hvp Hm3. kstep.
  rewrite (proj2 (Z.eqb_neq p 0)) by done. kstep. fold (frame_of k).
  assert (k_mem s3 !! frame_of k = Some bs) as Hb3.
  { rewrite Hm3, lookup_insert_ne, copied_frame by (done || destruct (cp_list _ _ _ _ Hcp) as [used Hl];
      intros ->; apply Hfl; rewrite Hl, Hl2; apply elem_of_app; right; by left). done. }
  eapply wp_read_page; [done|exact Hb3|done|]. kstep.
  eapply (wp_write_page p (replicate (Z.to_nat PGSIZE) 5)); [apply Hvp|by rewrite Hm3, lookup_insert_eq|apply length_replicate|done|].
  kstep.
  set (s3' := s3 <| k_mem ::= <[p := bs]> |>).
  assert (k_mem s3' = <[p := bs]> (k_mem s2)) as Hm3' by (unfold s3'; kfields; rewrite Hm3; apply insert_insert_eq).
  assert (vframe s2 s3') as F3' by (eapply (vframe_ext [Fmem]); [exact F3|unfold s3'; frame_solve|done..]).
  assert (alloc_ok s3' l3 (2 + n)) as A3'.
  { eapply (alloc_ok_agree [Fmem]); [exact A3|done|unfold s3'; frame_solve|done|].
    intros q Hq. unfold s3'. kfields. apply lookup_insert_ne. intros ->. by apply NoDup_cons in Hnd as [? _]. }
  clearbody s3'. assert (~ in_table U2 p) as HpU by (apply (cp_fresh _ _ _ _ Hcp); rewrite Hl2; by left).
  assert (0 <= p < PHYSTOP) as Hpr by (destruct Hvp; revert He; consts; lia).
  apply (wp_mappage _ _ _ U2 l3 n); try done; try (revert Hsz Hk Hpr; consts; lia).
  { rewrite Hm3'. apply pt_rep_data; [apply (cp_rep _ _ _ _ Hcp)|done|done]. }
  { intros q Hq. apply (cp_fresh _ _ _ _ Hcp). rewrite Hl2. by right. }
  { apply Hvp. }
  { apply flags_lt. }
  { intros va Hva. rewrite Hm3', view_data by done. apply (in_page k va Hkm) in Hva.
    rewrite (cp_above _ _ _ _ Hcp) by (unfold user_va; revert Hsz Hk; consts; lia). apply (ck_blank Hck). lia. }
  intros s4 U4 l4 G A4 Hl4 Hview. change (0 =? 0) with true. cbn [negb]. kstep.
  rewrite u64_small by (revert Hsz Hk; consts; lia). apply (HQ s4 U4 l4); [|done|done].
  eapply (copied_next p l3 bs s3'); try done; [by rewrite Hl2|by apply valid_good].
Qed.
End turn.

Lemma copied_0 : copy_ok -> copied 0 s U l.
Proof.
  intros Hck. split; try done; try lia; [apply (ck_new Hck)|by exists []|auto|apply (ck_fresh Hck)].
Qed.

(** The number of pages up to [sz]. *)
Definition npages : nat := Z.to_nat ((sz + PGSIZE - 1) / PGSIZE).

Lemma npages_up : 0 <= sz <= MAXVA - 2 * PGSIZE -> PGROUNDUP sz = PGSIZE * Z.of_nat npages.
Proof.
  intros Hsz. unfold PGROUNDUP, npages. rewrite u64_small by (revert Hsz; consts; lia). rewrite PGROUNDDOWN_div.
  rewrite Z2Nat.id; [done|]. apply Z.div_pos; unfold PGSIZE in *; lia.
Qed.

Lemma wp_uvmcopy n Q :
  copy_ok -> alloc_ok s l (3 * npages + n) -> (3 * npages <= length l)%nat ->
  (forall s' U' l', copied (PGROUNDUP sz) s' U' l' -> alloc_ok s' l' n -> (length l <= length l' + 3 * npages)%nat ->
     Q 0 s') ->
  wp (uvmcopy old new sz) Q s.
Proof.
  intros Hck A Hlen HQ. pose proof (ck_sz Hck) as Hsz. pose proof (npages_up Hsz) as Hup.
  unfold uvmcopy. fold npages.
  apply (wp_kloop (fun i s' => exists (j : nat) U' l', i = PGSIZE * Z.of_nat j /\ (j <= npages)%nat /\ copied i s' U' l' /\
      alloc_ok s' l' (3 * (npages - j) + n) /\ (length l <= length l' + 3 * j)%nat)
    (fun i => (npages - Z.to_nat (i / PGSIZE))%nat)).
  - exists 0%nat, U, l. split_and!; [done|lia|by apply copied_0| |lia]. by rewrite Nat.sub_0_r.
  - lia.
  - intros i s' (j & U' & l' & -> & Hj & Hcp & A' & Hl'). cbv zeta.
    assert (PGSIZE * Z.of_nat j mod PGSIZE = 0) as Hm by (rewrite Z.mul_comm; apply Z_mod_mult).
    assert (PGSIZE * Z.of_nat j / PGSIZE = Z.of_nat j) as Hd by (rewrite Z.mul_comm; by apply Z_div_mult).
    destruct (Z.ltb_spec (PGSIZE * Z.of_nat j) sz) as [Hlt|Hge].
    + assert (j < npages)%nat as Hjn.
      { apply Nat2Z.inj_lt. unfold npages. rewrite Z2Nat.id; [|apply Z.div_pos; unfold PGSIZE in *; lia].
        unfold PGSIZE in *. Z.to_euclidean_division_equations. lia. }
      destruct l' as [|p l3]; [simpl in *; lia|]. replace (3 * (npages - j) + n)%nat with (3 + (3 * (npages - S j) + n))%nat in A' by lia.
      eapply (wp_copy_turn_page Hck); [exact Hcp|done|unfold PGSIZE in *; lia|done|exact A'|simpl in *; lia|].
      intros s4 U4 l4 Hcp4 A4 Hl4. split.
      * exists (S j), U4, l4. replace (PGSIZE * Z.of_nat (S j)) with (PGSIZE * Z.of_nat j + PGSIZE) by lia.
        split_and!; [done|lia|done|done|simpl in *; lia].
      * replace (PGSIZE * Z.of_nat j + PGSIZE) with (Z.of_nat (S j) * PGSIZE) by lia.
        rewrite Z_div_mult, Hd by done. lia.
    + kstep. assert (j = npages) as ->.
      { pose proof (PGROUNDUP_bounds sz ltac:(revert Hsz; consts; lia)). unfold PGSIZE in *. lia. }
      rewrite <- Hup in Hcp. replace (3 * (npages - npages) + n)%nat with n in A' by lia. by eapply HQ.
Qed.

(** ** What the child sees *)

Section child.
Context (s' : kstate) (U' : table) (l' : list Z).
Hypothesis Hck : copy_ok.
Hypothesis Hcp : copied (PGROUNDUP sz) s' U' l'.

Lemma child_entry va : 0 <= va < PGROUNDUP sz ->
  PTE_FLAGS (view (k_mem s') U' va) = Z.lor (PTE_FLAGS (view (k_mem s) T va)) PTE_V /\
  good_page (PTE2PA (view (k_mem s') U' va)) /\
  (PTE2PA (view (k_mem s') U' va) ∈ l) /\ (PTE2PA (view (k_mem s') U' va) ∉ l') /\
  ~ in_table U' (PTE2PA (view (k_mem s') U' va)) /\
  k_mem s' !! PTE2PA (view (k_mem s') U' va) = k_mem s !! frame_of va.
Proof.
  intros Hva. destruct (cp_below _ _ _ _ Hcp va Hva) as (pa & Hv & Hg & Hl & Hl' & HU & Hm).
  assert (PTE2PA (view (k_mem s') U' va) = pa) as E by (rewrite Hv; by apply entry_page). rewrite E. split_and!; try done.
  rewrite Hv, <- Z.lor_assoc. apply PTE_FLAGS_lor; [destruct Hg; lia|by destruct Hg|apply flags_range].
Qed.

(** The bits of an entry below bit 10 are its flags. *)
Lemma land_flags e m : 0 <= m < 1024 -> Z.land e m = Z.land (PTE_FLAGS e) m.
Proof.
  intros Hm. unfold PTE_FLAGS. rewrite <- Z.land_assoc. f_equal. symmetry. rewrite Z.land_comm.
  change 0x3FF with (Z.ones 10). rewrite Z.land_ones by lia. apply Z.mod_small. lia.
Qed.

Lemma child_uaddr va : 0 <= va < PGROUNDUP sz ->
  uaddr (k_mem s') U' va =
    if Z.land (view (k_mem s) T va) PTE_U =? 0 then 0 else PTE2PA (view (k_mem s') U' va).
Proof.
  intros Hva. destruct (child_entry va Hva) as (Hf & _). unfold uaddr, upage.
  rewrite (land_flags (view (k_mem s') U' va) PTE_V), (land_flags (view (k_mem s') U' va) PTE_U) by done.
  rewrite Hf, PTE_V_set. change (PTE_V =? 0) with false. cbv iota.
  rewrite (land_flags (view (k_mem s) T va) PTE_U) by done.
  by rewrite Z.land_lor_distr_l, Z.lor_0_r.
Qed.

Lemma child_byte va : 0 <= va < PGROUNDUP sz -> ubyte (k_mem s') U' va = ubyte (k_mem s) T va.
Proof.
  intros Hva. destruct (child_entry va Hva) as (_ & Hg & _ & _ & _ & Hm). unfold ubyte.
  rewrite child_uaddr by done. unfold uaddr, upage. pose proof (ck_there Hck va Hva) as Hv.
  rewrite (proj2 (Z.eqb_neq _ 0) Hv). destruct (Z.land _ PTE_U =? 0); [done|]. fold (frame_of va).
  rewrite (proj2 (Z.eqb_neq _ 0)) by (destruct Hg; lia). rewrite Hm.
  destruct (ck_pages Hck va Hva) as (H0 & _). by rewrite (proj2 (Z.eqb_neq _ 0)).
Qed.
End child.

(** C12. [uvmcopy] gives the child a copy of the parent's user memory that shares nothing with it. With three free pages for every page of the parent it succeeds. Afterwards every byte below the parent's size reads the same in the child, through a page with the same permissions that was free before the call and that no other address of the child and no page of the parent uses; the parent's page table still stands and its memory is unchanged; the child's addresses above the size are as before. *)
Theorem uvmcopy_copies :
  copy_ok -> alloc_ok s l (3 * npages) -> (3 * npages <= length l)%nat ->
  wp (uvmcopy old new sz) (fun r s' => r = 0 /\ exists U' l',
    pt_rep (k_mem s') new U' /\ pt_rep (k_mem s') old T /\
    (forall va, 0 <= va < PGROUNDUP sz ->
       ubyte (k_mem s') U' va = ubyte (k_mem s) T va /\ ubyte (k_mem s') T va = ubyte (k_mem s) T va /\
       PTE_FLAGS (view (k_mem s') U' va) = Z.lor (PTE_FLAGS (view (k_mem s) T va)) PTE_V /\
       (PTE2PA (view (k_mem s') U' va) ∈ l)) /\
    (forall va va', 0 <= va < PGROUNDUP sz -> 0 <= va' < PGROUNDUP sz ->
       PTE2PA (view (k_mem s') U' va) <> PTE2PA (view (k_mem s') T va') /\
       (PTE2PA (view (k_mem s') U' va) = PTE2PA (view (k_mem s') U' va') -> va / PGSIZE = va' / PGSIZE)) /\
    (forall va, user_va va -> PGROUNDUP sz <= va -> view (k_mem s') U' va = view (k_mem s) U va) /\
    alloc_ok s' l' 0 /\ (exists used, l = used ++ l')) s.
Proof.
  intros Hck A Hlen. apply (wp_uvmcopy 0); [done|eapply alloc_ok_le; [done|lia]|done|]. intros s' U' l' Hcp A' _.
  assert (forall va, view (k_mem s') T va = view (k_mem s) T va) as HvT by (intros; eapply view_agree, copied_old; done).
  split; [done|]. exists U', l'. split_and!; try apply Hcp; try done.
  - eapply pt_rep_agree; [by eapply copied_old|apply (ck_old Hck)].
  - intros va Hva. destruct (child_entry s' U' l' Hcp va Hva) as (Hf & _ & Hl & _). split_and!; try done.
    + by eapply child_byte.
    + unfold ubyte, uaddr. rewrite HvT. destruct (upage _ =? 0) eqn:E; [done|]. unfold upage in *.
      destruct (Z.land _ PTE_V =? 0); [done|]. destruct (Z.land _ PTE_U =? 0); [done|]. fold (frame_of va). by erewrite copied_frame.
  - intros va va' Hva Hva'. split; [|by apply Hcp]. rewrite HvT. fold (frame_of va').
    destruct (child_entry s' U' l' Hcp va Hva) as (_ & _ & Hl & _). intros E. rewrite E in Hl.
    by destruct (ck_pages Hck va' Hva') as (_ & _ & ? & _).
Qed.
End copy.

(** ** Example: a parent with one page, an empty table for the child and three free pages *)

Definition blank_pt : Z := page_n 5.
Definition three_free : list Z := [page_n 6; page_n 7; page_n 8].
Definition family : kstate :=
  bss <| k_freelist := page_n 6 |>
      <| k_mem := <[page_n 5 := zeros]> (<[page_n 6 := free_page (page_n 7)]> (<[page_n 7 := free_page (page_n 8)]>
                    (<[page_n 8 := free_page 0]> (k_mem one_page)))) |>.

Section example.
#[local] Existing Instance small_machine.

Lemma tree_pages q : in_table tree q -> q = page_a \/ q = page_b \/ q = page_c.
Proof.
  intros [path Hp]. unfold tree in Hp. rewrite !lookup_insert in Hp.
  repeat case_decide; simplify_eq; auto. apply lookup_singleton_Some in Hp as [_ <-]. auto.
Qed.

Lemma tree_apart q : (q ∈ page_n 5 :: three_free) -> ~ in_table tree q.
Proof.
  intros Hq Ht%tree_pages. unfold three_free in Hq. rewrite !elem_of_cons, elem_of_nil in Hq.
  destruct Hq as [->|[->|[->|[->|[]]]]], Ht as [?|[?|?]]; done.
Qed.

Lemma family_old : pt_rep (k_mem family) page_a tree.
Proof.
  unfold family. kfields. do 4 (apply pt_rep_data; [|apply tree_apart; unfold three_free; set_solver|done]).
  apply one_page_rep.
Qed.

Lemma family_view va : view (k_mem family) tree va = view (k_mem one_page) tree va.
Proof.
  unfold family. kfields. do 4 (rewrite view_data by (apply tree_apart; unfold three_free; set_solver)). done.
Qed.

Lemma family_alloc n : alloc_ok family three_free n.
Proof.
  split; [|done| |done].
  { apply (kernel_ok_same [Ffreelist; Fmem] bss); [frame_solve|done|apply bss_ok]. }
  split; [|unfold three_free; pages].
  apply (freelist_rep_agree (chain three_free)); [|apply (chain_rep three_free); [done|unfold three_free; pages..]].
  intros q Hq. unfold three_free in Hq. rewrite !elem_of_cons, elem_of_nil in Hq.
  destruct Hq as [->|[->|[->|[]]]]; reflexivity.
Qed.

Lemma family_copy_ok : copy_ok page_a blank_pt tree {[ [] := blank_pt ]} three_free family 100.
Proof.
  assert (forall q, in_table {[ [] := blank_pt ]} q -> q = blank_pt) as HU.
  { intros q [path Hp]. by apply lookup_singleton_Some in Hp as [_ <-]. }
  assert (forall va, 0 <= va < 4096 -> view (k_mem family) tree va = Z.lor (PA2PTE page_d) 31) as Hv.
  { intros va Hva. rewrite family_view, (proj2 one_page_rep) by (unfold user_va; consts; lia).
    rewrite Z.div_small by (consts; lia). done. }
  split; try done.
  - apply family_old.
  - apply empty_rep; [by vm_compute|done].
  - intros q Hq ->%HU. unfold three_free in Hq. rewrite !elem_of_cons, elem_of_nil in Hq.
    by destruct Hq as [?|[?|[?|[]]]].
  - intros q Hq. split; [intros Hx; eapply tree_apart; [right; exact Hx|done]|].
    intros ->%HU. eapply tree_apart; [by left|done].
  - intros va Hva. change (PGROUNDUP 100) with 4096 in Hva. by rewrite Hv.
  - intros va Hva. change (PGROUNDUP 100) with 4096 in Hva. unfold frame_of. rewrite Hv by done.
    change (PTE2PA (Z.lor (PA2PTE page_d) 31)) with page_d. split_and!.
    + done.
    + eexists. split; [reflexivity|by vm_compute].
    + unfold three_free. rewrite !elem_of_cons, elem_of_nil. by intros [?|[?|[?|[]]]].
    + by intros ?%HU.
  - intros va _. by rewrite empty_view.
Qed.

Lemma uvmcopy_copies_witness :
  wp (uvmcopy page_a blank_pt 100) (fun r s' => r = 0 /\ exists U' l',
    pt_rep (k_mem s') blank_pt U' /\ pt_rep (k_mem s') page_a tree /\
    (forall va, 0 <= va < 4096 ->
       ubyte (k_mem s') U' va = ubyte (k_mem family) tree va /\ ubyte (k_mem s') tree va = ubyte (k_mem family) tree va /\
       PTE_FLAGS (view (k_mem s') U' va) = Z.lor (PTE_FLAGS (view (k_mem family) tree va)) PTE_V /\
       (PTE2PA (view (k_mem s') U' va) ∈ three_free)) /\
    (forall va va', 0 <= va < 4096 -> 0 <= va' < 4096 ->
       PTE2PA (view (k_mem s') U' va) <> PTE2PA (view (k_mem s') tree va') /\
       (PTE2PA (view (k_mem s') U' va) = PTE2PA (view (k_mem s') U' va') -> va / PGSIZE = va' / PGSIZE)) /\
    (forall va, user_va va -> 4096 <= va -> view (k_mem s') U' va = view (k_mem family) {[ [] := blank_pt ]} va) /\
    alloc_ok s' l' 0 /\ (exists used, three_free = used ++ l')) family.
Proof.
  apply (uvmcopy_copies page_a blank_pt tree {[ [] := blank_pt ]} three_free family 100);
    [apply family_copy_ok|apply family_alloc|by vm_compute].
Defined.
End example.
