(* ===== verification/Console.v ===== *)
(** [kernel/console.c]: the line discipline of the virtual consoles and the switching between
    them.

    [cons[]] is the table [k_cons], [consa] the index [k_consa] of the active console.  The
    characters a console sends out are those of [consputc]; output to a console that is not active
    is dropped, as in the source. *)
From S2P Require Import Prelude Types Kstate Cstring Spinlock Frame Printf Accounting Kalloc Vm Proc.
From stdpp Require Import base numbers list gmap strings.
From Stdlib Require Import ZArith Lia.

Local Open Scope Z_scope.
Local Open Scope xv6_scope.

(** [C(x)], the control characters. *)
Definition Ctl (x : Z) : Z := x - 64.

(** [cons->buf[i % INPUT_BUF]] and its assignment. *)
Definition in_get (k : nat) (i : Z) : K Z := c ← get_cons k; deref (in_buf c !! Z.to_nat (i mod INPUT_BUF)).
Definition in_put (k : nat) (i v : Z) : K unit :=
  c ← get_cons k;
  if bool_decide (Z.to_nat (i mod INPUT_BUF) < length (in_buf c))%nat
  then upd_cons k (set in_buf <[Z.to_nat (i mod INPUT_BUF) := u8 v]>) else fault.

Section console.
Context `{Env}.

Definition consolewrite (cons : nat) (src : place) (n : Z) : K Z :=
  acquire (LCons cons);;
  kfind (seqZ 0 n) (fun i =>
    x ← either_copyin (place_add src i) 1;
    if x.1 =? -1 then mret (Some tt)
    else
      c ← deref (x.2 !! 0%nat);
      consa ← gets k_consa;
      when (bool_decide (consa = Some cons)) (consputc c);;
      mret None);;
  release (LCons cons);;
  mret n.

(** One turn of the outer loop of [consoleread]: the next [n] and [dst], or the last [n], [None] where it
    returns -1. *)
Definition read_turn (cons : nat) (target n : Z) (dst : place) : K (Z * place + option Z) :=
  if 0 <? n then
    w ← kloop (S env_patience) (fun _ : unit =>
      c ← get_cons cons;
      if in_r c =? in_w c then
        i ← curproc; p ← get_proc i;
        if negb (p_killed p =? 0) then release (LCons cons);; mret (inr (-1))
        else sleep (CCons cons) (LCons cons);; mret (inl tt)
      else mret (inr 0)) tt;
    if w =? -1 then mret (inr None)
    else
      i ← get_cons cons;
      c ← in_get cons (in_r i);
      upd_cons cons (set in_r (fun r => u32 (r + 1)));;
      if c =? Ctl 68 then
        when (u32 n <? u32 target) (upd_cons cons (set in_r (fun r => u32 (r - 1))));;
        mret (inr (Some n))
      else
        x ← either_copyout dst [c] 1;
        if x =? -1 then mret (inr (Some n))
        else if c =? 10 then mret (inr (Some (n - 1)))
        else mret (inl (n - 1, place_add dst 1))
  else mret (inr (Some n)).

Definition consoleread (cons : nat) (dst : place) (n : Z) : K Z :=
  let target := n in
  acquire (LCons cons);;
  r ← kloop (S (Z.to_nat n)) (fun '(n, dst) => read_turn cons target n dst) (n, dst);
  match r with
  | None => mret (-1)
  | Some n => release (LCons cons);; mret (i32 (target - n))
  end.

Definition nextconsole : K unit :=
  active ← gets k_active;
  let active := (active + 1) mod NDEV in
  modify (set k_active (fun _ => active));;
  modify (set k_consa (fun _ => Some (Z.to_nat active))).

Definition prevconsole : K unit :=
  active ← gets k_active;
  let active := if active - 1 <? 0 then NDEV - 1 else (active - 1) mod NDEV in
  modify (set k_active (fun _ => active));;
  modify (set k_consa (fun _ => Some (Z.to_nat active))).

(** The [switch] of [consoleintr], for the active console [a]. *)
Definition console_key (a : nat) (c : Z) : K unit :=
  if c =? Ctl 78 then printf "switch console\n" []
  else if c =? Ctl 66 then printf "switch console\n" []
  else if c =? Ctl 80 then procdump
  else if c =? Ctl 85 then
    i ← get_cons a;
    kloop (S (Z.to_nat (u32 (in_e i - in_w i)))) (fun _ : unit =>
      i ← get_cons a;
      if in_e i =? in_w i then mret (inr tt)
      else
        ch ← in_get a (u32 (in_e i - 1));
        if ch =? 10 then mret (inr tt)
        else
          upd_cons a (set in_e (fun e => u32 (e - 1)));;
          consputc BACKSPACE;;
          mret (inl tt)) tt
  else if (c =? Ctl 72) || (c =? 127) then
    i ← get_cons a;
    when (negb (in_e i =? in_w i))
      (upd_cons a (set in_e (fun e => u32 (e - 1)));;
       consputc BACKSPACE)
  else
    i ← get_cons a;
    when (negb (c =? 0) && (u32 (in_e i - in_r i) <? INPUT_BUF))
      (let c := if c =? 13 then 10 else c in
       consputc c;;
       in_put a (in_e i) c;;
       upd_cons a (set in_e (fun e => u32 (e + 1)));;
       i ← get_cons a;
       when ((c =? 10) || (c =? Ctl 68) || (in_e i =? u32 (in_r i + INPUT_BUF)))
         (upd_cons a (fun i => i <| in_w := in_e i |>);;
          wakeup (CCons a))).

(** The console whose lock is released is the one whose lock was taken: [consa] changes only
    after that. *)
Definition consoleintr (c : Z) : K unit :=
  o ← gets k_consa; a ← deref o;
  acquire (LCons a);;
  console_key a c;;
  release (LCons a);;
  when (c =? Ctl 78)
    (nextconsole;;
     active ← gets k_active;
     printf "\nActive console now: %d\n" [AInt active]);;
  when (c =? Ctl 66)
    (prevconsole;;
     active ← gets k_active;
     printf "\nActive console now: %d\n" [AInt active]).

(** [uartintr] with the characters the receive register yields before it is empty. *)
Definition uartintr (input : list Z) : K unit := kfor input consoleintr.

Definition cread (major : Z) (dst : place) (n : Z) : K Z := consoleread (Z.to_nat major) dst n.
Definition cwrite (major : Z) (src : place) (n : Z) : K Z := consolewrite (Z.to_nat major) src n.

(** The names of the locks, which the source writes into a string literal, are not kept. *)
Definition consoleinit : K unit :=
  kfor (seq 0 (Z.to_nat NDEV)) (fun i =>
    initlock (LCons i);;
    upd_cons i (fun c => c <| in_r := 0 |> <| in_w := 0 |> <| in_e := 0 |>));;
  modify (set k_active (fun _ => 1));;
  modify (set k_consa (fun _ => Some 1%nat));;
  kfor (seq 0 (Z.to_nat NDEV)) (fun i => modify (set k_devsw <[i := true]>)).
End console.
