(* ===== verification/Uart.v ===== *)
(** [kernel/uart.c] on the registers of a 16550: the routines behind [Printf]'s [uartputc] and [Console]'s [uartintr].

    The device is a class: what a read of a register gives, what reads and writes do to it, the characters it has
    received and those it has sent.  [uart_ok] is what the 16550 promises of them. *)
From S2P Require Import Prelude Types Kstate Spinlock Frame Printf Console.
From stdpp Require Import base numbers list gmap strings.
From Stdlib Require Import ZArith Lia.

Local Open Scope Z_scope.
Local Open Scope xv6_scope.

Definition RHR : Z := 0.
Definition THR : Z := 0.
Definition IER : Z := 1.
Definition FCR : Z := 2.
Definition LCR : Z := 3.
Definition LSR : Z := 5.

Class Uart16550 := {
  uart : Type;
  ReadReg : Z -> uart -> Z * uart;
  WriteReg : Z -> Z -> uart -> uart;
  received : uart -> list Z;      (* not yet read *)
  sent : uart -> list Z;          (* the latest first *)
  busy : uart -> nat              (* reads of [LSR] until the transmitter is free *)
}.

Section uart.
Context {U : Uart16550} {EN : Env}.

Definition uartinit (u : uart) : uart :=
  let u := WriteReg IER 0x00 u in
  let u := WriteReg LCR 0x80 u in
  let u := WriteReg 0 0x03 u in
  let u := WriteReg 1 0x00 u in
  let u := WriteReg LCR 0x03 u in
  let u := WriteReg FCR 0x07 u in
  WriteReg IER 0x01 u.

(** [while((ReadReg(LSR) & (1 << 5)) == 0)] for at most [fuel] turns. *)
Fixpoint uartputc (fuel : nat) (c : Z) (u : uart) : option uart :=
  match fuel with
  | O => None
  | S fuel => let '(x, u) := ReadReg LSR u in
              if Z.land x (Z.shiftl 1 5) =? 0 then uartputc fuel c u else Some (WriteReg THR (u8 c) u)
  end.

Definition uartgetc (u : uart) : Z * uart :=
  let '(x, u) := ReadReg LSR u in
  if negb (Z.land x 0x01 =? 0) then ReadReg RHR u else (-1, u).

(** [uartintr], for at most [fuel] turns of its loop. *)
Fixpoint uartintr_from (fuel : nat) (u : uart) : K (option uart) :=
  match fuel with
  | O => mret None
  | S fuel => let '(c, u) := uartgetc u in
              if c =? -1 then mret (Some u) else consoleintr c;; uartintr_from fuel u
  end.

(** ** What the device promises *)

Record uart_ok : Prop := {
  uo_lsr u : let '(x, u') := ReadReg LSR u in
    0 <= x < 256 /\ Z.testbit x 0 = negb (bool_decide (received u = [])) /\ Z.testbit x 5 = bool_decide (busy u = 0%nat) /\
    received u' = received u /\ sent u' = sent u /\ busy u' = pred (busy u);
  uo_rhr u c q : received u = c :: q -> let '(x, u') := ReadReg RHR u in
    x = c /\ 0 <= c < 256 /\ received u' = q /\ sent u' = sent u /\ busy u' = busy u;
  uo_thr u c : busy u = 0%nat -> received (WriteReg THR c u) = received u /\ sent (WriteReg THR c u) = c :: sent u
}.
Context (Hu : uart_ok).

Lemma land_bit x i : 0 <= i -> (Z.land x (Z.shiftl 1 i) =? 0) = negb (Z.testbit x i).
Proof.
  intros Hi. rewrite Z.shiftl_1_l. destruct (Z.testbit x i) eqn:E; cbn [negb].
  - apply Z.eqb_neq. intros H. apply (f_equal (fun z => Z.testbit z i)) in H. rewrite Z.land_spec, E, Z.pow2_bits_true, Z.testbit_0_l in H by lia. done.
  - apply Z.eqb_eq, Z.bits_inj_0. intros j. rewrite Z.land_spec. destruct (Z.eq_dec j i) as [->|]; [by rewrite E|].
    rewrite Z.pow2_bits_false by lia. apply andb_false_r.
Qed.

(** C23. The uart's routines implement what the rest of the kernel takes them to do. [uartputc] waits until the transmitter is free, however long the device takes, and then sends exactly the low byte of its argument, after everything sent before and without losing input. [uartintr] hands each received character to [consoleintr], in order, each once, and ends when none is left: its loop is [Console]'s [uartintr] on the characters received. *)
Theorem uart_refines u c : exists u1, uartputc (S (busy u)) c u = Some u1 /\ sent u1 = u8 c :: sent u /\ received u1 = received u /\
  exists u2, received u2 = [] /\ sent u2 = sent u /\ forall s, uartintr_from (S (length (received u))) u s = (uartintr (received u);; mret (Some u2)) s.
Proof.
  assert (exists u1, uartputc (S (busy u)) c u = Some u1 /\ sent u1 = u8 c :: sent u /\ received u1 = received u) as (u1 & H1 & H2 & H3).
  { remember (busy u) as n eqn:En. revert u En. induction n as [|n IH]; intros u En; cbn [uartputc]; pose proof (uo_lsr Hu u) as Hl;
      destruct (ReadReg LSR u) as [x u'] eqn:Er; destruct Hl as (_ & _ & H5 & Hrx & Htx & Hb); rewrite land_bit, H5, <- En by lia; cbn [bool_decide].
    - change (bool_decide (0%nat = 0%nat)) with true. cbn [negb]. destruct (uo_thr Hu u' (u8 c)) as [Ha Hs]; [rewrite Hb, <- En; done|].
      eexists. split; [done|]. by rewrite Hs, Ha, Htx, Hrx.
    - change (bool_decide (S n = 0%nat)) with false. cbn [negb]. destruct (IH u') as (u1 & H1 & H2 & H3); [rewrite Hb, <- En; done|].
      exists u1. rewrite <- Htx, <- Hrx. done. }
  exists u1. split_and!; [done|done|done|]. clear u1 H1 H2 H3. remember (received u) as q eqn:Eq. revert u Eq.
  induction q as [|ch q IH]; intros u Eq; cbn [length uartintr_from]; unfold uartgetc; pose proof (uo_lsr Hu u) as Hl;
    destruct (ReadReg LSR u) as [x u'] eqn:Er; destruct Hl as (_ & H0 & _ & Hrx & Htx & _); change 1 with (Z.shiftl 1 0) at 1; rewrite land_bit, H0, <- Eq by lia.
  - exists u'. change (bool_decide ([] = [])) with true. cbn [negb]. split_and!; [congruence|done|]. done.
  - rewrite bool_decide_eq_false_2 by done. cbn [negb]. pose proof (uo_rhr Hu u' ch q ltac:(congruence)) as Hr. destruct (ReadReg RHR u') as [y u2] eqn:Ey.
    destruct Hr as (-> & Hc & Hq & Hs & _). destruct (Z.eqb_spec ch (-1)); [lia|]. destruct (IH u2 (eq_sym Hq)) as (u3 & Hr3 & Hs3 & H3).
    exists u3. split_and!; [done|congruence|]. intros s. unfold uartintr in *. cbn [kfor]. unfold mbind, K_bind in *.
    destruct (consoleintr ch s) as [[] s1|r s1]; [|done]. rewrite H3. done.
Qed.
End uart.

(** A uart with a queue on each side, that is free after three reads. *)
Section example.
#[local] Existing Instance small_machine.
#[local] Instance queue_uart : Uart16550 := {
  uart := list Z * list Z * nat;
  ReadReg r u := let '(rx, tx, n) := u in
    if r =? LSR then (Z.lor (if bool_decide (rx = []) then 0 else 1) (if bool_decide (n = 0%nat) then 32 else 0), (rx, tx, pred n))
    else (u8 (hd 0 rx), (tail rx, tx, n));
  WriteReg r v u := let '(rx, tx, n) := u in if r =? THR then (rx, v :: tx, 3%nat) else u;
  received u := u8 <$> u.1.1;
  sent u := u.1.2;
  busy u := u.2
}.

Lemma uart_refines_witness : exists u1, uartputc 3 321 ([104; 105], [], 2%nat) = Some u1 /\ sent u1 = [65] /\ received u1 = [104; 105] /\
  exists u2 : uart, received u2 = [] /\ sent u2 = [] /\ forall s, uartintr_from 3 ([104; 105], [], 2%nat) s = (uartintr [104; 105];; mret (Some u2)) s.
Proof.
  apply (uart_refines) with (u := ([104; 105], [], 2%nat)) (c := 321). split.
  - intros [[rx tx] n]. cbn. destruct rx as [|a rx], n as [|n]; cbn; split_and!; try done; lia.
  - intros [[rx tx] n] c q E. cbn in E. destruct rx as [|a rx]; [done|]. cbn in E. injection E as <- <-. cbn. split_and!; try done; apply Z.mod_pos_bound; done.
  - intros [[rx tx] n] c Hn. done.
Defined.
End example.
