(* ===== verification/Bio.v ===== *)
(** Sleep-locks ([kernel/sleeplock.c]) and the buffer cache ([kernel/bio.c]).

    The list of buffers through [prev]/[next] is [k_lru], from [head.next] to
    [head.prev].  A transfer by the disk ([disk_rw]) copies the buffer's block: that is
    what [virtio_disk_rw] asks of the device and waits for. *)
From S2P Require Import Prelude Types Kstate Cstring Spinlock Frame Printf Accounting Kalloc Vm Proc.
From stdpp Require Import base numbers list gmap strings.
From Stdlib Require Import ZArith Lia.

Local Open Scope Z_scope.
Local Open Scope xv6_scope.

Section bio.
Context `{Env}.

(** ** Sleep-locks *)

Definition get_sl (l : slid) : K sleeplock :=
  match l with
  | SLBuf i => b ← get_buf i; mret (b_lock b)
  | SLInode i => ip ← get_inode i; mret (i_lock ip)
  end.
Definition upd_sl (l : slid) (f : sleeplock -> sleeplock) : K unit :=
  match l with
  | SLBuf i => upd_buf i (set b_lock f)
  | SLInode i => upd_inode i (set i_lock f)
  end.

Definition initsleeplock (l : slid) : K unit :=
  initlock (LSleep l);;
  upd_sl l (fun _ => mksleeplock 0 0).

Definition acquiresleep (l : slid) : K unit :=
  acquire (LSleep l);;
  kloop (S env_patience) (fun _ : unit =>
    lk ← get_sl l;
    if negb (sl_locked lk =? 0) then sleep (CSleep l) (LSleep l);; mret (inl tt) else mret (inr tt)) tt;;
  upd_sl l (set sl_locked (fun _ => 1));;
  i ← curproc;
  p ← get_proc i;
  upd_sl l (set sl_pid (fun _ => p_pid p));;
  release (LSleep l).

Definition releasesleep (l : slid) : K unit :=
  acquire (LSleep l);;
  upd_sl l (set sl_locked (fun _ => 0));;
  upd_sl l (set sl_pid (fun _ => 0));;
  wakeup (CSleep l);;
  release (LSleep l).

Definition holdingsleep (l : slid) : K bool :=
  acquire (LSleep l);;
  lk ← get_sl l;
  r ← (if negb (sl_locked lk =? 0) then
         i ← curproc; p ← get_proc i; mret (sl_pid lk =? p_pid p)
       else mret false);
  release (LSleep l);;
  mret r.

(** ** The disk *)

(** Reads or writes the block of buffer [i]. *)
Definition disk_rw (i : nat) (write : bool) : K unit :=
  b ← get_buf i;
  if write then
    modify (set k_disk <[b_blockno b := b_data b]>);;
    modify (set k_writes (cons (b_blockno b, b_data b)))
  else
    o ← gets (fun s => k_disk s !! b_blockno b);
    data ← deref o;
    upd_buf i (set b_data (fun _ => data)).

(** ** The buffer cache *)

Definition binit : K unit :=
  initlock LBcache;;
  modify (set k_lru (fun _ => []));;
  kfor (seq 0 NBUF) (fun i =>
    initsleeplock (SLBuf i);;
    modify (set k_lru (cons i))).

Definition bget (dev blockno : Z) : K nat :=
  acquire LBcache;;
  lru ← gets k_lru;
  r ← kfind lru (fun i =>
    b ← get_buf i;
    if (b_dev b =? dev) && (b_blockno b =? blockno) then
      upd_buf i (set b_refcnt (fun n => u32 (n + 1)));;
      release LBcache;;
      acquiresleep (SLBuf i);;
      mret (Some i)
    else mret None);
  match r with
  | Some i => mret i
  | None =>
    r ← kfind (rev lru) (fun i =>
      b ← get_buf i;
      if b_refcnt b =? 0 then
        upd_buf i (fun b => b <| b_dev := dev |> <| b_blockno := blockno |> <| b_valid := 0 |>
                              <| b_refcnt := 1 |>);;
        release LBcache;;
        acquiresleep (SLBuf i);;
        mret (Some i)
      else mret None);
    match r with
    | Some i => mret i
    | None => panic "bget: no buffers"
    end
  end.

Definition bread (dev blockno : Z) : K nat :=
  i ← bget dev blockno;
  b ← get_buf i;
  when (b_valid b =? 0)
    (disk_rw i false;;
     upd_buf i (set b_valid (fun _ => 1)));;
  mret i.

Definition bwrite (i : nat) : K unit :=
  h ← holdingsleep (SLBuf i);
  (if h : bool then mret tt else panic "bwrite");;
  disk_rw i true.

Definition brelse (i : nat) : K unit :=
  h ← holdingsleep (SLBuf i);
  (if h : bool then mret tt else panic "brelse");;
  releasesleep (SLBuf i);;
  acquire LBcache;;
  upd_buf i (set b_refcnt (fun n => u32 (n - 1)));;
  b ← get_buf i;
  when (b_refcnt b =? 0)
    (modify (set k_lru (fun l => i :: List.filter (fun j => negb (j =? i)%nat) l)));;
  release LBcache.

Definition bpin (i : nat) : K unit :=
  acquire LBcache;;
  upd_buf i (set b_refcnt (fun n => u32 (n + 1)));;
  release LBcache.

Definition bunpin (i : nat) : K unit :=
  acquire LBcache;;
  upd_buf i (set b_refcnt (fun n => u32 (n - 1)));;
  release LBcache.
End bio.
