(* ===== verification/Bcache.v ===== *)
(** The buffer cache as one logical disk.

    [bc s R H V] describes a state of the cache between calls: [V] is the content of
    the disk as its users see it (a cached block hides the one on the disk), [R i] the number of
    references to buffer [i] ([refcnt] modulo the width of the field) and [H] the buffers the
    running thread holds locked.  The lemmas say what [bread], [bwrite], [brelse], [bpin] and
    [bunpin] do to these; the log and the file system are verified against them. *)
From S2P Require Import Prelude Types Kstate Cstring Spinlock Frame Printf Accounting Kalloc Vm Proc Bio.
From stdpp Require Import functions base numbers list gmap strings.
From Stdlib Require Import ZArith Lia.

Local Open Scope Z_scope.
Local Open Scope xv6_scope.

(** ** Threads *)

(** What waking other threads up does to a process. *)
Definition waked (p q : proc) : Prop :=
  q = p \/ p_state p = SLEEPING /\ q = p <| p_state := RUNNABLE |>.

#[export] Instance waked_refl : Reflexive waked.
Proof. by left. Qed.
#[export] Instance waked_trans : Transitive waked.
Proof. intros p q r [->|[Hp ->]] [->|[Hq ->]]; unfold waked; simpl in *; auto; done. Qed.

(** The fields [ex] may have changed, and other threads may have been woken. *)
Definition bframe (ex : list field) (s s' : kstate) : Prop :=
  frame (Fprocs :: ex) s s' /\ Forall2 waked (k_procs s) (k_procs s').

#[export] Instance bframe_refl ex : Reflexive (bframe ex).
Proof. intros s. by split. Qed.
#[export] Instance bframe_trans ex : Transitive (bframe ex).
Proof. intros s1 s2 s3 [F1 W1] [F2 W2]. split; by etrans. Qed.

Lemma bframe_more ex ex' s s' :
  forallb (fun f => bool_decide (f ∈ ex')) ex = true -> bframe ex s s' -> bframe ex' s s'.
Proof.
  intros Hex [F W]. split; [|done]. eapply frame_more; [|done]. cbn [forallb].
  apply andb_true_intro. split; [apply bool_decide_eq_true_2; by left|].
  rewrite forallb_forall in *. intros f Hf%Hex. apply bool_decide_eq_true in Hf.
  apply bool_decide_eq_true_2. by right.
Qed.

Lemma bframe_frame ex s s' : frame ex s s' -> bool_decide (Fprocs ∈ ex) = false -> bframe ex s s'.
Proof.
  intros F Hp. split.
  - eapply frame_weaken; [|done]. intros f Hf. by right.
  - rewrite (frame_get Fprocs _ _ _ F Hp : k_procs s = k_procs s'). reflexivity.
Qed.

Lemma bframe_get f ex s s' :
  bframe ex s s' -> bool_decide (f ∈ Fprocs :: ex) = false -> same_field f s s'.
Proof. intros [F _]. by apply frame_get. Qed.

Lemma woken_waked ch ps : Forall2 waked ps (woken ch <$> ps).
Proof.
  apply Forall2_same_length_lookup_2; [by rewrite length_fmap|].
  intros i p q Hi Hq. rewrite list_lookup_fmap, Hi in Hq. simplify_eq/=. unfold waked, woken.
  case_bool_decide as Hd; [|by left]. right. by destruct Hd.
Qed.

Lemma bframe_wake ch s s' :
  frame [Fprocs] s s' -> k_procs s' = woken ch <$> k_procs s -> bframe [] s s'.
Proof.
  intros F Hp. split; [done|]. rewrite Hp. apply woken_waked.
Qed.

(** The running thread is process number [me], with pid [pid], and no lock of the process table, of
    the cache or of a sleep-lock is held. *)
Record thread_ok (me : nat) (pid : Z) (s : kstate) : Prop := {
  th_hart : hart_ok (k_hart s);
  th_me : ht_proc (k_hart s) = Some me;
  th_pid : exists p, k_procs s !! me = Some p /\ p_pid p = pid;
  th_len : length (k_procs s) = NPROC;
  th_procs : procs_unlocked s;
  th_bcache : k_locks s !! LBcache = None;
  th_sleep : forall l, k_locks s !! LSleep l = None
}.

Lemma thread_ok_bframe ex me pid s s' :
  bframe ex s s' -> bool_decide (Fhart ∈ Fprocs :: ex) = false ->
  bool_decide (Flocks ∈ Fprocs :: ex) = false -> thread_ok me pid s -> thread_ok me pid s'.
Proof.
  intros [F W] H1 H2 [Hh Hm (p & Hp & Hpid) Hn Hl Hb Hs].
  pose proof (frame_get _ _ _ _ F H1) as (Hid & Hpr & Hx).
  pose proof (frame_get _ _ _ _ F H2) as Hlk. simpl in *.
  split; try (rewrite <- ?Hlk; unfold procs_unlocked in *; rewrite <- ?Hlk; done).
  - by eapply hart_ok_frame.
  - by rewrite <- Hpr.
  - destruct (Forall2_lookup_l _ _ _ _ _ W Hp) as (q & Hq & Hw). exists q. split; [done|].
    destruct Hw as [->|[_ ->]]; done.
  - by rewrite <- (Forall2_length _ _ _ W).
Qed.

(** The end of a critical section that changed the fields [ex]: others are woken and the lock is
    released. *)
Lemma wp_wake_release {EN : Env} {B} ex lk ch (r : B) Q s s2 :
  length (k_procs s) = NPROC -> hart_ok (k_hart s) -> procs_unlocked s -> k_locks s !! lk = None ->
  (forall i, lk <> LProc i) -> frame ex (acq lk s) s2 ->
  bool_decide (Fprocs ∈ ex) = false -> bool_decide (Fhart ∈ ex) = false -> bool_decide (Flocks ∈ ex) = false ->
  (forall s', bframe ex s s' -> (forall f, f ∈ ex -> same_field f s2 s') -> Q r s') ->
  wp (wakeup ch) (fun _ => wp (release lk;; mret r) Q) s2.
Proof.
  intros Hlen Hh Hpu Hl Hlk F Hp1 Hp2 Hp3 HQ.
  pose proof (frame_get _ _ _ _ F Hp1) as Hpr. pose proof (frame_get _ _ _ _ F Hp3) as Hlo. simpl in Hpr, Hlo.
  apply wp_wakeup.
  { by rewrite <- Hpr. }
  { eapply hart_ok_frame; [exact F|done|]. by apply hart_ok_hpush. }
  { intros j. rewrite <- Hlo. rewrite lookup_insert_ne by auto. apply Hpu. }
  intros s3 F3 Hq3. kstep.
  assert (frame (Fprocs :: ex) (acq lk s) s3) as F4.
  { etrans; [eapply frame_weaken; [|exact F]; set_solver|]. eapply frame_weaken; [|exact F3]; set_solver. }
  apply (wp_release_frame (Fprocs :: ex) _ _ s); [done|done|done|..].
  { rewrite bool_decide_eq_false in *. set_solver. }
  { rewrite bool_decide_eq_false in *. set_solver. }
  intros F5. kstep. apply HQ.
  - split; [done|]. change (k_procs (rel lk s3)) with (k_procs s3). rewrite Hq3, <- Hpr. apply woken_waked.
  - intros f Hf. rewrite bool_decide_eq_false in *. assert (f <> Fprocs /\ f <> Fhart /\ f <> Flocks) as (?&?&?) by set_solver.
    specialize (F3 f ltac:(set_solver)). destruct f; done.
Qed.

(** ** Sleep-locks *)

Definition sl_of (l : slid) (s : kstate) : option sleeplock :=
  match l with
  | SLBuf i => b_lock <$> k_bufs s !! i
  | SLInode i => i_lock <$> k_inodes s !! i
  end.
Definition put_sl (l : slid) (v : sleeplock) (s : kstate) : kstate :=
  match l with
  | SLBuf i => match k_bufs s !! i with
               | Some b => s <| k_bufs ::= <[i := b <| b_lock := v |>]> |>
               | None => s
               end
  | SLInode i => match k_inodes s !! i with
                 | Some ip => s <| k_inodes ::= <[i := ip <| i_lock := v |>]> |>
                 | None => s
                 end
  end.

Section sleeplocks.
Context `{Env} (me : nat) (pid : Z).

Lemma wp_get_sl l lk Q s : sl_of l s = Some lk -> Q lk s -> wp (get_sl l) Q s.
Proof.
  intros Hl HQ. destruct l as [i|i]; simpl in *; apply fmap_Some in Hl as (x & Hx & ->); by kstep.
Qed.

Lemma wp_upd_sl l lk f Q s : sl_of l s = Some lk -> Q tt (put_sl l (f lk) s) -> wp (upd_sl l f) Q s.
Proof.
  intros Hl HQ. destruct l as [i|i]; simpl in *; apply fmap_Some in Hl as (x & Hx & ->);
    rewrite Hx in HQ; by kstep.
Qed.

Lemma sl_of_put l v lk s : sl_of l s = Some lk -> sl_of l (put_sl l v s) = Some v.
Proof.
  intros Hl. destruct l as [i|i]; simpl in *; apply fmap_Some in Hl as (x & Hx & ->); rewrite Hx;
    kfields; by rewrite list_lookup_insert_eq by (by eapply lookup_lt_Some).
Qed.

Lemma put_sl_twice l v w s : put_sl l w (put_sl l v s) = put_sl l w s.
Proof.
  destruct l as [i|i]; unfold put_sl;
    [destruct (k_bufs s !! i) as [x|] eqn:Hx | destruct (k_inodes s !! i) as [x|] eqn:Hx];
    rewrite ?Hx; try done; kfields;
    rewrite list_lookup_insert_eq by (by eapply lookup_lt_Some); unfold set; simpl;
    by rewrite list_insert_insert_eq.
Qed.

Lemma put_sl_frame l v s : frame [Fbufs; Finodes] s (put_sl l v s).
Proof. destruct l as [i|i]; simpl; destruct (_ !! i); frame_solve. Qed.

Lemma put_sl_procs l v s : k_procs (put_sl l v s) = k_procs s.
Proof. destruct l as [i|i]; simpl; by destruct (_ !! i). Qed.

(** Updating a sleep-lock commutes with a frame that leaves its table alone. *)
Lemma put_sl_frame_mono l v s s' : frame [] s s' -> frame [] (put_sl l v s) (put_sl l v s').
Proof.
  intros F f Hf. pose proof (F f Hf) as Ff.
  frame_use F Fbufs. frame_use F Finodes.
  destruct l as [i|i]; simpl; rewrite <- ?Hfr, <- ?Hfr0; destruct (_ !! i); try done;
    destruct f; simpl in *; congruence.
Qed.

Lemma sl_of_frame l s s' : frame [] s s' -> sl_of l s' = sl_of l s.
Proof. intros F. frame_use F Fbufs. frame_use F Finodes. destruct l; simpl; congruence. Qed.

Lemma frame_get_procs s s' : frame [] s s' -> k_procs s' = k_procs s.
Proof. intros F. by frame_use F Fprocs. Qed.

(** The end of a critical section of [lk] in which sleep-lock [l] was set to [v]. *)
Lemma wp_release_sl lk l v Q s s' :
  hart_ok (k_hart s) -> k_locks s !! lk = None -> frame [] (put_sl l v (acq lk s)) s' ->
  (forall s', frame [] (put_sl l v s) s' -> Q tt s') -> wp (release lk) Q s'.
Proof.
  intros Hh Hl F HQ. apply (wp_release_frame [Fbufs; Finodes] _ _ s); [done..| |done|done|].
  { etrans; [apply put_sl_frame|]. eapply frame_more; [|exact F]. done. }
  intros F'. apply HQ. intros f _. destruct (decide (f ∈ [Fbufs; Finodes])) as [Hf|Hf].
  - pose proof (F f ltac:(set_solver)) as Ff. clear -Ff Hf.
    assert (f = Fbufs \/ f = Finodes) as [-> | ->] by set_solver; simpl in *; rewrite <- Ff;
      destruct l as [i|i]; simpl; by destruct (_ !! i).
  - etrans; [symmetry; by apply put_sl_frame|]. by apply F'.
Qed.

Lemma wp_acquiresleep l lk Q s :
  thread_ok me pid s -> sl_of l s = Some lk -> sl_locked lk = 0 ->
  (forall s', frame [] (put_sl l (mksleeplock 1 pid) s) s' -> Q tt s') -> wp (acquiresleep l) Q s.
Proof.
  intros [Hh Hme (p & Hp & Hpid) _ _ _ Hsl] Hl Hlk HQ. unfold acquiresleep. kstep.
  apply wp_acquire; [done|apply Hsl|]. cbn [kloop]. kstep.
  assert (sl_of l (acq (LSleep l) s) = Some lk) as Hl1 by (by destruct l).
  eapply wp_get_sl; [done|]. rewrite Hlk. kbool. kstep.
  eapply wp_upd_sl; [done|]. kstep. apply (wp_curproc_frame me).
  { eapply hart_ok_frame; [apply put_sl_frame|done|]. by apply hart_ok_hpush. }
  { by destruct (put_sl_frame l (lk <| sl_locked := 1 |>) (acq (LSleep l) s) Fhart ltac:(set_solver))
      as (_ & <- & _). }
  intros s1 F1.
  assert (k_procs s1 !! me = Some p) as Hp1.
  { by rewrite (frame_get_procs _ _ F1), put_sl_procs. }
  kstep. eapply wp_upd_sl; [by rewrite (sl_of_frame _ _ _ F1); eapply sl_of_put|].
  eapply wp_release_sl; [done|apply Hsl| |done].
  rewrite Hpid. apply (put_sl_frame_mono l (mksleeplock 1 pid)) in F1. by rewrite put_sl_twice in F1.
Qed.

Lemma wp_releasesleep l lk Q s :
  thread_ok me pid s -> sl_of l s = Some lk ->
  (forall s', bframe [] (put_sl l (mksleeplock 0 0) s) s' -> Q tt s') -> wp (releasesleep l) Q s.
Proof.
  intros Ht Hl HQ. pose proof Ht as [Hh Hme _ Hlen Hpl _ Hsl]. unfold releasesleep. kstep.
  apply wp_acquire; [done|apply Hsl|].
  assert (sl_of l (acq (LSleep l) s) = Some lk) as Hl1 by (by destruct l).
  kstep. eapply wp_upd_sl; [done|]. kstep. eapply wp_upd_sl; [by eapply sl_of_put|]. rewrite put_sl_twice.
  change (lk <| sl_locked := 0 |> <| sl_pid := 0 |>) with (mksleeplock 0 0). kstep.
  pose proof (put_sl_frame l (mksleeplock 0 0) (acq (LSleep l) s)) as F0. set (s0 := put_sl l (mksleeplock 0 0) (acq (LSleep l) s)) in *.
  frame_use F0 Fprocs. frame_use F0 Flocks.
  apply wp_wakeup.
  { by rewrite <- Hfr. }
  { eapply hart_ok_frame; [exact F0|done|]. by apply hart_ok_hpush. }
  { intros i. rewrite <- Hfr0. kfields. rewrite lookup_insert_ne by done. apply Hpl. }
  intros s1 F1 Hp1.
  apply (wp_release_frame [Fbufs; Finodes; Fprocs] _ _ s); [done|apply Hsl| |done|done|].
  { etrans; (eapply frame_more; [|eassumption]); done. }
  intros F2. apply HQ.
  apply (bframe_wake (CSleep l)); [|by rewrite put_sl_procs, Hfr, <- Hp1].
  intros f Hf. destruct (decide (f ∈ [Fbufs; Finodes])) as [Hf'|Hf'].
  - pose proof (F1 f Hf) as Ff. clear -Ff Hf'.
    assert (f = Fbufs \/ f = Finodes) as [-> | ->] by set_solver; simpl in *; rewrite <- Ff;
      subst s0; destruct l as [i|i]; simpl; by destruct (_ !! i).
  - etrans; [symmetry; by apply put_sl_frame|]. apply F2. set_solver.
Qed.

Lemma wp_holdingsleep l lk Q s :
  thread_ok me pid s -> sl_of l s = Some lk ->
  (forall s', frame [] s s' -> Q (negb (sl_locked lk =? 0) && (sl_pid lk =? pid)) s') ->
  wp (holdingsleep l) Q s.
Proof.
  intros [Hh Hme (p & Hp & Hpid) _ _ _ Hsl] Hl HQ. unfold holdingsleep. kstep.
  apply wp_acquire; [done|apply Hsl|]. kstep. eapply wp_get_sl; [by destruct l|]. kstep.
  apply wp_mono with (fun r s' => frame [] (acq (LSleep l) s) s' /\
    r = negb (sl_locked lk =? 0) && (sl_pid lk =? pid)).
  - destruct (sl_locked lk =? 0); kbool; kstep; [by split|].
    apply (wp_curproc_frame me); [by apply hart_ok_hpush|done|]. intros s1 F1.
    assert (k_procs s1 !! me = Some p) as Hp1 by (by rewrite (frame_get_procs _ _ F1)).
    kstep. split; [done|]. by rewrite Hpid.
  - intros r s1 [F1 ->]. kstep. apply (wp_release_frame [] _ _ s); [done|apply Hsl|done|done|done|].
    intros F2. kstep. by apply HQ.
Qed.
End sleeplocks.

(** ** The buffer cache *)

Record bc (pid : Z) (R : nat -> Z) (H : list nat) (V : gmap Z (list Z)) (s : kstate) : Prop := {
  bc_len : length (k_bufs s) = NBUF;
  bc_lru : k_lru s ≡ₚ seq 0 NBUF;
  bc_range i : - 2 ^ 31 < R i < 2 ^ 31;
  bc_ref i b : k_bufs s !! i = Some b -> b_refcnt b = u32 (R i);
  bc_held i b : k_bufs s !! i = Some b -> i ∈ H ->
    b_lock b = mksleeplock 1 pid /\ b_valid b <> 0;
  bc_free i b : k_bufs s !! i = Some b -> i ∉ H -> sl_locked (b_lock b) = 0;
  bc_valid i b : k_bufs s !! i = Some b -> b_valid b <> 0 -> b_dev b = ROOTDEV;
  bc_uniq i j b b' : k_bufs s !! i = Some b -> k_bufs s !! j = Some b' ->
    b_dev b = ROOTDEV -> b_dev b' = ROOTDEV -> b_blockno b = b_blockno b' -> i = j;
  bc_view i b : k_bufs s !! i = Some b -> b_valid b <> 0 -> V !! b_blockno b = Some (b_data b);
  bc_disk n : (forall i b, k_bufs s !! i = Some b -> b_valid b <> 0 -> b_blockno b <> n) ->
    V !! n = k_disk s !! n;
  bc_clean i b : k_bufs s !! i = Some b -> R i = 0 -> b_valid b <> 0 ->
    k_disk s !! b_blockno b = Some (b_data b);
  bc_size i b : k_bufs s !! i = Some b -> length (b_data b) = Z.to_nat BSIZE;
  bc_dsize n d : k_disk s !! n = Some d -> length d = Z.to_nat BSIZE
}.

(** Buffer [b] is the one of block [n]. *)
Definition is_for (n : Z) (b : buf) : Prop := b_dev b = ROOTDEV /\ b_blockno b = n.
#[export] Instance is_for_dec n b : Decision (is_for n b).
Proof. unfold is_for. apply _. Defined.

(** [bget] of block [n] in [s] takes buffer [i], which turns from [b] to [b']: the buffer
    of the block if there is one, or else the least recently used one without references. *)
Definition got (pid n : Z) (s : kstate) (i : nat) (b b' : buf) : Prop :=
  is_for n b /\ b' = b <| b_refcnt ::= fun r => u32 (r + 1) |> <| b_lock := mksleeplock 1 pid |> \/
  (forall j bj, k_bufs s !! j = Some bj -> ~ is_for n bj) /\
  b_refcnt b = 0 /\ b' = b <| b_dev := ROOTDEV |> <| b_blockno := n |> <| b_valid := 0 |>
                          <| b_refcnt := 1 |> <| b_lock := mksleeplock 1 pid |> /\
  exists newer older, k_lru s = newer ++ i :: older /\
    forall j bj, j ∈ older -> k_bufs s !! j = Some bj -> b_refcnt bj <> 0.

Section cache.
Context {EN : Env} (me : nat) (pid : Z).
Implicit Types (s : kstate) (R : nat -> Z) (H : list nat) (V : gmap Z (list Z)).

(** Taking a reference in the critical section of [bcache.lock] and locking the buffer. *)
Lemma wp_bget_take i b f Q s :
  thread_ok me pid s -> k_bufs s !! i = Some b -> sl_locked (b_lock b) = 0 ->
  b_lock (f b) = b_lock b ->
  (forall s', frame [Fbufs] s s' ->
     k_bufs s' = <[i := (f b) <| b_lock := mksleeplock 1 pid |>]> (k_bufs s) -> Q (Some i) s') ->
  wp (upd_buf i f;; release LBcache;; acquiresleep (SLBuf i);; mret (Some i)) Q (acq LBcache s).
Proof.
  intros Ht Hb Hl Hf HQ. pose proof Ht as [Hh _ _ _ _ Hbl _].
  assert (k_bufs (acq LBcache s) !! i = Some b) as Hb' by done. kstep.
  apply (wp_release_frame [Fbufs] _ _ s); [done|done| |done|done|].
  { frame_solve. }
  intros F. pose proof (lookup_lt_Some _ _ _ Hb) as Hlt.
  remember (rel LBcache _) as s1 eqn:Hs1.
  assert (k_bufs s1 = <[i := f b]> (k_bufs s)) as Hb1 by (by rewrite Hs1). clear Hs1. kstep.
  assert (k_bufs s1 !! i = Some (f b)) as Hi1 by (by rewrite Hb1, list_lookup_insert_eq).
  eapply (wp_acquiresleep me pid (SLBuf i)).
  { eapply thread_ok_bframe; [by eapply bframe_frame|done..]. }
  { simpl. by rewrite Hi1. }
  { by rewrite Hf. }
  intros s2 F2. kstep. unfold put_sl in F2. rewrite Hi1 in F2. apply HQ.
  - etrans; [exact F|]. apply (frame_more _ [Fbufs]) in F2; [|done].
    etrans; [|exact F2]. frame_solve.
  - frame_use F2 Fbufs. by rewrite <- Hfr, Hb1, list_insert_insert_eq.
Qed.

Lemma bc_lru_elem R H V s i : bc pid R H V s -> i ∈ k_lru s <-> (i < NBUF)%nat.
Proof. intros B. rewrite (bc_lru _ _ _ _ _ B), elem_of_seq. lia. Qed.

Lemma bc_lookup R H V s i : bc pid R H V s -> i ∈ k_lru s -> exists b, k_bufs s !! i = Some b.
Proof.
  intros B Hi%(bc_lru_elem _ _ _ _ _ B). apply lookup_lt_is_Some_2. by rewrite (bc_len _ _ _ _ _ B).
Qed.

Lemma u32_zero x : - 2 ^ 31 < x < 2 ^ 31 -> u32 x = 0 <-> x = 0.
Proof. unfold u32. intros. split; [|by intros ->]. Z.to_euclidean_division_equations. lia. Qed.

Lemma bc_refcnt_zero R H V s i b : bc pid R H V s -> k_bufs s !! i = Some b -> b_refcnt b = 0 <-> R i = 0.
Proof. intros B Hb. rewrite (bc_ref _ _ _ _ _ B _ _ Hb). apply u32_zero, (bc_range _ _ _ _ _ B). Qed.

Lemma elem_of_rev {A} (x : A) l : x ∈ rev l <-> x ∈ l.
Proof. rewrite !list_elem_of_In. symmetry. apply in_rev. Qed.

Lemma wp_bget R H V n Q s :
  thread_ok me pid s -> bc pid R H V s ->
  (forall i b, i ∈ H -> k_bufs s !! i = Some b -> b_blockno b <> n) -> (forall i, i ∈ H -> R i <> 0) ->
  (exists i b, k_bufs s !! i = Some b /\ is_for n b) \/ (exists i, (i < NBUF)%nat /\ R i = 0) ->
  (forall i b b' s', i ∉ H -> k_bufs s !! i = Some b -> got pid n s i b b' ->
     frame [Fbufs] s s' -> k_bufs s' = <[i := b']> (k_bufs s) -> Q i s') ->
  wp (bget ROOTDEV n) Q s.
Proof.
  intros Ht B Hheld HR Hex HQ. pose proof Ht as [Hh _ _ _ _ Hbl _]. unfold bget. kstep.
  apply wp_acquire; [done..|]. kstep.
  apply (wp_kfind (fun pre s' => s' = acq LBcache s /\
    forall j b, j ∈ pre -> k_bufs s !! j = Some b -> ~ is_for n b)).
  { split; [done|]. set_solver. }
  { intros pre i post s0 Hl [-> Hpre].
    destruct (bc_lookup _ _ _ _ i B) as [b Hb]; [change (i ∈ k_lru (acq LBcache s)); rewrite Hl; set_solver|].
    eapply wp_bind, wp_get_buf; [exact Hb|].
    destruct (decide (is_for n b)) as [Hn|Hn].
    - destruct Hn as [Hdev Hbn] eqn:E. clear E. rewrite Hdev, Hbn, !Z.eqb_refl. cbn [andb].
      apply (wp_bget_take i b); [done|done| |done|].
      + apply (bc_free _ _ _ _ _ B _ _ Hb). intros Hi. by apply (Hheld _ _ Hi Hb).
      + intros s' F Hs'. kstep. eapply HQ; [|exact Hb| |exact F|exact Hs'].
        * intros Hi. by apply (Hheld _ _ Hi Hb).
        * by left.
    - replace ((b_dev b =? ROOTDEV) && (b_blockno b =? n)) with false.
      + kstep. split; [done|]. intros j bj [Hj|Hj]%elem_of_app Hbj; [by eapply Hpre|].
        apply list_elem_of_singleton in Hj as ->. by simplify_eq.
      + symmetry. apply andb_false_iff. rewrite !Z.eqb_neq. unfold is_for in Hn. lia. }
  intros s0 [-> Hno]. kstep.
  assert (forall j bj, k_bufs s !! j = Some bj -> ~ is_for n bj) as Hmiss.
  { intros j bj Hj. apply (Hno j bj); [|done]. apply (bc_lru_elem _ _ _ _ _ B : j ∈ k_lru s <-> _).
    rewrite <- (bc_len _ _ _ _ _ B). by eapply lookup_lt_Some. }
  apply (wp_kfind (fun pre s' => s' = acq LBcache s /\
    forall j b, j ∈ pre -> k_bufs s !! j = Some b -> b_refcnt b <> 0)).
  { split; [done|]. set_solver. }
  { intros pre i post s0 Hl [-> Hpre]. change (k_lru (acq LBcache s)) with (k_lru s) in Hl.
    destruct (bc_lookup _ _ _ _ i B) as [b Hb]; [apply elem_of_rev; rewrite Hl; set_solver|].
    eapply wp_bind, wp_get_buf; [exact Hb|].
    destruct (Z.eqb_spec (b_refcnt b) 0) as [Hz|Hz].
    - assert (i ∉ H) as Hi by (intros Hi; by apply (HR i Hi), (bc_refcnt_zero _ _ _ _ _ _ B Hb)).
      apply (wp_bget_take i b); [done|done|by apply (bc_free _ _ _ _ _ B _ _ Hb)|done|].
      intros s' F Hs'. kstep. eapply HQ; [done|exact Hb| |exact F|exact Hs']. right.
      split_and!; [done..|]. exists (rev post), (rev pre). split.
      + rewrite <- (rev_involutive (k_lru s)), Hl, rev_app_distr. simpl. by rewrite <- app_assoc.
      + intros j bj Hj. apply Hpre. by apply elem_of_rev.
    - kstep. split; [done|]. intros j bj [Hj|Hj]%elem_of_app Hbj; [by eapply Hpre|].
      apply list_elem_of_singleton in Hj as ->. by simplify_eq. }
  intros s0 [-> Hfull]. exfalso. destruct Hex as [(i & b & Hb & Hi)|(i & Hi & Hz)]; [by eapply Hmiss|].
  destruct (bc_lookup _ _ _ _ i B) as [b Hb]; [by apply (bc_lru_elem _ _ _ _ _ B)|].
  apply (Hfull i b); [|done|by apply (bc_refcnt_zero _ _ _ _ _ _ B Hb)].
  change (k_lru (acq LBcache s)) with (k_lru s). by apply elem_of_rev, (bc_lru_elem _ _ _ _ _ B).
Qed.

(** A block no valid buffer holds is read from the disk. *)
Lemma bc_uncached R H V s n i b :
  bc pid R H V s -> k_bufs s !! i = Some b -> b_valid b = 0 ->
  is_for n b \/ (forall j bj, k_bufs s !! j = Some bj -> ~ is_for n bj) -> k_disk s !! n = V !! n.
Proof.
  intros B Hb Hv Hn. symmetry. apply (bc_disk _ _ _ _ _ B). intros j bj Hj Hvj Hnj.
  pose proof (bc_valid _ _ _ _ _ B _ _ Hj Hvj) as Hdev. destruct Hn as [[Hd <-]|Hno].
  - assert (j = i) as -> by (by eapply (bc_uniq _ _ _ _ _ B)). by simplify_eq.
  - by apply (Hno _ _ Hj).
Qed.

(** The cache after buffer [i] was taken for block [n] and filled. *)
Lemma bc_taken R H V s s' n d i b b' :
  bc pid R H V s -> 0 <= R i < 2 ^ 30 -> i ∉ H -> V !! n = Some d -> k_bufs s !! i = Some b ->
  is_for n b \/ (forall j bj, k_bufs s !! j = Some bj -> ~ is_for n bj) /\ R i = 0 ->
  is_for n b' -> b_valid b' <> 0 -> b_data b' = d -> b_refcnt b' = u32 (R i + 1) ->
  b_lock b' = mksleeplock 1 pid -> length d = Z.to_nat BSIZE ->
  frame [Fbufs] s s' -> k_bufs s' = <[i := b']> (k_bufs s) ->
  bc pid (<[i := R i + 1]> R) (i :: H) V s'.
Proof.
  intros B HRi Hi HV Hb Hn [Hdev' Hn'] Hv' Hd' Hr' Hl' Hlen F Hs'.
  frame_use F Flru. frame_use F Fdisk. pose proof (lookup_lt_Some _ _ _ Hb) as Hlt.
  assert (forall j bj, k_bufs s' !! j = Some bj -> (j = i /\ bj = b') \/ (j <> i /\ k_bufs s !! j = Some bj)) as Hlook.
  { intros j bj. rewrite Hs'. intros [(->&->&_)|[? ?]]%list_lookup_insert_Some; auto. }
  assert (forall j bj, j <> i -> k_bufs s !! j = Some bj -> b_dev bj = ROOTDEV -> b_blockno bj <> n) as Huniq.
  { intros j bj Hji Hj Hdj Hnj. destruct Hn as [[Hdb Hnb]|[Hno _]]; [|by apply (Hno _ _ Hj)].
    apply Hji. eapply (bc_uniq _ _ _ _ _ B); [exact Hj|exact Hb|done|done|congruence]. }
  pose proof (bc_range _ _ _ _ _ B) as Hrange.
  split.
  - rewrite Hs', length_insert. apply B.
  - rewrite <- Hfr. apply B.
  - intros j. destruct (decide (j = i)) as [->|]; [rewrite fn_lookup_insert|by rewrite fn_lookup_insert_ne].
    specialize (Hrange i). lia.
  - intros j bj [[-> ->]|[Hj Hbj]]%Hlook; [by rewrite fn_lookup_insert|].
    rewrite fn_lookup_insert_ne by done. by apply B.
  - intros j bj [[-> ->]|[Hj Hbj]]%Hlook Hin; [done|]. apply (bc_held _ _ _ _ _ B _ _ Hbj). set_solver.
  - intros j bj [[-> ->]|[Hj Hbj]]%Hlook Hin; [set_solver|]. apply (bc_free _ _ _ _ _ B _ _ Hbj). set_solver.
  - intros j bj [[-> ->]|[Hj Hbj]]%Hlook Hv; [done|]. by apply (bc_valid _ _ _ _ _ B _ _ Hbj).
  - intros j k bj bk [[-> ->]|[Hj Hbj]]%Hlook [[-> ->]|[Hk Hbk]]%Hlook Hdj Hdk Hjk; [done|..].
    + exfalso. apply (Huniq k bk Hk Hbk Hdk). congruence.
    + exfalso. apply (Huniq j bj Hj Hbj Hdj). congruence.
    + by eapply (bc_uniq _ _ _ _ _ B).
  - intros j bj [[-> ->]|[Hj Hbj]]%Hlook Hv; [by rewrite Hn', HV, Hd'|]. by apply (bc_view _ _ _ _ _ B _ _ Hbj).
  - intros m Hm. rewrite <- Hfr0. destruct (decide (b_valid b <> 0 /\ b_blockno b = m)) as [[Hvb <-]|Hne].
    + destruct Hn as [[_ Hnb]|[_ Hz]].
      * exfalso. apply (Hm i b'); [by rewrite Hs', list_lookup_insert_eq|done|congruence].
      * by rewrite (bc_view _ _ _ _ _ B _ _ Hb Hvb), (bc_clean _ _ _ _ _ B _ _ Hb Hz Hvb).
    + apply (bc_disk _ _ _ _ _ B). intros j bj Hbj Hvj Hbn.
      destruct (decide (j = i)) as [->|Hj]; [by simplify_eq; apply Hne|].
      apply (Hm j bj); [by rewrite Hs', list_lookup_insert_ne|done|done].
  - intros j bj [[-> ->]|[Hj Hbj]]%Hlook; rewrite <- Hfr0.
    + rewrite fn_lookup_insert. lia.
    + rewrite fn_lookup_insert_ne by done. by apply (bc_clean _ _ _ _ _ B).
  - intros j bj [[-> ->]|[Hj Hbj]]%Hlook; [by rewrite Hd'|by apply (bc_size _ _ _ _ _ B _ _ Hbj)].
  - intros m d0. rewrite <- Hfr0. apply B.
Qed.

(** What [bget] gives, in terms of the cache. *)
Lemma got_facts R H V s n d i b b' :
  bc pid R H V s -> V !! n = Some d -> k_bufs s !! i = Some b -> got pid n s i b b' ->
  is_for n b' /\ b_lock b' = mksleeplock 1 pid /\ b_refcnt b' = u32 (R i + 1) /\
  (is_for n b \/ (forall j bj, k_bufs s !! j = Some bj -> ~ is_for n bj) /\ R i = 0) /\
  (b_valid b' = 0 -> k_disk s !! n = Some d) /\
  (b_valid b' <> 0 -> b_data b' = d /\ (R i = 0 -> k_disk s !! n = Some d)).
Proof.
  intros B HV Hb Hgot. pose proof (bc_ref _ _ _ _ _ B _ _ Hb) as Hr. rewrite <- HV.
  destruct Hgot as [[Hn ->]|(Hno & Hz%(bc_refcnt_zero _ _ _ _ _ _ B Hb) & -> & _)]; simpl.
  - split_and!; [done|done|by rewrite Hr; unfold u32; rewrite Zplus_mod_idemp_l|by left|..].
    + intros Hv. eapply bc_uncached; eauto.
    + intros Hv. destruct Hn as [_ <-]. pose proof (bc_view _ _ _ _ _ B _ _ Hb Hv) as Hd.
      simplify_eq. split; [done|]. intros Hz. rewrite HV. by apply (bc_clean _ _ _ _ _ B _ _ Hb).
  - split_and!; [done|done|by rewrite Hz|by right| |done].
    intros _. symmetry. apply (bc_disk _ _ _ _ _ B). intros j bj Hj Hvj Hnj. apply (Hno _ _ Hj).
    split; [|done]. by apply (bc_valid _ _ _ _ _ B _ _ Hj).
Qed.

Lemma wp_bread R H V n d Q s :
  thread_ok me pid s -> bc pid R H V s -> V !! n = Some d ->
  (forall i b, i ∈ H -> k_bufs s !! i = Some b -> b_blockno b <> n) -> (forall i, i ∈ H -> R i <> 0) ->
  (forall i b, k_bufs s !! i = Some b -> is_for n b -> 0 <= R i < 2 ^ 30) ->
  (exists i b, k_bufs s !! i = Some b /\ is_for n b) \/ (exists i, (i < NBUF)%nat /\ R i = 0) ->
  (forall i b s', i ∉ H -> k_bufs s' !! i = Some b -> is_for n b -> b_data b = d ->
     (exists b0, k_bufs s !! i = Some b0 /\
        (is_for n b0 \/ (forall j bj, k_bufs s !! j = Some bj -> ~ is_for n bj) /\ R i = 0)) ->
     bc pid (<[i := R i + 1]> R) (i :: H) V s' ->
     (forall j, j <> i -> k_bufs s' !! j = k_bufs s !! j) -> frame [Fbufs] s s' -> Q i s') ->
  wp (bread ROOTDEV n) Q s.
Proof.
  intros Ht B HV Hheld HR Hpos Hex HQ. unfold bread. kstep.
  eapply wp_bget; [done..|]. intros i b b1 s1 Hi Hb Hgot F1 Hs1.
  destruct (got_facts _ _ _ _ _ _ _ _ _ B HV Hb Hgot) as (Hn1 & Hl1 & Hr1 & Hn & Hinv & Hval).
  pose proof (lookup_lt_Some _ _ _ Hb) as Hlt. frame_use F1 Fdisk.
  assert (k_bufs s1 !! i = Some b1) as Hb1 by (by rewrite Hs1, list_lookup_insert_eq).
  assert (0 <= R i < 2 ^ 30) as HRi by (destruct Hn as [?|[_ ->]]; [by eapply Hpos|lia]).
  assert (length d = Z.to_nat BSIZE) as Hlen.
  { destruct (decide (b_valid b1 = 0)) as [Hv|Hv]; [by eapply (bc_dsize _ _ _ _ _ B), Hinv|].
    destruct (Hval Hv) as [<- _]. pose proof (bc_size _ _ _ _ _ B _ _ Hb).
    by destruct Hgot as [[_ ->]|(_ & _ & -> & _)]. }
  assert (forall b2 s2, is_for n b2 -> b_valid b2 <> 0 -> b_data b2 = d -> b_refcnt b2 = b_refcnt b1 ->
    b_lock b2 = b_lock b1 -> frame [Fbufs] s s2 -> k_bufs s2 = <[i := b2]> (k_bufs s) ->
    Q i s2) as Hdone.
  { intros b2 s2 Hn2 Hv2 Hd2 Hr2 Hl2 F2 Hs2. frame_use F2 Fdisk. eapply (HQ i b2); try done.
    - by rewrite Hs2, list_lookup_insert_eq.
    - by exists b.
    - eapply bc_taken; try done; congruence.
    - intros j Hj. by rewrite Hs2, list_lookup_insert_ne. }
  kstep. destruct (Z.eqb_spec (b_valid b1) 0) as [Hv|Hv]; unfold when, disk_rw; kstep.
  - rewrite (proj2 Hn1), <- Hfr, Hinv by done. kstep.
    apply (Hdone (b1 <| b_data := d |> <| b_valid := 1 |>)); try done.
    + etrans; [exact F1|]. frame_solve.
    + kfields. by rewrite Hs1, !list_insert_insert_eq.
  - destruct (Hval Hv) as [Hd Hdisk]. by apply (Hdone b1).
Qed.

(** The cache after a change of a valid buffer [i] that leaves it the buffer of its block. *)
Lemma bc_set R H H' V s s' i b b' r :
  bc pid R H V s -> k_bufs s !! i = Some b -> b_valid b <> 0 ->
  b_dev b' = b_dev b -> b_blockno b' = b_blockno b -> b_valid b' = b_valid b ->
  length (b_data b') = Z.to_nat BSIZE -> b_refcnt b' = u32 r -> - 2 ^ 31 < r < 2 ^ 31 ->
  (forall j, j <> i -> j ∈ H' <-> j ∈ H) -> (i ∈ H' -> b_lock b' = mksleeplock 1 pid) ->
  (i ∉ H' -> sl_locked (b_lock b') = 0) ->
  (r = 0 -> k_disk s !! b_blockno b = Some (b_data b')) ->
  k_lru s' ≡ₚ k_lru s -> k_disk s' = k_disk s -> k_bufs s' = <[i := b']> (k_bufs s) ->
  bc pid (<[i := r]> R) H' (<[b_blockno b := b_data b']> V) s'.
Proof.
  intros B Hb Hv Hdev Hn Hval Hlen Hr Hrange HH Hin Hout Hcl Hlru Hdisk Hs'.
  pose proof (lookup_lt_Some _ _ _ Hb) as Hlt.
  assert (forall j bj, k_bufs s' !! j = Some bj -> (j = i /\ bj = b') \/ (j <> i /\ k_bufs s !! j = Some bj)) as Hlook.
  { intros j bj. rewrite Hs'. intros [(->&->&_)|[? ?]]%list_lookup_insert_Some; auto. }
  assert (b_dev b = ROOTDEV) as Hdb by (by eapply (bc_valid _ _ _ _ _ B)).
  assert (forall j bj, j <> i -> k_bufs s !! j = Some bj -> b_dev bj = ROOTDEV -> b_blockno bj <> b_blockno b) as Huniq.
  { intros j bj Hji Hj Hdj Hnj. apply Hji. by eapply (bc_uniq _ _ _ _ _ B). }
  split.
  - rewrite Hs', length_insert. apply B.
  - rewrite Hlru. apply B.
  - intros j. destruct (decide (j = i)) as [->|]; [by rewrite fn_lookup_insert|rewrite fn_lookup_insert_ne by done; apply B].
  - intros j bj [[-> ->]|[Hj Hbj]]%Hlook; [by rewrite fn_lookup_insert|rewrite fn_lookup_insert_ne by done; by apply B].
  - intros j bj [[-> ->]|[Hj Hbj]]%Hlook Hjin; [by rewrite Hval; auto|]. apply (bc_held _ _ _ _ _ B _ _ Hbj). by apply HH.
  - intros j bj [[-> ->]|[Hj Hbj]]%Hlook Hjin; [auto|]. apply (bc_free _ _ _ _ _ B _ _ Hbj). by rewrite <- HH.
  - intros j bj [[-> ->]|[Hj Hbj]]%Hlook Hvj; [congruence|]. by apply (bc_valid _ _ _ _ _ B _ _ Hbj).
  - intros j k bj bk [[-> ->]|[Hj Hbj]]%Hlook [[-> ->]|[Hk Hbk]]%Hlook Hdj Hdk Hjk; [done|..].
    + exfalso. apply (Huniq k bk Hk Hbk Hdk). congruence.
    + exfalso. apply (Huniq j bj Hj Hbj Hdj). congruence.
    + by eapply (bc_uniq _ _ _ _ _ B).
  - intros j bj [[-> ->]|[Hj Hbj]]%Hlook Hvj; [by rewrite Hn, lookup_insert_eq|].
    rewrite lookup_insert_ne; [by apply (bc_view _ _ _ _ _ B _ _ Hbj)|].
    apply not_eq_sym, (Huniq j); [done..|]. by apply (bc_valid _ _ _ _ _ B _ _ Hbj).
  - intros m Hm. assert (m <> b_blockno b) as Hmn.
    { intros ->. apply (Hm i b'); [by rewrite Hs', list_lookup_insert_eq|congruence|done]. }
    rewrite lookup_insert_ne by done. rewrite Hdisk. apply (bc_disk _ _ _ _ _ B). intros j bj Hbj Hvj.
    destruct (decide (j = i)) as [->|Hj]; [by simplify_eq|].
    apply (Hm j bj); [by rewrite Hs', list_lookup_insert_ne|done].
  - intros j bj [[-> ->]|[Hj Hbj]]%Hlook; rewrite Hdisk.
    + rewrite fn_lookup_insert, Hn. auto.
    + rewrite fn_lookup_insert_ne by done. by apply (bc_clean _ _ _ _ _ B).
  - intros j bj [[-> ->]|[Hj Hbj]]%Hlook; [done|by apply (bc_size _ _ _ _ _ B _ _ Hbj)].
  - intros m d0. rewrite Hdisk. apply B.
Qed.

(** The same where the data of the buffer stays. *)
Lemma bc_set_same R H H' V s s' i b b' r :
  bc pid R H V s -> k_bufs s !! i = Some b -> b_valid b <> 0 ->
  b_dev b' = b_dev b -> b_blockno b' = b_blockno b -> b_valid b' = b_valid b -> b_data b' = b_data b ->
  b_refcnt b' = u32 r -> - 2 ^ 31 < r < 2 ^ 31 ->
  (forall j, j <> i -> j ∈ H' <-> j ∈ H) -> (i ∈ H' -> b_lock b' = mksleeplock 1 pid) ->
  (i ∉ H' -> sl_locked (b_lock b') = 0) ->
  (r = 0 -> k_disk s !! b_blockno b = Some (b_data b)) ->
  k_lru s' ≡ₚ k_lru s -> k_disk s' = k_disk s -> k_bufs s' = <[i := b']> (k_bufs s) ->
  bc pid (<[i := r]> R) H' V s'.
Proof.
  intros B Hb Hv Hdev Hn Hval Hd Hr Hrange HH Hin Hout Hcl Hlru Hdisk Hs'.
  rewrite <- (insert_id V _ _ (bc_view _ _ _ _ _ B _ _ Hb Hv)), <- Hd.
  eapply bc_set; try done; rewrite Hd; [|done]. by apply (bc_size _ _ _ _ _ B _ _ Hb).
Qed.

(** Only the values of [R] and the members of [H] matter. *)
Lemma bc_ext R R' H H' V s :
  (forall i, R i = R' i) -> (forall i, i ∈ H <-> i ∈ H') -> bc pid R H V s -> bc pid R' H' V s.
Proof.
  intros HR HH [? ? ? ? ? ? ? ? ? ? ? ? ?]. split; try done; intros i; try rewrite <- HR; eauto.
  - intros b ? ?. naive_solver.
  - intros b ? ?. naive_solver.
Qed.

(** A held buffer is filled with new data. *)
Lemma bc_modify R H V s s' i b d :
  bc pid R H V s -> k_bufs s !! i = Some b -> i ∈ H -> R i <> 0 -> length d = Z.to_nat BSIZE ->
  frame [Fbufs] s s' -> k_bufs s' = <[i := b <| b_data := d |>]> (k_bufs s) ->
  bc pid R H (<[b_blockno b := d]> V) s'.
Proof.
  intros B Hb Hi HR Hd F Hs'. destruct (bc_held _ _ _ _ _ B _ _ Hb Hi) as [Hl Hv].
  frame_use F Flru. frame_use F Fdisk.
  eapply (bc_ext (<[i := R i]> R) _ H); [|done|].
  { intros j. destruct (decide (j = i)) as [->|]; [by rewrite fn_lookup_insert|by rewrite fn_lookup_insert_ne]. }
  change (<[b_blockno b := d]> V) with (<[b_blockno b := b_data (b <| b_data := d |>)]> V).
  apply (bc_set R H H V s s' i b); try done.
  - apply (bc_ref _ _ _ _ _ B _ _ Hb).
  - apply B.
  - by rewrite Hfr.
Qed.

(** A new block on the disk, the one a held buffer has the content of. *)
Lemma bc_write R H V s s' i b :
  bc pid R H V s -> k_bufs s !! i = Some b -> b_valid b <> 0 ->
  k_bufs s' = k_bufs s -> k_lru s' = k_lru s -> k_disk s' = <[b_blockno b := b_data b]> (k_disk s) ->
  bc pid R H V s'.
Proof.
  intros B Hb Hv Hs' Hlru Hdisk. destruct B as [? ? ? ? ? ? Hvalid Huniq Hview Hdk Hcl Hsz Hdsz] eqn:E. clear E.
  split; rewrite ?Hs', ?Hlru; try done.
  - intros n Hn. rewrite Hdisk. rewrite lookup_insert_ne; [by apply Hdk|]. by apply (Hn _ _ Hb).
  - intros j bj Hj Hz Hvj. rewrite Hdisk. destruct (decide (b_blockno b = b_blockno bj)) as [He|He].
    + assert (i = j) as -> by eauto. simplify_eq. by rewrite lookup_insert_eq.
    + rewrite lookup_insert_ne by done. eauto.
  - intros n d. rewrite Hdisk. intros [[? <-]|[? ?]]%lookup_insert_Some; eauto.
Qed.

Lemma wp_bwrite R H V i b Q s :
  thread_ok me pid s -> bc pid R H V s -> k_bufs s !! i = Some b -> i ∈ H ->
  (forall s', bc pid R H V s' -> frame [Fdisk; Fwrites] s s' ->
     k_disk s' = <[b_blockno b := b_data b]> (k_disk s) ->
     k_writes s' = (b_blockno b, b_data b) :: k_writes s -> Q tt s') ->
  wp (bwrite i) Q s.
Proof.
  intros Ht B Hb Hi HQ. destruct (bc_held _ _ _ _ _ B _ _ Hb Hi) as [Hl Hv]. unfold bwrite. kstep.
  eapply (wp_holdingsleep me pid); [done|by simpl; rewrite Hb|]. intros s1 F1. rewrite Hl. simpl.
  rewrite Z.eqb_refl. frame_use F1 Fbufs. frame_use F1 Fdisk. frame_use F1 Fwrites. frame_use F1 Flru.
  assert (k_bufs s1 !! i = Some b) as Hb1 by (by rewrite <- Hfr). unfold disk_rw. kstep.
  apply HQ; kfields.
  - by eapply bc_write; [exact B|exact Hb|done|kfields; congruence..].
  - apply (frame_more _ [Fdisk; Fwrites]) in F1; [|done]. etrans; [exact F1|]. frame_solve.
  - by rewrite Hfr0.
  - by rewrite Hfr1.
Qed.

(** The references are counted modulo 2^32, as the field is. *)
Lemma u32_add x y : u32 (u32 x + y) = u32 (x + y).
Proof. unfold u32. by rewrite Zplus_mod_idemp_l. Qed.

(** A change of [refcnt] by [k]. *)
Lemma bc_count R H V s s' i b k :
  bc pid R H V s -> k_bufs s !! i = Some b -> b_valid b <> 0 -> - 2 ^ 31 < R i + k < 2 ^ 31 ->
  (R i + k = 0 -> k_disk s !! b_blockno b = Some (b_data b)) ->
  frame [Fbufs] s s' -> k_bufs s' = <[i := b <| b_refcnt ::= fun n => u32 (n + k) |>]> (k_bufs s) ->
  bc pid (<[i := R i + k]> R) H V s'.
Proof.
  intros B Hb Hv Hr Hcl F Hs'. frame_use F Flru. frame_use F Fdisk.
  eapply (bc_set_same R H H V s s' i b); [..|exact Hs']; try done.
  - simpl. by rewrite (bc_ref _ _ _ _ _ B _ _ Hb), u32_add.
  - intros Hi. by destruct (bc_held _ _ _ _ _ B _ _ Hb Hi).
  - intros Hi. by apply (bc_free _ _ _ _ _ B _ _ Hb).
  - by rewrite Hfr.
Qed.

Lemma wp_count R H V i b k Q s :
  thread_ok me pid s -> bc pid R H V s -> k_bufs s !! i = Some b -> b_valid b <> 0 ->
  - 2 ^ 31 < R i + k < 2 ^ 31 -> (R i + k = 0 -> k_disk s !! b_blockno b = Some (b_data b)) ->
  (forall s', bc pid (<[i := R i + k]> R) H V s' -> frame [Fbufs] s s' ->
     k_bufs s' = <[i := b <| b_refcnt ::= fun n => u32 (n + k) |>]> (k_bufs s) -> Q tt s') ->
  wp (acquire LBcache;; upd_buf i (set b_refcnt (fun n => u32 (n + k)));; release LBcache) Q s.
Proof.
  intros Ht B Hb Hv Hr Hcl HQ. pose proof Ht as [Hh _ _ _ _ Hbl _]. kstep. apply wp_acquire; [done..|].
  eapply wp_bind, wp_upd_buf; [exact Hb|].
  apply (wp_release_frame [Fbufs] _ _ s); [done|done|frame_solve|done|done|].
  intros F. by apply HQ; [eapply bc_count| |].
Qed.

Lemma wp_bpin R H V i b Q s :
  thread_ok me pid s -> bc pid R H V s -> k_bufs s !! i = Some b -> b_valid b <> 0 ->
  0 <= R i < 2 ^ 30 ->
  (forall s', bc pid (<[i := R i + 1]> R) H V s' -> frame [Fbufs] s s' ->
     k_bufs s' = <[i := b <| b_refcnt ::= fun n => u32 (n + 1) |>]> (k_bufs s) -> Q tt s') ->
  wp (bpin i) Q s.
Proof. intros Ht B Hb Hv Hr HQ. eapply (wp_count R H V i b 1); try done; lia. Qed.

Lemma wp_bunpin R H V i b Q s :
  thread_ok me pid s -> bc pid R H V s -> k_bufs s !! i = Some b -> b_valid b <> 0 ->
  0 <= R i < 2 ^ 31 -> (R i = 1 -> k_disk s !! b_blockno b = Some (b_data b)) ->
  (forall s', bc pid (<[i := R i + -1]> R) H V s' -> frame [Fbufs] s s' ->
     k_bufs s' = <[i := b <| b_refcnt ::= fun n => u32 (n + -1) |>]> (k_bufs s) -> Q tt s') ->
  wp (bunpin i) Q s.
Proof. intros Ht B Hb Hv Hr Hcl HQ. eapply (wp_count R H V i b (-1)); try done; [lia|]. intros. apply Hcl. lia. Qed.

Lemma move_front (i : nat) l : NoDup l -> i ∈ l -> i :: List.filter (fun j => negb (j =? i)%nat) l ≡ₚ l.
Proof.
  intros Hl Hi. apply NoDup_Permutation; [|done|].
  - apply NoDup_cons. split.
    + rewrite list_elem_of_In, filter_In, Nat.eqb_refl. by intros [_ ?].
    + apply NoDup_ListNoDup. by apply List.NoDup_filter, NoDup_ListNoDup.
  - intros j. rewrite elem_of_cons, list_elem_of_In, filter_In, <- list_elem_of_In.
    destruct (Nat.eqb_spec j i); naive_solver.
Qed.

(** Drops the buffer, which must be clean if this was its last reference. *)
Lemma wp_brelse R H V i b Q s :
  thread_ok me pid s -> bc pid R (i :: H) V s -> i ∉ H -> k_bufs s !! i = Some b ->
  - 2 ^ 30 < R i -> (R i = 1 -> k_disk s !! b_blockno b = Some (b_data b)) ->
  (forall s' b', bc pid (<[i := R i + -1]> R) H V s' -> bframe [Fbufs; Flru] s s' ->
     k_bufs s' = <[i := b']> (k_bufs s) -> b_data b' = b_data b -> b_blockno b' = b_blockno b ->
     b_dev b' = b_dev b -> b_valid b' = b_valid b -> Q tt s') ->
  wp (brelse i) Q s.
Proof.
  intros Ht B Hi Hb HR Hcl HQ. destruct (bc_held _ _ _ _ _ B _ _ Hb ltac:(set_solver)) as [Hl Hv].
  pose proof (lookup_lt_Some _ _ _ Hb) as Hlt. pose proof (bc_range _ _ _ _ _ B i) as Hrange.
  unfold brelse. kstep.
  eapply (wp_holdingsleep me pid); [done|by simpl; rewrite Hb|]. intros s1 F1. rewrite Hl. simpl.
  rewrite Z.eqb_refl. frame_use F1 Fbufs.
  assert (bframe [] s s1) as BF1 by (by apply bframe_frame).
  assert (thread_ok me pid s1) as Ht1 by (by eapply thread_ok_bframe).
  assert (k_bufs s1 !! i = Some b) as Hb1 by (by rewrite <- Hfr). kstep.
  eapply (wp_releasesleep me pid); [done|by simpl; rewrite Hb1|]. intros s2 BF2.
  unfold put_sl in BF2. rewrite Hb1 in BF2.
  pose proof (bframe_get Fbufs _ _ _ BF2 eq_refl) as Hb2. simpl in Hb2. rewrite <- Hfr in Hb2.
  assert (bframe [Fbufs] s s2) as BF3.
  { apply (bframe_more _ [Fbufs]) in BF1, BF2; [|done..].
    etrans; [exact BF1|]. etrans; [|exact BF2]. apply bframe_frame; [frame_solve|done]. }
  clear BF1 BF2 F1 Ht1 Hb1 Hfr s1.
  assert (thread_ok me pid s2) as Ht2 by (by eapply thread_ok_bframe).
  pose proof Ht2 as [Hh2 _ _ _ _ Hbl2 _].
  set (b1 := b <| b_lock := mksleeplock 0 0 |>) in *.
  assert (k_bufs s2 !! i = Some b1) as Hi2 by (by rewrite <- Hb2, list_lookup_insert_eq). kstep.
  apply wp_acquire; [done..|]. kstep.
  set (b2 := b1 <| b_refcnt ::= fun n => u32 (n - 1) |>).
  assert (forall s3, frame [Fbufs; Flru] (acq LBcache s2) s3 -> k_bufs s3 = <[i := b2]> (k_bufs s2) ->
    k_lru s3 ≡ₚ k_lru s2 -> wp (release LBcache) Q s3) as Hfin.
  { intros s3 F3 Hb3 Hlru3. apply (wp_release_frame [Fbufs; Flru] _ _ s2); [done..|].
    intros F4. pose proof (bframe_get Fdisk _ _ _ BF3 eq_refl) as Hd3.
    pose proof (bframe_get Flru _ _ _ BF3 eq_refl) as Hl3. frame_use F4 Fdisk. simpl in *.
    assert (k_bufs s3 = <[i := b2]> (k_bufs s)) as Hb4 by (by rewrite Hb3, <- Hb2, list_insert_insert_eq).
    apply (HQ _ b2); try done.
    - eapply (bc_set_same R (i :: H) H V s _ i b b2); try done.
      + simpl. by rewrite (bc_ref _ _ _ _ _ B _ _ Hb), <- u32_add.
      + lia.
      + intros j Hj. set_solver.
      + intros Hz. apply Hcl. lia.
      + simpl. by rewrite Hlru3, <- Hl3.
      + simpl. congruence.
    - apply (bframe_more _ [Fbufs; Flru]) in BF3; [|done]. etrans; [exact BF3|]. by apply bframe_frame. }
  unfold when. destruct (_ =? 0); kstep; apply Hfin; try done; [frame_solve| |frame_solve].
  kfields. apply move_front.
  - rewrite <- (bframe_get Flru _ _ _ BF3 eq_refl : k_lru s = k_lru s2), (bc_lru _ _ _ _ _ B). apply NoDup_seq.
  - rewrite <- (bframe_get Flru _ _ _ BF3 eq_refl : k_lru s = k_lru s2), (bc_lru_elem _ _ _ _ _ B).
    by rewrite <- (bc_len _ _ _ _ _ B).
Qed.
End cache.
