(* ===== verification/Blocks.v ===== *)
(** The buffer cache by block number: what its clients rely on.

    [cache pid R H V s] hides the buffers of [bc]: [R n] counts the references to block [n], [H]
    lists the blocks the running thread holds locked, each with the buffer [bread] returned for it,
    and [V] is the logical content of the disk.  [spare R] says that fewer than [NBUF] blocks
    are referenced, so that [bget] finds a buffer. *)
From S2P Require Import Prelude Types Kstate Cstring Spinlock Frame Printf Accounting Kalloc Vm Proc Bio Bcache.
From stdpp Require Import functions base numbers list gmap strings.
From Stdlib Require Import ZArith Lia.

Local Open Scope Z_scope.
Local Open Scope xv6_scope.

(** ** Disks and writes *)

Abbreviation disk := (gmap Z (list Z)).

(** The disk after the writes [ws], in order. *)
Definition replay (ws : list (Z * list Z)) (D : disk) : disk :=
  fold_left (fun D w => <[w.1 := w.2]> D) ws D.

Lemma replay_app ws ws' D : replay (ws ++ ws') D = replay ws' (replay ws D).
Proof. apply fold_left_app. Qed.

Lemma replay_other ws D n : n ∉ ws.*1 -> replay ws D !! n = D !! n.
Proof.
  revert D. induction ws as [|w ws IH]; intros D Hn; [done|]. simpl in *.
  rewrite IH by set_solver. apply lookup_insert_ne. set_solver.
Qed.

Lemma replay_agree ws D D' n : D !! n = D' !! n -> replay ws D !! n = replay ws D' !! n.
Proof.
  revert D D'. induction ws as [|w ws IH]; intros D D' Hn; [done|]. apply IH. simpl.
  destruct (decide (n = w.1)) as [->|]; [by rewrite !lookup_insert_eq|by rewrite !lookup_insert_ne].
Qed.

Lemma replay_present ws D n : is_Some (D !! n) -> is_Some (replay ws D !! n).
Proof.
  revert D. induction ws as [|w ws IH]; intros D Hn; [done|]. apply IH. simpl.
  destruct (decide (n = w.1)) as [->|]; [by rewrite lookup_insert_eq|by rewrite lookup_insert_ne].
Qed.

Lemma replay_lookup ws D k n d :
  NoDup ws.*1 -> ws !! k = Some (n, d) -> replay ws D !! n = Some d.
Proof.
  revert D k. induction ws as [|w ws IH]; intros D k Hnd Hk; [done|]. simpl in *.
  apply NoDup_cons in Hnd as [Hn Hnd]. destruct k as [|k]; [|by eapply IH]. simplify_eq/=.
  rewrite replay_other by done. apply lookup_insert_eq.
Qed.

(** The references to buffer [i], given those to each block. *)
Definition refs_of (R : Z -> Z) (s : kstate) (i : nat) : Z :=
  match k_bufs s !! i with
  | Some b => if decide (b_dev b = ROOTDEV) then R (b_blockno b) else 0
  | None => 0
  end.

Record cache (pid : Z) (R : Z -> Z) (H : list (nat * Z)) (V : gmap Z (list Z)) (s : kstate) : Prop := {
  ca_bc : bc pid (refs_of R s) H.*1 V s;
  ca_handle i n : (i, n) ∈ H -> exists b, k_bufs s !! i = Some b /\ is_for n b;
  ca_used n : R n <> 0 -> exists i b, k_bufs s !! i = Some b /\ is_for n b;
  ca_nodup : NoDup H.*1
}.

(** Fewer blocks are referenced than there are buffers. *)
Definition spare (R : Z -> Z) : Prop :=
  exists l : list Z, (forall n, R n <> 0 -> n ∈ l) /\ (length l < NBUF)%nat.

Section blocks.
Context {EN : Env} (me : nat) (pid : Z).
Implicit Types (s : kstate) (R : Z -> Z) (H : list (nat * Z)) (V : gmap Z (list Z)).

Lemma refs_of_for R s i b n : k_bufs s !! i = Some b -> is_for n b -> refs_of R s i = R n.
Proof. intros Hb [Hd <-]. unfold refs_of. rewrite Hb. by rewrite decide_True. Qed.

(** The referenced buffers are at most as many as the referenced blocks. *)
Lemma spare_buffer R H V s : cache pid R H V s -> spare R -> exists i, (i < NBUF)%nat /\ refs_of R s i = 0.
Proof.
  intros C (l & Hl & Hlen). pose proof (ca_bc _ _ _ _ _ C) as B.
  destruct (decide (Exists (fun i => refs_of R s i = 0) (seq 0 NBUF))) as [Hex|Hno].
  { apply Exists_exists in Hex as (i & Hi%elem_of_seq & Hz). exists i. split; [lia|done]. }
  exfalso. apply not_Exists_Forall in Hno; [|intros i; apply _]. rewrite Forall_forall in Hno.
  assert (forall i, i ∈ seq 0 NBUF -> exists b, k_bufs s !! i = Some b /\ b_dev b = ROOTDEV /\ b_blockno b ∈ l) as Hall.
  { intros i Hi. specialize (Hno i Hi). simpl in Hno. unfold refs_of in Hno.
    destruct (k_bufs s !! i) as [b|] eqn:Hb; [|done]. exists b. case_decide; [|done]. auto. }
  set (f i := match k_bufs s !! i with Some b => b_blockno b | None => 0 end).
  assert (length (f <$> seq 0 NBUF) <= length l)%nat as Hle.
  { apply submseteq_length, NoDup_submseteq.
    - apply NoDup_fmap_2_strong; [|apply NoDup_seq]. intros i j Hi Hj Hf.
      destruct (Hall i Hi) as (bi & Hbi & Hdi & _). destruct (Hall j Hj) as (bj & Hbj & Hdj & _).
      unfold f in Hf. rewrite Hbi, Hbj in Hf. by eapply (bc_uniq _ _ _ _ _ B).
    - intros n (i & -> & Hi)%list_elem_of_fmap. destruct (Hall i Hi) as (b & Hb & _ & Hin).
      unfold f. by rewrite Hb. }
  rewrite length_fmap, length_seq in Hle. lia.
Qed.

(** A block without references is on the disk as the cache shows it. *)
Lemma cache_clean R H V s n : cache pid R H V s -> R n = 0 -> k_disk s !! n = V !! n.
Proof.
  intros C Hn. pose proof (ca_bc _ _ _ _ _ C) as B.
  destruct (decide (Exists (fun b => b_valid b <> 0 /\ b_blockno b = n) (k_bufs s))) as [Hex|Hno].
  - apply Exists_exists in Hex as (b & (i & Hb)%list_elem_of_lookup & Hv & <-).
    rewrite (bc_view _ _ _ _ _ B _ _ Hb Hv). apply (bc_clean _ _ _ _ _ B _ _ Hb); [|done].
    rewrite (refs_of_for _ _ _ _ (b_blockno b) Hb); [done|]. split; [|done]. by apply (bc_valid _ _ _ _ _ B _ _ Hb).
  - symmetry. apply (bc_disk _ _ _ _ _ B). intros i b Hb Hv Hbn. apply Hno, Exists_exists.
    exists b. split; [by eapply list_elem_of_lookup_2|done].
Qed.

Lemma wp_bread_block R H V n d Q s :
  thread_ok me pid s -> cache pid R H V s -> V !! n = Some d -> n ∉ H.*2 ->
  (forall m, m ∈ H.*2 -> R m <> 0) -> 0 <= R n < 2 ^ 30 -> R n <> 0 \/ spare R ->
  (forall i s', cache pid (<[n := R n + 1]> R) ((i, n) :: H) V s' -> frame [Fbufs] s s' -> Q i s') ->
  wp (bread ROOTDEV n) Q s.
Proof.
  intros Ht C HV Hheld HR Hpos Hex HQ. pose proof (ca_bc _ _ _ _ _ C) as B.
  assert (forall i, i ∈ H.*1 -> exists b m, k_bufs s !! i = Some b /\ is_for m b /\ m ∈ H.*2) as Hh.
  { intros i ([j m] & -> & Hin)%list_elem_of_fmap. destruct (ca_handle _ _ _ _ _ C _ _ Hin) as (b & Hb & Hm).
    exists b, m. split_and!; [done..|]. apply list_elem_of_fmap. by exists (j, m). }
  eapply wp_bread; [done|exact B|exact HV|..].
  - intros i b Hi Hb Hn. destruct (Hh i Hi) as (b' & m & Hb' & [_ Hm] & Hin). by simplify_eq.
  - intros i Hi. destruct (Hh i Hi) as (b' & m & Hb' & Hm & Hin).
    rewrite (refs_of_for _ _ _ _ _ Hb' Hm). auto.
  - intros i b Hb Hn. by rewrite (refs_of_for _ _ _ _ _ Hb Hn).
  - destruct Hex as [Hn|Hs]; [left; by apply (ca_used _ _ _ _ _ C)|right; by eapply spare_buffer].
  - intros i b s' Hi Hb Hn Hd (b0 & Hb0 & Hcase) B' Hoth F.
    assert (refs_of R s i = R n /\ forall m, m <> n -> is_for m b0 -> R m = 0) as [Hri Hlost].
    { destruct Hcase as [Hn0|[Hno Hz]].
      - split; [by eapply refs_of_for|]. intros m Hm [_ ?]. destruct Hn0. congruence.
      - split.
        + rewrite Hz. destruct (decide (R n = 0)) as [|Hne]; [done|].
          destruct (ca_used _ _ _ _ _ C _ Hne) as (j & bj & Hj & Hnj). by destruct (Hno _ _ Hj).
        + intros m _ Hm. by rewrite <- (refs_of_for R s i b0 m). }
    apply HQ; [|done]. split.
    + eapply bc_ext; [| |exact B'].
      * intros j. destruct (decide (j = i)) as [->|Hj].
        -- rewrite fn_lookup_insert, Hri, (refs_of_for _ _ _ _ _ Hb Hn). by rewrite fn_lookup_insert.
        -- rewrite fn_lookup_insert_ne by done. unfold refs_of. rewrite (Hoth j Hj).
           destruct (k_bufs s !! j) as [bj|] eqn:Hbj; [|done]. case_decide as Hdj; [|done].
           rewrite fn_lookup_insert_ne; [done|]. intros Heq. apply Hj.
           eapply (bc_uniq _ _ _ _ _ B'); [by rewrite Hoth|exact Hb|done|apply Hn|destruct Hn; congruence].
      * done.
    + intros j m [[= -> ->]|Hin]%elem_of_cons; [eauto|].
      rewrite Hoth; [by apply (ca_handle _ _ _ _ _ C)|]. intros ->. apply Hi, list_elem_of_fmap. by exists (i, m).
    + intros m Hm. destruct (decide (m = n)) as [->|Hmn]; [eauto|]. rewrite fn_lookup_insert_ne in Hm by done.
      destruct (ca_used _ _ _ _ _ C _ Hm) as (j & bj & Hj & Hmj). exists j, bj. rewrite Hoth; [done|].
      intros ->. simplify_eq. by apply Hm, Hlost.
    + simpl. apply NoDup_cons. split; [done|apply C].
Qed.

(** What a handle of a held block gives. *)
Lemma cache_held R H V s i n :
  cache pid R H V s -> (i, n) ∈ H ->
  exists b, k_bufs s !! i = Some b /\ is_for n b /\ b_valid b <> 0 /\ V !! n = Some (b_data b) /\
    length (b_data b) = Z.to_nat BSIZE.
Proof.
  intros C Hin. pose proof (ca_bc _ _ _ _ _ C) as B.
  destruct (ca_handle _ _ _ _ _ C _ _ Hin) as (b & Hb & Hn). exists b.
  destruct (bc_held _ _ _ _ _ B _ _ Hb) as [_ Hv]; [apply list_elem_of_fmap; by exists (i, n)|].
  split_and!; try done; [|by apply (bc_size _ _ _ _ _ B _ _ Hb)].
  destruct Hn as [_ <-]. by apply (bc_view _ _ _ _ _ B _ _ Hb).
Qed.

(** A buffer that stays the buffer of its block, with another reference count. *)
Lemma cache_upd R H H' V V' s s' i b b' n r :
  cache pid R H V s -> k_bufs s !! i = Some b -> is_for n b -> is_for n b' ->
  k_bufs s' = <[i := b']> (k_bufs s) -> H' ⊆ H -> NoDup H'.*1 ->
  bc pid (<[i := r]> (refs_of R s)) H'.*1 V' s' -> cache pid (<[n := r]> R) H' V' s'.
Proof.
  intros C Hb Hn Hn' Hs' HH Hnd B'. pose proof (ca_bc _ _ _ _ _ C) as B.
  pose proof (lookup_lt_Some _ _ _ Hb) as Hlt.
  assert (forall j bj m, k_bufs s !! j = Some bj -> is_for m bj -> exists bj', k_bufs s' !! j = Some bj' /\ is_for m bj') as Hkeep.
  { intros j bj m Hj Hm. rewrite Hs'. destruct (decide (j = i)) as [->|Hji].
    - rewrite list_lookup_insert_eq by done. exists b'. split; [done|].
      simplify_eq. destruct Hm, Hn, Hn'. split; congruence.
    - rewrite list_lookup_insert_ne by done. eauto. }
  split; [|..|done].
  - eapply bc_ext; [|done|exact B']. intros j. destruct (decide (j = i)) as [->|Hj].
    + rewrite fn_lookup_insert, (refs_of_for _ _ _ b' n); [by rewrite fn_lookup_insert| |done].
      by rewrite Hs', list_lookup_insert_eq.
    + rewrite fn_lookup_insert_ne by done. unfold refs_of. rewrite Hs', list_lookup_insert_ne by done.
      destruct (k_bufs s !! j) as [bj|] eqn:Hbj; [|done]. case_decide as Hdj; [|done].
      rewrite fn_lookup_insert_ne; [done|]. intros Heq. apply Hj.
      eapply (bc_uniq _ _ _ _ _ B); [exact Hbj|exact Hb|done|apply Hn|destruct Hn; congruence].
  - intros j m Hin%HH. destruct (ca_handle _ _ _ _ _ C _ _ Hin) as (bj & Hj & Hm). by eapply Hkeep.
  - intros m Hm. destruct (decide (m = n)) as [->|Hmn].
    + exists i, b'. split; [|done]. by rewrite Hs', list_lookup_insert_eq.
    + rewrite fn_lookup_insert_ne in Hm by done. destruct (ca_used _ _ _ _ _ C _ Hm) as (j & bj & Hj & Hmj).
      destruct (Hkeep _ _ _ Hj Hmj) as (bj' & ? & ?). eauto.
Qed.

Lemma cache_ext R R' H H' V s :
  (forall n, R n = R' n) -> H ≡ₚ H' -> cache pid R H V s -> cache pid R' H' V s.
Proof.
  intros HR HH C. split.
  - eapply bc_ext; [| |apply C].
    + intros i. unfold refs_of. destruct (_ !! i); [|done]. by case_decide.
    + intros i. by rewrite HH.
  - intros i n. rewrite <- HH. apply C.
  - intros n. rewrite <- HR. apply C.
  - rewrite <- HH. apply C.
Qed.

(** New data in a held buffer. *)
Lemma wp_fill R H V i n d f Q s :
  cache pid R H V s -> (i, n) ∈ H -> R n <> 0 -> V !! n = Some d ->
  length (f d) = Z.to_nat BSIZE ->
  (forall s', cache pid R H (<[n := f d]> V) s' -> frame [Fbufs] s s' -> Q tt s') ->
  wp (upd_buf i (set b_data f)) Q s.
Proof.
  intros C Hin HR HV Hlen HQ. destruct (cache_held _ _ _ _ _ _ C Hin) as (b & Hb & Hn & Hv & HVb & Hl).
  kstep. simplify_eq. apply HQ; [|frame_solve].
  apply (cache_ext (<[n := R n]> R) _ H); [|done|].
  { intros m. destruct (decide (m = n)) as [->|]; [by rewrite fn_lookup_insert|by rewrite fn_lookup_insert_ne]. }
  eapply (cache_upd R H H V); [exact C|exact Hb|done| |kfields; reflexivity|done|apply C|].
  { by destruct Hn. }
  eapply (bc_ext pid (refs_of R s)); [|done|].
  { intros j. destruct (decide (j = i)) as [->|]; [rewrite fn_lookup_insert|by rewrite fn_lookup_insert_ne].
    by eapply refs_of_for. }
  destruct Hn as [Hdev <-].
  eapply bc_modify; [apply C|exact Hb| | |exact Hlen|frame_solve|done].
  - apply list_elem_of_fmap. by exists (i, b_blockno b).
  - by rewrite (refs_of_for _ _ _ _ (b_blockno b) Hb).
Qed.

Lemma wp_bwrite_block R H V i n d Q s :
  thread_ok me pid s -> cache pid R H V s -> (i, n) ∈ H -> V !! n = Some d ->
  (forall s', cache pid R H V s' -> frame [Fdisk; Fwrites] s s' ->
     k_disk s' = <[n := d]> (k_disk s) -> k_writes s' = (n, d) :: k_writes s -> Q tt s') ->
  wp (bwrite i) Q s.
Proof.
  intros Ht C Hin HV HQ. destruct (cache_held _ _ _ _ _ _ C Hin) as (b & Hb & [Hdev <-] & Hv & HVb & Hl).
  simplify_eq. eapply wp_bwrite; [done|apply C|exact Hb|apply list_elem_of_fmap; by exists (i, b_blockno b)|].
  intros s' B' F Hd Hw. apply HQ; try done. frame_use F Fbufs. split; [|..|apply C].
  - eapply bc_ext; [|done|exact B']. intros j. unfold refs_of. by rewrite Hfr.
  - rewrite <- Hfr. apply C.
  - rewrite <- Hfr. apply C.
Qed.

Lemma wp_brelse_block R H V i n d Q s :
  thread_ok me pid s -> cache pid R ((i, n) :: H) V s -> V !! n = Some d ->
  - 2 ^ 30 < R n -> (R n = 1 -> k_disk s !! n = Some d) ->
  (forall s', cache pid (<[n := R n + -1]> R) H V s' -> bframe [Fbufs; Flru] s s' -> Q tt s') ->
  wp (brelse i) Q s.
Proof.
  intros Ht C HV HR Hcl HQ.
  destruct (cache_held _ _ _ _ i n C) as (b & Hb & Hn & Hv & HVb & Hl); [by left|]. simplify_eq.
  pose proof (refs_of_for R _ _ _ _ Hb Hn) as Hr. pose proof (ca_nodup _ _ _ _ _ C) as Hnd.
  simpl in Hnd. apply NoDup_cons in Hnd as [Hni Hnd].
  eapply wp_brelse; [done|exact (ca_bc _ _ _ _ _ C)|done|exact Hb|by rewrite Hr| |].
  { rewrite Hr. by destruct Hn as [_ ->]. }
  intros s' b' B' F Hs' Hd Hbn Hdev _. apply HQ; [|done]. rewrite Hr in B'.
  eapply (cache_upd R ((i, n) :: H) H V V s s' i b b'); try done; [|set_solver].
  destruct Hn. split; congruence.
Qed.

Lemma wp_bunpin_block R H V i n d Q s :
  thread_ok me pid s -> cache pid R H V s -> (i, n) ∈ H -> V !! n = Some d ->
  0 <= R n < 2 ^ 31 -> (R n = 1 -> k_disk s !! n = Some d) ->
  (forall s', cache pid (<[n := R n + -1]> R) H V s' -> frame [Fbufs] s s' -> Q tt s') ->
  wp (bunpin i) Q s.
Proof.
  intros Ht C Hin HV HR Hcl HQ. destruct (cache_held _ _ _ _ _ _ C Hin) as (b & Hb & Hn & Hv & HVb & Hl).
  simplify_eq. pose proof (refs_of_for R _ _ _ _ Hb Hn) as Hr.
  eapply wp_bunpin; [done|exact (ca_bc _ _ _ _ _ C)|exact Hb|done|by rewrite Hr| |].
  { rewrite Hr. by destruct Hn as [_ ->]. }
  intros s' B' F Hs'. apply HQ; [|done]. rewrite Hr in B'.
  eapply (cache_upd R H H V V s s' i b); [exact C|exact Hb|exact Hn| |exact Hs'|done|apply C|exact B'].
  by destruct Hn.
Qed.

Lemma wp_bpin_block R H V i n Q s :
  thread_ok me pid s -> cache pid R H V s -> (i, n) ∈ H -> 0 <= R n < 2 ^ 30 ->
  (forall s', cache pid (<[n := R n + 1]> R) H V s' -> frame [Fbufs] s s' -> Q tt s') ->
  wp (bpin i) Q s.
Proof.
  intros Ht C Hin HR HQ. destruct (cache_held _ _ _ _ _ _ C Hin) as (b & Hb & Hn & Hv & HVb & Hl).
  pose proof (refs_of_for R _ _ _ _ Hb Hn) as Hr.
  eapply wp_bpin; [done|exact (ca_bc _ _ _ _ _ C)|exact Hb|done|by rewrite Hr|].
  intros s' B' F Hs'. apply HQ; [|done]. rewrite Hr in B'.
  eapply (cache_upd R H H V V s s' i b); [exact C|exact Hb|exact Hn| |exact Hs'|done|apply C|exact B'].
  by destruct Hn.
Qed.
End blocks.

(** Looks up counts that were just set. *)
Ltac counts :=
  repeat first [rewrite fn_lookup_insert | rewrite fn_lookup_insert_ne by (done || congruence)].

(** Finds a held block in the list of them. *)
Ltac held := first [apply list_elem_of_here | apply list_elem_of_further; held].

Lemma cache_frame pid ex R H V s s' :
  frame ex s s' -> bool_decide (Fbufs ∈ ex) = false -> bool_decide (Flru ∈ ex) = false ->
  bool_decide (Fdisk ∈ ex) = false -> cache pid R H V s -> cache pid R H V s'.
Proof.
  intros F Hb Hl Hd [B Hh Hu Hn].
  pose proof (frame_get _ _ _ _ F Hb : k_bufs s = k_bufs s') as Eb.
  pose proof (frame_get _ _ _ _ F Hl : k_lru s = k_lru s') as El.
  pose proof (frame_get _ _ _ _ F Hd : k_disk s = k_disk s') as Ed.
  split; rewrite <- ?Eb; try done. eapply (bc_ext _ (refs_of R s)); [|done|].
  { intros i. unfold refs_of. by rewrite Eb. }
  destruct B. split; rewrite <- ?Eb, <- ?El, <- ?Ed; done.
Qed.

(** ** The empty cache *)

Definition no_refs : Z -> Z := fun _ => 0.

(** Buffers as [bcache] starts with them. *)
Lemma zero_cache pid s :
  k_bufs s = replicate NBUF zero_buf -> k_lru s ≡ₚ seq 0 NBUF ->
  map_Forall (fun _ d => length d = Z.to_nat BSIZE) (k_disk s) -> cache pid no_refs [] (k_disk s) s.
Proof.
  intros Hb Hl Hd.
  assert (forall i b, k_bufs s !! i = Some b -> b = zero_buf) as Hz
    by (intros i b; rewrite Hb; by intros [-> _]%lookup_replicate).
  assert (forall i, refs_of no_refs s i = 0) as Hr
    by (intros i; unfold refs_of; destruct (_ !! i); [by case_decide|done]).
  split; [|set_solver|done|constructor].
  split; try (intros i b ->%Hz; done); try done.
  - by rewrite Hb, length_replicate.
  - intros i. rewrite Hr. lia.
  - intros i b ->%Hz. by rewrite Hr.
  - intros i b _ Hi. by apply not_elem_of_nil in Hi.
  - intros i j b b' ->%Hz. done.
Qed.

(** [binit] makes the zeroed buffers an empty cache over the disk: every block is seen as it is on
    the disk. *)
Lemma wp_binit {EN : Env} pid Q s :
  k_bufs s = replicate NBUF zero_buf ->
  map_Forall (fun _ d => length d = Z.to_nat BSIZE) (k_disk s) ->
  (forall s', cache pid no_refs [] (k_disk s) s' -> frame [Flocks; Flru] s s' -> Q tt s') ->
  wp binit Q s.
Proof.
  intros Hb Hd HQ. unfold binit, initlock. kstep.
  apply (wp_kfor (fun pre s' => frame [Flocks; Flru] s s' /\ k_lru s' = rev pre)).
  - split; [frame_solve|done].
  - intros pre i post s1 Hs [F1 Hl1]. unfold initsleeplock, initlock. kstep.
    assert (seq 0 NBUF !! length pre = Some i) as Hi by (by rewrite Hs, list_lookup_middle).
    apply lookup_seq in Hi as [Hi Hlt]. frame_use F1 Fbufs.
    assert (k_bufs s1 !! i = Some zero_buf) as Hbi.
    { rewrite <- Hfr, Hb. apply lookup_replicate. split; [done|lia]. }
    assert (k_bufs (s1 <| k_locks ::= delete (LSleep (SLBuf i)) |>) !! i = Some zero_buf) as Hbi' by done.
    unfold upd_sl. kstep. split.
    + etrans; [exact F1|]. frame_solve. simpl. symmetry. by apply list_insert_id.
    + kfields. by rewrite Hl1, rev_app_distr.
  - intros s1 [F1 Hl1]. apply HQ; [|done]. frame_use F1 Fdisk. frame_use F1 Fbufs. rewrite Hfr.
    apply zero_cache; [congruence| |by rewrite <- Hfr]. rewrite Hl1. symmetry. apply Permutation_rev.
Qed.

(** ** Runs *)

(** The parts of the state the cache and the disk are made of. *)
Definition bio_fields : list field := [Fbufs; Flru; Fdisk; Fwrites].

(** The thread has come from [s0] to [s], having written [ws] to the disk and changed nothing outside
    of the cache and the disk; the cache is now described by [R], [H] and [V]. *)
Record run (me : nat) (pid : Z) (s0 : kstate) (ws : list (Z * list Z)) (R : Z -> Z)
    (H : list (nat * Z)) (V : disk) (s : kstate) : Prop := {
  run_cache : cache pid R H V s;
  run_thread : thread_ok me pid s;
  run_frame : bframe bio_fields s0 s;
  run_disk : k_disk s = replay ws (k_disk s0);
  run_writes : k_writes s = rev ws ++ k_writes s0
}.

Section run.
Context {EN : Env} (me : nat) (pid : Z) (s0 : kstate).
Implicit Types (s : kstate) (R : Z -> Z) (H : list (nat * Z)) (V : disk).

Lemma run_start R H V : thread_ok me pid s0 -> cache pid R H V s0 -> run me pid s0 [] R H V s0.
Proof. intros. by split. Qed.

Lemma run_next ws R R' H H' V V' s s' :
  run me pid s0 ws R H V s -> cache pid R' H' V' s' -> bframe [Fbufs; Flru] s s' ->
  run me pid s0 ws R' H' V' s'.
Proof.
  intros [C Ht Hf Hd Hw] C' F. split; [done|..].
  - by eapply thread_ok_bframe.
  - etrans; [exact Hf|]. by eapply bframe_more; [|exact F].
  - by rewrite <- (bframe_get Fdisk _ _ _ F eq_refl : k_disk s = k_disk s').
  - by rewrite <- (bframe_get Fwrites _ _ _ F eq_refl : k_writes s = k_writes s').
Qed.

Lemma run_frame_next ws R R' H H' V V' s s' :
  run me pid s0 ws R H V s -> cache pid R' H' V' s' -> frame [Fbufs] s s' ->
  run me pid s0 ws R' H' V' s'.
Proof.
  intros Hr C' F. eapply run_next; [exact Hr|exact C'|].
  apply (bframe_more [Fbufs]); [done|]. by apply bframe_frame.
Qed.

(** The counts are compared by value. *)
Lemma run_ext ws R R' H H' V s :
  (forall n, R n = R' n) -> H ≡ₚ H' -> run me pid s0 ws R H V s -> run me pid s0 ws R' H' V s.
Proof. intros HR HH [C ? ? ? ?]. split; try done. by eapply cache_ext. Qed.

Lemma run_swap ws R x y H V s :
  run me pid s0 ws R (x :: y :: H) V s -> run me pid s0 ws R (y :: x :: H) V s.
Proof. apply run_ext; [done|constructor]. Qed.

Lemma run_bread ws R H V n d Q s :
  run me pid s0 ws R H V s -> V !! n = Some d -> n ∉ H.*2 ->
  (forall m, m ∈ H.*2 -> R m <> 0) -> 0 <= R n < 2 ^ 30 -> R n <> 0 \/ spare R ->
  (forall i s', run me pid s0 ws (<[n := R n + 1]> R) ((i, n) :: H) V s' -> Q i s') ->
  wp (bread ROOTDEV n) Q s.
Proof.
  intros Hr HV Hn HR Hpos Hsp HQ. eapply wp_bread_block; [apply Hr|apply Hr|exact HV|done..|].
  intros i s' C F. apply HQ. by eapply run_frame_next.
Qed.

Lemma run_fill ws R H V i n d f Q s :
  run me pid s0 ws R H V s -> (i, n) ∈ H -> R n <> 0 -> V !! n = Some d ->
  length (f d) = Z.to_nat BSIZE ->
  (forall s', run me pid s0 ws R H (<[n := f d]> V) s' -> Q tt s') ->
  wp (upd_buf i (set b_data f)) Q s.
Proof.
  intros Hr Hin HR HV Hlen HQ. eapply wp_fill; [apply Hr|exact Hin|done|exact HV|done|].
  intros s' C F. apply HQ. by eapply run_frame_next.
Qed.

Lemma run_bwrite ws R H V i n d Q s :
  run me pid s0 ws R H V s -> (i, n) ∈ H -> V !! n = Some d ->
  (forall s', run me pid s0 (ws ++ [(n, d)]) R H V s' -> Q tt s') -> wp (bwrite i) Q s.
Proof.
  intros Hr Hin HV HQ. eapply wp_bwrite_block; [apply Hr|apply Hr|exact Hin|exact HV|].
  intros s' C F Hd Hw. apply HQ. destruct Hr as [_ Ht Hf Hd0 Hw0].
  assert (bframe bio_fields s s') as F' by (eapply bframe_more; [|by apply bframe_frame]; done).
  split; [done|by eapply thread_ok_bframe|by etrans|..].
  - by rewrite Hd, replay_app, Hd0.
  - by rewrite Hw, rev_app_distr, Hw0.
Qed.

Lemma run_brelse ws R H V i n d Q s :
  run me pid s0 ws R ((i, n) :: H) V s -> V !! n = Some d ->
  - 2 ^ 30 < R n -> (R n = 1 -> replay ws (k_disk s0) !! n = Some d) ->
  (forall s', run me pid s0 ws (<[n := R n + -1]> R) H V s' -> Q tt s') -> wp (brelse i) Q s.
Proof.
  intros Hr HV HR Hcl HQ. eapply wp_brelse_block; [apply Hr|apply Hr|exact HV|done|by rewrite (run_disk _ _ _ _ _ _ _ _ Hr)|].
  intros s' C F. apply HQ. by eapply run_next.
Qed.

Lemma run_bunpin ws R H V i n d Q s :
  run me pid s0 ws R H V s -> (i, n) ∈ H -> V !! n = Some d ->
  0 <= R n < 2 ^ 31 -> (R n = 1 -> replay ws (k_disk s0) !! n = Some d) ->
  (forall s', run me pid s0 ws (<[n := R n + -1]> R) H V s' -> Q tt s') -> wp (bunpin i) Q s.
Proof.
  intros Hr Hin HV HR Hcl HQ. eapply wp_bunpin_block; [apply Hr|apply Hr|exact Hin|exact HV|done|by rewrite (run_disk _ _ _ _ _ _ _ _ Hr)|].
  intros s' C F. apply HQ. by eapply run_frame_next.
Qed.

Lemma run_bpin ws R H V i n Q s :
  run me pid s0 ws R H V s -> (i, n) ∈ H -> 0 <= R n < 2 ^ 30 ->
  (forall s', run me pid s0 ws (<[n := R n + 1]> R) H V s' -> Q tt s') -> wp (bpin i) Q s.
Proof.
  intros Hr Hin HR HQ. eapply wp_bpin_block; [apply Hr|apply Hr|exact Hin|done|].
  intros s' C F. apply HQ. by eapply run_frame_next.
Qed.

(** A block without references is on the disk. *)
Lemma run_clean ws R H V s n : run me pid s0 ws R H V s -> R n = 0 -> replay ws (k_disk s0) !! n = V !! n.
Proof. intros Hr Hn. rewrite <- (run_disk _ _ _ _ _ _ _ _ Hr). eapply cache_clean; [apply Hr|done]. Qed.

Lemma run_held ws R H V i n s :
  run me pid s0 ws R H V s -> (i, n) ∈ H ->
  exists b, k_bufs s !! i = Some b /\ is_for n b /\ V !! n = Some (b_data b) /\
    length (b_data b) = Z.to_nat BSIZE.
Proof.
  intros Hr Hin. destruct (cache_held _ _ _ _ _ _ _ (run_cache _ _ _ _ _ _ _ _ Hr) Hin) as (b & ? & ? & _ & ? & ?).
  by exists b.
Qed.

(** The same run, seen from a later state with another value of a field that it does not use. *)
Lemma run_rebase ex ws R H V s s' :
  run me pid s0 ws R H V s -> frame ex s s' ->
  forallb (fun f => bool_decide (f ∉ [Fbufs; Flru; Fdisk; Fhart; Flocks; Fprocs])) ex = true ->
  run me pid s' [] R H V s'.
Proof.
  intros [C Ht _ _ _] F Hex.
  assert (forall f, f ∈ [Fbufs; Flru; Fdisk; Fhart; Flocks; Fprocs] -> bool_decide (f ∈ ex) = false) as Hno.
  { intros f Hf. apply bool_decide_eq_false_2. intros Hin. rewrite forallb_forall in Hex.
    apply list_elem_of_In, Hex, bool_decide_eq_true in Hin. done. }
  split; [|..|reflexivity|done|done].
  - eapply cache_frame; [exact F|apply Hno; set_solver..|exact C].
  - eapply thread_ok_bframe; [apply bframe_frame; [exact F|]|..|exact Ht].
    + apply Hno. set_solver.
    + rewrite bool_decide_eq_false, elem_of_cons. intros [?|Hin]; [done|].
      specialize (Hno Fhart ltac:(set_solver)). by rewrite bool_decide_eq_false in Hno.
    + rewrite bool_decide_eq_false, elem_of_cons. intros [?|Hin]; [done|].
      specialize (Hno Flocks ltac:(set_solver)). by rewrite bool_decide_eq_false in Hno.
Qed.
End run.

(** ** Claims *)

(** [binit] turns the zeroed buffers into an empty cache over the disk: no block is referenced or
    locked, every block is seen as it is on the disk, and the buffers are all in the list. *)
Theorem binit_empty {EN : Env} pid s :
  k_bufs s = replicate NBUF zero_buf ->
  map_Forall (fun _ d => length d = Z.to_nat BSIZE) (k_disk s) ->
  wp binit (fun _ s' => cache pid no_refs [] (k_disk s) s' /\ frame [Flocks; Flru] s s') s.
Proof. intros Hb Hd. eapply (wp_binit pid); [done..|]. by intros s' C F. Qed.

(** C11. The cache is coherent.  [bread] of block [n] returns a buffer, locked by the calling thread,
    that holds the logical content of the block (what was last put into the cache, or else what is on
    the disk).  It counts one more reference to that block, every other block keeps its content and
    its references, and nothing outside of the buffers changes.  A buffer is recycled only if nobody
    refers to its block, and there is one as long as fewer than [NBUF] blocks are referenced. *)
Theorem bread_coherent {EN : Env} me pid R H V n d s :
  thread_ok me pid s -> cache pid R H V s -> V !! n = Some d -> n ∉ H.*2 ->
  (forall m, m ∈ H.*2 -> R m <> 0) -> 0 <= R n < 2 ^ 30 -> R n <> 0 \/ spare R ->
  wp (bread ROOTDEV n) (fun i s' =>
    cache pid (<[n := R n + 1]> R) ((i, n) :: H) V s' /\ frame [Fbufs] s s' /\
    exists b, k_bufs s' !! i = Some b /\ is_for n b /\ b_valid b <> 0 /\ b_data b = d /\
      b_lock b = mksleeplock 1 pid) s.
Proof.
  intros Ht C HV Hn HR Hpos Hsp. eapply wp_bread_block; [done..|]. intros i s' C' F.
  split_and!; [done..|]. destruct (cache_held _ _ _ _ _ i n C') as (b & Hb & Hf & Hv & HVb & _); [held|].
  exists b. split_and!; try done; [congruence|].
  by destruct (bc_held _ _ _ _ _ (ca_bc _ _ _ _ _ C') i b Hb ltac:(held)).
Qed.

(** ** A small disk *)

(** The log starts at block 2, and block 40 is the home of a transaction of one block. *)
Definition block_of (b : Z) : list Z := replicate (Z.to_nat BSIZE) b.
Definition small_disk : disk := <[2 := block_of 0]> (<[3 := block_of 0]> (<[40 := block_of 5]> ∅)).
Definition small_boot : kstate :=
  bss <| k_disk := small_disk |> <| k_lru := seq 0 NBUF |>
      <| k_hart := mkhart 0 (Some 0%nat) 0 false false |>
      <| k_procs ::= <[0%nat := zero_proc <| p_pid := 1 |> <| p_state := RUNNING |>]> |>
      <| k_log := mklog 2 30 1 0 1 1 (40 :: replicate 29 0) |>.

Lemma small_boot_thread : thread_ok 0 1 small_boot.
Proof. by split; [..|exists (zero_proc <| p_pid := 1 |> <| p_state := RUNNING |>)| | | |]; try split. Qed.

Lemma small_boot_cache : cache 1 no_refs [] small_disk small_boot.
Proof.
  apply (zero_cache 1 small_boot); [done..|].
  repeat apply map_Forall_insert_2; try apply length_replicate. apply map_Forall_empty.
Qed.

Section example.
#[local] Existing Instance small_machine.

Lemma binit_empty_witness :
  wp binit (fun _ s' => cache 1 no_refs [] small_disk s' /\ frame [Flocks; Flru] small_boot s') small_boot.
Proof.
  apply (binit_empty 1 small_boot); [reflexivity|].
  repeat apply map_Forall_insert_2; try apply length_replicate. apply map_Forall_empty.
Defined.

Lemma bread_coherent_witness :
  wp (bread ROOTDEV 40) (fun i s' =>
    cache 1 (<[40 := no_refs 40 + 1]> no_refs) [(i, 40)] small_disk s' /\ frame [Fbufs] small_boot s' /\
    exists b, k_bufs s' !! i = Some b /\ is_for 40 b /\ b_valid b <> 0 /\ b_data b = block_of 5 /\
      b_lock b = mksleeplock 1 1) small_boot.
Proof.
  apply (bread_coherent 0 1 no_refs [] small_disk 40 (block_of 5) small_boot).
  - apply small_boot_thread.
  - apply small_boot_cache.
  - reflexivity.
  - apply not_elem_of_nil.
  - intros m Hm. by apply not_elem_of_nil in Hm.
  - unfold no_refs. lia.
  - right. exists []. split; [done|simpl; consts; lia].
Defined.
End example.
