(* ===== verification/Virtio.v ===== *)
(** The disk driver, [kernel/virtio_disk.c]: the descriptor rings it shares with the device, its interrupt handler and
    the processes that wait in [virtio_disk_rw].

    The driver has its own state, [vstate]: the rings, the driver's book-keeping, the buffers, the processes inside
    [virtio_disk_rw] and what the device has of its own.  Addresses the driver hands to the device are symbolic ([dma]).
    A process gives [vdisk_lock] up only in [sleep], so that its run is a sequence of critical sections:
    [virtio_disk_rw] up to the first [sleep] or the return, and [rw_resume] from one [sleep] to the next. *)
From S2P Require Import Prelude Types Kstate.
From stdpp Require Import base numbers list gmap strings.
From Stdlib Require Import ZArith Lia.

Local Open Scope Z_scope.
Local Open Scope xv6_scope.

(** ** [kernel/virtio.h] *)

Definition NUM : nat := 8.
Definition VRING_DESC_F_NEXT : Z := 1.
Definition VRING_DESC_F_WRITE : Z := 2.
Definition VIRTIO_BLK_T_IN : Z := 0.
Definition VIRTIO_BLK_T_OUT : Z := 1.
Definition VIRTIO_MMIO_MAGIC_VALUE : Z := 0x000.
Definition VIRTIO_MMIO_VERSION : Z := 0x004.
Definition VIRTIO_MMIO_DEVICE_ID : Z := 0x008.
Definition VIRTIO_MMIO_VENDOR_ID : Z := 0x00c.
Definition VIRTIO_MMIO_DEVICE_FEATURES : Z := 0x010.
Definition VIRTIO_MMIO_DRIVER_FEATURES : Z := 0x020.
Definition VIRTIO_MMIO_GUEST_PAGE_SIZE : Z := 0x028.
Definition VIRTIO_MMIO_QUEUE_SEL : Z := 0x030.
Definition VIRTIO_MMIO_QUEUE_NUM_MAX : Z := 0x034.
Definition VIRTIO_MMIO_QUEUE_NUM : Z := 0x038.
Definition VIRTIO_MMIO_QUEUE_PFN : Z := 0x040.
Definition VIRTIO_MMIO_QUEUE_NOTIFY : Z := 0x050.
Definition VIRTIO_MMIO_STATUS : Z := 0x070.
Definition VIRTIO_CONFIG_S_ACKNOWLEDGE : Z := 1.
Definition VIRTIO_CONFIG_S_DRIVER : Z := 2.
Definition VIRTIO_CONFIG_S_DRIVER_OK : Z := 4.
Definition VIRTIO_CONFIG_S_FEATURES_OK : Z := 8.
Definition VIRTIO_BLK_F_RO : Z := 5.
Definition VIRTIO_BLK_F_SCSI : Z := 7.
Definition VIRTIO_BLK_F_CONFIG_WCE : Z := 11.
Definition VIRTIO_BLK_F_MQ : Z := 12.
Definition VIRTIO_F_ANY_LAYOUT : Z := 27.
Definition VIRTIO_RING_F_INDIRECT_DESC : Z := 28.
Definition VIRTIO_RING_F_EVENT_IDX : Z := 29.

(** ** State *)

(** An address in a descriptor: null, [buf0] on the stack of a process, the data of a buffer, the status of an
    operation. *)
Inductive dma := DNull | DHdr (t : nat) | DData (b : nat) | DStatus (i : Z).

Record VRingDesc := mkvd { vd_addr : dma; vd_len : Z; vd_flags : Z; vd_next : Z }.
#[export] Instance VRingDesc_eta : Eta VRingDesc := fun x => mkvd (vd_addr x) (vd_len x) (vd_flags x) (vd_next x).

(** [struct virtio_blk_outhdr] *)
Record outhdr := mkhdr { h_type : Z; h_reserved : Z; h_sector : Z }.

Inductive vchan := ChFree | ChBuf (b : nat).
#[export] Instance vchan_eq_dec : EqDecision vchan.
Proof. solve_decision. Defined.

(** Where a process is in [virtio_disk_rw]: in the loop around [alloc3_desc], or in the one that waits for the device. *)
Inductive vpc := Allocating | Waiting (idx0 : Z).

(** A call of [virtio_disk_rw]: its arguments, [sector], [buf0] once it is filled in, and the channel its process sleeps on. *)
Record rwcall := mkrw {
  r_buf : nat; r_write : bool; r_sector : Z; r_hdr : option outhdr; r_pc : vpc; r_chan : option vchan
}.
#[export] Instance rwcall_eta : Eta rwcall := fun x =>
  mkrw (r_buf x) (r_write x) (r_sector x) (r_hdr x) (r_pc x) (r_chan x).

Record vstate := mkv {
  v_desc : list VRingDesc;      (* disk.desc *)
  v_avail : list Z;             (* disk.avail: flags, index, ring *)
  v_used_id : Z;                (* disk.used->id *)
  v_used : list Z;              (* disk.used->elems[].id *)
  v_free : list Z;              (* disk.free *)
  v_used_idx : Z;               (* disk.used_idx *)
  v_info : list (option nat * Z); (* disk.info: b and status *)
  v_locked : bool;              (* disk.vdisk_lock *)
  v_regs : list (Z * Z);        (* writes to the device's registers, the latest first *)
  v_bufs : list buf;
  v_calls : gmap nat rwcall;    (* the processes inside virtio_disk_rw *)
  v_sectors : gmap Z (list Z);  (* the disk, in sectors of 512 bytes *)
  v_seen : Z;                   (* how far the device has looked in avail *)
  v_work : list Z               (* the requests the device is working on *)
}.
#[export] Instance vstate_eta : Eta vstate := fun x =>
  mkv (v_desc x) (v_avail x) (v_used_id x) (v_used x) (v_free x) (v_used_idx x) (v_info x) (v_locked x)
    (v_regs x) (v_bufs x) (v_calls x) (v_sectors x) (v_seen x) (v_work x).

Inductive vres (A : Type) :=
  | VOk (a : A) (d : vstate)
  | VPanic (msg : string)
  | VFault
  | VSpin
  | VFuel.
Arguments VOk {A} a d.
Arguments VPanic {A} msg.
Arguments VFault {A}.
Arguments VSpin {A}.
Arguments VFuel {A}.

Definition V (A : Type) : Type := vstate -> vres A.
#[export] Instance V_ret : MRet V := fun A a d => VOk a d.
#[export] Instance V_bind : MBind V := fun A B f m d =>
  match m d with
  | VOk a d' => f a d'
  | VPanic msg => VPanic msg
  | VFault => VFault
  | VSpin => VSpin
  | VFuel => VFuel
  end.

Definition vspin {A} : V A := fun _ => VSpin.
Definition vfault {A} : V A := fun _ => VFault.
Definition vfuel {A} : V A := fun _ => VFuel.
Definition vpanic {A} (msg : string) : V A := fun _ => VPanic msg.
Definition vgets {A} (f : vstate -> A) : V A := fun d => VOk (f d) d.
Definition vmod (f : vstate -> vstate) : V unit := fun d => VOk tt (f d).
Definition vderef {A} (o : option A) : V A := fun d => match o with Some a => VOk a d | None => VFault end.

(** The element of an array at an index of C. *)
Definition zat {A} (l : list A) (i : Z) : option A := if 0 <=? i then l !! Z.to_nat i else None.
Definition zset {A} (l : list A) (i : Z) (x : A) : list A := <[Z.to_nat i := x]> l.

Definition get_desc (i : Z) : V VRingDesc := o ← vgets (fun d => zat (v_desc d) i); vderef o.
Definition set_desc (i : Z) (x : VRingDesc) : V unit := get_desc i;; vmod (set v_desc (fun l => zset l i x)).
Definition get_free (i : Z) : V Z := o ← vgets (fun d => zat (v_free d) i); vderef o.
Definition set_free (i x : Z) : V unit := get_free i;; vmod (set v_free (fun l => zset l i x)).
Definition get_info (i : Z) : V (option nat * Z) := o ← vgets (fun d => zat (v_info d) i); vderef o.
Definition set_info (i : Z) (x : option nat * Z) : V unit := get_info i;; vmod (set v_info (fun l => zset l i x)).
Definition get_avail (i : Z) : V Z := o ← vgets (fun d => zat (v_avail d) i); vderef o.
Definition set_avail (i x : Z) : V unit := get_avail i;; vmod (set v_avail (fun l => zset l i x)).
Definition get_used (i : Z) : V Z := o ← vgets (fun d => zat (v_used d) i); vderef o.
Definition set_used (i x : Z) : V unit := get_used i;; vmod (set v_used (fun l => zset l i x)).
Definition vget_buf (i : nat) : V buf := o ← vgets (fun d => v_bufs d !! i); vderef o.
Definition vset_buf (i : nat) (f : buf -> buf) : V unit := b ← vget_buf i; vmod (set v_bufs <[i := f b]>).
Definition get_call (t : nat) : V rwcall := o ← vgets (fun d => v_calls d !! t); vderef o.
Definition set_call (t : nat) (f : rwcall -> rwcall) : V unit := r ← get_call t; vmod (set v_calls <[t := f r]>).
Definition reg_write (r x : Z) : V unit := vmod (set v_regs (cons (r, x))).

Fixpoint vfor {X} (l : list X) (body : X -> V unit) : V unit :=
  match l with [] => mret tt | x :: l => body x;; vfor l body end.
Fixpoint vfind {X R} (l : list X) (body : X -> V (option R)) : V (option R) :=
  match l with
  | [] => mret None
  | x :: l => r ← body x; match r with Some v => mret (Some v) | None => vfind l body end
  end.

(** ** Locking and sleeping *)

Definition vacquire : V unit := b ← vgets v_locked; if b : bool then vspin else vmod (set v_locked (fun _ => true)).
Definition vrelease : V unit := vmod (set v_locked (fun _ => false)).
Definition wake (c : vchan) (r : rwcall) : rwcall :=
  if decide (r_chan r = Some c) then r <| r_chan := None |> else r.
Definition vwakeup (c : vchan) : V unit := vmod (set v_calls (fmap (wake c))).
Definition vsleep (t : nat) (c : vchan) : V unit := set_call t (set r_chan (fun _ => Some c));; vrelease.

(** ** The driver *)

(** [static int alloc_desc()] *)
Definition alloc_desc : V Z :=
  r ← vfind (Z.of_nat <$> seq 0 NUM) (fun i =>
    f ← get_free i;
    if negb (f =? 0) then set_free i 0;; mret (Some i) else mret None);
  mret (default (-1) r).

(** [static void free_desc(int i)] *)
Definition free_desc (i : Z) : V unit :=
  if Z.of_nat NUM <=? i then vpanic "virtio_disk_intr 1"
  else
    f ← get_free i;
    if negb (f =? 0) then vpanic "virtio_disk_intr 2"
    else
      x ← get_desc i;
      set_desc i (x <| vd_addr := DNull |>);;
      set_free i 1;;
      vwakeup ChFree.

(** [static void free_chain(int i)] *)
Fixpoint free_chain (fuel : nat) (i : Z) : V unit :=
  match fuel with
  | O => vfuel
  | S fuel =>
    free_desc i;;
    x ← get_desc i;
    if negb (Z.land (vd_flags x) VRING_DESC_F_NEXT =? 0) then free_chain fuel (vd_next x) else mret tt
  end.

(** [static int alloc3_desc(int *idx)]: the [n] descriptors still to find after [idx]; [None] is -1. *)
Fixpoint alloc_rest (n : nat) (idx : list Z) : V (option (list Z)) :=
  match n with
  | O => mret (Some idx)
  | S n =>
    i ← alloc_desc;
    if i <? 0 then vfor idx free_desc;; mret None
    else alloc_rest n (idx ++ [i])
  end.
Definition alloc3_desc : V (option (list Z)) := alloc_rest 3 [].

(** [virtio_disk_rw] from the three descriptors to the notification of the device. *)
Definition rw_submit (t : nat) (idx0 idx1 idx2 : Z) : V unit :=
  r ← get_call t;
  set_call t (set r_hdr (fun _ => Some (mkhdr (if r_write r then VIRTIO_BLK_T_OUT else VIRTIO_BLK_T_IN) 0 (r_sector r))));;
  set_desc idx0 (mkvd (DHdr t) 16 VRING_DESC_F_NEXT (u16 idx1));;
  set_desc idx1 (mkvd (DData (r_buf r)) BSIZE (Z.lor (if r_write r then 0 else VRING_DESC_F_WRITE) VRING_DESC_F_NEXT) (u16 idx2));;
  x ← get_info idx0;
  set_info idx0 (x.1, 0);;
  set_desc idx2 (mkvd (DStatus idx0) 1 VRING_DESC_F_WRITE 0);;
  vset_buf (r_buf r) (set b_disk (fun _ => 1));;
  x ← get_info idx0;
  set_info idx0 (Some (r_buf r), x.2);;
  a ← get_avail 1;
  set_avail (2 + a mod Z.of_nat NUM) (u16 idx0);;
  set_avail 1 (u16 (a + 1));;
  reg_write VIRTIO_MMIO_QUEUE_NOTIFY 0;;
  set_call t (set r_pc (fun _ => Waiting idx0)).

(** Its end: the operation is over. *)
Definition rw_finish (t : nat) (idx0 : Z) : V unit :=
  x ← get_info idx0;
  set_info idx0 (None, x.2);;
  free_chain (S NUM) idx0;;
  vrelease;;
  vmod (set v_calls (delete t)).

(** [while(b->disk == 1) sleep(b, ..)] *)
Definition rw_wait (t : nat) (idx0 : Z) : V unit :=
  r ← get_call t;
  b ← vget_buf (r_buf r);
  if b_disk b =? 1 then vsleep t (ChBuf (r_buf r)) else rw_finish t idx0.

(** The loop around [alloc3_desc], and on from there. *)
Definition rw_alloc (t : nat) : V unit :=
  o ← alloc3_desc;
  match o with
  | Some [idx0; idx1; idx2] => rw_submit t idx0 idx1 idx2;; rw_wait t idx0
  | _ => vsleep t ChFree
  end.

(** [void virtio_disk_rw(struct buf *b, int write)], called by process [t]. *)
Definition virtio_disk_rw (t b : nat) (write : bool) : V unit :=
  x ← vget_buf b;
  let sector := u32 (b_blockno x * (BSIZE / 512)) in
  vmod (set v_calls <[t := mkrw b write sector None Allocating None]>);;
  vacquire;;
  rw_alloc t.

(** Process [t] after [sleep], which has the lock again. *)
Definition rw_resume (t : nat) : V unit :=
  vacquire;;
  r ← get_call t;
  match r_pc r with
  | Allocating => rw_alloc t
  | Waiting idx0 => rw_wait t idx0
  end.

(** [void virtio_disk_intr()]: one turn of its loop, and the handler. *)
Definition intr_turn : V bool :=
  ui ← vgets v_used_idx;
  uid ← vgets v_used_id;
  if ui mod Z.of_nat NUM =? uid mod Z.of_nat NUM then mret false
  else
    id ← get_used ui;
    x ← get_info id;
    if negb (x.2 =? 0) then vpanic "virtio_disk_intr status"
    else
      b ← vderef x.1;
      vset_buf b (set b_disk (fun _ => 0));;
      vwakeup (ChBuf b);;
      vmod (set v_used_idx (fun _ => u16 ((ui + 1) mod Z.of_nat NUM)));;
      mret true.

Fixpoint intr_loop (fuel : nat) : V unit :=
  match fuel with
  | O => vfuel
  | S fuel => more ← intr_turn; if more : bool then intr_loop fuel else mret tt
  end.
Definition virtio_disk_intr : V unit :=
  vacquire;;
  intr_loop NUM;;
  vrelease.

(** [void virtio_disk_init(void)]: [reg] gives what the device's registers hold and [pages] is the address of
    [disk.pages]. *)
Definition virtio_disk_init (reg : Z -> Z) (pages : Z) : V unit :=
  vmod (set v_locked (fun _ => false));;
  if negb (reg VIRTIO_MMIO_MAGIC_VALUE =? 0x74726976) || negb (reg VIRTIO_MMIO_VERSION =? 1) ||
     negb (reg VIRTIO_MMIO_DEVICE_ID =? 2) || negb (reg VIRTIO_MMIO_VENDOR_ID =? 0x554d4551)
  then vpanic "could not find virtio disk"
  else
    let status := Z.lor 0 VIRTIO_CONFIG_S_ACKNOWLEDGE in
    reg_write VIRTIO_MMIO_STATUS status;;
    let status := Z.lor status VIRTIO_CONFIG_S_DRIVER in
    reg_write VIRTIO_MMIO_STATUS status;;
    let features := reg VIRTIO_MMIO_DEVICE_FEATURES in
    let without f k := Z.land f (Z.lnot (Z.shiftl 1 k)) in
    let features := without features VIRTIO_BLK_F_RO in
    let features := without features VIRTIO_BLK_F_SCSI in
    let features := without features VIRTIO_BLK_F_CONFIG_WCE in
    let features := without features VIRTIO_BLK_F_MQ in
    let features := without features VIRTIO_F_ANY_LAYOUT in
    let features := without features VIRTIO_RING_F_EVENT_IDX in
    let features := without features VIRTIO_RING_F_INDIRECT_DESC in
    reg_write VIRTIO_MMIO_DRIVER_FEATURES (u32 features);;
    let status := Z.lor status VIRTIO_CONFIG_S_FEATURES_OK in
    reg_write VIRTIO_MMIO_STATUS status;;
    let status := Z.lor status VIRTIO_CONFIG_S_DRIVER_OK in
    reg_write VIRTIO_MMIO_STATUS status;;
    reg_write VIRTIO_MMIO_GUEST_PAGE_SIZE PGSIZE;;
    reg_write VIRTIO_MMIO_QUEUE_SEL 0;;
    let max := reg VIRTIO_MMIO_QUEUE_NUM_MAX in
    if max =? 0 then vpanic "virtio disk has no queue 0"
    else if max <? Z.of_nat NUM then vpanic "virtio disk max queue too short"
    else
      reg_write VIRTIO_MMIO_QUEUE_NUM (Z.of_nat NUM);;
      vmod (fun d => d <| v_desc := replicate NUM (mkvd DNull 0 0 0) |> <| v_avail := replicate (2 + NUM) 0 |>
                       <| v_used_id := 0 |> <| v_used := replicate NUM 0 |>);;
      reg_write VIRTIO_MMIO_QUEUE_PFN (u32 (Z.shiftr pages 12));;
      vfor (Z.of_nat <$> seq 0 NUM) (fun i => set_free i 1).

(** ** The device

    What the virtio specification the header cites says of a legacy block device.  It takes requests from [avail] in order, serves the
    ones it has taken in any order, and reports each in [used] after its data and status. *)

Definition dev_fetch : V unit :=
  seen ← vgets v_seen;
  a ← get_avail 1;
  if seen =? a then vfault
  else
    h ← get_avail (2 + seen mod Z.of_nat NUM);
    vmod (fun d => d <| v_work ::= (fun w => w ++ [h]) |> <| v_seen := u16 (seen + 1) |>).

(** The sectors from [s] on that [n] bytes take. *)
Definition sector_range (s n : Z) : list Z := seqZ s (n / 512).
Definition read_sectors (d : vstate) (s n : Z) : option (list Z) := mjoin <$> mapM (fun k => v_sectors d !! k) (sector_range s n).
Fixpoint put_sectors (s : Z) (chunks : list (list Z)) (m : gmap Z (list Z)) : gmap Z (list Z) :=
  match chunks with [] => m | c :: chunks => put_sectors (s + 1) chunks (<[s := c]> m) end.
Definition chunks_of (data : list Z) : list (list Z) := [take 512 data; drop 512 data].

Definition dev_read_hdr (a : dma) : V outhdr :=
  match a with DHdr t => r ← get_call t; vderef (r_hdr r) | _ => vfault end.
Definition dev_buf (a : dma) : V nat := match a with DData b => mret b | _ => vfault end.

Definition dev_serve (h : Z) : V unit :=
  x0 ← get_desc h;
  hdr ← dev_read_hdr (vd_addr x0);
  x1 ← get_desc (vd_next x0);
  b ← dev_buf (vd_addr x1);
  x2 ← get_desc (vd_next x1);
  buf ← vget_buf b;
  old ← vgets (fun d => read_sectors d (h_sector hdr) (vd_len x1));
  status ← (match old with
            | None => mret 1
            | Some data =>
              if h_type hdr =? VIRTIO_BLK_T_OUT
              then vmod (set v_sectors (put_sectors (h_sector hdr) (chunks_of (b_data buf))));; mret 0
              else if Z.land (vd_flags x1) VRING_DESC_F_WRITE =? 0 then vfault
              else vset_buf b (set b_data (fun _ => data));; mret 0
            end);
  match vd_addr x2 with
  | DStatus i =>
    x ← get_info i;
    set_info i (x.1, status);;
    uid ← vgets v_used_id;
    set_used (uid mod Z.of_nat NUM) h;;
    vmod (fun d => d <| v_used_id := u16 (uid + 1) |> <| v_work ::= filter (fun k => k <> h) |>)
  | _ => vfault
  end.
