(* ===== verification/Ring.v ===== *)
(** The disk driver refines the transfers of the buffer cache.

    [vstep] interleaves the critical sections of the processes in [virtio_disk_rw], the interrupt handler and the device.
    The invariant [vinv] says who owns each descriptor and where each request is: offered in [avail], with the
    device, or reported in [used].  The abstract machine [aspec] serves each call of [virtio_disk_rw] once, by
    [Bio]'s [disk_rw], between the call and its return. *)
From S2P Require Import Prelude Types Kstate Bio Virtio.
From stdpp Require Import base numbers list gmap strings.
From Stdlib Require Import ZArith Lia.

Local Open Scope Z_scope.
Local Open Scope xv6_scope.

(** ** The abstract machine *)

Inductive event := ECall (t b : nat) (write : bool) | EReturn (t : nat) | EEdit (b : nat) | ETau.

(** The kernel's disk and buffers, and the calls: buffer, direction, and whether the transfer has been made. *)
Record astate := mka { a_k : kstate; a_calls : gmap nat (nat * bool * bool) }.

Inductive aspec : astate -> event -> astate -> Prop :=
  | a_call k c t b w : c !! t = None -> (forall t' x, c !! t' = Some x -> x.1.1 <> b) ->
      aspec (mka k c) (ECall t b w) (mka k (<[t := (b, w, false)]> c))
  | a_serve k k' c t b w : c !! t = Some (b, w, false) -> disk_rw b w k = Ok tt k' ->
      aspec (mka k c) ETau (mka k' (<[t := (b, w, true)]> c))
  | a_return k c t b w : c !! t = Some (b, w, true) -> aspec (mka k c) (EReturn t) (mka k (delete t c))
  | a_edit k c b x : (forall t y, c !! t = Some y -> y.1.1 <> b) ->
      aspec (mka k c) (EEdit b) (mka (k <| k_bufs ::= <[b := x]> |>) c).

(** ** The driver, the device and the users of the buffers *)

Definition idle (d : vstate) (b : nat) : Prop := forall t r, v_calls d !! t = Some r -> r_buf r <> b.
Definition on_disk (d : vstate) (n : Z) : Prop :=
  0 <= n < 2 ^ 31 /\ is_Some (v_sectors d !! (2 * n)) /\ is_Some (v_sectors d !! (2 * n + 1)).
Definition buf_ok (d : vstate) (x : buf) : Prop := length (b_data x) = 1024%nat /\ on_disk d (b_blockno x).

(** What the device may do. *)
Definition dev_spec (d d' : vstate) : Prop :=
  dev_fetch d = VOk tt d' \/ exists h, h ∈ v_work d /\ dev_serve h d = VOk tt d'.

Class Device := {
  dev_step : vstate -> vstate -> Prop;
  dev_conforms d d' : dev_step d d' -> dev_spec d d';
  dev_busy d d' : dev_spec d d' -> exists d'', dev_step d d''
}.

Inductive vstep {DV : Device} : vstate -> event -> vstate -> Prop :=
  | v_call d d' t b w x : v_calls d !! t = None -> idle d b -> v_bufs d !! b = Some x -> virtio_disk_rw t b w d = VOk tt d' ->
      vstep d (ECall t b w) d'
  | v_resume d d' t r : v_calls d !! t = Some r -> r_chan r = None -> rw_resume t d = VOk tt d' ->
      vstep d (match v_calls d' !! t with None => EReturn t | Some _ => ETau end) d'
  | v_intr d d' more : (vacquire;; r ← intr_turn; vrelease;; mret r) d = VOk more d' -> vstep d ETau d'
  | v_dev d d' : dev_step d d' -> vstep d ETau d'
  | v_edit d b x x' : idle d b -> v_bufs d !! b = Some x -> buf_ok d x' -> vstep d (EEdit b) (d <| v_bufs ::= <[b := x']> |>).

(** After [virtio_disk_init], with buffers that are on the disk. *)
Definition zeroed (bufs : list buf) (sectors : gmap Z (list Z)) : vstate :=
  mkv [] [] 0 [] (replicate NUM 0) 0 (replicate NUM (None, 0)) false [] bufs ∅ sectors 0 [].
Definition booted (d : vstate) : Prop := exists reg pages bufs sectors,
  virtio_disk_init reg pages (zeroed bufs sectors) = VOk tt d /\
  (forall b x, bufs !! b = Some x -> buf_ok (zeroed bufs sectors) x) /\
  (forall k s, sectors !! k = Some s -> length s = 512%nat).

Inductive reachable {DV : Device} : vstate -> Prop :=
  | reach_boot d : booted d -> reachable d
  | reach_step d e d' : reachable d -> vstep d e d' -> reachable d'.

(** ** The rings *)

Definition avail_at (d : vstate) (k : Z) : Z := default 0 (zat (v_avail d) (2 + k mod 8)).
Definition used_at (d : vstate) (k : Z) : Z := default 0 (zat (v_used d) (k mod 8)).
Definition avail_idx (d : vstate) : Z := default 0 (zat (v_avail d) 1).

Definition offered (d : vstate) : list Z := (fun k => avail_at d (v_seen d + k)) <$> seqZ 0 ((avail_idx d - v_seen d) mod 65536).
Definition reported (d : vstate) : list Z := (fun k => used_at d (v_used_idx d + k)) <$> seqZ 0 ((v_used_id d - v_used_idx d) mod 8).
Definition flight (d : vstate) : list Z := offered d ++ v_work d ++ reported d.

(** ** Invariant *)

Definition flag (o : option nat) : Z := match o with None => 1 | Some _ => 0 end.
Definition nfree (own : list (option nat)) : nat := length (filter (fun o => o = None) own).

(** The descriptors [i0], [i1], [i2] carry call [r] of process [t]. *)
Record carries (d : vstate) (own : list (option nat)) (t : nat) (r : rwcall) (i0 i1 i2 : nat) : Prop := {
  ca_own i : own !! i = Some (Some t) <-> i = i0 \/ i = i1 \/ i = i2;
  ca_ne : i0 <> i1 /\ i0 <> i2 /\ i1 <> i2;
  ca_0 : v_desc d !! i0 = Some (mkvd (DHdr t) 16 1 (Z.of_nat i1));
  ca_1 : v_desc d !! i1 = Some (mkvd (DData (r_buf r)) 1024 (if r_write r then 1 else 3) (Z.of_nat i2));
  ca_2 : v_desc d !! i2 = Some (mkvd (DStatus (Z.of_nat i0)) 1 2 0);
  ca_info : v_info d !! i0 = Some (Some (r_buf r), 0);
  ca_hdr : r_hdr r = Some (mkhdr (if r_write r then 1 else 0) 0 (r_sector r))
}.

Definition call_ok (d : vstate) (own : list (option nat)) (t : nat) (r : rwcall) : Prop := exists x,
  v_bufs d !! r_buf r = Some x /\ r_sector r = 2 * b_blockno x /\
  match r_pc r with
  | Allocating => (r_chan r = None \/ r_chan r = Some ChFree) /\ (forall i, own !! i <> Some (Some t))
  | Waiting h => (exists i0 i1 i2, h = Z.of_nat i0 /\ carries d own t r i0 i1 i2) /\
      (b_disk x = 1 /\ h ∈ flight d /\ (r_chan r = None \/ r_chan r = Some (ChBuf (r_buf r))) \/
       b_disk x = 0 /\ (h ∉ flight d) /\ r_chan r = None)
  end.

Record vinv (d : vstate) (own : list (option nat)) : Prop := {
  vi_desc : length (v_desc d) = 8%nat;
  vi_avail : length (v_avail d) = 10%nat;
  vi_used : length (v_used d) = 8%nat;
  vi_info : length (v_info d) = 8%nat;
  vi_own : length own = 8%nat;
  vi_free : v_free d = flag <$> own;
  vi_aidx : 0 <= avail_idx d < 65536;
  vi_seen : 0 <= v_seen d < 65536;
  vi_uid : 0 <= v_used_id d < 65536;
  vi_uidx : 0 <= v_used_idx d < 8;
  vi_calls t r : v_calls d !! t = Some r -> call_ok d own t r;
  vi_owner i t : own !! i = Some (Some t) -> exists r h, v_calls d !! t = Some r /\ r_pc r = Waiting h;
  vi_distinct t t' r r' : v_calls d !! t = Some r -> v_calls d !! t' = Some r' -> r_buf r = r_buf r' -> t = t';
  vi_nodup : NoDup (flight d);
  vi_heads h : h ∈ flight d -> exists t r, v_calls d !! t = Some r /\ r_pc r = Waiting h;
  vi_bufs b x : v_bufs d !! b = Some x -> buf_ok d x;
  vi_sectors k s : v_sectors d !! k = Some s -> length s = 512%nat;
  vi_starve t r : v_calls d !! t = Some r -> r_chan r = Some ChFree -> (nfree own < 3)%nat
}.

(** ** Simulation *)

Definition served (d : vstate) (r : rwcall) : bool :=
  match r_pc r with Allocating => false | Waiting h => negb (bool_decide (h ∈ offered d ++ v_work d)) end.
Definition abs_call (d : vstate) (r : rwcall) : nat * bool * bool := (r_buf r, r_write r, served d r).
Definition block (d : vstate) (n : Z) : option (list Z) :=
  s0 ← v_sectors d !! (2 * n); s1 ← v_sectors d !! (2 * n + 1); Some (s0 ++ s1).
Definition content (x : buf) : Z * list Z := (b_blockno x, b_data x).

Record abstracts (d : vstate) (a : astate) : Prop := {
  ab_disk n : k_disk (a_k a) !! n = block d n;
  ab_bufs b : content <$> (k_bufs (a_k a) !! b) = content <$> (v_bufs d !! b);
  ab_calls : a_calls a = abs_call d <$> v_calls d
}.

(** ** Running the driver *)

Definition vwp {A} (m : V A) (Q : A -> vstate -> Prop) (d : vstate) : Prop :=
  match m d with VOk a d' => Q a d' | _ => False end.

Lemma vwp_bind {A B} (m : V A) (f : A -> V B) Q d : vwp m (fun a d' => vwp (f a) Q d') d -> vwp (m ≫= f) Q d.
Proof. unfold vwp, mbind, V_bind. by destruct (m d). Qed.
Lemma vwp_mono {A} (m : V A) (Q Q' : A -> vstate -> Prop) d : vwp m Q d -> (forall a d', Q a d' -> Q' a d') -> vwp m Q' d.
Proof. unfold vwp. destruct (m d); auto. Qed.
Lemma vwp_inv {A} (m : V A) Q d a d' : vwp m Q d -> m d = VOk a d' -> Q a d'.
Proof. unfold vwp. intros H E. by rewrite E in H. Qed.
Lemma vwp_ok {A} (m : V A) Q d : vwp m Q d -> exists a d', m d = VOk a d' /\ Q a d'.
Proof. unfold vwp. destruct (m d); [eauto|done..]. Qed.

Lemma zat_nat {A} (l : list A) (i : nat) : zat l (Z.of_nat i) = l !! i.
Proof. unfold zat. destruct (Z.leb_spec 0 (Z.of_nat i)); [|lia]. by rewrite Nat2Z.id. Qed.
Lemma zat_at {A} (l : list A) (i : Z) : 0 <= i -> zat l i = l !! Z.to_nat i.
Proof. intros. unfold zat. destruct (Z.leb_spec 0 i); [done|lia]. Qed.
Lemma zset_nat {A} (l : list A) (i : nat) x : zset l (Z.of_nat i) x = <[i := x]> l.
Proof. unfold zset. by rewrite Nat2Z.id. Qed.
Lemma zat_Some {A} (l : list A) (i : Z) : 0 <= i < Z.of_nat (length l) -> exists x, zat l i = Some x.
Proof. intros. rewrite zat_at by lia. apply lookup_lt_is_Some_2. lia. Qed.
Lemma zat_zset {A} (l : list A) (i j : Z) x : 0 <= i < Z.of_nat (length l) -> 0 <= j -> zat (zset l i x) j = if decide (i = j) then Some x else zat l j.
Proof.
  intros Hi Hj. rewrite !zat_at by done. unfold zset. destruct (decide (i = j)) as [->|Hne].
  - apply list_lookup_insert_eq. lia.
  - apply list_lookup_insert_ne. lia.
Qed.
Lemma zset_length {A} (l : list A) i x : length (zset l i x) = length l.
Proof. apply length_insert. Qed.

Section access.
Context {B : Type} (Q : B -> vstate -> Prop).
Lemma vwp_ret (x : B) d : Q x d -> vwp (mret x) Q d.
Proof. done. Qed.
Lemma vwp_gets (f : vstate -> B) d : Q (f d) d -> vwp (vgets f) Q d.
Proof. done. Qed.
Lemma vwp_deref (o : option B) x d : o = Some x -> Q x d -> vwp (vderef o) Q d.
Proof. by intros ->. Qed.
Lemma vwp_elem (l : vstate -> list B) (i : Z) x d : zat (l d) i = Some x -> Q x d -> vwp (o ← vgets (fun d => zat (l d) i); vderef o) Q d.
Proof. intros H HQ. unfold vwp, mbind, V_bind, vgets, vderef. by rewrite H. Qed.
End access.

Lemma vwp_mod f Q d : Q tt (f d) -> vwp (vmod f) Q d.
Proof. done. Qed.
Lemma vwp_store {B} (l : vstate -> list B) (i : Z) (f : vstate -> vstate) Q d : 0 <= i < Z.of_nat (length (l d)) -> Q tt (f d) ->
  vwp ((o ← vgets (fun d => zat (l d) i); vderef o);; vmod f) Q d.
Proof. intros Hi HQ. apply vwp_bind. destruct (zat_Some (l d) i Hi) as [x Hx]. by eapply vwp_elem. Qed.
Lemma vwp_get_buf b x Q d : v_bufs d !! b = Some x -> Q x d -> vwp (vget_buf b) Q d.
Proof. intros H HQ. unfold vwp, vget_buf, mbind, V_bind, vgets, vderef. by rewrite H. Qed.
Lemma vwp_set_buf b x f Q d : v_bufs d !! b = Some x -> Q tt (d <| v_bufs ::= <[b := f x]> |>) -> vwp (vset_buf b f) Q d.
Proof. intros H HQ. apply vwp_bind. by eapply vwp_get_buf. Qed.
Lemma vwp_get_call t r Q d : v_calls d !! t = Some r -> Q r d -> vwp (get_call t) Q d.
Proof. intros H HQ. unfold vwp, get_call, mbind, V_bind, vgets, vderef. by rewrite H. Qed.
Lemma vwp_set_call t r f Q d : v_calls d !! t = Some r -> Q tt (d <| v_calls ::= <[t := f r]> |>) -> vwp (set_call t f) Q d.
Proof. intros H HQ. apply vwp_bind. by eapply vwp_get_call. Qed.
Lemma vwp_acquire Q d : v_locked d = false -> Q tt (d <| v_locked := true |>) -> vwp vacquire Q d.
Proof. intros H HQ. unfold vwp, vacquire, mbind, V_bind, vgets. by rewrite H. Qed.

Ltac zmod := unfold u16 in *; Z.to_euclidean_division_equations; lia.

(** ** The rings as queues *)

Definition window (f : Z -> Z) (lo n : Z) : list Z := (fun k => f (lo + k)) <$> seqZ 0 n.

Lemma window_length f lo n : 0 <= n -> length (window f lo n) = Z.to_nat n.
Proof. intros. unfold window. by rewrite length_fmap, length_seqZ. Qed.

Lemma window_ext f g lo n : (forall k, 0 <= k < n -> f (lo + k) = g (lo + k)) -> window f lo n = window g lo n.
Proof. intros H. apply list_fmap_ext. intros i k Hk. apply lookup_seqZ in Hk. apply H. lia. Qed.

Lemma window_push f lo n : 0 <= n -> window f lo (n + 1) = window f lo n ++ [f (lo + n)].
Proof. intros. unfold window. rewrite seqZ_app by lia. by rewrite fmap_app. Qed.

Lemma window_pop f lo n : 0 < n -> window f lo n = f lo :: window f (lo + 1) (n - 1).
Proof.
  intros. unfold window. rewrite (seqZ_cons 0 n) by done. cbn [fmap list_fmap]. f_equal; [f_equal; lia|].
  apply list_eq. intros i. rewrite !list_lookup_fmap. destruct (decide (Z.of_nat i < n - 1)).
  - rewrite !lookup_seqZ_lt by lia. simpl. do 2 f_equal. lia.
  - rewrite !lookup_seqZ_ge by lia. done.
Qed.

Lemma window_congr f lo lo' n : (forall a b, a mod 8 = b mod 8 -> f a = f b) -> lo mod 8 = lo' mod 8 -> window f lo n = window f lo' n.
Proof. intros Hf Hlo. apply list_fmap_ext. intros i k _. apply Hf. zmod. Qed.

Lemma offered_window d : offered d = window (avail_at d) (v_seen d) ((avail_idx d - v_seen d) mod 65536).
Proof. done. Qed.
Lemma reported_window d : reported d = window (used_at d) (v_used_idx d) ((v_used_id d - v_used_idx d) mod 8).
Proof. done. Qed.

Lemma avail_at_mod d a b : a mod 8 = b mod 8 -> avail_at d a = avail_at d b.
Proof. unfold avail_at. by intros ->. Qed.
Lemma used_at_mod d a b : a mod 8 = b mod 8 -> used_at d a = used_at d b.
Proof. unfold used_at. by intros ->. Qed.

Lemma offered_push d d' h : length (v_avail d) = 10%nat -> 0 <= avail_idx d < 65536 -> 0 <= v_seen d < 65536 ->
  (length (offered d) < 8)%nat -> v_seen d' = v_seen d ->
  v_avail d' = zset (zset (v_avail d) (2 + avail_idx d mod 8) h) 1 (u16 (avail_idx d + 1)) ->
  offered d' = offered d ++ [h] /\ avail_idx d' = u16 (avail_idx d + 1).
Proof.
  intros Hl Ha Hs Hn Es Ea.
  assert (forall k, avail_at d' k = if decide (k mod 8 = avail_idx d mod 8) then h else avail_at d k) as Hat.
  { intros k. unfold avail_at. rewrite Ea. rewrite zat_zset by (rewrite ?zset_length; zmod). rewrite decide_False by zmod.
    rewrite zat_zset by zmod. destruct (decide (k mod 8 = _)) as [->|?]; [by rewrite decide_True|]. by rewrite decide_False by lia. }
  assert (avail_idx d' = u16 (avail_idx d + 1)) as Hidx.
  { unfold avail_idx at 1. rewrite Ea, zat_zset by (rewrite ?zset_length; zmod). by rewrite decide_True. }
  split; [|done]. rewrite offered_window in Hn. rewrite window_length in Hn by zmod. rewrite !offered_window, Es, Hidx.
  set (n := (avail_idx d - v_seen d) mod 65536) in *.
  replace ((u16 (avail_idx d + 1) - v_seen d) mod 65536) with (n + 1) by (subst n; zmod).
  rewrite window_push by (subst n; zmod). f_equal.
  - apply window_ext. intros k Hk. rewrite Hat. rewrite decide_False; [done|]. subst n. zmod.
  - rewrite Hat, decide_True; [done|]. subst n. zmod.
Qed.

Lemma offered_pop d d' : 0 <= avail_idx d < 65536 -> 0 <= v_seen d < 65536 -> v_seen d <> avail_idx d ->
  v_avail d' = v_avail d -> v_seen d' = u16 (v_seen d + 1) -> offered d = avail_at d (v_seen d) :: offered d'.
Proof.
  intros Ha Hs Hne Ea Es. rewrite !offered_window. rewrite window_pop by zmod. f_equal.
  assert (avail_idx d' = avail_idx d) as -> by (unfold avail_idx; by rewrite Ea).
  replace ((avail_idx d - v_seen d') mod 65536) with ((avail_idx d - v_seen d) mod 65536 - 1) by (rewrite Es; zmod).
  rewrite (window_congr _ _ (v_seen d')); [|apply avail_at_mod|rewrite Es; zmod].
  apply window_ext. intros k _. unfold avail_at. by rewrite Ea.
Qed.

Lemma reported_push d d' h : length (v_used d) = 8%nat -> 0 <= v_used_id d < 65536 -> 0 <= v_used_idx d < 8 ->
  (length (reported d) < 7)%nat -> v_used_idx d' = v_used_idx d -> v_used d' = zset (v_used d) (v_used_id d mod 8) h ->
  v_used_id d' = u16 (v_used_id d + 1) -> reported d' = reported d ++ [h].
Proof.
  intros Hl Hu Hs Hn Es Ea Eid.
  assert (forall k, used_at d' k = if decide (k mod 8 = v_used_id d mod 8) then h else used_at d k) as Hat.
  { intros k. unfold used_at. rewrite Ea. rewrite zat_zset by zmod.
    destruct (decide (k mod 8 = _)) as [->|?]; [by rewrite decide_True|]. by rewrite decide_False by lia. }
  rewrite reported_window in Hn. rewrite window_length in Hn by zmod. rewrite !reported_window, Es, Eid.
  set (n := (v_used_id d - v_used_idx d) mod 8) in *.
  replace ((u16 (v_used_id d + 1) - v_used_idx d) mod 8) with (n + 1) by (subst n; zmod).
  rewrite window_push by (subst n; zmod). f_equal.
  - apply window_ext. intros k Hk. rewrite Hat. rewrite decide_False; [done|]. subst n. zmod.
  - rewrite Hat, decide_True; [done|]. subst n. zmod.
Qed.

Lemma reported_pop d d' : 0 <= v_used_id d < 65536 -> 0 <= v_used_idx d < 8 -> v_used_idx d mod 8 <> v_used_id d mod 8 ->
  v_used d' = v_used d -> v_used_id d' = v_used_id d -> v_used_idx d' = u16 ((v_used_idx d + 1) mod 8) ->
  reported d = used_at d (v_used_idx d) :: reported d'.
Proof.
  intros Ha Hs Hne Ea Eid Es. rewrite !reported_window. rewrite window_pop by zmod. f_equal.
  replace ((v_used_id d' - v_used_idx d') mod 8) with ((v_used_id d - v_used_idx d) mod 8 - 1) by (rewrite Es, Eid; zmod).
  rewrite (window_congr _ _ (v_used_idx d')); [|apply used_at_mod|rewrite Es; zmod].
  apply window_ext. intros k _. unfold used_at. by rewrite Ea.
Qed.

Ltac vfields :=
  cbn [set v_desc v_avail v_used_id v_used v_free v_used_idx v_info v_locked v_regs v_bufs v_calls v_sectors v_seen v_work
       r_buf r_write r_sector r_hdr r_pc r_chan] in *.

Lemma vstate_eq d d' : v_desc d = v_desc d' -> v_avail d = v_avail d' -> v_used_id d = v_used_id d' -> v_used d = v_used d' ->
  v_free d = v_free d' -> v_used_idx d = v_used_idx d' -> v_info d = v_info d' -> v_locked d = v_locked d' -> v_regs d = v_regs d' ->
  v_bufs d = v_bufs d' -> v_calls d = v_calls d' -> v_sectors d = v_sectors d' -> v_seen d = v_seen d' -> v_work d = v_work d' -> d = d'.
Proof. destruct d, d'. cbn. intros. by subst. Qed.

(** ** Who has what *)

Section inv.
Context {d : vstate} {own : list (option nat)} (I : vinv d own).

Lemma own_lt i o : own !! i = Some o -> (i < 8)%nat.
Proof. intros H. apply lookup_lt_Some in H. by rewrite (vi_own _ _ I) in H. Qed.

Lemma waiting_carries t r h : v_calls d !! t = Some r -> r_pc r = Waiting h -> exists i0 i1 i2, h = Z.of_nat i0 /\ carries d own t r i0 i1 i2.
Proof. intros Ht Hp. destruct (vi_calls _ _ I _ _ Ht) as (x & _ & _ & H). rewrite Hp in H. apply H. Qed.

Lemma head_owner t r h : v_calls d !! t = Some r -> r_pc r = Waiting h -> 0 <= h < 8 /\ own !! Z.to_nat h = Some (Some t).
Proof.
  intros Ht Hp. destruct (waiting_carries _ _ _ Ht Hp) as (i0 & i1 & i2 & -> & C). rewrite Nat2Z.id.
  assert (own !! i0 = Some (Some t)) as Ho by (apply (ca_own _ _ _ _ _ _ _ C); auto). apply own_lt in Ho as ?. split; [lia|done].
Qed.

Lemma head_unique t r t' r' h : v_calls d !! t = Some r -> r_pc r = Waiting h -> v_calls d !! t' = Some r' -> r_pc r' = Waiting h -> t = t'.
Proof.
  intros Ht Hp Ht' Hp'. destruct (head_owner _ _ _ Ht Hp) as [_ H]. destruct (head_owner _ _ _ Ht' Hp') as [_ H']. congruence.
Qed.

Lemma flight_range h : h ∈ flight d -> 0 <= h < 8.
Proof. intros H. destruct (vi_heads _ _ I _ H) as (t & r & Ht & Hp). by eapply head_owner. Qed.

(** A request has three descriptors, so that the rings never fill up. *)
Lemma flight_short : (length (flight d) < 8)%nat.
Proof.
  destruct (flight d) as [|h l] eqn:E; [simpl; lia|]. rewrite <- E. assert (h ∈ flight d) as Hh by (rewrite E; by left).
  destruct (vi_heads _ _ I _ Hh) as (t & r & Ht & Hp). destruct (waiting_carries _ _ _ Ht Hp) as (i0 & i1 & i2 & -> & C).
  assert (own !! i1 = Some (Some t)) as Ho by (apply (ca_own _ _ _ _ _ _ _ C); auto).
  assert (Z.of_nat i1 ∉ flight d) as Hi1.
  { intros Hin. destruct (vi_heads _ _ I _ Hin) as (t' & r' & Ht' & Hp'). destruct (head_owner _ _ _ Ht' Hp') as [_ Ho'].
    rewrite Nat2Z.id in Ho'. assert (t' = t) as -> by congruence. assert (r' = r) as -> by congruence.
    rewrite Hp in Hp'. injection Hp' as Heq. apply Nat2Z.inj in Heq. by destruct (ca_ne _ _ _ _ _ _ _ C). }
  assert (length (Z.of_nat i1 :: flight d) <= length (seqZ 0 8))%nat as Hle.
  { apply submseteq_length. apply NoDup_submseteq; [constructor; [done|apply (vi_nodup _ _ I)]|].
    intros x [->|Hx]%elem_of_cons; apply elem_of_seqZ; [apply own_lt in Ho; lia|]. apply flight_range in Hx. lia. }
  rewrite length_seqZ in Hle. cbn [length] in Hle. lia.
Qed.

Lemma offered_short : (length (offered d) < 8)%nat.
Proof. pose proof flight_short as H. unfold flight in H. rewrite length_app in H. lia. Qed.

Lemma free_slot_not_head i : own !! i = Some None -> Z.of_nat i ∉ flight d.
Proof.
  intros Ho Hin. destruct (vi_heads _ _ I _ Hin) as (t & r & Ht & Hp). destruct (head_owner _ _ _ Ht Hp) as [_ H].
  rewrite Nat2Z.id in H. congruence.
Qed.

End inv.

(** A call whose buffer, descriptors and request stay as they are. *)
Lemma call_ok_frame d d' own own' t r :
  v_bufs d' !! r_buf r = v_bufs d !! r_buf r ->
  (forall i, own' !! i = Some (Some t) <-> own !! i = Some (Some t)) ->
  (forall i, own !! i = Some (Some t) -> v_desc d' !! i = v_desc d !! i /\ v_info d' !! i = v_info d !! i) ->
  (forall h, r_pc r = Waiting h -> h ∈ flight d' <-> h ∈ flight d) ->
  call_ok d own t r -> call_ok d' own' t r.
Proof.
  intros Hb Ho Hd Hf (x & Hx & Hs & H). exists x. rewrite Hb. split_and!; [done|done|]. destruct (r_pc r) as [|h].
  - destruct H as [Hch H]. split; [done|]. intros i Hi. by apply (H i), Ho.
  - destruct H as [(i0 & i1 & i2 & -> & C) H]. split.
    + exists i0, i1, i2. split; [done|]. destruct C.
      destruct (Hd i0) as [E0 Ei]; [apply ca_own0; auto|]. destruct (Hd i1) as [E1 _]; [apply ca_own0; auto|].
      destruct (Hd i2) as [E2 _]; [apply ca_own0; auto|].
      split; rewrite ?E0, ?E1, ?E2, ?Ei; try done. intros i. by rewrite Ho.
    + by rewrite (Hf _ eq_refl).
Qed.

(** ** Waking *)

Lemma wake_idem c r : wake c (wake c r) = wake c r.
Proof. unfold wake. destruct (decide (r_chan r = Some c)) as [E|E]; vfields; [|by rewrite decide_False]. by rewrite decide_False. Qed.

Lemma wakes_idem c (m : gmap nat rwcall) : wake c <$> (wake c <$> m) = wake c <$> m.
Proof. rewrite <- map_fmap_compose. apply map_fmap_ext. intros t r _. apply wake_idem. Qed.

Lemma woken c (m : gmap nat rwcall) t r : (wake c <$> m) !! t = Some r -> exists r0, m !! t = Some r0 /\ r = wake c r0.
Proof. rewrite lookup_fmap. destruct (m !! t) as [r0|]; [|done]. intros [= <-]. eauto. Qed.

Lemma wake_same c r : r_buf (wake c r) = r_buf r /\ r_write (wake c r) = r_write r /\ r_sector (wake c r) = r_sector r /\
  r_hdr (wake c r) = r_hdr r /\ r_pc (wake c r) = r_pc r /\ (r_chan (wake c r) = None \/ r_chan (wake c r) = r_chan r) /\ r_chan (wake c r) <> Some c.
Proof. unfold wake. destruct (decide _); vfields; split_and!; auto. Qed.

Lemma wake_pc c r : r_pc (wake c r) = r_pc r.
Proof. apply wake_same. Qed.
Lemma wake_buf c r : r_buf (wake c r) = r_buf r.
Proof. apply wake_same. Qed.

Lemma carries_wake d own t r i0 i1 i2 c : carries d own t r i0 i1 i2 -> carries d own t (wake c r) i0 i1 i2.
Proof. intros []. destruct (wake_same c r) as (E1 & E2 & E3 & E4 & _). split; rewrite ?E1, ?E2, ?E3, ?E4; done. Qed.

Lemma call_ok_wake c d own t r : call_ok d own t r -> call_ok d own t (wake c r).
Proof.
  intros (x & Hx & Hs & H). destruct (wake_same c r) as (E1 & E2 & E3 & E4 & E5 & Hc & _). exists x. rewrite E1, E3, E5.
  split_and!; [done|done|]. destruct (r_pc r) as [|h].
  - destruct H as [Hch Ho]. split; [|done]. destruct Hc as [->| ->]; auto.
  - destruct H as [(i0 & i1 & i2 & -> & C) H]. split; [exists i0, i1, i2; split; [done|by apply carries_wake]|].
    destruct H as [(H1 & H2 & H3)|(H1 & H2 & H3)]; [left|right]; split_and!; auto; destruct Hc as [->| ->]; auto.
Qed.

Lemma vinv_wake c d own : vinv d own -> vinv (d <| v_calls ::= fmap (wake c) |>) own.
Proof.
  intros []. split; vfields; try done.
  - intros t r (r0 & Hr & ->)%woken. apply (call_ok_frame d _ own); try done. by apply call_ok_wake, vi_calls0.
  - intros i t Ho. destruct (vi_owner0 i t Ho) as (r & h & Hr & Hp). exists (wake c r), h. rewrite lookup_fmap, Hr. split; [done|].
    by rewrite wake_pc.
  - intros t t' r r' (r0 & Hr & ->)%woken (r0' & Hr' & ->)%woken. rewrite !wake_buf. eauto.
  - intros h Hh. destruct (vi_heads0 h Hh) as (t & r & Hr & Hp). exists t, (wake c r). rewrite lookup_fmap, Hr. split; [done|].
    by rewrite wake_pc.
  - intros t r (r0 & Hr & ->)%woken Hc. destruct (wake_same c r0) as (_ & _ & _ & _ & _ & [E|E] & _); [congruence|].
    eapply vi_starve0; [exact Hr|]. congruence.
Qed.

(** The lock and the registers are not in the invariant; descriptors nobody owns may change. *)
Lemma vinv_locked b d own : vinv d own -> vinv (d <| v_locked := b |>) own.
Proof. intros []. split; vfields; try done. intros t r Hr. apply (call_ok_frame d _ own); try done. auto. Qed.

Lemma vinv_desc l d own : vinv d own -> length l = 8%nat -> (forall i t, own !! i = Some (Some t) -> l !! i = v_desc d !! i) ->
  vinv (d <| v_desc := l |>) own.
Proof.
  intros [] Hl Hsame. split; vfields; try done. intros t r Hr. apply (call_ok_frame d _ own); try done; [|by apply vi_calls0].
  intros i Hi. vfields. split; [by eapply Hsame|done].
Qed.

(** ** Descriptors *)

Lemma nfree_insert own i t : own !! i = Some None -> nfree own = S (nfree (<[i := Some t]> own)).
Proof.
  unfold nfree. revert i. induction own as [|o own IH]; intros [|i] H; try done; cbn [lookup list_lookup] in H.
  - injection H as ->. change (<[0%nat := Some t]> (None :: own)) with (Some t :: own).
    rewrite filter_cons_True by done. by rewrite filter_cons_False.
  - change (<[S i := Some t]> (o :: own)) with (o :: <[i := Some t]> own). destruct o as [t'|].
    + rewrite !filter_cons_False by done. auto.
    + rewrite !filter_cons_True by done. cbn [length]. by rewrite (IH i).
Qed.

Lemma nfree_zero own : nfree own = 0%nat <-> forall i, own !! i <> Some None.
Proof.
  unfold nfree. rewrite length_zero_iff_nil. split.
  - intros H i Hi. assert (None ∈ filter (fun o => o = None) own) as Hin by (apply list_elem_of_filter; split; [done|by eapply list_elem_of_lookup_2]).
    rewrite H in Hin. by apply elem_of_nil in Hin.
  - intros H. apply elem_of_nil_inv. intros o [-> Ho]%list_elem_of_filter. apply list_elem_of_lookup in Ho as [i Hi]. by destruct (H i).
Qed.

Lemma nfree_owned own : (nfree own < length own)%nat -> exists i t, own !! i = Some (Some t).
Proof.
  unfold nfree. induction own as [|[t|] own IH]; intros H; [simpl in H; lia|by exists 0%nat, t|].
  rewrite filter_cons_True in H by done. destruct IH as (i & t & Hi); [simpl in H; lia|]. by exists (S i), t.
Qed.

Lemma flags_insert (own : list (option nat)) (i t : nat) : flag <$> <[i := Some t]> own = <[i := 0]> (flag <$> own).
Proof. by rewrite list_fmap_insert. Qed.

Lemma alloc_desc_run t d own Q : v_free d = flag <$> own -> length own = 8%nat ->
  (forall i, own !! i = Some None -> Q (Z.of_nat i) (d <| v_free := flag <$> <[i := Some t]> own |>)) ->
  (nfree own = 0%nat -> Q (-1) d) -> vwp alloc_desc Q d.
Proof.
  intros Hf Hl Hyes Hno. unfold alloc_desc. apply vwp_bind.
  enough (forall n k, (k + n = 8)%nat -> (forall j, (j < k)%nat -> own !! j <> Some None) ->
    vwp (vfind (Z.of_nat <$> seq k n) (fun i => f ← get_free i; if negb (f =? 0) then set_free i 0;; mret (Some i) else mret None))
      (fun r d' => vwp (mret (default (-1) r)) Q d') d) as H by (apply H; [done|lia]).
  induction n as [|n IH]; intros k Hk Hpre; cbn [seq fmap list_fmap vfind].
  - apply vwp_ret, vwp_ret, Hno. apply nfree_zero. intros i Hi. apply lookup_lt_Some in Hi as ?. apply (Hpre i); [lia|done].
  - destruct (lookup_lt_is_Some_2 own k) as [o Ho]; [lia|].
    assert (zat (v_free d) (Z.of_nat k) = Some (flag o)) as Hz by (rewrite zat_nat, Hf, list_lookup_fmap, Ho; done).
    apply vwp_bind. apply vwp_bind. eapply vwp_elem; [exact Hz|]. destruct o as [t'|]; simpl.
    + apply vwp_ret. apply IH; [lia|]. intros j Hj. destruct (decide (j = k)) as [->|]; [congruence|apply Hpre; lia].
    + apply vwp_bind. apply vwp_store; [rewrite Hf, length_fmap, Hl; lia|]. apply vwp_ret. simpl. apply vwp_ret. apply vwp_ret.
      specialize (Hyes k Ho). rewrite flags_insert, <- Hf, <- zset_nat in Hyes. exact Hyes.
Qed.

Definition clear (i : nat) (l : list VRingDesc) : list VRingDesc := alter (fun x => x <| vd_addr := DNull |>) i l.

Lemma clear_length i l : length (clear i l) = length l.
Proof. apply length_alter. Qed.
Lemma clear_ne i j l : i <> j -> clear i l !! j = l !! j.
Proof. apply list_lookup_alter_ne. Qed.

Lemma free_desc_run i t d own Q : own !! i = Some (Some t) -> v_free d = flag <$> own -> length own = 8%nat -> length (v_desc d) = 8%nat ->
  Q tt (d <| v_desc ::= clear i |> <| v_free := flag <$> <[i := None]> own |> <| v_calls ::= fmap (wake ChFree) |>) ->
  vwp (free_desc (Z.of_nat i)) Q d.
Proof.
  intros Ho Hf Hl Hd HQ. unfold free_desc. apply lookup_lt_Some in Ho as Hi. rewrite Hl in Hi.
  destruct (Z.leb_spec (Z.of_nat NUM) (Z.of_nat i)); [unfold NUM in *; lia|].
  apply vwp_bind. eapply (vwp_elem _ v_free); [rewrite zat_nat, Hf, list_lookup_fmap, Ho; done|]. simpl.
  destruct (lookup_lt_is_Some_2 (v_desc d) i) as [x Hx]; [lia|].
  apply vwp_bind. eapply (vwp_elem _ v_desc); [by rewrite zat_nat|].
  apply vwp_bind. apply vwp_store; [lia|]. apply vwp_bind. apply vwp_store; [vfields; rewrite Hf, length_fmap; lia|].
  apply vwp_mod. rewrite list_fmap_insert, <- Hf, <- zset_nat in HQ.
  assert (clear i (v_desc d) = zset (v_desc d) (Z.of_nat i) (x <| vd_addr := DNull |>)) as E.
  { rewrite zset_nat. unfold clear. apply list_eq. intros j. destruct (decide (i = j)) as [<-|].
    - rewrite list_lookup_alter_eq, list_lookup_insert_eq by lia. by rewrite Hx.
    - by rewrite list_lookup_alter_ne, list_lookup_insert_ne. }
  unfold set in *. cbn [v_desc v_avail v_used_id v_used v_free v_used_idx v_info v_locked v_regs v_bufs v_calls v_sectors v_seen v_work] in *.
  rewrite E in HQ. exact HQ.
Qed.

Lemma insert_back (own : list (option nat)) (i t : nat) : own !! i = Some None -> <[i := None]> (<[i := Some t]> own) = own.
Proof. intros H. rewrite list_insert_insert_eq. by apply list_insert_id. Qed.

Lemma insert_none (own : list (option nat)) (i j t : nat) : <[i := Some t]> own !! j = Some None -> i <> j /\ own !! j = Some None.
Proof. intros H. apply list_lookup_insert_Some in H as [(_ & H & _)|[H1 H2]]; [done|auto]. Qed.

(** [alloc3_desc] takes three free descriptors or, where there are not as many, none; then it has woken the processes
    that wait for one. *)
Lemma alloc3_run t d own Q : vinv d own ->
  (forall i0 i1 i2, own !! i0 = Some None -> own !! i1 = Some None -> own !! i2 = Some None -> i0 <> i1 -> i0 <> i2 -> i1 <> i2 ->
     Q (Some [Z.of_nat i0; Z.of_nat i1; Z.of_nat i2]) (d <| v_free := flag <$> <[i2 := Some t]> (<[i1 := Some t]> (<[i0 := Some t]> own)) |>)) ->
  (forall l cs, (nfree own < 3)%nat -> vinv (d <| v_desc := l |>) own -> cs = v_calls d \/ cs = wake ChFree <$> v_calls d ->
     Q None (d <| v_desc := l |> <| v_calls := cs |>)) ->
  vwp alloc3_desc Q d.
Proof.
  intros I Hyes Hno. pose proof (vi_free _ _ I) as Hf. pose proof (vi_own _ _ I) as Hl. pose proof (vi_desc _ _ I) as Hd.
  unfold alloc3_desc. cbn [alloc_rest]. apply vwp_bind. apply (alloc_desc_run t d own); [done|done| |].
  2:{ intros Hn. change (-1 <? 0) with true. cbv iota. apply vwp_ret. specialize (Hno (v_desc d) (v_calls d)).
      destruct d; apply Hno; [lia|exact I|by left]. }
  intros i0 H0. destruct (Z.ltb_spec (Z.of_nat i0) 0) as [?|_]; [lia|]. set (own1 := <[i0 := Some t]> own).
  assert (length own1 = 8%nat) as Hl1 by (unfold own1; by rewrite length_insert).
  pose proof (nfree_insert own i0 t H0) as Hn0. fold own1 in Hn0. apply lookup_lt_Some in H0 as Hi0.
  apply vwp_bind. apply (alloc_desc_run t _ own1); [done|done| |].
  2:{ intros Hn. change (-1 <? 0) with true. cbv iota. cbn [app vfor]. apply vwp_bind. apply vwp_bind.
      apply (free_desc_run i0 t _ own1); [by apply list_lookup_insert_eq|done|done|done|]. apply vwp_ret, vwp_ret.
      unfold own1. rewrite insert_back by done. specialize (Hno (clear i0 (v_desc d)) (wake ChFree <$> v_calls d)).
      destruct d; vfields; subst. apply Hno; [lia| |by right]. apply (vinv_desc _ _ _ I); vfields; [by rewrite clear_length|].
      intros i t' Hi. apply clear_ne. congruence. }
  intros i1 H1. destruct (Z.ltb_spec (Z.of_nat i1) 0) as [?|_]; [lia|]. set (own2 := <[i1 := Some t]> own1).
  assert (length own2 = 8%nat) as Hl2 by (unfold own2; by rewrite length_insert).
  pose proof (nfree_insert own1 i1 t H1) as Hn1. fold own2 in Hn1.
  destruct (insert_none _ _ _ _ H1) as [Hne1 H1']. apply lookup_lt_Some in H1 as Hi1.
  apply vwp_bind. apply (alloc_desc_run t _ own2); [done|done| |].
  2:{ intros Hn. change (-1 <? 0) with true. cbv iota. cbn [app vfor]. apply vwp_bind. apply vwp_bind.
      apply (free_desc_run i0 t _ own2); [|done|done|done|].
      { unfold own2. rewrite list_lookup_insert_ne by done. unfold own1. by apply list_lookup_insert_eq. }
      apply vwp_bind. apply (free_desc_run i1 t _ (<[i0 := None]> own2)); [|done|by rewrite length_insert|vfields; by rewrite clear_length|].
      { rewrite list_lookup_insert_ne by done. unfold own2. by apply list_lookup_insert_eq. }
      apply vwp_ret, vwp_ret. unfold own2. rewrite list_insert_insert_ne, insert_back by done.
      unfold own1. rewrite insert_back by done. specialize (Hno (clear i1 (clear i0 (v_desc d))) (wake ChFree <$> v_calls d)).
      destruct d; vfields. rewrite <- (wakes_idem ChFree) in Hno. subst. apply Hno; [lia| |by right]. apply (vinv_desc _ _ _ I); vfields; [by rewrite !clear_length|].
      intros i t' Hi. rewrite !clear_ne by congruence. done. }
  intros i2 H2. destruct (Z.ltb_spec (Z.of_nat i2) 0) as [?|_]; [lia|]. apply vwp_ret. destruct (insert_none _ _ _ _ H2) as [Hne2 H2'].
  destruct (insert_none _ _ _ _ H2') as [Hne3 H2'']. by apply Hyes.
Qed.

(** ** Submitting a request *)

(** [d'] is [d] after process [t] has offered the request [r] in the descriptors [i0], [i1], [i2] and fallen asleep. *)
Record submitted (d d' : vstate) (t : nat) (r : rwcall) (x : buf) (i0 i1 i2 : nat) : Prop := {
  su_desc : v_desc d' = <[i2 := mkvd (DStatus (Z.of_nat i0)) 1 2 0]>
    (<[i1 := mkvd (DData (r_buf r)) 1024 (if r_write r then 1 else 3) (Z.of_nat i2)]> (<[i0 := mkvd (DHdr t) 16 1 (Z.of_nat i1)]> (v_desc d)));
  su_avail : v_avail d' = zset (zset (v_avail d) (2 + avail_idx d mod 8) (Z.of_nat i0)) 1 (u16 (avail_idx d + 1));
  su_info : v_info d' = <[i0 := (Some (r_buf r), 0)]> (v_info d);
  su_bufs : v_bufs d' = <[r_buf r := x <| b_disk := 1 |>]> (v_bufs d);
  su_calls : v_calls d' = <[t := mkrw (r_buf r) (r_write r) (r_sector r)
    (Some (mkhdr (if r_write r then 1 else 0) 0 (r_sector r))) (Waiting (Z.of_nat i0)) (Some (ChBuf (r_buf r)))]> (v_calls d);
  su_unlocked : v_locked d' = false;
  su_rest : v_free d' = v_free d /\ v_used_id d' = v_used_id d /\ v_used d' = v_used d /\ v_used_idx d' = v_used_idx d /\
    v_sectors d' = v_sectors d /\ v_seen d' = v_seen d /\ v_work d' = v_work d
}.

Lemma u16_nat (i : nat) : (i < 8)%nat -> u16 (Z.of_nat i) = Z.of_nat i.
Proof. intros. zmod. Qed.

Lemma zat_avail_idx d : length (v_avail d) = 10%nat -> zat (v_avail d) 1 = Some (avail_idx d).
Proof. intros H. unfold avail_idx. destruct (zat_Some (v_avail d) 1) as [a ->]; [lia|done]. Qed.

Lemma submit_run t r x d i0 i1 i2 : v_calls d !! t = Some r -> v_bufs d !! r_buf r = Some x ->
  length (v_desc d) = 8%nat -> length (v_avail d) = 10%nat -> length (v_info d) = 8%nat ->
  (i0 < 8)%nat -> (i1 < 8)%nat -> (i2 < 8)%nat ->
  vwp (rw_submit t (Z.of_nat i0) (Z.of_nat i1) (Z.of_nat i2);; rw_wait t (Z.of_nat i0)) (fun _ d' => submitted d d' t r x i0 i1 i2) d.
Proof.
  intros Hr Hx Hd Ha Hi H0 H1 H2. apply vwp_bind. unfold rw_submit.
  apply vwp_bind. eapply vwp_get_call; [exact Hr|]. apply vwp_bind. eapply vwp_set_call; [exact Hr|].
  apply vwp_bind, (vwp_store v_desc); [vfields; lia|]. apply vwp_bind, (vwp_store v_desc); [vfields; rewrite zset_length; lia|].
  destruct (lookup_lt_is_Some_2 (v_info d) i0) as [y Hy]; [lia|].
  apply vwp_bind. eapply (vwp_elem _ v_info); [rewrite zat_nat; exact Hy|]. apply vwp_bind, (vwp_store v_info); [vfields; lia|].
  apply vwp_bind, (vwp_store v_desc); [vfields; rewrite !zset_length; lia|].
  apply vwp_bind. eapply vwp_set_buf; [exact Hx|].
  apply vwp_bind. eapply (vwp_elem _ v_info). { vfields. rewrite zset_nat, zat_nat. apply list_lookup_insert_eq. lia. }
  apply vwp_bind, (vwp_store v_info); [vfields; rewrite zset_length; lia|].
  apply vwp_bind. eapply (vwp_elem _ v_avail); [by apply zat_avail_idx|].
  apply vwp_bind, (vwp_store v_avail). { vfields. rewrite Ha. change (Z.of_nat NUM) with 8. zmod. }
  apply vwp_bind, (vwp_store v_avail). { vfields. rewrite zset_length. lia. }
  apply vwp_bind, vwp_mod. eapply vwp_set_call. { vfields. apply lookup_insert_eq. }
  unfold rw_wait. apply vwp_bind. eapply vwp_get_call. { vfields. apply lookup_insert_eq. }
  apply vwp_bind. eapply vwp_get_buf. { vfields. apply list_lookup_insert_eq. by eapply lookup_lt_Some. }
  cbn [b_disk set]. change (1 =? 1) with true. cbv iota. unfold vsleep. apply vwp_bind. eapply vwp_set_call. { vfields. apply lookup_insert_eq. }
  apply vwp_mod. unfold VRING_DESC_F_NEXT, VRING_DESC_F_WRITE, VIRTIO_BLK_T_OUT, VIRTIO_BLK_T_IN.
  split; vfields; rewrite ?zset_nat, ?u16_nat by done; try done.
  - by destruct (r_write r).
  - by rewrite list_insert_insert_eq.
  - by rewrite !insert_insert_eq.
Qed.

Lemma reported_same d d' : v_used d' = v_used d -> v_used_id d' = v_used_id d -> v_used_idx d' = v_used_idx d -> reported d' = reported d.
Proof. unfold reported, used_at. by intros -> -> ->. Qed.
Lemma offered_same d d' : v_avail d' = v_avail d -> v_seen d' = v_seen d -> offered d' = offered d.
Proof. unfold offered, avail_at, avail_idx. by intros -> ->. Qed.

(** Three descriptors for [t]. *)
Definition take3 (t i0 i1 i2 : nat) (own : list (option nat)) : list (option nat) :=
  <[i2 := Some t]> (<[i1 := Some t]> (<[i0 := Some t]> own)).

Lemma take3_lookup t i0 i1 i2 own i : is_Some (own !! i0) -> is_Some (own !! i1) -> is_Some (own !! i2) ->
  take3 t i0 i1 i2 own !! i = if decide (i = i0 \/ i = i1 \/ i = i2) then Some (Some t) else own !! i.
Proof.
  intros H0%lookup_lt_is_Some H1%lookup_lt_is_Some H2%lookup_lt_is_Some. unfold take3.
  destruct (decide (i = i2)) as [->|N2]; [rewrite list_lookup_insert_eq by (by rewrite !length_insert); by rewrite decide_True by auto|].
  rewrite list_lookup_insert_ne by done.
  destruct (decide (i = i1)) as [->|N1]; [rewrite list_lookup_insert_eq by (by rewrite !length_insert); by rewrite decide_True by auto|].
  rewrite list_lookup_insert_ne by done.
  destruct (decide (i = i0)) as [->|N0]; [rewrite list_lookup_insert_eq by done; by rewrite decide_True by auto|].
  rewrite list_lookup_insert_ne by done. rewrite decide_False; [done|]. naive_solver.
Qed.

Section submit.
Context {d d' : vstate} {own : list (option nat)} {t : nat} {r : rwcall} {x : buf} {i0 i1 i2 : nat}.
Context (I : vinv d own) (Hr : v_calls d !! t = Some r) (Hx : v_bufs d !! r_buf r = Some x).
Context (Hpc : r_pc r = Allocating) (H0 : own !! i0 = Some None) (H1 : own !! i1 = Some None) (H2 : own !! i2 = Some None).
Context (Hne : i0 <> i1 /\ i0 <> i2 /\ i1 <> i2).
Context (S : submitted (d <| v_free := flag <$> take3 t i0 i1 i2 own |>) d' t r x i0 i1 i2).
Abbreviation own' := (take3 t i0 i1 i2 own).

Lemma submit_offered : offered d' = offered d ++ [Z.of_nat i0] /\ avail_idx d' = u16 (avail_idx d + 1).
Proof.
  destruct S as [_ Ha _ _ _ _ (_ & _ & _ & _ & _ & Es & _)].
  apply offered_push; [apply I|apply I|apply I|apply (offered_short I)|exact Es|exact Ha].
Qed.

Lemma submit_flight h : h ∈ flight d' <-> h = Z.of_nat i0 \/ h ∈ flight d.
Proof.
  destruct S as [_ _ _ _ _ _ (_ & E1 & E2 & E3 & _ & _ & E4)]. unfold flight. rewrite (proj1 submit_offered), E4.
  rewrite (reported_same d d') by done. vfields. rewrite !elem_of_app, list_elem_of_singleton. tauto.
Qed.

Lemma own'_lookup i : own' !! i = if decide (i = i0 \/ i = i1 \/ i = i2) then Some (Some t) else own !! i.
Proof. by apply take3_lookup. Qed.

Lemma submit_other t' r' : t' <> t -> v_calls d !! t' = Some r' -> call_ok d' own' t' r'.
Proof.
  intros Ht Hr'. destruct S as [Ed _ Ei Eb _ _ _].
  assert (r_buf r <> r_buf r') as Hb by (intros E; apply Ht; eapply (vi_distinct _ _ I); eauto).
  apply (call_ok_frame d _ own).
  - rewrite Eb. vfields. by rewrite list_lookup_insert_ne.
  - intros i. rewrite own'_lookup. destruct (decide _) as [[->|[->| ->]]|]; [..|done]; split; congruence.
  - intros i Hi. rewrite Ed, Ei. vfields. rewrite !list_lookup_insert_ne by congruence. done.
  - intros h Hp. rewrite submit_flight. split; [|by right]. intros [->|]; [|done].
    destruct (head_owner I _ _ _ Hr' Hp) as [_ Ho]. rewrite Nat2Z.id in Ho. congruence.
  - by apply (vi_calls _ _ I).
Qed.

Lemma submit_self r' : v_calls d' !! t = Some r' -> call_ok d' own' t r'.
Proof.
  destruct S as [Ed _ Ei Eb Ec _ _]. rewrite Ec. vfields. rewrite lookup_insert_eq. intros [= <-].
  destruct (vi_calls _ _ I _ _ Hr) as (x' & Hx' & Hs & _). rewrite Hx in Hx'. injection Hx' as <-.
  pose proof (own_lt I _ _ H0). pose proof (own_lt I _ _ H1). pose proof (own_lt I _ _ H2).
  pose proof (vi_desc _ _ I). pose proof (vi_info _ _ I). destruct Hne as (? & ? & ?).
  exists (x <| b_disk := 1 |>). vfields. rewrite Eb. vfields. split_and!.
  - apply list_lookup_insert_eq. by eapply lookup_lt_Some.
  - done.
  - exists i0, i1, i2. split; [done|]. split; vfields; rewrite ?Ed, ?Ei; vfields; try done.
    + intros i. rewrite own'_lookup. destruct (decide _) as [|N]; [done|]. split; [|tauto]. intros Hi.
      destruct (vi_owner _ _ I _ _ Hi) as (r' & h & Hr' & Hp). congruence.
    + rewrite !list_lookup_insert_ne by done. apply list_lookup_insert_eq. lia.
    + rewrite list_lookup_insert_ne by done. apply list_lookup_insert_eq. rewrite length_insert. lia.
    + apply list_lookup_insert_eq. rewrite !length_insert. lia.
    + apply list_lookup_insert_eq. lia.
  - left. split_and!; [done| |by right]. apply submit_flight. by left.
Qed.

Lemma submit_inv : vinv d' own'.
Proof.
  destruct submit_offered as [Ho Ha]. destruct S as [Ed Eav Ei Eb Ec El (E1 & E2 & E3 & E4 & E5 & E6 & E7)]. vfields.
  split; rewrite ?Ed, ?Eav, ?Ei, ?Eb, ?Ec, ?E1, ?E2, ?E3, ?E4, ?E5, ?E6, ?E7, ?Ha, ?zset_length, ?length_insert; try apply I; try done.
  - unfold take3. rewrite !length_insert. apply I.
  - zmod.
  - intros t' r'. destruct (decide (t' = t)) as [->|Hn].
    + intros Hr'. apply submit_self. by rewrite Ec.
    + rewrite lookup_insert_ne by done. by apply submit_other.
  - intros i t'. rewrite own'_lookup. destruct (decide _) as [_|_].
    + intros [= <-]. eexists _, _. by rewrite lookup_insert_eq.
    + intros Hi. destruct (vi_owner _ _ I _ _ Hi) as (r' & h & Hr' & Hp). exists r', h. rewrite lookup_insert_ne by congruence. done.
  - intros ta tb ra rb. rewrite !lookup_insert_Some. intros [[<- <-]|[Na Ha']] [[<- <-]|[Nb Hb']] E; vfields; try done.
    + destruct Nb. by eapply (vi_distinct _ _ I).
    + destruct Na. by eapply (vi_distinct _ _ I).
    + by eapply (vi_distinct _ _ I).
  - unfold flight. rewrite Ho, E7, (reported_same d d') by done. pose proof (vi_nodup _ _ I) as Hnd. unfold flight in Hnd.
    rewrite <- app_assoc. apply (NoDup_Permutation_proper _ _ (Permutation_middle (offered d) (v_work d ++ reported d) (Z.of_nat i0))).
    constructor; [|done]. by apply (free_slot_not_head I).
  - intros h [->|Hh]%submit_flight.
    + eexists t, _. by rewrite lookup_insert_eq.
    + destruct (vi_heads _ _ I _ Hh) as (t' & r' & Hr' & Hp). exists t', r'. rewrite lookup_insert_ne by congruence. done.
  - intros b y. rewrite list_lookup_insert_Some. unfold buf_ok, on_disk. rewrite E5. intros [(<- & <- & _)|[_ Hy]].
    + exact (vi_bufs _ _ I _ _ Hx).
    + exact (vi_bufs _ _ I _ _ Hy).
  - intros t' r'. rewrite lookup_insert_Some. intros [[<- <-]|[Nt Hr']] Hc; vfields; [done|].
    pose proof (vi_starve _ _ I _ _ Hr' Hc). unfold take3.
    rewrite (nfree_insert own i0 t H0), (nfree_insert _ i1 t), (nfree_insert _ i2 t) in H; [lia|..].
    + by rewrite !list_lookup_insert_ne by naive_solver.
    + by rewrite !list_lookup_insert_ne by naive_solver.
Qed.
End submit.

(** ** Steps the abstract machine does not see *)

Record stutter (d d' : vstate) : Prop := {
  st_sectors : v_sectors d' = v_sectors d;
  st_bufs b : content <$> (v_bufs d' !! b) = content <$> (v_bufs d !! b);
  st_calls : abs_call d' <$> v_calls d' = abs_call d <$> v_calls d
}.

Lemma stutter_abstracts d d' a : stutter d d' -> abstracts d a -> abstracts d' a.
Proof.
  intros [Es Eb Ec] [Ad Ab Ac]. split.
  - intros n. rewrite Ad. unfold block. by rewrite Es.
  - intros b. by rewrite Eb.
  - by rewrite Ec.
Qed.

(** Changing channels does not change what a call is for the abstract machine. *)
Definition same_call (r r' : rwcall) : Prop := r_buf r' = r_buf r /\ r_write r' = r_write r /\ r_pc r' = r_pc r.

Lemma stutter_chans d d' : v_sectors d' = v_sectors d -> (forall b, content <$> (v_bufs d' !! b) = content <$> (v_bufs d !! b)) ->
  (forall h, h ∈ offered d' ++ v_work d' <-> h ∈ offered d ++ v_work d) ->
  (forall t, option_Forall2 same_call (v_calls d !! t) (v_calls d' !! t)) -> stutter d d'.
Proof.
  intros Es Eb Eo Ec. split; [done|done|]. apply map_eq. intros t. rewrite !lookup_fmap. destruct (Ec t) as [r r' (E1 & E2 & E3)|]; [|done].
  simpl. f_equal. unfold abs_call, served. rewrite E1, E2, E3. destruct (r_pc r) as [|h]; [done|].
  by rewrite (bool_decide_ext _ _ (Eo h)).
Qed.

Lemma same_call_refl r : same_call r r.
Proof. done. Qed.
Lemma same_call_wake c r : same_call r (wake c r).
Proof. destruct (wake_same c r) as (? & ? & ? & ? & ? & _). done. Qed.

Lemma submit_stutter d d' own t r x i0 i1 i2 : vinv d own -> v_calls d !! t = Some r -> v_bufs d !! r_buf r = Some x ->
  r_pc r = Allocating -> own !! i0 = Some None -> own !! i1 = Some None -> own !! i2 = Some None -> i0 <> i1 /\ i0 <> i2 /\ i1 <> i2 ->
  submitted (d <| v_free := flag <$> take3 t i0 i1 i2 own |>) d' t r x i0 i1 i2 -> stutter d d'.
Proof.
  intros I Hr Hx Hpc H0 H1 H2 Hne S. destruct (submit_offered I S) as [Ho _].
  destruct S as [_ _ _ Eb Ec _ (_ & _ & _ & _ & Es & _ & Ew)]. vfields. split; [done| |].
  - intros b. rewrite Eb. destruct (decide (b = r_buf r)) as [->|]; [|by rewrite list_lookup_insert_ne].
    rewrite list_lookup_insert_eq by (by eapply lookup_lt_Some). by rewrite Hx.
  - apply map_eq. intros t'. rewrite !lookup_fmap, Ec. destruct (decide (t' = t)) as [->|Hn].
    + rewrite lookup_insert_eq, Hr. simpl. f_equal. unfold abs_call, served. vfields. rewrite Hpc, Ho.
      rewrite bool_decide_true by (rewrite !elem_of_app, list_elem_of_singleton; auto). done.
    + rewrite lookup_insert_ne by done. destruct (v_calls d !! t') as [r'|] eqn:Hr'; [|done]. simpl. f_equal. unfold abs_call, served.
      destruct (r_pc r') as [|h] eqn:Hp; [done|]. rewrite Ho, Ew. do 2 f_equal. apply bool_decide_ext.
      rewrite !elem_of_app, list_elem_of_singleton. split; [|tauto]. intros [[?| ->]|?]; [by left| |by right].
      destruct (head_owner I _ _ _ Hr' Hp) as [_ Hh]. rewrite Nat2Z.id in Hh. congruence.
Qed.

(** A process of the invariant falls asleep on the free descriptors. *)
Lemma starve_inv d own t r : vinv d own -> v_calls d !! t = Some r -> r_pc r = Allocating -> (nfree own < 3)%nat ->
  vinv (d <| v_calls ::= <[t := r <| r_chan := Some ChFree |>]> |>) own.
Proof.
  intros [] Hr Hp Hn. split; vfields; try done.
  - intros t' r'. rewrite lookup_insert_Some. intros [[<- <-]|[_ Hr']].
    + destruct (vi_calls0 _ _ Hr) as (x & Hx & Hs & H). exists x. vfields. rewrite Hp in H |- *. split_and!; [done|done|by right|by apply H].
    + apply (call_ok_frame d _ own); try done. by apply vi_calls0.
  - intros i t' Hi. destruct (vi_owner0 _ _ Hi) as (r' & h & Hr' & Hp'). exists r', h. rewrite lookup_insert_ne by congruence. done.
  - intros ta tb ra rb. rewrite !lookup_insert_Some. intros [[<- <-]|[Na Ha']] [[<- <-]|[Nb Hb']] E; vfields; eauto.
  - intros h Hh. destruct (vi_heads0 _ Hh) as (t' & r' & Hr' & Hp'). exists t', r'. rewrite lookup_insert_ne by congruence. done.
Qed.

Lemma awake_wake c r : r_chan r = None -> wake c r = r.
Proof. intros H. unfold wake. by rewrite H. Qed.

(** Post-condition of a critical section of [t] that does not return. *)
Definition stays (t : nat) (d d' : vstate) : Prop :=
  (exists own, vinv d' own) /\ v_locked d' = false /\ stutter d d' /\ is_Some (v_calls d' !! t).

Lemma rw_alloc_run t r d own : vinv d own -> v_calls d !! t = Some r -> r_pc r = Allocating -> r_chan r = None ->
  vwp (rw_alloc t) (fun _ d' => stays t d d') d.
Proof.
  intros I Hr Hp Hc. destruct (vi_calls _ _ I _ _ Hr) as (x & Hx & _). unfold rw_alloc. apply vwp_bind. apply (alloc3_run t d own); [done| |].
  - intros i0 i1 i2 H0 H1 H2 N01 N02 N12. eapply vwp_mono; [apply (submit_run t r x)|]; try done; try apply I.
    1-3: by eapply (own_lt I).
    intros [] d' S. fold (take3 t i0 i1 i2 own) in S. split_and!.
    + eexists. exact (submit_inv I Hr Hx Hp H0 H1 H2 (conj N01 (conj N02 N12)) S).
    + apply S.
    + exact (submit_stutter d d' own t r x i0 i1 i2 I Hr Hx Hp H0 H1 H2 (conj N01 (conj N02 N12)) S).
    + rewrite (su_calls _ _ _ _ _ _ _ _ S), lookup_insert_eq. by eexists.
  - intros l cs Hn I' Hcs. unfold vsleep. apply vwp_bind.
    assert (cs !! t = Some r) as Ht by (destruct Hcs as [->| ->]; rewrite ?lookup_fmap, Hr; simpl; [done|by rewrite awake_wake]).
    eapply vwp_set_call; [exact Ht|]. apply vwp_mod. split_and!; vfields.
    + exists own. apply vinv_locked. apply starve_inv; [|done|done|done]. destruct Hcs as [->| ->].
      * destruct d. exact I'.
      * exact (vinv_wake ChFree _ _ I').
    + done.
    + apply stutter_chans; try done. intros t'. vfields. destruct (decide (t' = t)) as [->|].
      * rewrite lookup_insert_eq, Hr. by constructor.
      * rewrite lookup_insert_ne by done. destruct Hcs as [->| ->]; rewrite ?lookup_fmap; destruct (v_calls d !! t'); constructor; [done|apply same_call_wake].
    + rewrite lookup_insert_eq. by eexists.
Qed.

(** ** Returning *)

Definition drop3 (i0 i1 i2 : nat) (own : list (option nat)) : list (option nat) := <[i2 := None]> (<[i1 := None]> (<[i0 := None]> own)).

Lemma free_chain_next n t i x d own Q : own !! i = Some (Some t) -> v_desc d !! i = Some x ->
  v_free d = flag <$> own -> length own = 8%nat -> length (v_desc d) = 8%nat ->
  let d' := d <| v_desc ::= clear i |> <| v_free := flag <$> <[i := None]> own |> <| v_calls ::= fmap (wake ChFree) |> in
  (if Z.land (vd_flags x) 1 =? 0 then Q tt d' else vwp (free_chain n (vd_next x)) Q d') ->
  vwp (free_chain (S n) (Z.of_nat i)) Q d.
Proof.
  intros Ho Hx Hf Hl Hd d' HQ. cbn [free_chain]. apply vwp_bind. apply (free_desc_run i t d own); try done.
  apply vwp_bind. eapply (vwp_elem _ v_desc). { vfields. rewrite zat_nat. unfold clear. by rewrite list_lookup_alter_eq, Hx. }
  cbn [vd_flags vd_next set]. unfold VRING_DESC_F_NEXT. by destruct (Z.land (vd_flags x) 1 =? 0).
Qed.

Lemma free_chain_run t r i0 i1 i2 d0 d own Q : carries d0 own t r i0 i1 i2 -> v_desc d = v_desc d0 -> v_free d = flag <$> own -> length own = 8%nat -> length (v_desc d) = 8%nat ->
  Q tt (d <| v_desc := clear i2 (clear i1 (clear i0 (v_desc d))) |> <| v_free := flag <$> drop3 i0 i1 i2 own |>
          <| v_calls := wake ChFree <$> v_calls d |>) ->
  vwp (free_chain (S NUM) (Z.of_nat i0)) Q d.
Proof.
  intros [Ho (N01 & N02 & N12) D0 D1 D2 _ _] E Hf Hl Hd HQ. rewrite <- E in D0, D1, D2. clear E d0. unfold NUM.
  eapply (free_chain_next _ t i0 _ d own); [apply Ho; auto|exact D0|done|done|done|]. cbn [vd_flags vd_next]. change (Z.land 1 1 =? 0) with false. cbv iota.
  eapply (free_chain_next _ t i1 _ _ (<[i0 := None]> own)); vfields;
    [rewrite list_lookup_insert_ne by done; apply Ho; auto|rewrite clear_ne by done; exact D1|done|by rewrite length_insert|by rewrite clear_length|].
  cbn [vd_flags vd_next]. assert ((Z.land (if r_write r then 1 else 3) 1 =? 0) = false) as -> by (by destruct (r_write r)).
  eapply (free_chain_next _ t i2 _ _ (<[i1 := None]> (<[i0 := None]> own))); vfields;
    [rewrite !list_lookup_insert_ne by done; apply Ho; auto|rewrite !clear_ne by done; exact D2|done|by rewrite !length_insert|by rewrite !clear_length|].
  cbn [vd_flags vd_next]. change (Z.land 2 1 =? 0) with true. cbv iota.
  destruct d; vfields. do 2 rewrite <- (wakes_idem ChFree) in HQ. exact HQ.
Qed.

Lemma drop3_lookup i0 i1 i2 own i : is_Some (own !! i0) -> is_Some (own !! i1) -> is_Some (own !! i2) ->
  drop3 i0 i1 i2 own !! i = if decide (i = i0 \/ i = i1 \/ i = i2) then Some None else own !! i.
Proof.
  intros H0%lookup_lt_is_Some H1%lookup_lt_is_Some H2%lookup_lt_is_Some. unfold drop3.
  destruct (decide (i = i2)) as [->|N2]; [rewrite list_lookup_insert_eq by (by rewrite !length_insert); by rewrite decide_True by auto|].
  rewrite list_lookup_insert_ne by done.
  destruct (decide (i = i1)) as [->|N1]; [rewrite list_lookup_insert_eq by (by rewrite !length_insert); by rewrite decide_True by auto|].
  rewrite list_lookup_insert_ne by done.
  destruct (decide (i = i0)) as [->|N0]; [rewrite list_lookup_insert_eq by done; by rewrite decide_True by auto|].
  rewrite list_lookup_insert_ne by done. rewrite decide_False; [done|]. naive_solver.
Qed.

Definition finished (d : vstate) (own : list (option nat)) (t i0 i1 i2 : nat) (s : Z) : vstate :=
  d <| v_info ::= <[i0 := (None, s)]> |> <| v_desc := clear i2 (clear i1 (clear i0 (v_desc d))) |>
    <| v_free := flag <$> drop3 i0 i1 i2 own |> <| v_calls := delete t (wake ChFree <$> v_calls d) |> <| v_locked := false |>.

Lemma finished_inv d own t r i0 i1 i2 s : vinv d own -> v_calls d !! t = Some r -> r_pc r = Waiting (Z.of_nat i0) ->
  carries d own t r i0 i1 i2 -> Z.of_nat i0 ∉ flight d -> vinv (finished d own t i0 i1 i2 s) (drop3 i0 i1 i2 own).
Proof.
  intros I Hr Hp C Hf. assert (forall i, drop3 i0 i1 i2 own !! i = if decide (i = i0 \/ i = i1 \/ i = i2) then Some None else own !! i) as Hd3.
  { intros i. apply drop3_lookup; eexists; apply C; auto. }
  assert (forall i t', drop3 i0 i1 i2 own !! i = Some (Some t') <-> own !! i = Some (Some t') /\ t' <> t) as Ho.
  { intros i t'. rewrite Hd3. destruct (decide _) as [Hi|Hi].
    - apply (ca_own _ _ _ _ _ _ _ C) in Hi. split; [done|]. intros [Hi' Hn]. congruence.
    - split; [|tauto]. intros Hi'. split; [done|]. intros ->. by apply Hi, (ca_own _ _ _ _ _ _ _ C). }
  unfold finished. split; vfields; rewrite ?clear_length, ?length_insert; try apply I; try done.
  - unfold drop3. rewrite !length_insert. apply I.
  - intros t' r' [Nt (r0 & Hr0 & ->)%woken]%lookup_delete_Some. apply (call_ok_frame d _ own); try done; vfields.
    + intros i. rewrite Ho. split; [tauto|]. intros ?. split; [done|congruence].
    + intros i Hi. assert (i <> i0 /\ i <> i1 /\ i <> i2) as (?&?&?).
      { assert (forall j, j = i0 \/ j = i1 \/ j = i2 -> own !! j = Some (Some t)) as Hj by apply C. split_and!; intros ->; rewrite Hj in Hi by auto; congruence. }
      rewrite !clear_ne, list_lookup_insert_ne by done. done.
    + by apply call_ok_wake, (vi_calls _ _ I).
  - intros i t' [Hi Hn]%Ho. destruct (vi_owner _ _ I _ _ Hi) as (r' & h & Hr' & Hp'). exists (wake ChFree r'), h.
    rewrite lookup_delete_ne, lookup_fmap, Hr' by congruence. split; [done|]. by rewrite wake_pc.
  - intros ta tb ra rb [_ (r1 & H1 & ->)%woken]%lookup_delete_Some [_ (r2 & H2 & ->)%woken]%lookup_delete_Some.
    rewrite !wake_buf. by eapply (vi_distinct _ _ I).
  - intros h Hh. destruct (vi_heads _ _ I _ Hh) as (t' & r' & Hr' & Hp'). exists t', (wake ChFree r').
    assert (t <> t') by (intros ->; assert (r' = r) as -> by congruence; assert (h = Z.of_nat i0) as -> by congruence; by apply Hf).
    rewrite lookup_delete_ne, lookup_fmap, Hr' by done. split; [done|]. by rewrite wake_pc.
  - intros t' r' [Nt (r0 & Hr0 & ->)%woken]%lookup_delete_Some Hc. by destruct (wake_same ChFree r0) as (_ & _ & _ & _ & _ & _ & []).
Qed.

(** Post-condition of the critical section in which [t] returns. *)
Record returns (t : nat) (d d' : vstate) : Prop := {
  re_inv : exists own, vinv d' own;
  re_unlocked : v_locked d' = false;
  re_gone : v_calls d' !! t = None;
  re_sectors : v_sectors d' = v_sectors d;
  re_bufs : v_bufs d' = v_bufs d;
  re_calls : abs_call d' <$> v_calls d' = delete t (abs_call d <$> v_calls d);
  re_served : exists b w, (abs_call d <$> v_calls d) !! t = Some (b, w, true)
}.

Lemma finished_returns d own t r i0 i1 i2 s : vinv d own -> v_calls d !! t = Some r -> r_pc r = Waiting (Z.of_nat i0) ->
  carries d own t r i0 i1 i2 -> Z.of_nat i0 ∉ flight d -> returns t d (finished d own t i0 i1 i2 s).
Proof.
  intros I Hr Hp C Hf. split; [eexists; by eapply finished_inv|done|apply lookup_delete_eq|done|done| |].
  - vfields. unfold finished at 2. vfields. rewrite fmap_delete. f_equal. apply map_eq. intros t'. rewrite !lookup_fmap.
    destruct (v_calls d !! t') as [r'|]; [|done]. simpl. f_equal. unfold abs_call. destruct (wake_same ChFree r') as (-> & -> & _ & _ & E & _).
    unfold served. by rewrite E.
  - exists (r_buf r), (r_write r). rewrite lookup_fmap, Hr. simpl. unfold abs_call, served. rewrite Hp. rewrite bool_decide_false; [done|].
    intros Hin. apply Hf. unfold flight. rewrite app_assoc. apply elem_of_app. by left.
Qed.

Lemma doze_inv d own t r h x : vinv d own -> v_calls d !! t = Some r -> r_pc r = Waiting h -> v_bufs d !! r_buf r = Some x -> b_disk x = 1 ->
  vinv (d <| v_calls ::= <[t := r <| r_chan := Some (ChBuf (r_buf r)) |>]> |>) own.
Proof.
  intros [] Hr Hp Hx Hd. split; vfields; try done.
  - intros t' r'. rewrite lookup_insert_Some. intros [[<- <-]|[_ Hr']].
    + destruct (vi_calls0 _ _ Hr) as (x' & Hx' & Hs & H). assert (x' = x) as -> by congruence. exists x. vfields. rewrite Hp in H |- *.
      destruct H as [(i0 & i1 & i2 & -> & C) H]. split_and!; [done|done| |].
      * exists i0, i1, i2. split; [done|]. by destruct C; split.
      * left. destruct H as [(_ & Hh & _)|(? & _)]; [auto|congruence].
    + apply (call_ok_frame d _ own); try done. by apply vi_calls0.
  - intros i t' Hi. destruct (vi_owner0 _ _ Hi) as (r' & h' & Hr' & Hp'). destruct (decide (t' = t)) as [->|].
    + eexists _, h. rewrite lookup_insert_eq. done.
    + exists r', h'. by rewrite lookup_insert_ne.
  - intros ta tb ra rb. rewrite !lookup_insert_Some. intros [[<- <-]|[Na Ha']] [[<- <-]|[Nb Hb']] E; vfields; eauto.
  - intros h' Hh. destruct (vi_heads0 _ Hh) as (t' & r' & Hr' & Hp'). destruct (decide (t' = t)) as [->|].
    + eexists t, _. rewrite lookup_insert_eq. split; [done|]. vfields. congruence.
    + exists t', r'. by rewrite lookup_insert_ne.
  - intros t' r'. rewrite lookup_insert_Some. intros [[<- <-]|[Nt Hr']] Hc; vfields; [done|]. eauto.
Qed.

Lemma rw_wait_run t r h d own : vinv d own -> v_calls d !! t = Some r -> r_pc r = Waiting h ->
  vwp (rw_wait t h) (fun _ d' => stays t d d' \/ returns t d d') d.
Proof.
  intros I Hr Hp. destruct (vi_calls _ _ I _ _ Hr) as (x & Hx & Hs & H). rewrite Hp in H. destruct H as [(i0 & i1 & i2 & -> & C) H].
  unfold rw_wait. apply vwp_bind. eapply vwp_get_call; [exact Hr|]. apply vwp_bind. eapply vwp_get_buf; [exact Hx|].
  destruct H as [(E & Hf & _)|(E & Hf & _)]; rewrite E.
  - simpl. unfold vsleep. apply vwp_bind. eapply vwp_set_call; [exact Hr|]. apply vwp_mod. left. split_and!; vfields; [|done| |].
    + exists own. apply vinv_locked. by eapply doze_inv.
    + apply stutter_chans; try done. intros t'. vfields. destruct (decide (t' = t)) as [->|].
      * rewrite lookup_insert_eq, Hr. by constructor.
      * rewrite lookup_insert_ne by done. destruct (v_calls d !! t'); by constructor.
    + rewrite lookup_insert_eq. by eexists.
  - simpl. unfold rw_finish. pose proof (ca_info _ _ _ _ _ _ _ C) as Hi. apply vwp_bind. eapply (vwp_elem _ v_info); [by rewrite zat_nat|].
    apply vwp_bind, (vwp_store v_info); [apply lookup_lt_Some in Hi; lia|].
    apply vwp_bind. apply (free_chain_run t r i0 i1 i2 d _ own); [done|done|apply I|apply I|apply I|].
    apply vwp_bind, vwp_mod, vwp_mod. right.
    pose proof (finished_returns d own t r i0 i1 i2 0 I Hr Hp C Hf) as HR.
    match goal with |- returns _ _ ?d' => replace d' with (finished d own t i0 i1 i2 0); [done|] end.
    unfold finished. apply vstate_eq; vfields; rewrite ?zset_nat; done.
Qed.

(** ** Calling and resuming *)

Lemma stutter_locked b d d' : stutter (d <| v_locked := b |>) d' -> stutter d d'.
Proof. intros [? ? ?]. by split. Qed.
Lemma stays_locked t b d d' : stays t (d <| v_locked := b |>) d' -> stays t d d'.
Proof. intros (? & ? & ?%stutter_locked & ?). done. Qed.
Lemma returns_locked t b d d' : returns t (d <| v_locked := b |>) d' -> returns t d d'.
Proof. intros []. by split. Qed.

Definition entered (d : vstate) (t b : nat) (w : bool) (x : buf) : vstate :=
  d <| v_calls ::= <[t := mkrw b w (u32 (b_blockno x * (BSIZE / 512))) None Allocating None]> |>.

Lemma entered_inv d own t b w x : vinv d own -> v_calls d !! t = None -> idle d b -> v_bufs d !! b = Some x -> vinv (entered d t b w x) own.
Proof.
  intros I Ht Hb Hx. assert (forall i, own !! i <> Some (Some t)) as Ho.
  { intros i Hi. destruct (vi_owner _ _ I _ _ Hi) as (r & h & Hr & _). congruence. }
  unfold entered. split; vfields; try apply I; try done.
  - intros t' r'. rewrite lookup_insert_Some. intros [[<- <-]|[_ Hr']].
    + exists x. vfields. split_and!; [done| |by left|done]. destruct (vi_bufs _ _ I _ _ Hx) as [_ [Hn _]].
      change (BSIZE / 512) with 2. rewrite u32_small by lia. lia.
    + apply (call_ok_frame d _ own); try done. by apply (vi_calls _ _ I).
  - intros i t' Hi. destruct (vi_owner _ _ I _ _ Hi) as (r' & h & Hr' & Hp'). exists r', h. rewrite lookup_insert_ne by congruence. done.
  - intros ta tb ra rb. rewrite !lookup_insert_Some. intros [[<- <-]|[Na Ha']] [[<- <-]|[Nb Hb']] E; vfields; try done.
    + by destruct (Hb _ _ Hb').
    + by destruct (Hb _ _ Ha').
    + by eapply (vi_distinct _ _ I).
  - intros h' Hh. destruct (vi_heads _ _ I _ Hh) as (t' & r' & Hr' & Hp'). exists t', r'. rewrite lookup_insert_ne by congruence. done.
  - intros t' r'. rewrite lookup_insert_Some. intros [[<- <-]|[Nt Hr']] Hc; vfields; [done|]. by eapply (vi_starve _ _ I).
Qed.

Lemma virtio_disk_rw_run t b w x d own : vinv d own -> v_locked d = false -> v_calls d !! t = None -> idle d b -> v_bufs d !! b = Some x ->
  vwp (virtio_disk_rw t b w) (fun _ d' => stays t (entered d t b w x) d') d.
Proof.
  intros I Hl Ht Hb Hx. unfold virtio_disk_rw. apply vwp_bind. eapply vwp_get_buf; [exact Hx|]. apply vwp_bind, vwp_mod. fold (entered d t b w x).
  apply vwp_bind, vwp_acquire; [done|]. eapply vwp_mono.
  - eapply rw_alloc_run; [apply vinv_locked, entered_inv; eauto|apply lookup_insert_eq|done|done].
  - intros [] d' H. by eapply stays_locked.
Qed.

Lemma rw_resume_run t r d own : vinv d own -> v_locked d = false -> v_calls d !! t = Some r -> r_chan r = None ->
  vwp (rw_resume t) (fun _ d' => stays t d d' \/ returns t d d') d.
Proof.
  intros I Hl Hr Hc. unfold rw_resume. apply vwp_bind, vwp_acquire; [done|]. apply vwp_bind. eapply vwp_get_call; [exact Hr|].
  destruct (r_pc r) as [|h] eqn:Hp; eapply vwp_mono.
  - eapply rw_alloc_run; [apply vinv_locked; exact I|done..].
  - intros [] d' H. left. by eapply stays_locked.
  - eapply rw_wait_run; [apply vinv_locked; exact I|done..].
  - intros [] d' [H|H]; [left; by eapply stays_locked|right; by eapply returns_locked].
Qed.

(** ** The interrupt handler *)

(** The state after a turn that reports buffer [b]. *)
Definition acked (d : vstate) (b : nat) (x : buf) : vstate :=
  d <| v_bufs ::= <[b := x <| b_disk := 0 |>]> |> <| v_calls ::= fmap (wake (ChBuf b)) |>
    <| v_used_idx := u16 ((v_used_idx d + 1) mod 8) |>.

Lemma acked_inv d own t r h x : vinv d own -> v_used_idx d mod 8 <> v_used_id d mod 8 -> h = used_at d (v_used_idx d) ->
  v_calls d !! t = Some r -> r_pc r = Waiting h -> v_bufs d !! r_buf r = Some x -> vinv (acked d (r_buf r) x) own.
Proof.
  intros I Hne Hh Hr Hp Hx. set (d' := acked d (r_buf r) x).
  assert (reported d = h :: reported d') as Er by (subst h; apply reported_pop; try done; apply I).
  assert (Permutation (flight d) (h :: flight d')) as Ep.
  { unfold flight. rewrite Er. change (offered d') with (offered d). change (v_work d') with (v_work d). rewrite !app_assoc.
    symmetry. apply Permutation_middle. }
  pose proof (vi_nodup _ _ I) as Hnd. rewrite Ep in Hnd. apply NoDup_cons in Hnd as [Hnotin Hnd].
  assert (forall k, k ∈ flight d <-> k = h \/ k ∈ flight d') as Hin by (intros k; by rewrite Ep, elem_of_cons).
  unfold d', acked. split; vfields; rewrite ?length_insert; try apply I; try done; fold d'.
  - pose proof (vi_uidx _ _ I). zmod.
  - intros t' r' (r0 & Hr0 & ->)%woken. destruct (decide (t' = t)) as [->|Hn].
    + assert (r0 = r) as -> by congruence. clear Hr0. destruct (vi_calls _ _ I _ _ Hr) as (x' & Hx' & Hs & H). assert (x' = x) as -> by congruence. rewrite Hp in H.
      destruct H as [(i0 & i1 & i2 & E & C) H]. destruct (wake_same (ChBuf (r_buf r)) r) as (E1 & E2 & E3 & E4 & E5 & Hc & Hc').
      exists (x <| b_disk := 0 |>). vfields. rewrite E1, E3, E5, Hp. split_and!.
      * apply list_lookup_insert_eq. by eapply lookup_lt_Some.
      * done.
      * exists i0, i1, i2. split; [done|]. apply (carries_wake _ _ _ _ _ _ _ (ChBuf (r_buf r))) in C. by destruct C; split.
      * right. split_and!; [done|done|]. destruct H as [(_ & _ & [H|H])|(_ & _ & H)]; destruct Hc; congruence.
    + apply (call_ok_frame d _ own); try done; vfields.
      * rewrite wake_buf, list_lookup_insert_ne; [done|]. intros E. apply Hn. symmetry. by eapply (vi_distinct _ _ I).
      * intros k. rewrite wake_pc. intros Hk. rewrite Hin. split; [by right|]. intros [->|]; [|done].
        destruct Hn. eapply (head_unique I); eauto.
      * by apply call_ok_wake, (vi_calls _ _ I).
  - intros i t' Hi. destruct (vi_owner _ _ I _ _ Hi) as (r' & k & Hr' & Hp'). exists (wake (ChBuf (r_buf r)) r'), k. rewrite lookup_fmap, Hr'. split; [done|].
    by rewrite wake_pc.
  - intros ta tb ra rb (r1 & H1 & ->)%woken (r2 & H2 & ->)%woken.
    rewrite !wake_buf. by eapply (vi_distinct _ _ I).
  - intros k Hk. destruct (vi_heads _ _ I k) as (t' & r' & Hr' & Hp'); [apply Hin; by right|]. exists t', (wake (ChBuf (r_buf r)) r'). rewrite lookup_fmap, Hr'.
    split; [done|]. by rewrite wake_pc.
  - intros b y [(<- & <- & _)|[_ Hy]]%list_lookup_insert_Some; [exact (vi_bufs _ _ I _ _ Hx)|exact (vi_bufs _ _ I _ _ Hy)].
  - intros t' r' (r0 & Hr0 & ->)%woken Hc. destruct (wake_same (ChBuf (r_buf r)) r0) as (_ & _ & _ & _ & _ & [E|E] & _); [congruence|].
    eapply (vi_starve _ _ I); [exact Hr0|congruence].
Qed.

Lemma reported_head d own : vinv d own -> v_used_idx d mod 8 <> v_used_id d mod 8 ->
  zat (v_used d) (v_used_idx d) = Some (used_at d (v_used_idx d)) /\ used_at d (v_used_idx d) ∈ reported d.
Proof.
  intros I Hne. pose proof (vi_uidx _ _ I). split.
  - unfold used_at. rewrite Z.mod_small by done. destruct (zat_Some (v_used d) (v_used_idx d)) as [k ->]; [rewrite (vi_used _ _ I); lia|done].
  - rewrite (reported_pop d (d <| v_used_idx := u16 ((v_used_idx d + 1) mod 8) |>)); try done; try apply I. by left.
Qed.

(** A turn reports one request and leaves the disk and the buffers' data alone; without a turn there is nothing left to report. *)
Lemma intr_turn_run d own : vinv d own -> vwp intr_turn (fun more d' =>
  (exists own, vinv d' own) /\ v_locked d' = v_locked d /\ stutter d d' /\
  if more then length (reported d) = S (length (reported d')) else d' = d /\ reported d = []) d.
Proof.
  intros I. unfold intr_turn. apply vwp_bind, vwp_gets, vwp_bind, vwp_gets. change (Z.of_nat NUM) with 8.
  destruct (Z.eqb_spec (v_used_idx d mod 8) (v_used_id d mod 8)) as [E|Hne].
  { apply vwp_ret. split_and!; [by exists own|done|by split|done|]. rewrite reported_window.
    replace ((v_used_id d - v_used_idx d) mod 8) with 0; [done|]. pose proof (vi_uid _ _ I). zmod. }
  destruct (reported_head _ _ I Hne) as [Hz Hin]. set (h := used_at d (v_used_idx d)) in *.
  destruct (vi_heads _ _ I h) as (t & r & Hr & Hp); [unfold flight; rewrite !elem_of_app; auto|].
  destruct (vi_calls _ _ I _ _ Hr) as (x & Hx & _ & H). rewrite Hp in H. destruct H as [(i0 & i1 & i2 & Eh & C) _].
  apply vwp_bind. eapply (vwp_elem _ v_used); [exact Hz|]. apply vwp_bind. eapply (vwp_elem _ v_info); [rewrite Eh, zat_nat; apply C|]. simpl.
  apply vwp_bind. eapply vwp_deref; [done|]. apply vwp_bind. eapply vwp_set_buf; [exact Hx|].
  apply vwp_bind, vwp_mod, vwp_bind, vwp_mod, vwp_ret.
  fold (acked d (r_buf r) x). split_and!; vfields.
  - exists own. exact (acked_inv d own t r h x I Hne eq_refl Hr Hp Hx).
  - done.
  - apply stutter_chans; try done; unfold acked; vfields.
    + intros b. destruct (decide (b = r_buf r)) as [->|]; [|by rewrite list_lookup_insert_ne].
      rewrite list_lookup_insert_eq by (by eapply lookup_lt_Some). by rewrite Hx.
    + intros t'. rewrite lookup_fmap. destruct (v_calls d !! t'); constructor. apply same_call_wake.
  - by rewrite (reported_pop d (acked d (r_buf r) x)); [|apply I|apply I|done..].
Qed.

(** ** The device *)

Lemma flight_perm d d' own : vinv d own -> Permutation (flight d) (flight d') -> v_desc d' = v_desc d -> v_avail d' = v_avail d ->
  v_used_id d' = v_used_id d -> v_used d' = v_used d -> v_free d' = v_free d -> v_used_idx d' = v_used_idx d -> v_info d' = v_info d ->
  v_bufs d' = v_bufs d -> v_calls d' = v_calls d -> v_sectors d' = v_sectors d -> 0 <= v_seen d' < 65536 -> vinv d' own.
Proof.
  intros [] Ep E1 E2 E3 E4 E5 E6 E7 E8 E9 E10 Hs. split; unfold avail_idx, buf_ok, on_disk; rewrite ?E1, ?E2, ?E3, ?E4, ?E5, ?E6, ?E7, ?E8, ?E9, ?E10; try done.
  - intros t r Hr. apply (call_ok_frame d _ own); rewrite ?E1, ?E7, ?E8; try done; [|by apply vi_calls0]. intros h _. by rewrite Ep.
  - by rewrite <- Ep.
  - intros h. rewrite <- Ep. apply vi_heads0.
Qed.

Lemma dev_fetch_run d own d' : vinv d own -> dev_fetch d = VOk tt d' -> vinv d' own /\ v_locked d' = v_locked d /\ stutter d d'.
Proof.
  intros I. unfold dev_fetch, vgets, get_avail, mbind, V_bind, vgets, vderef. cbv beta iota. rewrite zat_avail_idx by apply I.
  destruct (Z.eqb_spec (v_seen d) (avail_idx d)) as [|Hne]; [done|]. change (Z.of_nat NUM) with 8.
  destruct (zat_Some (v_avail d) (2 + v_seen d mod 8)) as [h Hh]; [rewrite (vi_avail _ _ I); zmod|]. rewrite Hh.
  intros [= <-]. set (d' := set v_seen _ _).
  assert (offered d = h :: offered d') as Eo.
  { rewrite (offered_pop d d'); try done; try apply I. f_equal. unfold avail_at. by rewrite Hh. }
  split_and!; [|done|].
  - apply (flight_perm d d' own); try done.
    + unfold flight. rewrite Eo. change (v_work d') with (v_work d ++ [h]). change (reported d') with (reported d). rewrite <- !app_assoc. simpl.
      rewrite !(app_assoc (offered d')). apply Permutation_middle.
    + subst d'. vfields. zmod.
  - apply stutter_chans; try done.
    + intros k. rewrite Eo. change (v_work d') with (v_work d ++ [h]). rewrite !elem_of_app, !elem_of_cons, elem_of_nil. tauto.
    + intros t. change (v_calls d') with (v_calls d). destruct (v_calls d !! t); by constructor.
Qed.

Lemma dev_fetch_ready d own : vinv d own -> offered d <> [] -> exists d', dev_fetch d = VOk tt d'.
Proof.
  intros I Ho. unfold dev_fetch, vgets, get_avail, mbind, V_bind, vgets, vderef. cbv beta iota. rewrite zat_avail_idx by apply I.
  destruct (Z.eqb_spec (v_seen d) (avail_idx d)) as [E|Hne].
  - destruct Ho. rewrite offered_window. by replace ((avail_idx d - v_seen d) mod 65536) with 0 by zmod.
  - change (Z.of_nat NUM) with 8. destruct (zat_Some (v_avail d) (2 + v_seen d mod 8)) as [h Hh]; [rewrite (vi_avail _ _ I); zmod|]. rewrite Hh. by eexists.
Qed.

(** [d'] is [d] after the device has served the request [h] of call [r] on a buffer [x]. *)
Record transferred (d d' : vstate) (h : Z) (r : rwcall) (x : buf) : Prop := {
  tr_sectors : v_sectors d' = if r_write r then put_sectors (2 * b_blockno x) (chunks_of (b_data x)) (v_sectors d) else v_sectors d;
  tr_bufs : exists data, block d (b_blockno x) = Some data /\
    v_bufs d' = if r_write r then v_bufs d else <[r_buf r := x <| b_data := data |>]> (v_bufs d);
  tr_used : v_used d' = zset (v_used d) (v_used_id d mod 8) h;
  tr_used_id : v_used_id d' = u16 (v_used_id d + 1);
  tr_work : v_work d' = filter (fun k => k <> h) (v_work d);
  tr_rest : v_desc d' = v_desc d /\ v_avail d' = v_avail d /\ v_free d' = v_free d /\ v_used_idx d' = v_used_idx d /\
    v_info d' = v_info d /\ v_locked d' = v_locked d /\ v_calls d' = v_calls d /\ v_seen d' = v_seen d
}.

Lemma read_block d own n : vinv d own -> on_disk d n -> exists data, read_sectors d (2 * n) 1024 = Some data /\ block d n = Some data /\ length data = 1024%nat.
Proof.
  intros I (_ & [s0 H0] & [s1 H1]). exists (s0 ++ s1). unfold read_sectors, sector_range, block. change (1024 / 512) with 2.
  rewrite !seqZ_cons by lia. rewrite seqZ_nil by lia. replace (Z.succ (2 * n)) with (2 * n + 1) by lia. cbn [mapM].
  rewrite H0. cbn [mbind option_bind]. rewrite H1. cbn [mbind option_bind]. split_and!; [|done|].
  - cbn. by rewrite app_nil_r.
  - rewrite length_app, (vi_sectors _ _ I _ _ H0), (vi_sectors _ _ I _ _ H1). done.
Qed.

Lemma dev_serve_run d own h : vinv d own -> h ∈ v_work d -> exists t r x,
  v_calls d !! t = Some r /\ r_pc r = Waiting h /\ v_bufs d !! r_buf r = Some x /\
  vwp (dev_serve h) (fun _ d' => transferred d d' h r x) d.
Proof.
  intros I Hh. destruct (vi_heads _ _ I h) as (t & r & Hr & Hp); [unfold flight; rewrite !elem_of_app; auto|].
  destruct (vi_calls _ _ I _ _ Hr) as (x & Hx & Hs & H). rewrite Hp in H. destruct H as [(i0 & i1 & i2 & -> & C) _].
  exists t, r, x. split_and!; [done|done|done|]. destruct (vi_bufs _ _ I _ _ Hx) as [Hlen Hod].
  destruct (read_block d own (b_blockno x) I Hod) as (data & Hread & Hblk & Hdl).
  unfold dev_serve. apply vwp_bind. eapply (vwp_elem _ v_desc); [rewrite zat_nat; apply C|]. cbn [vd_addr vd_next].
  apply vwp_bind. unfold dev_read_hdr. apply vwp_bind. eapply vwp_get_call; [exact Hr|]. eapply vwp_deref; [apply C|].
  apply vwp_bind. eapply (vwp_elem _ v_desc); [rewrite zat_nat; apply C|]. cbn [vd_addr vd_next vd_len vd_flags h_sector h_type]. apply vwp_bind, vwp_ret.
  apply vwp_bind. eapply (vwp_elem _ v_desc); [rewrite zat_nat; apply C|]. cbn [vd_addr].
  apply vwp_bind. eapply vwp_get_buf; [exact Hx|]. apply vwp_bind, vwp_gets. rewrite Hs, Hread. apply vwp_bind.
  pose proof (ca_info _ _ _ _ _ _ _ C) as Hi. apply lookup_lt_Some in Hi as Hi0.
  assert (zset (v_info d) (Z.of_nat i0) (Some (r_buf r), 0) = v_info d) as Hsame by (rewrite zset_nat; by apply list_insert_id).
  assert (forall d1, v_info d1 = v_info d -> v_used_id d1 = v_used_id d -> v_used d1 = v_used d -> vwp (x0 ← get_info (Z.of_nat i0);
      set_info (Z.of_nat i0) (x0.1, 0);; uid ← vgets v_used_id; set_used (uid mod Z.of_nat NUM) (Z.of_nat i0);;
      vmod (fun d => d <| v_used_id := u16 (uid + 1) |> <| v_work ::= filter (fun k => k <> Z.of_nat i0) |>))
    (fun _ d' => d' = d1 <| v_used := zset (v_used d) (v_used_id d mod 8) (Z.of_nat i0) |> <| v_used_id := u16 (v_used_id d + 1) |>
                        <| v_work ::= filter (fun k => k <> Z.of_nat i0) |>) d1) as Hend.
  { intros d1 E1 E2 E3. apply vwp_bind. eapply (vwp_elem _ v_info); [rewrite zat_nat, E1; exact Hi|].
    apply vwp_bind, (vwp_store v_info); [rewrite E1; lia|]. apply vwp_bind, vwp_gets. change (Z.of_nat NUM) with 8. vfields. rewrite E2.
    apply vwp_bind, (vwp_store v_used); [vfields; rewrite E3, (vi_used _ _ I); zmod|]. apply vwp_mod.
    apply vstate_eq; vfields; rewrite ?E1, ?E3; done. }
  destruct (r_write r) eqn:Hw; cbn [Z.eqb].
  - unfold VIRTIO_BLK_T_OUT. change (1 =? 1) with true. cbv iota. apply vwp_bind, vwp_mod, vwp_ret. eapply vwp_mono; [by apply Hend|].
    intros [] d' ->. split; vfields; try done; [by rewrite Hw|]. exists data. by rewrite Hw.
  - unfold VIRTIO_BLK_T_OUT. change (0 =? 1) with false. change (Z.land 3 VRING_DESC_F_WRITE =? 0) with false. cbv iota.
    apply vwp_bind. eapply vwp_set_buf; [exact Hx|]. apply vwp_ret. eapply vwp_mono; [by apply Hend|].
    intros [] d' ->. split; vfields; try done; [by rewrite Hw|]. exists data. by rewrite Hw.
Qed.

Lemma filter_perm (l : list Z) (h : Z) : NoDup l -> h ∈ l -> Permutation l (h :: filter (fun k => k <> h) l).
Proof.
  intros Hl Hh. apply NoDup_Permutation; [done| |].
  - constructor; [|by apply NoDup_filter]. rewrite list_elem_of_filter. by intros [? _].
  - intros k. rewrite elem_of_cons, list_elem_of_filter. destruct (decide (k = h)) as [->|]; tauto.
Qed.

(** The transfers of [disk_rw]. *)
Lemma disk_rw_read k b z data : k_bufs k !! b = Some z -> k_disk k !! b_blockno z = Some data ->
  disk_rw b false k = Ok tt (k <| k_bufs ::= <[b := z <| b_data := data |>]> |>).
Proof.
  intros Hz Hd. unfold disk_rw, upd_buf, get_buf, modify, gets, deref, mret, K_ret, mbind, K_bind. cbv beta iota. rewrite Hz. cbv beta iota.
  rewrite Hd. cbv beta iota. by rewrite Hz.
Qed.

Lemma disk_rw_write k b z : k_bufs k !! b = Some z -> exists ws,
  disk_rw b true k = Ok tt (k <| k_disk ::= <[b_blockno z := b_data z]> |> <| k_writes := ws |>).
Proof.
  intros Hz. eexists. unfold disk_rw, get_buf, modify, gets, deref, mret, K_ret, mbind, K_bind. cbv beta iota. rewrite Hz. reflexivity.
Qed.

Section transfer.
Context {d d' : vstate} {own : list (option nat)} {t : nat} {h : Z} {r : rwcall} {x : buf}.
Context (I : vinv d own) (Hr : v_calls d !! t = Some r) (Hp : r_pc r = Waiting h) (Hx : v_bufs d !! r_buf r = Some x).
Context (Hh : h ∈ v_work d) (T : transferred d d' h r x).

Lemma transfer_flight : Permutation (flight d) (flight d') /\ (forall k, k ∈ offered d' ++ v_work d' <-> k ∈ offered d ++ v_work d /\ k <> h).
Proof.
  destruct T as [_ _ Eu Eid Ew (_ & Ea & _ & Eui & _ & _ & _ & Es)].
  pose proof (vi_nodup _ _ I) as Hnd. unfold flight in Hnd. apply NoDup_app in Hnd as (_ & Hdis & Hnd). apply NoDup_app in Hnd as (Hw & _ & _).
  pose proof (offered_same d d' Ea Es) as Eo. split.
  - assert (reported d' = reported d ++ [h]) as Er.
    { apply reported_push; try done; try apply I. pose proof (flight_short I) as Hs. unfold flight in Hs. rewrite !length_app in Hs.
      destruct (v_work d); [by apply elem_of_nil in Hh|simpl in Hs; lia]. }
    unfold flight. rewrite Eo, Er, Ew. rewrite (filter_perm _ _ Hw Hh) at 1. apply Permutation_app_head. cbn [app].
    rewrite app_assoc. apply Permutation_cons_append.
  - intros k. rewrite Eo, Ew, !elem_of_app, list_elem_of_filter. split; [|tauto]. intros [Ho|]; [|tauto]. split; [by left|]. intros ->.
    apply (Hdis h Ho). apply elem_of_app. by left.
Qed.

Lemma sectors_after k : v_sectors d' !! k = if r_write r && (bool_decide (k = 2 * b_blockno x) || bool_decide (k = 2 * b_blockno x + 1))
  then Some (if bool_decide (k = 2 * b_blockno x) then take 512 (b_data x) else drop 512 (b_data x)) else v_sectors d !! k.
Proof.
  rewrite (tr_sectors _ _ _ _ _ T). destruct (r_write r); [|done]. simpl. destruct (bool_decide_reflect (k = 2 * b_blockno x)) as [->|N0]; simpl.
  - rewrite lookup_insert_ne by lia. apply lookup_insert_eq.
  - destruct (bool_decide_reflect (k = 2 * b_blockno x + 1)) as [->|N1]; simpl; [apply lookup_insert_eq|]. by rewrite !lookup_insert_ne by lia.
Qed.

Lemma on_disk_after n : on_disk d n -> on_disk d' n.
Proof. intros (H1 & H2 & H3). split_and!; [lia|lia|..]; rewrite sectors_after; by destruct (_ && _). Qed.

Lemma transfer_inv : vinv d' own.
Proof.
  destruct transfer_flight as [Ep _]. pose proof sectors_after as Hsec. pose proof on_disk_after as Hod. destruct (vi_bufs _ _ I _ _ Hx) as [Hlen Hblk].
  destruct T as [_ (data & Hdata & Eb) Eu Eid Ew (Ed & Ea & Ef & Eui & Ei & _ & Ec & Es)].
  destruct (read_block d own _ I Hblk) as (data' & _ & Hdata' & Hdl). assert (data' = data) as -> by congruence.
  assert (forall b y, v_bufs d' !! b = Some y -> exists y0, v_bufs d !! b = Some y0 /\ b_disk y = b_disk y0 /\ b_blockno y = b_blockno y0 /\ length (b_data y) = 1024%nat) as Hbuf.
  { intros b y Hy. rewrite Eb in Hy. destruct (r_write r); [exists y; split_and!; try done; by eapply (vi_bufs _ _ I)|].
    apply list_lookup_insert_Some in Hy as [(<- & <- & _)|[_ Hy]]; [by exists x|]. exists y. split_and!; try done. by eapply (vi_bufs _ _ I). }
  split; unfold avail_idx; rewrite ?Ed, ?Ea, ?Eu, ?Ef, ?Eui, ?Ei, ?Ec, ?Es, ?Eid, ?zset_length; try apply I.
  - zmod.
  - intros t' r' Hr'. destruct (decide (t' = t)) as [->|Hn].
    + assert (r' = r) as -> by congruence. destruct (vi_calls _ _ I _ _ Hr) as (x' & Hx' & Hs & H). assert (x' = x) as -> by congruence. rewrite Hp in H.
      exists (if r_write r then x else x <| b_data := data |>). rewrite Eb, Hp. split_and!.
      * destruct (r_write r); [done|]. apply list_lookup_insert_eq. by eapply lookup_lt_Some.
      * by destruct (r_write r).
      * destruct H as [(i0 & i1 & i2 & E & C) _]. exists i0, i1, i2. split; [done|]. destruct C; split; rewrite ?Ed, ?Ei; done.
      * destruct H as [_ H]. rewrite <- Ep. by destruct (r_write r).
    + apply (call_ok_frame d _ own); rewrite ?Ed, ?Ei; try done; [|intros k _; by rewrite Ep|by apply (vi_calls _ _ I)].
      rewrite Eb. destruct (r_write r); [done|]. rewrite list_lookup_insert_ne; [done|]. intros E. apply Hn. symmetry. by eapply (vi_distinct _ _ I).
  - rewrite <- Ep. apply I.
  - intros k. rewrite <- Ep. apply (vi_heads _ _ I).
  - intros b y Hy. destruct (Hbuf b y Hy) as (y0 & Hy0 & _ & E & L). split; [done|]. rewrite E. apply Hod. by eapply (vi_bufs _ _ I).
  - intros k s. rewrite Hsec. destruct (_ && _); [|apply (vi_sectors _ _ I)]. intros [= <-].
    destruct (bool_decide _); [rewrite length_take|rewrite length_drop]; lia.
Qed.

Lemma content_Some (o : option buf) y : content <$> o = Some (content y) -> exists z, o = Some z /\ b_blockno z = b_blockno y /\ b_data z = b_data y.
Proof. destruct o as [z|]; [|done]. simpl. intros [= E1 E2]. by exists z. Qed.

Lemma block_after n : block d' n = if r_write r && bool_decide (n = b_blockno x) then Some (b_data x) else block d n.
Proof.
  unfold block. rewrite !sectors_after. destruct (r_write r); [|done]. cbn [andb]. destruct (bool_decide_reflect (n = b_blockno x)) as [->|Hn].
  - rewrite (bool_decide_true (2 * b_blockno x = _)), (bool_decide_true (2 * b_blockno x + 1 = 2 * b_blockno x + 1)),
      (bool_decide_false (2 * b_blockno x + 1 = 2 * b_blockno x)) by lia. cbn. by rewrite take_drop.
  - rewrite !bool_decide_false by lia. done.
Qed.

(** The device makes the transfer of the call. *)
Lemma transfer_serves k c : abstracts d (mka k c) -> exists k' c', aspec (mka k c) ETau (mka k' c') /\ abstracts d' (mka k' c').
Proof.
  intros [Ad Ab Ac]. cbn in Ad, Ab, Ac. destruct transfer_flight as [_ Ho]. pose proof block_after as Hblk.
  destruct T as [_ (data & Hdata & Eb) _ _ _ (_ & _ & _ & _ & _ & _ & Ec & _)].
  specialize (Ab (r_buf r)) as Hb. rewrite Hx in Hb. simpl in Hb. apply content_Some in Hb as (z & Hz & Ez1 & Ez2).
  assert (c !! t = Some (r_buf r, r_write r, false)) as Hct.
  { rewrite Ac, lookup_fmap, Hr. simpl. unfold abs_call, served. rewrite Hp, bool_decide_true; [done|]. apply elem_of_app. by right. }
  assert (<[t := (r_buf r, r_write r, true)]> c = abs_call d' <$> v_calls d') as Hc'.
  { rewrite Ac, Ec. apply map_eq. intros t'. destruct (decide (t' = t)) as [->|Hn].
    - rewrite lookup_insert_eq, lookup_fmap, Hr. simpl. f_equal. unfold abs_call, served. rewrite Hp, bool_decide_false; [done|]. rewrite Ho. tauto.
    - rewrite lookup_insert_ne, !lookup_fmap by done. destruct (v_calls d !! t') as [r'|] eqn:Hr'; [|done]. simpl. f_equal. unfold abs_call, served.
      destruct (r_pc r') as [|k'] eqn:Hp'; [done|]. do 2 f_equal. apply bool_decide_ext. rewrite Ho. split; [|tauto]. intros ?. split; [done|].
      intros ->. apply Hn. by eapply (head_unique I). }
  destruct (r_write r) eqn:Hw.
  - destruct (disk_rw_write k (r_buf r) z Hz) as [ws Hrun]. eexists _, _. split.
    + eapply a_serve; [exact Hct|exact Hrun].
    + split; cbn [a_k a_calls]; kfields.
      * intros n. rewrite Hblk. cbn [andb]. destruct (bool_decide_reflect (n = b_blockno x)) as [->|].
        -- rewrite Ez1, lookup_insert_eq. congruence.
        -- rewrite lookup_insert_ne by congruence. apply Ad.
      * intros b. rewrite Eb. apply Ab.
      * done.
  - eexists _, _. split.
    + eapply a_serve; [exact Hct|]. apply (disk_rw_read _ _ _ data Hz). by rewrite Ad, Ez1.
    + split; cbn [a_k a_calls]; kfields.
      * intros n. rewrite Hblk. apply Ad.
      * intros b. rewrite Eb. destruct (decide (b = r_buf r)) as [->|].
        -- rewrite !list_lookup_insert_eq by (by eapply lookup_lt_Some). simpl. unfold content. cbn. congruence.
        -- rewrite !list_lookup_insert_ne by done. apply Ab.
      * done.
Qed.
End transfer.

(** ** Reachable states *)

Lemma edit_inv d own b x x' : vinv d own -> idle d b -> v_bufs d !! b = Some x -> buf_ok d x' -> vinv (d <| v_bufs ::= <[b := x']> |>) own.
Proof.
  intros I Hb Hx Hok. split; vfields; try apply I.
  - intros t r Hr. apply (call_ok_frame d _ own); try done; [|by apply (vi_calls _ _ I)]. vfields. rewrite list_lookup_insert_ne; [done|].
    intros ->. by eapply (Hb t r).
  - intros b' y [(<- & <- & _)|[_ Hy]]%list_lookup_insert_Some; [done|]. by apply (vi_bufs _ _ I b').
Qed.

(** What [virtio_disk_init] leaves. *)
Record initialised (d0 d : vstate) : Prop := {
  in_desc : v_desc d = replicate 8 (mkvd DNull 0 0 0);
  in_avail : v_avail d = replicate 10 0;
  in_used : v_used d = replicate 8 0;
  in_used_id : v_used_id d = 0;
  in_free : v_free d = replicate 8 1;
  in_unlocked : v_locked d = false;
  in_rest : v_used_idx d = v_used_idx d0 /\ v_info d = v_info d0 /\ v_bufs d = v_bufs d0 /\ v_calls d = v_calls d0 /\
    v_sectors d = v_sectors d0 /\ v_seen d = v_seen d0 /\ v_work d = v_work d0
}.

Lemma free_all_run d0 d : length (v_free d) = 8%nat -> initialised d0 (d <| v_free := replicate 8 1 |>) ->
  vwp (vfor (Z.of_nat <$> seq 0 NUM) (fun i => set_free i 1)) (fun _ d' => initialised d0 d') d.
Proof.
  intros Hl []. vfields. remember (v_free d) as fr eqn:E. do 9 (destruct fr as [|? fr]; try done). unfold NUM. cbn [seq fmap list_fmap vfor].
  do 8 (apply vwp_bind, (vwp_store v_free); [vfields; rewrite ?zset_length, <- E; simpl; lia|]). apply vwp_ret.
  split; vfields; try done. by rewrite <- E.
Qed.

Lemma init_run reg pages d0 d : length (v_free d0) = 8%nat -> virtio_disk_init reg pages d0 = VOk tt d -> initialised d0 d.
Proof.
  intros Hl. unfold virtio_disk_init. cbv zeta. unfold reg_write. generalize (u32 (Z.land (Z.land (Z.land (Z.land (Z.land (Z.land (Z.land
    (reg VIRTIO_MMIO_DEVICE_FEATURES) (Z.lnot (1 ≪ VIRTIO_BLK_F_RO))) (Z.lnot (1 ≪ VIRTIO_BLK_F_SCSI))) (Z.lnot (1 ≪ VIRTIO_BLK_F_CONFIG_WCE)))
    (Z.lnot (1 ≪ VIRTIO_BLK_F_MQ))) (Z.lnot (1 ≪ VIRTIO_F_ANY_LAYOUT))) (Z.lnot (1 ≪ VIRTIO_RING_F_EVENT_IDX))) (Z.lnot (1 ≪ VIRTIO_RING_F_INDIRECT_DESC)))).
  intros features. destruct (_ || _ || _ || _); [done|]. destruct (reg VIRTIO_MMIO_QUEUE_NUM_MAX =? 0); [done|].
  destruct (reg VIRTIO_MMIO_QUEUE_NUM_MAX <? Z.of_nat NUM); [done|]. intros H. refine (vwp_inv _ (fun _ d' => initialised d0 d') _ _ _ _ H).
  clear H. do 11 (apply vwp_bind, vwp_mod). apply free_all_run; [done|]. by split.
Qed.

Lemma booted_inv d : booted d -> vinv d (replicate 8 None) /\ v_locked d = false /\ v_calls d = ∅.
Proof.
  intros (reg & pages & bufs & sectors & Hinit & Hb & Hs). apply init_run in Hinit as [E1 E2 E3 E4 E5 E6 (E7 & E8 & E9 & E10 & E11 & E12 & E13)]; [|done].
  unfold zeroed in *. vfields. split; [|done].
  assert (flight d = []) as Ef by (unfold flight, offered, reported, avail_idx; by rewrite E2, E4, E7, E12, E13).
  split; unfold avail_idx, buf_ok, on_disk; rewrite ?E1, ?E2, ?E3, ?E4, ?E5, ?E7, ?E8, ?E9, ?E10, ?E11, ?E12, ?Ef; try done.
  - intros i t Hi. apply lookup_replicate in Hi as [? _]. done.
  - constructor.
  - intros h Hh. by apply elem_of_nil in Hh.
Qed.

Section reach.
Context {DV : Device}.

Lemma step_inv d e d' own : vinv d own -> v_locked d = false -> vstep d e d' -> (exists own', vinv d' own') /\ v_locked d' = false.
Proof.
  intros I Hl S. destruct S as [d d' t b w x Ht Hb Hx Hrun|d d' t r Hr Hc Hrun|d d' more Hrun|d d' Hdev|d b x x' Hb Hx Hok].
  - pose proof (vwp_inv _ _ _ _ _ (virtio_disk_rw_run t b w x d own I Hl Ht Hb Hx) Hrun) as (H1 & H2 & _). done.
  - pose proof (vwp_inv _ _ _ _ _ (rw_resume_run t r d own I Hl Hr Hc) Hrun) as [(H1 & H2 & _)|[H1 H2 _ _ _ _ _]]; done.
  - assert (vwp (vacquire;; r ← intr_turn; vrelease;; mret r) (fun _ d' => (exists own, vinv d' own) /\ v_locked d' = false) d) as H.
    { apply vwp_bind, vwp_acquire; [done|]. apply vwp_bind. eapply vwp_mono; [eapply intr_turn_run, vinv_locked, I|]. intros m d1 ([own1 I1] & _).
      apply vwp_bind, vwp_mod, vwp_ret. split; [|done]. exists own1. by apply vinv_locked. }
    exact (vwp_inv _ _ _ _ _ H Hrun).
  - destruct (dev_conforms _ _ Hdev) as [Hf|(h & Hh & Hserve)].
    + destruct (dev_fetch_run _ _ _ I Hf) as (I' & E & _). split; [by eexists|congruence].
    + destruct (dev_serve_run _ _ _ I Hh) as (t & r & x & Hr & Hp & Hx & Hrun). pose proof (vwp_inv _ _ _ _ _ Hrun Hserve) as T.
      split; [exists own; by eapply (transfer_inv I Hr Hp Hx Hh T)|]. destruct (tr_rest _ _ _ _ _ T) as (_ & _ & _ & _ & _ & E & _). congruence.
  - split; [exists own; by eapply edit_inv|done].
Qed.

Lemma reachable_inv d : reachable d -> (exists own, vinv d own) /\ v_locked d = false.
Proof.
  induction 1 as [d Hb|d e d' _ [[own I] Hl] S]; [|by eapply step_inv]. destruct (booted_inv d Hb) as (I & Hl & _). split; [by eexists|done].
Qed.

(** Every step is one of the abstract machine, or invisible. *)
Lemma step_simulates d e d' own a : vinv d own -> v_locked d = false -> abstracts d a -> vstep d e d' ->
  exists a', (aspec a e a' \/ e = ETau /\ a' = a) /\ abstracts d' a'.
Proof.
  intros I Hl A S. destruct a as [k c]. destruct S as [d d' t b w x Ht Hb Hx Hrun|d d' t r Hr Hc Hrun|d d' more Hrun|d d' Hdev|d b x x' Hb Hx Hok].
  - pose proof (vwp_inv _ _ _ _ _ (virtio_disk_rw_run t b w x d own I Hl Ht Hb Hx) Hrun) as (_ & _ & St & _).
    destruct A as [Ad Ab Ac]. cbn in Ad, Ab, Ac. exists (mka k (<[t := (b, w, false)]> c)). split.
    + left. apply a_call; rewrite Ac.
      * by rewrite lookup_fmap, Ht.
      * intros t' y. rewrite lookup_fmap. destruct (v_calls d !! t') as [r'|] eqn:Hr'; [|done]. intros [= <-]. by eapply Hb.
    + eapply stutter_abstracts; [exact St|]. split; cbn; [done|done|]. rewrite Ac. unfold entered. vfields. by rewrite fmap_insert.
  - pose proof (vwp_inv _ _ _ _ _ (rw_resume_run t r d own I Hl Hr Hc) Hrun) as [(_ & _ & St & [r' Hr'])|[_ _ Hg Es Eb Ec (b & w & Hsv)]].
    + exists (mka k c). rewrite Hr'. split; [by right|]. by eapply stutter_abstracts.
    + destruct A as [Ad Ab Ac]. cbn in Ad, Ab, Ac. exists (mka k (delete t c)). rewrite Hg. split.
      * left. apply (a_return k c t b w). by rewrite Ac.
      * split; cbn; [intros n; rewrite Ad; unfold block; by rewrite Es|intros n; by rewrite Eb|]. by rewrite Ec, Ac.
  - exists (mka k c). split; [by right|]. eapply stutter_abstracts; [|exact A].
    assert (vwp (vacquire;; r ← intr_turn; vrelease;; mret r) (fun _ d' => stutter d d') d) as H.
    { apply vwp_bind, vwp_acquire; [done|]. apply vwp_bind. eapply vwp_mono; [eapply intr_turn_run, vinv_locked, I|]. intros m d1 (_ & _ & St & _).
      apply vwp_bind, vwp_mod, vwp_ret. destruct St. by split. }
    exact (vwp_inv _ _ _ _ _ H Hrun).
  - destruct (dev_conforms _ _ Hdev) as [Hf|(h & Hh & Hserve)].
    + destruct (dev_fetch_run _ _ _ I Hf) as (_ & _ & St). exists (mka k c). split; [by right|]. by eapply stutter_abstracts.
    + destruct (dev_serve_run _ _ _ I Hh) as (t & r & x & Hr & Hp & Hx & Hrun). pose proof (vwp_inv _ _ _ _ _ Hrun Hserve) as T.
      destruct (transfer_serves I Hr Hp Hx Hh T k c A) as (k' & c' & H1 & H2). exists (mka k' c'). split; [by left|done].
  - destruct A as [Ad Ab Ac]. cbn in Ad, Ab, Ac. specialize (Ab b) as Hkb. rewrite Hx in Hkb. apply content_Some in Hkb as (z & Hz & _).
    exists (mka (k <| k_bufs ::= <[b := x']> |>) c). split; [left; apply a_edit|].
    + intros t y. rewrite Ac, lookup_fmap. destruct (v_calls d !! t) as [r'|] eqn:Hr'; [|done]. intros [= <-]. by eapply Hb.
    + split; cbn [a_k a_calls]; kfields; vfields; [done| |done]. intros b'. destruct (decide (b' = b)) as [->|].
      * rewrite !list_lookup_insert_eq by (by eapply lookup_lt_Some). done.
      * rewrite !list_lookup_insert_ne by done. apply Ab.
Qed.

(** [booted] states have an abstraction. *)
Lemma boot_abstracts d : booted d -> exists k, abstracts d (mka k ∅).
Proof.
  intros Hb. destruct (booted_inv d Hb) as (_ & _ & Hc).
  set (dom0 := filter (fun n => is_Some (block d n)) (set_map (fun k => k / 2) (dom (v_sectors d)) : gset Z)).
  exists (bss <| k_disk := set_to_map (fun n => (n, default [] (block d n))) dom0 |> <| k_bufs := v_bufs d |>). split; cbn [a_k a_calls]; kfields.
  - intros n. apply option_eq. intros s. rewrite lookup_set_to_map by (intros y y' Hy Hy'; done).
    split.
    + intros (y & Hy & [= -> <-]). apply elem_of_filter in Hy as [[s' ->] _]. done.
    + intros Hs. exists n. rewrite Hs. split; [|done]. apply elem_of_filter. split; [by eexists|]. apply elem_of_map.
      exists (2 * n). split; [zmod|]. unfold block in Hs. apply elem_of_dom. destruct (v_sectors d !! (2 * n)); [by eexists|done].
  - done.
  - by rewrite Hc, fmap_empty.
Qed.

(** The whole handler. *)
Lemma intr_loop_run n : forall d own, vinv d own -> (length (reported d) < n)%nat ->
  vwp (intr_loop n) (fun _ d' => (exists own, vinv d' own) /\ v_locked d' = v_locked d /\ reported d' = []) d.
Proof.
  induction n as [|n IH]; intros d own I Hn; [lia|]. cbn [intr_loop]. apply vwp_bind. eapply vwp_mono; [eapply intr_turn_run, I|].
  intros [|] d1 ([own1 I1] & El & _ & H).
  - eapply vwp_mono; [apply (IH d1 own1 I1); lia|]. intros [] d2 (H1 & H2 & H3). split_and!; [done|congruence|done].
  - destruct H as [-> E]. apply vwp_ret. split_and!; [by exists own|done|done].
Qed.

Lemma virtio_disk_intr_run d own : vinv d own -> v_locked d = false ->
  vwp virtio_disk_intr (fun _ d' => (exists own, vinv d' own) /\ v_locked d' = false /\ reported d' = []) d.
Proof.
  intros I Hl. unfold virtio_disk_intr. apply vwp_bind, vwp_acquire; [done|]. apply vwp_bind. eapply vwp_mono.
  - eapply (intr_loop_run NUM); [apply vinv_locked, I|]. change (reported _) with (reported d). pose proof (flight_short I) as Hs.
    unfold flight in Hs. rewrite !length_app in Hs. unfold NUM. lia.
  - intros [] d1 ([own1 I1] & _ & H). apply vwp_mod. split_and!; [exists own1; by apply vinv_locked|done|done].
Qed.
End reach.

(** Runs, with the events that can be seen from outside. *)
Inductive runs {St} (step : St -> event -> St -> Prop) : St -> list event -> St -> Prop :=
  | runs_nil s : runs step s [] s
  | runs_tau s s' s'' l : step s ETau s' -> runs step s' l s'' -> runs step s l s''
  | runs_event s e s' s'' l : e <> ETau -> step s e s' -> runs step s' l s'' -> runs step s (e :: l) s''.

Lemma runs_simulate `{DV : Device} d l d' : runs vstep d l d' -> forall own a, vinv d own -> v_locked d = false -> abstracts d a ->
  exists a', runs aspec a l a' /\ abstracts d' a'.
Proof.
  induction 1 as [d|d d1 d2 l S _ IH|d e d1 d2 l He S _ IH]; intros own a I Hl A; [exists a; split; [constructor|done]|..];
    destruct (step_inv _ _ _ _ I Hl S) as [[own' I'] Hl']; destruct (step_simulates _ _ _ _ _ I Hl A S) as (a1 & H1 & A1);
    destruct (IH own' a1 I' Hl' A1) as (a' & R & A'); exists a'; (split; [|done]).
  - destruct H1 as [H1|[_ ->]]; [by eapply runs_tau|done].
  - destruct H1 as [H1|[-> _]]; [by eapply runs_event|done].
Qed.

(** C3. The driver refines atomic transfers: for every interleaving of processes in [virtio_disk_rw], the interrupt
    handler and a device that takes requests in order and completes them in any order, the calls and returns are those of
    a machine that makes each transfer once, in one step, between the call and its return. *)
Theorem virtio_refines `{DV : Device} d l d' : booted d -> runs vstep d l d' ->
  exists k a', abstracts d (mka k ∅) /\ runs aspec (mka k ∅) l a' /\ abstracts d' a'.
Proof.
  intros Hb R. destruct (boot_abstracts d Hb) as [k A]. destruct (booted_inv d Hb) as (I & Hl & _).
  destruct (runs_simulate _ _ _ R _ _ I Hl A) as (a' & R' & A'). by exists k, a'.
Qed.

(** C17. In no reachable state does the driver panic, touch memory it must not or find its lock held: a process that is awake
    can run on to its next [sleep] or its return, a new call can be made with any buffer that is in memory and not in a
    transfer, the interrupt handler reports all the
    device has finished within its eight turns, and the device finds well-formed descriptors. *)
Theorem virtio_safe `{DV : Device} d : reachable d ->
  (forall t r, v_calls d !! t = Some r -> r_chan r = None -> exists d', rw_resume t d = VOk tt d') /\
  (forall t b w x, v_calls d !! t = None -> idle d b -> v_bufs d !! b = Some x -> exists d', virtio_disk_rw t b w d = VOk tt d') /\
  (exists d', virtio_disk_intr d = VOk tt d' /\ reported d' = []) /\
  (forall h, h ∈ v_work d -> exists d', dev_serve h d = VOk tt d').
Proof.
  intros R. destruct (reachable_inv d R) as [[own I] Hl]. split_and!.
  - intros t r Hr Hc. destruct (vwp_ok _ _ _ (rw_resume_run t r d own I Hl Hr Hc)) as ([] & d' & H & _). eauto.
  - intros t b w x Ht Hb Hx. destruct (vwp_ok _ _ _ (virtio_disk_rw_run t b w x d own I Hl Ht Hb Hx)) as ([] & d' & H & _). eauto.
  - destruct (vwp_ok _ _ _ (virtio_disk_intr_run d own I Hl)) as ([] & d' & H & _ & _ & E). eauto.
  - intros h Hh. destruct (dev_serve_run d own h I Hh) as (t & r & x & _ & _ & _ & Hrun). destruct (vwp_ok _ _ _ Hrun) as ([] & d' & H & _). eauto.
Qed.

(** C28. No wake-up is lost: while a call of [virtio_disk_rw] has not returned, a process is awake, the device has work,
    or the interrupt handler has something to report. *)
Theorem virtio_progress `{DV : Device} d : reachable d -> v_calls d <> ∅ ->
  (exists t r, v_calls d !! t = Some r /\ r_chan r = None) \/ (exists d', dev_step d d') \/ reported d <> [].
Proof.
  intros R Hne. destruct (reachable_inv d R) as [[own I] Hl]. apply map_choose in Hne as (t & r & Hr).
  assert ((exists h, h ∈ flight d) -> (exists d', dev_step d d') \/ reported d <> []) as Hfl.
  { intros [h Hh]. unfold flight in Hh. rewrite !elem_of_app in Hh. destruct Hh as [Hh|[Hh|Hh]].
    - destruct (dev_fetch_ready d own I) as [d' Hf]; [intros E; by rewrite E, elem_of_nil in Hh|]. left. apply (dev_busy d d'). by left.
    - destruct (dev_serve_run d own h I Hh) as (t' & r' & x & _ & _ & _ & Hrun). destruct (vwp_ok _ _ _ Hrun) as ([] & d' & H & _).
      left. apply (dev_busy d d'). right. by exists h.
    - right. intros E. by rewrite E, elem_of_nil in Hh. }
  destruct (r_chan r) as [ch|] eqn:Hc; [|left; eauto].
  destruct (vi_calls _ _ I _ _ Hr) as (x & _ & _ & H). destruct (r_pc r) as [|h].
  - destruct H as [[?|Hf] _]; [congruence|]. assert (nfree own < 3)%nat as Hn by (eapply (vi_starve _ _ I); eauto).
    destruct (nfree_owned own) as (i & t' & Hi); [rewrite (vi_own _ _ I); lia|].
    destruct (vi_owner _ _ I _ _ Hi) as (r' & h & Hr' & Hp'). destruct (vi_calls _ _ I _ _ Hr') as (x' & _ & _ & H'). rewrite Hp' in H'.
    destruct H' as [_ [(_ & Hh & _)|(_ & _ & Haw)]]; [right; apply Hfl; eauto|left; eauto].
  - destruct H as [_ [(_ & Hh & _)|(_ & _ & ?)]]; [right; apply Hfl; eauto|congruence].
Qed.

(** ** Examples *)

#[local] Instance any_device : Device := {|
  dev_step := dev_spec; dev_conforms := fun _ _ H => H; dev_busy := fun d d' H => ex_intro _ d' H |}.

Definition qemu_regs (r : Z) : Z :=
  if r =? VIRTIO_MMIO_MAGIC_VALUE then 0x74726976 else if r =? VIRTIO_MMIO_VERSION then 1 else if r =? VIRTIO_MMIO_DEVICE_ID then 2
  else if r =? VIRTIO_MMIO_VENDOR_ID then 0x554d4551 else if r =? VIRTIO_MMIO_QUEUE_NUM_MAX then 1024 else 0.
Definition example_bufs : list buf := [mkbuf 0 0 1 0 (mksleeplock 0 0) 1 (replicate 1024 0)].
Definition example_sectors : gmap Z (list Z) := {[0 := replicate 512 7; 1 := replicate 512 8]}.
Definition after {A} (m : V A) (d : vstate) : vstate := match m d with VOk _ d' => d' | _ => d end.
Definition example_boot : vstate := after (virtio_disk_init qemu_regs 0x80010000) (zeroed example_bufs example_sectors).
Definition intr_once : V bool := vacquire;; r ← intr_turn; vrelease;; mret r.

Lemma example_booted : booted example_boot.
Proof.
  exists qemu_regs, 0x80010000, example_bufs, example_sectors. split_and!.
  - vm_compute. reflexivity.
  - intros [|[|b]] x Hx; try done. injection Hx as <-. split; [done|]. split_and!; [done|done|by eexists|by eexists].
  - intros k s. unfold example_sectors. rewrite lookup_insert_Some. intros [[_ <-]|[_ H]]; [by rewrite length_replicate|].
    apply lookup_singleton_Some in H as [_ <-]. by rewrite length_replicate.
Qed.

(** A read: called, fetched, served, reported, returned. *)
Lemma virtio_refines_witness :
  let d1 := after (virtio_disk_rw 5 0 false) example_boot in
  let d2 := after (dev_serve 0) (after dev_fetch d1) in
  let d3 := after (rw_resume 5) (after intr_once d2) in
  exists k a', abstracts example_boot (mka k ∅) /\ runs aspec (mka k ∅) [ECall 5 0 false; EReturn 5] a' /\ abstracts d3 a'.
Proof.
  intros d1 d2 d3. apply (virtio_refines example_boot _ d3 example_booted).
  assert (v_calls example_boot = ∅) as Hc by (vm_compute; reflexivity).
  eapply (runs_event _ _ _ d1); [done|eapply v_call|].
  { by rewrite Hc. } { intros t r. by rewrite Hc. } { reflexivity. } { vm_compute. reflexivity. }
  eapply runs_tau; [apply (v_dev _ (after dev_fetch d1)); left; vm_compute; reflexivity|].
  eapply runs_tau; [apply (v_dev _ d2); right; exists 0; split; [apply (bool_decide_unpack _); vm_compute; exact I|vm_compute; reflexivity]|].
  eapply runs_tau; [apply (v_intr _ (after intr_once d2) true); vm_compute; reflexivity|].
  eapply (runs_event _ _ (EReturn 5) d3); [done| |apply runs_nil].
  pose proof (v_resume (after intr_once d2) d3 5) as H. assert (v_calls d3 !! 5%nat = None) as E by (vm_compute; reflexivity). rewrite E in H.
  eapply H; [vm_compute; reflexivity|reflexivity|vm_compute; reflexivity].
Defined.

Lemma virtio_safe_witness : let d := after (virtio_disk_rw 5 0 true) example_boot in
  (exists d', virtio_disk_intr d = VOk tt d' /\ reported d' = []) /\ exists r, v_calls d !! 5%nat = Some r.
Proof.
  intros d. assert (v_calls example_boot = ∅) as Hc by (vm_compute; reflexivity).
  assert (reachable d) as R.
  { eapply reach_step; [apply reach_boot, example_booted|eapply (v_call _ _ 5 0 true)].
    { by rewrite Hc. } { intros t r. by rewrite Hc. } { reflexivity. } { vm_compute. reflexivity. } }
  destruct (virtio_safe d R) as (_ & _ & H & _). split; [exact H|]. eexists. vm_compute. reflexivity.
Defined.

Lemma virtio_progress_witness : let d := after (virtio_disk_rw 5 0 true) example_boot in
  (exists t r, v_calls d !! t = Some r /\ r_chan r = None) \/ (exists d', dev_step d d') \/ reported d <> [].
Proof.
  intros d. assert (v_calls example_boot = ∅) as Hc by (vm_compute; reflexivity).
  apply (virtio_progress d).
  - eapply reach_step; [apply reach_boot, example_booted|eapply (v_call _ _ 5 0 true)].
    { by rewrite Hc. } { intros t r. by rewrite Hc. } { reflexivity. } { vm_compute. reflexivity. }
  - intros E. assert (is_Some (v_calls d !! 5%nat)) as [r Hr] by (eexists; vm_compute; reflexivity). rewrite E in Hr. done.
Defined.
