(* ===== verification/Log.v ===== *)
(** The log of [kernel/log.c]: transactions over the buffer cache. *)
From S2P Require Import Prelude Types Kstate Cstring Spinlock Frame Printf Accounting Kalloc Vm Proc Bio.
From stdpp Require Import base numbers list gmap strings.
From Stdlib Require Import ZArith Lia.

Local Open Scope Z_scope.
Local Open Scope xv6_scope.

Section log_c.
Context `{Env}.

Definition upd_log (f : log -> log) : K unit := modify (set k_log f).

(** [log.lh.block[i]] and its assignment. *)
Definition lh_get (i : Z) : K Z := lg ← gets k_log; deref (lh_block lg !! Z.to_nat i).
Definition lh_put (i v : Z) : K unit :=
  lg ← gets k_log;
  if bool_decide (Z.to_nat i < length (lh_block lg))%nat
  then upd_log (set lh_block <[Z.to_nat i := v]>) else fault.

(** [memmove(dst->data, src->data, BSIZE)] *)
Definition copy_data (dst src : nat) : K unit :=
  b ← get_buf src;
  d ← get_buf dst;
  if bool_decide ((Z.to_nat BSIZE <= length (b_data b))%nat /\ (Z.to_nat BSIZE <= length (b_data d))%nat)
  then upd_buf dst (set b_data (splice 0 (take (Z.to_nat BSIZE) (b_data b)))) else fault.

(** [int] fields of [struct logheader] in a block: [n] at 0, [block[i]] at [4 + 4 i]. *)
Definition load_int (off : Z) (data : list Z) : K Z :=
  if bool_decide (Z.to_nat off + 4 <= length data)%nat then mret (i32 (load 4 (Z.to_nat off) data)) else fault.
Definition store_int (i : nat) (off v : Z) : K unit :=
  b ← get_buf i;
  if bool_decide (Z.to_nat off + 4 <= length (b_data b))%nat
  then upd_buf i (set b_data (store 4 (Z.to_nat off) v)) else fault.

Definition install_trans : K unit :=
  lg ← gets k_log;
  kfor (seqZ 0 (lh_n lg)) (fun tail =>
    lg ← gets k_log;
    lbuf ← bread (lg_dev lg) (u32 (lg_start lg + tail + 1));
    home ← lh_get tail;
    dbuf ← bread (lg_dev lg) (u32 home);
    copy_data dbuf lbuf;;
    bwrite dbuf;;
    bunpin dbuf;;
    brelse lbuf;;
    brelse dbuf).

Definition read_head : K unit :=
  lg ← gets k_log;
  buf ← bread (lg_dev lg) (u32 (lg_start lg));
  b ← get_buf buf;
  n ← load_int 0 (b_data b);
  upd_log (set lh_n (fun _ => n));;
  kfor (seqZ 0 n) (fun i => v ← load_int (4 + 4 * i) (b_data b); lh_put i v);;
  brelse buf.

Definition write_head : K unit :=
  lg ← gets k_log;
  buf ← bread (lg_dev lg) (u32 (lg_start lg));
  store_int buf 0 (lh_n lg);;
  kfor (seqZ 0 (lh_n lg)) (fun i => v ← lh_get i; store_int buf (4 + 4 * i) v);;
  bwrite buf;;
  brelse buf.

Definition recover_from_log : K unit :=
  read_head;;
  install_trans;;
  upd_log (set lh_n (fun _ => 0));;
  write_head.

(** [sizeof(struct logheader)] is [4 + 4 * LOGSIZE]. *)
Definition initlog (dev : Z) (sb : superblock) : K unit :=
  (if BSIZE <=? 4 + 4 * LOGSIZE then panic "initlog: too big logheader" else mret tt);;
  initlock LLog;;
  upd_log (fun lg => lg <| lg_start := i32 (sb_logstart sb) |> <| lg_size := i32 (sb_nlog sb) |>
                        <| lg_dev := dev |>);;
  recover_from_log.

Definition begin_op : K unit :=
  acquire LLog;;
  kloop (S env_patience) (fun _ : unit =>
    lg ← gets k_log;
    if negb (lg_committing lg =? 0) then sleep CLog LLog;; mret (inl tt)
    else if LOGSIZE <? lh_n lg + (lg_outstanding lg + 1) * MAXOPBLOCKS then
      sleep CLog LLog;; mret (inl tt)
    else
      upd_log (set lg_outstanding (fun n => n + 1));;
      release LLog;;
      mret (inr tt)) tt.

Definition write_log : K unit :=
  lg ← gets k_log;
  kfor (seqZ 0 (lh_n lg)) (fun tail =>
    lg ← gets k_log;
    to ← bread (lg_dev lg) (u32 (lg_start lg + tail + 1));
    home ← lh_get tail;
    from ← bread (lg_dev lg) (u32 home);
    copy_data to from;;
    bwrite to;;
    brelse from;;
    brelse to).

Definition commit : K unit :=
  lg ← gets k_log;
  when (0 <? lh_n lg)
    (write_log;;
     write_head;;
     install_trans;;
     upd_log (set lh_n (fun _ => 0));;
     write_head).

Definition end_op : K unit :=
  acquire LLog;;
  upd_log (set lg_outstanding (fun n => n - 1));;
  lg ← gets k_log;
  (if negb (lg_committing lg =? 0) then panic "log.committing" else mret tt);;
  do_commit ← (if lg_outstanding lg =? 0 then
                 upd_log (set lg_committing (fun _ => 1));; mret true
               else wakeup CLog;; mret false);
  release LLog;;
  when do_commit
    (commit;;
     acquire LLog;;
     upd_log (set lg_committing (fun _ => 0));;
     wakeup CLog;;
     release LLog).

Definition log_write (i : nat) : K unit :=
  lg ← gets k_log;
  (if (LOGSIZE <=? lh_n lg) || (lg_size lg - 1 <=? lh_n lg) then panic "too big a transaction" else mret tt);;
  (if lg_outstanding lg <? 1 then panic "log_write outside of trans" else mret tt);;
  acquire LLog;;
  lg ← gets k_log;
  b ← get_buf i;
  r ← kfind (seqZ 0 (lh_n lg)) (fun k =>
    v ← lh_get k;
    mret (if u32 v =? b_blockno b then Some k else None));
  let k := default (lh_n lg) r in
  lh_put k (i32 (b_blockno b));;
  when (k =? lh_n lg)
    (bpin i;;
     upd_log (set lh_n (fun n => n + 1)));;
  release LLog.
End log_c.
