(* ===== verification/Commit.v ===== *)
(** Transactions: [commit] and [recover_from_log] of [kernel/log.c] over the buffer cache.

    A log of [sz] blocks occupies [st .. st + sz - 1]: the header, which lists the home blocks of
    the transaction, and one block for each of them.  The writes [commit] sends to the disk are
    known exactly ([commit_writes]); from the disk after any prefix of them, recovery brings back
    either the old or the new content of the home blocks. *)
From S2P Require Import Prelude Types Kstate Cstring Spinlock Frame Printf Accounting Kalloc Vm Proc Bio Bcache Blocks Log.
From stdpp Require Import functions base numbers list gmap strings.
From Stdlib Require Import ZArith Lia.

Local Open Scope Z_scope.
Local Open Scope xv6_scope.

(** ** The header block *)

Fixpoint put_ints (off : nat) (l : list Z) (d : list Z) : list Z :=
  match l with
  | [] => d
  | v :: l => put_ints (off + 4) l (store 4 off v d)
  end.

(** The header block [d] after [write_head] of the home blocks [bl]. *)
Definition head_data (bl : list Z) (d : list Z) : list Z :=
  put_ints 4 bl (store 4 0 (Z.of_nat (length bl)) d).

(** [n] and [block[]] as [read_head] reads them. *)
Definition head_n (d : list Z) : Z := i32 (load 4 0 d).
Definition head_block (d : list Z) (k : nat) : Z := i32 (load 4 (4 + 4 * k) d).

Lemma length_put_ints off l d : (off + 4 * length l <= length d)%nat -> length (put_ints off l d) = length d.
Proof.
  revert off d. induction l as [|v l IH]; intros off d Hd; [done|]. simpl in *.
  rewrite IH; rewrite length_store; lia.
Qed.

Lemma load_put_ints_before off l d o :
  (off + 4 * length l <= length d)%nat -> (o + 4 <= off)%nat -> load 4 o (put_ints off l d) = load 4 o d.
Proof.
  revert off d. induction l as [|v l IH]; intros off d Hd Ho; [done|]. simpl in *.
  rewrite IH by (rewrite ?length_store; lia). apply load_store_ne; lia.
Qed.

Lemma load_put_ints off l d k v :
  (off + 4 * length l <= length d)%nat -> l !! k = Some v ->
  load 4 (off + 4 * k) (put_ints off l d) = v mod 2 ^ 32.
Proof.
  revert off d k. induction l as [|w l IH]; intros off d k Hd Hk; [done|].
  simpl in Hd. cbn [put_ints]. destruct k as [|k]; simpl in Hk.
  - simplify_eq. rewrite Nat.mul_0_r, Nat.add_0_r.
    rewrite load_put_ints_before by (rewrite ?length_store; lia). apply load_store_same. lia.
  - replace (off + 4 * S k)%nat with (off + 4 + 4 * k)%nat by lia. apply IH; [rewrite length_store; lia|done].
Qed.

Definition block_no (n : Z) : Prop := 0 <= n < 2 ^ 31.

Lemma i32_mod v : block_no v -> i32 (v mod 2 ^ 32) = v.
Proof. intros [??]. rewrite Z.mod_small by lia. apply i32_small. lia. Qed.

Lemma put_ints_snoc off l v d : put_ints off (l ++ [v]) d = store 4 (off + 4 * length l) v (put_ints off l d).
Proof.
  revert off d. induction l as [|w l IH]; intros off d; cbn [put_ints app length].
  - by rewrite Nat.mul_0_r, Nat.add_0_r.
  - rewrite IH. f_equal. lia.
Qed.

Section header.
Context (bl : list Z) (d : list Z).
Hypothesis Hbl : Forall block_no bl.
Hypothesis Hlen : (length bl <= 30)%nat.
Hypothesis Hd : length d = Z.to_nat BSIZE.

Lemma head_bound : (4 + 4 * length bl <= length d)%nat.
Proof. revert Hd. consts. lia. Qed.

Lemma length_head_data : length (head_data bl d) = Z.to_nat BSIZE.
Proof.
  pose proof head_bound. unfold head_data. rewrite length_put_ints; rewrite length_store; lia || done.
Qed.

Lemma head_n_data : head_n (head_data bl d) = Z.of_nat (length bl).
Proof.
  pose proof head_bound. unfold head_n, head_data.
  rewrite load_put_ints_before by (rewrite ?length_store; lia).
  rewrite load_store_same by lia. apply (i32_mod (Z.of_nat (length bl))). unfold block_no. lia.
Qed.

Lemma head_block_data k b : bl !! k = Some b -> head_block (head_data bl d) k = b.
Proof.
  intros Hk. pose proof head_bound. unfold head_block, head_data.
  rewrite (load_put_ints _ _ _ _ b) by (rewrite ?length_store; lia || done).
  apply i32_mod. by eapply Forall_lookup_1.
Qed.
End header.

(** ** The log *)

(** [log.start] is [st] and [log.lh] lists the blocks [bl]. *)
Record log_is (st : Z) (bl : list Z) (s : kstate) : Prop := {
  li_dev : lg_dev (k_log s) = ROOTDEV;
  li_start : lg_start (k_log s) = st;
  li_n : lh_n (k_log s) = Z.of_nat (length bl);
  li_block k b : bl !! k = Some b -> lh_block (k_log s) !! k = Some b;
  li_len : length (lh_block (k_log s)) = 30%nat
}.

(** Block [n] is outside of a log of [sz] blocks at [st]. *)
Definition home_block (st sz n : Z) : Prop := block_no n /\ (n < st \/ st + sz <= n).

Section turns.
Context {EN : Env} (me : nat) (pid : Z).

Lemma splice_whole (d e : list Z) : length d = length e -> splice 0 (take (length d) d) e = d.
Proof.
  intros Hl. rewrite firstn_all. unfold splice. simpl. rewrite drop_ge by lia. by rewrite app_nil_r.
Qed.

Lemma run_copy_data s0 ws R H V dst src n m d Q s :
  run me pid s0 ws R H V s -> (dst, n) ∈ H -> (src, m) ∈ H -> R n <> 0 -> V !! m = Some d ->
  (forall s', run me pid s0 ws R H (<[n := d]> V) s' -> Q tt s') -> wp (copy_data dst src) Q s.
Proof.
  intros Hr Hdst Hsrc HR HV HQ. unfold copy_data.
  destruct (run_held _ _ _ _ _ _ _ _ _ _ Hr Hsrc) as (b & Hb & _ & HVb & Hl).
  destruct (run_held _ _ _ _ _ _ _ _ _ _ Hr Hdst) as (e & He & _ & HVe & Hle). simplify_eq. kstep.
  rewrite bool_decide_eq_true_2 by lia.
  eapply run_fill; [exact Hr|exact Hdst|done|exact HVe|..]; rewrite <- Hl, splice_whole by congruence; done.
Qed.

(** Each of the blocks [bl] loses a reference. *)
Definition unpin (bl : list Z) (R : Z -> Z) : Z -> Z := fold_left (fun R n => <[n := R n - 1]> R) bl R.

Lemma unpin_other bl R n : n ∉ bl -> unpin bl R n = R n.
Proof.
  revert R. induction bl as [|m bl IH]; intros R Hn; [done|]. simpl. rewrite IH by set_solver.
  apply fn_lookup_insert_ne. set_solver.
Qed.

Lemma unpin_in bl R n : NoDup bl -> n ∈ bl -> unpin bl R n = R n - 1.
Proof.
  revert R. induction bl as [|m bl IH]; intros R Hnd Hn; [set_solver|]. simpl.
  apply NoDup_cons in Hnd as [Hm Hnd]. destruct (decide (n = m)) as [->|Hne].
  - rewrite unpin_other by done. apply fn_lookup_insert.
  - rewrite IH by set_solver. f_equal. by apply fn_lookup_insert_ne.
Qed.

Lemma unpin_snoc bl R n : unpin (bl ++ [n]) R = <[n := unpin bl R n - 1]> (unpin bl R).
Proof. unfold unpin. by rewrite fold_left_app. Qed.

Lemma zip_snoc {A B} k (l : list A) (l' : list B) a b : l !! k = Some a -> l' !! k = Some b ->
  zip (take (S k) l) (take (S k) l') = zip (take k l) (take k l') ++ [(a, b)].
Proof.
  intros Ha Hb. erewrite !take_S_r by done. rewrite zip_with_app; [done|].
  apply lookup_lt_Some in Ha, Hb. rewrite !length_take. lia.
Qed.

Lemma zip_dom {A B} k (l : list A) (l' : list B) n : n ∈ (zip (take k l) (take k l')).*1 -> n ∈ take k l.
Proof. rewrite !list_elem_of_fmap. intros ([a b] & -> & H). apply elem_of_zip_l in H. done. Qed.

Lemma zip_dom_all (bl : list Z) (ds : list (list Z)) n : n ∈ (zip bl ds).*1 -> n ∈ bl.
Proof. rewrite list_elem_of_fmap. intros ([a b] & -> & H). by apply elem_of_zip_l in H. Qed.

Lemma spare_less (R R' : Z -> Z) : (forall n, R' n <> 0 -> R n <> 0) -> spare R -> spare R'.
Proof. intros HR (l & Hl & Hlen). exists l. auto. Qed.

Lemma unpin_used bl R n : NoDup bl -> (forall n, n ∈ bl -> 1 <= R n) -> unpin bl R n <> 0 -> R n <> 0.
Proof.
  intros Hnd HR Hn. destruct (decide (n ∈ bl)) as [Hin|Hin]; [specialize (HR n Hin); lia|].
  by rewrite unpin_other in Hn.
Qed.

Lemma unpin_next k bl R n : NoDup bl -> bl !! k = Some n -> unpin (take k bl) R n = R n.
Proof.
  intros Hnd Hk. apply unpin_other. intros (j & Hj & Hjk)%elem_of_take.
  pose proof (NoDup_lookup _ _ _ _ Hnd Hj Hk). lia.
Qed.

(** A second installation of a prefix changes nothing. *)
Lemma replay_again bl (ds : list (list Z)) j D n : NoDup bl -> length ds = length bl ->
  replay (zip bl ds) (replay (take j (zip bl ds)) D) !! n = replay (zip bl ds) D !! n.
Proof.
  intros Hnd Hl. destruct (decide (n ∈ bl)) as [(k & Hk)%list_elem_of_lookup|Hn].
  - destruct (lookup_lt_is_Some_2 ds k) as [d Hd]; [apply lookup_lt_Some in Hk; lia|].
    assert (zip bl ds !! k = Some (n, d)) as Hz by (apply lookup_zip_Some; done).
    assert (NoDup (zip bl ds).*1) as Hnd' by (by rewrite fst_zip by lia).
    by rewrite !(replay_lookup _ _ _ _ _ Hnd' Hz).
  - rewrite !replay_other; [done|..].
    + by intros ?%zip_dom_all.
    + intros Hin. apply Hn, (zip_dom_all bl ds). rewrite list_elem_of_fmap in *.
      destruct Hin as (x & -> & (i & Hx & _)%elem_of_take). exists x. split; [done|]. by eapply list_elem_of_lookup_2.
    + by intros ?%zip_dom_all.
Qed.

Lemma unpin_no_refs bl n : NoDup bl -> unpin bl no_refs n = if decide (n ∈ bl) then -1 else 0.
Proof. intros Hnd. case_decide; [by rewrite unpin_in|by rewrite unpin_other]. Qed.
End turns.

Section copies.
Context {EN : Env} (me : nat) (pid st sz : Z).
Hypothesis Hst : 0 <= st /\ st + LOGSIZE < 2 ^ 31.
Hypothesis Hsz : 0 < sz.

Definition slot (k : nat) : Z := st + 1 + Z.of_nat k.

Lemma slot_u32 k : (k < 30)%nat -> u32 (st + Z.of_nat k + 1) = slot k.
Proof. unfold slot. intros. rewrite u32_small; [lia|]. revert Hst. consts. lia. Qed.

Lemma slot_home k n : Z.of_nat k + 1 < sz -> home_block st sz n -> n <> slot k.
Proof. unfold home_block, slot. lia. Qed.

Lemma home_u32 n : home_block st sz n -> u32 n = n.
Proof. intros [[??] _]. apply u32_small. lia. Qed.

Lemma run_log s0 ws R H V s : run me pid s0 ws R H V s -> k_log s = k_log s0.
Proof. intros Hr. by rewrite (bframe_get Flog _ _ _ (run_frame _ _ _ _ _ _ _ _ Hr) eq_refl : k_log s0 = k_log s). Qed.

(** One turn of [write_log]: pinned block [n] is copied to log block [m]. *)
Lemma run_log_turn s0 ws R V bl k n d Q s :
  run me pid s0 ws R [] V s -> log_is st bl s0 -> bl !! k = Some n -> home_block st sz n -> (k < 30)%nat -> Z.of_nat k + 1 < sz ->
  let m := slot k in V !! n = Some d -> is_Some (V !! m) ->
  1 <= R n < 2 ^ 30 -> R m = 0 -> spare R ->
  (forall s', run me pid s0 (ws ++ [(m, d)]) R [] (<[m := d]> V) s' -> Q tt s') ->
  wp (lg ← gets k_log; to ← bread (lg_dev lg) (u32 (lg_start lg + Z.of_nat k + 1));
      home ← lh_get (Z.of_nat k); from ← bread (lg_dev lg) (u32 home);
      copy_data to from;; bwrite to;; brelse from;; brelse to) Q s.
Proof.
  intros Hr Hli Hk Hn Hk30 Hksz m HV [e He] HRn HRm Hsp HQ. pose proof (slot_home k n Hksz Hn) as Hnm.
  destruct Hli as [Hdev Hstart _ Hblk _]. kstep. rewrite (run_log _ _ _ _ _ _ Hr), Hdev, Hstart, slot_u32 by done.
  fold m in Hnm. fold m.
  eapply run_bread; [exact Hr|exact He|set_solver|set_solver|lia|by right|]. intros to s1 R1. kstep.
  unfold lh_get. kstep. rewrite (run_log _ _ _ _ _ _ R1), Nat2Z.id, (Hblk _ _ Hk). kstep.
  rewrite (home_u32 n) by done.
  eapply run_bread; [exact R1|exact HV|set_solver| |counts; lia|left; counts; lia|].
  { intros x Hx. apply list_elem_of_singleton in Hx as ->. simpl. counts. lia. }
  intros from s2 R2. kstep.
  eapply run_copy_data; [exact R2|held|held|counts; lia|exact HV|]. intros s3 R3. kstep.
  eapply run_bwrite; [exact R3|held|apply lookup_insert_eq|]. intros s4 R4. kstep.
  eapply run_brelse; [exact R4|by rewrite lookup_insert_ne|counts; lia|counts; lia|]. intros s5 R5. kstep.
  eapply run_brelse; [exact R5|apply lookup_insert_eq|counts; lia| |].
  { intros _. rewrite replay_app. simpl. apply lookup_insert_eq. }
  intros s6 R6. apply HQ. eapply run_ext; [|reflexivity|exact R6]. intros x.
  destruct (decide (x = m)) as [->|]; [counts; lia|].
  destruct (decide (x = n)) as [->|]; counts; lia.
Qed.

(** One turn of [install_trans]: log block [m] is copied to its home [n], which loses a reference. *)
Lemma run_install_turn s0 ws R V bl k n d Q s :
  run me pid s0 ws R [] V s -> log_is st bl s0 -> bl !! k = Some n -> home_block st sz n -> (k < 30)%nat -> Z.of_nat k + 1 < sz ->
  let m := slot k in V !! m = Some d -> is_Some (V !! n) ->
  0 <= R n < 2 ^ 30 -> R m = 0 -> spare R -> R n <> 0 \/ spare (<[m := 1]> R) ->
  (forall s', run me pid s0 (ws ++ [(n, d)]) (<[n := R n - 1]> R) [] (<[n := d]> V) s' -> Q tt s') ->
  wp (lg ← gets k_log; lbuf ← bread (lg_dev lg) (u32 (lg_start lg + Z.of_nat k + 1));
      home ← lh_get (Z.of_nat k); dbuf ← bread (lg_dev lg) (u32 home);
      copy_data dbuf lbuf;; bwrite dbuf;; bunpin dbuf;; brelse lbuf;; brelse dbuf) Q s.
Proof.
  intros Hr Hli Hk Hn Hk30 Hksz m HV [e He] HRn HRm Hsp Hsp' HQ. pose proof (slot_home k n Hksz Hn) as Hnm.
  destruct Hli as [Hdev Hstart _ Hblk _]. kstep. rewrite (run_log _ _ _ _ _ _ Hr), Hdev, Hstart, slot_u32 by done.
  fold m in Hnm. fold m.
  pose proof (run_clean _ _ _ _ _ _ _ _ m Hr HRm) as Hclean. rewrite HV in Hclean.
  eapply run_bread; [exact Hr|exact HV|set_solver|set_solver|lia|by right|]. intros lbuf s1 R1. kstep.
  unfold lh_get. kstep. rewrite (run_log _ _ _ _ _ _ R1), Nat2Z.id, (Hblk _ _ Hk). kstep.
  rewrite (home_u32 n) by done.
  rewrite HRm in R1. change (0 + 1) with 1 in R1.
  eapply run_bread; [exact R1|exact He|set_solver| |counts; lia|counts; tauto|].
  { intros x Hx. apply list_elem_of_singleton in Hx as ->. simpl. counts. lia. }
  intros dbuf s2 R2. kstep.
  eapply run_copy_data; [exact R2|held|held|counts; lia|exact HV|]. intros s3 R3. kstep.
  eapply run_bwrite; [exact R3|held|apply lookup_insert_eq|]. intros s4 R4. kstep.
  eapply run_bunpin; [exact R4|held|apply lookup_insert_eq|counts; lia| |].
  { intros _. rewrite replay_app. simpl. apply lookup_insert_eq. }
  intros s5 R5%run_swap. kstep.
  eapply run_brelse; [exact R5|by rewrite lookup_insert_ne|counts; lia| |].
  { intros _. rewrite replay_app. simpl. by rewrite lookup_insert_ne. }
  intros s6 R6. kstep. eapply run_brelse; [exact R6|apply lookup_insert_eq|counts; lia| |].
  { intros _. rewrite replay_app. simpl. apply lookup_insert_eq. }
  intros s7 R7. apply HQ. eapply run_ext; [|reflexivity|exact R7]. intros x.
  destruct (decide (x = m)) as [->|]; [counts; lia|].
  destruct (decide (x = n)) as [->|]; counts; lia.
Qed.

(** The copies of the blocks [ds] in the log. *)
Definition log_writes (ds : list (list Z)) : list (Z * list Z) := imap (fun k d => (slot k, d)) ds.

Lemma log_writes_snoc k ds d : ds !! k = Some d ->
  log_writes (take (S k) ds) = log_writes (take k ds) ++ [(slot k, d)].
Proof.
  intros Hk. unfold log_writes. erewrite take_S_r, imap_app by done. simpl.
  rewrite Nat.add_0_r, length_take_le; [done|]. apply lookup_lt_Some in Hk. lia.
Qed.

Lemma log_writes_dom ds n : n ∈ (log_writes ds).*1 -> exists k, n = slot k /\ (k < length ds)%nat.
Proof.
  unfold log_writes. intros (k & Hk)%list_elem_of_lookup. rewrite list_lookup_fmap, list_lookup_imap in Hk.
  destruct (ds !! k) as [d|] eqn:Hd; simplify_eq/=. exists k. split; [done|]. by eapply lookup_lt_Some.
Qed.

Lemma slot_inj j k : slot j = slot k -> j = k.
Proof. unfold slot. lia. Qed.

Lemma log_writes_nodup ds : NoDup (log_writes ds).*1.
Proof.
  unfold log_writes. apply NoDup_alt. intros i j n Hi Hj. rewrite list_lookup_fmap, list_lookup_imap in Hi, Hj.
  destruct (ds !! i), (ds !! j); simplify_eq/=. by apply slot_inj.
Qed.

(** The blocks [bl] can be logged: they are outside of the log and not more than it holds. *)
Record loggable (bl : list Z) : Prop := {
  lb_home : Forall (home_block st sz) bl;
  lb_len : (length bl <= 30)%nat;
  lb_fits : Z.of_nat (length bl) < sz;
  lb_nodup : NoDup bl
}.

Lemma log_writes_home ds n : Z.of_nat (length ds) < sz -> home_block st sz n -> n ∉ (log_writes ds).*1.
Proof.
  intros Hlen Hn (k & -> & Hk)%log_writes_dom. eapply slot_home; [|exact Hn|done]. lia.
Qed.

Lemma run_write_log s0 ws R V bl ds Q s :
  run me pid s0 ws R [] V s -> log_is st bl s0 -> loggable bl ->
  Forall2 (fun n d => V !! n = Some d) bl ds -> (forall k, (k < length bl)%nat -> is_Some (V !! slot k)) ->
  (forall n, n ∈ bl -> 1 <= R n < 2 ^ 30) -> (forall k, (k < length bl)%nat -> R (slot k) = 0) -> spare R ->
  (forall s', run me pid s0 (ws ++ log_writes ds) R [] (replay (log_writes ds) V) s' -> Q tt s') ->
  wp write_log Q s.
Proof.
  intros Hr Hli [Hhome Hlen Hfit _] HV Hslots HR HR0 Hsp HQ. pose proof (Forall2_length _ _ _ HV) as Hl.
  unfold write_log. kstep. rewrite (run_log _ _ _ _ _ _ Hr), (li_n _ _ _ Hli).
  apply (wp_kfor (fun pre s => let w := log_writes (take (length pre) ds) in
    run me pid s0 (ws ++ w) R [] (replay w V) s)).
  - simpl. by rewrite app_nil_r.
  - intros pre x post s1 [-> Hlt]%seqZ_middle R1.
    destruct (lookup_lt_is_Some_2 bl (length pre) Hlt) as [n Hn].
    destruct (Forall2_lookup_l _ _ _ _ _ HV Hn) as (d & Hd & HVn).
    assert (home_block st sz n) as Hh by (by eapply (Forall_lookup_1 _ _ _ _ Hhome)).
    assert (Z.of_nat (length (take (length pre) ds)) < sz) as Htl by (rewrite length_take; lia).
    eapply (run_log_turn s0 _ R _ bl (length pre) n d); [exact R1|done|done|done|lia|lia|..].
    + by rewrite replay_other by (by apply log_writes_home).
    + rewrite replay_other; [by apply Hslots|].
      intros (k & Hk%slot_inj & Hlk)%log_writes_dom. rewrite length_take in Hlk. lia.
    + apply HR. by eapply list_elem_of_lookup_2.
    + apply HR0. lia.
    + done.
    + intros s2 R2. rewrite length_app, Nat.add_1_r. simpl.
      by rewrite (log_writes_snoc _ _ _ Hd), replay_app, app_assoc.
  - intros s1 R1. apply HQ. revert R1. rewrite length_seqZ, Nat2Z.id, Hl, firstn_all. done.
Qed.

Lemma run_install s0 ws R V bl ds Q s :
  run me pid s0 ws R [] V s -> log_is st bl s0 -> loggable bl -> length ds = length bl ->
  (forall k d, ds !! k = Some d -> V !! slot k = Some d) -> (forall n, n ∈ bl -> is_Some (V !! n)) ->
  (forall n, n ∈ bl -> 0 <= R n < 2 ^ 30) -> (forall k, (k < length bl)%nat -> R (slot k) = 0) ->
  (forall k n, bl !! k = Some n -> let R := unpin (take k bl) R in
     spare R /\ (R n <> 0 \/ spare (<[slot k := 1]> R))) ->
  (forall s', run me pid s0 (ws ++ zip bl ds) (unpin bl R) [] (replay (zip bl ds) V) s' -> Q tt s') ->
  wp install_trans Q s.
Proof.
  intros Hr Hli [Hhome Hlen Hfit Hnd] Hl HVs HVh HR HR0 Hsp HQ.
  unfold install_trans. kstep. rewrite (run_log _ _ _ _ _ _ Hr), (li_n _ _ _ Hli).
  apply (wp_kfor (fun pre s => let k := length pre in let w := zip (take k bl) (take k ds) in
    run me pid s0 (ws ++ w) (unpin (take k bl) R) [] (replay w V) s)).
  - simpl. by rewrite app_nil_r.
  - intros pre x post s1 [-> Hlt]%seqZ_middle R1.
    destruct (lookup_lt_is_Some_2 bl (length pre) Hlt) as [n Hn].
    destruct (lookup_lt_is_Some_2 ds (length pre) ltac:(lia)) as [d Hd].
    assert (home_block st sz n) as Hh by (by eapply (Forall_lookup_1 _ _ _ _ Hhome)).
    assert (n ∈ bl) as Hin by (by eapply list_elem_of_lookup_2).
    assert (n ∉ take (length pre) bl) as Hnew.
    { intros (j & Hj%lookup_take_Some)%list_elem_of_lookup. destruct Hj as [Hj Hjl].
      pose proof (NoDup_lookup _ _ _ _ Hnd Hj Hn). lia. }
    assert (slot (length pre) ∉ take (length pre) bl) as Hsl.
    { intros (j & Hj%lookup_take_Some)%list_elem_of_lookup. destruct Hj as [Hj _].
      eapply (slot_home (length pre)); [lia|by eapply (Forall_lookup_1 _ _ _ _ Hhome)|done]. }
    eapply (run_install_turn s0 _ _ _ bl (length pre) n d); [exact R1|done|done|done|lia|lia|..].
    + rewrite replay_other by (by intros ?%zip_dom). by apply HVs.
    + rewrite replay_other by (by intros ?%zip_dom). by apply HVh.
    + rewrite unpin_other by done. by apply HR.
    + rewrite unpin_other by done. apply HR0. lia.
    + by apply (Hsp _ n).
    + by apply (Hsp _ n).
    + intros s2 R2. rewrite length_app, Nat.add_1_r. simpl.
      rewrite (zip_snoc _ _ _ _ _ Hn Hd), replay_app, app_assoc. erewrite take_S_r, unpin_snoc by done. done.
  - intros s1 R1. apply HQ. revert R1. rewrite length_seqZ, Nat2Z.id. cbv zeta. by rewrite firstn_all, <- Hl, firstn_all.
Qed.

Lemma run_store_int s0 ws R H V i n d off v Q s :
  run me pid s0 ws R H V s -> (i, n) ∈ H -> R n <> 0 -> V !! n = Some d ->
  (Z.to_nat off + 4 <= Z.to_nat BSIZE)%nat ->
  (forall s', run me pid s0 ws R H (<[n := store 4 (Z.to_nat off) v d]> V) s' -> Q tt s') ->
  wp (store_int i off v) Q s.
Proof.
  intros Hr Hin HR HV Hoff HQ. unfold store_int.
  destruct (run_held _ _ _ _ _ _ _ _ _ _ Hr Hin) as (b & Hb & _ & HVb & Hl). simplify_eq. kstep.
  rewrite bool_decide_eq_true_2 by lia.
  eapply run_fill; [exact Hr|exact Hin|done|exact HV|rewrite length_store; lia|done].
Qed.

Lemma run_write_head s0 ws R V bl h Q s :
  run me pid s0 ws R [] V s -> log_is st bl s0 -> (length bl <= 30)%nat ->
  V !! st = Some h -> R st = 0 -> spare R ->
  (forall s', run me pid s0 (ws ++ [(st, head_data bl h)]) R [] (<[st := head_data bl h]> V) s' -> Q tt s') ->
  wp write_head Q s.
Proof.
  intros Hr Hli Hlen HV HR Hsp HQ. pose proof Hli as [Hdev Hstart Hn Hblk _]. unfold write_head. kstep.
  rewrite (run_log _ _ _ _ _ _ Hr), Hdev, Hstart, Hn.
  assert (u32 st = st) as -> by (apply u32_small; revert Hst; consts; lia).
  eapply run_bread; [exact Hr|exact HV|set_solver|set_solver|lia|by right|]. intros i s1 R1. kstep.
  eapply run_store_int; [exact R1|held|counts; lia|exact HV|consts; lia|]. intros s2 R2. kstep.
  change (Z.to_nat 0) with 0%nat in R2. set (h0 := store 4 0 (Z.of_nat (length bl)) h) in *.
  apply (wp_kfor (fun pre s => run me pid s0 ws (<[st := R st + 1]> R) [(i, st)]
    (<[st := put_ints 4 (take (length pre) bl) h0]> V) s)).
  - done.
  - intros pre x post s3 [-> Hlt]%seqZ_middle R3. destruct (lookup_lt_is_Some_2 bl (length pre) Hlt) as [n Hbn].
    kstep. unfold lh_get. kstep. rewrite (run_log _ _ _ _ _ _ R3), Nat2Z.id, (Hblk _ _ Hbn). kstep.
    eapply run_store_int; [exact R3|held|counts; lia|apply lookup_insert_eq|consts; lia|].
    intros s4 R4. rewrite length_app, Nat.add_1_r. erewrite take_S_r, put_ints_snoc by done.
    rewrite insert_insert_eq in R4.
    rewrite length_take_le by lia. by replace (Z.to_nat (4 + 4 * Z.of_nat (length pre))) with (4 + 4 * length pre)%nat in R4 by lia.
  - intros s3. rewrite length_seqZ, Nat2Z.id, firstn_all. intros R3. kstep.
    eapply run_bwrite; [exact R3|held|apply lookup_insert_eq|]. intros s4 R4. kstep.
    eapply run_brelse; [exact R4|apply lookup_insert_eq|counts; lia| |].
    { intros _. rewrite replay_app. simpl. apply lookup_insert_eq. }
    intros s5 R5. apply HQ. eapply run_ext; [|reflexivity|exact R5]. intros x.
    destruct (decide (x = st)) as [->|]; counts; lia.
Qed.

(** The parts of the state that transactions change. *)
Definition log_fields : list field := Flog :: bio_fields.

(** The header block [h] lists [bl]. *)
Definition lists (h : list Z) (bl : list Z) : Prop :=
  head_n h = Z.of_nat (length bl) /\ forall k b, bl !! k = Some b -> head_block h k = b.

Lemma lists_head_data bl h : Forall block_no bl -> (length bl <= 30)%nat -> length h = Z.to_nat BSIZE ->
  lists (head_data bl h) bl.
Proof. intros. split; [by apply head_n_data|]. intros k b Hk. by apply head_block_data. Qed.

Lemma wp_load_int off d Q s :
  (Z.to_nat off + 4 <= length d)%nat -> Q (i32 (load 4 (Z.to_nat off) d)) s -> wp (load_int off d) Q s.
Proof. intros Hoff HQ. unfold load_int. by rewrite bool_decide_eq_true_2. Qed.

Lemma wp_lh_put (k : nat) v Q s :
  (k < length (lh_block (k_log s)))%nat ->
  Q tt (s <| k_log ::= set lh_block <[k := v]> |>) -> wp (lh_put (Z.of_nat k) v) Q s.
Proof.
  intros Hk HQ. unfold lh_put. kstep. rewrite Nat2Z.id, bool_decide_eq_true_2 by done. by apply wp_modify.
Qed.

(** The loop of [read_head] that fills [log.lh.block]. *)
Lemma wp_read_blocks h bl Q s :
  lists h bl -> (length bl <= 30)%nat -> length h = Z.to_nat BSIZE ->
  length (lh_block (k_log s)) = 30%nat -> lg_dev (k_log s) = ROOTDEV -> lg_start (k_log s) = st ->
  lh_n (k_log s) = Z.of_nat (length bl) ->
  (forall s', log_is st bl s' -> frame [Flog] s s' -> Q tt s') ->
  wp (kfor (seqZ 0 (Z.of_nat (length bl))) (fun i => v ← load_int (4 + 4 * i) h; lh_put i v)) Q s.
Proof.
  intros [_ Hb] Hlen Hh Hl Hdev Hstart Hn HQ.
  apply (wp_kfor (fun pre s' => log_is st (take (length pre) bl) (s' <| k_log ::= set lh_n (fun _ => Z.of_nat (length (take (length pre) bl))) |>) /\
    frame [Flog] s s' /\ lh_n (k_log s') = Z.of_nat (length bl))).
  - split_and!; [by split|reflexivity|done].
  - intros pre x post s1 [-> Hlt]%seqZ_middle ([Hd1 Hs1 _ Hb1 Hl1] & F1 & Hn1). simpl in *.
    destruct (lookup_lt_is_Some_2 bl (length pre) Hlt) as [b Hbk]. kstep.
    assert (Z.to_nat (4 + 4 * Z.of_nat (length pre)) = 4 + 4 * length pre)%nat as Ho by lia.
    apply wp_load_int; rewrite Ho; [rewrite Hh; consts; lia|].
    change (i32 (load 4 (4 + 4 * length pre) h)) with (head_block h (length pre)). rewrite (Hb _ _ Hbk).
    apply wp_lh_put; [lia|]. split_and!; [|etrans; [exact F1|frame_solve]|done].
    split; simpl; [done|done|done| |by rewrite length_insert].
    intros k c. rewrite length_app, Nat.add_1_r. erewrite take_S_r by done.
    intros [Hk|[Hk Hc]]%lookup_app_Some.
    + rewrite list_lookup_insert_ne; [by apply Hb1|]. apply lookup_lt_Some in Hk. rewrite length_take in Hk. lia.
    + rewrite length_take_le in Hk, Hc by lia. apply list_lookup_singleton_Some in Hc as [Hk' <-].
      replace k with (length pre) by lia. apply list_lookup_insert_eq. lia.
  - intros s1 (Hli & F1 & Hn1). apply HQ; [|done]. rewrite length_seqZ, Nat2Z.id, firstn_all in Hli.
    destruct Hli. by split.
Qed.

Lemma run_read_head s0 ws R V bl h Q s :
  run me pid s0 ws R [] V s -> lists h bl -> (length bl <= 30)%nat ->
  length (lh_block (k_log s)) = 30%nat -> lg_dev (k_log s) = ROOTDEV -> lg_start (k_log s) = st ->
  V !! st = Some h -> R st = 0 -> spare R ->
  (forall s', run me pid s' [] R [] V s' -> log_is st bl s' -> bframe log_fields s s' ->
     k_disk s' = k_disk s -> k_writes s' = k_writes s -> Q tt s') ->
  wp read_head Q s.
Proof.
  intros Hr Hls Hlen Hl Hdev Hstart HV HR Hsp HQ. unfold read_head. kstep. rewrite Hdev, Hstart.
  assert (u32 st = st) as -> by (apply u32_small; revert Hst; consts; lia).
  apply (run_rebase _ _ _ [] _ _ _ _ _ s) in Hr; [|done..].
  pose proof (run_clean _ _ _ _ _ _ _ _ st Hr HR) as Hcl.
  eapply run_bread; [exact Hr|exact HV|set_solver|set_solver|lia|by right|]. intros i s1 R1. kstep.
  destruct (run_held _ _ _ _ _ _ _ i st _ R1) as (b & Hb & _ & HVb & Hlb); [held|].
  rewrite HV in HVb. injection HVb as ->. kstep. pose proof (run_log _ _ _ _ _ _ R1) as Hlog.
  apply wp_load_int; [rewrite Hlb; consts; lia|]. kstep.
  change (i32 (load 4 (Z.to_nat 0) (b_data b))) with (head_n (b_data b)). rewrite (proj1 Hls).
  unfold upd_log. kstep. apply wp_read_blocks; kfields; try done; [simpl; congruence..|].
  intros s2 Hli F2. kstep.
  assert (frame [Flog] s1 s2) as F3 by (etrans; [|exact F2]; frame_solve).
  pose proof (run_rebase _ _ _ _ _ _ _ _ _ _ R1 F3 eq_refl) as R2.
  eapply run_brelse; [exact R2|exact HV|counts; lia| |].
  { intros _. simpl. rewrite <- (frame_get Fdisk _ _ _ F3 eq_refl : k_disk s1 = k_disk s2).
    rewrite (run_disk _ _ _ _ _ _ _ _ R1). simpl in *. congruence. }
  intros s3 R3. pose proof (run_frame _ _ _ _ _ _ _ _ R3) as B3. apply HQ.
  - eapply run_ext; [|reflexivity|by eapply (run_rebase _ _ _ []); [exact R3|reflexivity|done]].
    intros x. destruct (decide (x = st)) as [->|]; counts; lia.
  - destruct Hli. split; by rewrite (run_log _ _ _ _ _ _ R3).
  - etrans; [by eapply bframe_more; [|exact (run_frame _ _ _ _ _ _ _ _ R1)]|].
    etrans; [|by eapply bframe_more; [|exact B3]]. by eapply bframe_more; [|apply bframe_frame; [exact F3|]].
  - rewrite (run_disk _ _ _ _ _ _ _ _ R3). simpl.
    rewrite <- (frame_get Fdisk _ _ _ F3 eq_refl : k_disk s1 = k_disk s2). apply (run_disk _ _ _ _ _ _ _ _ R1).
  - rewrite (run_writes _ _ _ _ _ _ _ _ R3). simpl.
    rewrite <- (frame_get Fwrites _ _ _ F3 eq_refl : k_writes s1 = k_writes s2). apply (run_writes _ _ _ _ _ _ _ _ R1).
Qed.

(** What [commit] sends to the disk: the log, the header that makes it valid, the home blocks, the
    header that clears it. *)
Definition commit_writes (bl : list Z) (ds : list (list Z)) (h : list Z) : list (Z * list Z) :=
  log_writes ds ++ [(st, head_data bl h)] ++ zip bl ds ++ [(st, head_data [] (head_data bl h))].

(** A transaction of the blocks [bl] with the new contents [ds] is ready to commit: its blocks are
    pinned in the cache, the log itself is not in use, and a buffer is left. *)
Record committable (bl : list Z) (ds : list (list Z)) (h : list Z) (R : Z -> Z) (V : disk) : Prop := {
  cm_log : loggable bl;
  cm_data : Forall2 (fun n d => V !! n = Some d) bl ds;
  cm_slots k : (k < length bl)%nat -> is_Some (V !! slot k);
  cm_head : V !! st = Some h;
  cm_pinned n : n ∈ bl -> 1 <= R n < 2 ^ 30;
  cm_free k : (k < length bl)%nat -> R (slot k) = 0;
  cm_free_head : R st = 0;
  cm_spare : spare R
}.

Lemma st_not_slot ds : st ∉ (log_writes ds).*1.
Proof. intros (k & Hk & _)%log_writes_dom. unfold slot in Hk. lia. Qed.

Lemma st_not_home bl : Forall (home_block st sz) bl -> st ∉ bl.
Proof. intros Hh Hin. rewrite Forall_forall in Hh. destruct (Hh _ Hin) as [_ ?]. lia. Qed.

Lemma slot_not_home k bl : Z.of_nat k + 1 < sz -> Forall (home_block st sz) bl -> slot k ∉ bl.
Proof. intros Hk Hh Hin. rewrite Forall_forall in Hh. by apply (slot_home k (slot k) Hk); [apply Hh|]. Qed.

Lemma unpin_spare k bl ds h R V : committable bl ds h R V -> spare (unpin (take k bl) R).
Proof.
  intros [[_ _ _ Hnd] _ _ _ Hpin _ _ Hsp]. eapply spare_less; [|exact Hsp]. intros m. apply unpin_used.
  - rewrite <- (take_drop k bl) in Hnd. by apply NoDup_app in Hnd as [? _].
  - intros x (j & Hx & _)%elem_of_take. apply list_elem_of_lookup_2 in Hx. by apply Hpin.
Qed.

(** The end of [commit] and of recovery: the log is emptied. *)
Lemma run_clear s0 ws R V bl h Q s :
  run me pid s0 ws R [] V s -> log_is st bl s0 -> V !! st = Some h -> R st = 0 -> spare R ->
  let ws' := ws ++ [(st, head_data [] h)] in
  (forall s', cache pid R [] (<[st := head_data [] h]> V) s' -> log_is st [] s' -> thread_ok me pid s' ->
     bframe log_fields s0 s' -> k_disk s' = replay ws' (k_disk s0) ->
     k_writes s' = rev ws' ++ k_writes s0 -> k_log s' = (k_log s0) <| lh_n := 0 |> -> Q tt s') ->
  wp (upd_log (set lh_n (fun _ => 0));; write_head) Q s.
Proof.
  intros R3 Hli HV HR Hsp ws' HQ. unfold upd_log. kstep.
  set (s4 := s <| k_log ::= set lh_n (fun _ => 0) |>).
  assert (frame [Flog] s s4) as F4 by frame_solve.
  pose proof (run_rebase _ _ _ _ _ _ _ _ _ _ R3 F4 eq_refl) as R4.
  assert (log_is st [] s4) as Hli4.
  { destruct Hli as [? ? _ _ ?]. split; unfold s4; kfields; simpl; rewrite ?(run_log _ _ _ _ _ _ R3); done. }
  eapply run_write_head; [exact R4|exact Hli4|simpl; lia|exact HV|done|done|]. intros s5 R5.
  pose proof (run_log _ _ _ _ _ _ R3) as Hlog3. destruct R3 as [_ _ F3 Hd3 Hw3]. pose proof (run_log _ _ _ _ _ _ R5) as Hlog. destruct R5 as [C5 Ht5 F5 Hd5 Hw5].
  apply HQ; try done.
  - destruct Hli4. split; by rewrite Hlog.
  - etrans; [by eapply bframe_more; [|exact F3]|]. etrans; [|by eapply bframe_more; [|exact F5]].
    by eapply bframe_more; [|apply bframe_frame; [exact F4|]].
  - rewrite Hd5. unfold ws'. by rewrite !replay_app, <- Hd3.
  - rewrite Hw5. unfold ws'. by rewrite !rev_app_distr, <- !app_assoc, <- Hw3.
  - rewrite Hlog. unfold s4. kfields. by rewrite Hlog3.
Qed.

Lemma wp_commit bl ds h R V Q s :
  thread_ok me pid s -> cache pid R [] V s -> log_is st bl s -> bl <> [] -> committable bl ds h R V ->
  (forall s', cache pid (unpin bl R) [] (replay (commit_writes bl ds h) V) s' -> log_is st [] s' ->
     thread_ok me pid s' -> bframe log_fields s s' ->
     k_disk s' = replay (commit_writes bl ds h) (k_disk s) ->
     k_writes s' = rev (commit_writes bl ds h) ++ k_writes s -> k_log s' = (k_log s) <| lh_n := 0 |> -> Q tt s') ->
  wp commit Q s.
Proof.
  intros Ht C Hli Hne Hcm HQ. pose proof Hcm as [Hlb HV Hslots Hh Hpin Hfree Hfreeh Hsp]. pose proof Hlb as [Hhome Hlen Hfit Hnd].
  pose proof (Forall2_length _ _ _ HV) as Hl. unfold commit. kstep. rewrite (li_n _ _ _ Hli).
  destruct (Z.ltb_spec 0 (Z.of_nat (length bl))) as [_|Hz]; [|destruct bl; [done|simpl in Hz; lia]].
  unfold when. pose proof (run_start me pid s _ _ _ Ht C) as R0. kstep.
  eapply run_write_log; [exact R0|exact Hli|done..|]. intros s1 R1. kstep.
  eapply run_write_head; [exact R1|exact Hli|done| |done|done|].
  { by rewrite replay_other by apply st_not_slot. }
  intros s2 R2. kstep. simpl app in R2.
  eapply run_install; [exact R2|exact Hli|done|done| | | |done| |].
  { intros k d Hd. assert (slot k <> st) as Hks by (unfold slot; lia). rewrite lookup_insert_ne by done.
    eapply (replay_lookup _ _ k); [apply log_writes_nodup|]. unfold log_writes. by rewrite list_lookup_imap, Hd. }
  { intros n Hn. rewrite lookup_insert_ne by (intros <-; by eapply st_not_home).
    rewrite replay_other by (apply log_writes_home; [lia|rewrite Forall_forall in Hhome; auto]).
    apply list_elem_of_lookup in Hn as [k Hk]. destruct (Forall2_lookup_l _ _ _ _ _ HV Hk) as (d & _ & ->). done. }
  { intros n Hn%Hpin. lia. }
  { intros k n Hk. split; [by eapply unpin_spare|left]. rewrite (unpin_next k bl R n) by done.
    pose proof (Hpin n (list_elem_of_lookup_2 _ _ _ Hk)). lia. }
  intros s3 R3. eapply run_clear; [exact R3|exact Hli| | | |].
  { rewrite replay_other; [apply lookup_insert_eq|]. intros ?%zip_dom_all. by eapply st_not_home. }
  { by rewrite unpin_other by (by apply st_not_home). }
  { rewrite <- (firstn_all bl). by eapply unpin_spare. }
  intros s4 C4 Hli4 Ht4 F4 Hd4 Hw4 Hlog4. unfold commit_writes in HQ. rewrite <- !app_assoc in Hd4, Hw4.
  apply HQ; try done. by rewrite !replay_app.
Qed.

(** ** Recovery *)

(** Recovery leaves every buffer it installed a block from with one reference too few, so that it
    needs a buffer per block, and one for the log. *)
Lemma recovery_spare k bl n : NoDup bl -> bl !! k = Some n -> (length bl < NBUF)%nat ->
  let R := unpin (take k bl) no_refs in spare R /\ spare (<[slot k := 1]> R).
Proof.
  intros Hnd Hk Hlen R. pose proof (lookup_lt_Some _ _ _ Hk) as Hlt.
  assert (NoDup (take k bl)) as Hnd' by (rewrite <- (take_drop k bl) in Hnd; by apply NoDup_app in Hnd as [? _]).
  assert (forall m, R m <> 0 -> m ∈ take k bl) as HR.
  { intros m Hm. unfold R in Hm. rewrite unpin_no_refs in Hm by done. by case_decide. }
  split.
  - exists (take k bl). split; [done|]. rewrite length_take. lia.
  - exists (slot k :: take k bl). split; [|simpl; rewrite length_take; lia].
    intros m Hm. destruct (decide (m = slot k)) as [->|]; [by left|]. right. apply HR.
    by rewrite fn_lookup_insert_ne in Hm.
Qed.

Lemma wp_recover_from_log bl ds h D Q s :
  thread_ok me pid s -> cache pid no_refs [] D s -> length (lh_block (k_log s)) = 30%nat ->
  lg_dev (k_log s) = ROOTDEV -> lg_start (k_log s) = st ->
  D !! st = Some h -> lists h bl -> loggable bl -> (length bl < NBUF)%nat -> length ds = length bl ->
  (forall k d, ds !! k = Some d -> D !! slot k = Some d) -> (forall n, n ∈ bl -> is_Some (D !! n)) ->
  let ws := zip bl ds ++ [(st, head_data [] h)] in
  (forall s', cache pid (unpin bl no_refs) [] (replay ws D) s' -> log_is st [] s' -> thread_ok me pid s' ->
     bframe log_fields s s' -> k_disk s' = replay ws (k_disk s) ->
     k_writes s' = rev ws ++ k_writes s -> Q tt s') ->
  wp recover_from_log Q s.
Proof.
  intros Ht C Hl Hdev Hstart HD Hls Hlb Hlen Hds Hslot Hhome ws HQ. unfold recover_from_log.
  pose proof Hlb as [Hh Hlen30 Hfit Hnd].
  assert (spare no_refs) as Hsp by (exists []; split; [done|simpl; consts; lia]). kstep.
  eapply run_read_head; [by apply run_start|exact Hls|done..|]. intros s1 R1 Hli F1 Hd1 Hw1. kstep.
  eapply run_install; [exact R1|exact Hli|done..| |].
  { intros k n Hk. destruct (recovery_spare k bl n Hnd Hk Hlen). auto. }
  intros s2 R2. kstep. eapply run_clear; [exact R2|exact Hli| | | |].
  { rewrite replay_other; [done|]. intros ?%zip_dom_all. by eapply st_not_home. }
  { by rewrite unpin_other by (by apply st_not_home). }
  { exists bl. split; [|done]. intros n Hn. rewrite unpin_no_refs in Hn by done. by case_decide. }
  intros s3 C3 Hli3 Ht3 F3 Hd3 Hw3 _. apply HQ; try done.
  - unfold ws. by rewrite replay_app.
  - by etrans.
  - by rewrite Hd3, Hd1.
  - by rewrite Hw3, Hw1.
Qed.

(** The machine has booted from the disk [D]: nothing is cached as used, and [sb] is its super block. *)
Record booted (D : disk) (sb : superblock) (s : kstate) : Prop := {
  bt_thread : thread_ok me pid s;
  bt_cache : cache pid no_refs [] D s;
  bt_blocks : length (lh_block (k_log s)) = 30%nat;
  bt_start : sb_logstart sb = st
}.

Lemma booted_disk D sb s : booted D sb s -> k_disk s = D.
Proof. intros [_ C _ _]. apply map_eq. intros n. by eapply cache_clean. Qed.

Lemma wp_initlog bl ds h D sb Q s :
  booted D sb s -> D !! st = Some h -> lists h bl -> loggable bl -> (length bl < NBUF)%nat ->
  length ds = length bl -> (forall k d, ds !! k = Some d -> D !! slot k = Some d) ->
  (forall n, n ∈ bl -> is_Some (D !! n)) ->
  let ws := zip bl ds ++ [(st, head_data [] h)] in
  (forall s', cache pid (unpin bl no_refs) [] (replay ws D) s' -> log_is st [] s' -> thread_ok me pid s' ->
     k_disk s' = replay ws D -> Q tt s') ->
  wp (initlog ROOTDEV sb) Q s.
Proof.
  intros Hb HD Hls Hlb Hlen Hds Hslot Hhome ws HQ. pose proof (booted_disk _ _ _ Hb) as Hdisk.
  destruct Hb as [Ht C Hl Hstart]. unfold initlog, initlock, upd_log. kstep.
  assert (i32 st = st) as Hi by (apply i32_small; revert Hst; consts; lia).
  change (BSIZE <=? 4 + 4 * LOGSIZE) with false. rewrite Hstart, Hi. cbv iota. kstep.
  match goal with |- wp recover_from_log Q ?x => set (s1 := x) end.
  assert (frame [Flocks; Flog] s s1) as F1 by frame_solve.
  eapply (wp_recover_from_log bl ds h D); try done.
  - destruct Ht as [? ? ? ? Hp Hb Hs]. assert (forall lk, lk <> LLog -> k_locks s1 !! lk = k_locks s !! lk) as Hlk.
    { intros lk Hne. unfold s1. kfields. by rewrite lookup_delete_ne. }
    split; try done; [intros i|..|intros l]; by rewrite Hlk.
  - by eapply cache_frame; [exact F1|..].
  - intros s2 C2 Hli2 Ht2 _ Hd2 _. apply HQ; try done. by rewrite Hd2, <- Hdisk.
Qed.

(** ** Crashes *)

(** The disk of a crash after [k] writes of [commit]: in the log, after the first header write, or
    after the last write. *)
Lemma take_commit k bl ds h : length ds = length bl ->
  take k (commit_writes bl ds h) = log_writes (take k ds) \/
  (exists j, take k (commit_writes bl ds h) =
     log_writes ds ++ [(st, head_data bl h)] ++ take j (zip bl ds)) \/
  take k (commit_writes bl ds h) = commit_writes bl ds h.
Proof.
  intros Hl. assert (length (log_writes ds) = length ds) as Ha by apply length_imap.
  assert (length (zip bl ds) = length ds) as Hb by (rewrite length_zip; lia).
  unfold commit_writes. destruct (decide (k <= length ds)%nat) as [Hk|Hk].
  - left. rewrite take_app_le by lia. apply list_eq. intros i. unfold log_writes.
    destruct (decide (i < k)%nat).
    + by rewrite lookup_take_lt, !list_lookup_imap, lookup_take_lt.
    + rewrite lookup_take_ge, list_lookup_imap, lookup_take_ge by lia. done.
  - right. rewrite take_app_ge by lia. destruct (k - length (log_writes ds))%nat as [|i] eqn:Hi; [lia|].
    cbn [app]. rewrite firstn_cons. destruct (decide (i <= length ds)%nat) as [Hi'|Hi'].
    + left. exists i. by rewrite take_app_le by lia.
    + right. rewrite take_ge; [done|]. rewrite length_app. simpl. lia.
Qed.

Lemma home_not_log ds D n : Z.of_nat (length ds) < sz -> home_block st sz n -> replay (log_writes ds) D !! n = D !! n.
Proof. intros. rewrite replay_other; [done|]. by apply log_writes_home. Qed.

Lemma home_not_head n : home_block st sz n -> n <> st.
Proof. intros [_ ?]. lia. Qed.

Lemma commit_home bl ds h D n : Z.of_nat (length ds) < sz -> home_block st sz n ->
  replay (commit_writes bl ds h) D !! n = replay (zip bl ds) D !! n.
Proof.
  intros Hds Hn. pose proof (home_not_head _ Hn). unfold commit_writes.
  rewrite !replay_app. simpl. rewrite lookup_insert_ne by done.
  apply replay_agree. rewrite lookup_insert_ne by done. by apply home_not_log.
Qed.

(** A disk whose log is empty is left alone. *)
Lemma recover_empty D sb h s :
  booted D sb s -> D !! st = Some h -> lists h [] ->
  wp (initlog ROOTDEV sb) (fun _ s' => forall n, home_block st sz n -> k_disk s' !! n = D !! n) s.
Proof.
  intros Hb HD Hls. eapply (wp_initlog [] [] h D); [exact Hb|exact HD|exact Hls|..].
  - split; [done|simpl; lia|done|constructor].
  - simpl. consts. lia.
  - done.
  - done.
  - set_solver.
  - intros s' _ _ _ Hd n Hn. rewrite Hd. simpl. apply lookup_insert_ne. apply not_eq_sym. by apply home_not_head.
Qed.

(** Once the header lists them, the blocks in the log are installed. *)
Lemma recover_logged bl ds h D j sb s :
  loggable bl -> (length bl < NBUF)%nat -> length ds = length bl -> length h = Z.to_nat BSIZE ->
  (forall n, n ∈ bl -> is_Some (D !! n)) ->
  booted (replay (log_writes ds ++ [(st, head_data bl h)] ++ take j (zip bl ds)) D) sb s ->
  wp (initlog ROOTDEV sb) (fun _ s' =>
    forall n, home_block st sz n -> k_disk s' !! n = replay (commit_writes bl ds h) D !! n) s.
Proof.
  intros Hlb Hlen Hl Hh Hpres Hb. pose proof Hlb as [Hhome Hl30 Hfit Hnd].
  assert (forall n, n ∉ bl -> n ∉ (take j (zip bl ds)).*1) as Htake.
  { intros n Hn Hin. apply Hn, (zip_dom_all bl ds). rewrite list_elem_of_fmap in *.
    destruct Hin as (x & -> & (i & Hx & _)%elem_of_take). exists x. split; [done|]. by eapply list_elem_of_lookup_2. }
  rewrite !replay_app in Hb. simpl in Hb.
  eapply (wp_initlog bl ds (head_data bl h)); [exact Hb| | |done|done|done| | |].
  - rewrite replay_other; [apply lookup_insert_eq|]. apply Htake. by apply st_not_home.
  - apply lists_head_data; [|done|done]. eapply Forall_impl; [exact Hhome|]. by intros n [? _].
  - intros k d Hd. pose proof (lookup_lt_Some _ _ _ Hd) as Hk.
    rewrite replay_other by (apply Htake, slot_not_home; [lia|done]).
    rewrite lookup_insert_ne by (unfold slot; lia). eapply (replay_lookup _ _ k); [apply log_writes_nodup|].
    unfold log_writes. by rewrite list_lookup_imap, Hd.
  - intros n Hn. apply replay_present. rewrite lookup_insert_ne by (intros <-; by eapply st_not_home).
    by apply replay_present, Hpres.
  - intros s' _ _ _ Hd n Hn. rewrite Hd, !replay_app. simpl. rewrite commit_home by (done || lia).
    rewrite lookup_insert_ne by (apply not_eq_sym; by apply home_not_head). rewrite replay_again by done.
    apply replay_agree. rewrite lookup_insert_ne by (apply not_eq_sym; by apply home_not_head).
    apply home_not_log; [lia|done].
Qed.

Lemma crash_recovers bl ds h D k sb s :
  loggable bl -> (length bl < NBUF)%nat -> length ds = length bl -> length h = Z.to_nat BSIZE ->
  D !! st = Some h -> lists h [] -> (forall n, n ∈ bl -> is_Some (D !! n)) ->
  booted (replay (take k (commit_writes bl ds h)) D) sb s ->
  wp (initlog ROOTDEV sb) (fun _ s' =>
    (forall n, home_block st sz n -> k_disk s' !! n = D !! n) \/
    (forall n, home_block st sz n -> k_disk s' !! n = replay (commit_writes bl ds h) D !! n)) s.
Proof.
  intros Hlb Hlen Hl Hh HD Hls Hpres Hb. pose proof Hlb as [Hhome Hl30 Hfit Hnd].
  destruct (take_commit k bl ds h Hl) as [E|[[j E]|E]]; rewrite E in Hb.
  - eapply wp_mono; [eapply recover_empty; [exact Hb| |exact Hls]|].
    + by rewrite replay_other by apply st_not_slot.
    + intros [] s' Hd. left. intros n Hn. rewrite Hd by done. apply home_not_log; [|done]. rewrite length_take. lia.
  - eapply wp_mono; [by eapply recover_logged|]. intros [] s' Hd. by right.
  - eapply wp_mono; [eapply recover_empty; [exact Hb| |]|].
    + unfold commit_writes. rewrite !replay_app. simpl. apply lookup_insert_eq.
    + apply lists_head_data; [done|simpl; lia|]. by apply length_head_data.
    + intros [] s' Hd. by right.
Qed.
End copies.

(** The record of a buffer whose block has been recovered. *)
Lemma recovered_refcnt pid bl D s n :
  NoDup bl -> n ∈ bl -> cache pid (unpin bl no_refs) [] D s ->
  exists i b, k_bufs s !! i = Some b /\ is_for n b /\ b_refcnt b = 2 ^ 32 - 1.
Proof.
  intros Hnd Hn C. assert (unpin bl no_refs n = -1) as Hr by (by rewrite unpin_in).
  destruct (ca_used _ _ _ _ _ C n) as (i & b & Hb & Hf); [by rewrite Hr|]. exists i, b.
  split_and!; [done..|]. rewrite (bc_ref _ _ _ _ _ (ca_bc _ _ _ _ _ C) _ _ Hb).
  by rewrite (refs_of_for _ _ _ _ _ Hb Hf), Hr.
Qed.

(** [commit] and a crash after any number of its disk writes. *)
Lemma wp_commit_atomic {EN : Env} me pid st sz bl ds h R V Q s :
  0 <= st /\ st + LOGSIZE < 2 ^ 31 -> thread_ok me pid s -> cache pid R [] V s ->
  log_is st bl s -> bl <> [] -> (length bl < NBUF)%nat -> committable st sz bl ds h R V ->
  lists h [] -> (forall n, n ∈ bl -> is_Some (k_disk s !! n)) ->
  (forall s' ws,
    (forall n, home_block st sz n -> k_disk s' !! n = if decide (n ∈ bl) then V !! n else k_disk s !! n) ->
    k_writes s' = rev ws ++ k_writes s -> k_disk s' = replay ws (k_disk s) ->
    (forall k me' pid' sb b, booted me' pid' st (replay (take k ws) (k_disk s)) sb b ->
        wp (initlog ROOTDEV sb) (fun _ b' =>
          (forall n, home_block st sz n -> k_disk b' !! n = k_disk s !! n) \/
          (forall n, home_block st sz n -> k_disk b' !! n = k_disk s' !! n)) b) -> Q tt s') ->
  wp commit Q s.
Proof.
  intros Hst Ht C Hli Hne Hlen Hcm Hls Hpres HQ.
  pose proof Hcm as [Hlb HV _ Hh _ _ HRst _]. pose proof (Forall2_length _ _ _ HV) as Hl.
  pose proof (lb_fits _ _ _ Hlb) as Hfit. assert (0 < sz) as Hsz by lia.
  assert (k_disk s !! st = Some h) as Hd by (by rewrite (cache_clean _ _ _ _ _ _ C HRst)).
  pose proof (bc_dsize _ _ _ _ _ (ca_bc _ _ _ _ _ C) _ _ Hd) as Hlh.
  eapply wp_commit; [done..|]. intros s' _ _ _ _ Hd' Hw' _. apply (HQ s' (commit_writes st bl ds h)); [|done|done|].
  - intros n Hn. rewrite Hd', (commit_home _ sz) by (done || lia). case_decide as Hin.
    + apply list_elem_of_lookup in Hin as [k Hk]. destruct (Forall2_lookup_l _ _ _ _ _ HV Hk) as (d & Hdk & ->).
      eapply (replay_lookup _ _ k); [rewrite fst_zip by lia; apply Hlb|]. by apply lookup_zip_Some.
    + apply replay_other. by rewrite fst_zip by lia.
  - intros k me' pid' sb b Hb. rewrite Hd'. by eapply crash_recovers.
Qed.

(** C2. [commit] is atomic with respect to crashes, for a log of [sz] blocks and a transaction of fewer than [sz] blocks.  It writes the blocks of the transaction to their
    homes, and if the machine stops after any number of the disk writes it makes, booting from that
    disk and recovering the log ([initlog]) gives every block outside of the log its content of before
    the transaction, or gives every one its content of after it. *)
Theorem commit_atomic {EN : Env} me pid st sz bl ds h R V s :
  0 <= st /\ st + LOGSIZE < 2 ^ 31 -> thread_ok me pid s -> cache pid R [] V s ->
  log_is st bl s -> bl <> [] -> (length bl < NBUF)%nat -> committable st sz bl ds h R V ->
  lists h [] -> (forall n, n ∈ bl -> is_Some (k_disk s !! n)) ->
  wp commit (fun _ s' =>
    (forall n, n ∈ bl -> k_disk s' !! n = V !! n) /\
    exists ws, k_writes s' = rev ws ++ k_writes s /\ k_disk s' = replay ws (k_disk s) /\
      forall k me' pid' sb b, booted me' pid' st (replay (take k ws) (k_disk s)) sb b ->
        wp (initlog ROOTDEV sb) (fun _ b' =>
          (forall n, home_block st sz n -> k_disk b' !! n = k_disk s !! n) \/
          (forall n, home_block st sz n -> k_disk b' !! n = k_disk s' !! n)) b) s.
Proof.
  intros Hst Ht C Hli Hne Hlen Hcm Hls Hpres. eapply wp_commit_atomic; [done..|].
  intros s' ws Hdisk Hw Hd Hcrash. split; [|by exists ws]. intros n Hn. rewrite Hdisk.
  - by rewrite decide_True.
  - eapply Forall_forall; [apply (lb_home _ _ _ (cm_log _ _ _ _ _ _ _ Hcm))|done].
Qed.

(** Recovery of a log that lists the blocks [bl] installs them and empties the log, but it drops a
    reference it never took ([bunpin] in [install_trans]): the buffer of each recovered block is left
    with [refcnt] 2^32 - 1. *)
Theorem recovery_miscounts {EN : Env} me pid st sz bl ds h D sb s :
  0 <= st /\ st + LOGSIZE < 2 ^ 31 -> booted me pid st D sb s -> D !! st = Some h -> lists h bl ->
  loggable st sz bl -> (length bl < NBUF)%nat -> length ds = length bl ->
  (forall k d, ds !! k = Some d -> D !! slot st k = Some d) -> (forall n, n ∈ bl -> is_Some (D !! n)) ->
  wp (initlog ROOTDEV sb) (fun _ s' =>
    log_is st [] s' /\ k_disk s' = <[st := head_data [] h]> (replay (zip bl ds) D) /\
    forall n, n ∈ bl -> exists i b, k_bufs s' !! i = Some b /\ is_for n b /\ b_refcnt b = 2 ^ 32 - 1) s.
Proof.
  intros Hst Hb HD Hls Hlb Hlen Hl Hslot Hpres. assert (0 < sz) as Hsz by (pose proof (lb_fits _ _ _ Hlb); lia).
  eapply wp_initlog; [done..|].
  intros s' C' Hli' _ Hd'. split_and!; [done|by rewrite Hd', replay_app|].
  intros n Hn. eapply recovered_refcnt; [apply Hlb|done|exact C'].
Qed.

Section example.
#[local] Existing Instance small_machine.

(** Block 40 is changed and logged. *)
Definition small_write : K unit :=
  i ← bread ROOTDEV 40; upd_buf i (set b_data (fun _ => block_of 7));; bpin i;; brelse i.
Definition small_ready : kstate :=
  match small_write small_boot with Ok _ s => s | Stop _ s => s end.

Lemma small_ready_run :
  run 0 1 small_boot [] (<[40 := 1]> no_refs) [] (<[40 := block_of 7]> small_disk) small_ready.
Proof.
  assert (wp small_write (fun _ s => run 0 1 small_boot [] (<[40 := 1]> no_refs) []
    (<[40 := block_of 7]> small_disk) s) small_boot) as (a & s' & Hs & Hr)%wp_inv;
    [|unfold small_ready; by rewrite Hs].
  pose proof (run_start 0 1 _ _ _ _ small_boot_thread small_boot_cache) as R0. unfold small_write. kstep.
  eapply (run_bread _ _ _ _ _ _ _ 40 (block_of 5)); [exact R0|done|set_solver|set_solver|unfold no_refs; lia| |].
  { right. exists []. split; [done|simpl; consts; lia]. }
  intros i s1 R1. kstep. eapply run_fill; [exact R1|held|by counts|done|unfold block_of; by rewrite length_replicate|].
  intros s2 R2. kstep. eapply run_bpin; [exact R2|held|counts; unfold no_refs; lia|]. intros s3 R3. kstep.
  eapply run_brelse; [exact R3|apply lookup_insert_eq|counts; unfold no_refs; lia|counts; unfold no_refs; lia|].
  intros s4 R4. eapply run_ext; [|reflexivity|exact R4]. intros n.
  destruct (decide (n = 40)) as [->|]; counts; done.
Qed.

Lemma small_spare : spare (<[40 := 1]> no_refs).
Proof.
  exists [40]. split; [|simpl; consts; lia]. intros n Hn. destruct (decide (n = 40)) as [->|]; [by left|].
  by rewrite fn_lookup_insert_ne in Hn.
Qed.

Lemma small_loggable : loggable 2 30 [40].
Proof.
  split; [|simpl; lia|simpl; lia|apply NoDup_singleton]. constructor; [|constructor].
  split; [unfold block_no; lia|lia].
Qed.

Lemma small_committable :
  committable 2 30 [40] [block_of 7] (block_of 0) (<[40 := 1]> no_refs) (<[40 := block_of 7]> small_disk).
Proof.
  split; [apply small_loggable|..|apply small_spare].
  - by repeat constructor.
  - intros k Hk. simpl in Hk. destruct k; [|lia]. done.
  - done.
  - intros n ->%list_elem_of_singleton. counts. lia.
  - intros k Hk. simpl in Hk. unfold slot. by rewrite fn_lookup_insert_ne by lia.
  - done.
Qed.

Lemma small_log s : k_log s = k_log small_boot -> log_is 2 [40] s.
Proof.
  intros Hlog. split; rewrite Hlog; try done.
  intros [|k] b Hb; simpl in *; [by simplify_eq|done].
Qed.

Lemma small_empty : lists (block_of 0) [].
Proof. by split. Qed.

Lemma commit_atomic_witness :
  wp commit (fun _ s' =>
    (forall n, n ∈ [40] -> k_disk s' !! n = <[40 := block_of 7]> small_disk !! n) /\
    exists ws, k_writes s' = rev ws ++ k_writes small_ready /\ k_disk s' = replay ws (k_disk small_ready) /\
      forall k me' pid' sb b, booted me' pid' 2 (replay (take k ws) (k_disk small_ready)) sb b ->
        wp (initlog ROOTDEV sb) (fun _ b' =>
          (forall n, home_block 2 30 n -> k_disk b' !! n = k_disk small_ready !! n) \/
          (forall n, home_block 2 30 n -> k_disk b' !! n = k_disk s' !! n)) b) small_ready.
Proof.
  pose proof small_ready_run as R.
  apply (commit_atomic 0 1 2 30 [40] [block_of 7] (block_of 0) (<[40 := 1]> no_refs)).
  - consts. lia.
  - apply R.
  - apply R.
  - apply small_log, (run_log 0 1 _ _ _ _ _ _ R).
  - done.
  - simpl. consts. lia.
  - apply small_committable.
  - apply small_empty.
  - intros n ->%list_elem_of_singleton. rewrite (run_disk _ _ _ _ _ _ _ _ R). by exists (block_of 5).
Defined.

(** The disk of a crash right after the header of that transaction was written. *)
Definition crashed_disk : disk := replay (log_writes 2 [block_of 7] ++ [(2, head_data [40] (block_of 0))]) small_disk.
Definition crashed_boot : kstate := small_boot <| k_disk := crashed_disk |>.

Lemma crashed_booted : booted 0 1 2 crashed_disk (mksb FSMAGIC 100 50 20 30 2 32 34) crashed_boot.
Proof.
  split; [|..|done|done].
  - destruct small_boot_thread. by split.
  - apply (zero_cache 1 crashed_boot); [done..|]. unfold crashed_boot, crashed_disk. kfields.
    unfold log_writes. simpl. repeat apply map_Forall_insert_2; try apply length_replicate; [|apply map_Forall_empty].
    apply length_head_data; [simpl; lia|apply length_replicate].
Qed.

Lemma recovery_miscounts_witness :
  wp (initlog ROOTDEV (mksb FSMAGIC 100 50 20 30 2 32 34)) (fun _ s' =>
    log_is 2 [] s' /\
    k_disk s' = <[2 := head_data [] (head_data [40] (block_of 0))]> (replay [(40, block_of 7)] crashed_disk) /\
    forall n, n ∈ [40] -> exists i b, k_bufs s' !! i = Some b /\ is_for n b /\ b_refcnt b = 2 ^ 32 - 1) crashed_boot.
Proof.
  apply (recovery_miscounts 0 1 2 30 [40] [block_of 7] (head_data [40] (block_of 0)) crashed_disk).
  - consts. lia.
  - apply crashed_booted.
  - reflexivity.
  - apply lists_head_data; [repeat constructor; unfold block_no; lia|simpl; lia|apply length_replicate].
  - apply small_loggable.
  - simpl. consts. lia.
  - reflexivity.
  - intros [|k] d Hd; simpl in Hd; [by simplify_eq|done].
  - intros n ->%list_elem_of_singleton. by exists (block_of 5).
Defined.
End example.
