(* ===== verification/Transaction.v ===== *)
(** Transactions in memory: [begin_op], [log_write] and [end_op] of [kernel/log.c].

    [log_write] records a changed block in the header and pins its buffer; a block that is already
    recorded is absorbed.  [begin_op] admits an operation, and the [end_op] of the last one commits. *)
From S2P Require Import Prelude Types Kstate Cstring Spinlock Frame Printf Accounting Kalloc Vm Proc Bio Bcache Blocks Log Commit.
From stdpp Require Import functions base numbers list gmap strings.
From Stdlib Require Import ZArith Lia.

Local Open Scope Z_scope.
Local Open Scope xv6_scope.

(** The blocks of the transaction after [log_write] of block [n]. *)
Definition absorb (bl : list Z) (n : Z) : list Z := if decide (n ∈ bl) then bl else bl ++ [n].

(** Room for another block, and an operation that may use it. *)
Definition can_log (lg : log) : Prop :=
  lh_n lg < LOGSIZE /\ lh_n lg < lg_size lg - 1 /\ 1 <= lg_outstanding lg.

Section log_write.
Context {EN : Env} (me : nat) (pid st : Z).

Lemma frame_acq_lock lk s : frame [Fhart; Flocks] s (acq lk s).
Proof. unfold acq. frame_solve. Qed.

Lemma thread_acq_log s : thread_ok me pid s -> thread_ok me pid (acq LLog s).
Proof.
  intros [Hh Hm Hp Hl Hpr Hb Hs]. split; try done.
  - by apply hart_ok_hpush.
  - intros i. unfold acq. kfields. by rewrite lookup_insert_ne.
  - unfold acq. kfields. by rewrite lookup_insert_ne.
  - intros l. unfold acq. kfields. by rewrite lookup_insert_ne.
Qed.

(** The search for the block in the header. *)
Lemma wp_find_logged bl n Q s :
  log_is st bl s -> Forall block_no bl ->
  (forall k, bl !! k = Some n -> Q (Some (Z.of_nat k)) s) -> (n ∉ bl -> Q None s) ->
  wp (kfind (seqZ 0 (Z.of_nat (length bl))) (fun k =>
        v ← lh_get k; mret (if u32 v =? n then Some k else None))) Q s.
Proof.
  intros Hli Hbl Hyes Hno.
  apply (wp_kfind (fun pre s' => s' = s /\ n ∉ take (length pre) bl)).
  - split; [done|]. simpl. set_solver.
  - intros pre x post s1 [-> Hlt]%seqZ_middle [-> Hn].
    destruct (lookup_lt_is_Some_2 bl (length pre) Hlt) as [v Hv].
    unfold lh_get. kstep. rewrite Nat2Z.id, (li_block _ _ _ Hli _ _ Hv). kstep.
    rewrite u32_small by (pose proof (Forall_lookup_1 _ _ _ _ Hbl Hv) as [??]; lia).
    destruct (Z.eqb_spec v n) as [->|Hne]; [by apply Hyes|]. split; [done|].
    rewrite length_app, Nat.add_1_r. erewrite take_S_r by done. set_solver.
  - intros s1 [-> Hn]. apply Hno. by rewrite length_seqZ, Nat2Z.id, firstn_all in Hn.
Qed.

(** The counts after [log_write] of block [n]: a block that is new to the transaction is pinned. *)
Definition pin (bl : list Z) (n : Z) (R : Z -> Z) : Z -> Z := if decide (n ∈ bl) then R else <[n := R n + 1]> R.

Lemma log_is_put bl s n : log_is st bl s -> (length bl < 30)%nat ->
  log_is st (bl ++ [n])
    (s <| k_log ::= set lh_block <[length bl := n]> |> <| k_log ::= set lh_n (fun n => n + 1) |>).
Proof.
  intros [Hd Hs Hn Hb Hl] Hlen. split; kfields; simpl; [done|done|rewrite length_app; simpl; lia| |by rewrite length_insert].
  intros k b [Hk|[Hk Hc]]%lookup_app_Some.
  - rewrite list_lookup_insert_ne; [by apply Hb|]. apply lookup_lt_Some in Hk. lia.
  - apply list_lookup_singleton_Some in Hc as [Hk' <-]. replace k with (length bl) by lia.
    apply list_lookup_insert_eq. lia.
Qed.

Lemma log_is_same bl s k n : log_is st bl s -> bl !! k = Some n ->
  (k_log s) <| lh_block ::= <[k := n]> |> = k_log s.
Proof.
  intros [_ _ _ Hb _] Hk. destruct (k_log s) as [? ? ? ? ? ? l] eqn:E. unfold set. simpl. f_equal.
  apply list_insert_id. specialize (Hb _ _ Hk). by rewrite ?E in Hb.
Qed.

(** The end of [log_write] for a block that is in the transaction already. *)
Lemma wp_log_absorb bl k n Q s :
  thread_ok me pid s -> k_locks s !! LLog = None -> log_is st bl s -> bl !! k = Some n ->
  (forall s', log_is st bl s' -> frame [Flog] s s' -> lg_outstanding (k_log s') = lg_outstanding (k_log s) ->
     lg_size (k_log s') = lg_size (k_log s) -> lg_committing (k_log s') = lg_committing (k_log s) -> Q tt s') ->
  wp (lh_put (Z.of_nat k) n;; when false (mret tt);; release LLog) Q (acq LLog s).
Proof.
  intros Ht Hlk Hli Hk HQ. pose proof (lookup_lt_Some _ _ _ Hk) as Hlt. kstep.
  assert (k < 30)%nat as Hk30.
  { rewrite <- (li_len _ _ _ Hli). eapply lookup_lt_Some, (li_block _ _ _ Hli _ _ Hk). }
  apply wp_lh_put; [by rewrite (li_len _ _ _ Hli : length (lh_block (k_log (acq LLog s))) = _)|]. kstep.
  apply (wp_release_frame [Flog] _ _ s); [apply Ht|done|frame_solve|done|done|].
  intros F. apply HQ; try done. destruct Hli as [? ? ? ? ?]. split; kfields; simpl; try done.
  - intros j c Hj. destruct (decide (j = k)) as [->|]; [|rewrite list_lookup_insert_ne by done; auto].
    rewrite list_lookup_insert_eq by lia. by simplify_eq.
  - by rewrite length_insert.
Qed.

(** The end of [log_write] for a new block of the transaction. *)
Lemma wp_log_append R H V bl i n Q s :
  thread_ok me pid s -> k_locks s !! LLog = None -> cache pid R H V s -> (i, n) ∈ H ->
  log_is st bl s -> (length bl < 30)%nat -> 0 <= R n < 2 ^ 30 ->
  (forall s', cache pid (<[n := R n + 1]> R) H V s' -> log_is st (bl ++ [n]) s' -> frame [Fbufs; Flog] s s' ->
     lg_outstanding (k_log s') = lg_outstanding (k_log s) -> lg_size (k_log s') = lg_size (k_log s) ->
     lg_committing (k_log s') = lg_committing (k_log s) -> Q tt s') ->
  wp (lh_put (Z.of_nat (length bl)) n;; (bpin i;; upd_log (set lh_n (fun n => n + 1)));; release LLog) Q (acq LLog s).
Proof.
  intros Ht Hlk C Hin Hli Hlen HR HQ. kstep.
  pose proof (cache_frame _ _ _ _ _ _ _ (frame_acq_lock LLog s) eq_refl eq_refl eq_refl C) as C1.
  apply wp_lh_put; [by rewrite (li_len _ _ _ Hli : length (lh_block (k_log (acq LLog s))) = _)|]. kstep.
  match goal with |- wp (bpin i) _ ?x => set (s2 := x) end.
  assert (frame [Flog] (acq LLog s) s2) as F2 by frame_solve.
  eapply (wp_bpin_block me pid); [|by eapply cache_frame; [exact F2|..]|exact Hin|done|].
  { eapply thread_ok_bframe; [by apply bframe_frame|done|done|by apply thread_acq_log]. }
  intros s3 C3 F3. unfold upd_log. kstep. frame_use F3 Flog.
  apply (wp_release_frame [Fbufs; Flog] _ _ s); [apply Ht|done| |done|done|].
  { etrans; [eapply frame_more; [|exact F2]; done|]. etrans; [eapply frame_more; [|exact F3]; done|]. frame_solve. }
  intros F. apply HQ; [| |exact F|..]; try (kfields; simpl; rewrite <- Hfr; done).
  - eapply (cache_frame _ [Fhart; Flocks; Flog]); [|done..|exact C3]. frame_solve.
  - destruct (log_is_put bl s n Hli Hlen). split; kfields; simpl in *; rewrite <- Hfr; done.
Qed.

Lemma wp_log_write R H V bl i n Q s :
  thread_ok me pid s -> k_locks s !! LLog = None -> cache pid R H V s -> (i, n) ∈ H -> block_no n ->
  log_is st bl s -> Forall block_no bl -> can_log (k_log s) -> 0 <= R n < 2 ^ 30 ->
  (forall s', cache pid (pin bl n R) H V s' -> log_is st (absorb bl n) s' -> frame [Fbufs; Flog] s s' ->
     lg_outstanding (k_log s') = lg_outstanding (k_log s) -> lg_size (k_log s') = lg_size (k_log s) ->
     lg_committing (k_log s') = lg_committing (k_log s) -> Q tt s') ->
  wp (log_write i) Q s.
Proof.
  intros Ht Hlk C Hin Hn Hli Hbl (Hc1 & Hc2 & Hc3) HR HQ. unfold log_write. kstep.
  assert (i32 n = n) as Hi32 by (apply i32_small; destruct Hn; lia).
  rewrite (proj2 (Z.leb_gt _ _)) by lia. rewrite (proj2 (Z.leb_gt _ _)) by lia. cbn [orb].
  rewrite (proj2 (Z.ltb_ge _ _)) by lia. kstep. apply wp_acquire; [apply Ht|done|].
  assert (log_is st bl (acq LLog s)) as Hli1 by (by destruct Hli).
  destruct (cache_held _ _ _ _ _ _ _ C Hin) as (b & Hb & [_ Hbn] & _ & _ & _).
  eapply wp_bind, wp_gets, wp_bind, wp_get_buf; [exact Hb|]. rewrite Hbn, (li_n _ _ _ Hli1).
  apply wp_bind, wp_find_logged; [done..| |].
  - intros k Hk. unfold default, from_option, id. rewrite Hi32, (proj2 (Z.eqb_neq _ _)) by (apply lookup_lt_Some in Hk; lia).
    apply (wp_log_absorb bl k n); [done..|]. intros s' Hli' F ? ? ?.
    unfold pin, absorb in HQ. rewrite !decide_True in HQ by (by eapply list_elem_of_lookup_2).
    apply HQ; try done; [by eapply cache_frame; [exact F|..]|]. by eapply frame_more; [|exact F].
  - intros Hnew. unfold default, from_option, id. rewrite Hi32, Z.eqb_refl. unfold pin, absorb in HQ.
    rewrite !decide_False in HQ by done. eapply wp_log_append; try done.
    rewrite (li_n _ _ _ Hli) in Hc1. revert Hc1. consts. lia.
Qed.
End log_write.

(** [log_write] when the log is full. *)
Lemma log_write_full {EN : Env} i s :
  LOGSIZE <= lh_n (k_log s) \/ lg_size (k_log s) - 1 <= lh_n (k_log s) ->
  stops (log_write i) (Panic "too big a transaction") s.
Proof.
  intros Hfull. unfold log_write. apply stops_later, wp_gets. apply stops_bind. set (lg := k_log s) in *.
  replace ((LOGSIZE <=? lh_n lg) || (lg_size lg - 1 <=? lh_n lg)) with true; [apply stops_here|].
  symmetry. apply orb_true_iff. rewrite !Z.leb_le. lia.
Qed.

(** ** Beginning and ending an operation *)

Lemma wp_bind_inv {A B} (m : K A) (f : A -> K B) Q s : wp (m ≫= f) Q s -> wp m (fun a s' => wp (f a) Q s') s.
Proof. unfold wp, mbind, K_bind. by destruct (m s). Qed.

Section ops.
Context {EN : Env} (me : nat) (pid : Z).

(** [begin_op] when no commit is running and the log has room for one operation more. *)
Lemma wp_begin_op Q s :
  thread_ok me pid s -> k_locks s !! LLog = None -> lg_committing (k_log s) = 0 ->
  lh_n (k_log s) + (lg_outstanding (k_log s) + 1) * MAXOPBLOCKS <= LOGSIZE ->
  (forall s', frame [Flog] s s' -> k_log s' = (k_log s) <| lg_outstanding ::= fun n => n + 1 |> -> Q tt s') ->
  wp begin_op Q s.
Proof.
  intros Ht Hlk Hc Hroom HQ. unfold begin_op. kstep. apply wp_acquire; [apply Ht|done|]. cbn [kloop]. kstep.
  change (k_log (acq LLog s)) with (k_log s). rewrite Hc. change (negb (0 =? 0)) with false. cbv iota.
  rewrite (proj2 (Z.ltb_ge _ _) Hroom). unfold upd_log. kstep.
  apply (wp_release_frame [Flog] _ _ s); [apply Ht|done|frame_solve|done|done|]. intros F. kstep. by apply HQ.
Qed.

(** [end_op] of an operation that is not the last one running. *)
Lemma wp_end_op_more Q s :
  thread_ok me pid s -> k_locks s !! LLog = None -> lg_committing (k_log s) = 0 -> 1 < lg_outstanding (k_log s) ->
  (forall s', bframe [Flog] s s' -> k_log s' = (k_log s) <| lg_outstanding ::= fun n => n - 1 |> -> Q tt s') ->
  wp end_op Q s.
Proof.
  intros Ht Hlk Hc Ho HQ. unfold end_op, upd_log. kstep. apply wp_acquire; [apply Ht|done|]. kstep.
  match goal with |- wp _ _ ?x => set (s1 := x) end. change (lg_committing (k_log s1)) with (lg_committing (k_log s)). rewrite Hc.
  change (negb (0 =? 0)) with false. cbv iota. kstep.
  change (lg_outstanding (k_log s1)) with (lg_outstanding (k_log s) - 1). rewrite (proj2 (Z.eqb_neq _ _)) by lia. kstep.
  assert (frame [Flog] (acq LLog s) s1) as F1 by (unfold s1; frame_solve).
  eapply wp_mono; [apply (wp_wake_release [Flog] LLog CLog tt (fun _ => Q tt) s); [apply Ht..|done|done|exact F1|done|done|done|]|].
  - intros s' F Hsame. apply HQ; [done|]. by rewrite <- (Hsame Flog ltac:(by left)).
  - intros [] s2 H2. kstep. apply wp_bind_inv in H2. eapply wp_mono; [exact H2|]. intros [] s3 H3. exact H3.
Qed.

(** [end_op] of the last operation: it commits. *)
Lemma wp_end_op_last Q s :
  thread_ok me pid s -> k_locks s !! LLog = None -> lg_committing (k_log s) = 0 -> lg_outstanding (k_log s) = 1 ->
  (forall s1, frame [Flog] s s1 -> k_log s1 = (k_log s) <| lg_outstanding := 0 |> <| lg_committing := 1 |> ->
     wp commit (fun _ s2 => thread_ok me pid s2 /\ k_locks s2 !! LLog = None /\
       forall s3, bframe [Flog] s2 s3 -> k_log s3 = (k_log s2) <| lg_committing := 0 |> -> Q tt s3) s1) ->
  wp end_op Q s.
Proof.
  intros Ht Hlk Hc Ho HQ. unfold end_op, upd_log. kstep. apply wp_acquire; [apply Ht|done|]. kstep.
  match goal with |- wp _ _ ?x => set (s1 := x) end. change (lg_committing (k_log s1)) with (lg_committing (k_log s)). rewrite Hc.
  change (negb (0 =? 0)) with false. cbv iota. kstep.
  change (lg_outstanding (k_log s1)) with (lg_outstanding (k_log s) - 1). rewrite Ho. change (1 - 1 =? 0) with true. cbv iota. kstep.
  apply (wp_release_frame [Flog] _ _ s); [apply Ht|done|unfold s1; frame_solve|done|done|]. intros F. unfold when. kstep.
  eapply wp_mono; [apply HQ; [exact F|]|].
  - change ((k_log s) <| lg_outstanding := lg_outstanding (k_log s) - 1 |> <| lg_committing := 1 |> = (k_log s) <| lg_outstanding := 0 |> <| lg_committing := 1 |>).
    by rewrite Ho.
  - intros [] s2 (Ht2 & Hlk2 & HQ2). kstep. apply wp_acquire; [apply Ht2|done|]. kstep.
    match goal with |- wp _ _ ?x => set (s3 := x) end. assert (frame [Flog] (acq LLog s2) s3) as F3 by (unfold s3; frame_solve).
    eapply wp_mono; [apply (wp_wake_release [Flog] LLog CLog tt (fun _ => Q tt) s2); [apply Ht2..|done|done|exact F3|done|done|done|]|].
    + intros s' F' Hsame. apply HQ2; [done|]. by rewrite <- (Hsame Flog ltac:(by left)).
    + intros [] s4 H4. apply wp_bind_inv in H4. eapply wp_mono; [exact H4|]. intros [] s5 H5. exact H5.
Qed.
End ops.

(** C13. [log_write] of a buffer in hand, on every branch. While the header has room (fewer blocks than [LOGSIZE] and than the log's own size less one) and an operation is running, it returns: the header lists the block exactly once (a block already listed is absorbed), a block that is new to the transaction is pinned in the cache, and the contents of the cache are unchanged. With a full header it panics, also for a block that is listed already, and so it does outside of an operation. *)
Theorem log_write_refines {EN : Env} me pid st R H V bl i n s :
  thread_ok me pid s -> k_locks s !! LLog = None -> cache pid R H V s -> (i, n) ∈ H -> block_no n ->
  log_is st bl s -> Forall block_no bl -> NoDup bl -> 0 <= R n < 2 ^ 30 ->
  let lg := k_log s in
  if decide (lh_n lg < LOGSIZE /\ lh_n lg < lg_size lg - 1) then
    if decide (1 <= lg_outstanding lg) then
      wp (log_write i) (fun _ s' =>
        cache pid (pin bl n R) H V s' /\ log_is st (absorb bl n) s' /\ NoDup (absorb bl n) /\ n ∈ absorb bl n /\
        lg_outstanding (k_log s') = lg_outstanding lg /\ frame [Fbufs; Flog] s s') s
    else stops (log_write i) (Panic "log_write outside of trans") s
  else stops (log_write i) (Panic "too big a transaction") s.
Proof.
  intros Ht Hlk C Hin Hn Hli Hbl Hnd HR lg. destruct (decide _) as [[Hc1 Hc2]|Hfull]; [destruct (decide _) as [Ho|Ho]|].
  - eapply (wp_log_write me pid st); [done..| |done|]; [by split_and!|]. intros s' C' Hli' F Ho' _ _.
    split_and!; [done|done| | |done|done]; unfold absorb; case_decide; try set_solver.
    apply NoDup_app. split_and!; [done|set_solver|apply NoDup_singleton].
  - unfold log_write. apply stops_later, wp_gets. fold lg. rewrite (proj2 (Z.leb_gt _ _)) by lia.
    rewrite (proj2 (Z.leb_gt _ _)) by lia. cbn [orb]. apply stops_later, wp_ret. apply stops_bind.
    rewrite (proj2 (Z.ltb_lt _ _)) by lia. apply stops_here.
  - apply log_write_full. fold lg. lia.
Qed.

Section example.
#[local] Existing Instance small_machine.

(** One operation runs, the log is empty, and block 40 is held. *)
Definition small_open : kstate := small_boot <| k_log := mklog 2 30 1 0 1 0 (replicate 30 0) |>.
Definition small_held : kstate := match bread ROOTDEV 40 small_open with Ok _ s => s | Stop _ s => s end.

Lemma small_bread :
  wp (bread ROOTDEV 40) (fun i s => run 0 1 small_open [] (<[40 := 1]> no_refs) [(i, 40)] small_disk s) small_open.
Proof.
  assert (frame [Flog] small_boot small_open) as F by frame_solve.
  pose proof (run_start 0 1 _ _ _ _ small_boot_thread small_boot_cache) as R0.
  pose proof (run_rebase _ _ _ _ _ _ _ _ _ _ R0 F eq_refl) as R1. clear R0 F.
  eapply run_bread; [exact R1|reflexivity|apply not_elem_of_nil| |unfold no_refs; lia| |by intros i s' Hr].
  - intros m Hm. by apply not_elem_of_nil in Hm.
  - right. exists []. split; [done|simpl; consts; lia].
Qed.

Lemma small_held_run : run 0 1 small_open [] (<[40 := 1]> no_refs) [(29%nat, 40)] small_disk small_held.
Proof.
  destruct (wp_inv _ _ _ small_bread) as (i & s & Hs & Hr).
  assert (bread ROOTDEV 40 small_open = Ok 29%nat small_held) as Hb by (vm_compute; reflexivity).
  rewrite Hb in Hs. by injection Hs as <- <-.
Qed.

Lemma log_write_refines_witness :
  wp (log_write 29) (fun _ s' =>
    cache 1 (pin [] 40 (<[40 := 1]> no_refs)) [(29%nat, 40)] small_disk s' /\
    log_is 2 (absorb [] 40) s' /\ NoDup (absorb [] 40) /\ 40 ∈ absorb [] 40 /\
    lg_outstanding (k_log s') = lg_outstanding (k_log small_held) /\ frame [Fbufs; Flog] small_held s') small_held.
Proof.
  pose proof small_held_run as Hr. pose proof (run_log 0 1 _ _ _ _ _ _ Hr) as Hlog.
  epose proof (log_write_refines 0 1 2 (<[40 := 1]> no_refs) [(29%nat, 40)] small_disk [] 29 40 small_held
    _ _ _ _ _ _ _ _ _) as HW.
  cbv zeta in HW. rewrite Hlog in HW. change (k_log small_open) with (mklog 2 30 1 0 1 0 (replicate 30 0)) in HW, Hlog.
  rewrite decide_True in HW by (consts; simpl; lia). rewrite decide_True in HW by (simpl; lia). rewrite Hlog. exact HW.
  Unshelve.
  - apply Hr.
  - reflexivity.
  - apply Hr.
  - left.
  - unfold block_no. lia.
  - split; rewrite Hlog; done.
  - constructor.
  - constructor.
  - rewrite fn_lookup_insert. lia.
Defined.
End example.
