(* ===== verification/Fs.v ===== *)
(** The file system, [kernel/fs.c]: blocks, inodes, file contents, directories and path
    names, over the buffer cache and the log.

    An inode pointer is its index in the inode cache.  Names and paths are the
    bytes of C strings.  [struct dinode], [struct dirent] and [struct superblock] are read and
    written at their offsets in a block. *)
From S2P Require Import Prelude Types Kstate Cstring Spinlock Frame Printf Accounting Kalloc Vm Proc Bio Log.
From stdpp Require Import base numbers list gmap strings.
From Stdlib Require Import ZArith Lia.

Local Open Scope Z_scope.
Local Open Scope xv6_scope.

Section fs.
Context `{Env}.

(** ** Bytes of a buffer *)

Definition buf_load (n : nat) (i : nat) (off : Z) : K Z :=
  b ← get_buf i;
  if bool_decide (Z.to_nat off + n <= length (b_data b))%nat then mret (load n (Z.to_nat off) (b_data b)) else fault.
Definition buf_store (n : nat) (i : nat) (off v : Z) : K unit :=
  b ← get_buf i;
  if bool_decide (Z.to_nat off + n <= length (b_data b))%nat
  then upd_buf i (set b_data (store n (Z.to_nat off) v)) else fault.
Definition buf_splice (i : nat) (off : Z) (bytes : list Z) : K unit :=
  b ← get_buf i;
  if bool_decide (Z.to_nat off + length bytes <= length (b_data b))%nat
  then upd_buf i (set b_data (splice (Z.to_nat off) bytes)) else fault.

(** ** The super block *)

Definition readsb (dev : Z) : K superblock :=
  bp ← bread dev 1;
  magic ← buf_load 4 bp 0; size ← buf_load 4 bp 4; nblocks ← buf_load 4 bp 8;
  ninodes ← buf_load 4 bp 12; nlog ← buf_load 4 bp 16; logstart ← buf_load 4 bp 20;
  inodestart ← buf_load 4 bp 24; bmapstart ← buf_load 4 bp 28;
  brelse bp;;
  mret (mksb magic size nblocks ninodes nlog logstart inodestart bmapstart).

Definition fsinit (dev : Z) : K unit :=
  sb ← readsb dev;
  modify (set k_sb (fun _ => sb));;
  (if negb (sb_magic sb =? FSMAGIC) then panic "invalid file system" else mret tt);;
  initlog dev sb.

(** ** Blocks *)

Definition bzero (dev bno : Z) : K unit :=
  bp ← bread dev (u32 bno);
  b ← get_buf bp;
  data ← deref (memset (b_data b) 0 (Z.to_nat BSIZE));
  upd_buf bp (set b_data (fun _ => data));;
  log_write bp;;
  brelse bp.

(** [updatecontdsk] for the container of the current process, or the root container at boot. *)
Definition charge_blocks (chg : Z) : K Z :=
  o ← myproc;
  if bool_decide (o <> None) then
    i ← curproc; p ← get_proc i; updatecontdsk chg (p_cont p)
  else
    c ← cid2cont (Z.of_nat ROOTCONT); updatecontdsk chg c;; mret 1.

Definition bfree (dev b : Z) : K unit :=
  sb ← gets k_sb;
  bp ← bread dev (u32 (BBLOCK b sb));
  let bi := b mod BPB in
  let m := Z.shiftl 1 (bi mod 8) in
  d ← buf_load 1 bp (bi / 8);
  (if Z.land d m =? 0 then panic "freeing free block" else mret tt);;
  buf_store 1 bp (bi / 8) (Z.land d (Z.lnot m));;
  charge_blocks (u64 (- BSIZE));;
  log_write bp;;
  brelse bp.

(** The bitmap blocks: [for(b = 0; b < sb.size; b += BPB)]. *)
Definition bitmap_starts (size : Z) : list Z := (fun k => BPB * k) <$> seqZ 0 ((size + BPB - 1) / BPB).

(** Over the container's disk limit the block number passed to [bfree] is [b], the first one of
    the bitmap block. *)
Definition balloc (dev : Z) : K Z :=
  sb ← gets k_sb;
  r ← kfind (bitmap_starts (sb_size sb)) (fun b =>
    bp ← bread dev (u32 (BBLOCK b sb));
    r ← kfind (seqZ 0 (Z.min BPB (sb_size sb - b))) (fun bi =>
      let m := Z.shiftl 1 (bi mod 8) in
      d ← buf_load 1 bp (bi / 8);
      if Z.land d m =? 0 then
        buf_store 1 bp (bi / 8) (Z.lor d m);;
        log_write bp;;
        brelse bp;;
        bzero dev (b + bi);;
        x ← charge_blocks BSIZE;
        if x <? 0 then
          bfree dev b;;
          i ← curproc; p ← get_proc i;
          climitexceedhandler (p_cont p);;
          mret (Some 0)
        else mret (Some (b + bi))
      else mret None);
    match r with
    | Some v => mret (Some v)
    | None => brelse bp;; mret None
    end);
  mret (default 0 r).

(** ** Inodes *)

Definition iinit : K unit :=
  initlock LIcache;;
  kfor (seq 0 NINODE) (fun i => initsleeplock (SLInode i)).

(** The loop remembers the first entry without references. *)
Definition iget (dev inum : Z) : K nat :=
  acquire LIcache;;
  r ← kloop (S NINODE) (fun '(k, empty) =>
    if bool_decide (k < NINODE)%nat then
      ip ← get_inode k;
      if (0 <? i_ref ip) && (i_dev ip =? dev) && (i_inum ip =? inum) then
        upd_inode k (set i_ref (fun n => i32 (n + 1)));;
        release LIcache;;
        mret (inr (inl k))
      else mret (inl (S k, if bool_decide (empty = None) && (i_ref ip =? 0) then Some k else empty))
    else mret (inr (inr empty))) (0%nat, None);
  match r with
  | inl k => mret k
  | inr None => panic "iget: no inodes"
  | inr (Some k) =>
    upd_inode k (fun ip => ip <| i_dev := dev |> <| i_inum := inum |> <| i_ref := 1 |> <| i_valid := 0 |>);;
    release LIcache;;
    mret k
  end.

(** The offset of [struct dinode] number [inum] in its block. *)
Definition dinode_off (inum : Z) : Z := DINODE_SIZE * (inum mod IPB).

Definition ialloc (dev type : Z) : K nat :=
  sb ← gets k_sb;
  r ← kfind (seqZ 1 (sb_ninodes sb - 1)) (fun inum =>
    bp ← bread dev (u32 (IBLOCK inum sb));
    t ← buf_load 2 bp (dinode_off inum);
    if i16 t =? 0 then
      buf_splice bp (dinode_off inum) (replicate (Z.to_nat DINODE_SIZE) 0);;
      buf_store 2 bp (dinode_off inum) type;;
      log_write bp;;
      brelse bp;;
      ip ← iget dev inum;
      mret (Some ip)
    else brelse bp;; mret None);
  match r with
  | Some ip => mret ip
  | None => panic "ialloc: no inodes"
  end.

Definition iupdate (ip : nat) : K unit :=
  sb ← gets k_sb;
  n ← get_inode ip;
  bp ← bread (i_dev n) (u32 (IBLOCK (i_inum n) sb));
  let off := dinode_off (i_inum n) in
  buf_store 2 bp off (i_type n);;
  buf_store 2 bp (off + 2) (i_major n);;
  buf_store 2 bp (off + 4) (i_minor n);;
  buf_store 2 bp (off + 6) (i_nlink n);;
  buf_store 4 bp (off + 8) (i_size n);;
  buf_splice bp (off + 12) (concat (le_bytes 4 <$> i_addrs n));;
  log_write bp;;
  brelse bp.

Definition idup (ip : nat) : K nat :=
  acquire LIcache;;
  upd_inode ip (set i_ref (fun n => i32 (n + 1)));;
  release LIcache;;
  mret ip.

Definition ilock (oip : option nat) : K unit :=
  match oip with
  | None => panic "ilock"
  | Some ip =>
    n ← get_inode ip;
    (if i_ref n <? 1 then panic "ilock" else mret tt);;
    acquiresleep (SLInode ip);;
    n ← get_inode ip;
    when (i_valid n =? 0)
      (sb ← gets k_sb;
       bp ← bread (i_dev n) (u32 (IBLOCK (i_inum n) sb));
       let off := dinode_off (i_inum n) in
       type ← buf_load 2 bp off;
       major ← buf_load 2 bp (off + 2);
       minor ← buf_load 2 bp (off + 4);
       nlink ← buf_load 2 bp (off + 6);
       size ← buf_load 4 bp (off + 8);
       b ← get_buf bp;
       let addrs := (fun k => load 4 (Z.to_nat (off + 12) + 4 * k) (b_data b)) <$> seq 0 13 in
       upd_inode ip (fun n => n <| i_type := i16 type |> <| i_major := i16 major |> <| i_minor := i16 minor |>
                               <| i_nlink := i16 nlink |> <| i_size := size |> <| i_addrs := addrs |>);;
       brelse bp;;
       upd_inode ip (set i_valid (fun _ => 1));;
       (if i16 type =? 0 then panic "ilock: no type" else mret tt))
  end.

Definition iunlock (oip : option nat) : K unit :=
  match oip with
  | None => panic "iunlock"
  | Some ip =>
    h ← holdingsleep (SLInode ip);
    n ← get_inode ip;
    (if negb h || (i_ref n <? 1) then panic "iunlock" else mret tt);;
    releasesleep (SLInode ip)
  end.

(** ** Contents of inodes *)

(** [ip->addrs[k]] *)
Definition get_addr (ip : nat) (k : Z) : K Z := n ← get_inode ip; deref (i_addrs n !! Z.to_nat k).
Definition set_addr (ip : nat) (k v : Z) : K unit :=
  n ← get_inode ip;
  if bool_decide (Z.to_nat k < length (i_addrs n))%nat
  then upd_inode ip (set i_addrs <[Z.to_nat k := v]>) else fault.

Definition bmap (ip : nat) (bn : Z) : K Z :=
  n ← get_inode ip;
  if bn <? NDIRECT then
    addr ← get_addr ip bn;
    if addr =? 0 then
      addr ← balloc (i_dev n);
      set_addr ip bn addr;;
      mret addr
    else mret addr
  else
    let bn := bn - NDIRECT in
    if bn <? NINDIRECT then
      addr ← get_addr ip NDIRECT;
      addr ← (if addr =? 0 then
                addr ← balloc (i_dev n);
                set_addr ip NDIRECT addr;;
                mret addr
              else mret addr);
      bp ← bread (i_dev n) addr;
      addr ← buf_load 4 bp (4 * bn);
      addr ← (if addr =? 0 then
                addr ← balloc (i_dev n);
                buf_store 4 bp (4 * bn) addr;;
                log_write bp;;
                mret addr
              else mret addr);
      brelse bp;;
      mret addr
    else panic "bmap: out of range".

Definition itrunc (ip : nat) : K unit :=
  n ← get_inode ip;
  kfor (seqZ 0 NDIRECT) (fun i =>
    addr ← get_addr ip i;
    when (negb (addr =? 0)) (bfree (i_dev n) addr;; set_addr ip i 0));;
  addr ← get_addr ip NDIRECT;
  when (negb (addr =? 0))
    (bp ← bread (i_dev n) addr;
     kfor (seqZ 0 NINDIRECT) (fun j =>
       a ← buf_load 4 bp (4 * j);
       when (negb (a =? 0)) (bfree (i_dev n) a));;
     brelse bp;;
     bfree (i_dev n) addr;;
     set_addr ip NDIRECT 0);;
  upd_inode ip (set i_size (fun _ => 0));;
  iupdate ip.

Definition iput (ip : nat) : K unit :=
  acquire LIcache;;
  n ← get_inode ip;
  when ((i_ref n =? 1) && negb (i_valid n =? 0) && (i_nlink n =? 0))
    (acquiresleep (SLInode ip);;
     release LIcache;;
     itrunc ip;;
     upd_inode ip (set i_type (fun _ => 0));;
     iupdate ip;;
     upd_inode ip (set i_valid (fun _ => 0));;
     releasesleep (SLInode ip);;
     acquire LIcache);;
  upd_inode ip (set i_ref (fun n => i32 (n - 1)));;
  release LIcache.

Definition iunlockput (ip : nat) : K unit :=
  iunlock (Some ip);;
  iput ip.

(** [struct stat]: dev, ino, type, nlink, size. *)
Record stat := mkstat { st_dev : Z; st_ino : Z; st_type : Z; st_nlink : Z; st_size : Z }.

Definition stati (ip : nat) : K stat :=
  n ← get_inode ip;
  mret (mkstat (i32 (i_dev n)) (i_inum n) (i_type n) (i_nlink n) (i_size n)).

(** The value returned and the bytes stored at a [Local] destination.  The value is the clipped
    [n], whether or not the copy went through. *)
Definition readi (ip : nat) (dst : place) (off n : Z) : K (Z * list Z) :=
  nd ← get_inode ip;
  if (i_size nd <? off) || (u32 (off + n) <? off) then mret (-1, [])
  else
    let n := if i_size nd <? u32 (off + n) then i_size nd - off else n in
    acc ← kloop (S (Z.to_nat n)) (fun '(tot, off, dst, acc) =>
      if tot <? n then
        addr ← bmap ip (off / BSIZE);
        bp ← bread (i_dev nd) addr;
        let m := Z.min (n - tot) (BSIZE - off mod BSIZE) in
        b ← get_buf bp;
        let bytes := slice (Z.to_nat (off mod BSIZE)) (Z.to_nat m) (b_data b) in
        r ← either_copyout dst bytes m;
        if r =? -1 then brelse bp;; mret (inr acc)
        else brelse bp;; mret (inl (tot + m, off + m, place_add dst m, acc ++ bytes))
      else mret (inr acc)) (0, off, dst, []);
    mret (i32 n, acc).

(** A failing copy may have changed the cached block already. *)
Definition writei (ip : nat) (src : place) (off n : Z) : K Z :=
  nd ← get_inode ip;
  if (i_size nd <? off) || (u32 (off + n) <? off) then mret (-1)
  else if MAXFILE * BSIZE <? u32 (off + n) then mret (-1)
  else
    off ← kloop (S (Z.to_nat n)) (fun '(tot, off, src) =>
      if tot <? n then
        addr ← bmap ip (off / BSIZE);
        bp ← bread (i_dev nd) addr;
        let m := Z.min (n - tot) (BSIZE - off mod BSIZE) in
        x ← either_copyin src m;
        buf_splice bp (off mod BSIZE) x.2;;
        if x.1 =? -1 then brelse bp;; mret (inr off)
        else
          log_write bp;;
          brelse bp;;
          mret (inl (tot + m, off + m, place_add src m))
      else mret (inr off)) (0, off, src);
    when (0 <? n)
      (nd ← get_inode ip;
       when (i_size nd <? off) (upd_inode ip (set i_size (fun _ => off)));;
       iupdate ip);;
    mret (i32 n).

(** ** Directories *)

Definition namecmp (s t : list Z) : option Z := strncmp s t (Z.to_nat DIRSIZ).

(** Reads the directory entry at [off]: its inode number and name. *)
Definition read_dirent (dp : nat) (off : Z) (msg : string) : K (Z * list Z) :=
  x ← readi dp (Local (replicate (Z.to_nat DIRENT_SIZE) 0)) off DIRENT_SIZE;
  (if negb (x.1 =? DIRENT_SIZE) then panic msg else mret tt);;
  mret (load 2 0 x.2, drop 2 x.2).

(** The offsets of the entries of a directory. *)
Definition dirent_offs (size : Z) : list Z :=
  (fun k => DIRENT_SIZE * k) <$> seqZ 0 ((size + DIRENT_SIZE - 1) / DIRENT_SIZE).

(** The inode and the offset of its entry. *)
Definition dirlookup (dp : nat) (name : list Z) : K (option (nat * Z)) :=
  nd ← get_inode dp;
  (if negb (i_type nd =? T_DIR) then panic "dirlookup not DIR" else mret tt);;
  kfind (dirent_offs (i_size nd)) (fun off =>
    de ← read_dirent dp off "dirlookup read";
    if de.1 =? 0 then mret None
    else
      r ← deref (namecmp name de.2);
      if r =? 0 then ip ← iget (i_dev nd) de.1; mret (Some (ip, off))
      else mret None).

Definition dirlink (dp : nat) (name : list Z) (inum : Z) : K Z :=
  r ← dirlookup dp name;
  match r with
  | Some (ip, _) => iput ip;; mret (-1)
  | None =>
    nd ← get_inode dp;
    r ← kfind (dirent_offs (i_size nd)) (fun off =>
      de ← read_dirent dp off "dirlink read";
      mret (if de.1 =? 0 then Some off else None));
    let off := default (DIRENT_SIZE * ((i_size nd + DIRENT_SIZE - 1) / DIRENT_SIZE)) r in
    de_name ← deref (strncpy (replicate (Z.to_nat DIRSIZ) 0) name DIRSIZ);
    r ← writei dp (Local (le_bytes 2 inum ++ de_name)) off DIRENT_SIZE;
    (if negb (r =? DIRENT_SIZE) then panic "dirlink" else mret tt);;
    mret 0
  end.

(** ** Path names *)

(** Steps over the ['/'] characters in front. *)
Fixpoint skip_slashes (path : list Z) : list Z :=
  match path with
  | c :: path' => if c =? 47 then skip_slashes path' else path
  | [] => []
  end.

(** The characters up to the next ['/'] or NUL, and what follows. *)
Fixpoint split_elem (path : list Z) : list Z * list Z :=
  match path with
  | c :: path' => if (c =? 47) || (c =? 0) then ([], path)
                  else let '(e, r) := split_elem path' in (c :: e, r)
  | [] => ([], [])
  end.

(** The rest of the path and the [name] buffer of [DIRSIZ] bytes. *)
Definition skipelem (path name : list Z) : K (option (list Z * list Z)) :=
  let path := skip_slashes path in
  c ← deref (head path);
  if c =? 0 then mret None
  else
    let '(s, rest) := split_elem path in
    let len := Z.of_nat (length s) in
    name ← (if bool_decide (length name = Z.to_nat DIRSIZ) then
              if DIRSIZ <=? len then mret (take (Z.to_nat DIRSIZ) s)
              else mret (splice 0 (s ++ [0]) name)
            else fault);
    let path := skip_slashes rest in
    deref (head path);;
    mret (Some (path, name)).

(** [rootip] keeps the reference [iget] gave it. *)
Definition namex (path : list Z) (nameiparent : bool) (name : list Z) : K (option nat * list Z) :=
  rootip ← iget ROOTDEV ROOTINO;
  o ← myproc;
  c0 ← deref (head path);
  ip ← match o with
       | None => mret rootip
       | Some i =>
         p ← get_proc i;
         if c0 =? 47 then
           c ← deref (p_cont p); cont ← get_cont c; r ← deref (c_rootdir cont); idup r
         else r ← deref (p_cwd p); idup r
       end;
  kloop (S (length path)) (fun '(ip, path, name) =>
    e ← skipelem path name;
    match e with
    | None =>
      if nameiparent then iput ip;; mret (inr (None, name)) else mret (inr (Some ip, name))
    | Some (path, name) =>
      ilock (Some ip);;
      nd ← get_inode ip;
      if negb (i_type nd =? T_DIR) then iunlockput ip;; mret (inr (None, name))
      else
        c1 ← deref (head path);
        if nameiparent && (c1 =? 0) then iunlock (Some ip);; mret (inr (Some ip, name))
        else
          r ← dirlookup ip name;
          match r with
          | None => iunlockput ip;; mret (inr (None, name))
          | Some (next, _) =>
            i ← curproc; p ← get_proc i; c ← deref (p_cont p); cont ← get_cont c;
            (if negb (c_isroot cont =? 0) then iunlockput ip else iunlock (Some ip));;
            nx ← get_inode next;
            rt ← get_inode rootip;
            if negb (c_isroot cont =? 0) || negb (i_inum nx =? i_inum rt)
            then mret (inl (next, path, name)) else mret (inl (ip, path, name))
          end
    end) (ip, path, name).

(** [char name[DIRSIZ]] starts with whatever the stack holds; zeros here, every byte read is
    written first. *)
Definition namei (path : list Z) : K (option nat) :=
  r ← namex path false (replicate (Z.to_nat DIRSIZ) 0); mret r.1.

Definition nameiparent (path name : list Z) : K (option nat * list Z) := namex path true name.

(** Counts the free blocks. *)
Definition unusedblock (ip : nat) : K unit :=
  printf "\nFree blocks:\n" [];;
  sb ← gets k_sb;
  nd ← get_inode ip;
  countf ← kfold (bitmap_starts (sb_size sb)) (fun countf b =>
    bp ← bread (i_dev nd) (u32 (BBLOCK b sb));
    countf ← kfold (seqZ 0 (Z.min BPB (sb_size sb - b))) (fun countf bi =>
      d ← buf_load 1 bp (bi / 8);
      mret (if Z.land d (Z.shiftl 1 (bi mod 8)) =? 0 then countf + 1 else countf)) countf;
    brelse bp;;
    mret countf) 0;
  printf "\nTotal free blocks = %d\n" [AInt countf].

(** [strlen(de.name)] and the path it ends must stay inside [de] and [path[512]]. *)
Definition dirsize (dp : nat) (name : list Z) : K Z :=
  r ← dirlookup dp name;
  if bool_decide (r <> None) then mret (u64 (-1))
  else
    nd ← get_inode dp;
    len ← deref (strlen name);
    kfold (dirent_offs (i_size nd)) (fun size off =>
      de ← read_dirent dp off "dirsize read";
      dlen ← deref (strlen de.2);
      (if len + 1 + dlen <? 512 then mret tt else fault);;
      r ← namei (take (Z.to_nat len) name ++ [47] ++ take (Z.to_nat dlen) de.2 ++ [0]);
      match r with
      | None => mret size
      | Some ip =>
        n ← get_inode ip;
        d ← get_inode dp;
        if negb (i_inum n =? ROOTINO) && negb (i_inum n =? i_inum d) then
          ilock (Some ip);;
          n ← get_inode ip;
          iunlock (Some ip);;
          mret (u32 (size + i_size n))
        else mret size
      end) 0.
End fs.
