(* ===== verification/Content.v ===== *)
(** Files over the buffer cache and the log: what [readi], [writei] and [iupdate] of
    [kernel/fs.c] do inside a transaction.

    [view] describes a thread that uses the buffer cache: [V] is what the blocks hold (the cache over
    the disk), [bl] the blocks that the log has pinned, [dirty] the blocks changed but not yet logged
    and [H] the buffers the thread holds.  [txn] is a thread inside a transaction, [bl] the blocks of
    it.  A file is the blocks its inode lists, directly or through the indirect
    block ([block_at]); [fbyte] is its byte at an offset. *)
From S2P Require Import Prelude Types Kstate Cstring Spinlock Frame Printf Accounting Kalloc Vm Proc Bio Bcache Blocks Log Commit Transaction Fs.
From stdpp Require Import functions base numbers list gmap strings.
From Stdlib Require Import ZArith Lia.

Local Open Scope Z_scope.
Local Open Scope xv6_scope.

(** ** A thread that reads blocks, and one inside a transaction *)

(** The references: one for each block of the transaction and one for each buffer held. *)
Definition counts (bl : list Z) (H : list (nat * Z)) (n : Z) : Z :=
  (if decide (n ∈ bl) then 1 else 0) + (if decide (n ∈ H.*2) then 1 else 0).

(** What a thread sees through the cache; of the kernel's state only the cache is different from [s0]. *)
Record view (me : nat) (pid : Z) (s0 : kstate) (bl dirty : list Z) (H : list (nat * Z)) (V : disk) (s : kstate) : Prop := {
  vw_cache : cache pid (counts bl H) H V s;
  vw_thread : thread_ok me pid s;
  vw_frame : bframe [Fbufs; Flru] s0 s;
  vw_room : (length bl < NBUF)%nat;
  vw_clean n : (n ∉ bl) -> (n ∉ dirty) -> k_disk s !! n = V !! n
}.

Definition txn_fields : list field := [Fbufs; Flru; Flog].

Record txn (me : nat) (pid st : Z) (s0 : kstate) (bl dirty : list Z) (H : list (nat * Z)) (V : disk) (s : kstate) : Prop := {
  tx_cache : cache pid (counts bl H) H V s;
  tx_thread : thread_ok me pid s;
  tx_frame : bframe txn_fields s0 s;
  tx_log : log_is st bl s;
  tx_lock : k_locks s !! LLog = None;
  tx_open : 1 <= lg_outstanding (k_log s);
  tx_size : LOGSIZE <= lg_size (k_log s);
  tx_list : NoDup bl /\ Forall block_no bl /\ (length bl < NBUF)%nat;
  tx_clean n : (n ∉ bl) -> (n ∉ dirty) -> k_disk s !! n = V !! n;
  tx_kept : lg_outstanding (k_log s) = lg_outstanding (k_log s0) /\ lg_size (k_log s) = lg_size (k_log s0) /\
    lg_committing (k_log s) = lg_committing (k_log s0)
}.

Lemma counts_range bl H n : 0 <= counts bl H n <= 2.
Proof. unfold counts. repeat case_decide; lia. Qed.

(** The buffers a thread with nothing in hand refers to are those of the log. *)
Lemma counts_spare bl : (length bl < NBUF)%nat -> spare (counts bl []).
Proof.
  intros Hl. exists bl. split; [|done]. intros n. unfold counts. rewrite (decide_False (P := n ∈ [].*2)) by set_solver.
  case_decide; [done|]. lia.
Qed.

Lemma absorb_elem bl n q : q ∈ absorb bl n -> (q ∈ bl) \/ q = n.
Proof. unfold absorb. case_decide; set_solver. Qed.

Lemma absorb_new bl n : n ∈ absorb bl n.
Proof. unfold absorb. case_decide; set_solver. Qed.

Lemma length_absorb bl n : (length (absorb bl n) <= length bl + 1)%nat.
Proof. unfold absorb. case_decide; rewrite ?length_app; simpl; lia. Qed.

Section view.
Context {EN : Env} (me : nat) (pid : Z) (s0 : kstate).
Implicit Types (s : kstate) (H : list (nat * Z)) (V : disk).
Abbreviation view := (view me pid s0).

Lemma view_step bl dirty dirty' H H' V V' s s' :
  view bl dirty H V s -> cache pid (counts bl H') H' V' s' -> bframe [Fbufs; Flru] s s' ->
  (forall n, (n ∉ bl) -> (n ∉ dirty') -> k_disk s !! n = V' !! n) -> view bl dirty' H' V' s'.
Proof.
  intros [C Ht F Hbl Hc] C' F' Hc'. split; try done.
  - by eapply thread_ok_bframe.
  - by etrans.
  - intros n ??. rewrite <- (bframe_get Fdisk _ _ _ F' eq_refl : k_disk s = k_disk s'). auto.
Qed.

Lemma view_bread bl dirty V n d Q s :
  view bl dirty [] V s -> V !! n = Some d ->
  (forall i s', view bl dirty [(i, n)] V s' -> Q i s') -> wp (bread ROOTDEV n) Q s.
Proof.
  intros T HV HQ. pose proof T as [C Ht _ Hlen Hc].
  eapply wp_bread_block; [exact Ht|exact C|exact HV|set_solver|set_solver| | |].
  - pose proof (counts_range bl [] n). lia.
  - right. by apply counts_spare.
  - intros i s' C' F. apply HQ. eapply view_step; [exact T| | |exact Hc].
    + eapply cache_ext; [|reflexivity|exact C']. intros m. simpl.
      destruct (decide (m = n)) as [->|Hne]; [rewrite fn_lookup_insert|rewrite fn_lookup_insert_ne by done];
        unfold counts; simpl; repeat case_decide; try done; set_solver.
    + eapply bframe_more; [|by apply bframe_frame]. done.
Qed.

Lemma view_brelse bl i n V d Q s :
  view bl [] [(i, n)] V s -> V !! n = Some d -> (forall s', view bl [] [] V s' -> Q tt s') -> wp (brelse i) Q s.
Proof.
  intros T HV HQ. pose proof T as [C Ht _ _ Hc].
  assert (counts bl [(i, n)] n = counts bl [] n + 1) as Hcn by (unfold counts; simpl; repeat case_decide; set_solver).
  eapply wp_brelse_block; [exact Ht|exact C|exact HV| | |].
  - pose proof (counts_range bl [(i, n)] n). lia.
  - rewrite Hcn. intros E. rewrite Hc; [done| |set_solver]. intros Hin. unfold counts in E. rewrite decide_True in E by done.
    case_decide; lia.
  - intros s' C' F. apply HQ. eapply view_step; [exact T| |exact F|exact Hc].
    eapply cache_ext; [|reflexivity|exact C']. intros m.
    destruct (decide (m = n)) as [->|Hne]; [rewrite fn_lookup_insert|rewrite fn_lookup_insert_ne by done]; [lia|].
    unfold counts; simpl. repeat case_decide; set_solver.
Qed.

(** The data of a buffer in hand. *)
Lemma view_buffer bl dirty i n V s :
  view bl dirty [(i, n)] V s ->
  exists b, k_bufs s !! i = Some b /\ V !! n = Some (b_data b) /\ length (b_data b) = Z.to_nat BSIZE.
Proof.
  intros T. destruct (cache_held _ _ _ _ _ i n (vw_cache _ _ _ _ _ _ _ _ T)) as (b & Hb & _ & _ & HV & Hl); [by left|].
  by exists b.
Qed.

Lemma view_quiet bl dirty H V s s' : view bl dirty H V s -> frame [] s s' -> view bl dirty H V s'.
Proof.
  intros T F. pose proof T as [C _ _ _ Hc]. eapply view_step; [exact T| | |exact Hc].
  - by eapply cache_frame; [exact F|..].
  - apply (bframe_more []); [done|]. by apply bframe_frame.
Qed.
End view.

Section txn.
Context {EN : Env} (me : nat) (pid st : Z) (s0 : kstate).
Implicit Types (s : kstate) (H : list (nat * Z)) (V : disk).
Abbreviation txn := (txn me pid st s0).

(** A thread inside a transaction reads as any other does, and stays inside. *)
Lemma txn_view bl dirty H V s : txn bl dirty H V s -> view me pid s bl dirty H V s.
Proof. intros [C Ht _ _ _ _ _ (_ & _ & Hl) Hc]. by split. Qed.

Lemma view_txn bl dirty dirty' H H' V V' s s' :
  txn bl dirty H V s -> view me pid s bl dirty' H' V' s' -> txn bl dirty' H' V' s'.
Proof.
  intros [C Ht F Hli Hlk Ho Hs Hbl Hc Hk] [C' Ht' F' _ Hc'].
  pose proof (bframe_get Flog _ _ _ F' eq_refl : k_log s = k_log s') as E.
  pose proof (bframe_get Flocks _ _ _ F' eq_refl : k_locks s = k_locks s') as El.
  split; try done.
  - etrans; [exact F|]. by eapply bframe_more; [|exact F'].
  - destruct Hli. split; by rewrite <- E.
  - congruence.
  - by rewrite <- E.
  - by rewrite <- E.
  - by rewrite <- E.
Qed.

(** The parts of a transaction that other steps leave alone. *)
Lemma txn_step bl dirty dirty' H H' V V' s s' :
  txn bl dirty H V s -> cache pid (counts bl H') H' V' s' -> bframe [Fbufs; Flru] s s' ->
  (forall n, (n ∉ bl) -> (n ∉ dirty') -> k_disk s !! n = V' !! n) -> txn bl dirty' H' V' s'.
Proof. intros T C F Hc. eapply view_txn; [exact T|]. eapply view_step; [by apply txn_view|done..]. Qed.

Lemma txn_bread bl dirty V n d Q s :
  txn bl dirty [] V s -> V !! n = Some d ->
  (forall i s', txn bl dirty [(i, n)] V s' -> Q i s') -> wp (bread ROOTDEV n) Q s.
Proof.
  intros T HV HQ. eapply view_bread; [by apply txn_view|exact HV|]. intros i s' T'. apply HQ. by eapply view_txn.
Qed.

Lemma txn_brelse bl i n V d Q s :
  txn bl [] [(i, n)] V s -> V !! n = Some d -> (forall s', txn bl [] [] V s' -> Q tt s') -> wp (brelse i) Q s.
Proof.
  intros T HV HQ. eapply view_brelse; [by apply txn_view|exact HV|]. intros s' T'. apply HQ. by eapply view_txn.
Qed.

Lemma txn_data bl dirty i n V s :
  txn bl dirty [(i, n)] V s ->
  exists b, k_bufs s !! i = Some b /\ V !! n = Some (b_data b) /\ length (b_data b) = Z.to_nat BSIZE.
Proof. intros T. eapply view_buffer. by apply txn_view. Qed.

Lemma txn_fill bl dirty i n V d f Q s :
  txn bl dirty [(i, n)] V s -> (forall m, m ∈ dirty -> m = n) -> V !! n = Some d -> length (f d) = Z.to_nat BSIZE ->
  (forall s', txn bl [n] [(i, n)] (<[n := f d]> V) s' -> Q tt s') -> wp (upd_buf i (set b_data f)) Q s.
Proof.
  intros T Hd HV Hl HQ. pose proof T as [C _ _ _ _ _ _ _ Hc].
  eapply wp_fill; [exact C|by left| |exact HV|exact Hl|].
  - unfold counts. simpl. rewrite (decide_True (P := n ∈ [n])) by set_solver. case_decide; lia.
  - intros s' C' F. apply HQ. eapply txn_step; [exact T|exact C'| |].
    + eapply bframe_more; [|by apply bframe_frame]. done.
    + intros m Hm Hn. rewrite lookup_insert_ne by set_solver. apply Hc; [done|]. intros ?%Hd. set_solver.
Qed.

Lemma absorb_list bl n : block_no n -> NoDup bl -> Forall block_no bl -> NoDup (absorb bl n) /\ Forall block_no (absorb bl n).
Proof.
  intros Hn Hd Hf. unfold absorb. case_decide; [done|]. split; [|apply Forall_app; auto].
  apply NoDup_app. split_and!; [done|set_solver|apply NoDup_singleton].
Qed.

Lemma txn_log_write bl dirty i n V Q s :
  txn bl dirty [(i, n)] V s -> (forall m, m ∈ dirty -> m = n) -> block_no n -> (S (length bl) < NBUF)%nat ->
  (forall s', txn (absorb bl n) [] [(i, n)] V s' -> Q tt s') -> wp (log_write i) Q s.
Proof.
  intros T Hd Hn Hlen HQ. pose proof T as [C Ht F Hli Hlk Ho Hs (Hnd & Hbl & Hl) Hc Hk].
  destruct (absorb_list bl n Hn Hnd Hbl) as [Hnd' Hbl'].
  eapply wp_log_write; [exact Ht|exact Hlk|exact C|by left|done|exact Hli|done| | |].
  - unfold can_log. rewrite (li_n _ _ _ Hli).
    revert Hs Hlen. consts. lia.
  - pose proof (counts_range bl [(i, n)] n). lia.
  - intros s' C' Hli' F' Ho' Hs' Hc3. apply HQ.
    assert (bframe [Fbufs; Flog] s s') as Fb by (by apply bframe_frame).
    pose proof (bframe_get Flocks _ _ _ Fb eq_refl : k_locks s = k_locks s') as El. split; try done.
    + eapply cache_ext; [|reflexivity|exact C']. intros m. unfold pin, absorb. case_decide as Hin; [done|].
      destruct (decide (m = n)) as [->|Hne]; [rewrite fn_lookup_insert|rewrite fn_lookup_insert_ne by done];
        unfold counts; simpl; repeat case_decide; try done; set_solver.
    + by eapply thread_ok_bframe.
    + etrans; [exact F|]. by eapply bframe_more; [|exact Fb].
    + congruence.
    + by rewrite Ho'.
    + by rewrite Hs'.
    + split_and!; [done|done|]. unfold absorb. case_decide; rewrite ?length_app; simpl; lia.
    + intros m Hm _. rewrite <- (bframe_get Fdisk _ _ _ Fb eq_refl : k_disk s = k_disk s').
      apply Hc; [|intros ->%Hd]; revert Hm; unfold absorb; case_decide; set_solver.
    + by rewrite Ho', Hs', Hc3.
Qed.
End txn.

(** The blocks of a transaction, in the cache, can be committed. *)
Lemma counts_committable st sz bl h V :
  LOGSIZE <= sz -> Forall (home_block st sz) bl -> NoDup bl -> (length bl < NBUF)%nat ->
  (forall n, n ∈ bl -> is_Some (V !! n)) -> V !! st = Some h ->
  (forall k, Z.of_nat k + 1 < sz -> is_Some (V !! slot st k)) ->
  exists ds, committable st sz bl ds h (counts bl []) V.
Proof.
  intros Hsz Hh Hnd Hlen Hs Hst Hsl. assert (30 <= sz) as Hsz' by (revert Hsz; consts; lia).
  assert (Z.of_nat (length bl) < 30) as Hlen' by (revert Hlen; consts; lia).
  assert (exists ds, Forall2 (fun n d => V !! n = Some d) bl ds) as [ds Hds].
  { clear - Hs. induction bl as [|n bl IH]; [by exists []|]. destruct (Hs n) as [x Hx]; [by left|].
    destruct IH as [ds Hds]; [intros; apply Hs; by right|]. exists (x :: ds). by constructor. }
  assert (forall n, ~ home_block st sz n -> counts bl [] n = 0) as Hz.
  { intros n Hn. unfold counts. rewrite decide_False, decide_False; [done|apply not_elem_of_nil|].
    intros Hin. by apply Hn, (Forall_forall (home_block st sz) bl). }
  exists ds. split; try done.
  - split; [exact Hh|lia|lia|done].
  - intros k Hk. apply Hsl. lia.
  - intros n Hn. unfold counts. rewrite decide_True by done. case_decide; lia.
  - intros k Hk. apply Hz. unfold home_block, slot. lia.
  - apply Hz. unfold home_block. lia.
  - by apply counts_spare.
Qed.

(** ** The bytes of a file *)

Definition addr (nd : inode) (k : Z) : Z := default 0 (i_addrs nd !! Z.to_nat k).

(** The block that holds block [k] of the file. *)
Definition block_at (V : disk) (nd : inode) (k : Z) : Z :=
  if k <? NDIRECT then addr nd k
  else match V !! addr nd NDIRECT with
       | Some d => load 4 (Z.to_nat (4 * (k - NDIRECT))) d
       | None => 0
       end.

Definition fbyte (V : disk) (nd : inode) (off : Z) : option Z :=
  d ← V !! block_at V nd (off / BSIZE); d !! Z.to_nat (off mod BSIZE).

(** The file has [bytes] from [off] on. *)
Definition fbytes (V : disk) (nd : inode) (off : Z) (bytes : list Z) : Prop :=
  forall i b, bytes !! i = Some b -> fbyte V nd (off + Z.of_nat i) = Some b.

(** The number of blocks of a file of [size] bytes. *)
Definition nblocks (size : Z) : Z := (size + BSIZE - 1) / BSIZE.

(** Every block of the file is allocated. *)
Record file_ok (V : disk) (nd : inode) : Prop := {
  fi_dev : i_dev nd = ROOTDEV;
  fi_size : 0 <= i_size nd <= MAXFILE * BSIZE;
  fi_addrs : length (i_addrs nd) = 13%nat;
  fi_block k : 0 <= k < nblocks (i_size nd) ->
    block_at V nd k <> 0 /\ exists d, V !! block_at V nd k = Some d /\ length d = Z.to_nat BSIZE;
  fi_indirect : NDIRECT < nblocks (i_size nd) -> addr nd NDIRECT <> 0
}.

Lemma file_indirect V nd : file_ok V nd -> NDIRECT < nblocks (i_size nd) -> is_Some (V !! addr nd NDIRECT).
Proof.
  intros Hf Hn. destruct (fi_block _ _ Hf NDIRECT) as [Hb _]; [by consts; lia|].
  unfold block_at in Hb. change (NDIRECT <? NDIRECT) with false in Hb. destruct (V !! addr nd NDIRECT); [by eexists|done].
Qed.

Lemma nblocks_off size off : 0 <= off < size -> 0 <= off / BSIZE < nblocks size.
Proof. unfold nblocks, BSIZE. intros. Z.to_euclidean_division_equations. lia. Qed.

Lemma nblocks_max nd V : file_ok V nd -> nblocks (i_size nd) <= MAXFILE.
Proof.
  intros Hf. pose proof (fi_size _ _ Hf) as Hs. unfold nblocks. revert Hs. consts. intros.
  Z.to_euclidean_division_equations. lia.
Qed.

Section reading.
Context {EN : Env} (me : nat) (pid : Z) (s0 : kstate) (ip : nat) (nd : inode).
Hypothesis Hip : k_inodes s0 !! ip = Some nd.
Implicit Types (s : kstate) (V : disk).
Abbreviation view := (view me pid s0).

Lemma view_inode bl dirty H V s : view bl dirty H V s -> k_inodes s !! ip = Some nd.
Proof. intros T. by rewrite <- (bframe_get Finodes _ _ _ (vw_frame _ _ _ _ _ _ _ _ T) eq_refl : k_inodes s0 = k_inodes s). Qed.

Lemma wp_get_addr bl dirty H V k Q s :
  view bl dirty H V s -> file_ok V nd -> 0 <= k <= NDIRECT -> Q (addr nd k) s -> wp (get_addr ip k) Q s.
Proof.
  intros T Hf Hk HQ. unfold get_addr. kstep. eapply wp_get_inode; [by eapply view_inode|].
  destruct (lookup_lt_is_Some_2 (i_addrs nd) (Z.to_nat k)) as [a Ha].
  { rewrite (fi_addrs _ _ Hf). revert Hk. consts. lia. }
  kstep. eapply wp_deref; [exact Ha|]. unfold addr in HQ. by rewrite Ha in HQ.
Qed.

(** [bmap] of an allocated block. *)
Lemma view_bmap bl V k Q s :
  view bl [] [] V s -> file_ok V nd -> 0 <= k < nblocks (i_size nd) ->
  (forall s', view bl [] [] V s' -> Q (block_at V nd k) s') -> wp (bmap ip k) Q s.
Proof.
  intros T Hf Hk HQ. destruct (fi_block _ _ Hf k Hk) as [Hb _]. pose proof (nblocks_max _ _ Hf) as Hmax.
  unfold bmap. kstep. eapply wp_get_inode; [by eapply view_inode|]. unfold block_at in *.
  destruct (Z.ltb_spec k NDIRECT) as [Hd|Hd].
  - kstep. eapply wp_get_addr; [done..|lia|]. rewrite (proj2 (Z.eqb_neq _ 0)) by done. kstep. by apply HQ.
  - rewrite (proj2 (Z.ltb_lt _ _)) by (unfold MAXFILE in Hmax; lia).
    destruct (file_indirect V nd Hf) as [d Hd']; [lia|]. rewrite Hd' in *.
    kstep. eapply wp_get_addr; [done..|by consts; lia|].
    rewrite (proj2 (Z.eqb_neq _ 0)) by (apply (fi_indirect _ _ Hf); lia). kstep.
    rewrite (fi_dev _ _ Hf). eapply view_bread; [exact T|exact Hd'|]. intros i s1 T1. kstep.
    destruct (view_buffer _ _ _ _ _ _ _ _ _ T1) as (b & Hbuf & HVb & Hlen). simplify_eq.
    unfold buf_load. kstep. rewrite bool_decide_eq_true_2.
    2: { rewrite Hlen. unfold MAXFILE in Hmax. change NINDIRECT with 256 in Hmax. unfold BSIZE. lia. }
    kstep. rewrite (proj2 (Z.eqb_neq _ 0)) by done. kstep. eapply view_brelse; [exact T1|done|]. intros s2 T2. kstep. by apply HQ.
Qed.

(** ** Reading *)

Lemma wp_copyout_local bl dirty H V buf src Q s :
  view bl dirty H V s -> (forall s', view bl dirty H V s' -> Q 0 s') ->
  wp (either_copyout (Local buf) src (Z.of_nat (length src))) Q s.
Proof.
  intros T HQ. pose proof (vw_thread _ _ _ _ _ _ _ _ T) as [Hh Hme (p & Hp & _) _ _ _ _]. unfold either_copyout. kstep.
  apply (wp_curproc_frame me); [done..|]. intros s1 F. frame_use F Fprocs. kstep.
  eapply wp_get_proc; [by rewrite <- Hfr|]. kstep. rewrite bool_decide_eq_true_2 by lia. kstep. apply HQ. by eapply view_quiet.
Qed.

(** The bytes of the file that one turn of the loop reads. *)
Lemma fbytes_slice V off m d :
  0 <= off -> 0 <= m <= BSIZE - off mod BSIZE -> V !! block_at V nd (off / BSIZE) = Some d -> length d = Z.to_nat BSIZE ->
  fbytes V nd off (slice (Z.to_nat (off mod BSIZE)) (Z.to_nat m) d).
Proof.
  intros Ho Hm HV Hl i b Hi. unfold slice in Hi. pose proof (Z.mod_pos_bound off BSIZE ltac:(done)).
  assert (i < Z.to_nat m)%nat as Hlt.
  { apply lookup_lt_Some in Hi. rewrite length_take in Hi. lia. }
  rewrite lookup_take_lt, lookup_drop in Hi by done. unfold fbyte.
  assert ((off + Z.of_nat i) / BSIZE = off / BSIZE /\ (off + Z.of_nat i) mod BSIZE = off mod BSIZE + Z.of_nat i) as [-> ->].
  { unfold BSIZE in *. Z.to_euclidean_division_equations. lia. }
  rewrite HV. simpl. rewrite Z2Nat.inj_add, Nat2Z.id by lia. done.
Qed.

Lemma fbytes_app V off xs ys :
  fbytes V nd off xs -> fbytes V nd (off + Z.of_nat (length xs)) ys -> fbytes V nd off (xs ++ ys).
Proof.
  intros Hx Hy i b [Hi|[Hle Hi]]%lookup_app_Some; [by apply Hx|].
  specialize (Hy _ _ Hi). by replace (off + Z.of_nat i) with (off + Z.of_nat (length xs) + Z.of_nat (i - length xs)) by lia.
Qed.

(** How many bytes [readi] reads. *)
Definition clip (size off n : Z) : Z := if size <? off + n then size - off else n.

Lemma view_readi bl V buf off n Q s :
  view bl [] [] V s -> file_ok V nd -> 0 <= off <= i_size nd -> 0 <= n -> off + n < 2 ^ 32 ->
  (forall bytes s', view bl [] [] V s' -> Z.of_nat (length bytes) = clip (i_size nd) off n -> fbytes V nd off bytes ->
     Q (clip (i_size nd) off n, bytes) s') ->
  wp (readi ip (Local buf) off n) Q s.
Proof.
  intros T Hf Ho Hn Hov HQ. pose proof (fi_size _ _ Hf) as Hs. change (MAXFILE * BSIZE) with 274432 in Hs.
  unfold readi. kstep. eapply wp_get_inode; [by eapply view_inode|].
  rewrite u32_small by lia. rewrite (proj2 (Z.ltb_ge _ _)), (proj2 (Z.ltb_ge (off + n) off)) by lia. cbn [orb].
  fold (clip (i_size nd) off n). set (m := clip (i_size nd) off n) in *.
  assert (0 <= m /\ off + m <= i_size nd) as [Hm Hend].
  { unfold m, clip. destruct (Z.ltb_spec (i_size nd) (off + n)); lia. }
  kstep. apply (wp_kloop (fun '(tot, o, dst, acc) s => view bl [] [] V s /\ o = off + tot /\ 0 <= tot <= m /\
    (exists buf, dst = Local buf) /\ Z.of_nat (length acc) = tot /\ fbytes V nd off acc)
    (fun '(tot, _, _, _) => Z.to_nat (m - tot))).
  - split_and!; try done; [lia|by eexists].
  - lia.
  - intros [[[tot o] dst] acc] s1 (T1 & -> & Htot & [buf1 ->] & Hacc & Hfb).
    destruct (Z.ltb_spec tot m) as [Hlt|Hge]; kstep.
    2: { replace tot with m in * by lia. rewrite i32_small by lia. by apply HQ. }
    assert (0 <= (off + tot) / BSIZE < nblocks (i_size nd)) as Hk by (apply nblocks_off; lia).
    destruct (fi_block _ _ Hf _ Hk) as [_ (d & HV & Hl)].
    eapply view_bmap; [done..|]. intros s2 T2. kstep. rewrite (fi_dev _ _ Hf).
    eapply view_bread; [exact T2|exact HV|]. intros i s3 T3. kstep.
    destruct (view_buffer _ _ _ _ _ _ _ _ _ T3) as (b & Hbuf & HVb & Hlen). rewrite HV in HVb. injection HVb as ->. kstep.
    set (mm := Z.min (m - tot) (BSIZE - (off + tot) mod BSIZE)).
    pose proof (Z.mod_pos_bound (off + tot) BSIZE ltac:(done)) as Hmod.
    assert (0 < mm <= BSIZE - (off + tot) mod BSIZE) as Hmm by lia.
    set (bytes := slice _ _ _).
    assert (length bytes = Z.to_nat mm) as Hbl by (apply length_slice; rewrite Hl; unfold BSIZE in *; lia).
    replace mm with (Z.of_nat (length bytes)) at 1 by lia. eapply wp_copyout_local; [exact T3|]. intros s4 T4. change (0 =? -1) with false. cbv iota. kstep.
    eapply view_brelse; [exact T4|exact HV|]. intros s5 T5. kstep. split_and!; try lia; try done.
    + by eexists.
    + rewrite length_app. lia.
    + apply fbytes_app; [done|]. rewrite Hacc. apply fbytes_slice; [lia|lia|done|done].
Qed.

End reading.

Section content.
Context {EN : Env} (me : nat) (pid st : Z) (s0 : kstate) (ip : nat) (nd : inode).
Hypothesis Hip : k_inodes s0 !! ip = Some nd.
Implicit Types (s : kstate) (V : disk).
Abbreviation txn := (txn me pid st s0).

Lemma txn_inode bl dirty H V s : txn bl dirty H V s -> k_inodes s !! ip = Some nd.
Proof. intros T. by rewrite <- (bframe_get Finodes _ _ _ (tx_frame _ _ _ _ _ _ _ _ _ T) eq_refl : k_inodes s0 = k_inodes s). Qed.

Lemma wp_bmap bl V k Q s :
  txn bl [] [] V s -> file_ok V nd -> 0 <= k < nblocks (i_size nd) ->
  (forall s', txn bl [] [] V s' -> Q (block_at V nd k) s') -> wp (bmap ip k) Q s.
Proof.
  intros T Hf Hk HQ. eapply (view_bmap me pid s ip nd); [by eapply txn_inode|by eapply txn_view|done|done|].
  intros s' T'. apply HQ. by eapply view_txn.
Qed.

Lemma wp_readi bl V buf off n Q s :
  txn bl [] [] V s -> file_ok V nd -> 0 <= off <= i_size nd -> 0 <= n -> off + n < 2 ^ 32 ->
  (forall bytes s', txn bl [] [] V s' -> Z.of_nat (length bytes) = clip (i_size nd) off n -> fbytes V nd off bytes ->
     Q (clip (i_size nd) off n, bytes) s') ->
  wp (readi ip (Local buf) off n) Q s.
Proof.
  intros T Hf Ho Hn Hov HQ. eapply (view_readi me pid s ip nd); [by eapply txn_inode|by eapply txn_view|done..|].
  intros bytes s' T'. apply HQ. by eapply view_txn.
Qed.

(** ** Changing a block *)

Lemma txn_splice bl dirty i n V d off bytes Q s :
  txn bl dirty [(i, n)] V s -> (forall m, m ∈ dirty -> m = n) -> V !! n = Some d ->
  0 <= off -> off + Z.of_nat (length bytes) <= BSIZE ->
  (forall s', txn bl [n] [(i, n)] (<[n := splice (Z.to_nat off) bytes d]> V) s' -> Q tt s') ->
  wp (buf_splice i off bytes) Q s.
Proof.
  intros T Hd HV Ho Hl HQ. destruct (txn_data _ _ _ _ _ _ _ _ _ _ T) as (b & Hbuf & HVb & Hlen).
  rewrite HV in HVb. injection HVb as ->. unfold buf_splice. kstep.
  assert (Z.to_nat off + length bytes <= length (b_data b))%nat as Hfit by (rewrite Hlen; unfold BSIZE in *; lia).
  rewrite bool_decide_eq_true_2 by done. eapply txn_fill; [exact T|done|exact HV| |exact HQ].
  rewrite length_splice; done.
Qed.

Lemma buf_store_splice n i off v : buf_store n i off v = buf_splice i off (le_bytes n v).
Proof. unfold buf_store, buf_splice. by rewrite length_le_bytes. Qed.

Lemma splice_length off (bytes d : list Z) : 0 <= off -> off + Z.of_nat (length bytes) <= BSIZE -> length d = Z.to_nat BSIZE ->
  length (splice (Z.to_nat off) bytes d) = Z.to_nat BSIZE.
Proof. intros ? ? Hd. rewrite length_splice; [done|]. rewrite Hd. unfold BSIZE in *. lia. Qed.

(** ** Writing the inode *)

Definition dinode_bytes (n : inode) : list Z :=
  le_bytes 2 (i_type n) ++ le_bytes 2 (i_major n) ++ le_bytes 2 (i_minor n) ++ le_bytes 2 (i_nlink n) ++
  le_bytes 4 (i_size n) ++ concat (le_bytes 4 <$> i_addrs n).

Lemma length_addr_bytes l : length (concat (le_bytes 4 <$> l)) = (4 * length l)%nat.
Proof. induction l as [|a l IH]; [done|]. rewrite fmap_cons. cbn [concat]. rewrite length_app, length_le_bytes, IH. simpl. lia. Qed.

Lemma length_dinode_bytes : length (i_addrs nd) = 13%nat -> length (dinode_bytes nd) = 64%nat.
Proof. intros Ha. unfold dinode_bytes. rewrite !length_app, !length_le_bytes, length_addr_bytes, Ha. done. Qed.

(** Adjacent pieces of a block. *)
Lemma splice_app {A} o (xs ys l : list A) : (o + length xs + length ys <= length l)%nat ->
  splice (o + length xs) ys (splice o xs l) = splice o (xs ++ ys) l.
Proof.
  intros Hl. unfold splice. assert (length (take o l) = o) as Ht by (rewrite length_take; lia).
  rewrite take_app_ge by (rewrite Ht; lia). rewrite Ht. replace (o + length xs - o)%nat with (length xs) by lia.
  rewrite take_app_length. rewrite drop_app_ge by (rewrite Ht; lia). rewrite Ht.
  replace (o + length xs + length ys - o)%nat with (length xs + length ys)%nat by lia.
  rewrite drop_app_ge by lia. rewrite drop_drop, length_app. rewrite <- !app_assoc. do 4 f_equal. lia.
Qed.

Lemma txn_patch bl dirty i n V d off bytes Q s :
  txn bl dirty [(i, n)] (<[n := d]> V) s -> (forall m, m ∈ dirty -> m = n) ->
  0 <= off -> off + Z.of_nat (length bytes) <= BSIZE ->
  (forall s', txn bl [n] [(i, n)] (<[n := splice (Z.to_nat off) bytes d]> V) s' -> Q tt s') ->
  wp (buf_splice i off bytes) Q s.
Proof.
  intros T Hd Ho Hl HQ. eapply txn_splice; [exact T|done|by rewrite lookup_insert_eq|done|done|].
  intros s' T'. apply HQ. by rewrite insert_insert_eq in T'.
Qed.

Lemma dinode_off_range inum : 0 <= dinode_off inum <= BSIZE - 64.
Proof. unfold dinode_off. change IPB with 16. unfold DINODE_SIZE, BSIZE. pose proof (Z.mod_pos_bound inum 16). lia. Qed.

Definition inode_block : Z := IBLOCK (i_inum nd) (k_sb s0).
Definition with_dinode (d : list Z) : list Z := splice (Z.to_nat (dinode_off (i_inum nd))) (dinode_bytes nd) d.

Lemma with_dinode_pieces d : length (i_addrs nd) = 13%nat -> length d = Z.to_nat BSIZE ->
  let o := dinode_off (i_inum nd) in
  splice (Z.to_nat (o + 12)) (concat (le_bytes 4 <$> i_addrs nd))
   (splice (Z.to_nat (o + 8)) (le_bytes 4 (i_size nd))
    (splice (Z.to_nat (o + 6)) (le_bytes 2 (i_nlink nd))
     (splice (Z.to_nat (o + 4)) (le_bytes 2 (i_minor nd))
      (splice (Z.to_nat (o + 2)) (le_bytes 2 (i_major nd))
       (splice (Z.to_nat o) (le_bytes 2 (i_type nd)) d))))) = with_dinode d.
Proof.
  intros Ha Hd o. pose proof (dinode_off_range (i_inum nd)) as Hr. fold o in Hr. unfold BSIZE in *.
  unfold with_dinode, dinode_bytes. fold o. set (p := Z.to_nat o).
  replace (Z.to_nat (o + 2)) with (p + length (le_bytes 2 (i_type nd)))%nat by (rewrite length_le_bytes; lia).
  rewrite splice_app by (rewrite !length_le_bytes; lia).
  replace (Z.to_nat (o + 4)) with (p + length (le_bytes 2 (i_type nd) ++ le_bytes 2 (i_major nd)))%nat
    by (rewrite length_app, !length_le_bytes; lia).
  rewrite splice_app by (rewrite length_app, !length_le_bytes; lia). rewrite <- !app_assoc.
  match goal with |- context [splice (Z.to_nat (o + 6)) _ (splice _ ?x _)] =>
    replace (Z.to_nat (o + 6)) with (p + length x)%nat by (rewrite !length_app, !length_le_bytes; lia);
    rewrite splice_app by (rewrite !length_app, !length_le_bytes; lia) end. rewrite <- !app_assoc.
  match goal with |- context [splice (Z.to_nat (o + 8)) _ (splice _ ?x _)] =>
    replace (Z.to_nat (o + 8)) with (p + length x)%nat by (rewrite !length_app, !length_le_bytes; lia);
    rewrite splice_app by (rewrite !length_app, !length_le_bytes; lia) end. rewrite <- !app_assoc.
  match goal with |- context [splice (Z.to_nat (o + 12)) _ (splice _ ?x _)] =>
    replace (Z.to_nat (o + 12)) with (p + length x)%nat by (rewrite !length_app, !length_le_bytes; lia);
    rewrite splice_app by (rewrite length_addr_bytes, !length_app, !length_le_bytes, Ha; lia) end. by rewrite <- !app_assoc.
Qed.

Lemma wp_iupdate bl V d Q s :
  txn bl [] [] V s -> i_dev nd = ROOTDEV -> length (i_addrs nd) = 13%nat -> block_no inode_block ->
  V !! inode_block = Some d -> (S (length bl) < NBUF)%nat ->
  (forall s', txn (absorb bl inode_block) [] [] (<[inode_block := with_dinode d]> V) s' -> Q tt s') ->
  wp (iupdate ip) Q s.
Proof.
  intros T Hdev Ha Hb HV Hlen HQ. unfold iupdate. kstep. eapply wp_get_inode; [by eapply txn_inode|]. kstep.
  rewrite <- (bframe_get Fsb _ _ _ (tx_frame _ _ _ _ _ _ _ _ _ T) eq_refl : k_sb s0 = k_sb s). fold inode_block.
  rewrite Hdev, u32_small by (destruct Hb; lia). eapply txn_bread; [exact T|exact HV|]. intros i s1 T1. kstep.
  destruct (txn_data _ _ _ _ _ _ _ _ _ _ T1) as (b & _ & HVb & Hd). rewrite HV in HVb. injection HVb as ->.
  rewrite <- (insert_id V _ _ HV) in T1. pose proof (dinode_off_range (i_inum nd)) as Hr.
  rewrite !buf_store_splice. set (o := dinode_off (i_inum nd)) in *.
  eapply txn_patch; [exact T1|set_solver|lia|rewrite length_le_bytes; lia|]. clear s1 T1. intros s1 T1. kstep.
  do 4 (rewrite ?buf_store_splice; eapply txn_patch; [exact T1|set_solver|lia|rewrite length_le_bytes; lia|]; clear s1 T1; intros s1 T1; kstep).
  eapply txn_patch; [exact T1|set_solver|lia|rewrite length_addr_bytes, Ha; lia|]. clear s1 T1. intros s1 T1. kstep.
  unfold o in T1. rewrite with_dinode_pieces in T1 by done.
  eapply txn_log_write; [exact T1|set_solver|done|done|]. intros s2 T2. kstep.
  eapply txn_brelse; [exact T2|by rewrite lookup_insert_eq|]. exact HQ.
Qed.

(** ** Writing *)

(** The blocks of the file are distinct, and apart from the blocks of inodes. *)
Record file_apart (V : disk) : Prop := {
  fa_inj k k' : 0 <= k < nblocks (i_size nd) -> 0 <= k' < nblocks (i_size nd) -> block_at V nd k = block_at V nd k' -> k = k';
  fa_no k : 0 <= k < nblocks (i_size nd) -> block_no (block_at V nd k);
  fa_indirect k : NDIRECT < nblocks (i_size nd) -> 0 <= k < nblocks (i_size nd) -> block_at V nd k <> addr nd NDIRECT;
  fa_inode k : 0 <= k < nblocks (i_size nd) -> block_at V nd k <> inode_block;
  fa_inode' : NDIRECT < nblocks (i_size nd) -> addr nd NDIRECT <> inode_block
}.

(** [V'] is [V] with [bytes] written to the file at [off]. *)
Record updated (V V' : disk) (off : Z) (bytes : list Z) : Prop := {
  up_ok : file_ok V' nd;
  up_block k : 0 <= k < nblocks (i_size nd) -> block_at V' nd k = block_at V nd k;
  up_byte o : 0 <= o < i_size nd ->
    fbyte V' nd o = if decide (off <= o < off + Z.of_nat (length bytes)) then bytes !! Z.to_nat (o - off) else fbyte V nd o;
  up_other n : (forall k, 0 <= k < nblocks (i_size nd) -> block_at V nd k <> n) -> V' !! n = V !! n
}.

Lemma updated_apart V V' off bytes : updated V V' off bytes -> file_apart V -> file_apart V'.
Proof.
  intros [_ Hb _ _] [? ? ? ? ?]. split; try done; intros k; intros; rewrite ?Hb in * by done; eauto.
Qed.

Lemma updated_nil V off : file_ok V nd -> updated V V off [].
Proof. intros Hf. split; try done. intros o Ho. rewrite decide_False; [done|]. simpl. lia. Qed.

Lemma updated_trans V V1 V2 off xs ys :
  updated V V1 off xs -> updated V1 V2 (off + Z.of_nat (length xs)) ys -> updated V V2 off (xs ++ ys).
Proof.
  intros [? Hb1 Hy1 Ho1] [? Hb2 Hy2 Ho2]. split; [done|..].
  - intros k Hk. by rewrite Hb2, Hb1.
  - intros o Ho. rewrite Hy2, Hy1 by done. rewrite length_app. repeat case_decide; try lia; try done.
    + rewrite lookup_app_r by lia. f_equal. lia.
    + by rewrite lookup_app_l by lia.
  - intros n Hn. rewrite Ho2, Ho1; [done|done|]. intros k Hk. rewrite Hb1 by done. by apply Hn.
Qed.

(** A change to a block that is neither the inode's nor the indirect one keeps the map of blocks. *)
Lemma block_at_insert V k n d : (NDIRECT < nblocks (i_size nd) -> n <> addr nd NDIRECT) ->
  0 <= k < nblocks (i_size nd) -> block_at (<[n := d]> V) nd k = block_at V nd k.
Proof.
  intros Hn Hk. unfold block_at. destruct (Z.ltb_spec k NDIRECT); [done|].
  rewrite lookup_insert_ne; [done|]. apply Hn. lia.
Qed.

Lemma file_ok_insert V n d : (NDIRECT < nblocks (i_size nd) -> n <> addr nd NDIRECT) -> length d = Z.to_nat BSIZE ->
  file_ok V nd -> file_ok (<[n := d]> V) nd.
Proof.
  intros Hn Hd Hf. split; try apply Hf. intros k Hk. destruct (fi_block _ _ Hf k Hk) as [Hb (e & He & Hl)].
  rewrite block_at_insert by done. split; [done|].
  destruct (decide (n = block_at V nd k)) as [->|]; [rewrite lookup_insert_eq|rewrite lookup_insert_ne by done]; eauto.
Qed.

Lemma updated_splice V off bytes d :
  file_ok V nd -> file_apart V -> 0 <= off < i_size nd -> off mod BSIZE + Z.of_nat (length bytes) <= BSIZE ->
  V !! block_at V nd (off / BSIZE) = Some d -> length d = Z.to_nat BSIZE ->
  updated V (<[block_at V nd (off / BSIZE) := splice (Z.to_nat (off mod BSIZE)) bytes d]> V) off bytes.
Proof.
  intros Hf Ha Ho Hl HV Hd. pose proof (nblocks_off _ _ Ho) as Hk. set (k := off / BSIZE) in *.
  pose proof (Z.mod_pos_bound off BSIZE ltac:(done)) as Hm.
  assert (NDIRECT < nblocks (i_size nd) -> block_at V nd k <> addr nd NDIRECT) as Hn by (intros; by apply Ha).
  assert (length (splice (Z.to_nat (off mod BSIZE)) bytes d) = Z.to_nat BSIZE) as Hsl by (apply splice_length; [lia|lia|done]).
  split.
  - by apply file_ok_insert.
  - intros k' Hk'. by apply block_at_insert.
  - intros o Hor. pose proof (nblocks_off _ _ Hor) as Hko. unfold fbyte. rewrite block_at_insert by done.
    destruct (decide (o / BSIZE = k)) as [E|E].
    + rewrite E, lookup_insert_eq, HV. simpl. rewrite lookup_splice by (rewrite Hd; unfold BSIZE in *; lia).
      assert (o - off = o mod BSIZE - off mod BSIZE) as Eo.
      { subst k. unfold BSIZE in *. Z.to_euclidean_division_equations. lia. }
      pose proof (Z.mod_pos_bound o BSIZE ltac:(done)). repeat case_decide; try lia; [|done]. f_equal. lia.
    + rewrite lookup_insert_ne.
      * rewrite decide_False; [done|]. subst k. unfold BSIZE in *. Z.to_euclidean_division_equations. lia.
      * intros Heq. apply E. symmetry. by apply (fa_inj _ Ha).
  - intros n Hno. rewrite lookup_insert_ne; [done|]. by apply Hno.
Qed.

Lemma wp_copyin_local bl dirty H V bytes m Q s :
  txn bl dirty H V s -> (Z.to_nat m <= length bytes)%nat ->
  (forall s', txn bl dirty H V s' -> Q (0, take (Z.to_nat m) bytes) s') -> wp (either_copyin (Local bytes) m) Q s.
Proof.
  intros T Hm HQ. pose proof (tx_thread _ _ _ _ _ _ _ _ _ T) as [Hh Hme (p & Hp & _) _ _ _ _]. unfold either_copyin. kstep.
  apply (wp_curproc_frame me); [done..|]. intros s1 F. frame_use F Fprocs. kstep.
  eapply wp_get_proc; [by rewrite <- Hfr|]. kstep. rewrite bool_decide_eq_true_2 by done. kstep. apply HQ. eapply view_txn; [exact T|]. eapply view_quiet; [by eapply txn_view|done].
Qed.

(** The blocks [writei] may add to the transaction for the bytes up to [off + tot]. *)
Definition touched (off tot : Z) : Z := if tot =? 0 then 0 else nblocks (off + tot) - off / BSIZE.

Lemma touched_step off tot m : 0 <= off -> 0 <= tot -> 0 < m <= BSIZE - (off + tot) mod BSIZE ->
  tot = 0 \/ (off + tot) mod BSIZE = 0 -> touched off tot + 1 <= touched off (tot + m).
Proof.
  intros Ho Ht Hm Hb. unfold touched, nblocks. rewrite (proj2 (Z.eqb_neq (tot + m) 0)) by lia.
  unfold BSIZE in *. destruct (Z.eqb_spec tot 0); Z.to_euclidean_division_equations; lia.
Qed.

Lemma touched_mono off tot m : 0 <= off -> 0 <= tot -> 0 <= m -> touched off tot <= touched off (tot + m).
Proof.
  intros. unfold touched, nblocks, BSIZE. destruct (Z.eqb_spec tot 0), (Z.eqb_spec (tot + m) 0);
    Z.to_euclidean_division_equations; lia.
Qed.

(** One turn of the loop of [writei]. *)
Lemma wp_write_turn {X} bl V o src m (e r : X) Q s :
  txn bl [] [] V s -> file_ok V nd -> file_apart V -> 0 <= o < i_size nd -> 0 < m <= BSIZE - o mod BSIZE ->
  (Z.to_nat m <= length src)%nat -> (length bl + 1 < NBUF)%nat ->
  (forall bl' V' s', txn bl' [] [] V' s' -> updated V V' o (take (Z.to_nat m) src) -> (length bl' <= length bl + 1)%nat ->
     (forall q, q ∈ bl' -> (q ∈ bl) \/ q = block_at V nd (o / BSIZE)) -> Q r s') ->
  wp (addr ← bmap ip (o / BSIZE);
      bp ← bread (i_dev nd) addr;
      x ← either_copyin (Local src) m;
      buf_splice bp (o mod BSIZE) x.2;;
      if x.1 =? -1 then brelse bp;; mret e
      else log_write bp;; brelse bp;; mret r) Q s.
Proof.
  intros T Hf Ha Ho Hm Hl Hroom HQ. pose proof (nblocks_off _ _ Ho) as Hk. pose proof (Z.mod_pos_bound o BSIZE ltac:(done)).
  destruct (fi_block _ _ Hf _ Hk) as [_ (d & HV & Hd)]. kstep.
  eapply wp_bmap; [done..|]. intros s2 T2. kstep. rewrite (fi_dev _ _ Hf).
  eapply txn_bread; [exact T2|exact HV|]. intros i s3 T3. kstep.
  eapply wp_copyin_local; [exact T3|done|]. intros s4 T4. kstep. cbn [snd].
  eapply txn_splice; [exact T4|set_solver|exact HV|lia|rewrite length_take; lia|]. intros s5 T5. cbn [fst]. change (0 =? -1) with false. cbv iota. kstep.
  eapply txn_log_write; [exact T5|set_solver|by apply Ha|lia|]. intros s6 T6. kstep.
  eapply txn_brelse; [exact T6|by rewrite lookup_insert_eq|]. intros s7 T7. kstep.
  eapply HQ; [exact T7| |apply length_absorb|by apply absorb_elem].
  apply updated_splice; [done..|rewrite length_take; lia|done|done].
Qed.

Lemma wp_writei bl V d off src Q s :
  let n := Z.of_nat (length src) in
  txn bl [] [] V s -> file_ok V nd -> file_apart V -> 0 <= off -> off + n <= i_size nd ->
  block_no inode_block -> V !! inode_block = Some d ->
  Z.of_nat (length bl) + touched off n + 1 < Z.of_nat NBUF ->
  (forall bl' V' s', txn bl' [] [] (<[inode_block := if 0 <? n then with_dinode d else d]> V') s' -> updated V V' off src ->
     Z.of_nat (length bl') <= Z.of_nat (length bl) + touched off n + 1 ->
     (forall q, q ∈ bl' -> (q ∈ bl) \/ q = inode_block \/ exists k, 0 <= k < nblocks (i_size nd) /\ q = block_at V nd k) ->
     (0 < n -> inode_block ∈ bl') -> Q n s') ->
  wp (writei ip (Local src) off n) Q s.
Proof.
  intros n T Hf Ha Ho Hend Hib HVi Hroom HQ. pose proof (fi_size _ _ Hf) as Hs. change (MAXFILE * BSIZE) with 274432 in Hs.
  unfold writei. kstep. eapply wp_get_inode; [by eapply txn_inode|]. assert (0 <= n) as Hn by lia.
  rewrite u32_small by lia. rewrite (proj2 (Z.ltb_ge _ _)), (proj2 (Z.ltb_ge (off + n) off)) by lia. cbn [orb].
  rewrite (proj2 (Z.ltb_ge _ _)) by (change (MAXFILE * BSIZE) with 274432; lia). kstep.
  apply (wp_kloop (fun '(tot, o, pl) s1 => exists bl1 V1, txn bl1 [] [] V1 s1 /\ o = off + tot /\ 0 <= tot <= n /\
      pl = Local (drop (Z.to_nat tot) src) /\ updated V V1 off (take (Z.to_nat tot) src) /\
      Z.of_nat (length bl1) <= Z.of_nat (length bl) + touched off tot /\
      (forall q, q ∈ bl1 -> (q ∈ bl) \/ exists k, 0 <= k < nblocks (i_size nd) /\ q = block_at V nd k) /\ (tot < n -> tot = 0 \/ (off + tot) mod BSIZE = 0))
    (fun '(tot, _, _) => Z.to_nat (n - tot))).
  - exists bl, V. split_and!; try done; try lia; [by apply updated_nil| |by left].
    unfold touched. simpl. lia.
  - lia.
  - intros [[tot o] pl] s1 (bl1 & V1 & T1 & -> & Htot & -> & Hup & Hbl1 & Hin1 & Hal).
    destruct (Z.ltb_spec tot n) as [Hlt|Hge].
    + pose proof (Z.mod_pos_bound (off + tot) BSIZE ltac:(done)) as Hmod.
      set (m := Z.min (n - tot) (BSIZE - (off + tot) mod BSIZE)). assert (0 < m <= BSIZE - (off + tot) mod BSIZE) as Hm by lia.
      pose proof (touched_step off tot m Ho ltac:(lia) Hm (Hal Hlt)) as Ht.
      pose proof (touched_mono off (tot + m) (n - (tot + m)) ltac:(lia) ltac:(lia) ltac:(lia)) as Ht'.
      replace (tot + m + (n - (tot + m))) with n in Ht' by lia.
      eapply wp_write_turn; [exact T1|apply Hup|by eapply updated_apart|lia|exact Hm|rewrite length_drop; lia|lia|].
      intros bl2 V2 s2 T2 Hup2 Hbl2 Hin2. split; [|lia]. exists bl2, V2. split_and!; try done; try lia.
      * simpl. rewrite drop_drop. f_equal. f_equal. lia.
      * rewrite (Z2Nat.inj_add tot m), <- take_take_drop by lia. eapply updated_trans; [exact Hup|].
        rewrite length_take. replace (Z.of_nat (Z.to_nat tot `min` length src)) with tot by lia. done.
      * intros q [?| ->]%Hin2; [by apply Hin1|]. right. exists ((off + tot) / BSIZE).
        assert (0 <= (off + tot) / BSIZE < nblocks (i_size nd)) by (apply nblocks_off; lia).
        by rewrite (up_block _ _ _ _ Hup).
      * intros Hlt'. right. unfold BSIZE in *. Z.to_euclidean_division_equations. lia.
    + replace tot with n in * by lia. rewrite take_ge in Hup by lia. kstep.
      assert (V1 !! inode_block = Some d) as HV1.
      { rewrite (up_other _ _ _ _ Hup); [done|]. intros k Hk. by apply (fa_inode _ Ha). }
      destruct (Z.ltb_spec 0 n) as [Hpos|Hz].
      * kstep. eapply wp_get_inode; [by eapply txn_inode|]. rewrite (proj2 (Z.ltb_ge _ _)) by lia. kstep.
        pose proof (length_absorb bl1 inode_block).
        eapply wp_iupdate; [exact T1|apply Hup|apply Hup|done|exact HV1|lia|]. intros s2 T2. kstep.
        rewrite i32_small by lia. eapply HQ; [exact T2|done|lia| |intros _; apply absorb_new].
        intros q [[?|?]%Hin1| ->]%absorb_elem; auto.
      * kstep. rewrite i32_small by lia. eapply HQ; [by rewrite insert_id|done|lia| |lia]. intros q [?|?]%Hin1; auto.
Qed.
End content.

(** ** What a reader sees after a write *)

Section roundtrip.
Context {EN : Env} (me : nat) (pid st : Z) (s : kstate) (ip : nat) (nd : inode).

Lemma fbyte_insert V n d o : (NDIRECT < nblocks (i_size nd) -> n <> addr nd NDIRECT) ->
  (forall k, 0 <= k < nblocks (i_size nd) -> block_at V nd k <> n) -> 0 <= o < i_size nd ->
  fbyte (<[n := d]> V) nd o = fbyte V nd o.
Proof.
  intros Hi Hb Ho. pose proof (nblocks_off _ _ Ho) as Hk. unfold fbyte. rewrite block_at_insert by done.
  rewrite lookup_insert_ne; [done|]. apply not_eq_sym. by apply Hb.
Qed.

(** The view after a write: the file with the new bytes, and the dinode. *)
Lemma written_view V V' off src d :
  let ib := inode_block s nd in
  file_apart s nd V -> updated nd V V' off src -> length d = Z.to_nat BSIZE ->
  file_ok (<[ib := d]> V') nd /\
  forall o, 0 <= o < i_size nd -> fbyte (<[ib := d]> V') nd o =
    if decide (off <= o < off + Z.of_nat (length src)) then src !! Z.to_nat (o - off) else fbyte V nd o.
Proof.
  intros ib Ha Hup Hd. assert (NDIRECT < nblocks (i_size nd) -> ib <> addr nd NDIRECT) as Hn.
  { intros H. apply not_eq_sym. by apply (fa_inode' _ _ _ Ha). }
  split; [by apply file_ok_insert; [..|apply Hup]|]. intros o Ho. rewrite fbyte_insert; [by apply Hup|done| |done].
  intros k Hk. rewrite (up_block _ _ _ _ _ Hup) by done. by apply (fa_inode _ _ _ Ha).
Qed.

(** C4. What [writei] stores in a file, [readi] returns. Inside a transaction over a log of at least [LOGSIZE] blocks, as [mkfs] makes it, in which the blocks logged so far, those the write touches and the inode's block are fewer than 30 ([log_write] panics at the thirtieth), writing bytes over an allocated part of a file and then reading any range gives the number of bytes that are inside the file, and every byte read is the one written if its offset was in the written range and the old byte otherwise; blocks that belong neither to the file nor to its inode are unchanged, and the thread is still inside the transaction with no buffer left held and every changed block in the log. *)
Theorem writei_readi bl V d off src buf o m :
  let n := Z.of_nat (length src) in
  k_inodes s !! ip = Some nd -> txn me pid st s bl [] [] V s -> file_ok V nd -> file_apart s nd V ->
  0 <= off -> off + n <= i_size nd -> block_no (inode_block s nd) -> V !! inode_block s nd = Some d ->
  length d = Z.to_nat BSIZE -> Z.of_nat (length bl) + touched off n + 1 < Z.of_nat NBUF ->
  0 <= o <= i_size nd -> 0 <= m -> o + m < 2 ^ 32 ->
  wp (r ← writei ip (Local src) off n; x ← readi ip (Local buf) o m; mret (r, x)) (fun x s' =>
    x.1 = n /\ x.2.1 = clip (i_size nd) o m /\ Z.of_nat (length x.2.2) = x.2.1 /\
    (forall i b, x.2.2 !! i = Some b ->
       let k := o + Z.of_nat i in
       (if decide (off <= k < off + n) then src !! Z.to_nat (k - off) else fbyte V nd k) = Some b) /\
    exists bl' V', txn me pid st s bl' [] [] V' s' /\
      forall q, q <> inode_block s nd -> (forall k, 0 <= k < nblocks (i_size nd) -> block_at V nd k <> q) ->
        V' !! q = V !! q) s.
Proof.
  intros n Hip T Hf Ha Ho Hend Hib HVi Hd Hroom Hor Hm Hov. kstep.
  eapply (wp_writei me pid st s ip nd); [done..|]. intros bl' V' s1 T1 Hup _ _ _. kstep.
  destruct (written_view V V' off src (if 0 <? n then with_dinode nd d else d) Ha Hup) as [Hf' Hbytes].
  { destruct (0 <? n); [|done]. unfold with_dinode. pose proof (dinode_off_range (i_inum nd)).
    rewrite splice_length; [done|lia| |done]. rewrite (length_dinode_bytes nd) by apply Hf. unfold BSIZE in *. lia. }
  eapply (wp_readi me pid st s ip nd); [done..|]. intros bytes s2 T2 Hlen Hfb. kstep. split_and!; try done.
  - intros i b Hi k. simpl in Hi. assert (0 <= k < i_size nd) as Hk.
    { subst k. apply lookup_lt_Some in Hi. unfold clip in Hlen. destruct (Z.ltb_spec (i_size nd) (o + m)); lia. }
    etrans; [symmetry; exact (Hbytes k Hk)|]. by apply Hfb.
  - eexists bl', _. split; [exact T2|]. intros q Hq Hno. rewrite lookup_insert_ne by done. by apply (up_other _ _ _ _ _ Hup).
Qed.
End roundtrip.

(** ** Example: a file of 1500 bytes in blocks 50 and 51, its inode in block 32, as [mkfs] lays out the disk *)

Definition note_inode : inode := mkinode ROOTDEV 1 1 (mksleeplock 0 0) 1 2 0 0 1 1500 (50 :: 51 :: replicate 11 0).
Definition note_disk : disk := <[32 := block_of 0]> (<[50 := block_of 5]> (<[51 := block_of 6]> ∅)).
Definition note : kstate :=
  small_boot <| k_disk := note_disk |> <| k_log := mklog 2 30 1 0 1 0 (replicate 30 0) |>
    <| k_sb := mksb FSMAGIC 1000 954 200 30 2 32 45 |> <| k_inodes ::= <[3%nat := note_inode]> |>.

Section example.
#[local] Existing Instance small_machine.

Lemma note_txn : txn 0 1 2 note [] [] [] note_disk note.
Proof.
  split; try done.
  - apply (cache_ext 1 no_refs _ []); [done|done|]. apply (zero_cache 1 note); [done..|].
    repeat apply map_Forall_insert_2; try apply length_replicate. apply map_Forall_empty.
  - eapply (thread_ok_bframe [Fdisk; Flog; Fsb; Finodes]); [|done|done|apply small_boot_thread].
    apply bframe_frame; [frame_solve|done].
  - split_and!; [by apply NoDup_nil|by apply Forall_nil|simpl; consts; lia].
Qed.

Lemma note_blocks k : 0 <= k < nblocks (i_size note_inode) ->
  k = 0 /\ block_at note_disk note_inode k = 50 \/ k = 1 /\ block_at note_disk note_inode k = 51.
Proof.
  change (nblocks (i_size note_inode)) with 2. intros Hk.
  assert (k = 0 \/ k = 1) as [-> | ->] by lia; [by left|by right].
Qed.

Lemma note_file : file_ok note_disk note_inode.
Proof.
  split; try done. intros k Hk. destruct (note_blocks k Hk) as [[_ ->]|[_ ->]];
    (split; [done|]; eexists; split; [reflexivity|apply length_replicate]).
Qed.

Lemma note_apart : file_apart note note_inode note_disk.
Proof.
  split; try done.
  - intros k k' Hk Hk'. destruct (note_blocks k Hk) as [[-> ->]|[-> ->]], (note_blocks k' Hk') as [[-> ->]|[-> ->]]; done.
  - intros k Hk. destruct (note_blocks k Hk) as [[_ ->]|[_ ->]]; unfold block_no; lia.
  - intros k Hk. by destruct (note_blocks k Hk) as [[_ ->]|[_ ->]].
Qed.

Lemma writei_readi_witness :
  let src := replicate 100 9 in
  wp (r ← writei 3 (Local src) 1000 100; x ← readi 3 (Local []) 990 2000; mret (r, x)) (fun x s' =>
    x.1 = 100 /\ x.2.1 = 510 /\ Z.of_nat (length x.2.2) = x.2.1 /\
    (forall i b, x.2.2 !! i = Some b ->
       let k := 990 + Z.of_nat i in
       (if decide (1000 <= k < 1000 + 100) then src !! Z.to_nat (k - 1000) else fbyte note_disk note_inode k) = Some b) /\
    exists bl' V', txn 0 1 2 note bl' [] [] V' s' /\
      forall q, q <> 32 -> (forall k, 0 <= k < 2 -> block_at note_disk note_inode k <> q) ->
        V' !! q = note_disk !! q) note.
Proof.
  apply (writei_readi 0 1 2 note 3 note_inode [] note_disk (block_of 0) 1000 (replicate 100 9) [] 990 2000).
  - reflexivity.
  - exact note_txn.
  - exact note_file.
  - exact note_apart.
  - lia.
  - by vm_compute.
  - unfold block_no. by vm_compute.
  - reflexivity.
  - apply length_replicate.
  - by vm_compute.
  - simpl. lia.
  - lia.
  - lia.
Defined.
End example.
