(* ===== verification/Schedule.v ===== *)
(** Operations of several processes over one log: [begin_op], [log_write] and [end_op] of
    [kernel/log.c], interleaved in any order.

    A schedule is a list of [action]s; [perform] runs one with the calls of the source.  [tstep] is
    the promise of the log: which actions may come next when every operation adds at most [b] blocks
    to the transaction, what the blocks hold then, and what is on the disk.  With [b] one less than
    [MAXOPBLOCKS] the calls keep the promise; with [b = MAXOPBLOCKS] and the log that [mkfs] makes
    they do not. *)
From S2P Require Import Prelude Types Kstate Cstring Spinlock Frame Printf Accounting Kalloc Vm Proc Bio Bcache Blocks Log Commit Transaction Fs Content.
From stdpp Require Import functions base numbers list gmap strings.
From Stdlib Require Import ZArith Lia.

Local Open Scope Z_scope.
Local Open Scope xv6_scope.

(** ** What the log promises *)

Inductive action :=
  | BeginOp (i : nat)
  | LogWrite (i : nat) (n : Z) (d : list Z)
  | EndOp (i : nat).

(** The operations that run, by process, with the blocks each may still add; the blocks of the
    transaction; the contents of the blocks, and those on the disk. *)
Record tstate := mkt { t_ops : gmap nat nat; t_bl : list Z; t_now : disk; t_disk : disk }.

Definition idle (D : disk) : tstate := mkt ∅ [] D D.

Section tstep.
Context (st sz : Z) (b : nat).

Definition admitted (t : tstate) : Prop :=
  Z.of_nat (length (t_bl t)) + (Z.of_nat (size (t_ops t)) + 1) * MAXOPBLOCKS <= LOGSIZE.

(** A block an operation with [r] blocks left may write. *)
Definition writable (t : tstate) (r : nat) (n : Z) (d : list Z) : Prop :=
  home_block st sz n /\ is_Some (t_now t !! n) /\ length d = Z.to_nat BSIZE /\ (n ∈ t_bl t \/ (0 < r)%nat).
#[global] Instance writable_dec t r n d : Decision (writable t r n d).
Proof. unfold writable, home_block, block_no. apply _. Defined.

Definition tstep (a : action) (t : tstate) : option tstate :=
  match a with
  | BeginOp i =>
      if decide ((i < NPROC)%nat /\ t_ops t !! i = None /\ admitted t)
      then Some (mkt (<[i := b]> (t_ops t)) (t_bl t) (t_now t) (t_disk t)) else None
  | LogWrite i n d =>
      r ← t_ops t !! i;
      if decide (writable t r n d)
      then Some (mkt (if decide (n ∈ t_bl t) then t_ops t else <[i := pred r]> (t_ops t))
                     (absorb (t_bl t) n) (<[n := d]> (t_now t)) (t_disk t)) else None
  | EndOp i =>
      _ ← t_ops t !! i;
      let ops := delete i (t_ops t) in
      Some (if decide (ops = ∅) then mkt ∅ [] (t_now t) (t_now t) else mkt ops (t_bl t) (t_now t) (t_disk t))
  end.

Fixpoint tsteps (acts : list action) (t : tstate) : option tstate :=
  match acts with
  | [] => Some t
  | a :: acts => t' ← tstep a t; tsteps acts t'
  end.

Lemma tsteps_app acts acts' t : tsteps (acts ++ acts') t = tsteps acts t ≫= tsteps acts'.
Proof. revert t. induction acts as [|a acts IH]; intros t; [done|]. simpl. destruct (tstep a t); simpl; [apply IH|done]. Qed.

(** The blocks the running operations may still add. *)
Definition pending (ops : gmap nat nat) : nat := map_fold (fun _ r acc => (r + acc)%nat) 0%nat ops.

Lemma pending_insert i r ops : ops !! i = None -> pending (<[i := r]> ops) = (r + pending ops)%nat.
Proof. intros Hi. unfold pending. rewrite map_fold_insert_L; [done|intros; lia|done]. Qed.

Lemma pending_delete i r ops : ops !! i = Some r -> pending ops = (r + pending (delete i ops))%nat.
Proof. intros Hi. unfold pending. rewrite (map_fold_delete_L _ _ i r); [done|intros; lia|done]. Qed.

Lemma pending_most m ops : map_Forall (fun _ r => r <= m)%nat ops -> (pending ops <= m * size ops)%nat.
Proof.
  induction ops as [|i r ops Hi IH] using map_ind; intros Hm; [unfold pending; rewrite map_fold_empty; lia|].
  rewrite pending_insert, map_size_insert_None by done. apply map_Forall_insert in Hm as [Hr Hm]; [|done]. specialize (IH Hm). lia.
Qed.
End tstep.

(** When each operation adds at most 9 blocks, no more than 28 are ever in the transaction. *)
Record roomy (t : tstate) : Prop := {
  ro_total : (length (t_bl t) + pending (t_ops t) <= 28)%nat;
  ro_each : map_Forall (fun _ r => r <= 9)%nat (t_ops t);
  ro_idle : t_ops t = ∅ -> t_bl t = []
}.

Lemma roomy_step st sz a t t' : tstep st sz 9 a t = Some t' -> roomy t -> roomy t'.
Proof.
  intros Hs [Ht He Hi]. destruct a as [i|i n d|i]; simpl in Hs.
  - case_decide as Hc; [|done]. injection Hs as <-. destruct Hc as (_ & Hnone & Ha).
    unfold admitted in Ha. revert Ha. consts. intros Ha. split; simpl.
    + rewrite pending_insert by done. pose proof (pending_most 9 _ He) as Hp.
      destruct (decide (t_ops t = ∅)) as [E|E]; [rewrite Hi, E by done; unfold pending; rewrite map_fold_empty; simpl; lia|].
      assert (size (t_ops t) <> 0%nat) by (by intros ?%map_size_empty_inv). lia.
    + by apply map_Forall_insert_2.
    + intros E. by apply insert_non_empty in E.
  - destruct (t_ops t !! i) as [r|] eqn:Hr; [|done]. simpl in Hs. case_decide as Hw; [|done]. injection Hs as <-.
    destruct Hw as (_ & _ & _ & Hw). unfold absorb. split; simpl; case_decide as Hin; try done.
    + pose proof (pending_delete _ _ _ Hr) as Hp. destruct Hw as [?|Hw]; [done|].
      rewrite <- insert_delete_eq, pending_insert, length_app by (by rewrite lookup_delete_eq). simpl. lia.
    + apply map_Forall_insert_2; [|done]. pose proof (He _ _ Hr). simpl in *. lia.
    + intros E. by apply insert_non_empty in E.
  - destruct (t_ops t !! i) as [r|] eqn:Hr; [|done]. injection Hs as <-. pose proof (pending_delete _ _ _ Hr) as Hp.
    case_decide as Hd; split; simpl; try done.
    + unfold pending. rewrite map_fold_empty. lia.
    + lia.
    + by apply map_Forall_delete.
Qed.

Lemma roomy_steps st sz acts : forall t t', tsteps st sz 9 acts t = Some t' -> roomy t -> roomy t'.
Proof.
  induction acts as [|a acts IH]; intros t t' Hs Ht; [by injection Hs as <-|]. simpl in Hs.
  destruct (tstep st sz 9 a t) as [t1|] eqn:E; [|done]. eapply IH; [exact Hs|]. by eapply roomy_step.
Qed.

(** ** What the calls do *)

Section perform.
Context {EN : Env}.

(** [m] as process [i] runs it once the scheduler has switched to it. *)
Definition on (i : nat) (m : K unit) : K unit := modify (set k_hart (set ht_proc (fun _ => Some i)));; m.

(** A process changes a block as [writei] and [iupdate] do: read, modify, log, release. *)
Definition perform (a : action) : K unit :=
  match a with
  | BeginOp i => on i begin_op
  | LogWrite i n d => on i (b ← bread ROOTDEV n; upd_buf b (set b_data (fun _ => d));; log_write b;; brelse b)
  | EndOp i => on i end_op
  end.

Definition schedule (acts : list action) : K unit := kfor acts perform.
End perform.

(** The kernel is in state [t] between two actions: [V] is what the blocks hold, the blocks of the
    transaction pinned in the cache and the others as on the disk, and the log on the disk is empty. *)
Record at_rest (st sz : Z) (t : tstate) (V : disk) (s : kstate) : Prop := {
  sc_thread : exists me pid, thread_ok me pid s;
  sc_procs : map_Forall (fun i _ => i < NPROC)%nat (t_ops t);
  sc_lock : k_locks s !! LLog = None;
  sc_log : log_is st (t_bl t) s;
  sc_size : lg_size (k_log s) = sz;
  sc_open : lg_outstanding (k_log s) = Z.of_nat (size (t_ops t)) /\ lg_committing (k_log s) = 0;
  sc_list : NoDup (t_bl t) /\ Forall (home_block st sz) (t_bl t) /\ (length (t_bl t) < NBUF)%nat;
  sc_cache : cache 0 (counts (t_bl t) []) [] V s;
  sc_clean n : n ∉ t_bl t -> k_disk s !! n = V !! n;
  sc_head : exists h, V !! st = Some h /\ lists h [];
  sc_slots k : Z.of_nat k + 1 < sz -> is_Some (V !! slot st k);
  sc_present n : n ∈ t_bl t -> is_Some (V !! n);
  sc_now n : home_block st sz n -> V !! n = t_now t !! n;
  sc_disk n : home_block st sz n -> k_disk s !! n = t_disk t !! n
}.

Lemma cache_pid pid pid' R V s : cache pid R [] V s -> cache pid' R [] V s.
Proof. intros [[] ? ? ?]. split; [split|..]; try done. intros i b _ Hi. by apply not_elem_of_nil in Hi. Qed.

Lemma thread_on me pid i s : thread_ok me pid s -> (i < NPROC)%nat ->
  exists pid', thread_ok i pid' (s <| k_hart ::= set ht_proc (fun _ => Some i) |>).
Proof.
  intros [Hh Hm _ Hl Hpr Hb Hs] Hi. destruct (lookup_lt_is_Some_2 (k_procs s) i) as [p Hp]; [by rewrite Hl|].
  exists (p_pid p). split; try done. by exists p.
Qed.

Section steps.
Context {EN : Env} (st sz : Z).
Hypothesis Hst : 0 <= st /\ st + LOGSIZE < 2 ^ 31.
Hypothesis Hsz : LOGSIZE <= sz.
Implicit Types (s : kstate) (t : tstate) (V : disk).
Abbreviation at_rest := (at_rest st sz).

Lemma sz_30 : 30 <= sz.
Proof. revert Hsz. consts. lia. Qed.

(** The state with process [i] on the hart. *)
Lemma sched_on t V i s : at_rest t V s -> (i < NPROC)%nat ->
  let s1 := s <| k_hart ::= set ht_proc (fun _ => Some i) |> in exists pid, thread_ok i pid s1 /\ at_rest t V s1.
Proof.
  intros S Hi s1. pose proof (sc_thread _ _ _ _ _ S) as (me & pid & Ht).
  destruct (thread_on _ _ i _ Ht Hi) as [pid' Ht']. exists pid'. split; [exact Ht'|].
  destruct S as [_ ? ? [] ? ? ? [[] ? ? ?] ? ? ? ? ? ?]. split; try done. by eexists _, _.
Qed.

Lemma wp_on t V i m Q s :
  at_rest t V s -> (i < NPROC)%nat -> (forall pid s1, thread_ok i pid s1 -> at_rest t V s1 -> wp m Q s1) -> wp (on i m) Q s.
Proof. intros S Hi HQ. unfold on. kstep. destruct (sched_on _ _ _ _ S Hi) as (pid & Ht & S1). by eapply HQ. Qed.

(** A change of the counts of the log alone. *)
Lemma sched_log t ops V s s' me pid :
  at_rest t V s -> map_Forall (fun i _ => i < NPROC)%nat ops -> thread_ok me pid s' -> bframe [Flog] s s' -> log_is st (t_bl t) s' -> lg_size (k_log s') = sz ->
  lg_outstanding (k_log s') = Z.of_nat (size ops) -> lg_committing (k_log s') = 0 ->
  at_rest (mkt ops (t_bl t) (t_now t) (t_disk t)) V s'.
Proof.
  intros [_ _ Hlk _ _ _ Hbl C Hc Hh Hsl Hpr Hn Hd] Hp Ht F Hli Hs Ho Hcm.
  pose proof (bframe_get Fdisk _ _ _ F eq_refl : k_disk s = k_disk s') as Ed.
  pose proof (bframe_get Flocks _ _ _ F eq_refl : k_locks s = k_locks s') as El.
  split; simpl; rewrite <- ?Ed, <- ?El; try done; [by eexists _, _|]. eapply cache_frame; [apply F|done..].
Qed.

Lemma perform_begin b i t t' V s :
  tstep st sz b (BeginOp i) t = Some t' -> at_rest t V s -> wp (perform (BeginOp i)) (fun _ s' => at_rest t' V s') s.
Proof.
  intros Hs S. simpl in Hs. case_decide as Hc; [|done]. injection Hs as <-. destruct Hc as (Hi & Hnone & Ha).
  unfold perform. eapply wp_on; [exact S|done|]. clear S. intros pid s1 Ht S.
  destruct (sc_open _ _ _ _ _ S) as [Ho Hc]. pose proof (sc_log _ _ _ _ _ S) as Hli.
  apply (wp_begin_op i pid); [done|apply S|done| |].
  { rewrite (li_n _ _ _ Hli), Ho. exact Ha. }
  intros s' F Hlog. eapply sched_log; [exact S| | | | | | |]; try (rewrite Hlog; simpl).
  - apply map_Forall_insert_2; [done|apply S].
  - eapply (thread_ok_bframe [Flog]); [by apply bframe_frame|done|done|exact Ht].
  - by apply bframe_frame.
  - destruct Hli. split; by rewrite Hlog.
  - apply S.
  - rewrite map_size_insert_None, Ho by done. lia.
  - exact Hc.
Qed.

(** The thread of a running operation is inside the transaction. *)
Lemma sched_txn t V i r pid s :
  at_rest t V s -> t_ops t !! i = Some r -> thread_ok i pid s -> txn i pid st s (t_bl t) [] [] V s.
Proof.
  intros [_ _ Hlk Hli Hs [Ho _] (Hnd & Hh & Hl) C Hc _ _ _ _ _] Hi Ht. split; try done.
  - by eapply cache_pid.
  - rewrite Ho. pose proof (map_size_ne_0_lookup_2 _ _ (mk_is_Some _ _ Hi)). lia.
  - by rewrite Hs.
  - split_and!; [done| |done]. eapply Forall_impl; [exact Hh|]. by intros n [? _].
  - intros n Hn _. by apply Hc.
Qed.

Lemma wp_change t V i pid n d d0 r Q s :
  at_rest t V s -> t_ops t !! i = Some r -> thread_ok i pid s -> home_block st sz n -> V !! n = Some d0 ->
  length d = Z.to_nat BSIZE -> (S (length (t_bl t)) < NBUF)%nat ->
  (forall s', txn i pid st s (absorb (t_bl t) n) [] [] (<[n := d]> V) s' -> Q tt s') ->
  wp (b ← bread ROOTDEV n; upd_buf b (set b_data (fun _ => d));; log_write b;; brelse b) Q s.
Proof.
  intros S Hi Ht Hn HV Hd Hroom HQ. pose proof (sched_txn _ _ _ _ _ _ S Hi Ht) as T. kstep.
  eapply txn_bread; [exact T|exact HV|]. intros k s1 T1. kstep.
  eapply (txn_fill _ _ _ _ _ _ _ _ _ _ (fun _ => d)); [exact T1|set_solver|exact HV|done|]. intros s2 T2. kstep.
  eapply txn_log_write; [exact T2|set_solver|apply Hn|done|]. intros s3 T3. kstep.
  eapply txn_brelse; [exact T3|apply lookup_insert_eq|]. exact HQ.
Qed.

Lemma perform_write b i n d t t' V s :
  tstep st sz b (LogWrite i n d) t = Some t' -> (S (length (t_bl t)) < NBUF)%nat ->
  at_rest t V s -> wp (perform (LogWrite i n d)) (fun _ s' => at_rest t' (<[n := d]> V) s') s.
Proof.
  intros Hs Hroom S. simpl in Hs. destruct (t_ops t !! i) as [r|] eqn:Hr; [|done]. simpl in Hs.
  case_decide as Hw; [|done]. injection Hs as <-. destruct Hw as (Hn & [d0 Hd0] & Hd & _).
  unfold perform. eapply wp_on; [exact S|by eapply (sc_procs _ _ _ _ _ S)|]. clear S. intros pid s1 Ht S.
  eapply wp_change; [exact S|exact Hr|exact Ht|done|by rewrite (sc_now _ _ _ _ _ S)|done|done|].
  intros s' [C Ht' F Hli Hlk _ _ (Hnd & _ & Hl) Hc (Ho & Hs & Hcm)].
  destruct S as [_ Hp _ _ Hsize [Hop Hcom] (_ & Hh & _) _ _ (h & Hh1 & Hh2) Hsl Hpr Hnow Hdisk].
  assert (home_block st sz n -> n <> st /\ forall k, Z.of_nat k + 1 < sz -> n <> slot st k) as Hout.
  { pose proof sz_30. unfold home_block, slot. intros [_ ?]. split; [lia|]. intros k Hk. lia. }
  destruct (Hout Hn) as [Hne Hnsl].
  split; simpl; try done.
  - by eexists _, _.
  - case_decide; [done|]. apply map_Forall_insert_2; [|done]. by apply (Hp _ _ Hr).
  - by rewrite Hs.
  - rewrite Ho, Hcm. split; [|done]. case_decide; [done|]. by rewrite map_size_insert_Some by (by eexists).
  - split_and!; [done| |done]. unfold absorb. case_decide; [done|]. apply Forall_app. auto.
  - by eapply cache_pid.
  - intros m Hm. apply Hc; [done|apply not_elem_of_nil].
  - exists h. by rewrite lookup_insert_ne.
  - intros k Hk. rewrite lookup_insert_ne by auto. auto.
  - intros m [Hm| ->]%absorb_elem; [|rewrite lookup_insert_eq; by eexists].
    destruct (decide (m = n)) as [->|]; [rewrite lookup_insert_eq; by eexists|rewrite lookup_insert_ne by done; auto].
  - intros m Hm. destruct (decide (m = n)) as [->|]; [by rewrite !lookup_insert_eq|rewrite !lookup_insert_ne by done; auto].
  - intros m Hm. rewrite <- (bframe_get Fdisk _ _ _ F eq_refl : k_disk s1 = k_disk s'). auto.
Qed.

(** The contents after a commit. *)
Lemma commit_view bl ds h V n : home_block st sz n -> committable st sz bl ds h (counts bl []) V ->
  replay (commit_writes st bl ds h) V !! n = V !! n.
Proof.
  intros Hn Hcm. pose proof Hcm as [[_ _ Hfit Hnd] HV _ _ _ _ _ _]. pose proof (Forall2_length _ _ _ HV) as Hl.
  rewrite (commit_home _ sz) by (done || lia). destruct (decide (n ∈ bl)) as [Hin|Hin].
  - apply list_elem_of_lookup in Hin as [k Hk]. destruct (Forall2_lookup_l _ _ _ _ _ HV Hk) as (d & Hdk & ->).
    eapply (replay_lookup _ _ k); [by rewrite fst_zip by lia|]. by apply lookup_zip_Some.
  - apply replay_other. by rewrite fst_zip by lia.
Qed.

(** [commit] at the end of the last operation, with the counts [end_op] has set. *)
Lemma wp_commit_last t V me pid Q s :
  thread_ok me pid s -> log_is st (t_bl t) s -> k_locks s !! LLog = None -> cache pid (counts (t_bl t) []) [] V s ->
  NoDup (t_bl t) /\ Forall (home_block st sz) (t_bl t) /\ (length (t_bl t) < NBUF)%nat ->
  (forall n, n ∈ t_bl t -> is_Some (V !! n)) ->
  (exists h, V !! st = Some h /\ lists h []) -> (forall k, Z.of_nat k + 1 < sz -> is_Some (V !! slot st k)) ->
  (forall V' s', thread_ok me pid s' -> log_is st [] s' -> k_locks s' !! LLog = None -> cache pid no_refs [] V' s' ->
     (exists h, V' !! st = Some h /\ lists h []) -> (forall k, Z.of_nat k + 1 < sz -> is_Some (V' !! slot st k)) ->
     (forall n, home_block st sz n -> V' !! n = V !! n) -> k_log s' = (k_log s) <| lh_n := 0 |> -> Q tt s') ->
  wp commit Q s.
Proof.
  intros Ht Hli Hlk C (Hnd & Hh & Hl) Hpres (h & HVh & Hlh) Hsl HQ. set (bl := t_bl t) in *.
  destruct (decide (bl = [])) as [E|Hne].
  - rewrite E in *. unfold commit. kstep. rewrite (li_n _ _ _ Hli). simpl. kstep. eapply HQ; try done.
    + by exists h.
    + pose proof (li_n _ _ _ Hli) as Hn. destruct (k_log s). simpl in *. by rewrite Hn.
  - destruct (counts_committable st sz bl h V) as [ds Hcm]; [done..|].
    assert (0 < sz) as Hpos by (pose proof sz_30; lia).
    assert (length h = Z.to_nat BSIZE) as Hlen.
    { apply (bc_dsize _ _ _ _ _ (ca_bc _ _ _ _ _ C) st). by rewrite (cache_clean _ _ _ _ _ _ C (cm_free_head _ _ _ _ _ _ _ Hcm)). }
    eapply (wp_commit me pid st sz Hst Hpos); [exact Ht|exact C|exact Hli|exact Hne|exact Hcm|].
    intros s' C' Hli' Ht' F' _ _ Hlog. apply (HQ (replay (commit_writes st bl ds h) V) s'); try done.
    + by rewrite <- (bframe_get Flocks _ _ _ F' eq_refl : k_locks s = k_locks s').
    + eapply cache_ext; [|reflexivity|exact C']. intros n. destruct (decide (n ∈ bl)) as [Hin|Hin].
      * rewrite unpin_in by done. unfold counts. rewrite decide_True, decide_False by (done || apply not_elem_of_nil). done.
      * rewrite unpin_other by done. unfold counts. rewrite decide_False, decide_False by (done || apply not_elem_of_nil). done.
    + eexists. split; [unfold commit_writes; rewrite !replay_app; simpl; apply lookup_insert_eq|].
      apply lists_head_data; [constructor|simpl; lia|]. apply length_head_data; [revert Hl; consts; lia|done].
    + intros k Hk. by apply replay_present, Hsl.
    + intros n Hn. by apply commit_view.
Qed.

Lemma end_last i r t V s pid Q :
  t_ops t !! i = Some r -> delete i (t_ops t) = ∅ -> thread_ok i pid s -> at_rest t V s ->
  (forall V' s', at_rest (mkt ∅ [] (t_now t) (t_now t)) V' s' -> Q tt s') -> wp end_op Q s.
Proof.
  intros Hr Hd Ht S HQ. destruct (sc_open _ _ _ _ _ S) as [Ho Hc]. pose proof (sc_log _ _ _ _ _ S) as Hli.
  assert (size (t_ops t) = 1%nat) as Hone.
  { pose proof (map_size_delete_Some _ _ (mk_is_Some _ _ Hr)) as Hsz1. rewrite Hd, map_size_empty in Hsz1.
    pose proof (map_size_ne_0_lookup_2 _ _ (mk_is_Some _ _ Hr)). lia. }
  apply (wp_end_op_last i pid); [done|apply S|done|lia|]. intros s1 F Hlog.
  pose proof (bframe_get Flocks _ _ _ (bframe_frame _ _ _ F eq_refl) eq_refl : k_locks s = k_locks s1) as El.
  eapply (wp_commit_last t V i pid).
  - eapply (thread_ok_bframe [Flog]); [by apply bframe_frame|done|done|exact Ht].
  - destruct Hli. split; by rewrite Hlog.
  - rewrite <- El. apply S.
  - eapply cache_frame; [exact F|done..|]. eapply cache_pid, S.
  - apply S.
  - apply S.
  - apply S.
  - apply S.
  - intros V' s2 Ht2 Hli2 Hlk2 C2 Hh2 Hsl2 HV2 Hlog2. split_and!; [done|done|]. intros s3 F3 Hlog3. apply (HQ V').
    pose proof (bframe_get Fdisk _ _ _ F3 eq_refl : k_disk s2 = k_disk s3) as Ed.
    pose proof (bframe_get Flocks _ _ _ F3 eq_refl : k_locks s2 = k_locks s3) as El3.
    assert (forall n, k_disk s2 !! n = V' !! n) as Hclean by (intros n; by eapply cache_clean).
    split; simpl; rewrite <- ?Ed, <- ?El3; try done.
    + eexists _, _. by eapply (thread_ok_bframe [Flog]).
    + destruct Hli2. split; by rewrite Hlog3.
    + rewrite Hlog3, Hlog2, Hlog. apply S.
    + rewrite Hlog3, Hlog2, Hlog. done.
    + split_and!; [by apply NoDup_nil|by apply Forall_nil|consts; simpl; lia].
    + eapply cache_frame; [apply F3|done..|]. eapply cache_pid. eapply cache_ext; [|reflexivity|exact C2]. done.
    + intros n Hn. by apply not_elem_of_nil in Hn.
    + intros n Hn. rewrite HV2 by done. by apply S.
    + intros n Hn. rewrite Hclean, HV2 by done. by apply S.
Qed.

Lemma perform_end b i t t' V s :
  tstep st sz b (EndOp i) t = Some t' -> at_rest t V s -> wp (perform (EndOp i)) (fun _ s' => exists V', at_rest t' V' s') s.
Proof.
  intros Hs S. simpl in Hs. destruct (t_ops t !! i) as [r|] eqn:Hr; [|done]. injection Hs as <-.
  unfold perform. eapply wp_on; [exact S|by eapply (sc_procs _ _ _ _ _ S)|]. clear S. intros pid s1 Ht S.
  case_decide as Hd; [eapply end_last; [exact Hr|exact Hd|exact Ht|exact S|]; by eexists|].
  destruct (sc_open _ _ _ _ _ S) as [Ho Hc]. pose proof (sc_log _ _ _ _ _ S) as Hli.
  pose proof (map_size_delete_Some _ _ (mk_is_Some _ _ Hr)) as Hsize.
  assert (size (delete i (t_ops t)) <> 0%nat) as Hne by (by intros ?%map_size_empty_inv).
  apply (wp_end_op_more i pid); [done|apply S|done|lia|]. intros s' F Hlog. exists V.
  eapply sched_log; [exact S| | |exact F| | | |]; try (rewrite Hlog; simpl).
  - apply map_Forall_delete, S.
  - by eapply (thread_ok_bframe [Flog]).
  - destruct Hli. split; by rewrite Hlog.
  - apply S.
  - rewrite Ho. lia.
  - exact Hc.
Qed.

(** A block is logged when the log is full. *)
Lemma perform_full b i n d t t' V s :
  tstep st sz b (LogWrite i n d) t = Some t' -> at_rest t V s -> sz - 1 <= Z.of_nat (length (t_bl t)) ->
  stops (perform (LogWrite i n d)) (Panic "too big a transaction") s.
Proof.
  intros Hs S Hfull. simpl in Hs. destruct (t_ops t !! i) as [r|] eqn:Hr; [|done]. simpl in Hs.
  case_decide as Hw; [|done]. destruct Hw as (Hn & [d0 Hd0] & Hd & _). unfold perform, on. apply stops_later. kstep.
  destruct (sched_on _ _ i _ S) as (pid & Ht & S1); [by eapply (sc_procs _ _ _ _ _ S)|]. cbv zeta in Ht, S1.
  set (s1 := s <| k_hart ::= _ |>) in *. pose proof (sched_txn _ _ _ _ _ _ S1 Hr Ht) as T. apply stops_later.
  assert (V !! n = Some d0) as HV by (by rewrite (sc_now _ _ _ _ _ S)).
  eapply txn_bread; [exact T|exact HV|]. intros k s2 T2. apply stops_later.
  eapply (txn_fill _ _ _ _ _ _ _ _ _ _ (fun _ => d)); [exact T2|set_solver|exact HV|done|]. intros s3 T3. apply stops_bind, log_write_full.
  rewrite (li_n _ _ _ (tx_log _ _ _ _ _ _ _ _ _ T3)). destruct (tx_kept _ _ _ _ _ _ _ _ _ T3) as (_ & -> & _).
  right. by rewrite (sc_size _ _ _ _ _ S1).
Qed.

(** A schedule in which no block is logged when the transaction has 29. *)
Lemma wp_schedule b acts : forall t t' V s,
  tsteps st sz b acts t = Some t' -> at_rest t V s ->
  (forall acts1 i n d acts2 t1, acts = acts1 ++ LogWrite i n d :: acts2 -> tsteps st sz b acts1 t = Some t1 ->
     (S (length (t_bl t1)) < NBUF)%nat) ->
  wp (schedule acts) (fun _ s' => exists V', at_rest t' V' s') s.
Proof.
  induction acts as [|a acts IH]; intros t t' V s Hs S Hroom; [injection Hs as <-; by exists V|].
  simpl in Hs. destruct (tstep st sz b a t) as [t1|] eqn:E; [|done]. unfold schedule. cbn [kfor]. apply wp_bind.
  eapply (wp_mono _ (fun _ s1 => exists V1, at_rest t1 V1 s1)).
  - destruct a as [i|i n d|i].
    + eapply wp_mono; [by eapply perform_begin|]. by eexists.
    + eapply wp_mono; [eapply perform_write; [exact E|by eapply (Hroom [])|exact S]|]. by eexists.
    + by eapply perform_end.
  - intros [] s1 [V1 S1]. eapply IH; [exact Hs|exact S1|]. intros acts1 i n d acts2 t2 -> Ht2.
    eapply (Hroom (a :: acts1)); [done|]. simpl. by rewrite E.
Qed.
End steps.

(** C5. The log keeps its promise to concurrent operations that add at most nine blocks each. Start with no operation running, the log empty, and a log of at least [LOGSIZE] blocks. Take any sequence of operations of any processes in which [begin_op] is called when it would not wait, an operation adds at most [MAXOPBLOCKS - 1] new blocks to the transaction (it may change blocks that are in it already as often as it likes), and [end_op] is called by a process that runs an operation. Then all the calls return, so [log_write] never panics; the blocks read as last written; the disk holds, outside of the log, the contents at the last commit, which is when the last running operation ended; and when no operation runs it holds all that was written. *)
Theorem schedule_refines {EN : Env} st sz acts D t V s :
  0 <= st /\ st + LOGSIZE < 2 ^ 31 -> LOGSIZE <= sz -> at_rest st sz (idle D) V s ->
  tsteps st sz (Z.to_nat MAXOPBLOCKS - 1) acts (idle D) = Some t ->
  wp (schedule acts) (fun _ s' =>
    (exists V', at_rest st sz t V' s') /\ lh_n (k_log s') < LOGSIZE - 1 /\
    (t_ops t = ∅ -> forall n, home_block st sz n -> k_disk s' !! n = t_now t !! n)) s.
Proof.
  intros Hst Hsz S Hs. change (Z.to_nat MAXOPBLOCKS - 1)%nat with 9%nat in Hs.
  assert (roomy (idle D)) as R0 by (split; [simpl; unfold pending; rewrite map_fold_empty; lia|apply map_Forall_empty|done]).
  pose proof (roomy_steps _ _ _ _ _ Hs R0) as [Ht _ Hi].
  eapply wp_mono; [eapply (wp_schedule st sz Hst Hsz 9 acts (idle D)); [exact Hs|exact S|]|].
  - intros acts1 i n d acts2 t1 _ H1. pose proof (roomy_steps _ _ _ _ _ H1 R0) as [H2 _ _]. consts. lia.
  - intros [] s' [V' S']. split_and!; [by exists V'| |].
    + rewrite (li_n _ _ _ (sc_log _ _ _ _ _ S')). consts. lia.
    + intros E n Hn. rewrite (sc_clean _ _ _ _ _ S'); [by apply S'|]. rewrite (Hi E). apply not_elem_of_nil.
Qed.

(** ** Ten blocks for each operation *)

Section full.
Context (st sz : Z) (b : nat).

(** Writing the blocks [xs], all of them new, by the operation of process [i]. *)
Lemma tsteps_writes i d xs : forall r t,
  t_ops t !! i = Some r -> (length xs <= r)%nat -> NoDup xs -> (forall n, n ∈ xs -> n ∉ t_bl t) ->
  Forall (fun n => home_block st sz n /\ is_Some (t_now t !! n)) xs -> length d = Z.to_nat BSIZE ->
  exists t', tsteps st sz b ((fun n => LogWrite i n d) <$> xs) t = Some t' /\ t_bl t' = t_bl t ++ xs /\
    (forall j, j <> i -> t_ops t' !! j = t_ops t !! j) /\ (forall n, is_Some (t_now t !! n) -> is_Some (t_now t' !! n)).
Proof.
  induction xs as [|n xs IH]; intros r t Hr Hlen Hnd Hnew Hok Hd; [exists t; split_and!; try done; by rewrite app_nil_r|].
  apply NoDup_cons in Hnd as [Hn Hnd]. apply Forall_cons in Hok as [[Hh Hp] Hok]. simpl in Hlen.
  assert (n ∉ t_bl t) as Hnn by (apply Hnew; by left).
  cbn [fmap list_fmap tsteps]. cbn [tstep]. rewrite Hr. cbn [mbind option_bind].
  rewrite decide_True by (split_and!; [done..|right; lia]). rewrite (decide_False (P := n ∈ t_bl t)) by done. cbn [mbind option_bind].
  set (t1 := mkt _ _ _ _). destruct (IH (pred r) t1) as (t' & Ht' & Hbl & Hops & Hnow).
  - unfold t1. simpl. apply lookup_insert_eq.
  - lia.
  - done.
  - intros m Hm. unfold t1. simpl. unfold absorb. rewrite decide_False by done. intros [?| ->%list_elem_of_singleton]%elem_of_app; [|done].
    eapply Hnew; [right; exact Hm|done].
  - eapply Forall_impl; [exact Hok|]. intros m [Hm1 Hm2]. split; [done|]. unfold t1. simpl. by apply lookup_insert_is_Some'; right.
  - done.
  - exists t'. split_and!; [done| | |].
    + rewrite Hbl. unfold t1. simpl. unfold absorb. rewrite decide_False by done. by rewrite <- app_assoc.
    + intros j Hj. rewrite Hops by done. unfold t1. simpl. by rewrite lookup_insert_ne.
    + intros m Hm. apply Hnow. unfold t1. simpl. by apply lookup_insert_is_Some'; right.
Qed.

(** An action adds at most one block. *)
Definition is_write (a : action) : bool := match a with LogWrite _ _ _ => true | _ => false end.

Lemma tsteps_length acts : forall t t', tsteps st sz b acts t = Some t' ->
  (length (t_bl t') <= length (t_bl t) + length (filter is_write acts))%nat.
Proof.
  induction acts as [|a acts IH]; intros t t' Hs; [injection Hs as <-; lia|]. simpl in Hs.
  destruct (tstep st sz b a t) as [t1|] eqn:E; [|done]. specialize (IH _ _ Hs). rewrite filter_cons.
  destruct a as [i|i n d|i]; simpl in E.
  - rewrite decide_False by (by intros []). case_decide; [|done]. by injection E as <-.
  - rewrite decide_True by done. destruct (t_ops t !! i); [|done]. simpl in E. case_decide; [|done]. injection E as <-. simpl in *.
    pose proof (length_absorb (t_bl t) n). lia.
  - rewrite decide_False by (by intros []). destruct (t_ops t !! i); [|done]. injection E as <-.
    case_decide; simpl in *; lia.
Qed.
End full.

Lemma stops_kfor_app {X} (l l' : list X) f r s :
  wp (kfor l f) (fun _ s' => stops (kfor l' f) r s') s -> stops (kfor (l ++ l') f) r s.
Proof.
  revert s. induction l as [|x l IH]; intros s Hw; [exact Hw|]. cbn [kfor app] in *. apply stops_later.
  eapply wp_mono; [exact (wp_bind_inv _ _ _ _ Hw)|]. intros [] s1. apply IH.
Qed.

(** Three operations: the first logs the blocks [xs], the second [ys] and the third [zs]. *)
Definition three_ops (d : list Z) (xs ys zs : list Z) : list action :=
  [BeginOp 0; BeginOp 1; BeginOp 2] ++ ((fun n => LogWrite 0 n d) <$> xs) ++
  ((fun n => LogWrite 1 n d) <$> ys) ++ ((fun n => LogWrite 2 n d) <$> zs).

Lemma three_ops_steps st sz D d xs ys zs :
  length d = Z.to_nat BSIZE -> (length xs <= 10)%nat -> (length ys <= 10)%nat -> (length zs <= 10)%nat -> NoDup (xs ++ ys ++ zs) ->
  Forall (fun n => home_block st sz n /\ is_Some (D !! n)) (xs ++ ys ++ zs) ->
  exists t, tsteps st sz 10 (three_ops d xs ys zs) (idle D) = Some t /\ t_bl t = xs ++ ys ++ zs.
Proof.
  intros Hd Hx Hy Hz Hnd Hok. apply NoDup_app in Hnd as (Hnx & Hdx & Hnd). apply NoDup_app in Hnd as (Hny & Hdy & Hnz).
  apply Forall_app in Hok as [Hox Hok]. apply Forall_app in Hok as [Hoy Hoz].
  set (t0 := mkt (<[2 := 10]> (<[1 := 10]> (<[0 := 10]> ∅)))%nat [] D D).
  assert (tsteps st sz 10 [BeginOp 0; BeginOp 1; BeginOp 2] (idle D) = Some t0) as H0 by reflexivity.
  destruct (tsteps_writes st sz 10 0 d xs 10 t0) as (t1 & H1 & B1 & O1 & N1); [done|done|done|intros; apply not_elem_of_nil|done|done|].
  destruct (tsteps_writes st sz 10 1 d ys 10 t1) as (t2 & H2 & B2 & O2 & N2); [by rewrite O1|done|done| | |done|].
  { intros n Hn. rewrite B1. simpl. intros Hn'. by eapply Hdx; [exact Hn'|apply elem_of_app; left]. }
  { eapply Forall_impl; [exact Hoy|]. intros n [? ?]. split; [done|]. by apply N1. }
  destruct (tsteps_writes st sz 10 2 d zs 10 t2) as (t3 & H3 & B3 & _ & _); [by rewrite O2, O1|done|done| | |done|].
  { intros n Hn. rewrite B2, B1. simpl. intros [Hn'|Hn']%elem_of_app; [|by eapply Hdy].
    by eapply Hdx; [exact Hn'|apply elem_of_app; right]. }
  { eapply Forall_impl; [exact Hoz|]. intros n [? ?]. split; [done|]. by apply N2, N1. }
  exists t3. unfold three_ops. rewrite !tsteps_app, H0. cbn [mbind option_bind]. rewrite tsteps_app, H1. cbn [mbind option_bind].
  rewrite tsteps_app, H2. cbn [mbind option_bind]. split; [done|]. rewrite B3, B2, B1. simpl. by rewrite <- app_assoc.
Qed.

Lemma three_ops_writes d xs ys zs :
  length (filter is_write (three_ops d xs ys zs)) = (length xs + length ys + length zs)%nat.
Proof.
  assert (forall i (l : list Z), filter is_write ((fun n => LogWrite i n d) <$> l) = (fun n => LogWrite i n d) <$> l) as Hf.
  { intros i l. induction l as [|n l IH]; [done|]. cbn [fmap list_fmap]. rewrite filter_cons_True by done. by f_equal. }
  unfold three_ops. rewrite !filter_app, !Hf, !length_app, !length_fmap. simpl. lia.
Qed.

(** C39. The log that [mkfs] makes is one block too short for what [begin_op] admits. Its [LOGSIZE] blocks include the header, and [log_write] refuses a block when 29 are logged; but [begin_op] lets three operations run at once, and [param.h] lets each of them write [MAXOPBLOCKS] blocks. Three operations that each log ten blocks, all different, follow the rules of the log (the promise of [schedule_refines] with [MAXOPBLOCKS] for [MAXOPBLOCKS - 1]), and the calls end in the panic of [log_write]. *)
Theorem log_one_short {EN : Env} st D V s d xs ys zs :
  0 <= st /\ st + LOGSIZE < 2 ^ 31 -> at_rest st LOGSIZE (idle D) V s -> length d = Z.to_nat BSIZE ->
  length xs = Z.to_nat MAXOPBLOCKS -> length ys = Z.to_nat MAXOPBLOCKS -> length zs = Z.to_nat MAXOPBLOCKS ->
  NoDup (xs ++ ys ++ zs) -> Forall (fun n => home_block st LOGSIZE n /\ is_Some (D !! n)) (xs ++ ys ++ zs) ->
  is_Some (tsteps st LOGSIZE (Z.to_nat MAXOPBLOCKS) (three_ops d xs ys zs) (idle D)) /\
  stops (schedule (three_ops d xs ys zs)) (Panic "too big a transaction") s.
Proof.
  change (Z.to_nat MAXOPBLOCKS) with 10%nat. intros Hst S Hd Hx Hy Hz Hnd Hok.
  destruct (three_ops_steps st LOGSIZE D d xs ys zs) as (t & Ht & _); [done|lia|lia|lia|done|done|].
  split; [by rewrite Ht|]. destruct (exists_last (l := zs)) as (zs' & n & ->); [by intros ->|].
  rewrite length_app in Hz. simpl in Hz. rewrite !app_assoc in Hnd, Hok. apply NoDup_app in Hnd as (Hnd & _ & _).
  apply Forall_app in Hok as [Hok _]. rewrite <- app_assoc in Hnd, Hok.
  destruct (three_ops_steps st LOGSIZE D d xs ys zs') as (t1 & Ht1 & Hbl1); [done|lia|lia|lia|done|done|].
  assert (three_ops d xs ys (zs' ++ [n]) = three_ops d xs ys zs' ++ [LogWrite 2 n d]) as E.
  { unfold three_ops. rewrite fmap_app, <- !app_assoc. done. }
  rewrite E in *. rewrite tsteps_app, Ht1 in Ht. cbn [mbind option_bind tsteps] in Ht.
  destruct (tstep st LOGSIZE 10 (LogWrite 2 n d) t1) as [t2|] eqn:Hlast; [|done].
  unfold schedule. apply (stops_kfor_app (three_ops d xs ys zs') [LogWrite 2 n d]). fold (schedule (three_ops d xs ys zs')).
  eapply wp_mono; [apply (wp_schedule st LOGSIZE Hst (Z.le_refl _) 10 _ (idle D) t1 V s Ht1 S)|].
  - intros acts1 i m e acts2 t0 Ea H0. pose proof (tsteps_length _ _ _ _ _ _ H0) as Hl.
    pose proof (three_ops_writes d xs ys zs') as Hc. rewrite Ea, filter_app, length_app, filter_cons_True in Hc by done.
    simpl in *. consts. lia.
  - intros [] s1 [V1 S1]. cbn [kfor]. apply stops_bind. eapply (perform_full st LOGSIZE Hst (Z.le_refl _)); [exact Hlast|exact S1|].
    rewrite Hbl1, !length_app. consts. lia.
Qed.

(** ** Example: the log in blocks 2 to 31, and data blocks 50 to 79 *)

Definition yard_disk : disk := list_to_map ((fun n => (n, block_of 0)) <$> (seqZ 2 30 ++ seqZ 50 30)).
Definition yard : kstate := small_boot <| k_disk := yard_disk |> <| k_log := mklog 2 30 0 0 1 0 (replicate 30 0) |>.

Lemma yard_block n : n ∈ seqZ 2 30 ++ seqZ 50 30 -> yard_disk !! n = Some (block_of 0).
Proof.
  intros Hn. apply elem_of_list_to_map_1.
  - rewrite <- list_fmap_compose. apply (NoDup_fmap_2 id), (bool_decide_unpack _). by vm_compute.
  - apply list_elem_of_fmap. by exists n.
Qed.

Lemma yard_sched : at_rest 2 30 (idle yard_disk) yard_disk yard.
Proof.
  split; try done.
  - eexists 0%nat, 1. eapply (thread_ok_bframe [Fdisk; Flog]); [|done|done|apply small_boot_thread].
    apply bframe_frame; [frame_solve|done].
  - split_and!; [by apply NoDup_nil|by apply Forall_nil|simpl; consts; lia].
  - apply (cache_ext 0 no_refs _ []); [done|done|]. apply (zero_cache 0 yard); [done..|].
    intros n x Hx. apply elem_of_list_to_map_2, list_elem_of_fmap in Hx as (m & [= _ ->] & _). apply length_replicate.
  - exists (block_of 0). split; [apply yard_block, elem_of_app; left; apply elem_of_seqZ; lia|].
    split; [by vm_compute|]. intros k b Hk. discriminate Hk.
  - intros k Hk. exists (block_of 0). unfold slot. apply yard_block, elem_of_app. left. apply elem_of_seqZ. lia.
  - intros n Hn. by apply not_elem_of_nil in Hn.
Qed.

(** Two operations that overlap; the second rewrites a block of the first after it has ended. *)
Definition two_ops : list action :=
  [BeginOp 0; LogWrite 0 50 (block_of 1); BeginOp 1; LogWrite 1 51 (block_of 2); EndOp 0; LogWrite 1 50 (block_of 3); EndOp 1].
Definition yard_end : disk :=
  <[50 := block_of 3]> (<[51 := block_of 2]> (<[50 := block_of 1]> yard_disk)).

Section example.
#[local] Existing Instance small_machine.

Lemma schedule_refines_witness :
  wp (schedule two_ops) (fun _ s' =>
    (exists V', at_rest 2 30 (mkt ∅ [] yard_end yard_end) V' s') /\ lh_n (k_log s') < LOGSIZE - 1 /\
    ((∅ : gmap nat nat) = ∅ -> forall n, home_block 2 30 n -> k_disk s' !! n = yard_end !! n)) yard.
Proof.
  apply (schedule_refines 2 30 two_ops yard_disk (mkt ∅ [] yard_end yard_end) yard_disk yard).
  - by vm_compute.
  - by vm_compute.
  - exact yard_sched.
  - vm_compute. reflexivity.
Defined.

Lemma log_one_short_witness :
  is_Some (tsteps 2 LOGSIZE (Z.to_nat MAXOPBLOCKS) (three_ops (block_of 9) (seqZ 50 10) (seqZ 60 10) (seqZ 70 10)) (idle yard_disk)) /\
  stops (schedule (three_ops (block_of 9) (seqZ 50 10) (seqZ 60 10) (seqZ 70 10))) (Panic "too big a transaction") yard.
Proof.
  apply (log_one_short 2 yard_disk yard_disk yard (block_of 9) (seqZ 50 10) (seqZ 60 10) (seqZ 70 10)).
  - by vm_compute.
  - exact yard_sched.
  - apply length_replicate.
  - reflexivity.
  - reflexivity.
  - reflexivity.
  - apply (bool_decide_unpack _). by vm_compute.
  - apply Forall_forall. intros n Hn. assert (50 <= n < 80) as Hr.
    { rewrite !elem_of_app, !elem_of_seqZ in Hn. lia. }
    split; [unfold home_block, block_no; consts; lia|]. exists (block_of 0). apply yard_block, elem_of_app. right. apply elem_of_seqZ. lia.
Defined.
End example.
