(* ===== verification/Durable.v ===== *)
(** Writing a file and committing: the cache, the log and the file layer together.

    A write by [writei] followed by [commit] survives a crash at any disk write: after recovery the
    file is as it was before the write, or as it is after it. *)
From S2P Require Import Prelude Types Kstate Cstring Spinlock Frame Printf Accounting Kalloc Vm Proc Bio Bcache Blocks Log Commit Transaction Fs Content.
From stdpp Require Import functions base numbers list gmap strings.
From Stdlib Require Import ZArith Lia.

Local Open Scope Z_scope.
Local Open Scope xv6_scope.

(** The byte at [o] of a file once [src] has been written at [off]. *)
Definition overwritten (V : disk) (nd : inode) (off : Z) (src : list Z) (o : Z) : option Z :=
  if decide (off <= o < off + Z.of_nat (length src)) then src !! Z.to_nat (o - off) else fbyte V nd o.

Section durable.
Context {EN : Env} (me : nat) (pid st : Z) (s : kstate) (ip : nat) (nd : inode) (V : disk).

(** The blocks outside of the log. *)
Definition home (n : Z) : Prop := home_block st (lg_size (k_log s)) n.

(** A transaction is open and empty; the log is empty on the disk, and the blocks of the file and
    of its inode lie outside of the log. *)
Record write_ok (d h : list Z) : Prop := {
  wo_log : 0 <= st /\ st + LOGSIZE < 2 ^ 31;
  wo_inode : k_inodes s !! ip = Some nd;
  wo_txn : txn me pid st s [] [] [] V s;
  wo_file : file_ok V nd;
  wo_apart : file_apart s nd V;
  wo_dinode : home (inode_block s nd) /\ V !! inode_block s nd = Some d /\ length d = Z.to_nat BSIZE;
  wo_home k : 0 <= k < nblocks (i_size nd) -> home (block_at V nd k);
  wo_indirect : NDIRECT < nblocks (i_size nd) -> home (addr nd NDIRECT);
  wo_head : V !! st = Some h /\ lists h [];
  wo_slots k : Z.of_nat k + 1 < lg_size (k_log s) -> is_Some (V !! slot st k)
}.
Context (d h : list Z).
Hypothesis Hok : write_ok d h.

Lemma write_disk n : k_disk s !! n = V !! n.
Proof. apply (tx_clean _ _ _ _ _ _ _ _ _ (wo_txn _ _ Hok)); apply not_elem_of_nil. Qed.

(** Disks that agree outside of the log hold the same file. *)
Lemma fbyte_home D D' o : (forall n, home n -> D' !! n = D !! n) -> 0 <= o < i_size nd ->
  (forall k, 0 <= k < nblocks (i_size nd) -> home (block_at D nd k)) -> fbyte D' nd o = fbyte D nd o.
Proof.
  intros HD Ho Hb. pose proof (nblocks_off _ _ Ho) as Hk. unfold fbyte.
  assert (block_at D' nd (o / BSIZE) = block_at D nd (o / BSIZE)) as ->.
  { unfold block_at. destruct (Z.ltb_spec (o / BSIZE) NDIRECT); [done|]. rewrite HD; [done|]. apply (wo_indirect _ _ Hok). lia. }
  by rewrite HD by auto.
Qed.

Lemma fbyte_disk o : fbyte (k_disk s) nd o = fbyte V nd o.
Proof.
  unfold fbyte, block_at. destruct (_ <? NDIRECT); rewrite !write_disk; done.
Qed.

(** What [writei] left can be committed. *)
Lemma write_committable bl V' : Forall home bl -> NoDup bl -> (length bl < NBUF)%nat ->
  (forall n, n ∈ bl -> is_Some (V' !! n)) -> (forall n, ~ home n -> V' !! n = V !! n) ->
  exists ds, committable st (lg_size (k_log s)) bl ds h (counts bl []) V'.
Proof.
  intros Hh Hnd Hlen Hs Hlog. pose proof (tx_size _ _ _ _ _ _ _ _ _ (wo_txn _ _ Hok)) as Hsz.
  assert (30 <= lg_size (k_log s)) as Hsz' by (revert Hsz; consts; lia).
  apply counts_committable; [done..| |].
  - rewrite Hlog; [apply (wo_head _ _ Hok)|]. unfold home, home_block. lia.
  - intros k Hk. rewrite Hlog; [by apply (wo_slots _ _ Hok)|]. unfold home, home_block, slot. lia.
Qed.

(** The file after a write, in the cache. *)
Section written.
Context (off : Z) (src : list Z) (V' : disk) (bl' : list Z) (d' : list Z).
Hypothesis Hup : updated nd V V' off src.
Hypothesis Hd' : length d' = Z.to_nat BSIZE.
Hypothesis Hbl : forall q, q ∈ bl' -> (q ∈ []) \/ q = inode_block s nd \/ exists k, 0 <= k < nblocks (i_size nd) /\ q = block_at V nd k.
Let W : disk := <[inode_block s nd := d']> V'.

Lemma written_home q : q ∈ bl' -> home q /\ is_Some (W !! q).
Proof.
  intros [?%elem_of_nil|[-> |(k & Hk & ->)]]%Hbl; [done|..].
  - split; [apply (wo_dinode _ _ Hok)|]. unfold W. rewrite lookup_insert_eq. by eexists.
  - split; [by apply (wo_home _ _ Hok)|]. destruct (fi_block _ _ (up_ok _ _ _ _ _ Hup) k Hk) as [_ (x & Hx & _)].
    unfold W. rewrite lookup_insert_ne by (apply not_eq_sym, (fa_inode _ _ _ (wo_apart _ _ Hok)); done).
    rewrite (up_block _ _ _ _ _ Hup) in Hx by done. by exists x.
Qed.

Lemma written_log q : ~ home q -> W !! q = V !! q.
Proof.
  intros Hq. unfold W. rewrite lookup_insert_ne.
  - apply (up_other _ _ _ _ _ Hup). intros k Hk <-. by apply Hq, (wo_home _ _ Hok).
  - intros <-. apply Hq, (wo_dinode _ _ Hok).
Qed.

Lemma written_byte o : 0 <= o < i_size nd -> fbyte W nd o = overwritten V nd off src o.
Proof. intros Ho. by apply (written_view s nd V V' off src d' (wo_apart _ _ Hok) Hup Hd'). Qed.

Lemma written_blocks k : 0 <= k < nblocks (i_size nd) -> home (block_at W nd k).
Proof.
  intros Hk. unfold W. rewrite block_at_insert; [|intros; by apply not_eq_sym, (fa_inode' _ _ _ (wo_apart _ _ Hok))|done].
  rewrite (up_block _ _ _ _ _ Hup) by done. by apply (wo_home _ _ Hok).
Qed.
End written.

(** C1. A file write is atomic with respect to crashes. In a transaction of its own over a log of at least [LOGSIZE] blocks, as [mkfs] makes it, [writei] over allocated bytes of a file, touching at most 28 blocks, followed by [commit] puts the new bytes on the disk; and if the machine stops after any number of the disk writes the two made (those added to [k_writes], in order), booting from that disk and recovering the log with [initlog] gives the file with all of its old bytes or the file with all of the new ones. *)
Theorem write_crash_safe off src :
  let n := Z.of_nat (length src) in
  0 <= off -> off + n <= i_size nd -> 0 < n -> touched off n + 1 < Z.of_nat NBUF ->
  wp (writei ip (Local src) off n;; commit) (fun _ s' =>
    (forall o, 0 <= o < i_size nd -> fbyte (k_disk s') nd o = overwritten V nd off src o) /\
    exists ws, k_writes s' = rev ws ++ k_writes s /\ k_disk s' = replay ws (k_disk s) /\
      forall k me' pid' sb b, booted me' pid' st (replay (take k ws) (k_disk s)) sb b ->
        wp (initlog ROOTDEV sb) (fun _ b' =>
          (forall o, 0 <= o < i_size nd -> fbyte (k_disk b') nd o = fbyte V nd o) \/
          (forall o, 0 <= o < i_size nd -> fbyte (k_disk b') nd o = overwritten V nd off src o)) b) s.
Proof.
  intros n Ho Hend Hpos Hroom. destruct (wo_dinode _ _ Hok) as (Hhi & HVi & Hd). kstep.
  eapply (wp_writei me pid st s ip nd (wo_inode _ _ Hok) [] V d); [apply Hok|apply Hok|apply Hok|done|done|apply Hhi|done|done|].
  intros bl' V' s1 T1 Hup Hlen Hbl Hin. kstep. rewrite (proj2 (Z.ltb_lt 0 (Z.of_nat (length src))) Hpos) in T1.
  assert (length (with_dinode nd d) = Z.to_nat BSIZE) as Hd'.
  { unfold with_dinode. pose proof (dinode_off_range (i_inum nd)). rewrite splice_length; [done|lia| |done].
    rewrite (length_dinode_bytes nd) by apply (wo_file _ _ Hok). unfold BSIZE in *. lia. }
  pose proof T1 as [C Ht F Hli _ _ _ (Hnd & _ & Hl30) Hclean]. set (W := <[inode_block s nd := with_dinode nd d]> V') in *.
  pose proof (bframe_get Fdisk _ _ _ F eq_refl : k_disk s = k_disk s1) as Ed.
  assert (Forall home bl') as Hhome by (apply Forall_forall; intros q Hq; by eapply written_home).
  destruct (write_committable bl' W) as [ds Hcm]; [done|done|done|by intros; eapply written_home|by intros; eapply written_log|].
  eapply (wp_commit_atomic me pid st (lg_size (k_log s)) bl' ds h); [apply Hok|done|exact C|done| |done|exact Hcm|apply Hok| |].
  { intros ->. by apply not_elem_of_nil in Hin. }
  { intros q Hq. rewrite <- Ed, write_disk. destruct (Hbl q Hq) as [?%elem_of_nil|[-> |(k & Hk & ->)]]; [done|by eexists|].
    destruct (fi_block _ _ (wo_file _ _ Hok) k Hk) as [_ (x & Hx & _)]. by exists x. }
  intros s' ws Hdisk Hw2 Hd2 Hcrash. rewrite <- Ed in *.
  rewrite <- (bframe_get Fwrites _ _ _ F eq_refl : k_writes s = k_writes s1) in Hw2.
  assert (forall q, home q -> k_disk s' !! q = W !! q) as HW.
  { intros q Hq. rewrite Hdisk by done. case_decide; [done|]. apply Hclean; [done|apply not_elem_of_nil]. }
  assert (forall o, 0 <= o < i_size nd -> fbyte (k_disk s') nd o = overwritten V nd off src o) as Hnew.
  { intros o Hor. rewrite (fbyte_home W) by (done || by eapply written_blocks). by apply written_byte. }
  split; [done|]. exists ws. split_and!; [done|done|]. intros k me' pid' sb b Hb. eapply wp_mono; [by eapply Hcrash|].
  intros [] b' [Hold|Hn]; [left|right]; intros o Hor.
  - rewrite (fbyte_home V); [done|intros; by rewrite Hold, write_disk|done|apply (wo_home _ _ Hok)].
  - rewrite (fbyte_home W); [by apply written_byte| |done|by eapply written_blocks]. intros q Hq. by rewrite Hn, HW.
Qed.
End durable.

(** ** Example: the file of 1500 bytes, with an empty log in blocks 2 to 31 *)

Definition log_blocks : disk := list_to_map ((fun k => (2 + Z.of_nat k, block_of 0)) <$> seq 0 30).
Definition note2_disk : disk := note_disk ∪ log_blocks.
Definition note_on (D : disk) : kstate := note <| k_disk := D |>.

Section example.
#[local] Existing Instance small_machine.

Lemma note2_sizes : map_Forall (fun _ d => length d = Z.to_nat BSIZE) note2_disk.
Proof.
  intros q x. unfold note2_disk. rewrite lookup_union_Some_raw. intros [Hx|[_ Hx]].
  - revert q x Hx. repeat apply map_Forall_insert_2; try apply length_replicate. apply map_Forall_empty.
  - unfold log_blocks in Hx. apply elem_of_list_to_map_2, list_elem_of_fmap in Hx as (k & [= _ ->] & _). apply length_replicate.
Qed.

(** An idle cache over another disk. *)
Lemma fresh_disk V D s : txn 0 1 2 s [] [] [] V s -> k_bufs s = replicate NBUF zero_buf -> k_lru s ≡ₚ seq 0 NBUF ->
  map_Forall (fun _ d => length d = Z.to_nat BSIZE) D ->
  txn 0 1 2 (s <| k_disk := D |>) [] [] [] D (s <| k_disk := D |>).
Proof.
  intros [_ Ht _ [L1 L2 L3 L4 L5] Hlk Ho Hs Hbl _] Hb Hl HD. split; [..|exact Hlk|exact Ho|exact Hs|exact Hbl|done|done].
  - apply (cache_ext 1 no_refs _ []); [done|done|].
    pose proof (zero_cache 1 (s <| k_disk := D |>)) as C. 
    assert (k_disk (s <| k_disk := D |>) = D) as E by reflexivity. rewrite E in C. by apply C.
  - eapply (thread_ok_bframe [Fdisk]); [apply bframe_frame; [frame_solve|done]|done|done|exact Ht].
  - reflexivity.
  - by split.
Qed.

Section on.
Context (D : disk).
Hypothesis Hsizes : map_Forall (fun _ d => length d = Z.to_nat BSIZE) D.
Hypothesis Hdata : D !! 32 = Some (block_of 0) /\ D !! 50 = Some (block_of 5) /\ D !! 51 = Some (block_of 6).
Hypothesis Hlog : forall k, (k < 30)%nat -> D !! (2 + Z.of_nat k) = Some (block_of 0).

Lemma note_on_txn : txn 0 1 2 (note_on D) [] [] [] D (note_on D).
Proof. by apply (fresh_disk _ _ _ note_txn). Qed.

Lemma note_on_at k : 0 <= k < nblocks (i_size note_inode) -> block_at D note_inode k = block_at note_disk note_inode k.
Proof.
  change (nblocks (i_size note_inode)) with 2. intros Hk. unfold block_at. by rewrite (proj2 (Z.ltb_lt k NDIRECT)) by (unfold NDIRECT; lia).
Qed.

Lemma note_on_apart : file_apart (note_on D) note_inode D.
Proof.
  pose proof (eq_refl : k_sb (note_on D) = mksb FSMAGIC 1000 954 200 30 2 32 45) as Es. destruct note_apart as [A1 A2 _ _ _].
  split.
  - intros k k' Hk Hk'. rewrite !note_on_at by done. by apply A1.
  - intros k Hk. rewrite note_on_at by done. by apply A2.
  - intros k Hk. by vm_compute in Hk.
  - intros k Hk. unfold inode_block. rewrite note_on_at, Es by done. by destruct (note_blocks k Hk) as [[_ ->]|[_ ->]].
  - intros Hk. by vm_compute in Hk.
Qed.

Lemma note_on_ok : write_ok 0 1 2 (note_on D) 3 note_inode D (block_of 0) (block_of 0).
Proof.
  destruct Hdata as (H32 & H50 & H51). split.
  - by vm_compute.
  - reflexivity.
  - apply note_on_txn.
  - destruct note_file as [? ? ? _ ?]. split; [done..| |done]. intros k Hk. rewrite note_on_at by done.
    destruct (note_blocks k Hk) as [[_ ->]|[_ ->]]; (split; [done|]; eexists; split; [eassumption|apply length_replicate]).
  - apply note_on_apart.
  - split_and!; [|exact H32|apply length_replicate]. split; [|right]; by vm_compute.
  - intros k Hk. rewrite note_on_at by done. destruct (note_blocks k Hk) as [[_ ->]|[_ ->]]; (split; [|right]; by vm_compute).
  - intros Hk. by vm_compute in Hk.
  - split; [apply (Hlog 0); lia|]. split; [by vm_compute|]. intros k b Hk. discriminate Hk.
  - change (lg_size (k_log (note_on D))) with 30. intros k Hk. unfold slot. replace (2 + 1 + Z.of_nat k) with (2 + Z.of_nat (S k)) by lia. rewrite Hlog by lia. by eexists.
Qed.
End on.

Lemma note2_ok : write_ok 0 1 2 (note_on note2_disk) 3 note_inode note2_disk (block_of 0) (block_of 0).
Proof.
  apply note_on_ok; [apply note2_sizes|split_and!; reflexivity|].
  intros k Hk. do 30 (destruct k as [|k]; [reflexivity|]). lia.
Qed.

Lemma write_crash_safe_witness :
  let src := replicate 100 9 in
  wp (writei 3 (Local src) 1000 100;; commit) (fun _ s' =>
    (forall o, 0 <= o < 1500 -> fbyte (k_disk s') note_inode o = overwritten note2_disk note_inode 1000 src o) /\
    exists ws, k_writes s' = rev ws ++ k_writes (note_on note2_disk) /\ k_disk s' = replay ws (k_disk (note_on note2_disk)) /\
      forall k me' pid' sb b, booted me' pid' 2 (replay (take k ws) (k_disk (note_on note2_disk))) sb b ->
        wp (initlog ROOTDEV sb) (fun _ b' =>
          (forall o, 0 <= o < 1500 -> fbyte (k_disk b') note_inode o = fbyte note2_disk note_inode o) \/
          (forall o, 0 <= o < 1500 -> fbyte (k_disk b') note_inode o = overwritten note2_disk note_inode 1000 src o)) b) (note_on note2_disk).
Proof.
  apply (write_crash_safe 0 1 2 (note_on note2_disk) 3 note_inode note2_disk (block_of 0) (block_of 0) note2_ok 1000 (replicate 100 9)).
  - lia.
  - by vm_compute.
  - by vm_compute.
  - by vm_compute.
Defined.
End example.
