(* ===== verification/Inode.v ===== *)
(** The inode on disk: [iupdate] and [ilock] of [kernel/fs.c] are inverse. *)
From S2P Require Import Prelude Types Kstate Cstring Spinlock Frame Printf Accounting Kalloc Vm Proc Bio Bcache Blocks Log Commit Transaction Fs Content.
From stdpp Require Import functions base numbers list gmap strings.
From Stdlib Require Import ZArith Lia.

Local Open Scope Z_scope.
Local Open Scope xv6_scope.

(** ** Decoding *)

(** The fields of an inode in range, so that the bytes on disk determine them. *)
Record dinode_ok (nd : inode) : Prop := {
  dn_short : Forall (fun v => - 2 ^ 15 <= v < 2 ^ 15) [i_type nd; i_major nd; i_minor nd; i_nlink nd];
  dn_size : 0 <= i_size nd < 2 ^ 32;
  dn_addrs : length (i_addrs nd) = 13%nat /\ Forall (fun a => 0 <= a < 2 ^ 32) (i_addrs nd)
}.

Lemma i16_mod v : - 2 ^ 15 <= v < 2 ^ 15 -> i16 (v mod 2 ^ 16) = v.
Proof. intros Hv. unfold i16. Z.to_euclidean_division_equations; lia. Qed.

(** A value stored among others is loaded back. *)
Lemma load_in n o k xs v ys d :
  length xs = k -> (o + length (xs ++ le_bytes n v ++ ys) <= length d)%nat ->
  load n (o + k) (splice o (xs ++ le_bytes n v ++ ys) d) = v mod 2 ^ (8 * Z.of_nat n).
Proof.
  intros <- Hl. unfold load, slice, splice. rewrite !length_app, length_le_bytes in Hl.
  assert (length (take o d) = o) as Ht by (rewrite length_take; lia).
  rewrite drop_app_ge by (rewrite Ht; lia). rewrite Ht. replace (o + length xs - o)%nat with (length xs) by lia.
  rewrite <- !app_assoc, drop_app_length. rewrite take_app_length' by (by rewrite length_le_bytes). apply le_value_bytes.
Qed.

Section decode.
Context (nd : inode) (d : list Z).
Hypothesis Hok : dinode_ok nd.
Hypothesis Hd : length d = Z.to_nat BSIZE.
Let o := Z.to_nat (dinode_off (i_inum nd)).

Lemma dinode_fits : (o + length (dinode_bytes nd) <= length d)%nat.
Proof.
  rewrite length_dinode_bytes by apply Hok. pose proof (dinode_off_range (i_inum nd)). rewrite Hd. unfold o, BSIZE in *. lia.
Qed.

Lemma load_dinode n k v xs ys : dinode_bytes nd = xs ++ le_bytes n v ++ ys -> length xs = k ->
  load n (o + k) (with_dinode nd d) = v mod 2 ^ (8 * Z.of_nat n).
Proof. intros E Hk. pose proof dinode_fits. unfold with_dinode. rewrite E in *. by apply load_in. Qed.

Lemma load_addr k a : i_addrs nd !! k = Some a -> load 4 (o + 12 + 4 * k) (with_dinode nd d) = a.
Proof.
  intros Hk. rewrite <- Nat.add_assoc.
  rewrite (load_dinode 4 (12 + 4 * k) a
    (le_bytes 2 (i_type nd) ++ le_bytes 2 (i_major nd) ++ le_bytes 2 (i_minor nd) ++ le_bytes 2 (i_nlink nd) ++
     le_bytes 4 (i_size nd) ++ concat (le_bytes 4 <$> take k (i_addrs nd))) (concat (le_bytes 4 <$> drop (S k) (i_addrs nd)))).
  - destruct (dn_addrs _ Hok) as [_ Ha]. pose proof (Forall_lookup_1 _ _ _ _ Ha Hk) as Hr. simpl in Hr. by apply Z.mod_small.
  - unfold dinode_bytes. rewrite <- !app_assoc. do 5 f_equal.
    rewrite <- (take_drop_middle _ _ _ Hk) at 1. by rewrite fmap_app, concat_app, fmap_cons.
  - rewrite !length_app, !length_le_bytes, length_addr_bytes, length_take. apply lookup_lt_Some in Hk. lia.
Qed.

Lemma load_addrs : (fun k => load 4 (o + 12 + 4 * k) (with_dinode nd d)) <$> seq 0 13 = i_addrs nd.
Proof.
  destruct (dn_addrs _ Hok) as [Hl _]. apply (list_eq_same_length _ _ 13); [done|by rewrite length_fmap, length_seq|].
  intros k x y Hk Hx Hy. rewrite list_lookup_fmap, lookup_seq_lt in Hx by done. injection Hx as <-. by apply load_addr.
Qed.

Lemma decode_dinode : let off := dinode_off (i_inum nd) in let W := with_dinode nd d in
  i16 (load 2 (Z.to_nat off) W) = i_type nd /\ i16 (load 2 (Z.to_nat (off + 2)) W) = i_major nd /\
  i16 (load 2 (Z.to_nat (off + 4)) W) = i_minor nd /\ i16 (load 2 (Z.to_nat (off + 6)) W) = i_nlink nd /\
  load 4 (Z.to_nat (off + 8)) W = i_size nd /\
  (fun k => load 4 (Z.to_nat (off + 12) + 4 * k) W) <$> seq 0 13 = i_addrs nd.
Proof.
  intros off W. pose proof (dinode_off_range (i_inum nd)) as Hr. fold off in Hr.
  assert (forall k, 0 <= k -> Z.to_nat (off + k) = (o + Z.to_nat k)%nat) as E by (intros k ?; unfold o; fold off; lia).
  rewrite !E by lia. change (Z.to_nat 2) with 2%nat. change (Z.to_nat 4) with 4%nat. change (Z.to_nat 6) with 6%nat.
  change (Z.to_nat 8) with 8%nat. change (Z.to_nat 12) with 12%nat. replace (Z.to_nat off) with (o + 0)%nat by (unfold o; fold off; lia).
  destruct Hok as [Hsh Hsz _]. rewrite !Forall_cons in Hsh. destruct Hsh as (H1 & H2 & H3 & H4 & _). unfold W.
  split_and!; [..|by apply load_addrs]; unfold dinode_bytes.
  - rewrite (load_dinode 2 0 (i_type nd) [] _ eq_refl eq_refl). by apply i16_mod.
  - rewrite (load_dinode 2 2 (i_major nd) (le_bytes 2 (i_type nd)) _ eq_refl eq_refl). by apply i16_mod.
  - rewrite (load_dinode 2 4 (i_minor nd) (le_bytes 2 (i_type nd) ++ le_bytes 2 (i_major nd)) _ eq_refl eq_refl). by apply i16_mod.
  - rewrite (load_dinode 2 6 (i_nlink nd) (le_bytes 2 (i_type nd) ++ le_bytes 2 (i_major nd) ++ le_bytes 2 (i_minor nd)) _ eq_refl eq_refl).
    by apply i16_mod.
  - rewrite (load_dinode 4 8 (i_size nd) (le_bytes 2 (i_type nd) ++ le_bytes 2 (i_major nd) ++ le_bytes 2 (i_minor nd) ++ le_bytes 2 (i_nlink nd)) _ eq_refl eq_refl).
    by apply Z.mod_small.
Qed.
End decode.

(** ** Loading *)

(** Cache entry [x] with the contents of [nd]. *)
Definition loaded (x nd : inode) : inode :=
  x <| i_type := i_type nd |> <| i_major := i_major nd |> <| i_minor := i_minor nd |> <| i_nlink := i_nlink nd |>
    <| i_size := i_size nd |> <| i_addrs := i_addrs nd |> <| i_valid := 1 |>.

Lemma txn_rebase me pid st s0 bl H V s s' :
  txn me pid st s0 bl [] H V s -> frame [Finodes] s s' -> txn me pid st s' bl [] H V s'.
Proof.
  intros T F. pose proof T as [C Ht _ Hli Hlk Ho Hs Hbl Hc]. frame_use F Flog. frame_use F Flocks. frame_use F Fdisk.
  split; try done.
  - by eapply cache_frame; [exact F|..].
  - eapply (thread_ok_bframe [Finodes]); [by apply bframe_frame|done|done|done].
  - destruct Hli. split; by rewrite <- Hfr.
  - congruence.
  - by rewrite <- Hfr.
  - by rewrite <- Hfr.
  - intros n. rewrite <- Hfr1. auto.
Qed.

Lemma wp_buf_load {EN : Env} me pid st s0 bl dirty V n i k off d Q s :
  txn me pid st s0 bl dirty [(i, n)] V s -> V !! n = Some d -> 0 <= off -> off + Z.of_nat k <= BSIZE ->
  Q (load k (Z.to_nat off) d) s -> wp (buf_load k i off) Q s.
Proof.
  intros T HV Ho Hk HQ. destruct (txn_data _ _ _ _ _ _ _ _ _ _ T) as (b & Hb & HVb & Hl).
  rewrite HV in HVb. injection HVb as ->. unfold buf_load. kstep.
  rewrite bool_decide_eq_true_2 by (rewrite Hl; unfold BSIZE in *; lia). by kstep.
Qed.

Section ilock.
Context {EN : Env} (me : nat) (pid st : Z).

Lemma wp_ilock s0 bl V ip x nd d Q s :
  txn me pid st s0 bl [] [] V s -> k_inodes s !! ip = Some x -> 1 <= i_ref x -> sl_locked (i_lock x) = 0 -> i_valid x = 0 ->
  i_dev x = ROOTDEV -> i_inum x = i_inum nd -> dinode_ok nd -> i_type nd <> 0 -> block_no (inode_block s nd) ->
  V !! inode_block s nd = Some (with_dinode nd d) -> length d = Z.to_nat BSIZE ->
  (forall s', k_inodes s' = <[ip := loaded (x <| i_lock := mksleeplock 1 pid |>) nd]> (k_inodes s) ->
     txn me pid st s' bl [] [] V s' -> Q tt s') ->
  wp (ilock (Some ip)) Q s.
Proof.
  intros T Hx Hr Hlk Hv Hdev Hinum Hok Hty Hib HV Hd HQ. unfold ilock. kstep.
  rewrite (proj2 (Z.ltb_ge _ _)) by lia. kstep.
  apply (wp_acquiresleep me pid (SLInode ip) (i_lock x)); [apply T|simpl; by rewrite Hx|done|]. intros s1 F1. simpl in F1.
  rewrite Hx in F1. set (y := x <| i_lock := mksleeplock 1 pid |>) in *.
  assert (frame [Finodes] s s1) as Fs by (etrans; [|by apply (frame_more [])]; frame_solve).
  assert (ip < length (k_inodes s))%nat as Hlt by (by eapply lookup_lt_Some).
  pose proof (txn_rebase _ _ _ _ _ _ _ _ _ T Fs) as T1. frame_use F1 Finodes. frame_use Fs Fsb.
  assert (k_inodes s1 !! ip = Some y) as Hy by (rewrite <- Hfr; by apply list_lookup_insert_eq).
  kstep. change (i_valid y) with (i_valid x). rewrite Hv. change (0 =? 0) with true. kstep.
  change (i_dev y) with (i_dev x). change (i_inum y) with (i_inum x). rewrite Hdev, Hinum, <- Hfr0. fold (inode_block s nd).
  rewrite u32_small by (destruct Hib; lia). eapply txn_bread; [exact T1|exact HV|]. intros i s2 T2. kstep.
  pose proof (dinode_off_range (i_inum nd)) as Hro. set (off := dinode_off (i_inum nd)) in *.
  do 5 (eapply wp_buf_load; [exact T2|exact HV|lia|lia|]; kstep).
  destruct (txn_data _ _ _ _ _ _ _ _ _ _ T2) as (b & Hb & HVb & Hl). rewrite HV in HVb. injection HVb as HVb.
  pose proof (bframe_get Finodes _ _ _ (tx_frame _ _ _ _ _ _ _ _ _ T2) eq_refl : k_inodes s1 = k_inodes s2) as Ei.
  destruct (decode_dinode nd d Hok Hd) as (E1 & E2 & E3 & E4 & E5 & E6). fold off in E1, E2, E3, E4, E5, E6.
  kstep. rewrite <- HVb, E1, E2, E3, E4, E5, E6. clear E1 E2 E3 E4 E5 E6.
  kstep. eapply wp_upd_inode; [rewrite <- Ei; exact Hy|]. kstep.
  match goal with |- wp _ _ ?z => set (s3 := z) end.
  assert (frame [Finodes] s2 s3) as F3 by (unfold s3; frame_solve).
  pose proof (txn_rebase _ _ _ _ _ _ _ _ _ T2 F3) as T3.
  eapply txn_brelse; [exact T3|exact HV|]. intros s4 T4. kstep.
  pose proof (bframe_get Finodes _ _ _ (tx_frame _ _ _ _ _ _ _ _ _ T4) eq_refl : k_inodes s3 = k_inodes s4) as Ei4.
  assert (k_inodes s4 = <[ip := (loaded y nd) <| i_valid := i_valid y |>]> (k_inodes s)) as Hi4.
  { rewrite <- Ei4. unfold s3. kfields. rewrite <- Ei, <- Hfr, list_insert_insert_eq. done. }
  eapply wp_upd_inode; [rewrite Hi4; by apply list_lookup_insert_eq|]. rewrite (proj2 (Z.eqb_neq _ 0)) by done. kstep.
  apply HQ; [kfields; by rewrite Hi4, list_insert_insert_eq|]. eapply txn_rebase; [exact T4|frame_solve].
Qed.

(** C32. [ilock] reads back what [iupdate] wrote. After [iupdate] of an inode, the cache entry may be recycled with whatever stood in it and claimed for the same inode number as [iget] does; [ilock] then takes its lock and loads exactly the type, device numbers, link count, size and block addresses that were written, although they went through the bytes of the inode block, and the transaction goes on with that block in it. *)
Theorem iupdate_ilock bl V ip nd x d s :
  k_inodes s !! ip = Some nd -> txn me pid st s bl [] [] V s -> i_dev nd = ROOTDEV -> dinode_ok nd -> i_type nd <> 0 ->
  block_no (inode_block s nd) -> V !! inode_block s nd = Some d -> length d = Z.to_nat BSIZE ->
  (S (length bl) < NBUF)%nat -> sl_locked (i_lock x) = 0 ->
  let claimed := x <| i_dev := ROOTDEV |> <| i_inum := i_inum nd |> <| i_ref := 1 |> <| i_valid := 0 |> in
  wp (iupdate ip;; upd_inode ip (fun _ => claimed);; ilock (Some ip)) (fun _ s' =>
    k_inodes s' = <[ip := loaded (claimed <| i_lock := mksleeplock 1 pid |>) nd]> (k_inodes s) /\
    txn me pid st s' (absorb bl (inode_block s nd)) [] [] (<[inode_block s nd := with_dinode nd d]> V) s') s.
Proof.
  intros Hip T Hdev Hok Hty Hib HV Hd Hlen Hlk claimed. kstep.
  eapply (wp_iupdate me pid st s ip nd); [done|exact T|done|apply Hok|done|exact HV|done|]. intros s1 T1. kstep.
  pose proof (bframe_get Finodes _ _ _ (tx_frame _ _ _ _ _ _ _ _ _ T1) eq_refl : k_inodes s = k_inodes s1) as Ei.
  pose proof (bframe_get Fsb _ _ _ (tx_frame _ _ _ _ _ _ _ _ _ T1) eq_refl : k_sb s = k_sb s1) as Es.
  assert (ip < length (k_inodes s1))%nat by (rewrite <- Ei; by eapply lookup_lt_Some).
  eapply wp_upd_inode; [rewrite <- Ei; exact Hip|]. kstep.
  match goal with |- wp _ _ ?z => set (s2 := z) end.
  assert (inode_block s2 nd = inode_block s nd) as Eb by (unfold inode_block; by rewrite Es).
  eapply (wp_ilock s2 _ _ ip claimed nd d).
  - eapply txn_rebase; [exact T1|unfold s2; frame_solve].
  - unfold s2. kfields. by apply list_lookup_insert_eq.
  - simpl. lia.
  - done.
  - done.
  - done.
  - done.
  - done.
  - done.
  - by rewrite Eb.
  - rewrite Eb. by rewrite lookup_insert_eq.
  - done.
  - intros s3 Hi3 T3. split; [|done]. rewrite Hi3. unfold s2. kfields. by rewrite list_insert_insert_eq, Ei.
Qed.
End ilock.

Section example.
#[local] Existing Instance small_machine.

Lemma iupdate_ilock_witness :
  let claimed := zero_inode <| i_dev := ROOTDEV |> <| i_inum := 1 |> <| i_ref := 1 |> <| i_valid := 0 |> in
  wp (iupdate 3;; upd_inode 3 (fun _ => claimed);; ilock (Some 3%nat)) (fun _ s' =>
    k_inodes s' = <[3%nat := loaded (claimed <| i_lock := mksleeplock 1 1 |>) note_inode]> (k_inodes note) /\
    txn 0 1 2 s' [32] [] [] (<[32 := with_dinode note_inode (block_of 0)]> note_disk) s') note.
Proof.
  apply (iupdate_ilock 0 1 2 [] note_disk 3 note_inode zero_inode (block_of 0) note).
  - reflexivity.
  - exact note_txn.
  - reflexivity.
  - split; [repeat constructor; simpl; lia|by vm_compute|split; [reflexivity|]]. repeat constructor; simpl; lia.
  - discriminate.
  - unfold block_no. by vm_compute.
  - reflexivity.
  - apply length_replicate.
  - vm_compute. lia.
  - reflexivity.
Defined.
End example.
