(* ===== verification/Dir.v ===== *)
(** Directories: [iget], [dirlookup] and the path scanner [skipelem] of [kernel/fs.c].

    [dir_is] describes a directory as a list of entries; [find_entry] is the lookup in that list, and
    [elements] the names a path goes through. *)
From S2P Require Import Prelude Types Kstate Cstring Spinlock Frame Printf Accounting Kalloc Vm Proc Bio Bcache Blocks Log Commit Transaction Fs Content.
From stdpp Require Import functions base numbers list gmap strings.
From Stdlib Require Import ZArith Lia.

Local Open Scope Z_scope.
Local Open Scope xv6_scope.

(** ** Names *)

(** A buffer whose first [n] bytes can be compared. *)
Definition readable (n : nat) (l : list Z) : Prop := (n <= length l)%nat \/ 0 ∈ l.

Lemma strncmp_spec n : forall p q, readable n p -> readable n q ->
  exists r, strncmp p q n = Some r /\ (r = 0 <-> take n (cstr p) = take n (cstr q)).
Proof.
  induction n as [|n IH]; intros p q Hp Hq; [by exists 0|].
  destruct p as [|a p]; [destruct Hp as [?|?%elem_of_nil]; simpl in *; [lia|done]|].
  destruct q as [|b q]; [destruct Hq as [?|?%elem_of_nil]; simpl in *; [lia|done]|].
  simpl. destruct (Z.eqb_spec a 0) as [->|Ha]; simpl.
  - exists (0 - b). split; [done|]. destruct (Z.eqb_spec b 0) as [->|Hb]; simpl; [done|]. split; [lia|done].
  - destruct (Z.eqb_spec a b) as [<-|Hab]; simpl.
    + rewrite (proj2 (Z.eqb_neq a 0)) by done.
      destruct (IH p q) as (r & Hr & Hiff).
      * destruct Hp as [?|[?|?]%elem_of_cons]; [left; simpl in *; lia|done|by right].
      * destruct Hq as [?|[?|?]%elem_of_cons]; [left; simpl in *; lia|done|by right].
      * exists r. split; [done|]. simpl. rewrite Hiff. split; [by intros ->|by intros [= ->]].
    + exists (a - b). split; [done|]. split; [lia|]. destruct (Z.eqb_spec b 0); simpl; [done|]. by intros [= ?].
Qed.

(** ** The inode cache *)

Section iget.
Context {EN : Env}.

Definition is_inode (dev inum : Z) (nd : inode) : Prop := 0 < i_ref nd /\ i_dev nd = dev /\ i_inum nd = inum.
#[global] Instance is_inode_dec dev inum nd : Decision (is_inode dev inum nd).
Proof. apply _. Defined.

(** Entry [ip] becomes a reference to the inode: it is an entry for it, or a free one when there is
    none. *)
Definition igets (dev inum : Z) (inodes : list inode) (ip : nat) (nd nd' : inode) : Prop :=
  inodes !! ip = Some nd /\ i_ref nd' = i_ref nd + 1 /\ i_dev nd' = dev /\ i_inum nd' = inum /\
  ((is_inode dev inum nd /\ nd' = nd <| i_ref := i_ref nd + 1 |>) \/
   (i_ref nd = 0 /\ i_valid nd' = 0 /\ Forall (fun x => ~ is_inode dev inum x) inodes)).

Lemma wp_iget dev inum Q s :
  hart_ok (k_hart s) -> k_locks s !! LIcache = None -> length (k_inodes s) = NINODE ->
  Forall (fun x => 0 <= i_ref x < 2 ^ 31 - 1) (k_inodes s) -> Exists (fun x => is_inode dev inum x \/ i_ref x = 0) (k_inodes s) ->
  (forall ip nd nd' s', igets dev inum (k_inodes s) ip nd nd' -> frame [Finodes] s s' ->
     k_inodes s' = <[ip := nd']> (k_inodes s) -> Q ip s') ->
  wp (iget dev inum) Q s.
Proof.
  intros Hh Hl Hlen Hrefs Hfree HQ. unfold iget. kstep. apply wp_acquire; [done..|]. kstep.
  apply (wp_kloop (fun '(k, empty) s1 => s1 = acq LIcache s /\ (k <= NINODE)%nat /\
    Forall (fun x => ~ is_inode dev inum x) (take k (k_inodes s)) /\
    match empty with
    | None => Forall (fun x => i_ref x <> 0) (take k (k_inodes s))
    | Some j => exists x, k_inodes s !! j = Some x /\ i_ref x = 0
    end) (fun '(k, _) => (NINODE - k)%nat)).
  - split_and!; [done|lia|by rewrite take_0|by rewrite take_0].
  - lia.
  - intros [k empty] s1 (-> & Hk & Hno & Hem). case_bool_decide as Hlt.
    + destruct (lookup_lt_is_Some_2 (k_inodes s) k) as [x Hx]; [lia|]. kstep.
      pose proof (Forall_lookup_1 _ _ _ _ Hrefs Hx) as Hr. simpl in Hr.
      destruct ((0 <? i_ref x) && (i_dev x =? dev) && (i_inum x =? inum)) eqn:E.
      * apply andb_prop in E as [[E1%Z.ltb_lt E2%Z.eqb_eq]%andb_prop E3%Z.eqb_eq]. kstep.
        eapply (wp_release_frame [Finodes] _ _ s); [done|done|frame_solve|done..|]. intros F. kstep.
        eapply HQ; [|exact F|kfields; reflexivity]. unfold igets, set. cbn [i_ref i_dev i_inum]. rewrite i32_small by lia.
        split_and!; try done. left. done.
      * kstep. split; [|lia]. split_and!; [done|lia| |].
        -- rewrite (take_S_r _ _ _ Hx). apply Forall_app. split; [done|]. constructor; [|done].
           intros (? & <- & <-). by rewrite (proj2 (Z.ltb_lt _ _)), !Z.eqb_refl in E by done.
        -- destruct empty as [j|]; simpl; [done|].
           destruct (Z.eqb_spec (i_ref x) 0); [by exists x|]. rewrite (take_S_r _ _ _ Hx). by apply Forall_app; auto.
    + kstep. rewrite take_ge in Hno, Hem by lia. destruct empty as [j|].
      * destruct Hem as (x & Hx & Hz). kstep.
        eapply (wp_release_frame [Finodes] _ _ s); [done|done|frame_solve|done..|]. intros F. kstep.
        eapply HQ; [|exact F|kfields; reflexivity]. unfold igets. simpl. split_and!; try done; [lia|]. by right.
      * exfalso. rewrite Forall_forall in Hno, Hem. apply Exists_exists in Hfree as (x & Hx & [Hz|Hz]); [by apply (Hno x)|by apply (Hem x)].
Qed.
End iget.

(** ** Looking up a name *)

(** The file holds the directory [ents]: inode numbers, zero for a free entry, and names. *)
Record dir_is (V : disk) (nd : inode) (ents : list (Z * list Z)) : Prop := {
  di_size : i_size nd = DIRENT_SIZE * Z.of_nat (length ents);
  di_entry k e : ents !! k = Some e ->
    fbytes V nd (DIRENT_SIZE * Z.of_nat k) (le_bytes 2 e.1 ++ e.2) /\ length e.2 = Z.to_nat DIRSIZ /\ 0 <= e.1 < 2 ^ 16
}.

(** An entry in use under [name]: names are compared as strings of at most [DIRSIZ] characters. *)
Definition entry_is (name : list Z) (e : Z * list Z) : Prop :=
  e.1 <> 0 /\ take (Z.to_nat DIRSIZ) (cstr name) = take (Z.to_nat DIRSIZ) (cstr e.2).
#[global] Instance entry_is_dec name e : Decision (entry_is name e).
Proof. apply _. Defined.

Lemma fbytes_unique V nd off xs ys : length xs = length ys -> fbytes V nd off xs -> fbytes V nd off ys -> xs = ys.
Proof.
  intros Hl Hx Hy. apply list_eq_same_length with (length xs); [done|done|]. intros i x y _ Hi Hj.
  specialize (Hx _ _ Hi). specialize (Hy _ _ Hj). congruence.
Qed.

Section dirlookup.
Context {EN : Env} (me : nat) (pid : Z) (s : kstate) (dp : nat) (nd : inode).
Context (bl : list Z) (V : disk) (ents : list (Z * list Z)).
Hypothesis Hdp : k_inodes s !! dp = Some nd.
Hypothesis Hf : file_ok V nd.
Hypothesis Hdir : dir_is V nd ents.

Lemma wp_read_dirent k e msg Q s1 :
  view me pid s bl [] [] V s1 -> ents !! k = Some e -> (forall s', view me pid s bl [] [] V s' -> Q e s') ->
  wp (read_dirent dp (DIRENT_SIZE * Z.of_nat k) msg) Q s1.
Proof.
  intros T He HQ. destruct (di_entry _ _ _ Hdir k e He) as (Hb & Hl & Hr). pose proof (lookup_lt_Some _ _ _ He) as Hk.
  pose proof (di_size _ _ _ Hdir) as Hs. pose proof (fi_size _ _ Hf) as Hm. change (MAXFILE * BSIZE) with 274432 in Hm.
  change DIRENT_SIZE with 16 in *. unfold read_dirent. change DIRENT_SIZE with 16. kstep.
  eapply (view_readi me pid s dp nd); [done|exact T|done|lia|lia|lia|]. intros bytes s2 T2 Hlen Hfb. kstep.
  assert (clip (i_size nd) (16 * Z.of_nat k) 16 = 16) as Hc.
  { unfold clip. rewrite (proj2 (Z.ltb_ge _ _)) by lia. done. }
  rewrite Hc in *. cbn [fst]. change (negb (16 =? 16)) with false. cbv iota. kstep. cbn [snd].
  assert (bytes = le_bytes 2 e.1 ++ e.2) as ->.
  { eapply fbytes_unique; [|exact Hfb|exact Hb]. rewrite length_app, length_le_bytes, Hl. change (Z.to_nat DIRSIZ) with 14%nat. lia. }
  rewrite drop_app_length' by (by rewrite length_le_bytes).
  assert (load 2 0 (le_bytes 2 e.1 ++ e.2) = e.1) as ->.
  { unfold load, slice. rewrite drop_0, take_app_length' by (by rewrite length_le_bytes). rewrite le_value_bytes.
    apply Z.mod_small. done. }
  destruct e. by apply HQ.
Qed.

Lemma dirent_offs_eq : dirent_offs (i_size nd) = (fun k => DIRENT_SIZE * k) <$> seqZ 0 (Z.of_nat (length ents)).
Proof.
  unfold dirent_offs. rewrite (di_size _ _ _ Hdir). do 2 f_equal. unfold DIRENT_SIZE. Z.to_euclidean_division_equations. lia.
Qed.

Lemma offs_middle pre x post : dirent_offs (i_size nd) = pre ++ x :: post ->
  x = DIRENT_SIZE * Z.of_nat (length pre) /\ (length pre < length ents)%nat.
Proof.
  rewrite dirent_offs_eq. intros (xs & ys & -> & E & Hs)%fmap_app_inv.
  symmetry in E. apply fmap_cons_inv in E as (y & zs & -> & -> & ->).
  apply seqZ_middle in Hs as [-> ?]. by rewrite length_fmap.
Qed.

Lemma entry_matches name e k : readable (Z.to_nat DIRSIZ) name -> ents !! k = Some e -> 
  exists r, namecmp name e.2 = Some r /\ (e.1 <> 0 -> r = 0 <-> entry_is name e).
Proof.
  intros Hn He. destruct (di_entry _ _ _ Hdir k e He) as (_ & Hl & _).
  destruct (strncmp_spec (Z.to_nat DIRSIZ) name e.2 Hn) as (r & Hr & Hiff); [left; lia|].
  exists r. split; [done|]. intros H0. rewrite Hiff. unfold entry_is. naive_solver.
Qed.

(** C26. A thread that holds no buffer, inside a transaction or not, looks up a name in a directory. [dirlookup] finds the first entry in use whose name equals the given one as strings of at most 14 characters. If there is one, the result is the offset of that entry and a cache entry for its inode, with one more reference; if there is none the result is null. In both cases only the buffer cache changes besides that entry, so the log and the disk are as before; every block reads as before and no buffer is held. The inode found must be in the inode cache already or a cache entry must be free, since [iget] panics otherwise. *)
Theorem dirlookup_first name :
  i_type nd = T_DIR -> readable (Z.to_nat DIRSIZ) name -> view me pid s bl [] [] V s ->
  k_locks s !! LIcache = None -> length (k_inodes s) = NINODE ->
  Forall (fun x => 0 <= i_ref x < 2 ^ 31 - 1) (k_inodes s) ->
  (forall k e, list_find (entry_is name) ents = Some (k, e) ->
     Exists (fun x => is_inode ROOTDEV e.1 x \/ i_ref x = 0) (k_inodes s)) ->
  wp (dirlookup dp name) (fun r s' =>
    match list_find (entry_is name) ents with
    | None => r = None /\ view me pid s bl [] [] V s'
    | Some (k, e) => exists ip x x' s1, r = Some (ip, DIRENT_SIZE * Z.of_nat k) /\ view me pid s bl [] [] V s1 /\
        igets ROOTDEV e.1 (k_inodes s) ip x x' /\ frame [Finodes] s1 s' /\ k_inodes s' = <[ip := x']> (k_inodes s)
    end) s.
Proof.
  intros Hty Hn T Hlk Hlen Hrefs Hfree. unfold dirlookup. kstep. rewrite Hty. kbool. kstep.
  apply (wp_kfind (fun pre s1 => view me pid s bl [] [] V s1 /\ Forall (fun e => ~ entry_is name e) (take (length pre) ents))).
  - split; [done|]. by rewrite take_0.
  - intros pre x post s1 [-> Hk]%offs_middle [T1 Hno].
    destruct (lookup_lt_is_Some_2 ents (length pre) Hk) as [e He]. kstep.
    eapply wp_read_dirent; [exact T1|exact He|]. intros s2 T2. kstep.
    assert (~ entry_is name e -> Forall (fun e => ~ entry_is name e) (take (length (pre ++ [DIRENT_SIZE * Z.of_nat (length pre)])) ents)) as Hnext.
    { intros Hne. rewrite length_app, Nat.add_1_r, (take_S_r _ _ _ He). apply Forall_app. auto. }
    destruct (Z.eqb_spec e.1 0) as [Hz|Hz]; kstep; [split; [done|]; apply Hnext; by intros [? _]|].
    destruct (entry_matches name e _ Hn He) as (r & Hr & Hiff). eapply wp_deref; [exact Hr|].
    destruct (Z.eqb_spec r 0) as [->|Hne]; kstep; [|split; [done|]; apply Hnext; intros ?; by apply Hne, Hiff].
    pose proof (vw_frame _ _ _ _ _ _ _ _ T2) as F2.
    pose proof (bframe_get Finodes _ _ _ F2 eq_refl : k_inodes s = k_inodes s2) as Ei.
    pose proof (bframe_get Flocks _ _ _ F2 eq_refl : k_locks s = k_locks s2) as El.
    assert (list_find (entry_is name) ents = Some (length pre, e)) as Hfind.
    { apply list_find_Some. split_and!; [done|by apply Hiff|].
      intros j z Hj Hlt. rewrite Forall_lookup in Hno. apply (Hno j). by rewrite lookup_take_lt. }
    rewrite (fi_dev _ _ Hf). apply wp_iget; [apply T2|congruence|congruence|by rewrite <- Ei|rewrite <- Ei; by eapply Hfree|].
    intros ip y y' s3 Hig F3 Hi3. kstep. rewrite <- Ei in Hig, Hi3. rewrite Hfind. by exists ip, y, y', s2.
  - intros s1 [T1 Hno]. rewrite take_ge in Hno by (rewrite dirent_offs_eq, length_fmap, length_seqZ; lia).
    by rewrite (proj2 (list_find_None _ _) Hno).
Qed.
End dirlookup.

(** ** Paths *)

Definition emit (cur : list Z) : list (list Z) := match cur with [] => [] | _ => [cur] end.

(** The names a path goes through: what stands between slashes, up to the NUL; [cur] is the name
    being read. *)
Fixpoint elements (cur path : list Z) : list (list Z) :=
  match path with
  | [] => emit cur
  | c :: path => if c =? 0 then emit cur else if c =? 47 then emit cur ++ elements [] path else elements (cur ++ [c]) path
  end.

Lemma elements_slashes path : elements [] (skip_slashes path) = elements [] path.
Proof.
  induction path as [|c path IH]; [done|]. simpl. destruct (Z.eqb_spec c 47) as [->|]; [by rewrite IH|].
  simpl. by rewrite (proj2 (Z.eqb_neq c 47)).
Qed.

Lemma elements_split path : forall cur, 
  elements cur path = emit (cur ++ (split_elem path).1) ++ elements [] (split_elem path).2.
Proof.
  induction path as [|c path IH]; intros cur; simpl; [by rewrite !app_nil_r|].
  destruct (Z.eqb_spec c 47) as [->|H47]; simpl; [by rewrite app_nil_r|].
  destruct (Z.eqb_spec c 0) as [->|H0]; simpl; [by rewrite !app_nil_r|].
  rewrite IH. destruct (split_elem path) as [e r]. simpl. by rewrite <- app_assoc.
Qed.

Lemma skip_terminated path : 0 ∈ path -> 0 ∈ skip_slashes path.
Proof.
  induction path as [|c path IH]; [done|]. simpl. intros Hin. destruct (Z.eqb_spec c 47) as [->|]; [|done].
  apply IH. by apply elem_of_cons in Hin as [?|?].
Qed.

Lemma skip_head path c p : skip_slashes path = c :: p -> c <> 47.
Proof.
  induction path as [|x path IH]; [done|]. simpl. destruct (Z.eqb_spec x 47); [done|]. by intros [= -> _].
Qed.

Lemma skip_length path : (length (skip_slashes path) <= length path)%nat.
Proof. induction path as [|c path IH]; simpl; [done|]. destruct (c =? 47); simpl; lia. Qed.

Lemma split_rest path : 0 ∈ path ->
  0 ∈ (split_elem path).2 /\ length path = (length (split_elem path).1 + length (split_elem path).2)%nat /\
  Forall (fun c => c <> 0) (split_elem path).1.
Proof.
  induction path as [|c path IH]; [done|]. simpl. intros Hin.
  destruct ((c =? 47) || (c =? 0)) eqn:E; [done|]. apply orb_false_elim in E as [_ E%Z.eqb_neq].
  apply elem_of_cons in Hin as [?|Hin]; [done|]. destruct (IH Hin) as (H1 & H2 & H3).
  destruct (split_elem path) as [e r]. simpl in *. split_and!; [done|lia|by constructor].
Qed.

(** The string in a [name] buffer of [DIRSIZ] bytes, which has no NUL when the name fills it. *)
Definition name_of (name : list Z) : list Z := take (Z.to_nat DIRSIZ) (cstr name).

Section skipelem.
Context {EN : Env}.

Lemma cstr_id l : Forall (fun c => c <> 0) l -> cstr l = l.
Proof. induction 1 as [|c l Hc _ IH]; [done|]. simpl. rewrite (proj2 (Z.eqb_neq c 0)) by done. simpl. by rewrite IH. Qed.

Lemma wp_skipelem path name Q s :
  0 ∈ path -> length name = Z.to_nat DIRSIZ ->
  (elements [] path = [] -> Q None s) ->
  (forall e path' name' rest, elements [] path = e :: rest -> elements [] path' = rest -> 0 ∈ path' ->
     (length path' < length path)%nat -> length name' = Z.to_nat DIRSIZ -> name_of name' = take (Z.to_nat DIRSIZ) e ->
     Q (Some (path', name')) s) ->
  wp (skipelem path name) Q s.
Proof.
  intros Hz Hl HN HS. unfold skipelem. pose proof (skip_terminated _ Hz) as Hz1. pose proof (skip_length path) as Hlen1.
  destruct (skip_slashes path) as [|c p1] eqn:E1; [by apply elem_of_nil in Hz1|].
  kstep. eapply wp_deref; [done|].
  rewrite <- elements_slashes, E1 in HN, HS. destruct (Z.eqb_spec c 0) as [->|Hc]; kstep; [by apply HN|].
  pose proof (skip_head _ _ _ E1) as Hc'. pose proof (elements_split (c :: p1) []) as Hel.
  destruct (split_rest _ Hz1) as (Hr & Hsum & Hnz).
  assert (exists e0, (split_elem (c :: p1)).1 = c :: e0) as [e0 He0].
  { simpl. rewrite (proj2 (Z.eqb_neq c 47)), (proj2 (Z.eqb_neq c 0)) by done. simpl. destruct (split_elem p1). by eexists. }
  destruct (split_elem (c :: p1)) as [e r]. cbn [fst snd] in *. subst e. cbn [emit app] in Hel.
  rewrite bool_decide_eq_true_2 by done. pose proof (skip_terminated _ Hr) as Hr1. pose proof (skip_length r) as Hlr.
  destruct (skip_slashes r) as [|c2 r2] eqn:E2; [by apply elem_of_nil in Hr1|].
  assert (elements [] (c2 :: r2) = elements [] r) as Erest by (rewrite <- E2; apply elements_slashes).
  destruct (Z.leb_spec DIRSIZ (Z.of_nat (length (c :: e0)))) as [Hbig|Hsmall]; kstep;
    (eapply wp_deref; [done|]; kstep).
  - eapply HS; [exact Hel|exact Erest|done|simpl in *; lia| |].
    + rewrite length_take. lia.
    + unfold name_of. rewrite cstr_id by (by apply Forall_take). by rewrite take_take, Nat.min_id.
  - eapply HS; [exact Hel|exact Erest|done|simpl in *; lia| |].
    + rewrite length_splice; [done|]. rewrite length_app. simpl in *. lia.
    + unfold name_of, splice. rewrite take_0. cbn [app]. rewrite <- app_assoc. cbn [app].
      f_equal. by apply (cstr_app_zero (c :: e0)).
Qed.

(** The loop of [namex] over the elements of a path, collecting the names it looks up. *)
Definition names (path name : list Z) : K (list (list Z)) :=
  kloop (S (length path)) (fun '(path, name, acc) =>
    e ← skipelem path name;
    match e with
    | None => mret (inr acc)
    | Some (path, name) => mret (inl (path, name, acc ++ [name_of name]))
    end) (path, name, []).

(** C33. Scanning a path with [skipelem] until it returns null yields the elements of the path in order: the nonempty pieces between slashes up to the NUL, each cut to 14 characters. The scan ends within as many turns as the path has bytes. *)
Theorem skipelem_elements path name s :
  0 ∈ path -> length name = Z.to_nat DIRSIZ ->
  wp (names path name) (fun r s' => r = take (Z.to_nat DIRSIZ) <$> elements [] path /\ s' = s) s.
Proof.
  intros Hz Hl. unfold names.
  apply (wp_kloop (fun '(p, n, acc) s1 => s1 = s /\ 0 ∈ p /\ length n = Z.to_nat DIRSIZ /\ 
    acc ++ (take (Z.to_nat DIRSIZ) <$> elements [] p) = take (Z.to_nat DIRSIZ) <$> elements [] path)
    (fun '(p, _, _) => length p)).
  - done.
  - lia.
  - intros [[p n] acc] s1 (-> & Hzp & Hln & Hacc). kstep. apply wp_skipelem; [done|done|..].
    + intros E. kstep. rewrite E in Hacc. simpl in Hacc. by rewrite app_nil_r in Hacc.
    + intros e p' n' rest E Er Hz' Hlen' Hln' Hname. kstep. split; [|done]. split_and!; [done..|].
      rewrite <- app_assoc, Er, Hname. rewrite E, fmap_cons in Hacc. done.
Qed.
End skipelem.

(** ** Example: a directory with the entries . and hi in block 46 *)

Definition home_ents : list (Z * list Z) := [(1, lit "." ++ replicate 12 0); (7, lit "hi" ++ replicate 11 0)].
Definition home_block_data : list Z :=
  concat ((fun e => le_bytes 2 e.1 ++ e.2) <$> home_ents) ++ replicate 992 0.
Definition home_inode : inode := mkinode ROOTDEV 1 1 (mksleeplock 0 0) 1 T_DIR 0 0 1 32 (46 :: replicate 12 0).
Definition home_disk : disk := {[ 46 := home_block_data ]}.
Definition home : kstate :=
  small_boot <| k_disk := home_disk |> <| k_log := mklog 2 30 0 0 1 0 (replicate 30 0) |>
    <| k_inodes ::= <[3%nat := home_inode]> |>.

Section example.
#[local] Existing Instance small_machine.

Lemma home_view : view 0 1 home [] [] [] home_disk home.
Proof.
  split; try done.
  - apply (cache_ext 1 no_refs _ []); [done|done|]. apply (zero_cache 1 home); [done..|]. by apply map_Forall_singleton.
  - eapply (thread_ok_bframe [Fdisk; Flog; Finodes]); [|done|done|apply small_boot_thread].
    apply bframe_frame; [frame_solve|done].
  - simpl; consts; lia.
Qed.

Lemma home_file : file_ok home_disk home_inode.
Proof.
  split; try done. intros k Hk. change (nblocks (i_size home_inode)) with 1 in Hk.
  replace k with 0 by lia. split; [done|]. by eexists.
Qed.

Lemma home_dir : dir_is home_disk home_inode home_ents.
Proof.
  split; [done|]. intros k e He. destruct k as [|[|k]]; [injection He as <-|injection He as <-|done];
    (split_and!; [|done|by vm_compute..]); intros i b Hi; 
    (assert (i < 16)%nat as Hlt by (by apply lookup_lt_Some in Hi); do 16 (destruct i as [|i]; [injection Hi as <-; reflexivity|]); lia).
Qed.

Lemma dirlookup_first_witness :
  wp (dirlookup 3 (lit "hi")) (fun r s' => exists ip x x' s1, r = Some (ip, 16) /\ view 0 1 home [] [] [] home_disk s1 /\
    igets ROOTDEV 7 (k_inodes home) ip x x' /\ frame [Finodes] s1 s' /\ k_inodes s' = <[ip := x']> (k_inodes home)) home.
Proof.
  apply (dirlookup_first 0 1 home 3 home_inode [] home_disk home_ents) with (name := lit "hi").
  - reflexivity.
  - exact home_file.
  - exact home_dir.
  - reflexivity.
  - right. apply (bool_decide_unpack _). by vm_compute.
  - exact home_view.
  - reflexivity.
  - reflexivity.
  - apply Forall_insert; [apply Forall_replicate|]; simpl; lia.
  - intros k e _. left. right. reflexivity.
Defined.

Lemma skipelem_elements_witness :
  wp (names (lit "//a/bb///c") (replicate 14 0)) (fun r s' => r = [[97]; [98; 98]; [99]] /\ s' = bss) bss.
Proof.
  apply (skipelem_elements (lit "//a/bb///c") (replicate 14 0) bss); [|reflexivity].
  apply (bool_decide_unpack _). by vm_compute.
Defined.
End example.
