(* ===== verification/Mkfs.v ===== *)
(** [mkfs/mkfs.c], the host program that makes the first file system, and the image it writes.

    The image file is a map from block numbers to blocks.  Writes to it succeed; reading a block that was never written
    stops the program, as [exit(1)] does, and an assertion that fails stops it too.  The host is little-endian.  What
    the kernel's file system finds on the image is the subject of [Image]. *)
From S2P Require Import Prelude Types Kstate Cstring Spinlock Frame Printf Accounting Kalloc Vm Proc Bio Bcache Blocks Log Commit Transaction Fs Content Inode Dir.
From stdpp Require Import base numbers list gmap strings.
From Stdlib Require Import ZArith Lia.

Local Open Scope Z_scope.
Local Open Scope xv6_scope.

(** ** State *)

Definition NINODES : Z := 200.
Definition nbitmap : Z := FSSIZE / (BSIZE * 8) + 1.
Definition ninodeblocks : Z := NINODES / IPB + 1.
Definition nlog : Z := LOGSIZE.
Definition nmeta : Z := 2 + nlog + ninodeblocks + nbitmap.

Record mkst := mkm { m_img : gmap Z (list Z); m_sb : superblock; m_freeinode : Z; m_freeblock : Z }.
#[export] Instance mkst_eta : Eta mkst := fun x => mkm (m_img x) (m_sb x) (m_freeinode x) (m_freeblock x).

(** [struct dinode] *)
Record dinode := mkdin { d_type : Z; d_major : Z; d_minor : Z; d_nlink : Z; d_size : Z; d_addrs : list Z }.
#[export] Instance dinode_eta : Eta dinode := fun x =>
  mkdin (d_type x) (d_major x) (d_minor x) (d_nlink x) (d_size x) (d_addrs x).

Inductive mres (A : Type) := MOk (a : A) (s : mkst) | MExit | MAssert.
Arguments MOk {A} a s.
Arguments MExit {A}.
Arguments MAssert {A}.
Definition M (A : Type) : Type := mkst -> mres A.
#[export] Instance M_ret : MRet M := fun A a s => MOk a s.
#[export] Instance M_bind : MBind M := fun A B f m s =>
  match m s with MOk a s' => f a s' | MExit => MExit | MAssert => MAssert end.
Definition mget {A} (f : mkst -> A) : M A := fun s => MOk (f s) s.
Definition mput (f : mkst -> mkst) : M unit := fun s => MOk tt (f s).
Definition massert (b : bool) : M unit := fun s => if b then MOk tt s else MAssert.
Fixpoint mfor {X} (l : list X) (body : X -> M unit) : M unit :=
  match l with [] => mret tt | x :: l => body x;; mfor l body end.
Fixpoint mloop {X R} (fuel : nat) (body : X -> M (X + R)) (v : X) : M R :=
  match fuel with
  | O => fun _ => MAssert
  | S fuel => r ← body v; match r with inl v' => mloop fuel body v' | inr x => mret x end
  end.

(** ** Blocks and inodes *)

(** [ushort xshort(ushort x)] and [uint xint(uint x)] *)
Definition xshort (x : Z) : Z := le_value [u8 x; u8 (Z.shiftr x 8)].
Definition xint (x : Z) : Z := le_value [u8 x; u8 (Z.shiftr x 8); u8 (Z.shiftr x 16); u8 (Z.shiftr x 24)].

(** [void wsect(uint sec, void *buf)] and [void rsect(uint sec, void *buf)] *)
Definition wsect (sec : Z) (buf : list Z) : M unit := mput (set m_img <[u32 (sec * BSIZE) / BSIZE := buf]>).
Definition rsect (sec : Z) : M (list Z) := fun s =>
  match m_img s !! (u32 (sec * BSIZE) / BSIZE) with Some d => MOk d s | None => MExit end.

(** The bytes of a [struct dinode]. *)
Definition dinode_image (d : dinode) : list Z :=
  le_bytes 2 (d_type d) ++ le_bytes 2 (d_major d) ++ le_bytes 2 (d_minor d) ++ le_bytes 2 (d_nlink d) ++
  le_bytes 4 (d_size d) ++ concat (le_bytes 4 <$> d_addrs d).

(** [void winode(uint inum, struct dinode *ip)] *)
Definition winode (inum : Z) (ip : dinode) : M unit :=
  sb ← mget m_sb;
  let bn := u32 (IBLOCK inum sb) in
  buf ← rsect bn;
  wsect bn (splice (Z.to_nat (DINODE_SIZE * (inum mod IPB))) (dinode_image ip) buf).

(** [void rinode(uint inum, struct dinode *ip)] *)
Definition rinode (inum : Z) : M dinode :=
  sb ← mget m_sb;
  let bn := u32 (IBLOCK inum sb) in
  buf ← rsect bn;
  let off := Z.to_nat (DINODE_SIZE * (inum mod IPB)) in
  mret (mkdin (i16 (load 2 off buf)) (i16 (load 2 (off + 2) buf)) (i16 (load 2 (off + 4) buf)) (i16 (load 2 (off + 6) buf))
              (load 4 (off + 8) buf) ((fun k => load 4 (off + 12 + 4 * k) buf) <$> seq 0 13)).

(** [uint ialloc(ushort type)] *)
Definition ialloc (type : Z) : M Z :=
  inum ← mget m_freeinode;
  mput (set m_freeinode (fun n => u32 (n + 1)));;
  winode inum (mkdin (i16 (xshort type)) 0 0 (i16 (xshort 1)) (xint 0) (replicate 13 0));;
  mret inum.

(** [buf[i/8] = buf[i/8] | (0x1 << (i%8))] *)
Definition set_bit (buf : list Z) (i : Z) : list Z :=
  alter (fun c => u8 (Z.lor c (Z.shiftl 1 (i mod 8)))) (Z.to_nat (i / 8)) buf.

(** [void balloc(int used)] *)
Definition balloc (used : Z) : M unit :=
  massert (used <? BSIZE * 8);;
  sb ← mget m_sb;
  wsect (sb_bmapstart sb) (foldl set_bit (replicate (Z.to_nat BSIZE) 0) (seqZ 0 used)).

(** ** Appending to a file *)

(** [freeblock++] *)
Definition next_block : M Z := b ← mget m_freeblock; mput (set m_freeblock (fun n => u32 (n + 1)));; mret b.
Definition addr_of (din : dinode) (k : Z) : Z := default 0 (d_addrs din !! Z.to_nat k).
Definition put_addr (din : dinode) (k v : Z) : dinode := din <| d_addrs ::= <[Z.to_nat k := v]> |>.

(** The address of block [fbn] of the file, allocated where it was not. *)
Definition block_for (din : dinode) (fbn : Z) : M (dinode * Z) :=
  if fbn <? NDIRECT then
    din ← (if xint (addr_of din fbn) =? 0 then b ← next_block; mret (put_addr din fbn (xint b)) else mret din);
    mret (din, xint (addr_of din fbn))
  else
    din ← (if xint (addr_of din NDIRECT) =? 0 then b ← next_block; mret (put_addr din NDIRECT (xint b)) else mret din);
    indirect ← rsect (xint (addr_of din NDIRECT));
    let off := Z.to_nat (4 * (fbn - NDIRECT)) in
    indirect ← (if load 4 off indirect =? 0 then
                  b ← next_block;
                  let indirect := store 4 off (xint b) indirect in
                  wsect (xint (addr_of din NDIRECT)) indirect;;
                  mret indirect
                else mret indirect);
    mret (din, xint (load 4 off indirect)).

(** One turn of the loop of [iappend]: the inode, [off], and the bytes from [p] on. *)
Definition append_turn (v : dinode * Z * list Z) : M (dinode * Z * list Z + dinode * Z) :=
  let '(din, off, p) := v in
  if bool_decide (p = []) then mret (inr (din, off))
  else
    let fbn := off / BSIZE in
    massert (fbn <? MAXFILE);;
    r ← block_for din fbn;
    let '(din, x) := r in
    let n1 := Z.min (Z.of_nat (length p)) ((fbn + 1) * BSIZE - off) in
    buf ← rsect x;
    wsect x (splice (Z.to_nat (off - fbn * BSIZE)) (take (Z.to_nat n1) p) buf);;
    mret (inl (din, u32 (off + n1), drop (Z.to_nat n1) p)).

(** [void iappend(uint inum, void *xp, int n)]: the [n] bytes at [xp]. *)
Definition iappend (inum : Z) (xp : list Z) : M unit :=
  din ← rinode inum;
  r ← mloop (S (length xp)) append_turn (din, xint (d_size din), xp);
  let '(din, off) := r in
  winode inum (din <| d_size := xint off |>).

(** ** The program *)

(** [struct dirent] with [strncpy]'s name. *)
Definition dirent (inum : Z) (name : list Z) : list Z :=
  le_bytes 2 (xshort inum) ++ strncpy_image (Z.to_nat DIRSIZ) (name ++ [0]).

(** [strncmp(argv[i], "user/", 5) == 0 ? argv[i] + 5 : argv[i]] *)
Definition shortname (arg : list Z) : list Z :=
  if bool_decide (take 5 arg = bytes_of "user/") then drop 5 arg else arg.
Definition skip_underscore (name : list Z) : list Z := if bool_decide (head name = Some 95) then tail name else name.

(** One argument: the file's name and the pieces in which the host's [read] delivers it, if it can be opened. *)
Definition add_file (rootino : Z) (f : list Z * option (list (list Z))) : M unit :=
  let name := shortname f.1 in
  massert (bool_decide (47 ∉ name));;
  match f.2 with
  | None => fun _ => MExit
  | Some pieces =>
    let name := skip_underscore name in
    inum ← ialloc T_FILE;
    iappend rootino (dirent inum name);;
    mfor pieces (fun buf => iappend inum buf)
  end.

(** The bytes of [struct superblock]. *)
Definition sb_image (sb : superblock) : list Z :=
  concat (le_bytes 4 <$> [sb_magic sb; sb_size sb; sb_nblocks sb; sb_ninodes sb; sb_nlog sb; sb_logstart sb; sb_inodestart sb; sb_bmapstart sb]).

(** [int main(int argc, char *argv[])] with the image file open. *)
Definition mkfs_main (files : list (list Z * option (list (list Z)))) : M unit :=
  let nblocks := FSSIZE - nmeta in
  mput (set m_sb (fun _ => mksb FSMAGIC (xint FSSIZE) (xint nblocks) (xint NINODES) (xint nlog) (xint 2) (xint (2 + nlog))
                               (xint (2 + nlog + ninodeblocks))));;
  mput (set m_freeblock (fun _ => nmeta));;
  mfor (seqZ 0 FSSIZE) (fun i => wsect i (replicate (Z.to_nat BSIZE) 0));;
  sb ← mget m_sb;
  wsect 1 (splice 0 (sb_image sb) (replicate (Z.to_nat BSIZE) 0));;
  rootino ← ialloc T_DIR;
  massert (rootino =? ROOTINO);;
  iappend rootino (dirent rootino (bytes_of "."));;
  iappend rootino (dirent rootino (bytes_of ".."));;
  mfor files (add_file rootino);;
  din ← rinode rootino;
  let off := xint (d_size din) in
  let off := u32 ((off / BSIZE + 1) * BSIZE) in
  winode rootino (din <| d_size := xint off |>);;
  fb ← mget m_freeblock;
  balloc fb.

(** The program's global variables at the start. *)
Definition mkfs_start : mkst := mkm ∅ (mksb 0 0 0 0 0 0 0 0) 1 0.

(** ** Files on the image *)

(** A file as [mkfs] lays it out: its data, the blocks that hold it and its indirect block, zero without one. *)
Record mfile := mkmf { f_type : Z; f_data : list Z; f_blocks : list Z; f_ind : Z }.
#[export] Instance mfile_eta : Eta mfile := fun x => mkmf (f_type x) (f_data x) (f_blocks x) (f_ind x).

Definition pad (n : nat) (l : list Z) : list Z := l ++ replicate (n - length l) 0.
Definition size_of (f : mfile) : Z := Z.of_nat (length (f_data f)).

(** The addresses of an inode, and the indirect block of a file with more than twelve blocks. *)
Definition addrs_list (blocks : list Z) (ind : Z) : list Z := pad 12 (take 12 blocks) ++ [ind].
Definition addrs_ok (D : gmap Z (list Z)) (blocks : list Z) (ind : Z) : Prop :=
  if (12 <? length blocks)%nat then ind <> 0 /\ D !! ind = Some (pad 1024 (concat (le_bytes 4 <$> drop 12 blocks))) else ind = 0.

Definition din_of (f : mfile) : dinode := mkdin (f_type f) 0 0 1 (size_of f) (addrs_list (f_blocks f) (f_ind f)).
Definition used (f : mfile) : list Z := (if decide (f_ind f = 0) then [] else [f_ind f]) ++ f_blocks f.

(** The blocks a file of [n] bytes takes, with the indirect block. *)
Definition cost (n : Z) : Z := nblocks n + (if NDIRECT <? nblocks n then 1 else 0).

Record data_ok (D : gmap Z (list Z)) (f : mfile) : Prop := {
  do_size : size_of f <= MAXFILE * BSIZE;
  do_blocks : Z.of_nat (length (f_blocks f)) = nblocks (size_of f);
  do_ind : addrs_ok D (f_blocks f) (f_ind f);
  do_block k b : f_blocks f !! k = Some b -> D !! b = Some (pad 1024 (slice (1024 * k) 1024 (f_data f)))
}.

(** All blocks are there, those from [fb] on are zero, and the files have blocks of their own among the others. *)
Record laid_out (D : gmap Z (list Z)) (fb : Z) (fs : list mfile) : Prop := {
  lo_fb : nmeta <= fb <= FSSIZE;
  lo_all b : 0 <= b < FSSIZE -> exists d, D !! b = Some d /\ length d = 1024%nat;
  lo_free b : fb <= b < FSSIZE -> D !! b = Some (replicate 1024 0);
  lo_data f : f ∈ fs -> data_ok D f;
  lo_nodup : NoDup (fs ≫= used);
  lo_range b : b ∈ fs ≫= used -> nmeta <= b < fb
}.

(** ** Arithmetic *)

Lemma xint_id x : 0 <= x < 2 ^ 32 -> xint x = x.
Proof.
  intros H. unfold xint, u8. rewrite !Z.shiftr_div_pow2 by lia. cbn [le_value]. change (2 ^ 8) with 256. change (2 ^ 16) with 65536.
  change (2 ^ 24) with 16777216. Z.to_euclidean_division_equations. lia.
Qed.
Lemma xshort_id x : 0 <= x < 2 ^ 16 -> xshort x = x.
Proof.
  intros H. unfold xshort, u8. rewrite !Z.shiftr_div_pow2 by lia. cbn [le_value]. change (2 ^ 8) with 256. Z.to_euclidean_division_equations. lia.
Qed.

Lemma sector_key b : 0 <= b < FSSIZE -> u32 (b * BSIZE) / BSIZE = b.
Proof. unfold FSSIZE, BSIZE. intros. rewrite u32_small by lia. apply Z.div_mul. lia. Qed.

Lemma nmeta_value : nmeta = 46.
Proof. done. Qed.

Lemma pad_length n l : (length l <= n)%nat -> length (pad n l) = n.
Proof. intros. unfold pad. rewrite length_app, length_replicate. lia. Qed.

Lemma length_addr_list l : length (concat (le_bytes 4 <$> l)) = (4 * length l)%nat.
Proof. apply length_addr_bytes. Qed.

(** ** Running the program *)

Definition mwp {A} (m : M A) (Q : A -> mkst -> Prop) (s : mkst) : Prop := match m s with MOk a s' => Q a s' | _ => False end.

Lemma mwp_ret {A} (a : A) Q s : Q a s -> mwp (mret a) Q s.
Proof. done. Qed.
Lemma mwp_bind {A B} (m : M A) (f : A -> M B) Q s : mwp m (fun a s' => mwp (f a) Q s') s -> mwp (m ≫= f) Q s.
Proof. unfold mwp, mbind, M_bind. by destruct (m s). Qed.
Lemma mwp_mono {A} (m : M A) (Q Q' : A -> mkst -> Prop) s : mwp m Q s -> (forall a s', Q a s' -> Q' a s') -> mwp m Q' s.
Proof. unfold mwp. destruct (m s); auto. Qed.
Lemma mwp_get {A} (f : mkst -> A) Q s : Q (f s) s -> mwp (mget f) Q s.
Proof. done. Qed.
Lemma mwp_put f Q s : Q tt (f s) -> mwp (mput f) Q s.
Proof. done. Qed.
Lemma mwp_assert b Q s : b = true -> Q tt s -> mwp (massert b) Q s.
Proof. by intros ->. Qed.
Lemma mwp_rsect b d Q s : 0 <= b < FSSIZE -> m_img s !! b = Some d -> Q d s -> mwp (rsect b) Q s.
Proof. intros Hb Hd HQ. unfold mwp, rsect. by rewrite sector_key, Hd. Qed.
Lemma mwp_wsect b d Q s : 0 <= b < FSSIZE -> Q tt (s <| m_img ::= <[b := d]> |>) -> mwp (wsect b d) Q s.
Proof. intros Hb HQ. unfold mwp, wsect, mput. by rewrite sector_key. Qed.
Lemma mwp_next Q s : 0 <= m_freeblock s < 2 ^ 32 - 1 -> Q (m_freeblock s) (s <| m_freeblock := m_freeblock s + 1 |>) -> mwp next_block Q s.
Proof. intros Hb HQ. unfold next_block. apply mwp_bind, mwp_get, mwp_bind, mwp_put, mwp_ret. unfold set in *. cbn. by rewrite u32_small by lia. Qed.

Ltac mstep :=
  repeat lazymatch goal with
  | |- mwp (mret _) _ _ => apply mwp_ret
  | |- mwp (_ ≫= _) _ _ => apply mwp_bind
  | |- mwp (mget _) _ _ => apply mwp_get
  | |- mwp (mput _) _ _ => apply mwp_put
  end.

(** ** Padded lists *)

Lemma splice_pad n x y : (length x + length y <= n)%nat -> splice (length x) y (pad n x) = pad n (x ++ y).
Proof.
  intros H. unfold splice, pad. rewrite take_app_length. rewrite <- !app_assoc. f_equal. f_equal. rewrite length_app.
  rewrite drop_app_ge by lia. replace (length x + length y - length x)%nat with (length y) by lia.
  rewrite drop_replicate. f_equal. lia.
Qed.

Lemma pad_nil n : pad n [] = replicate n 0.
Proof. unfold pad. simpl. by rewrite Nat.sub_0_r. Qed.

Lemma load_at n xs v ys : 0 <= v < 2 ^ (8 * Z.of_nat n) -> load n (length xs) (xs ++ le_bytes n v ++ ys) = v.
Proof.
  intros Hv. unfold load, slice. rewrite drop_app_length, take_app_length' by (by rewrite length_le_bytes).
  rewrite le_value_bytes. by apply Z.mod_small.
Qed.

Lemma le_value_zeros n : le_value (replicate n 0) = 0.
Proof. induction n as [|n IH]; [done|]. simpl. by rewrite IH. Qed.

Lemma load_zeros n off xs m : (length xs <= off)%nat -> load n off (xs ++ replicate m 0) = 0.
Proof.
  intros H. unfold load, slice. rewrite drop_app_ge, drop_replicate, take_replicate by lia. apply le_value_zeros.
Qed.

(** The numbers in an indirect block. *)
Lemma load_entry l j b : l !! j = Some b -> 0 <= b < 2 ^ 32 -> load 4 (4 * j) (pad 1024 (concat (le_bytes 4 <$> l))) = b.
Proof.
  intros Hj Hb. apply lookup_lt_Some in Hj as Hlt. rewrite <- (take_drop_middle _ _ _ Hj) at 1. unfold pad. rewrite fmap_app, concat_app.
  cbn [fmap list_fmap concat]. rewrite <- !app_assoc.
  replace (4 * j)%nat with (length (concat (le_bytes 4 <$> take j l))) by (rewrite length_addr_list, length_take; lia).
  by apply load_at.
Qed.

Lemma load_no_entry l : load 4 (4 * length l) (pad 1024 (concat (le_bytes 4 <$> l))) = 0.
Proof. apply load_zeros. rewrite length_addr_list. lia. Qed.

Lemma store_entry l b : (length l < 256)%nat ->
  store 4 (4 * length l) b (pad 1024 (concat (le_bytes 4 <$> l))) = pad 1024 (concat (le_bytes 4 <$> (l ++ [b]))).
Proof.
  intros H. unfold store. rewrite fmap_app, concat_app. cbn [fmap list_fmap concat]. rewrite app_nil_r, <- length_addr_list.
  apply splice_pad. rewrite length_addr_list, length_le_bytes. lia.
Qed.

(** ** Addresses *)

Lemma addrs_ind blocks ind : addrs_list blocks ind !! 12%nat = Some ind.
Proof. unfold addrs_list. rewrite lookup_app_r by (rewrite pad_length; rewrite ?length_take; lia). rewrite pad_length; [done|]. rewrite length_take. lia. Qed.

Lemma addrs_direct blocks ind k : (k < 12)%nat -> addrs_list blocks ind !! k = Some (default 0 (blocks !! k)).
Proof.
  intros Hk. unfold addrs_list, pad. rewrite lookup_app_l by (rewrite length_app, length_replicate; lia).
  destruct (decide (k < length blocks)%nat) as [Hlt|Hge].
  - rewrite lookup_app_l by (rewrite length_take; lia). rewrite lookup_take, decide_True by done.
    by destruct (lookup_lt_is_Some_2 blocks k Hlt) as [b ->].
  - rewrite lookup_app_r by (rewrite length_take; lia). rewrite lookup_replicate_2 by (rewrite length_take; lia).
    by rewrite (lookup_ge_None_2 blocks k) by lia.
Qed.

Lemma addrs_insert blocks ind b : (length blocks < 12)%nat -> <[length blocks := b]> (addrs_list blocks ind) = addrs_list (blocks ++ [b]) ind.
Proof.
  intros H. unfold addrs_list. rewrite insert_app_l by (rewrite pad_length; rewrite ?length_take; lia). f_equal.
  rewrite !take_ge by (rewrite ?length_app; simpl; lia). unfold pad. rewrite insert_app_r_alt by done. rewrite Nat.sub_diag, length_app. simpl.
  replace (12 - length blocks)%nat with (S (12 - (length blocks + 1))) by lia. simpl. by rewrite <- app_assoc.
Qed.

Lemma addrs_set_ind blocks ind b : <[12%nat := b]> (addrs_list blocks ind) = addrs_list blocks b.
Proof. unfold addrs_list. rewrite insert_app_r_alt by (rewrite pad_length; rewrite ?length_take; lia). rewrite pad_length; [done|]. rewrite length_take. lia. Qed.

Lemma addrs_more blocks ind b : (12 <= length blocks)%nat -> addrs_list (blocks ++ [b]) ind = addrs_list blocks ind.
Proof. intros H. unfold addrs_list. by rewrite take_app_le. Qed.

(** The block of a file that is there already. *)
Lemma block_for_old s din blocks ind k b Q : d_addrs din = addrs_list blocks ind -> addrs_ok (m_img s) blocks ind ->
  blocks !! k = Some b -> 0 < b < FSSIZE -> 0 <= ind < FSSIZE -> Q (din, b) s -> mwp (block_for din (Z.of_nat k)) Q s.
Proof.
  intros Hd Ha Hk Hb Hi HQ. unfold FSSIZE in *. unfold block_for, addr_of. rewrite Hd. change NDIRECT with 12. destruct (Z.ltb_spec (Z.of_nat k) 12) as [Hlt|Hge].
  - rewrite Nat2Z.id, addrs_direct, Hk by lia. cbn [from_option id]. rewrite xint_id by lia. destruct (Z.eqb_spec b 0); [lia|]. mstep.
    rewrite Hd, addrs_direct, Hk by lia. cbn [from_option id]. by rewrite xint_id by lia.
  - change (Z.to_nat 12) with 12%nat. rewrite addrs_ind. cbn [from_option id]. apply lookup_lt_Some in Hk as Hl. unfold addrs_ok in Ha.
    destruct (Nat.ltb_spec 12 (length blocks)) as [_|]; [|lia]. destruct Ha as [Hi0 Hind]. rewrite xint_id by lia.
    destruct (Z.eqb_spec ind 0); [done|]. mstep. rewrite Hd, addrs_ind. cbn [from_option id]. rewrite xint_id by lia.
    eapply mwp_rsect; [unfold FSSIZE; lia|exact Hind|]. replace (Z.to_nat (4 * (Z.of_nat k - 12))) with (4 * (k - 12))%nat by lia.
    assert (load 4 (4 * (k - 12)) (pad 1024 (concat (le_bytes 4 <$> drop 12 blocks))) = b) as ->.
    { apply load_entry; [|lia]. rewrite lookup_drop. rewrite <- Hk. f_equal. lia. }
    destruct (Z.eqb_spec b 0); [lia|]. mstep. rewrite load_entry with (b := b); [by rewrite xint_id by lia| |lia].
    rewrite lookup_drop. rewrite <- Hk. f_equal. lia.
Qed.

(** A block has been added: [b], with a new indirect block before it where the file has outgrown its direct addresses. *)
Record added (s s' : mkst) (din din' : dinode) (blocks : list Z) (ind ind' b : Z) : Prop := {
  ad_din : din' = din <| d_addrs := addrs_list (blocks ++ [b]) ind' |>;
  ad_ok : addrs_ok (m_img s') (blocks ++ [b]) ind';
  ad_img c : ind' = 0 \/ c <> ind' -> m_img s' !! c = m_img s !! c;
  ad_b : b = m_freeblock s' - 1;
  ad_free : m_freeblock s' = m_freeblock s + (if decide (length blocks = 12%nat) then 2 else 1);
  ad_ind : ind' = if decide (length blocks = 12%nat) then m_freeblock s else ind;
  ad_rest : m_sb s' = m_sb s /\ m_freeinode s' = m_freeinode s
}.

Lemma put_addrs din k v : d_addrs (put_addr din k v) = <[Z.to_nat k := v]> (d_addrs din).
Proof. done. Qed.
Lemma put_addr_eq din k v l : <[Z.to_nat k := v]> (d_addrs din) = l -> put_addr din k v = din <| d_addrs := l |>.
Proof. intros <-. done. Qed.

Section block_for.
Context (s : mkst) (din : dinode) (blocks : list Z) (ind : Z) (Q : dinode * Z -> mkst -> Prop).
Context (Hd : d_addrs din = addrs_list blocks ind) (Ha : addrs_ok (m_img s) blocks ind) (Hl : (length blocks < 268)%nat).
Context (Hi : 0 <= ind < FSSIZE) (Hfb : nmeta <= m_freeblock s).
Context (Hroom : m_freeblock s + (if decide (length blocks = 12%nat) then 2 else 1) <= FSSIZE).
Context (HQ : forall s' din' ind' b, added s s' din din' blocks ind ind' b -> Q (din', b) s').

Lemma block_for_direct : (length blocks < 12)%nat -> mwp (block_for din (Z.of_nat (length blocks))) Q s.
Proof.
  intros Hlt. rewrite nmeta_value in Hfb. unfold FSSIZE in *. unfold block_for, addr_of. change NDIRECT with 12.
  destruct (Z.ltb_spec (Z.of_nat (length blocks)) 12) as [_|]; [|lia].
  rewrite Hd, Nat2Z.id, addrs_direct, lookup_ge_None_2 by lia. cbn [from_option id]. change (xint 0 =? 0) with true. cbv iota. mstep.
  rewrite decide_False in Hroom by lia. apply mwp_next; [lia|]. mstep. rewrite put_addrs, Nat2Z.id, Hd, addrs_insert, addrs_direct by lia.
  rewrite list_lookup_middle by done. cbn [from_option id]. rewrite !xint_id by (rewrite ?xint_id; lia).
  apply (HQ _ _ ind). split; cbn [m_img m_freeblock m_sb m_freeinode set]; try done; rewrite ?decide_False by lia; try lia.
  - apply put_addr_eq. by rewrite Nat2Z.id, Hd, addrs_insert.
  - unfold addrs_ok in *. rewrite length_app. destruct (Nat.ltb_spec 12 (length blocks)); [lia|].
    by destruct (Nat.ltb_spec 12 (length blocks + length [m_freeblock s])); [simpl in *; lia|].
Qed.

Lemma block_for_first_indirect : length blocks = 12%nat -> m_img s !! m_freeblock s = Some (replicate 1024 0) ->
  mwp (block_for din (Z.of_nat (length blocks))) Q s.
Proof.
  intros E12 Hzero. rewrite nmeta_value in Hfb. unfold FSSIZE in *. unfold block_for, addr_of. change NDIRECT with 12.
  destruct (Z.ltb_spec (Z.of_nat (length blocks)) 12) as [|_]; [lia|]. change (Z.to_nat 12) with 12%nat. rewrite Hd, addrs_ind. cbn [from_option id].
  assert (ind = 0) as E0 by (unfold addrs_ok in Ha; rewrite E12 in Ha; exact Ha). rewrite decide_True in Hroom by done.
  rewrite E0. change (xint 0 =? 0) with true. cbv iota. mstep. apply mwp_next; [lia|]. mstep.
  rewrite !put_addrs, Hd. change (Z.to_nat 12) with 12%nat. rewrite !addrs_set_ind, addrs_ind. cbn [from_option id].
  rewrite !xint_id by (rewrite ?xint_id; lia). eapply mwp_rsect; [unfold FSSIZE; lia|exact Hzero|].
  replace (Z.to_nat (4 * (Z.of_nat (length blocks) - 12))) with 0%nat by lia. change (load 4 0 (replicate 1024 0) =? 0) with true. cbv iota. mstep.
  apply mwp_next; [cbn [m_freeblock set]; lia|]. cbn [m_freeblock set]. mstep. rewrite xint_id by lia. apply mwp_wsect; [unfold FSSIZE; lia|]. mstep.
  assert (store 4 0 (m_freeblock s + 1) (replicate 1024 0) = pad 1024 (concat (le_bytes 4 <$> [m_freeblock s + 1]))) as Est.
  { exact (store_entry [] (m_freeblock s + 1) ltac:(simpl; lia)). }
  rewrite Est. rewrite (load_entry _ 0 (m_freeblock s + 1)) by (done || lia). rewrite xint_id by lia.
  apply (HQ _ _ (m_freeblock s)). split; cbn [m_img m_freeblock m_sb m_freeinode set]; try done; rewrite ?decide_True by done; try lia.
  - apply put_addr_eq. change (Z.to_nat 12) with 12%nat. by rewrite Hd, addrs_set_ind, addrs_more by lia.
  - unfold addrs_ok. rewrite length_app, E12. cbn [length Nat.add Nat.ltb Nat.leb]. split; [lia|]. by rewrite lookup_insert_eq, drop_app_ge, E12 by lia.
  - intros c [|Hc]; [lia|]. by rewrite lookup_insert_ne.
Qed.

Lemma block_for_indirect : (12 < length blocks)%nat -> mwp (block_for din (Z.of_nat (length blocks))) Q s.
Proof.
  intros Hgt. rewrite nmeta_value in Hfb. unfold FSSIZE in *. unfold block_for, addr_of. change NDIRECT with 12.
  destruct (Z.ltb_spec (Z.of_nat (length blocks)) 12) as [|_]; [lia|]. change (Z.to_nat 12) with 12%nat. rewrite Hd, addrs_ind. cbn [from_option id].
  unfold addrs_ok in Ha. destruct (Nat.ltb_spec 12 (length blocks)) as [_|]; [|lia]. destruct Ha as [Hi0 Hind]. rewrite decide_False in Hroom by lia.
  rewrite xint_id by lia. destruct (Z.eqb_spec ind 0); [done|]. mstep. rewrite Hd, addrs_ind. cbn [from_option id]. rewrite xint_id by lia.
  replace (Z.to_nat (4 * (Z.of_nat (length blocks) - 12))) with (4 * length (drop 12 blocks))%nat by (rewrite length_drop; lia).
  eapply mwp_rsect; [unfold FSSIZE; lia|exact Hind|]. rewrite load_no_entry. change (0 =? 0) with true. cbv iota. mstep.
  apply mwp_next; [lia|]. mstep. rewrite xint_id by lia. rewrite store_entry by (rewrite length_drop; lia). apply mwp_wsect; [unfold FSSIZE; lia|]. mstep.
  rewrite (load_entry _ _ (m_freeblock s)) by (by rewrite ?list_lookup_middle || lia). rewrite xint_id by lia.
  apply (HQ _ _ ind). split; cbn [m_img m_freeblock m_sb m_freeinode set]; try done; rewrite ?decide_False by lia; try lia.
  - rewrite addrs_more by lia. rewrite <- Hd. by destruct din.
  - unfold addrs_ok. rewrite length_app. destruct (Nat.ltb_spec 12 (length blocks + length [m_freeblock s])); [|simpl in *; lia]. split; [done|].
    by rewrite lookup_insert_eq, drop_app_le by lia.
  - intros c [|Hc]; [done|]. by rewrite lookup_insert_ne.
Qed.

Lemma block_for_new : m_img s !! m_freeblock s = Some (replicate 1024 0) -> mwp (block_for din (Z.of_nat (length blocks))) Q s.
Proof.
  intros Hz. destruct (lt_eq_lt_dec (length blocks) 12) as [[?|?]|?]; [by apply block_for_direct|by apply block_for_first_indirect|by apply block_for_indirect].
Qed.
End block_for.

(** ** Appending *)

Lemma size_nonneg f : 0 <= size_of f.
Proof. unfold size_of. lia. Qed.

Lemma nblocks_bound n : 0 <= n <= MAXFILE * BSIZE -> 0 <= nblocks n <= 268.
Proof. change (MAXFILE * BSIZE) with 274432. unfold nblocks, BSIZE. intros. Z.to_euclidean_division_equations. lia. Qed.

Lemma blocks_bound D f : data_ok D f -> (length (f_blocks f) <= 268)%nat.
Proof. intros [Hs Hb _ _]. pose proof (nblocks_bound (size_of f)). pose proof (size_nonneg f). lia. Qed.

Lemma data_ok_used D f b : data_ok D f -> b ∈ used f -> exists d, D !! b = Some d /\ length d = 1024%nat.
Proof.
  intros Hf Hb. pose proof (blocks_bound _ _ Hf). destruct Hf as [_ _ Hi Hk]. unfold used in Hb. apply elem_of_app in Hb as [Hb|Hb].
  - destruct (decide (f_ind f = 0)) as [|Hn]; [by apply elem_of_nil in Hb|]. apply list_elem_of_singleton in Hb as ->.
    unfold addrs_ok in Hi. destruct (12 <? length (f_blocks f))%nat; [|done]. destruct Hi as [_ Hi]. eexists. split; [exact Hi|].
    apply pad_length. rewrite length_addr_list, length_drop. lia.
  - apply list_elem_of_lookup in Hb as [k Hb]. eexists. split; [by eapply Hk|]. apply pad_length. unfold slice. rewrite length_take. lia.
Qed.

Lemma data_ok_frame D D' f : (forall b, b ∈ used f -> D' !! b = D !! b) -> data_ok D f -> data_ok D' f.
Proof.
  intros HD [H1 H2 H3 H4]. split; [done|done| |].
  - unfold addrs_ok in *. destruct (12 <? length (f_blocks f))%nat; [|done]. destruct H3 as [Hn H3]. split; [done|]. rewrite HD; [done|].
    unfold used. rewrite decide_False by done. by left.
  - intros k b Hk. rewrite HD; [by apply H4|]. unfold used. apply elem_of_app. right. by eapply list_elem_of_lookup_2.
Qed.

(** The file [f] becomes [f'], with the blocks [new] from the free ones. *)
Lemma laid_out_update D D' fb fb' f f' others new :
  laid_out D fb (f :: others) -> data_ok D' f' -> Permutation (used f') (new ++ used f) -> NoDup new ->
  (forall b, b ∈ new -> fb <= b < fb') -> fb <= fb' <= FSSIZE -> (forall b, (b ∉ used f') -> D' !! b = D !! b) -> laid_out D' fb' (f' :: others).
Proof.
  intros L Hf' Hp Hnew Hrange Hfb Hsame. pose proof (lo_nodup _ _ _ L) as Hnd. pose proof (lo_range _ _ _ L) as Hr. pose proof (lo_fb _ _ _ L).
  rewrite bind_cons in Hnd, Hr.
  assert (forall b, b ∈ used f' ++ (others ≫= used) -> nmeta <= b < fb') as Hr'.
  { intros b. rewrite Hp, !elem_of_app. intros [[Hb|Hb]|Hb].
    - apply Hrange in Hb. lia.
    - assert (nmeta <= b < fb) by (apply Hr, elem_of_app; by left). lia.
    - assert (nmeta <= b < fb) by (apply Hr, elem_of_app; by right). lia. }
  assert (NoDup (used f' ++ (others ≫= used))) as Hnd'.
  { rewrite Hp, <- app_assoc. apply NoDup_app. split_and!; [done| |done]. intros b Hb Hb'. apply Hrange in Hb. apply Hr in Hb'. lia. }
  split; [lia| | | |by rewrite bind_cons|by rewrite bind_cons].
  - intros b Hb. destruct (decide (b ∈ used f')) as [Hu|Hu]; [by eapply data_ok_used|]. rewrite Hsame by done. by apply (lo_all _ _ _ L).
  - intros b Hb. rewrite Hsame; [apply (lo_free _ _ _ L); lia|]. intros Hu. assert (nmeta <= b < fb') by (apply Hr', elem_of_app; by left). lia.
  - intros g [->|Hg]%elem_of_cons; [done|]. eapply data_ok_frame; [|apply (lo_data _ _ _ L); by right].
    intros b Hb. apply Hsame. intros Hu. apply NoDup_app in Hnd' as (_ & Hdis & _). apply (Hdis b Hu). apply list_elem_of_bind. by exists g.
Qed.

Lemma slice_app_l {A} (o n : nat) (l r : list A) : (o + n <= length l)%nat -> slice o n (l ++ r) = slice o n l.
Proof. intros H. unfold slice. rewrite drop_app_le, take_app_le by (rewrite ?length_drop; lia). done. Qed.

Lemma slice_all {A} (o n : nat) (l : list A) : (length l <= o + n)%nat -> slice o n l = drop o l.
Proof. intros H. unfold slice. apply take_ge. rewrite length_drop. lia. Qed.

(** [f] with [bytes] more. *)
Record appended (s s' : mkst) (f f' : mfile) (others : list mfile) (bytes : list Z) : Prop := {
  ap_type : f_type f' = f_type f;
  ap_data : f_data f' = f_data f ++ bytes;
  ap_laid : laid_out (m_img s') (m_freeblock s') (f' :: others);
  ap_meta b : b < nmeta -> m_img s' !! b = m_img s !! b;
  ap_free : m_freeblock s' = m_freeblock s + cost (size_of f') - cost (size_of f);
  ap_rest : m_sb s' = m_sb s /\ m_freeinode s' = m_freeinode s
}.

Lemma turn_bytes sz (p : list Z) : (sz + Z.of_nat (length p) <= MAXFILE * BSIZE) -> 0 <= sz -> p <> [] ->
  let n1 := Z.min (Z.of_nat (length p)) ((sz / BSIZE + 1) * BSIZE - sz) in
  0 < n1 <= Z.of_nat (length p) /\ n1 <= 1024 - sz mod 1024 /\ u32 (sz + n1) = sz + Z.of_nat (length (take (Z.to_nat n1) p)) /\ (sz / BSIZE <? MAXFILE) = true.
Proof.
  change (MAXFILE * BSIZE) with 274432. change MAXFILE with 268. intros Hsz H0 Hp. assert (0 < Z.of_nat (length p)) by (destruct p; [done|simpl; lia]).
  intros n1. assert (0 < n1 <= Z.of_nat (length p) /\ n1 <= 1024 - sz mod 1024) as [H1 H2] by (unfold n1, BSIZE; Z.to_euclidean_division_equations; lia).
  rewrite length_take, u32_small by lia. split_and!; [lia|lia|lia|lia|]. unfold BSIZE. apply Z.ltb_lt. Z.to_euclidean_division_equations. lia.
Qed.

Section turn.
Context (s : mkst) (f : mfile) (others : list mfile) (p : list Z) (z : Z).
Context (L : laid_out (m_img s) (m_freeblock s) (f :: others)) (Hp : p <> []) (Hmax : size_of f + Z.of_nat (length p) <= MAXFILE * BSIZE).
Abbreviation sz := (size_of f).
Abbreviation din := ((din_of f) <| d_size := z |>).
Definition piece : list Z := take (Z.to_nat (Z.min (Z.of_nat (length p)) ((sz / BSIZE + 1) * BSIZE - sz))) p.

Lemma turn_file : data_ok (m_img s) f.
Proof. apply (lo_data _ _ _ L). by left. Qed.

Lemma turn_used b : b ∈ used f -> nmeta <= b < m_freeblock s.
Proof. intros Hb. apply (lo_range _ _ _ L). rewrite bind_cons. apply elem_of_app. by left. Qed.

Lemma turn_ind : 0 <= f_ind f < FSSIZE.
Proof.
  pose proof (lo_fb _ _ _ L). destruct (decide (f_ind f = 0)) as [->|Hn]; [unfold FSSIZE; lia|].
  assert (f_ind f ∈ used f) as Hu%turn_used by (unfold used; rewrite decide_False by done; by left). rewrite nmeta_value in Hu. lia.
Qed.

Lemma turn_piece : (0 < length piece <= length p)%nat /\ Z.of_nat (length piece) <= 1024 - sz mod 1024 /\
  nblocks (sz + Z.of_nat (length piece)) = sz / 1024 + 1.
Proof.
  destruct (turn_bytes sz p Hmax (size_nonneg f) Hp) as (H1 & H2 & _ & _). unfold piece. rewrite length_take.
  split_and!; [lia|lia|lia|]. unfold nblocks, BSIZE in *. pose proof (size_nonneg f). Z.to_euclidean_division_equations. lia.
Qed.

(** What the turn does once it has the block. *)
Lemma append_tail (din' : dinode) b d (Q : dinode * Z * list Z + dinode * Z -> mkst -> Prop) s1 : 0 <= b < FSSIZE -> m_img s1 !! b = Some d ->
  Q (inl (din', sz + Z.of_nat (length piece), drop (length piece) p)) (s1 <| m_img ::= <[b := splice (Z.to_nat (sz mod 1024)) piece d]> |>) ->
  mwp (buf ← rsect b; wsect b (splice (Z.to_nat (sz - sz / BSIZE * BSIZE)) (take (Z.to_nat (Z.min (Z.of_nat (length p)) ((sz / BSIZE + 1) * BSIZE - sz))) p) buf);;
       mret (inl (din', u32 (sz + Z.min (Z.of_nat (length p)) ((sz / BSIZE + 1) * BSIZE - sz)),
                  drop (Z.to_nat (Z.min (Z.of_nat (length p)) ((sz / BSIZE + 1) * BSIZE - sz))) p))) Q s1.
Proof.
  intros Hb Hd HQ. destruct (turn_bytes sz p Hmax (size_nonneg f) Hp) as (H1 & _ & -> & _). mstep. eapply mwp_rsect; [done|exact Hd|].
  mstep. apply mwp_wsect; [done|]. mstep. fold piece. replace (sz - sz / BSIZE * BSIZE) with (sz mod 1024) by (unfold BSIZE; Z.to_euclidean_division_equations; lia).
  replace (Z.to_nat (Z.min (Z.of_nat (length p)) ((sz / BSIZE + 1) * BSIZE - sz))) with (length piece) by (unfold piece; rewrite length_take; lia). done.
Qed.

Lemma append_inside (Q : dinode * Z * list Z + dinode * Z -> mkst -> Prop) : sz mod 1024 <> 0 ->
  (forall s' f', appended s s' f f' others piece -> Q (inl ((din_of f') <| d_size := z |>, size_of f', drop (length piece) p)) s') ->
  mwp (append_turn (din, sz, p)) Q s.
Proof.
  intros Hmod HQ. destruct turn_piece as (Hpc & Hpc2 & Hnb). pose proof turn_file as [Hs Hbl Hi Hk]. pose proof (size_nonneg f).
  assert (nblocks sz = sz / 1024 + 1) as Hn0 by (unfold nblocks, BSIZE; Z.to_euclidean_division_equations; lia).
  set (k := Z.to_nat (sz / 1024)). assert (k < length (f_blocks f))%nat as Hklt by (unfold k; Z.to_euclidean_division_equations; lia).
  destruct (lookup_lt_is_Some_2 _ _ Hklt) as [b Hb]. assert (b ∈ used f) as Hbu by (unfold used; apply elem_of_app; right; by eapply list_elem_of_lookup_2).
  pose proof (turn_used b Hbu) as Hbr. pose proof (lo_fb _ _ _ L) as Hfb. rewrite nmeta_value in *.
  unfold append_turn. rewrite bool_decide_eq_false_2 by done. mstep. apply mwp_assert; [by apply (turn_bytes sz p)|].
  replace (sz / BSIZE) with (Z.of_nat k) at 1 by (unfold k, BSIZE; rewrite Z2Nat.id; [done|Z.to_euclidean_division_equations; lia]). mstep.
  eapply (block_for_old _ _ (f_blocks f) (f_ind f)); [done|done|exact Hb|lia|apply turn_ind|].
  eapply append_tail; [lia|by apply Hk|]. set (f' := f <| f_data := f_data f ++ piece |>).
  assert (size_of f' = sz + Z.of_nat (length piece)) as Esz by (unfold size_of, f'; cbn; rewrite length_app; lia). rewrite <- Esz.
  assert (Z.to_nat (sz mod 1024) = length (drop (1024 * k) (f_data f))) as Eoff.
  { rewrite length_drop. unfold k, size_of in *. Z.to_euclidean_division_equations. lia. }
  assert (length (f_data f) <= 1024 * k + 1024)%nat as Hlast by (unfold k, size_of in *; Z.to_euclidean_division_equations; lia).
  assert (length (drop (1024 * k) (f_data f)) + length piece <= 1024)%nat as Hfit by (rewrite <- Eoff; pose proof (Z.mod_pos_bound sz 1024); lia).
  rewrite (slice_all (1024 * k)), Eoff, splice_pad by done.
  assert (NoDup (used f)) as Hndf by (pose proof (lo_nodup _ _ _ L) as Hnd; rewrite bind_cons in Hnd; apply NoDup_app in Hnd as [Hnd _]; done).
  apply (HQ _ f'). split; cbn [m_img m_freeblock m_sb m_freeinode set]; try done.
  - apply (laid_out_update (m_img s) _ (m_freeblock s) _ f f' others []); [exact L| |done|constructor|by intros ? ?%elem_of_nil|lia|].
    + split; cbn [f_blocks f_ind f_data f' set].
      * rewrite Esz. lia.
      * rewrite Esz, Hnb. lia.
      * unfold addrs_ok in *. destruct (12 <? length (f_blocks f))%nat; [|done]. destruct Hi as [Hi0 Hi]. split; [done|]. rewrite lookup_insert_ne; [done|].
        intros Hbi. unfold used in Hndf. rewrite decide_False in Hndf by done. apply NoDup_cons in Hndf as [Hno _]. apply Hno. rewrite <- Hbi. by eapply list_elem_of_lookup_2.
      * intros j c Hj. destruct (decide (j = k)) as [->|Hjk].
        -- assert (c = b) as -> by congruence. rewrite lookup_insert_eq. rewrite slice_all by (rewrite length_drop in Hfit; rewrite length_app; lia).
           by rewrite drop_app_le by (unfold k, size_of in *; Z.to_euclidean_division_equations; lia).
        -- rewrite lookup_insert_ne.
           ++ rewrite (Hk _ _ Hj). do 2 f_equal. symmetry. apply slice_app_l. apply lookup_lt_Some in Hj. unfold k, size_of in *. Z.to_euclidean_division_equations. lia.
           ++ intros ->. unfold used in Hndf. apply NoDup_app in Hndf as (_ & _ & Hndf). apply Hjk. by eapply NoDup_lookup.
    + intros c Hc. rewrite lookup_insert_ne; [done|]. intros <-. by apply Hc.
  - intros c Hc. rewrite lookup_insert_ne; [done|]. rewrite nmeta_value in Hc. lia.
  - unfold cost. rewrite Esz, Hnb, Hn0. lia.
Qed.
(** The blocks of the file once one has been added. *)
Lemma added_used s1 din0 din1 ind' b : added s s1 din0 din1 (f_blocks f) (f_ind f) ind' b ->
  let new := if decide (length (f_blocks f) = 12%nat) then [m_freeblock s; m_freeblock s + 1] else [m_freeblock s] in
  let f' := f <| f_blocks := f_blocks f ++ [b] |> <| f_ind := ind' |> in
  Permutation (used f') (new ++ used f) /\ NoDup (used f') /\ (forall c, c ∈ new -> m_freeblock s <= c < m_freeblock s1) /\
  NoDup new /\ m_freeblock s <= b < m_freeblock s1 /\ b <> ind' /\ (forall c, c ∈ f_blocks f -> c <> ind' /\ c <> b).
Proof.
  intros [_ _ _ Hb Hfree Hind _] new f'. pose proof (lo_fb _ _ _ L) as Hfb. rewrite nmeta_value in Hfb. pose proof turn_file as Hok.
  assert (NoDup (used f)) as Hnd by (pose proof (lo_nodup _ _ _ L) as Hnd; rewrite bind_cons in Hnd; apply NoDup_app in Hnd as [Hnd _]; done).
  assert (NoDup new /\ (forall c, c ∈ new -> m_freeblock s <= c < m_freeblock s1) /\ Permutation (used f') (new ++ used f)) as (Hn1 & Hn2 & Hpm).
  { unfold new, used, f'. cbn [f_blocks f_ind set]. destruct (decide (length (f_blocks f) = 12%nat)) as [E|E].
    - assert (f_ind f = 0) as E0 by (pose proof (do_ind _ _ Hok) as Hi; unfold addrs_ok in Hi; rewrite E in Hi; exact Hi).
      rewrite E0, decide_False, decide_True, Hind by (done || lia). split_and!.
      + apply NoDup_cons. split; [rewrite list_elem_of_singleton; lia|apply NoDup_singleton].
      + intros c. rewrite !elem_of_cons, elem_of_nil. lia.
      + cbn [app]. constructor. rewrite Hb, Hfree. replace (m_freeblock s + 2 - 1) with (m_freeblock s + 1) by lia. by rewrite Permutation_app_comm.
    - rewrite Hind. split_and!; [apply NoDup_singleton|intros c; rewrite list_elem_of_singleton; lia|]. replace b with (m_freeblock s) by lia.
      rewrite app_assoc. by rewrite (Permutation_app_comm _ [m_freeblock s]). }
  assert (NoDup (used f')) as Hnd'.
  { rewrite Hpm. apply NoDup_app. split_and!; [done| |done]. intros c Hc Hc'%turn_used. apply Hn2 in Hc. lia. }
  assert (m_freeblock s <= b < m_freeblock s1) by (destruct (decide (length (f_blocks f) = 12%nat)); lia).
  assert (NoDup (f_blocks f ++ [b]) /\ forall c, c ∈ f_blocks f ++ [b] -> c <> ind') as [Hndb Hne].
  { unfold used, f' in Hnd'. cbn [f_blocks f_ind set] in Hnd'. apply NoDup_app in Hnd' as (_ & Hdis & Hndb). split; [done|]. intros c Hc ->.
    destruct (decide (ind' = 0)) as [->|]; [|by apply (Hdis ind'); [left|]]. apply elem_of_app in Hc as [Hc|Hc].
    - assert (0 ∈ used f) as Hu%turn_used by (unfold used; apply elem_of_app; by right). rewrite nmeta_value in Hu. lia.
    - apply list_elem_of_singleton in Hc. lia. }
  split_and!; [done|done|done|done|lia|lia|apply Hne, elem_of_app; right; by left|]. intros c Hc. split; [apply Hne, elem_of_app; by left|].
  intros ->. apply NoDup_app in Hndb as (_ & Hd & _). by apply (Hd b Hc); left.
Qed.

Lemma added_appended s1 din1 ind' b : sz mod 1024 = 0 -> added s s1 din din1 (f_blocks f) (f_ind f) ind' b -> m_freeblock s1 <= FSSIZE ->
  let f' := f <| f_data := f_data f ++ piece |> <| f_blocks := f_blocks f ++ [b] |> <| f_ind := ind' |> in
  appended s (s1 <| m_img ::= <[b := pad 1024 piece]> |>) f f' others piece.
Proof.
  intros Hmod Had Hroom f'. destruct turn_piece as (Hpc & Hpc2 & Hnb). pose proof turn_file as Hok. pose proof (size_nonneg f). pose proof (lo_fb _ _ _ L) as Hfb.
  assert (nblocks sz = sz / 1024) as Hn0 by (unfold nblocks, BSIZE; Z.to_euclidean_division_equations; lia).
  pose proof (do_blocks _ _ Hok) as Hbl. assert (length (f_data f) = 1024 * length (f_blocks f))%nat as Hdl by (unfold size_of in *; Z.to_euclidean_division_equations; lia).
  destruct (added_used _ _ _ _ _ Had) as (Hp' & Hnd & Hn1 & Hn2 & Hb & Hbi & Hold).
  assert (size_of f' = sz + Z.of_nat (length piece)) as Esz by (unfold size_of, f'; cbn; rewrite length_app; lia).
  destruct Had as [_ Haok Himg _ Hfree Hind' Hrest].
  assert (forall c, c ∉ used f' -> (<[b := pad 1024 piece]> (m_img s1) : gmap Z (list Z)) !! c = m_img s !! c) as Hsame.
  { intros c Hc. unfold used, f' in Hc. cbn [f_blocks f_ind set] in Hc. rewrite lookup_insert_ne by (intros ->; apply Hc, elem_of_app; right; apply elem_of_app; right; by left).
    apply Himg. destruct (decide (ind' = 0)) as [|Hn]; [by left|]. right. intros ->. by apply Hc; left. }
  split; cbn [m_img m_freeblock m_sb m_freeinode set]; try done.
  - eapply (laid_out_update (m_img s) _ (m_freeblock s) _ f f' others); [exact L| |exact Hp'|exact Hn2|exact Hn1|lia|exact Hsame].
    split; cbn [f_blocks f_ind f_data f' set].
    + rewrite Esz. lia.
    + rewrite Esz, Hnb, length_app. simpl. lia.
    + unfold addrs_ok in *. destruct (12 <? length (f_blocks f ++ [b]))%nat; [|done]. by rewrite lookup_insert_ne.
    + intros j c Hj. apply lookup_snoc_Some in Hj as [[Hlt Hj]|[-> ->]].
      * assert (c ∈ f_blocks f) as Hc by (by eapply list_elem_of_lookup_2). apply Hold in Hc as [Hc1 Hc2]. rewrite lookup_insert_ne, Himg by (by (done || right)).
        rewrite (do_block _ _ Hok _ _ Hj). do 2 f_equal. symmetry. apply slice_app_l. lia.
      * rewrite lookup_insert_eq, slice_all by (rewrite length_app; lia). by rewrite drop_app_length'.
  - intros c Hc. apply Hsame. rewrite (Hp' : Permutation (used f') _), elem_of_app. intros [Hc'%Hn1|Hc'%turn_used]; lia.
  - unfold cost. rewrite Esz, Hnb, Hn0. change NDIRECT with 12. destruct (decide _); destruct (Z.ltb_spec 12 (sz / 1024)), (Z.ltb_spec 12 (sz / 1024 + 1)); lia.
Qed.

Lemma append_outside (Q : dinode * Z * list Z + dinode * Z -> mkst -> Prop) : sz mod 1024 = 0 ->
  m_freeblock s + (if decide (length (f_blocks f) = 12%nat) then 2 else 1) <= FSSIZE ->
  (forall s' f', appended s s' f f' others piece -> Q (inl ((din_of f') <| d_size := z |>, size_of f', drop (length piece) p)) s') ->
  mwp (append_turn (din, sz, p)) Q s.
Proof.
  intros Hmod Hroom HQ. destruct turn_piece as (Hpc & Hpc2 & _). pose proof turn_file as Hok. pose proof (size_nonneg f). pose proof (lo_fb _ _ _ L) as Hfb.
  pose proof (do_blocks _ _ Hok) as Hbl.
  assert ((length (f_blocks f) < 268)%nat /\ sz / 1024 = Z.of_nat (length (f_blocks f))) as [Hlt Hq].
  { change (MAXFILE * BSIZE) with 274432 in Hmax. unfold nblocks, BSIZE in Hbl. Z.to_euclidean_division_equations; lia. }
  unfold append_turn. rewrite bool_decide_eq_false_2 by done. mstep. apply mwp_assert; [by apply (turn_bytes sz p)|].
  replace (sz / BSIZE) with (Z.of_nat (length (f_blocks f))) at 1 by (unfold BSIZE; lia). mstep.
  apply (block_for_new s din (f_blocks f) (f_ind f)); [done|apply (do_ind _ _ Hok)|done|apply turn_ind|lia|done| |apply (lo_free _ _ _ L); destruct (decide _); lia].
  intros s1 din1 ind' b Had. destruct (added_used _ _ _ _ _ Had) as (_ & _ & _ & _ & Hb & Hbi & _).
  assert (m_freeblock s1 <= FSSIZE) as Hr1 by (rewrite (ad_free _ _ _ _ _ _ _ _ Had); lia). rewrite nmeta_value in Hfb.
  eapply append_tail; [lia|rewrite (ad_img _ _ _ _ _ _ _ _ Had) by (by right); apply (lo_free _ _ _ L); lia|].
  replace (splice (Z.to_nat (sz mod 1024)) piece (replicate 1024 0)) with (pad 1024 piece) by (rewrite Hmod; symmetry; apply (splice_pad 1024 []); simpl; pose proof (Z.mod_pos_bound sz 1024); lia).
  pose proof (added_appended _ _ _ _ Hmod Had Hr1) as Hap. cbv zeta in Hap. rewrite (ad_din _ _ _ _ _ _ _ _ Had). apply HQ in Hap.
  revert Hap. unfold din_of, size_of. cbn. by rewrite length_app, Nat2Z.inj_add.
Qed.
End turn.

Lemma cost_mono n m : n <= m -> cost n <= cost m.
Proof.
  intros H. assert (nblocks n <= nblocks m) by (unfold nblocks, BSIZE; Z.to_euclidean_division_equations; lia).
  unfold cost. destruct (Z.ltb_spec NDIRECT (nblocks n)), (Z.ltb_spec NDIRECT (nblocks m)); lia.
Qed.

Lemma appended_refl s f others : laid_out (m_img s) (m_freeblock s) (f :: others) -> appended s s f f others [].
Proof. intros L. split; try done; [by rewrite app_nil_r|lia]. Qed.

Lemma appended_trans s1 s2 s3 f1 f2 f3 others a b :
  appended s1 s2 f1 f2 others a -> appended s2 s3 f2 f3 others b -> appended s1 s3 f1 f3 others (a ++ b).
Proof.
  intros [T1 D1 _ M1 F1 [R1 R1']] [T2 D2 L2 M2 F2 [R2 R2']]. split; [congruence|by rewrite D2, D1, app_assoc|done| |lia|split; congruence].
  intros c Hc. rewrite M2 by done. by apply M1.
Qed.

Lemma appended_size s s' f f' others a : appended s s' f f' others a -> size_of f' = size_of f + Z.of_nat (length a).
Proof. intros A. unfold size_of. rewrite (ap_data _ _ _ _ _ _ A), length_app. lia. Qed.

Lemma append_turn_run s f others p z (Q : dinode * Z * list Z + dinode * Z -> mkst -> Prop) :
  laid_out (m_img s) (m_freeblock s) (f :: others) -> p <> [] -> size_of f + Z.of_nat (length p) <= MAXFILE * BSIZE ->
  m_freeblock s + cost (size_of f + Z.of_nat (length p)) - cost (size_of f) <= FSSIZE ->
  (forall s' f', appended s s' f f' others (piece f p) -> Q (inl ((din_of f') <| d_size := z |>, size_of f', drop (length (piece f p)) p)) s') ->
  mwp (append_turn ((din_of f) <| d_size := z |>, size_of f, p)) Q s.
Proof.
  intros L Hp Hmax Hroom HQ. destruct (decide (size_of f mod 1024 = 0)) as [Hm|Hm]; [|by eapply append_inside].
  eapply append_outside; try done. destruct (turn_piece f p Hp Hmax) as (Hpc & _ & Hnb). pose proof (size_nonneg f).
  pose proof (cost_mono (size_of f + Z.of_nat (length (piece f p))) (size_of f + Z.of_nat (length p))).
  pose proof (do_blocks _ _ (turn_file _ _ _ L)) as Hbl. unfold cost in *. rewrite Hnb in *.
  assert (nblocks (size_of f) = size_of f / 1024) by (unfold nblocks, BSIZE; Z.to_euclidean_division_equations; lia). change NDIRECT with 12 in *.
  destruct (decide _); destruct (Z.ltb_spec 12 (nblocks (size_of f))), (Z.ltb_spec 12 (size_of f / 1024 + 1)); lia.
Qed.

Lemma piece_split f p : piece f p ++ drop (length (piece f p)) p = p.
Proof.
  unfold piece. generalize (Z.to_nat (Z.min (Z.of_nat (length p)) ((size_of f / BSIZE + 1) * BSIZE - size_of f))). intros n.
  rewrite length_take. destruct (le_lt_dec n (length p)); [rewrite Nat.min_l by lia; apply take_drop|].
  by rewrite Nat.min_r, take_ge, drop_all, app_nil_r by lia.
Qed.

Lemma append_loop fuel : forall s f others p z (Q : dinode * Z -> mkst -> Prop),
  laid_out (m_img s) (m_freeblock s) (f :: others) -> (length p < fuel)%nat -> size_of f + Z.of_nat (length p) <= MAXFILE * BSIZE ->
  m_freeblock s + cost (size_of f + Z.of_nat (length p)) - cost (size_of f) <= FSSIZE ->
  (forall s' f', appended s s' f f' others p -> Q ((din_of f') <| d_size := z |>, size_of f') s') ->
  mwp (mloop fuel append_turn ((din_of f) <| d_size := z |>, size_of f, p)) Q s.
Proof.
  induction fuel as [|fuel IH]; intros s f others p z Q L Hfuel Hmax Hroom HQ; [lia|]. cbn [mloop]. apply mwp_bind.
  destruct (decide (p = [])) as [->|Hp]; [apply (HQ s f); by apply appended_refl|].
  eapply append_turn_run; try done. intros s1 f1 A1. destruct (turn_piece f p Hp Hmax) as (Hpc & _ & _).
  pose proof (appended_size _ _ _ _ _ _ A1) as Hs1. pose proof (ap_free _ _ _ _ _ _ A1).
  assert (Z.of_nat (length p) = Z.of_nat (length (piece f p)) + Z.of_nat (length (drop (length (piece f p)) p))) as Hl by (rewrite length_drop; lia).
  replace (size_of f + Z.of_nat (length p)) with (size_of f1 + Z.of_nat (length (drop (length (piece f p)) p))) in * by lia.
  apply (IH s1 f1 others); [apply (ap_laid _ _ _ _ _ _ A1)|rewrite length_drop; lia|done|lia|].
  intros s2 f2 A2. apply HQ. pose proof (appended_trans _ _ _ _ _ _ _ _ _ A1 A2) as A. by rewrite piece_split in A.
Qed.

(** ** The inode table *)

Definition the_sb : superblock := mksb FSMAGIC FSSIZE (FSSIZE - nmeta) NINODES nlog 2 (2 + nlog) (2 + nlog + ninodeblocks).

(** Inode [n] is in slot [n]: the files are numbered from one. *)
Definition slots (fs : list mfile) (n : nat) : list Z :=
  match n with
  | O => replicate 64 0
  | S n => match fs !! n with Some f => dinode_image (din_of f) | None => replicate 64 0 end
  end.
Definition itable (D : gmap Z (list Z)) (g : nat -> list Z) : Prop :=
  forall j, (j < 13)%nat -> D !! (32 + Z.of_nat j) = Some (concat ((fun i => g (16 * j + i)%nat) <$> seq 0 16)).

Lemma addrs_length blocks ind : length (addrs_list blocks ind) = 13%nat.
Proof. unfold addrs_list. rewrite length_app, pad_length by (rewrite length_take; lia). done. Qed.

Lemma dinode_image_length d : length (d_addrs d) = 13%nat -> length (dinode_image d) = 64%nat.
Proof. intros H. unfold dinode_image. by rewrite !length_app, !length_le_bytes, length_addr_list, H. Qed.

Lemma slots_length fs n : length (slots fs n) = 64%nat.
Proof. destruct n as [|n]; [done|]. simpl. destruct (fs !! n); [apply dinode_image_length, addrs_length|done]. Qed.

(** Pieces of equal length. *)
Section pieces.
Context (m : nat).
Lemma pieces_length (l : list (list Z)) : Forall (fun x => length x = m) l -> length (concat l) = (m * length l)%nat.
Proof. induction 1 as [|x l Hx _ IH]; simpl; [lia|]. rewrite length_app, Hx, IH. lia. Qed.

Lemma splice_concat (l : list (list Z)) k v : Forall (fun x => length x = m) l -> (k < length l)%nat -> length v = m ->
  splice (m * k) v (concat l) = concat (<[k := v]> l).
Proof.
  intros Hl Hk Hv. destruct (lookup_lt_is_Some_2 _ _ Hk) as [x Hx]. rewrite <- (take_drop_middle _ _ _ Hx) at 1. rewrite insert_take_drop by done.
  rewrite !concat_app. cbn [concat]. assert (length (concat (take k l)) = m * k)%nat as Hpre.
  { rewrite pieces_length by (by apply Forall_take). rewrite length_take. f_equal. lia. }
  unfold splice. rewrite <- Hpre, take_app_length. do 2 f_equal. rewrite drop_app_ge by lia.
  replace (length (concat (take k l)) + length v - length (concat (take k l)))%nat with (length v) by lia.
  apply drop_app_length'. rewrite Hv. rewrite Forall_forall in Hl. symmetry. apply Hl. by eapply list_elem_of_lookup_2.
Qed.
End pieces.

Lemma lookup_slots (h : nat -> list Z) i : (i < 16)%nat -> (h <$> seq 0 16) !! i = Some (h i).
Proof. intros Hi. by rewrite list_lookup_fmap, lookup_seq_lt. Qed.

Lemma itable_get D g n : itable D g -> (forall m, length (g m) = 64%nat) -> (n < 208)%nat ->
  exists d, D !! (32 + Z.of_nat (n / 16)) = Some d /\ length d = 1024%nat /\ splice (64 * (n mod 16)) (g n) d = d.
Proof.
  intros T Hg Hn. pose proof (Nat.div_mod_eq n 16). pose proof (Nat.mod_upper_bound n 16). eexists. split; [apply T; lia|]. split.
  - rewrite (pieces_length 64); [done|]. apply Forall_fmap, Forall_forall. intros. apply Hg.
  - rewrite splice_concat; [|apply Forall_fmap, Forall_forall; intros; apply Hg|rewrite length_fmap, length_seq; lia|apply Hg].
    rewrite list_insert_id; [done|]. rewrite lookup_slots by lia. do 2 f_equal. lia.
Qed.

Lemma itable_set D g g' n v d : itable D g -> (forall m, length (g m) = 64%nat) -> (n < 208)%nat -> length v = 64%nat ->
  g' n = v -> (forall m, m <> n -> g' m = g m) -> D !! (32 + Z.of_nat (n / 16)) = Some d ->
  itable (<[32 + Z.of_nat (n / 16) := splice (64 * (n mod 16)) v d]> D) g'.
Proof.
  intros T Hg Hn Hv Hgn Hrest Hd j Hj. pose proof (Nat.div_mod_eq n 16). pose proof (Nat.mod_upper_bound n 16).
  destruct (decide (j = n / 16)%nat) as [->|Hne].
  - rewrite lookup_insert_eq. f_equal. rewrite T in Hd by done. apply (inj Some) in Hd. subst d.
    rewrite splice_concat; [|apply Forall_fmap, Forall_forall; intros; apply Hg|rewrite length_fmap, length_seq; lia|done]. f_equal.
    apply (list_eq_same_length _ _ 16); [by rewrite length_fmap, length_seq|by rewrite length_insert, length_fmap, length_seq|].
    intros i x y Hi Hx Hy. rewrite lookup_slots in Hy by done. apply (inj Some) in Hy. subst y.
    destruct (decide (i = n mod 16)%nat) as [->|Hin].
    + rewrite list_lookup_insert_eq in Hx by (rewrite length_fmap, length_seq; lia). apply (inj Some) in Hx. subst x. rewrite <- Hgn. f_equal. lia.
    + rewrite list_lookup_insert_ne, lookup_slots in Hx by done. apply (inj Some) in Hx. subst x. symmetry. apply Hrest. lia.
  - rewrite lookup_insert_ne by lia. rewrite T by done. do 2 f_equal. apply list_fmap_ext. intros i x Hx. symmetry. apply Hrest.
    apply lookup_seq in Hx. lia.
Qed.

(** ** The state between two operations *)

Definition blocks_taken (fs : list mfile) : Z := foldr (fun f n => cost (size_of f) + n) 0 fs.

Record minv (s : mkst) (fs : list mfile) : Prop := {
  mi_sb : m_sb s = the_sb;
  mi_inode : m_freeinode s = 1 + Z.of_nat (length fs);
  mi_block : m_freeblock s = nmeta + blocks_taken fs;
  mi_laid : laid_out (m_img s) (m_freeblock s) fs;
  mi_table : itable (m_img s) (slots fs);
  mi_super : m_img s !! 1 = Some (pad 1024 (sb_image the_sb));
  mi_type f : f ∈ fs -> 0 < f_type f < 2 ^ 15
}.

(** The inode the kernel has for file [f] under number [n]. *)
Definition inode_of (n : Z) (f : mfile) : inode :=
  mkinode ROOTDEV n 0 (mksleeplock 0 0) 0 (f_type f) 0 0 1 (size_of f) (addrs_list (f_blocks f) (f_ind f)).

Lemma inode_of_bytes n f : dinode_bytes (inode_of n f) = dinode_image (din_of f).
Proof. done. Qed.

Lemma laid_out_perm D fb fs fs' : Permutation fs fs' -> laid_out D fb fs -> laid_out D fb fs'.
Proof. intros Hp [H1 H2 H3 H4 H5 H6]. split; try done; setoid_rewrite <- Hp; done. Qed.

Lemma laid_out_meta D fb fs b d : 0 <= b < nmeta -> length d = 1024%nat -> laid_out D fb fs -> laid_out (<[b := d]> D) fb fs.
Proof.
  intros Hb Hd [H1 H2 H3 H4 H5 H6]. split; try done.
  - intros c Hc. destruct (decide (c = b)) as [->|]; [rewrite lookup_insert_eq; eauto|]. rewrite lookup_insert_ne by done. auto.
  - intros c Hc. rewrite lookup_insert_ne by lia. by apply H3.
  - intros f Hf. eapply data_ok_frame; [|by apply H4]. intros c Hc. apply lookup_insert_ne. intros <-.
    assert (nmeta <= b < fb); [|lia]. apply H6, list_elem_of_bind. eauto.
Qed.

Lemma used_range D fb fs f b : laid_out D fb fs -> f ∈ fs -> b ∈ used f -> nmeta <= b < fb.
Proof. intros L Hf Hb. apply (lo_range _ _ _ L), list_elem_of_bind. eauto. Qed.

Lemma inode_of_ok D fb fs f n : laid_out D fb fs -> f ∈ fs -> 0 < f_type f < 2 ^ 15 -> dinode_ok (inode_of n f).
Proof.
  intros L Hf Ht. pose proof (lo_fb _ _ _ L). pose proof (do_size _ _ (lo_data _ _ _ L f Hf)) as Hs. change (MAXFILE * BSIZE) with 274432 in Hs.
  pose proof (size_nonneg f). unfold FSSIZE in *. rewrite nmeta_value in *. split; cbn [inode_of i_type i_major i_minor i_nlink i_size i_addrs].
  - repeat constructor; lia.
  - lia.
  - split; [apply addrs_length|]. unfold addrs_list, pad. rewrite !Forall_app. split_and!.
    + apply Forall_forall. intros b Hb. apply elem_of_take in Hb as (i & Hb & _). assert (nmeta <= b < fb); [|rewrite nmeta_value in *; lia].
      eapply used_range; [done|done|]. unfold used. apply elem_of_app. right. by eapply list_elem_of_lookup_2.
    + apply Forall_replicate. lia.
    + apply Forall_singleton. destruct (decide (f_ind f = 0)); [lia|]. assert (nmeta <= f_ind f < fb); [|rewrite nmeta_value in *; lia].
      eapply used_range; [done|done|]. unfold used. rewrite decide_False by done. by left.
Qed.

Lemma inode_block_at n : (n < 208)%nat ->
  u32 (IBLOCK (Z.of_nat n) the_sb) = 32 + Z.of_nat (n / 16) /\ Z.to_nat (DINODE_SIZE * (Z.of_nat n mod IPB)) = (64 * (n mod 16))%nat /\
  0 <= 32 + Z.of_nat (n / 16) < nmeta.
Proof.
  intros Hn. rewrite nmeta_value. unfold IBLOCK. change (sb_inodestart the_sb) with 32. change IPB with 16. change DINODE_SIZE with 64.
  rewrite Nat2Z.inj_div. change (Z.of_nat 16) with 16.
  rewrite u32_small by (Z.to_euclidean_division_equations; lia). split_and!; [lia| |Z.to_euclidean_division_equations; lia..].
  rewrite Z2Nat.inj_mul by (Z.to_euclidean_division_equations; lia). change (Z.to_nat 64) with 64%nat. f_equal.
  apply Nat2Z.inj. rewrite Nat2Z.inj_mod, Z2Nat.id; [done|]. by apply Z.mod_pos_bound.
Qed.

(** The inode block with [with_dinode] as the kernel writes it. *)
Lemma inode_written s fs n f : minv s fs -> fs !! n = Some f -> (S n < 208)%nat ->
  exists d, m_img s !! (32 + Z.of_nat (S n / 16)) = Some (with_dinode (inode_of (Z.of_nat (S n)) f) d) /\ length d = 1024%nat.
Proof.
  intros Hinv Hf Hn. destruct (itable_get _ _ (S n) (mi_table _ _ Hinv) (slots_length fs) Hn) as (d & Hd & Hl & Hs). exists d. split; [|done].
  rewrite Hd. f_equal. unfold with_dinode, dinode_off. rewrite inode_of_bytes. cbn [inode_of i_inum].
  rewrite <- Hs at 1. cbn [slots]. rewrite Hf. f_equal. symmetry.
  change (DINODE_SIZE * (Z.of_nat (S n) mod IPB)) with (64 * (Z.of_nat (S n) mod Z.of_nat 16)). rewrite <- Nat2Z.inj_mod. lia.
Qed.

Lemma mwp_winode s g g' n d (Q : unit -> mkst -> Prop) :
  m_sb s = the_sb -> itable (m_img s) g -> (forall m, length (g m) = 64%nat) -> (n < 208)%nat -> length (d_addrs d) = 13%nat ->
  g' n = dinode_image d -> (forall m, m <> n -> g' m = g m) ->
  (forall blk, length blk = 1024%nat -> itable (<[32 + Z.of_nat (n / 16) := blk]> (m_img s)) g' ->
     Q tt (s <| m_img ::= <[32 + Z.of_nat (n / 16) := blk]> |>)) ->
  mwp (winode (Z.of_nat n) d) Q s.
Proof.
  intros Hsb T Hg Hn Hd Hgn Hrest HQ. destruct (itable_get _ _ _ T Hg Hn) as (blk & Hblk & Hl & _). destruct (inode_block_at n Hn) as (Eb & Eo & Hb).
  rewrite nmeta_value in Hb. unfold winode. mstep. rewrite Hsb, Eb, Eo. mstep. eapply mwp_rsect; [unfold FSSIZE; lia|exact Hblk|].
  apply mwp_wsect; [unfold FSSIZE; lia|]. pose proof (dinode_image_length d Hd) as Hi. apply HQ.
  - rewrite length_splice; [done|]. rewrite Hi, Hl. pose proof (Nat.mod_upper_bound n 16). lia.
  - eapply itable_set; [exact T|done|done|done|done|done|done].
Qed.

Lemma mwp_rinode s fs n f (Q : dinode -> mkst -> Prop) :
  minv s fs -> fs !! n = Some f -> (S n < 208)%nat -> Q (din_of f) s -> mwp (rinode (Z.of_nat (S n))) Q s.
Proof.
  intros Hinv Hf Hn HQ. destruct (inode_written _ _ _ _ Hinv Hf Hn) as (d & Hd & Hl). destruct (inode_block_at (S n) Hn) as (Eb & _ & Hb).
  rewrite nmeta_value in Hb. unfold rinode. mstep. rewrite (mi_sb _ _ Hinv), Eb. mstep. eapply mwp_rsect; [unfold FSSIZE; lia|exact Hd|]. mstep.
  assert (f ∈ fs) as Hin by (by eapply list_elem_of_lookup_2).
  destruct (decode_dinode (inode_of (Z.of_nat (S n)) f) d (inode_of_ok _ _ _ _ _ (mi_laid _ _ Hinv) Hin (mi_type _ _ Hinv f Hin)) Hl) as (E1 & E2 & E3 & E4 & E5 & E6).
  pose proof (dinode_off_range (Z.of_nat (S n))) as Hr. change (i_inum (inode_of (Z.of_nat (S n)) f)) with (Z.of_nat (S n)) in *.
  change (DINODE_SIZE * (Z.of_nat (S n) mod IPB)) with (dinode_off (Z.of_nat (S n))). set (off := dinode_off (Z.of_nat (S n))) in *.
  rewrite !Z2Nat.inj_add in * by lia. change (Z.to_nat 2) with 2%nat in *. change (Z.to_nat 4) with 4%nat in *. change (Z.to_nat 6) with 6%nat in *.
  change (Z.to_nat 8) with 8%nat in *. change (Z.to_nat 12) with 12%nat in *. rewrite E1, E2, E3, E4, E5, E6. exact HQ.
Qed.

Lemma slots_insert fs n f f' : fs !! n = Some f -> slots (<[n := f']> fs) (S n) = dinode_image (din_of f') /\
  forall m, m <> S n -> slots (<[n := f']> fs) m = slots fs m.
Proof.
  intros Hf. apply lookup_lt_Some in Hf. split; [simpl; by rewrite list_lookup_insert_eq|]. intros [|m] Hm; [done|]. simpl. by rewrite list_lookup_insert_ne by lia.
Qed.

Lemma taken_app l1 l2 : blocks_taken (l1 ++ l2) = blocks_taken l1 + blocks_taken l2.
Proof. induction l1 as [|f l1 IH]; simpl; [lia|]. rewrite IH. lia. Qed.

Lemma taken_perm l1 l2 : Permutation l1 l2 -> blocks_taken l1 = blocks_taken l2.
Proof. induction 1; simpl; lia. Qed.

(** [iappend] adds [p] to file [n] and leaves the others. *)
Lemma mwp_iappend s fs n f p (Q : unit -> mkst -> Prop) :
  minv s fs -> fs !! n = Some f -> (S n < 208)%nat -> size_of f + Z.of_nat (length p) <= MAXFILE * BSIZE ->
  m_freeblock s + cost (size_of f + Z.of_nat (length p)) - cost (size_of f) <= FSSIZE ->
  (forall s' f', f_type f' = f_type f -> f_data f' = f_data f ++ p -> minv s' (<[n := f']> fs) -> Q tt s') ->
  mwp (iappend (Z.of_nat (S n)) p) Q s.
Proof.
  intros Hinv Hf Hn Hmax Hroom HQ. pose proof Hinv as [Hsb Hino Hblk L T Hsup Hty]. pose proof (do_size _ _ (lo_data _ _ _ L f (list_elem_of_lookup_2 _ _ _ Hf))) as Hfs.
  change (MAXFILE * BSIZE) with 274432 in *. pose proof (size_nonneg f). unfold iappend. mstep. eapply mwp_rinode; [done|done|done|]. mstep.
  rewrite xint_id by (cbn [d_size din_of]; lia). change (d_size (din_of f)) with (size_of f).
  change (din_of f) with ((din_of f) <| d_size := size_of f |>) at 1. set (others := take n fs ++ drop (S n) fs).
  assert (forall g, Permutation (<[n := g]> fs) (g :: others)) as Hperm.
  { intros g. unfold others. rewrite insert_take_drop by (by eapply lookup_lt_Some). by rewrite Permutation_middle. }
  assert (Permutation fs (f :: others)) as Hpf by (rewrite <- (list_insert_id fs n f Hf) at 1; apply Hperm).
  apply (append_loop _ s f others).
  - eapply laid_out_perm; [exact Hpf|exact L].
  - lia.
  - change (MAXFILE * BSIZE) with 274432. lia.
  - done.
  - intros s1 f' A. pose proof (appended_size _ _ _ _ _ _ A) as Es. destruct A as [A1 A2 A3 A4 A5 [A6 A7]].
    rewrite xint_id by lia. destruct (slots_insert fs n f f' Hf) as [S1 S2].
    eapply (mwp_winode s1 (slots fs) (slots (<[n := f']> fs))); [congruence| |apply slots_length|done|apply addrs_length|done|done|].
    { intros j Hj. rewrite A4 by (rewrite nmeta_value; lia). by apply T. }
    intros blk Hl T'. destruct (inode_block_at (S n) Hn) as (_ & _ & Hb). apply (HQ _ f'); [done|done|].
    split; cbn [m_sb m_img m_freeinode m_freeblock set].
    + congruence.
    + by rewrite length_insert, A7.
    + rewrite A5, Hblk, (taken_perm _ _ (Hperm f')), (taken_perm _ _ Hpf). simpl. lia.
    + apply laid_out_meta; [done|done|]. eapply laid_out_perm; [symmetry; apply Hperm|done].
    + exact T'.
    + rewrite lookup_insert_ne by lia. rewrite A4 by (rewrite nmeta_value; lia). done.
    + intros g. rewrite Hperm. intros [->|Hg]%elem_of_cons; [rewrite A1; apply Hty; by eapply list_elem_of_lookup_2|]. apply Hty. rewrite Hpf. by right.
Qed.

(** [ialloc] makes an empty file under the next number. *)
Lemma mwp_ialloc s fs type (Q : Z -> mkst -> Prop) :
  minv s fs -> (S (length fs) < 208)%nat -> 0 < type < 2 ^ 15 ->
  (forall s', minv s' (fs ++ [mkmf type [] [] 0]) -> m_freeblock s' = m_freeblock s -> Q (Z.of_nat (S (length fs))) s') -> mwp (ialloc type) Q s.
Proof.
  intros [Hsb Hino Hblk L T Hsup Hty] Hn Ht HQ. unfold ialloc. mstep. replace (m_freeinode s) with (Z.of_nat (S (length fs))) by lia.
  set (f := mkmf type [] [] 0). replace (mkdin _ _ _ _ _ _) with (din_of f).
  2:{ pose proof (i16_mod type) as E. rewrite Z.mod_small in E by lia. rewrite xshort_id, E by lia. done. }
  assert (slots (fs ++ [f]) (S (length fs)) = dinode_image (din_of f)) as S1 by (simpl; by rewrite list_lookup_middle).
  assert (forall m, m <> S (length fs) -> slots (fs ++ [f]) m = slots fs m) as S2.
  { intros [|m] Hm; [done|]. simpl. destruct (decide (m < length fs)%nat); [by rewrite lookup_app_l|]. by rewrite !lookup_ge_None_2 by (rewrite ?length_app; simpl; lia). }
  eapply (mwp_winode _ (slots fs)); [done|exact T|apply slots_length|done|apply addrs_length|exact S1|exact S2|].
  intros blk Hl T'. mstep. destruct (inode_block_at (S (length fs)) Hn) as (_ & _ & Hb). apply HQ; [|done].
  split; cbn [m_sb m_img m_freeinode m_freeblock set].
  - done.
  - rewrite u32_small by lia. rewrite length_app. simpl. lia.
  - rewrite Hblk, taken_app. change (blocks_taken [_]) with 0. lia.
  - apply laid_out_meta; [done|done|]. destruct L as [L1 L2 L3 L4 L5 L6]. split; try done.
    + intros g [Hg| ->%list_elem_of_singleton]%elem_of_app; [by apply L4|]. by split.
    + by rewrite bind_app, app_nil_r.
    + by rewrite bind_app, app_nil_r.
  - exact T'.
  - by rewrite lookup_insert_ne by lia.
  - intros g [Hg| ->%list_elem_of_singleton]%elem_of_app; [by apply Hty|done].
Qed.
