(* ===== verification/Image.v ===== *)
(** The image [mkfs] writes, as the kernel's file system finds it.

    [mkfs_image] follows [mkfs/mkfs.c]'s [main] to its end: the files of the image satisfy the conditions ([file_ok],
    [file_apart], [dinode_ok], [dir_is]) under which the theorems on [kernel/fs.c] hold. *)
From S2P Require Import Prelude Types Kstate Cstring Spinlock Frame Printf Accounting Kalloc Vm Proc Bio Bcache Blocks Log Commit Transaction Fs Content Inode Dir Mkfs.
From stdpp Require Import base numbers list gmap strings.
From Stdlib Require Import ZArith Lia.

Local Open Scope Z_scope.
Local Open Scope xv6_scope.

(** ** One file *)

Section view.
Context (D : gmap Z (list Z)) (fb : Z) (fs : list mfile) (L : laid_out D fb fs) (f : mfile) (Hf : f ∈ fs) (n : Z).
Abbreviation nd := (inode_of n f).

Lemma view_used b : b ∈ used f -> 46 <= b < fb /\ fb <= 5000.
Proof. intros Hb. pose proof (used_range _ _ _ _ _ L Hf Hb). pose proof (lo_fb _ _ _ L). rewrite nmeta_value in *. unfold FSSIZE in *. lia. Qed.

Lemma view_block k b : f_blocks f !! k = Some b -> block_at D nd (Z.of_nat k) = b.
Proof.
  intros Hk. pose proof (lo_data _ _ _ L f Hf) as [_ _ Hi _]. apply lookup_lt_Some in Hk as Hlt.
  assert (b ∈ used f) as Hb%view_used by (unfold used; apply elem_of_app; right; by eapply list_elem_of_lookup_2).
  unfold block_at, addr. change NDIRECT with 12. cbn [inode_of i_addrs]. destruct (Z.ltb_spec (Z.of_nat k) 12).
  - by rewrite Nat2Z.id, addrs_direct, Hk by lia.
  - change (Z.to_nat 12) with 12%nat. rewrite addrs_ind. cbn [from_option id]. unfold addrs_ok in Hi.
    destruct (Nat.ltb_spec 12 (length (f_blocks f))); [|lia]. destruct Hi as [_ ->].
    replace (Z.to_nat (4 * (Z.of_nat k - 12))) with (4 * (k - 12))%nat by lia. apply load_entry; [|lia]. rewrite lookup_drop, <- Hk. f_equal. lia.
Qed.

Lemma view_at k : 0 <= k < nblocks (size_of f) -> exists b, f_blocks f !! Z.to_nat k = Some b /\ block_at D nd k = b /\ b ∈ f_blocks f.
Proof.
  intros Hk. pose proof (do_blocks _ _ (lo_data _ _ _ L f Hf)) as Hl. destruct (lookup_lt_is_Some_2 (f_blocks f) (Z.to_nat k)) as [b Hb]; [lia|].
  exists b. split_and!; [done| |by eapply list_elem_of_lookup_2]. rewrite <- (Z2Nat.id k) by lia. by apply view_block.
Qed.

Lemma view_indirect : NDIRECT < nblocks (size_of f) -> addr nd NDIRECT = f_ind f /\ f_ind f <> 0 /\ f_ind f ∈ used f.
Proof.
  intros Hn. pose proof (lo_data _ _ _ L f Hf) as [_ Hl Hi _]. unfold addr. change (Z.to_nat NDIRECT) with 12%nat. cbn [inode_of i_addrs]. rewrite addrs_ind.
  unfold addrs_ok in Hi. change NDIRECT with 12 in Hn. destruct (Nat.ltb_spec 12 (length (f_blocks f))); [|lia]. destruct Hi as [Hi _].
  split_and!; [done|done|]. unfold used. rewrite decide_False by done. by left.
Qed.

Lemma used_blocks b : b ∈ f_blocks f -> b ∈ used f.
Proof. intros Hb. unfold used. apply elem_of_app. by right. Qed.

Lemma view_file_ok : file_ok D nd.
Proof.
  pose proof (lo_data _ _ _ L f Hf) as Hok. split; cbn [inode_of i_dev i_size i_addrs].
  - done.
  - split; [apply size_nonneg|apply Hok].
  - apply addrs_length.
  - intros k Hk. destruct (view_at k Hk) as (b & Hb & -> & Hin%used_blocks). pose proof (view_used _ Hin). split; [lia|].
    by apply (data_ok_used _ _ _ Hok).
  - intros Hn. destruct (view_indirect Hn) as (-> & ? & _). done.
Qed.

Lemma view_bytes : fbytes D nd 0 (f_data f).
Proof.
  intros i c Hi. apply lookup_lt_Some in Hi as Hlt. pose proof (lo_data _ _ _ L f Hf) as [_ Hl _ Hd]. unfold fbyte. rewrite Z.add_0_l.
  destruct (view_at (Z.of_nat i / BSIZE)) as (b & Hb & -> & _); [apply nblocks_off; unfold size_of; lia|]. rewrite (Hd _ _ Hb). cbn [mbind option_bind].
  pose proof (Z.div_mod (Z.of_nat i) 1024). pose proof (Z.mod_pos_bound (Z.of_nat i) 1024). change BSIZE with 1024 in *.
  unfold pad, slice. rewrite lookup_app_l by (rewrite length_take, length_drop; lia). rewrite lookup_take, decide_True by lia.
  rewrite lookup_drop, <- Hi. f_equal. lia.
Qed.

Lemma view_apart (s : kstate) : k_sb s = the_sb -> 0 <= n < 208 -> file_apart s nd D.
Proof.
  intros Hsb Hn. assert (NoDup (used f)) as Hnd.
  { pose proof (lo_nodup _ _ _ L) as Hnd. apply list_elem_of_lookup in Hf as [i Hi]. rewrite <- (take_drop_middle _ _ _ Hi), bind_app, bind_cons in Hnd.
    apply NoDup_app in Hnd as (_ & _ & Hnd). by apply NoDup_app in Hnd as [Hnd _]. }
  assert (inode_block s nd < 46) as Hib.
  { unfold inode_block, IBLOCK. rewrite Hsb. change (sb_inodestart the_sb) with 32. change IPB with 16. cbn [inode_of i_inum]. Z.to_euclidean_division_equations. lia. }
  split; cbn [inode_of i_size].
  - intros k k' Hk Hk' E. destruct (view_at k Hk) as (b & Hb & Eb & _), (view_at k' Hk') as (b' & Hb' & Eb' & _). cbn in *. unfold used in Hnd.
    apply NoDup_app in Hnd as (_ & _ & Hnd). assert (Z.to_nat k = Z.to_nat k') by (eapply NoDup_lookup; [exact Hnd|exact Hb|congruence]). lia.
  - intros k Hk. destruct (view_at k Hk) as (b & _ & -> & Hb%used_blocks%view_used). unfold block_no. lia.
  - intros k Hn12 Hk. destruct (view_at k Hk) as (b & _ & -> & Hb), (view_indirect Hn12) as (-> & Hi & _). intros ->. unfold used in Hnd.
    rewrite decide_False in Hnd by done. apply NoDup_cons in Hnd as [Hnd _]. done.
  - intros k Hk. destruct (view_at k Hk) as (b & _ & -> & Hb%used_blocks%view_used). lia.
  - intros Hn12. destruct (view_indirect Hn12) as (-> & _ & Hi%view_used). lia.
Qed.
End view.

(** ** Adding files *)

(** What a file of the command line is called, and what it contains. *)
Definition file_name (f : list Z * option (list (list Z))) : list Z := skip_underscore (shortname f.1).
Definition content (f : list Z * option (list (list Z))) : list Z := concat (default [] f.2).

Definition entry_of (n : Z) (name : list Z) : Z * list Z := (n, strncpy_image (Z.to_nat DIRSIZ) (name ++ [0])).
Fixpoint entries (n : Z) (files : list (list Z * option (list (list Z)))) : list (Z * list Z) :=
  match files with [] => [] | f :: files => entry_of n (file_name f) :: entries (n + 1) files end.
Definition entry_bytes (e : Z * list Z) : list Z := le_bytes 2 e.1 ++ e.2.
Definition dir_bytes (ents : list (Z * list Z)) : list Z := concat (entry_bytes <$> ents).

(** The blocks the contents take. *)
Definition room (files : list (list Z * option (list (list Z)))) : Z :=
  foldr (fun f n => cost (Z.of_nat (length (content f))) + n) 0 files.

(** A file the program accepts: it can be opened, there is no slash in its name and it is not too long. *)
Definition good_file (f : list Z * option (list (list Z))) : Prop :=
  is_Some f.2 /\ (47 ∉ shortname f.1) /\ Z.of_nat (length (content f)) <= MAXFILE * BSIZE.

Lemma dirent_entry n name : 0 <= n < 2 ^ 16 -> dirent n name = entry_bytes (entry_of n name).
Proof. intros Hn. unfold dirent, entry_bytes, entry_of. cbn [fst snd]. by rewrite xshort_id. Qed.

Lemma entry_length e : length e.2 = 14%nat -> length (entry_bytes e) = 16%nat.
Proof. intros H. unfold entry_bytes. by rewrite length_app, length_le_bytes, H. Qed.

Lemma cost_nonneg n : 0 <= n -> 0 <= cost n.
Proof. intros H. pose proof (cost_mono 0 n H). change (cost 0) with 0 in *. lia. Qed.

Lemma room_nonneg files : 0 <= room files.
Proof. induction files as [|f files IH]; [done|]. cbn [room foldr]. fold (room files). pose proof (cost_nonneg (Z.of_nat (length (content f)))). lia. Qed.

Lemma mwp_pieces pieces : forall s fs n f (Q : unit -> mkst -> Prop),
  minv s fs -> fs !! n = Some f -> (S n < 208)%nat -> size_of f + Z.of_nat (length (concat pieces)) <= MAXFILE * BSIZE ->
  m_freeblock s + cost (size_of f + Z.of_nat (length (concat pieces))) - cost (size_of f) <= FSSIZE ->
  (forall s' f', f_type f' = f_type f -> f_data f' = f_data f ++ concat pieces -> minv s' (<[n := f']> fs) -> Q tt s') ->
  mwp (mfor pieces (fun buf => iappend (Z.of_nat (S n)) buf)) Q s.
Proof.
  induction pieces as [|p pieces IH]; intros s fs n f Q Hinv Hf Hn Hmax Hroom HQ; cbn [mfor concat] in *.
  - apply (HQ s f); [done|by rewrite app_nil_r|by rewrite list_insert_id].
  - rewrite length_app, Nat2Z.inj_add, Z.add_assoc in *. apply mwp_bind.
    pose proof (cost_mono (size_of f + Z.of_nat (length p)) (size_of f + Z.of_nat (length p) + Z.of_nat (length (concat pieces)))).
    eapply mwp_iappend; [done|done|done|lia|lia|]. intros s1 f1 Ht1 Hd1 Hinv1.
    assert (size_of f1 = size_of f + Z.of_nat (length p)) as Es by (unfold size_of; rewrite Hd1, length_app; lia).
    assert (blocks_taken (<[n := f1]> fs) = blocks_taken fs + cost (size_of f1) - cost (size_of f)) as Et.
    { apply lookup_lt_Some in Hf as Hlt. rewrite <- (take_drop_middle _ _ _ Hf) at 2. rewrite insert_take_drop, !taken_app by done. simpl. lia. }
    rewrite <- Es in Hmax, Hroom. eapply (IH s1 _ n f1); [done|apply list_lookup_insert_eq; by eapply lookup_lt_Some|done|done| |].
    + rewrite (mi_block _ _ Hinv1), Et. rewrite (mi_block _ _ Hinv) in Hroom. lia.
    + intros s2 f2 Ht2 Hd2 Hinv2. rewrite list_insert_insert_eq in Hinv2. apply (HQ s2 f2); [congruence|by rewrite Hd2, Hd1, app_assoc|done].
Qed.

Lemma mwp_add_file s root rest f (Q : unit -> mkst -> Prop) :
  minv s (root :: rest) -> good_file f -> (S (S (length rest)) < 208)%nat -> size_of root + 16 <= MAXFILE * BSIZE ->
  m_freeblock s + cost (size_of root + 16) - cost (size_of root) + cost (Z.of_nat (length (content f))) <= FSSIZE ->
  (forall s' root' f', f_type root' = f_type root -> f_type f' = T_FILE -> f_data f' = content f ->
     f_data root' = f_data root ++ entry_bytes (entry_of (2 + Z.of_nat (length rest)) (file_name f)) ->
     minv s' (root' :: rest ++ [f']) -> Q tt s') ->
  mwp (add_file 1 f) Q s.
Proof.
  intros Hinv ([pieces Hp] & Hslash & Hmax) Hn Hroot Hroom HQ. unfold content in *. rewrite Hp in *. cbn [from_option id] in *. unfold add_file. mstep.
  apply mwp_assert; [by apply bool_decide_eq_true|]. rewrite Hp. mstep. eapply mwp_ialloc; [done|exact Hn|done|]. intros s1 Hinv1 Hfb1. mstep.
  cbn [length app] in *. rewrite dirent_entry by lia. fold (file_name f).
  assert (length (entry_bytes (entry_of (Z.of_nat (S (S (length rest)))) (file_name f))) = 16%nat) as Hl16 by (apply entry_length, length_strncpy_image).
  pose proof (cost_nonneg _ (Nat2Z.is_nonneg (length (concat pieces)))).
  eapply (mwp_iappend s1 _ 0 root); [done|done|lia|rewrite Hl16; lia|rewrite Hl16; change (Z.of_nat 16) with 16; lia|]. intros s2 root' Ht2 Hd2 Hinv2. cbn [list_insert insert] in Hinv2.
  assert (size_of root' = size_of root + 16) as Es by (unfold size_of; rewrite Hd2, length_app, Hl16; lia).
  set (e := mkmf T_FILE [] [] 0) in *.
  eapply (mwp_pieces pieces s2 _ (S (length rest)) e); [exact Hinv2|exact (list_lookup_middle rest [] e _ eq_refl)|done|done| |].
  - rewrite (mi_block _ _ Hinv2). rewrite <- Hfb1, (mi_block _ _ Hinv1) in Hroom. cbn [blocks_taken foldr] in *. rewrite Es. change (size_of e) with 0. change (cost 0) with 0. rewrite Z.add_0_l. unfold blocks_taken in *. lia.
  - intros s3 f' Ht3 Hd3 Hinv3. apply (HQ s3 root' f'); [done|done|done|rewrite Hd2; do 3 f_equal; lia|].
    change (<[S (length rest) := f']> (root' :: rest ++ [e])) with (root' :: <[length rest := f']> (rest ++ [e])) in Hinv3. rewrite insert_app_r_alt, Nat.sub_diag in Hinv3 by done. exact Hinv3.
Qed.

Lemma mwp_files files : forall s root rest (Q : unit -> mkst -> Prop),
  minv s (root :: rest) -> Forall good_file files -> (S (length rest) + length files < 207)%nat ->
  size_of root + 16 * Z.of_nat (length files) <= MAXFILE * BSIZE ->
  m_freeblock s + cost (size_of root + 16 * Z.of_nat (length files)) - cost (size_of root) + room files <= FSSIZE ->
  (forall s' root' new, f_type root' = f_type root -> f_data root' = f_data root ++ dir_bytes (entries (2 + Z.of_nat (length rest)) files) ->
     f_data <$> new = content <$> files -> Forall (fun f => f_type f = T_FILE) new -> minv s' (root' :: rest ++ new) -> Q tt s') ->
  mwp (mfor files (add_file 1)) Q s.
Proof.
  induction files as [|f files IH]; intros s root rest Q Hinv Hgood Hn Hmax Hroom HQ; cbn [mfor].
  - apply (HQ s root []); [done|by rewrite app_nil_r|done|done|by rewrite app_nil_r].
  - apply Forall_cons in Hgood as [Hg Hgood]. cbn [length room foldr] in *. fold (room files) in Hroom. pose proof (room_nonneg files).
    apply mwp_bind. pose proof (cost_mono (size_of root + 16) (size_of root + 16 * Z.of_nat (S (length files)))).
    eapply mwp_add_file; [done|done|lia|lia|lia|]. intros s1 root1 f1 Ht1 Htf Hdf Hd1 Hinv1.
    assert (size_of root1 = size_of root + 16) as Es.
    { unfold size_of. rewrite Hd1, length_app, entry_length; [lia|apply length_strncpy_image]. }
    assert (m_freeblock s1 = m_freeblock s + cost (size_of root1) - cost (size_of root) + cost (Z.of_nat (length (content f)))) as Eb.
    { rewrite (mi_block _ _ Hinv1), (mi_block _ _ Hinv). cbn [blocks_taken foldr]. fold (blocks_taken (rest ++ [f1])) (blocks_taken rest).
      rewrite taken_app. cbn [blocks_taken foldr]. rewrite <- Hdf. unfold size_of. lia. }
    assert (size_of root + 16 * Z.of_nat (S (length files)) = size_of root1 + 16 * Z.of_nat (length files)) as Er by lia. rewrite Er in *.
    eapply (IH s1 root1 (rest ++ [f1])); [done|done|rewrite length_app; simpl; lia|done|lia|].
    intros s2 root2 new Ht2 Hd2 Hdn Htn Hinv2. rewrite length_app in Hd2. cbn [length] in Hd2.
    apply (HQ s2 root2 (f1 :: new)); [congruence| |by rewrite !fmap_cons, Hdf, Hdn|by constructor|by rewrite <- app_assoc in Hinv2].
    rewrite Hd2, Hd1, <- app_assoc. cbn [entries]. unfold dir_bytes. rewrite fmap_cons. cbn [concat]. do 5 f_equal. lia.
Qed.

(** ** The start and the end of [main] *)

Lemma mwp_zero l : forall s (Q : unit -> mkst -> Prop), Forall (fun b => 0 <= b < FSSIZE) l ->
  (forall s', m_sb s' = m_sb s -> m_freeinode s' = m_freeinode s -> m_freeblock s' = m_freeblock s ->
     (forall b, m_img s' !! b = if decide (b ∈ l) then Some (replicate 1024 0) else m_img s !! b) -> Q tt s') ->
  mwp (mfor l (fun i => wsect i (replicate (Z.to_nat BSIZE) 0))) Q s.
Proof.
  induction l as [|i l IH]; intros s Q Hl HQ; cbn [mfor].
  - apply HQ; [done..|]. intros b. rewrite decide_False; [done|]. by intros ?%elem_of_nil.
  - apply Forall_cons in Hl as [Hi Hl]. apply mwp_bind, mwp_wsect; [done|]. apply IH; [done|]. intros s' E1 E2 E3 Hb. apply HQ; [done..|].
    intros b. rewrite Hb. cbn [m_img set]. destruct (decide (b ∈ l)) as [Hin|Hin]; [by rewrite decide_True by (by right)|].
    destruct (decide (b = i)) as [->|Hne]; [rewrite lookup_insert_eq, decide_True by (by left); done|].
    rewrite lookup_insert_ne, decide_False; [done| |done]. by intros [?|?]%elem_of_cons.
Qed.

Lemma slots_nil n : slots [] n = replicate 64 0.
Proof. by destruct n. Qed.

Lemma minv_start s : m_sb s = the_sb -> m_freeinode s = 1 -> m_freeblock s = nmeta ->
  (forall b, 0 <= b < FSSIZE -> m_img s !! b = Some (if decide (b = 1) then pad 1024 (sb_image the_sb) else replicate 1024 0)) -> minv s [].
Proof.
  intros Hsb Hi Hb Hd. split; try done.
  - rewrite Hb. split; [by rewrite nmeta_value| | |by intros ? ?%elem_of_nil|constructor|by intros ? ?%elem_of_nil].
    + intros b Hr. rewrite Hd by done. eexists. split; [done|]. case_decide; [by vm_compute|apply length_replicate].
    + intros b Hr. rewrite nmeta_value in Hr. rewrite Hd, decide_False by lia. done.
  - intros j Hj. rewrite Hd by (unfold FSSIZE; lia). rewrite decide_False by lia.
    rewrite (list_fmap_ext _ (fun _ => replicate 64 0) _ (fun i x _ => slots_nil _)). by vm_compute.
  - rewrite Hd by (unfold FSSIZE; lia). done.
  - by intros ? ?%elem_of_nil.
Qed.

(** Rounding the size of a file up to whole blocks keeps its blocks. *)
Definition rounded (f : mfile) : mfile := f <| f_data := pad (Z.to_nat ((size_of f / BSIZE + 1) * BSIZE)) (f_data f) |>.

Lemma rounded_size f : size_of (rounded f) = (size_of f / 1024 + 1) * 1024.
Proof.
  pose proof (size_nonneg f). unfold size_of, rounded. cbn [f_data set]. change BSIZE with 1024. unfold size_of in *.
  rewrite pad_length; Z.to_euclidean_division_equations; lia.
Qed.

Lemma pad_slice_pad n o k l : (length l <= n)%nat -> (o + k <= n)%nat -> pad k (slice o k (pad n l)) = pad k (slice o k l).
Proof.
  intros Hl Hk. assert (length (slice o k (pad n l)) = k) as E by (unfold slice; rewrite length_take, length_drop, pad_length; lia).
  unfold pad at 1. rewrite E, Nat.sub_diag. simpl. rewrite app_nil_r. unfold pad, slice. destruct (decide (o <= length l)%nat).
  - rewrite drop_app_le by done. destruct (decide (k <= length (drop o l))%nat) as [Hd|Hd].
    + rewrite take_app_le by done. rewrite length_take, Nat.min_l, Nat.sub_diag by done. simpl. by rewrite app_nil_r.
    + rewrite (take_ge (drop o l)) by lia. rewrite take_app_ge, take_replicate by lia. f_equal. f_equal. rewrite length_drop in *. lia.
  - rewrite drop_app_ge, (drop_ge l) by lia. rewrite drop_replicate, take_nil, take_replicate. simpl. f_equal. lia.
Qed.

Lemma rounded_ok D fb f rest : laid_out D fb (f :: rest) -> size_of f mod 1024 <> 0 -> size_of f < MAXFILE * BSIZE -> laid_out D fb (rounded f :: rest).
Proof.
  intros L Hm Hmax. pose proof (size_nonneg f). change (MAXFILE * BSIZE) with 274432 in Hmax. pose proof (lo_data _ _ _ L f ltac:(by left)) as [H1 H2 H3 H4].
  apply (laid_out_update D D fb fb f _ rest []); [done| |done|constructor|by intros ? ?%elem_of_nil|pose proof (lo_fb _ _ _ L); lia|done].
  pose proof (rounded_size f) as Es. split.
  - rewrite Es. change (MAXFILE * BSIZE) with 274432. Z.to_euclidean_division_equations. lia.
  - rewrite Es. cbn [rounded f_blocks set]. rewrite H2. unfold nblocks, BSIZE. Z.to_euclidean_division_equations. lia.
  - done.
  - intros k b Hk. cbn [rounded f_blocks f_data set] in *. rewrite (H4 k b Hk). f_equal. apply lookup_lt_Some in Hk. symmetry. change BSIZE with 1024.
    unfold nblocks, BSIZE, size_of in *. apply pad_slice_pad; Z.to_euclidean_division_equations; lia.
Qed.

Lemma rounded_cost f : size_of f mod 1024 <> 0 -> cost (size_of (rounded f)) = cost (size_of f).
Proof.
  intros Hm. rewrite rounded_size. pose proof (size_nonneg f). unfold cost.
  assert (nblocks ((size_of f / 1024 + 1) * 1024) = nblocks (size_of f)) as -> by (unfold nblocks, BSIZE; Z.to_euclidean_division_equations; lia). done.
Qed.

Lemma minv_rounded s s' f rest blk : minv s (f :: rest) -> size_of f mod 1024 <> 0 -> size_of f < MAXFILE * BSIZE ->
  s' = s <| m_img ::= <[32 := blk]> |> -> length blk = 1024%nat -> itable (m_img s') (slots (rounded f :: rest)) -> minv s' (rounded f :: rest).
Proof.
  intros [Hsb Hi Hb L T Hs Ht] Hm Hmax -> Hl T'. split; cbn [m_sb m_img m_freeinode m_freeblock set].
  - done.
  - done.
  - rewrite Hb. cbn [blocks_taken foldr]. by rewrite rounded_cost.
  - apply laid_out_meta; [by rewrite nmeta_value|done|]. by apply rounded_ok.
  - done.
  - by rewrite lookup_insert_ne.
  - intros g [->|Hg]%elem_of_cons; [apply (Ht f); by left|]. apply Ht. by right.
Qed.

(** ** The bitmap *)

Lemma set_bit_byte c k j : 0 <= c < 256 -> 0 <= k < 8 -> 0 <= j < 8 ->
  Z.testbit (u8 (Z.lor c (Z.shiftl 1 k))) j = Z.testbit c j || (j =? k).
Proof.
  intros Hc Hk Hj. unfold u8. rewrite Z.mod_pow2_bits_low by lia. rewrite Z.lor_spec, Z.shiftl_1_l, Z.pow2_bits_eqb by lia. by rewrite Z.eqb_sym.
Qed.

Lemma bitmap_bits n : Z.of_nat n <= 8192 ->
  let d := foldl set_bit (replicate 1024 0) (seqZ 0 (Z.of_nat n)) in
  length d = 1024%nat /\ forall i c, d !! i = Some c -> 0 <= c < 256 /\ forall j, 0 <= j < 8 -> Z.testbit c j = (8 * Z.of_nat i + j <? Z.of_nat n).
Proof.
  induction n as [|n IH]; intros Hn.
  - split; [done|]. intros i c Hi. change (seqZ 0 (Z.of_nat 0)) with (@nil Z) in Hi. cbn [foldl] in Hi. apply lookup_replicate in Hi as [-> _].
    split; [lia|]. intros j Hj. rewrite Z.testbit_0_l. symmetry. apply Z.ltb_ge. lia.
  - replace (Z.of_nat (S n)) with (Z.of_nat n + 1) by lia. rewrite seqZ_app by lia. rewrite foldl_app. destruct IH as [Hl Hbits]; [lia|].
    set (d := foldl set_bit (replicate 1024 0) (seqZ 0 (Z.of_nat n))) in *.
    replace (seqZ (0 + Z.of_nat n) 1) with [Z.of_nat n] by (rewrite (seqZ_cons _ 1) by lia; done). cbn [foldl]. unfold set_bit.
    split; [by rewrite length_alter|]. intros i c Hi. pose proof (Z.div_mod (Z.of_nat n) 8). pose proof (Z.mod_pos_bound (Z.of_nat n) 8).
    destruct (decide (i = Z.to_nat (Z.of_nat n / 8))) as [Ei|Hne].
    + rewrite Ei, list_lookup_alter_eq in Hi. apply fmap_Some in Hi as (c0 & Hc0 & ->). rewrite <- Ei in Hc0. apply Hbits in Hc0 as [Hr Hb].
      split; [unfold u8; apply Z.mod_pos_bound; lia|]. intros j Hj. rewrite set_bit_byte, Hb by lia.
      destruct (Z.ltb_spec (8 * Z.of_nat i + j) (Z.of_nat n)), (Z.ltb_spec (8 * Z.of_nat i + j) (Z.of_nat n + 1)), (Z.eqb_spec j (Z.of_nat n mod 8)); simpl; lia.
    + rewrite list_lookup_alter_ne in Hi by done. apply Hbits in Hi as [Hr Hb]. split; [done|]. intros j Hj. rewrite Hb by done.
      destruct (Z.ltb_spec (8 * Z.of_nat i + j) (Z.of_nat n)), (Z.ltb_spec (8 * Z.of_nat i + j) (Z.of_nat n + 1)); lia.
Qed.

(** ** The image *)

Definition marked (d : list Z) (b : Z) : bool := negb (Z.land (load 1 (Z.to_nat (b / 8)) d) (Z.shiftl 1 (b mod 8)) =? 0).

(** An inode in the table, sound for the kernel. *)
Record inode_at (D : gmap Z (list Z)) (inum : Z) (nd : inode) : Prop := {
  ia_inum : i_inum nd = inum;
  ia_dinode : dinode_ok nd /\ i_nlink nd = 1;
  ia_block : exists d, D !! IBLOCK inum the_sb = Some (with_dinode nd d) /\ length d = Z.to_nat BSIZE;
  ia_file : file_ok D nd;
  ia_apart s : k_sb s = the_sb -> file_apart s nd D
}.

(** The image of the files [files], with the inodes [nodes]: the root directory first. *)
Record image_of (D : gmap Z (list Z)) (files : list (list Z * option (list (list Z)))) (nodes : list inode) : Prop := {
  im_super : exists d, D !! 1 = Some d /\ (fun k => load 4 (4 * k) d) <$> seq 0 8 =
    [FSMAGIC; FSSIZE; FSSIZE - nmeta; NINODES; nlog; sb_logstart the_sb; sb_inodestart the_sb; sb_bmapstart the_sb];
  im_inodes k nd : nodes !! k = Some nd -> inode_at D (Z.of_nat (S k)) nd;
  im_root : exists nd k, head nodes = Some nd /\ i_type nd = T_DIR /\
    dir_is D nd (entry_of 1 (bytes_of ".") :: entry_of 1 (bytes_of "..") :: entries 2 files ++ replicate k (0, replicate 14 0));
  im_files : Forall2 (fun f nd => i_type nd = T_FILE /\ i_size nd = Z.of_nat (length (content f)) /\ fbytes D nd 0 (content f)) files (tail nodes);
  im_apart i j nd nd' k k' : nodes !! i = Some nd -> nodes !! j = Some nd' -> i <> j ->
    0 <= k < nblocks (i_size nd) -> 0 <= k' < nblocks (i_size nd') -> block_at D nd k <> block_at D nd' k';
  im_bitmap : exists d free, D !! sb_bmapstart the_sb = Some d /\ (forall b, 0 <= b < FSSIZE -> marked d b = (b <? free)) /\
    forall i nd k, nodes !! i = Some nd -> 0 <= k < nblocks (i_size nd) -> nmeta <= block_at D nd k < free
}.

Lemma marked_testbit d b c : 0 <= b -> d !! Z.to_nat (b / 8) = Some c -> marked d b = Z.testbit c (b mod 8).
Proof.
  intros Hb Hc. pose proof (Z.mod_pos_bound b 8). unfold marked, load, slice. rewrite (drop_S _ _ _ Hc). cbn [take le_value]. rewrite Z.mul_0_r, Z.add_0_r, Z.shiftl_1_l.
  destruct (Z.testbit c (b mod 8)) eqn:E.
  - destruct (Z.eqb_spec (Z.land c (2 ^ (b mod 8))) 0) as [E0|]; [|done]. apply (f_equal (fun z => Z.testbit z (b mod 8))) in E0.
    rewrite Z.land_spec, E, Z.pow2_bits_true, Z.testbit_0_l in E0 by lia. done.
  - destruct (Z.eqb_spec (Z.land c (2 ^ (b mod 8))) 0) as [|En]; [done|]. exfalso. apply En. apply Z.bits_inj_0. intros j.
    rewrite Z.land_spec. destruct (Z.eq_dec j (b mod 8)) as [->|]; [by rewrite E|]. rewrite Z.pow2_bits_false by lia. apply andb_false_r.
Qed.

Lemma bitmap_marked n b : 0 <= n <= 8192 -> 0 <= b < 8192 -> marked (foldl set_bit (replicate 1024 0) (seqZ 0 n)) b = (b <? n).
Proof.
  intros Hn Hb. destruct (bitmap_bits (Z.to_nat n) ltac:(lia)) as [Hl Hbits]. rewrite Z2Nat.id in * by lia.
  pose proof (Z.div_mod b 8). pose proof (Z.mod_pos_bound b 8).
  destruct (lookup_lt_is_Some_2 (foldl set_bit (replicate 1024 0) (seqZ 0 n)) (Z.to_nat (b / 8))) as [c Hc]; [lia|].
  rewrite (marked_testbit _ _ c) by (done || lia). apply Hbits in Hc as [_ Hc]. rewrite Hc by lia. f_equal. lia.
Qed.

(** The directory on the image, entry by entry. *)
Lemma dir_view D fb fs f n ents : laid_out D fb fs -> f ∈ fs -> f_data f = dir_bytes ents ->
  Forall (fun e => length e.2 = 14%nat /\ 0 <= e.1 < 2 ^ 16) ents -> dir_is D (inode_of n f) ents.
Proof.
  intros L Hf Hd He. assert (Forall (fun x => length x = 16%nat) (entry_bytes <$> ents)) as H16.
  { apply Forall_fmap. eapply Forall_impl; [exact He|]. intros e [Hl _]. by apply entry_length. }
  split.
  - cbn [inode_of i_size]. unfold size_of. rewrite Hd. unfold dir_bytes. rewrite (pieces_length 16), length_fmap by done. unfold DIRENT_SIZE. lia.
  - intros k e Hk. rewrite Forall_forall in He. destruct (He e) as [Hl Hr]; [by eapply list_elem_of_lookup_2|]. split; [|done].
    intros i c Hi. unfold DIRENT_SIZE. replace (16 * Z.of_nat k + Z.of_nat i) with (0 + Z.of_nat (16 * k + i)) by lia. apply (view_bytes D fb fs L f Hf n).
    rewrite Hd. unfold dir_bytes. rewrite <- (take_drop_middle ents k e Hk), fmap_app, fmap_cons, concat_app. cbn [concat].
    assert (length (concat (entry_bytes <$> take k ents)) = 16 * k)%nat as Hp.
    { rewrite (pieces_length 16), length_fmap, length_take by (rewrite fmap_take; by apply Forall_take). apply lookup_lt_Some in Hk. lia. }
    rewrite lookup_app_r by lia. rewrite Hp, lookup_app_l by (apply lookup_lt_Some in Hi; unfold entry_bytes; lia). rewrite <- Hi. f_equal. lia.
Qed.

Lemma dir_pad ents k : Forall (fun e => length e.2 = 14%nat) ents ->
  pad (16 * (length ents + k)) (dir_bytes ents) = dir_bytes (ents ++ replicate k (0, replicate 14 0)).
Proof.
  intros He. unfold pad, dir_bytes. rewrite fmap_app, concat_app, fmap_replicate. f_equal. rewrite (pieces_length 16), length_fmap.
  - replace (16 * (length ents + k) - 16 * length ents)%nat with (16 * k)%nat by lia. induction k as [|k IH]; [done|].
    replace (16 * S k)%nat with (16 + 16 * k)%nat by lia. rewrite replicate_add. cbn [replicate concat]. by rewrite IH.
  - apply Forall_fmap. eapply Forall_impl; [exact He|]. intros e. apply entry_length.
Qed.

Lemma entries_ok files : forall n, 0 <= n -> n + Z.of_nat (length files) <= 2 ^ 16 ->
  Forall (fun e => length e.2 = 14%nat /\ 0 <= e.1 < 2 ^ 16) (entries n files) /\ length (entries n files) = length files.
Proof.
  induction files as [|f files IH]; intros n H0 Hn; cbn [entries length] in *; [by split|]. destruct (IH (n + 1)) as [H1 H2]; [lia|lia|].
  split; [|by rewrite H2]. constructor; [|done]. split; [apply length_strncpy_image|]. cbn [entry_of fst]. lia.
Qed.

Definition nodes_of (fs : list mfile) : list inode := imap (fun i f => inode_of (Z.of_nat (S i)) f) fs.

Lemma lookup_nodes fs i nd : nodes_of fs !! i = Some nd -> exists f, fs !! i = Some f /\ nd = inode_of (Z.of_nat (S i)) f.
Proof. unfold nodes_of. rewrite list_lookup_imap. intros (f & ? & ->)%fmap_Some. eauto. Qed.

Section final.
Context (s : mkst) (fs : list mfile) (Hinv : minv s fs) (Hlen : (length fs < 207)%nat).
Abbreviation D := (<[45 := foldl set_bit (replicate 1024 0) (seqZ 0 (m_freeblock s))]> (m_img s)).

Lemma final_laid : laid_out D (m_freeblock s) fs.
Proof.
  pose proof (mi_laid _ _ Hinv) as L. pose proof (lo_fb _ _ _ L) as Hfb. rewrite nmeta_value in Hfb. unfold FSSIZE in Hfb.
  apply laid_out_meta; [by rewrite nmeta_value| |done]. destruct (bitmap_bits (Z.to_nat (m_freeblock s)) ltac:(lia)) as [Hl _]. by rewrite Z2Nat.id in Hl by lia.
Qed.

Lemma final_inode i nd : nodes_of fs !! i = Some nd -> inode_at D (Z.of_nat (S i)) nd.
Proof.
  intros (f & Hf & ->)%lookup_nodes. apply list_elem_of_lookup_2 in Hf as Hin. apply lookup_lt_Some in Hf as Hlt. pose proof final_laid as L. split.
  - done.
  - split; [|done]. eapply inode_of_ok; [exact L|done|by apply (mi_type _ _ Hinv)].
  - destruct (inode_written _ _ _ _ Hinv Hf ltac:(lia)) as (d & Hd & Hl). destruct (inode_block_at (S i) ltac:(lia)) as (Eb & _ & Hb). rewrite nmeta_value in Hb.
    exists d. split; [|done]. assert (IBLOCK (Z.of_nat (S i)) the_sb = 32 + Z.of_nat (S i / 16)) as ->.
    { unfold IBLOCK. change (sb_inodestart the_sb) with 32. rewrite Nat2Z.inj_div. change IPB with 16. change (Z.of_nat 16) with 16. lia. }
    rewrite lookup_insert_ne; [done|]. assert (S i / 16 < 13)%nat by (apply Nat.Div0.div_lt_upper_bound; lia). lia.
  - by eapply view_file_ok.
  - intros s0 Hs0. eapply view_apart; [exact L|done|done|lia].
Qed.

Lemma final_apart i j nd nd' k k' : nodes_of fs !! i = Some nd -> nodes_of fs !! j = Some nd' -> i <> j ->
  0 <= k < nblocks (i_size nd) -> 0 <= k' < nblocks (i_size nd') -> block_at D nd k <> block_at D nd' k'.
Proof.
  intros (f & Hf & ->)%lookup_nodes (f' & Hf' & ->)%lookup_nodes Hij Hk Hk'. cbn [inode_of i_size] in *. pose proof final_laid as L.
  destruct (view_at _ _ _ L f (list_elem_of_lookup_2 _ _ _ Hf) (Z.of_nat (S i)) k Hk) as (b & _ & -> & Hb%used_blocks).
  destruct (view_at _ _ _ L f' (list_elem_of_lookup_2 _ _ _ Hf') (Z.of_nat (S j)) k' Hk') as (b' & _ & -> & Hb'%used_blocks). intros <-.
  pose proof (lo_nodup _ _ _ L) as Hnd. destruct (decide (i < j)%nat).
  - rewrite <- (take_drop_middle _ _ _ Hf), bind_app, bind_cons in Hnd. apply NoDup_app in Hnd as (_ & _ & Hnd). apply NoDup_app in Hnd as (_ & Hdis & _).
    apply (Hdis b Hb), list_elem_of_bind. exists f'. split; [done|]. apply (list_elem_of_lookup_2 _ (j - S i)). rewrite lookup_drop, <- Hf'. f_equal. lia.
  - rewrite <- (take_drop_middle _ _ _ Hf'), bind_app, bind_cons in Hnd. apply NoDup_app in Hnd as (_ & _ & Hnd). apply NoDup_app in Hnd as (_ & Hdis & _).
    apply (Hdis b Hb'), list_elem_of_bind. exists f. split; [done|]. apply (list_elem_of_lookup_2 _ (i - S j)). rewrite lookup_drop, <- Hf. f_equal. lia.
Qed.

Lemma final_bitmap : exists d free, D !! sb_bmapstart the_sb = Some d /\ (forall b, 0 <= b < FSSIZE -> marked d b = (b <? free)) /\
  forall i nd k, nodes_of fs !! i = Some nd -> 0 <= k < nblocks (i_size nd) -> nmeta <= block_at D nd k < free.
Proof.
  pose proof final_laid as L. pose proof (lo_fb _ _ _ L) as Hfb. rewrite nmeta_value in Hfb. unfold FSSIZE in Hfb.
  eexists _, (m_freeblock s). split_and!; [apply lookup_insert_eq|intros b Hb; unfold FSSIZE in Hb; apply bitmap_marked; lia|].
  intros i nd k (f & Hf & ->)%lookup_nodes Hk. apply list_elem_of_lookup_2 in Hf. cbn [inode_of i_size] in Hk.
  destruct (view_at _ _ _ L f Hf (Z.of_nat (S i)) k Hk) as (b & _ & -> & Hb%used_blocks). eapply used_range; [exact L|exact Hf|exact Hb].
Qed.

Lemma final_super : exists d, D !! 1 = Some d /\ (fun k => load 4 (4 * k) d) <$> seq 0 8 =
  [FSMAGIC; FSSIZE; FSSIZE - nmeta; NINODES; nlog; sb_logstart the_sb; sb_inodestart the_sb; sb_bmapstart the_sb].
Proof. eexists. split; [rewrite lookup_insert_ne by done; apply (mi_super _ _ Hinv)|]. by vm_compute. Qed.
End final.

(** The files of the image are those of the command line. *)
Lemma final_files s fs root (new : list mfile) files : minv s fs -> (length fs < 207)%nat -> fs = root :: new ->
  f_data <$> new = content <$> files -> Forall (fun f => f_type f = T_FILE) new ->
  let D := <[45 := foldl set_bit (replicate 1024 0) (seqZ 0 (m_freeblock s))]> (m_img s) in
  Forall2 (fun f nd => i_type nd = T_FILE /\ i_size nd = Z.of_nat (length (content f)) /\ fbytes D nd 0 (content f)) files (tail (nodes_of fs)).
Proof.
  intros Hinv Hlen E Hd Ht D. assert (length files = length new) as Hl by (apply (f_equal length) in Hd; rewrite !length_fmap in Hd; done).
  apply Forall2_same_length_lookup. unfold nodes_of. rewrite E. cbn [imap tail]. rewrite length_imap. split; [done|]. intros k f nd Hf Hnd.
  rewrite list_lookup_imap in Hnd. apply fmap_Some in Hnd as (g & Hg & ->). rewrite Forall_forall in Ht. cbn [compose].
  assert (f_data g = content f) as <-.
  { apply (f_equal (fun l => l !! k)) in Hd. rewrite !list_lookup_fmap, Hf, Hg in Hd. simpl in Hd. congruence. }
  split_and!; [apply Ht; by eapply list_elem_of_lookup_2|done|]. eapply view_bytes; [by eapply final_laid|]. rewrite E. right. by eapply list_elem_of_lookup_2.
Qed.

(** The end of [main]: the root directory's size is rounded up and the bitmap is written. *)
Definition root_entries (files : list (list Z * option (list (list Z)))) : list (Z * list Z) :=
  entry_of 1 (bytes_of ".") :: entry_of 1 (bytes_of "..") :: entries 2 files.

Lemma mwp_finish s root new files :
  minv s (root :: new) -> f_type root = T_DIR -> f_data root = dir_bytes (root_entries files) -> f_data <$> new = content <$> files ->
  Forall (fun f => f_type f = T_FILE) new -> (2 + Z.of_nat (length files)) mod 64 <> 0 -> 1 + Z.of_nat (length files) < NINODES ->
  mwp (din ← rinode 1; winode 1 (din <| d_size := xint (u32 ((xint (d_size din) / BSIZE + 1) * BSIZE)) |>);; fb ← mget m_freeblock; balloc fb)
    (fun _ s => exists nodes, image_of (m_img s) files nodes) s.
Proof.
  intros Hinv Ht Hd Hdn Htn Hmod Hn. unfold NINODES in Hn. destruct (entries_ok files 2 ltac:(lia) ltac:(lia)) as [Hents Hle].
  assert (Forall (fun e => length e.2 = 14%nat /\ 0 <= e.1 < 2 ^ 16) (root_entries files)) as Hre.
  { unfold root_entries. repeat constructor; done. }
  assert (Forall (fun e => length e.2 = 14%nat) (root_entries files)) as Hre' by (eapply Forall_impl; [exact Hre|]; by intros ? [? _]).
  assert (size_of root = 16 * (2 + Z.of_nat (length files))) as Es.
  { unfold size_of. rewrite Hd. unfold dir_bytes. rewrite (pieces_length 16), length_fmap; [unfold root_entries; cbn [length]; lia|].
    apply Forall_fmap. eapply Forall_impl; [exact Hre'|]. intros e. apply entry_length. }
  assert (length new = length files) as Hl by (apply (f_equal length) in Hdn; rewrite !length_fmap in Hdn; done).
  assert (size_of root mod 1024 <> 0 /\ size_of root < MAXFILE * BSIZE) as [Hm Hmax].
  { change (MAXFILE * BSIZE) with 274432. rewrite Es. Z.to_euclidean_division_equations. lia. }
  mstep. change 1 with (Z.of_nat 1) at 1. eapply mwp_rinode; [exact Hinv|done|lia|]. mstep. change 1 with (Z.of_nat 1) at 1.
  change (d_size (din_of root)) with (size_of root). rewrite (xint_id (size_of root)) by (rewrite Es; lia).
  pose proof (rounded_size root) as Er. rewrite u32_small, xint_id by (change BSIZE with 1024; Z.to_euclidean_division_equations; lia).
  change ((size_of root / BSIZE + 1) * BSIZE) with ((size_of root / 1024 + 1) * 1024). rewrite <- Er.
  change ((din_of root) <| d_size := size_of (rounded root) |>) with (din_of (rounded root)).
  destruct (slots_insert (root :: new) 0 root (rounded root) eq_refl) as [S1 S2].
  eapply (mwp_winode _ (slots (root :: new))); [apply (mi_sb _ _ Hinv)|apply (mi_table _ _ Hinv)|apply slots_length|lia|apply addrs_length|exact S1|exact S2|].
  intros blk Hbl T. change (32 + Z.of_nat (1 / 16)) with 32 in *. change (<[0%nat := rounded root]> (root :: new)) with (rounded root :: new) in T. mstep.
  pose proof (minv_rounded _ _ _ _ _ Hinv Hm Hmax eq_refl Hbl T) as Hinv'. pose proof (lo_fb _ _ _ (mi_laid _ _ Hinv')) as Hfb.
  match goal with |- mwp _ _ ?z => set (s' := z) in * end. unfold FSSIZE in Hfb. rewrite nmeta_value in Hfb. unfold balloc. mstep.
  apply mwp_assert; [apply Z.ltb_lt; change (BSIZE * 8) with 8192; lia|]. mstep. rewrite (mi_sb _ _ Hinv'). apply mwp_wsect; [done|].
  exists (nodes_of (rounded root :: new)). change (Z.to_nat BSIZE) with 1024%nat. cbn [m_img set]. change (sb_bmapstart the_sb) with 45.
  assert (length (rounded root :: new) < 207)%nat as Hlen by (cbn [length]; lia).
  split; [by eapply final_super|by intros; eapply final_inode| |by eapply final_files|by intros; eapply final_apart|by eapply final_bitmap].
  set (k := Z.to_nat ((size_of root / 1024 + 1) * 64 - (2 + Z.of_nat (length files)))).
  exists (inode_of 1 (rounded root)), k. split_and!; [done|done|].
  change (dir_is ?V ?nd (?a :: ?b :: ?c ++ ?d)) with (dir_is V nd (root_entries files ++ d)).
  eapply dir_view; [by eapply final_laid|by left| |].
  - rewrite <- dir_pad by done. unfold rounded. cbn [f_data set]. rewrite Hd. f_equal. unfold k, root_entries. cbn [length]. change BSIZE with 1024. rewrite Es, Hle.
    Z.to_euclidean_division_equations. lia.
  - apply Forall_app. split; [done|]. apply Forall_replicate. done.
Qed.

(** C6. The image [mkfs] writes is a sound file system that holds the files of its command line. Given files that can be opened, have no slash in their names and fit, fewer of them than there are inodes and enough blocks for all, and a root directory that does not exactly fill its blocks, [mkfs] runs to its end: no assertion fails and no read fails. On the image the super block has the geometry the kernel expects; inode 1 is the root directory, whose entries are dot, dot-dot, and the given names with consecutive inode numbers; inode [k + 2] is a plain file with exactly the bytes of file [k]; every inode meets the conditions under which the kernel's file system theorems hold; no two files share a block; and the bitmap marks exactly the blocks below one number, with all blocks of all files below it. *)
Theorem mkfs_image files :
  Forall good_file files -> (2 + Z.of_nat (length files)) mod 64 <> 0 -> 1 + Z.of_nat (length files) < NINODES ->
  nmeta + cost (16 * (2 + Z.of_nat (length files))) + room files <= FSSIZE ->
  mwp (mkfs_main files) (fun _ s => exists nodes, image_of (m_img s) files nodes) mkfs_start.
Proof.
  intros Hgood Hmod Hn Hroom. unfold NINODES in Hn. rewrite nmeta_value in Hroom. pose proof (room_nonneg files) as Hr0.
  unfold mkfs_main. mstep. apply mwp_zero; [apply Forall_forall; intros b Hb; by apply elem_of_seqZ in Hb|]. intros s1 E1 E2 E3 Hz. mstep.
  apply mwp_wsect; [done|]. mstep. eapply (mwp_ialloc _ []); [|simpl; lia|done|].
  { apply minv_start; cbn [m_sb m_freeinode m_freeblock m_img set]; [done|done|done|]. intros b Hb. destruct (decide (b = 1)) as [->|Hne].
    - rewrite lookup_insert_eq, E1. by vm_compute.
    - rewrite lookup_insert_ne, Hz by done. rewrite decide_True; [done|]. by apply elem_of_seqZ. }
  intros s2 Hinv2 _. clear s1 E1 E2 E3 Hz. mstep. apply mwp_assert; [done|]. cbn [length app] in *. rewrite !dirent_entry by done.
  set (root := mkmf T_DIR [] [] 0) in *. pose proof (mi_block _ _ Hinv2) as Hb2. rewrite nmeta_value in Hb2. change (blocks_taken [root]) with 0 in Hb2.
  mstep. eapply (mwp_iappend s2 _ 0 root); [done|done|lia|by vm_compute|rewrite Hb2; by vm_compute|]. intros s3 root3 Ht3 Hd3 Hinv3. mstep.
  assert (size_of root3 = 16) as Es3 by (unfold size_of; rewrite Hd3; done). change (<[0%nat := root3]> [root]) with [root3] in Hinv3.
  pose proof (mi_block _ _ Hinv3) as Hb3. cbn [blocks_taken foldr] in Hb3. rewrite Es3, nmeta_value in Hb3. change (46 + (cost 16 + 0)) with 47 in Hb3.
  eapply (mwp_iappend s3 _ 0 root3); [done|done|lia|rewrite Es3; by vm_compute|rewrite Es3, Hb3; by vm_compute|]. intros s4 root4 Ht4 Hd4 Hinv4. mstep.
  assert (size_of root4 = 32) as Es4 by (unfold size_of; rewrite Hd4, Hd3; done). change (<[0%nat := root4]> [root3]) with [root4] in Hinv4.
  pose proof (mi_block _ _ Hinv4) as Hb4. cbn [blocks_taken foldr] in Hb4. rewrite Es4, nmeta_value in Hb4. change (46 + (cost 32 + 0)) with 47 in Hb4.
  assert (16 * (2 + Z.of_nat (length files)) = size_of root4 + 16 * Z.of_nat (length files)) as Er by lia. rewrite Er in Hroom.
  eapply (mwp_files files s4 root4 []); [done|done|simpl; lia|change (MAXFILE * BSIZE) with 274432; lia|rewrite Hb4, Es4 in *; change (cost 32) with 1; lia|].
  intros s5 root5 new Ht5 Hd5 Hdn Htn Hinv5. eapply (mwp_finish s5 root5 new); [done|by rewrite Ht5, Ht4, Ht3| |done|done|done|done].
  rewrite Hd5, Hd4, Hd3. unfold dir_bytes, root_entries. rewrite !fmap_cons. cbn [concat]. by rewrite <- !app_assoc.
Qed.

Lemma mkfs_image_witness : mwp (mkfs_main [(bytes_of "user/_cat", Some [[127; 69; 76]; [70]]); (bytes_of "README", Some [[120; 118; 54]])])
  (fun _ s => exists nodes, image_of (m_img s) [(bytes_of "user/_cat", Some [[127; 69; 76]; [70]]); (bytes_of "README", Some [[120; 118; 54]])] nodes) mkfs_start.
Proof.
  apply mkfs_image.
  - repeat constructor; try (by eexists); try done; (apply (bool_decide_unpack _); by vm_compute).
  - by vm_compute.
  - by vm_compute.
  - by vm_compute.
Defined.
