(* ===== verification/File.v ===== *)
(** Open files ([kernel/file.c]) and pipes ([kernel/pipe.c]).

    A file pointer is its index in [ftable.file].  The page [kalloc] gives for a pipe is seen as a
    [struct pipe] from [pipealloc] to the [kfree] of [pipeclose]: its fields are the entry of the
    page's address in [k_pipes]. *)
From S2P Require Import Prelude Types Kstate Cstring Spinlock Frame Printf Accounting Kalloc Vm Proc Console Bio Log Fs.
From stdpp Require Import base numbers list gmap strings.
From Stdlib Require Import ZArith Lia.

Local Open Scope Z_scope.
Local Open Scope xv6_scope.

(** The kernel's address of a place, where the code uses it as a number. *)
Definition place_addr (pl : place) : K Z :=
  match pl with User va => mret va | Phys pa => mret pa | Local _ => fault end.

Section file.
Context `{Env}.

Definition fileinit : K unit := initlock LFtable.

Definition filealloc : K (option nat) :=
  acquire LFtable;;
  r ← kfind (seq 0 NFILE) (fun i =>
    f ← get_file i;
    if f_ref f =? 0 then
      upd_file i (set f_ref (fun _ => 1));;
      release LFtable;;
      mret (Some i)
    else mret None);
  match r with
  | Some i => mret (Some i)
  | None => release LFtable;; mret None
  end.

Definition filedup (f : nat) : K nat :=
  acquire LFtable;;
  x ← get_file f;
  (if f_ref x <? 1 then panic "filedup" else mret tt);;
  upd_file f (set f_ref (fun n => i32 (n + 1)));;
  release LFtable;;
  mret f.

Definition pipeclose (pi : Z) (writable : Z) : K unit :=
  acquire (LPipe pi);;
  (if negb (writable =? 0) then
     upd_pipe pi (set pi_writeopen (fun _ => 0));;
     wakeup (CPipeRead pi)
   else
     upd_pipe pi (set pi_readopen (fun _ => 0));;
     wakeup (CPipeWrite pi));;
  p ← get_pipe pi;
  if (pi_readopen p =? 0) && (pi_writeopen p =? 0) then
    release (LPipe pi);;
    modify (set k_pipes (delete pi));;
    kfree pi
  else release (LPipe pi).

Definition fileclose (f : nat) : K unit :=
  acquire LFtable;;
  x ← get_file f;
  (if f_ref x <? 1 then panic "fileclose" else mret tt);;
  upd_file f (set f_ref (fun n => n - 1));;
  ff ← get_file f;
  if 0 <? f_ref ff then release LFtable
  else
    upd_file f (fun x => x <| f_ref := 0 |> <| f_type := FD_NONE |>);;
    release LFtable;;
    match f_type ff with
    | FD_PIPE => pipeclose (f_pipe ff) (f_writable ff)
    | FD_INODE | FD_DEVICE =>
      begin_op;;
      ip ← deref (f_ip ff);
      iput ip;;
      end_op
    | FD_NONE => mret tt
    end.

(** The two files, or what the error path left. *)
Definition pipealloc : K (Z * option nat * option nat) :=
  f0 ← filealloc;
  f1 ← (if bool_decide (f0 = None) then mret None else filealloc);
  pi ← (if bool_decide (f0 = None \/ f1 = None) then mret 0 else kalloc);
  match f0, f1 with
  | Some a, Some b =>
    if pi =? 0 then
      fileclose a;; fileclose b;;
      mret (-1, f0, f1)
    else
      page ← get_page pi;
      modify (set k_pipes <[pi := mkpipe (slice 24 (Z.to_nat PIPESIZE) page) 0 0 1 1]>);;
      initlock (LPipe pi);;
      upd_file a (fun f => f <| f_type := FD_PIPE |> <| f_readable := 1 |> <| f_writable := 0 |> <| f_pipe := pi |>);;
      upd_file b (fun f => f <| f_type := FD_PIPE |> <| f_readable := 0 |> <| f_writable := 1 |> <| f_pipe := pi |>);;
      mret (0, f0, f1)
  | _, _ =>
    (match f0 with Some a => fileclose a | None => mret tt end);;
    (match f1 with Some b => fileclose b | None => mret tt end);;
    mret (-1, f0, f1)
  end.

(** [pi->data[i % PIPESIZE]] and its assignment. *)
Definition pipe_get (pi i : Z) : K Z := p ← get_pipe pi; deref (pi_data p !! Z.to_nat (i mod PIPESIZE)).
Definition pipe_put (pi i ch : Z) : K unit :=
  p ← get_pipe pi;
  if bool_decide (Z.to_nat (i mod PIPESIZE) < length (pi_data p))%nat
  then upd_pipe pi (set pi_data <[Z.to_nat (i mod PIPESIZE) := ch]>) else fault.

Definition pipewrite (pi addr n : Z) : K Z :=
  pr ← curproc;
  acquire (LPipe pi);;
  r ← kfind (seqZ 0 n) (fun i =>
    w ← kloop (S env_patience) (fun _ : unit =>
      p ← get_pipe pi;
      if pi_nwrite p =? u32 (pi_nread p + PIPESIZE) then
        me ← curproc; q ← get_proc me;
        if (pi_readopen p =? 0) || negb (p_killed q =? 0) then
          release (LPipe pi);; mret (inr (-1))
        else
          wakeup (CPipeRead pi);;
          sleep (CPipeWrite pi) (LPipe pi);;
          mret (inl tt)
      else mret (inr 0)) tt;
    if w =? -1 then mret (Some (-1))
    else
      q ← get_proc pr;
      x ← copyin (p_pagetable q) (u64 (addr + i)) 1;
      if x.1 =? -1 then mret (Some 0)
      else
        ch ← deref (x.2 !! 0%nat);
        p ← get_pipe pi;
        pipe_put pi (pi_nwrite p) ch;;
        upd_pipe pi (set pi_nwrite (fun k => u32 (k + 1)));;
        mret None);
  if bool_decide (r = Some (-1)) then mret (-1)
  else
    wakeup (CPipeRead pi);;
    release (LPipe pi);;
    mret n.

Definition piperead (pi addr n : Z) : K Z :=
  pr ← curproc;
  acquire (LPipe pi);;
  w ← kloop (S env_patience) (fun _ : unit =>
    p ← get_pipe pi;
    if (pi_nread p =? pi_nwrite p) && negb (pi_writeopen p =? 0) then
      me ← curproc; q ← get_proc me;
      if negb (p_killed q =? 0) then release (LPipe pi);; mret (inr (-1))
      else sleep (CPipeRead pi) (LPipe pi);; mret (inl tt)
    else mret (inr 0)) tt;
  if w =? -1 then mret (-1)
  else
    r ← kfind (seqZ 0 n) (fun i =>
      p ← get_pipe pi;
      if pi_nread p =? pi_nwrite p then mret (Some i)
      else
        ch ← pipe_get pi (pi_nread p);
        upd_pipe pi (set pi_nread (fun k => u32 (k + 1)));;
        q ← get_proc pr;
        x ← copyout (p_pagetable q) (u64 (addr + i)) [ch] 1;
        if x =? -1 then mret (Some i) else mret None);
    wakeup (CPipeWrite pi);;
    release (LPipe pi);;
    mret (default (Z.max 0 n) r).

(** The bytes of [struct stat]; [pad] are the four bytes between [nlink] and [size], which nobody
    sets. *)
Definition stat_bytes (st : stat) (pad : list Z) : list Z :=
  le_bytes 4 (st_dev st) ++ le_bytes 4 (st_ino st) ++ le_bytes 2 (st_type st) ++ le_bytes 2 (st_nlink st) ++
  take 4 pad ++ le_bytes 8 (st_size st).

Definition filestat (f : nat) (addr : Z) (pad : list Z) : K Z :=
  pr ← curproc;
  x ← get_file f;
  match f_type x with
  | FD_INODE | FD_DEVICE =>
    ilock (f_ip x);;
    ip ← deref (f_ip x);
    st ← stati ip;
    iunlock (f_ip x);;
    p ← get_proc pr;
    r ← copyout (p_pagetable p) addr (stat_bytes st pad) 24;
    mret (if r <? 0 then -1 else 0)
  | _ => mret (-1)
  end.

Definition fileread (f : nat) (addr n : Z) : K Z :=
  x ← get_file f;
  if f_readable x =? 0 then mret (-1)
  else
    match f_type x with
    | FD_PIPE => piperead (f_pipe x) addr n
    | FD_DEVICE =>
      d ← gets (fun s => k_devsw s !! Z.to_nat (f_major x));
      if (f_major x <? 0) || (NDEV <=? f_major x) || negb (bool_decide (d = Some true)) then mret (-1)
      else cread (f_major x) (User addr) n
    | FD_INODE =>
      ilock (f_ip x);;
      ip ← deref (f_ip x);
      x ← get_file f;
      r ← readi ip (User addr) (f_off x) (u32 n);
      when (0 <? r.1) (upd_file f (set f_off (fun o => u32 (o + r.1))));;
      iunlock (Some ip);;
      mret r.1
    | FD_NONE => panic "fileread"
    end.

(** The body the two write functions share; [src] is the first byte's place and [addr] its address as
    a number. *)
Definition filewrite_to (f : nat) (src : place) (addr : K Z) (n : Z) : K Z :=
  x ← get_file f;
  if f_writable x =? 0 then mret (-1)
  else
    match f_type x with
    | FD_PIPE => a ← addr; pipewrite (f_pipe x) a n
    | FD_DEVICE =>
      d ← gets (fun s => k_devsw s !! Z.to_nat (f_major x));
      if (f_major x <? 0) || (NDEV <=? f_major x) || negb (bool_decide (d = Some true)) then mret (-1)
      else cwrite (f_major x) src n
    | FD_INODE =>
      let max := ((MAXOPBLOCKS - 1 - 1 - 2) / 2) * BSIZE in
      i ← kloop (S (Z.to_nat n)) (fun i =>
        if i <? n then
          let n1 := if max <? n - i then max else n - i in
          begin_op;;
          ilock (f_ip x);;
          ip ← deref (f_ip x);
          x ← get_file f;
          r ← writei ip (place_add src i) (f_off x) n1;
          when (0 <? r) (upd_file f (set f_off (fun o => u32 (o + r))));;
          iunlock (Some ip);;
          end_op;;
          if r <? 0 then mret (inr i)
          else if negb (r =? n1) then panic "short filewrite"
          else mret (inl (i + r))
        else mret (inr i)) 0;
      mret (if i =? n then n else -1)
    | FD_NONE => panic "filewrite"
    end.

Definition filewrite (f : nat) (addr n : Z) : K Z := filewrite_to f (User addr) (mret addr) n.

(** [pipewrite] takes the kernel address for one of the user. *)
Definition filewritefromkernel (f : nat) (src : place) (n : Z) : K Z := filewrite_to f src (place_addr src) n.
End file.
