(* ===== verification/Pipe.v ===== *)
(** Pipes as queues: [pipewrite] and [piperead] of [kernel/pipe.c].

    [queue p] is the content of the ring buffer, oldest byte first; [nread] and [nwrite] count modulo
    2^32 and index modulo [PIPESIZE].  A write appends to the queue and a read takes from its
    front, into and out of the user memory of the current process. *)
From S2P Require Import Prelude Types Kstate Cstring Spinlock Frame Printf Accounting Kalloc Vm Pagetable Uvm Proc Bio Bcache Blocks Log Fs File.
From stdpp Require Import functions base numbers list gmap strings.
From Stdlib Require Import ZArith Lia.

Local Open Scope Z_scope.
Local Open Scope xv6_scope.

(** ** The ring buffer *)

(** The number of bytes in the buffer. *)
Definition count (p : pipe) : Z := u32 (pi_nwrite p - pi_nread p).

Record pipe_ok (p : pipe) : Prop := {
  pk_data : length (pi_data p) = Z.to_nat PIPESIZE;
  pk_nread : 0 <= pi_nread p < 2 ^ 32;
  pk_nwrite : 0 <= pi_nwrite p < 2 ^ 32;
  pk_count : count p <= PIPESIZE
}.

Definition slot_at (p : pipe) (j : nat) : Z :=
  pi_data p !!! Z.to_nat ((pi_nread p + Z.of_nat j) mod PIPESIZE).
Definition queue (p : pipe) : list Z := slot_at p <$> seq 0 (Z.to_nat (count p)).

Lemma length_queue p : length (queue p) = Z.to_nat (count p).
Proof. unfold queue. by rewrite length_fmap, length_seq. Qed.

Lemma count_range p : 0 <= count p < 2 ^ 32.
Proof. apply u32_range. Qed.

(** The index of the next byte to write follows the ones of the bytes in the buffer. *)
Lemma nwrite_index p : pipe_ok p -> pi_nwrite p mod PIPESIZE = (pi_nread p + count p) mod PIPESIZE.
Proof. intros [_ ? ? _]. unfold count, u32. consts. Z.to_euclidean_division_equations. lia. Qed.

Lemma full_iff p : pipe_ok p -> (pi_nwrite p =? u32 (pi_nread p + PIPESIZE)) = (count p =? PIPESIZE).
Proof.
  intros [_ ? ? _]. unfold count, u32. consts. apply eq_bool_prop_intro. rewrite !Is_true_true, !Z.eqb_eq.
  Z.to_euclidean_division_equations. lia.
Qed.

Lemma empty_iff p : pipe_ok p -> (pi_nread p =? pi_nwrite p) = (count p =? 0).
Proof.
  intros [_ ? ? _]. unfold count, u32. apply eq_bool_prop_intro. rewrite !Is_true_true, !Z.eqb_eq.
  Z.to_euclidean_division_equations. lia.
Qed.

(** Puts a byte in. *)
Definition push (ch : Z) (p : pipe) : pipe :=
  p <| pi_data ::= <[Z.to_nat (pi_nwrite p mod PIPESIZE) := ch]> |> <| pi_nwrite ::= fun k => u32 (k + 1) |>.
(** Takes a byte out. *)
Definition pop (p : pipe) : pipe := p <| pi_nread ::= fun k => u32 (k + 1) |>.

Lemma count_push ch p : pipe_ok p -> count p < PIPESIZE -> count (push ch p) = count p + 1.
Proof. intros [_ ? ? _]. unfold count, push, u32. simpl. consts. Z.to_euclidean_division_equations. lia. Qed.

Lemma count_pop p : pipe_ok p -> 0 < count p -> count (pop p) = count p - 1.
Proof. intros [_ ? ? _]. unfold count, pop, u32. simpl. Z.to_euclidean_division_equations. lia. Qed.

Lemma push_ok ch p : pipe_ok p -> count p < PIPESIZE -> pipe_ok (push ch p).
Proof.
  intros Hp Hc. pose proof (count_push ch p Hp Hc). destruct Hp. split; simpl; try done; [by rewrite length_insert|apply u32_range|lia].
Qed.

Lemma pop_ok p : pipe_ok p -> 0 < count p -> pipe_ok (pop p).
Proof.
  intros Hp Hc. pose proof (count_pop p Hp Hc). destruct Hp. split; simpl; try done; [apply u32_range|lia].
Qed.

Lemma queue_push ch p : pipe_ok p -> count p < PIPESIZE -> queue (push ch p) = queue p ++ [ch].
Proof.
  intros Hp Hc. pose proof (count_range p) as Hr. unfold queue. rewrite (count_push ch p Hp Hc).
  replace (Z.to_nat (count p + 1)) with (Z.to_nat (count p) + 1)%nat by lia.
  rewrite seq_app, fmap_app. pose proof (nwrite_index p Hp) as Hi. destruct Hp as [Hd ? ? _]. f_equal.
  - apply list_fmap_ext. intros j ? [-> Hj]%lookup_seq. simpl in *. unfold slot_at, push. simpl.
    apply list_lookup_total_insert_ne. rewrite Hi. intros He.
    assert ((pi_nread p + count p) mod PIPESIZE = (pi_nread p + Z.of_nat j) mod PIPESIZE) as E.
    { apply Z2Nat.inj; [apply Z.mod_pos_bound; consts; lia..|done]. }
    revert E Hc. consts. Z.to_euclidean_division_equations. lia.
  - simpl. unfold slot_at, push. simpl. rewrite Z2Nat.id by lia. rewrite <- Hi.
    rewrite list_lookup_total_insert_eq; [done|]. rewrite Hd.
    pose proof (Z.mod_pos_bound (pi_nwrite p) PIPESIZE ltac:(consts; lia)). lia.
Qed.

Lemma queue_pop p : pipe_ok p -> 0 < count p -> queue p = slot_at p 0 :: queue (pop p).
Proof.
  intros Hp Hc. unfold queue. rewrite (count_pop p Hp Hc).
  replace (Z.to_nat (count p)) with (S (Z.to_nat (count p - 1))) by lia. simpl. f_equal.
  rewrite <- fmap_S_seq, <- list_fmap_compose. apply list_fmap_ext. intros ? j _. unfold slot_at, pop. simpl.
  f_equal. unfold u32. consts. f_equal. destruct Hp. Z.to_euclidean_division_equations. lia.
Qed.

(** ** Writing *)

(** The user memory of the current process [me]: page table [pt] with the tree [T]. *)
Record user_mem (me : nat) (pt : Z) (T : table) (s : kstate) : Prop := {
  um_proc : exists pr, k_procs s !! me = Some pr /\ p_pagetable pr = pt;
  um_rep : pt_rep (k_mem s) pt T;
  um_sep : vm_sep (k_mem s) T
}.

Section pipe.
Context {EN : Env} (me : nat) (pid pt : Z) (T : table) (pi : Z).

(** [while(pi->nwrite == pi->nread + PIPESIZE)] with room in the buffer. *)
Lemma wp_not_full {B} (wait : pipe -> K (unit + B)) (x : B) p Q s :
  k_pipes s !! pi = Some p -> pipe_ok p -> count p < PIPESIZE -> Q x s ->
  wp (kloop (S env_patience) (fun _ : unit =>
        p ← get_pipe pi; if pi_nwrite p =? u32 (pi_nread p + PIPESIZE) then wait p else mret (inr x)) tt) Q s.
Proof.
  intros Hp Hok Hc HQ. cbn [kloop]. kstep. rewrite full_iff by done.
  rewrite (proj2 (Z.eqb_neq _ _)) by lia. by kstep.
Qed.

Lemma wp_pipe_put {B} (k : K B) p ch Q s :
  k_pipes s !! pi = Some p -> pipe_ok p -> wp k Q (s <| k_pipes ::= <[pi := push ch p]> |>) ->
  wp (pipe_put pi (pi_nwrite p) ch)
     (fun _ => wp (upd_pipe pi (set pi_nwrite (fun k => u32 (k + 1)));; k) Q) s.
Proof.
  intros Hp Hok HQ. unfold pipe_put. kstep. rewrite bool_decide_eq_true_2.
  - kstep. unfold set in *. simpl in *. by rewrite insert_insert_eq.
  - rewrite (pk_data _ Hok). pose proof (Z.mod_pos_bound (pi_nwrite p) PIPESIZE ltac:(consts; lia)). lia.
Qed.

(** The byte [copyin] fetches for position [k] of the buffer of [bs]. *)
Lemma wp_copyin_byte bs addr k ch Q s :
  pt_rep (k_mem s) pt T -> vm_sep (k_mem s) T -> 0 <= addr -> addr + Z.of_nat (length bs) <= MAXVA ->
  user_bytes (k_mem s) T addr bs ->
  (forall va, addr <= va < addr + Z.of_nat (length bs) -> uaddr (k_mem s) T va <> 0) ->
  bs !! k = Some ch -> Q (0, [ch]) s -> wp (copyin pt (u64 (addr + Z.of_nat k)) 1) Q s.
Proof.
  intros Hrep Hsep Ha Hmax Hbs Hmap Hk HQ. pose proof (lookup_lt_Some _ _ _ Hk) as Hlt.
  rewrite u64_small by (revert Hmax; consts; lia).
  eapply wp_copyin; [done|done|lia|lia|lia|intros va Hva; apply Hmap; lia|].
  intros cs Hl Hcs. destruct cs as [|c [|? ?]]; [done| |done].
  specialize (Hcs 0%nat ltac:(simpl; lia)). simpl in Hcs. rewrite Z.add_0_r in Hcs.
  specialize (Hbs k Hlt). rewrite Hk, <- Hcs in Hbs. by injection Hbs as ->.
Qed.

(** The buffer after a prefix of [bs] was written. *)
Record filled (p : pipe) (bs : list Z) (s s2 : kstate) (q : pipe) : Prop := {
  fl_pipes : k_pipes s2 = <[pi := q]> (k_pipes s);
  fl_ok : pipe_ok q;
  fl_queue : queue q = queue p ++ bs;
  fl_readopen : pi_readopen q = pi_readopen p;
  fl_writeopen : pi_writeopen q = pi_writeopen p
}.

Lemma filled_count p bs s s2 q : filled p bs s s2 q -> count q = count p + Z.of_nat (length bs).
Proof.
  intros [_ _ Hq _ _]. apply (f_equal length) in Hq. rewrite length_app, !length_queue in Hq.
  pose proof (count_range p). pose proof (count_range q). lia.
Qed.

(** One turn of the loop of [pipewrite]. *)
Lemma wp_pipe_turn p bs addr k s s2 q pr Q :
  user_mem me pt T s -> k_mem s2 = k_mem s -> k_procs s2 !! me = Some pr -> p_pagetable pr = pt ->
  filled p (take k bs) s s2 q -> (k < length bs)%nat ->
  count p + Z.of_nat (length bs) <= PIPESIZE -> 0 <= addr -> addr + Z.of_nat (length bs) <= MAXVA ->
  user_bytes (k_mem s) T addr bs ->
  (forall va, addr <= va < addr + Z.of_nat (length bs) -> uaddr (k_mem s) T va <> 0) ->
  (forall q' s', filled p (take (S k) bs) s s' q' -> frame [Fpipes] s2 s' -> Q None s') ->
  wp (w ← kloop (S env_patience) (fun _ : unit =>
        p ← get_pipe pi;
        if pi_nwrite p =? u32 (pi_nread p + PIPESIZE) then
          m ← curproc; q ← get_proc m;
          if (pi_readopen p =? 0) || negb (p_killed q =? 0) then
            release (LPipe pi);; mret (inr (-1))
          else
            wakeup (CPipeRead pi);; sleep (CPipeWrite pi) (LPipe pi);; mret (inl tt)
        else mret (inr 0)) tt;
      if w =? -1 then mret (Some (-1))
      else
        q ← get_proc me;
        x ← copyin (p_pagetable q) (u64 (addr + Z.of_nat k)) 1;
        if x.1 =? -1 then mret (Some 0)
        else
          ch ← deref (x.2 !! 0%nat);
          p ← get_pipe pi;
          pipe_put pi (pi_nwrite p) ch;;
          upd_pipe pi (set pi_nwrite (fun k => u32 (k + 1)));;
          mret None) Q s2.
Proof.
  intros [_ Hrep Hsep] Hm Hpr Hpt Hf Hk Hroom Ha Hmax Hbs Hmap HQ.
  pose proof (filled_count _ _ _ _ _ Hf) as Hc. rewrite length_take in Hc. destruct Hf as [Hq Hok Hqq Hr Hw].
  assert (k_pipes s2 !! pi = Some q) as Hq2 by (rewrite Hq; apply lookup_insert_eq).
  destruct (lookup_lt_is_Some_2 bs k Hk) as [ch Hch].
  kstep. apply (wp_not_full _ _ q); [done|done|lia|].
  change (0 =? -1) with false. cbv iota. kstep. rewrite Hpt.
  apply (wp_copyin_byte bs addr k ch); rewrite ?Hm; [done|done|done|lia|done|done|exact Hch|].
  cbn [fst snd]. change (0 =? -1) with false. cbv iota. kstep. cbn [lookup list_lookup]. kstep.
  apply (wp_pipe_put (mret None) q); [done..|]. kstep. apply (HQ (push ch q)); [|frame_solve]. split; try done.
  - kfields. by rewrite Hq, insert_insert_eq.
  - apply push_ok; [done|lia].
  - rewrite queue_push, Hqq by (done || lia). erewrite take_S_r by done. by rewrite app_assoc.
Qed.

Lemma wp_pipewrite p bs addr n Q s :
  thread_ok me pid s -> user_mem me pt T s -> k_locks s !! LPipe pi = None ->
  k_pipes s !! pi = Some p -> pipe_ok p -> n = Z.of_nat (length bs) -> count p + n <= PIPESIZE ->
  0 <= addr -> addr + n <= MAXVA -> user_bytes (k_mem s) T addr bs ->
  (forall va, addr <= va < addr + n -> uaddr (k_mem s) T va <> 0) ->
  (forall q s', bframe [Fpipes] s s' -> filled p bs s s' q -> Q n s') ->
  wp (pipewrite pi addr n) Q s.
Proof.
  intros Ht Hu Hlk Hp Hok -> Hroom Ha Hmax Hbs Hmap HQ. unfold pipewrite. kstep.
  apply (wp_curproc_frame me); [apply Ht|apply Ht|]. intros s1 F1. kstep.
  assert (thread_ok me pid s1) as Ht1 by (eapply thread_ok_bframe; [by apply bframe_frame|done..]).
  frame_use F1 Flocks. frame_use F1 Fpipes. frame_use F1 Fmem. frame_use F1 Fprocs.
  apply wp_acquire; [apply Ht1|by rewrite <- Hfr|]. kstep. pose proof (um_proc _ _ _ _ Hu) as (pr & Hpr & Hpt).
  apply (wp_kfind (fun pre s2 => frame [Fpipes] (acq (LPipe pi) s1) s2 /\ exists q, filled p (take (length pre) bs) s s2 q)).
  - split; [reflexivity|]. exists p. split; try done; [|by rewrite app_nil_r].
    rewrite insert_id by done. by symmetry.
  - intros pre i post s2 [-> Hlt]%seqZ_middle [F2 [q Hf]]. frame_use F2 Fmem. frame_use F2 Fprocs.
    apply (wp_pipe_turn p bs addr (length pre) s s2 q pr); try done; [congruence..|].
    intros q' s' Hf' F'. split; [by etrans|]. exists q'. by rewrite length_app, Nat.add_1_r.
  - intros s2 [F2 [q Hf]]. rewrite length_seqZ, Nat2Z.id, firstn_all in Hf.
    rewrite bool_decide_eq_false_2 by done. kstep.
    apply (wp_wake_release [Fpipes] _ _ _ _ s1); try done; [apply Ht1..|by rewrite <- Hfr|].
    intros s3 F3 Hsame. apply (HQ q).
    + etrans; [|exact F3]. eapply bframe_more; [|apply bframe_frame; [exact F1|]]; done.
    + destruct Hf as [Hq ? ? ? ?]. split; try done.
      by rewrite <- (Hsame Fpipes ltac:(set_solver) : k_pipes s2 = k_pipes s3).
Qed.

(** ** Reading *)

(** User memory [mem'] is [mem] with the bytes [new] stored from [dst] on. *)
Record stored (mem mem' : gmap Z (list Z)) (dst : Z) (new : list Z) : Prop := {
  so_rep : pt_rep mem' pt T;
  so_sep : vm_sep mem' T;
  so_view va : view mem' T va = view mem T va;
  so_bytes va : user_va va -> ubyte mem' T va =
    if decide (dst <= va < dst + Z.of_nat (length new)) then new !! Z.to_nat (va - dst) else ubyte mem T va
}.

Lemma stored_nil mem dst : pt_rep mem pt T -> vm_sep mem T -> stored mem mem dst [].
Proof. intros. split; try done. intros va _. rewrite decide_False; [done|]. simpl. lia. Qed.

Lemma stored_snoc mem s s' dst new ch :
  stored mem (k_mem s) dst new -> written s s' pt T (dst + Z.of_nat (length new)) [ch] ->
  stored mem (k_mem s') dst (new ++ [ch]).
Proof.
  intros [_ _ V1 B1] [_ R2 S2 V2 B2 _]. split; try done.
  - intros va. by rewrite V2.
  - intros va Hva. rewrite B2, B1, length_app by done. simpl.
    destruct (decide (dst + _ <= va < _)), (decide (dst <= va < dst + Z.of_nat (_ + _))); try lia.
    + rewrite lookup_app_r by lia. replace (Z.to_nat (va - dst) - length new)%nat with 0%nat by lia.
      by replace (Z.to_nat (va - (dst + Z.of_nat (length new)))) with 0%nat by lia.
    + rewrite decide_True by lia. by rewrite lookup_app_l by lia.
    + by rewrite decide_False by lia.
Qed.

(** The buffer and the user memory after [k] bytes were read. *)
Record drained (p : pipe) (addr : Z) (k : nat) (s s2 : kstate) (q : pipe) : Prop := {
  dr_pipes : k_pipes s2 = <[pi := q]> (k_pipes s);
  dr_ok : pipe_ok q;
  dr_le : (k <= length (queue p))%nat;
  dr_queue : queue q = drop k (queue p);
  dr_open : pi_readopen q = pi_readopen p /\ pi_writeopen q = pi_writeopen p;
  dr_mem : stored (k_mem s) (k_mem s2) addr (take k (queue p))
}.

(** One turn of the loop of [piperead]. *)
Lemma wp_read_turn p addr n k s s2 q pr Q :
  k_procs s2 !! me = Some pr -> p_pagetable pr = pt -> drained p addr k s s2 q ->
  Z.of_nat k < n -> 0 <= addr -> addr + n <= MAXVA ->
  (forall va, addr <= va < addr + n -> uaddr (k_mem s) T va <> 0) ->
  (k = length (queue p) -> Q (Some (Z.of_nat k)) s2) ->
  (forall q' s', drained p addr (S k) s s' q' -> frame [Fpipes; Fmem] s2 s' -> Q None s') ->
  wp (p ← get_pipe pi;
      if pi_nread p =? pi_nwrite p then mret (Some (Z.of_nat k))
      else
        ch ← pipe_get pi (pi_nread p);
        upd_pipe pi (set pi_nread (fun k => u32 (k + 1)));;
        q ← get_proc me;
        x ← copyout (p_pagetable q) (u64 (addr + Z.of_nat k)) [ch] 1;
        if x =? -1 then mret (Some (Z.of_nat k)) else mret None) Q s2.
Proof.
  intros Hpr Hpt [Hq Hok Hle Hqq Ho Hst] Hk Ha Hmax Hmap Hend Hnext.
  assert (k_pipes s2 !! pi = Some q) as Hq2 by (rewrite Hq; apply lookup_insert_eq).
  pose proof (count_range q) as Hcr. pose proof (length_queue q) as Hlq. rewrite Hqq, length_drop in Hlq.
  kstep. rewrite empty_iff by done. destruct (Z.eqb_spec (count q) 0) as [Hz|Hz]; [kstep; apply Hend; lia|].
  assert (0 < count q) as Hc by lia. pose proof (queue_pop q Hok Hc) as Hpop. rewrite Hqq in Hpop.
  assert (queue p !! k = Some (slot_at q 0)) as Hch by (by rewrite <- (Nat.add_0_r k), <- lookup_drop, Hpop).
  unfold pipe_get. kstep.
  assert (pi_data q !! Z.to_nat (pi_nread q mod PIPESIZE) = Some (slot_at q 0)) as Hd.
  { unfold slot_at. rewrite Z.add_0_r. apply list_lookup_lookup_total_lt. rewrite (pk_data _ Hok).
    pose proof (Z.mod_pos_bound (pi_nread q) PIPESIZE ltac:(consts; lia)). lia. }
  rewrite Hd. kstep. rewrite Hpt, u64_small by (revert Hmax; consts; lia).
  destruct Hst as [Hrep Hsep Hview Hby] eqn:E. clear E.
  eapply wp_copyout; kfields; [exact Hrep|exact Hsep|lia|lia|lia|done| |].
  { intros va Hva. unfold uaddr. rewrite Hview. apply Hmap. lia. }
  intros s3 Hw. change (0 =? -1) with false. cbv iota. kstep. pose proof (wr_frame _ _ _ _ _ _ Hw) as F3.
  frame_use F3 Fpipes. apply (Hnext (pop q)).
  - split; [by rewrite <- Hfr, Hq, insert_insert_eq|by apply pop_ok|apply lookup_lt_Some in Hch; lia| |done|].
    + rewrite (drop_S (queue p) (slot_at q 0) k) in Hpop by done. by injection Hpop as ->.
    + erewrite take_S_r by done. eapply stored_snoc; [|rewrite length_take_le by lia; exact Hw]. exact Hst.
  - etrans; [|eapply frame_more; [|exact F3]; done]. frame_solve.
Qed.

(** [while(pi->nread == pi->nwrite && pi->writeopen)] with something to read, or the other end closed. *)
Lemma wp_not_empty {B} (wait : pipe -> K (unit + B)) (x : B) p Q s :
  k_pipes s !! pi = Some p -> pipe_ok p -> queue p <> [] \/ pi_writeopen p = 0 -> Q x s ->
  wp (kloop (S env_patience) (fun _ : unit =>
        p ← get_pipe pi;
        if (pi_nread p =? pi_nwrite p) && negb (pi_writeopen p =? 0) then wait p else mret (inr x)) tt) Q s.
Proof.
  intros Hp Hok Hne HQ. cbn [kloop]. kstep. rewrite empty_iff by done.
  replace ((count p =? 0) && negb (pi_writeopen p =? 0)) with false; [by kstep|].
  symmetry. apply andb_false_iff. destruct Hne as [Hne|Ho].
  - left. apply Z.eqb_neq. intros Hz. apply Hne, nil_length_inv. by rewrite length_queue, Hz.
  - right. by rewrite Ho.
Qed.

Lemma wp_piperead p addr n Q s :
  thread_ok me pid s -> user_mem me pt T s -> k_locks s !! LPipe pi = None ->
  k_pipes s !! pi = Some p -> pipe_ok p -> queue p <> [] \/ pi_writeopen p = 0 ->
  0 <= n -> 0 <= addr -> addr + n <= MAXVA ->
  (forall va, addr <= va < addr + n -> uaddr (k_mem s) T va <> 0) ->
  let k := Nat.min (Z.to_nat n) (length (queue p)) in
  (forall q s', bframe [Fpipes; Fmem] s s' -> drained p addr k s s' q -> Q (Z.of_nat k) s') ->
  wp (piperead pi addr n) Q s.
Proof.
  intros Ht Hu Hlk Hp Hok Hne Hn Ha Hmax Hmap k HQ. unfold piperead. kstep.
  apply (wp_curproc_frame me); [apply Ht|apply Ht|]. intros s1 F1. kstep.
  assert (thread_ok me pid s1) as Ht1 by (eapply thread_ok_bframe; [by apply bframe_frame|done..]).
  frame_use F1 Flocks. frame_use F1 Fpipes. frame_use F1 Fmem. frame_use F1 Fprocs.
  apply wp_acquire; [apply Ht1|by rewrite <- Hfr|]. kstep. destruct Hu as [(pr & Hpr & Hpt) Hrep Hsep].
  apply (wp_not_empty _ _ p); [by rewrite <- Hp, Hfr0|done|done|].
  change (0 =? -1) with false. cbv iota. kstep.
  assert (forall r q s2, frame [Fpipes; Fmem] (acq (LPipe pi) s1) s2 -> drained p addr k s s2 q ->
    default (Z.max 0 n) r = Z.of_nat k ->
    wp (wakeup (CPipeWrite pi)) (fun _ => wp (release (LPipe pi);; mret (default (Z.max 0 n) r)) Q) s2) as Hend.
  { intros r q s2 F2 Hd Hr. rewrite Hr.
    apply (wp_wake_release [Fpipes; Fmem] _ _ _ _ s1); try done; [apply Ht1..|by rewrite <- Hfr|].
    intros s3 F3 Hsame. apply (HQ q).
    - etrans; [|exact F3]. eapply bframe_more; [|apply bframe_frame; [exact F1|]]; done.
    - destruct Hd. pose proof (Hsame Fpipes ltac:(set_solver) : k_pipes s2 = k_pipes s3).
      pose proof (Hsame Fmem ltac:(set_solver) : k_mem s2 = k_mem s3). split; congruence || done. }
  apply (wp_kfind (fun pre s2 => frame [Fpipes; Fmem] (acq (LPipe pi) s1) s2 /\
    exists q, drained p addr (length pre) s s2 q)).
  - split; [reflexivity|]. exists p. split; try done; [|simpl; lia|].
    + rewrite insert_id by done. by symmetry.
    + simpl. rewrite <- Hfr1. by apply stored_nil.
  - intros pre i post s2 Hseq [F2 [q Hd]].
    rewrite <- (Z2Nat.id n) in Hseq by done. apply seqZ_middle in Hseq as [-> Hlt]. frame_use F2 Fprocs.
    apply (wp_read_turn p addr n (length pre) s s2 q pr); try done; [congruence|lia|..].
    + intros Hk. kstep. eapply (Hend (Some _) q); [done| |simpl; lia]. replace k with (length pre) by lia. done.
    + intros q' s' Hd' F'. split; [by etrans|]. exists q'. by rewrite length_app, Nat.add_1_r.
  - intros s2 [F2 [q Hd]]. rewrite length_seqZ in Hd. pose proof (dr_le _ _ _ _ _ _ Hd). kstep.
    eapply (Hend None q); [done| |simpl; lia]. by replace k with (Z.to_nat n) by lia.
Qed.

Lemma user_mem_bframe ex s s' :
  bframe ex s s' -> bool_decide (Fmem ∈ Fprocs :: ex) = false -> user_mem me pt T s -> user_mem me pt T s'.
Proof.
  intros F Hm [(p & Hp & Hpt) Hrep Hsep]. pose proof (bframe_get Fmem _ _ _ F Hm : k_mem s = k_mem s') as E.
  split; rewrite <- ?E; [|done..]. destruct F as [_ F].
  destruct (Forall2_lookup_l _ _ _ _ _ F Hp) as (p' & Hp' & [->|[_ ->]]); by eexists.
Qed.

(** C16. A pipe is a first-in first-out queue between two places of user memory, whatever the 32-bit counters [nread] and [nwrite] hold (they may wrap around in the middle): writing the [n] bytes [bs] at [src] into a pipe with room for them returns [n], and a read of [m] bytes after it returns the smaller of [m] and what was queued before and written now; the bytes stored at [dst] are the oldest ones, in order, and what stays queued is the rest. No other byte of user memory, and no other pipe, changes. *)
Theorem pipe_fifo p bs src dst m s :
  thread_ok me pid s -> user_mem me pt T s -> k_locks s !! LPipe pi = None ->
  k_pipes s !! pi = Some p -> pipe_ok p -> count p + Z.of_nat (length bs) <= PIPESIZE ->
  0 <= src -> src + Z.of_nat (length bs) <= MAXVA -> user_bytes (k_mem s) T src bs ->
  (forall va, src <= va < src + Z.of_nat (length bs) -> uaddr (k_mem s) T va <> 0) ->
  0 <= m -> 0 <= dst -> dst + m <= MAXVA ->
  (forall va, dst <= va < dst + m -> uaddr (k_mem s) T va <> 0) ->
  bs <> [] \/ queue p <> [] ->
  let all := queue p ++ bs in
  let k := Nat.min (Z.to_nat m) (length all) in
  wp (w ← pipewrite pi src (Z.of_nat (length bs)); r ← piperead pi dst m; mret (w, r)) (fun '(w, r) s' =>
    w = Z.of_nat (length bs) /\ r = Z.of_nat k /\
    (exists q, k_pipes s' = <[pi := q]> (k_pipes s) /\ pipe_ok q /\ queue q = drop k all /\
      pi_readopen q = pi_readopen p /\ pi_writeopen q = pi_writeopen p) /\
    stored (k_mem s) (k_mem s') dst (take k all) /\ bframe [Fpipes; Fmem] s s') s.
Proof.
  intros Ht Hu Hlk Hp Hok Hroom Hs Hsm Hbs Hsrc Hm Hd Hdm Hdst Hne all k. kstep.
  eapply wp_pipewrite; try done. intros q1 s1 F1 [Hq1 Hok1 Hqq1 Ho1]. kstep.
  pose proof (bframe_get Fmem _ _ _ F1 eq_refl : k_mem s = k_mem s1) as Em.
  pose proof (bframe_get Flocks _ _ _ F1 eq_refl : k_locks s = k_locks s1) as El.
  eapply (wp_piperead q1); rewrite <- ?Em, <- ?El; try done.
  - by eapply thread_ok_bframe.
  - by eapply user_mem_bframe.
  - rewrite Hq1. apply lookup_insert_eq.
  - left. rewrite Hqq1. destruct Hne as [?|?]; by destruct (queue p), bs.
  - rewrite Hqq1. intros q2 s2 F2 [Hq2 Hok2 Hle2 Hqq2 [Hr2 Hw2] Hst]. rewrite Hqq1, <- Em in *. destruct Ho1. kstep.
    split_and!; [done|done| |done|].
    + exists q2. split_and!; [|done|done|congruence..]. by rewrite Hq2, Hq1, insert_insert_eq.
    + etrans; [|exact F2]. by eapply bframe_more, F1.
Qed.
End pipe.

(** ** Example: a pipe whose counters are about to wrap *)

Definition page_e : Z := PHYSTOP - 5 * PGSIZE.
Definition tip_pipe : pipe := mkpipe (replicate 511 0 ++ [65]) (2 ^ 32 - 1) 0 1 1.
Definition one_pipe : kstate :=
  small_boot <| k_mem := k_mem one_page |> <| k_pipes := {[ page_e := tip_pipe ]} |>
    <| k_procs ::= <[0%nat := zero_proc <| p_pid := 1 |> <| p_state := RUNNING |> <| p_pagetable := page_a |>]> |>.

Lemma one_pipe_hi : user_bytes (k_mem one_pipe) tree 0 (lit "hi").
Proof.
  intros i Hlt. simpl in Hlt.
  unfold ubyte. change (k_mem one_pipe) with (k_mem one_page).
  rewrite one_page_uaddr by (unfold user_va; consts; lia).
  destruct i as [|[|[|i]]]; [by vm_compute..|lia].
Qed.

Section example.
#[local] Existing Instance small_machine.

Lemma pipe_fifo_witness :
  wp (w ← pipewrite page_e 0 3; r ← piperead page_e 100 2; mret (w, r)) (fun '(w, r) s' =>
    w = 3 /\ r = 2 /\
    (exists q, k_pipes s' = <[page_e := q]> (k_pipes one_pipe) /\ pipe_ok q /\ queue q = [105; 0] /\
      pi_readopen q = 1 /\ pi_writeopen q = 1) /\
    stored page_a tree (k_mem one_pipe) (k_mem s') 100 [65; 104] /\ bframe [Fpipes; Fmem] one_pipe s') one_pipe.
Proof.
  apply (pipe_fifo 0 1 page_a tree page_e tip_pipe (lit "hi") 0 100 2 one_pipe); try exact one_pipe_hi; try done.
  - by split; [..|eexists; split| | | |]; try split.
  - split; [by eexists|apply one_page_rep|apply one_page_sep].
  - intros. apply one_page_mapped. simpl in *. lia.
  - intros. apply one_page_mapped. simpl in *. lia.
  - by left.
Defined.
End example.
