(* ===== verification/Line.v ===== *)
(** The line discipline of [kernel/console.c].

    An interrupt that brings characters edits the line of the active console ([consoleintr]); a
    finished line is handed to [consoleread].  The specification is the editor [key] on two lists of
    characters, those ready to be read and those still being edited; the ring buffer with its three
    counters modulo 2^32 implements it. *)
From S2P Require Import Prelude Types Kstate Cstring Spinlock Frame Printf Accounting Kalloc Vm Pagetable Uvm Proc Console Bio Bcache Blocks Log Fs File Pipe.
From stdpp Require Import functions base numbers list gmap strings.
From Stdlib Require Import ZArith Lia.

Local Open Scope Z_scope.
Local Open Scope xv6_scope.

(** ** The editor *)

(** One character typed at a console with [ready] characters to read and the line [edit]. *)
Definition key (c : Z) (l : list Z * list Z) : list Z * list Z :=
  let '(ready, edit) := l in
  if c =? Ctl 85 then (ready, [])
  else if (c =? Ctl 72) || (c =? 127) then (ready, take (length edit - 1) edit)
  else if (c =? 0) || (Z.to_nat INPUT_BUF <=? length ready + length edit)%nat then l
  else
    let c := if c =? 13 then 10 else c in
    if (c =? 10) || (c =? Ctl 68) || (S (length ready + length edit) =? Z.to_nat INPUT_BUF)%nat
    then (ready ++ edit ++ [c], []) else (ready, edit ++ [c]).

(** The consoles: the active one and what each of them holds. *)
Record tty := mktty { tty_active : nat; tty_lines : list (list Z * list Z) }.

Definition type_key (t : tty) (c : Z) : tty :=
  if c =? Ctl 78 then mktty (if (tty_active t =? 9)%nat then 0 else S (tty_active t)) (tty_lines t)
  else if c =? Ctl 66 then mktty (if (tty_active t =? 0)%nat then 9 else pred (tty_active t)) (tty_lines t)
  else if c =? Ctl 80 then t
  else mktty (tty_active t) (alter (key c) (tty_active t) (tty_lines t)).

(** ** The ring buffer *)

Record ring (i : input) (ready edit : list Z) : Prop := {
  rg_buf : length (in_buf i) = Z.to_nat INPUT_BUF;
  rg_r : 0 <= in_r i < 2 ^ 32;
  rg_w : in_w i = u32 (in_r i + Z.of_nat (length ready));
  rg_e : in_e i = u32 (in_r i + Z.of_nat (length ready) + Z.of_nat (length edit));
  rg_fits : (length ready + length edit <= Z.to_nat INPUT_BUF)%nat;
  rg_data j c : (ready ++ edit) !! j = Some c ->
    in_buf i !! Z.to_nat ((in_r i + Z.of_nat j) mod INPUT_BUF) = Some c
}.

(** The line being edited has no newline: that would have finished it. *)
Definition holds (i : input) (l : list Z * list Z) : Prop := ring i l.1 l.2 /\ Forall (fun c => c <> 10) l.2.

Ltac rsolve := unfold u32; consts; Z.to_euclidean_division_equations; lia.

Section ring.
Context (i : input) (ready edit : list Z) (R : ring i ready edit).

Lemma ring_edited : (in_e i =? in_w i) = (length edit =? 0)%nat.
Proof.
  destruct R as [_ Hr Hw He Hf _]. apply eq_bool_prop_intro. rewrite !Is_true_true, Z.eqb_eq, Nat.eqb_eq.
  rewrite He, Hw. revert Hf. rsolve.
Qed.

Lemma ring_count : u32 (in_e i - in_r i) = Z.of_nat (length ready + length edit).
Proof. destruct R as [_ Hr Hw He Hf _]. rewrite He. revert Hf. rsolve. Qed.

Lemma ring_pending : u32 (in_e i - in_w i) = Z.of_nat (length edit).
Proof. destruct R as [_ Hr Hw He Hf _]. rewrite He, Hw. revert Hf. rsolve. Qed.

Lemma ring_ready : (in_r i =? in_w i) = (length ready =? 0)%nat.
Proof.
  destruct R as [_ Hr Hw He Hf _]. apply eq_bool_prop_intro. rewrite !Is_true_true, Z.eqb_eq, Nat.eqb_eq.
  rewrite Hw. revert Hf. rsolve.
Qed.

(** The last character of the line. *)
Lemma ring_last c : last edit = Some c -> in_buf i !! Z.to_nat (u32 (in_e i - 1) mod INPUT_BUF) = Some c.
Proof.
  intros Hc. rewrite last_lookup in Hc. pose proof (lookup_lt_Some _ _ _ Hc).
  destruct R as [_ Hr Hw He Hf Hd]. rewrite <- (Hd (length ready + pred (length edit))%nat c).
  - f_equal. f_equal. rewrite He. rsolve.
  - by rewrite lookup_app_r, Nat.add_comm, Nat.add_sub by lia.
Qed.

Lemma ring_erase : edit <> [] ->
  ring (i <| in_e ::= fun e => u32 (e - 1) |>) ready (take (length edit - 1) edit).
Proof.
  intros Hne. assert (0 < length edit)%nat by (by destruct edit; simpl; [|lia]).
  destruct R as [Hb Hr Hw He Hf Hd]. split; simpl; try done.
  - rewrite He, length_take. rsolve.
  - rewrite length_take. lia.
  - intros j c Hj. apply Hd. rewrite lookup_app in Hj |- *. destruct (ready !! j); [done|].
    by apply lookup_take_Some in Hj as [? _].
Qed.

Lemma ring_commit : ring (i <| in_w := in_e i |>) (ready ++ edit) [].
Proof.
  destruct R as [Hb Hr Hw He Hf Hd]. split; simpl; try done.
  - rewrite He, length_app. f_equal. lia.
  - rewrite He, length_app. f_equal. lia.
  - rewrite length_app. lia.
  - rewrite app_nil_r. done.
Qed.

Lemma ring_put c : (length ready + length edit < Z.to_nat INPUT_BUF)%nat ->
  ring (i <| in_buf ::= <[Z.to_nat (in_e i mod INPUT_BUF) := c]> |> <| in_e ::= fun e => u32 (e + 1) |>)
    ready (edit ++ [c]).
Proof.
  intros Hlt. destruct R as [Hb Hr Hw He Hf Hd].
  assert (in_e i mod INPUT_BUF = (in_r i + Z.of_nat (length ready + length edit)) mod INPUT_BUF) as Hi
    by (rewrite He; rsolve).
  split; simpl; try done.
  - by rewrite length_insert.
  - rewrite He, length_app. simpl. rsolve.
  - rewrite length_app. simpl. lia.
  - intros j x Hj. rewrite app_assoc in Hj. apply lookup_snoc_Some in Hj as [[Hlj Hj]|[-> <-]].
    + rewrite list_lookup_insert_ne; [by apply Hd|]. rewrite Hi. rewrite length_app in Hlj.
      intros E. apply Z2Nat.inj in E; [|apply Z.mod_pos_bound; consts; lia..].
      revert E Hlt Hlj. consts. Z.to_euclidean_division_equations. lia.
    + rewrite length_app, <- Hi. apply list_lookup_insert_eq. rewrite Hb.
      pose proof (Z.mod_pos_bound (in_e i) INPUT_BUF ltac:(consts; lia)). lia.
Qed.
End ring.

Lemma ring_take i c ready edit : ring i (c :: ready) edit ->
  ring (i <| in_r ::= fun r => u32 (r + 1) |>) ready edit /\
  in_buf i !! Z.to_nat (in_r i mod INPUT_BUF) = Some c.
Proof.
  intros [Hb Hr Hw He Hf Hd]. simpl in *. split; [|rewrite <- (Z.add_0_r (in_r i)); by apply (Hd 0%nat)].
  split; simpl; try done.
  - apply u32_range.
  - rewrite Hw. rsolve.
  - rewrite He. rsolve.
  - lia.
  - intros j x Hj. rewrite <- (Hd (S j) x) by done. f_equal. f_equal. rsolve.
Qed.

(** ** Typing *)

(** The state in which an interrupt of the uart arrives. *)
Record input_ok (s : kstate) : Prop := {
  io_hart : hart_ok (k_hart s);
  io_pr : console_ok s;
  io_procs : procs_unlocked s;
  io_len : length (k_procs s) = NPROC;
  io_cons i : k_locks s !! LCons i = None;
  io_names : Forall (fun p => 0 ∈ p_name p) (k_procs s)
}.

Section typing.
Context {EN : Env}.

Lemma wp_consputc c Q s : k_panicked s = false ->
  Q tt (s <| k_out ::= app (reverse (uart_image c)) |>) -> wp (consputc c) Q s.
Proof.
  intros Hp HQ. unfold consputc, uartputc, uart_image in *. kstep. rewrite Hp.
  by destruct (c =? BACKSPACE); kstep.
Qed.

Lemma wp_procdump Q s :
  hart_ok (k_hart s) -> console_ok s -> length (k_procs s) = NPROC -> Forall (fun p => 0 ∈ p_name p) (k_procs s) ->
  (forall s', frame [Fout] s s' -> Q tt s') -> wp procdump Q s.
Proof.
  intros Hh Hc Hlen Hn HQ. unfold procdump. kstep. apply wp_printf_frame; [done..|]. intros s1 F1.
  apply (wp_kfor (fun _ s' => frame [Fout] s s')); [done| |done].
  intros pre i post s2 Hseq F2. frame_use F2 Fprocs.
  destruct (lookup_lt_is_Some_2 (k_procs s2) i) as [p Hp].
  { rewrite <- Hfr, Hlen. assert (i ∈ seq 0 NPROC) as Hi by (rewrite Hseq; set_solver).
    apply elem_of_seq in Hi. lia. }
  kstep. case_bool_decide; kstep; [|done].
  assert (forall s', frame [Fout] s s' -> hart_ok (k_hart s') /\ console_ok s') as Hok.
  { intros s' F. split; [by eapply hart_ok_frame|by eapply console_ok_frame]. }
  destruct (Hok s2 F2).
  apply wp_printf_frame; [by vm_compute| |done..|].
  { rewrite <- Hfr in Hp. apply Forall_cons; split; [done|]. apply Forall_cons; split; [|apply Forall_cons; split; [|done]].
    - simpl. unfold lit. set_solver.
    - by apply (Forall_lookup_1 _ _ _ _ Hn Hp). }
  intros s3 F3. assert (frame [Fout] s s3) as F13 by (by etrans). destruct (Hok s3 F13).
  kstep. apply wp_printf_frame; [done..|]. intros s4 F4. by etrans.
Qed.

(** The loop of [^U] takes back the whole line. *)
Lemma wp_kill_line a i ready edit Q s :
  k_cons s !! a = Some i -> ring i ready edit -> Forall (fun c => c <> 10) edit -> k_panicked s = false ->
  (forall i' s', frame [Fcons; Fout] s s' -> k_cons s' = <[a := i']> (k_cons s) -> ring i' ready [] -> Q tt s') ->
  wp (kloop (S (Z.to_nat (u32 (in_e i - in_w i)))) (fun _ : unit =>
        i ← get_cons a;
        if in_e i =? in_w i then mret (inr tt)
        else
          ch ← in_get a (u32 (in_e i - 1));
          if ch =? 10 then mret (inr tt)
          else
            upd_cons a (set in_e (fun e => u32 (e - 1)));;
            consputc BACKSPACE;;
            mret (inl tt)) tt) Q s.
Proof.
  intros Hi R Hnl Hp HQ. rewrite (ring_pending i ready edit R), Nat2Z.id.
  remember (length edit) as n eqn:Hn. revert i edit s R Hnl Hp Hi Hn HQ.
  induction n as [|n IH]; intros i edit s R Hnl Hp Hi Hn HQ.
  - symmetry in Hn; apply nil_length_inv in Hn as ->. cbn [kloop]. kstep. rewrite (ring_edited i ready [] R). simpl. kstep.
    apply (HQ i); [reflexivity| |done]. by rewrite list_insert_id.
  - rewrite kloop_S. kstep. rewrite (ring_edited i ready edit R), <- Hn. cbn [Nat.eqb]. cbv iota. unfold in_get at 1. kstep.
    destruct (last edit) as [ch|] eqn:Hl; [|apply last_None in Hl; subst; simpl in Hn; lia].
    rewrite (ring_last i ready edit R ch Hl). kstep.
    assert (ch <> 10) as Hch.
    { rewrite last_lookup in Hl. by apply (Forall_lookup_1 _ _ _ _ Hnl Hl). }
    rewrite (proj2 (Z.eqb_neq ch 10)) by done. cbv iota. kstep.
    apply wp_consputc; [done|]. kstep.
    apply (IH (i <| in_e ::= fun e => u32 (e - 1) |>) (take (length edit - 1) edit)).
    + apply ring_erase; [done|]. by intros ->.
    + by apply Forall_take.
    + done.
    + kfields. apply list_lookup_insert_eq. by eapply lookup_lt_Some.
    + rewrite length_take. lia.
    + intros i' s' F Hc' R'. apply (HQ i'); [etrans; [|exact F]; frame_solve| |done].
      rewrite Hc'. apply list_insert_insert_eq.
Qed.

(** A character that is stored, and finishes the line if it has to. *)
Lemma wp_store_key a i ready edit c Q s :
  hart_ok (k_hart s) -> procs_unlocked s -> length (k_procs s) = NPROC -> k_panicked s = false ->
  k_cons s !! a = Some i -> holds i (ready, edit) -> 0 <= c < 256 ->
  (length ready + length edit < Z.to_nat INPUT_BUF)%nat ->
  let fin := (c =? 10) || (c =? Ctl 68) || (S (length ready + length edit) =? Z.to_nat INPUT_BUF)%nat in
  (forall i' s', bframe [Fcons; Fout] s s' -> k_cons s' = <[a := i']> (k_cons s) ->
     holds i' (if fin then (ready ++ edit ++ [c], []) else (ready, edit ++ [c])) -> Q tt s') ->
  wp (consputc c;;
      in_put a (in_e i) c;;
      upd_cons a (set in_e (fun e => u32 (e + 1)));;
      i ← get_cons a;
      when ((c =? 10) || (c =? Ctl 68) || (in_e i =? u32 (in_r i + INPUT_BUF)))
        (upd_cons a (fun i => i <| in_w := in_e i |>);;
         wakeup (CCons a))) Q s.
Proof.
  intros Hh Hl Hlen Hp Hi [R Hnl] Hc Hlt fin HQ. cbn [fst snd] in *. kstep. apply wp_consputc; [done|]. kstep.
  unfold in_put. kstep. rewrite bool_decide_eq_true_2.
  2:{ rewrite (rg_buf _ _ _ R). pose proof (Z.mod_pos_bound (in_e i) INPUT_BUF ltac:(consts; lia)). lia. }
  kstep. replace (u8 c) with c by (unfold u8; rewrite Z.mod_small; lia).
  pose proof (ring_put i ready edit R c Hlt) as R'.
  set (i2 := i <| in_buf ::= _ |> <| in_e ::= _ |>) in R'.
  assert ((in_e i2 =? u32 (in_r i2 + INPUT_BUF)) = (S (length ready + length edit) =? Z.to_nat INPUT_BUF)%nat) as Hfull.
  { destruct R' as [_ Hr _ He Hf _]. apply eq_bool_prop_intro. rewrite !Is_true_true, Z.eqb_eq, Nat.eqb_eq.
    rewrite He. rewrite length_app in *. simpl length in *. revert Hf. rsolve. }
  kfields. fold i2. rewrite Hfull. fold fin. destruct fin eqn:Hfin; kstep.
  - apply wp_wakeup; [done..|]. intros s2 F2 Hp2.
    apply (HQ (i2 <| in_w := in_e i2 |>)).
    + split; [|rewrite Hp2; apply woken_waked]. etrans; [|eapply frame_more; [|exact F2]; done]. frame_solve.
    + rewrite <- (frame_get Fcons _ _ _ F2 eq_refl : k_cons _ = k_cons s2). kfields. by rewrite !list_insert_insert_eq.
    + split; [|constructor]. by apply ring_commit.
  - apply (HQ i2).
    + apply bframe_frame; [frame_solve|done].
    + kfields. by rewrite !list_insert_insert_eq.
    + split; [done|]. apply Forall_app. split; [done|]. constructor; [|done].
      intros ->. done.
Qed.

Lemma wp_console_key a i l c Q s :
  hart_ok (k_hart s) -> procs_unlocked s -> length (k_procs s) = NPROC -> console_ok s ->
  Forall (fun p => 0 ∈ p_name p) (k_procs s) ->
  k_cons s !! a = Some i -> holds i l -> 0 <= c < 256 ->
  (forall i' s', bframe [Fcons; Fout] s s' -> k_cons s' = <[a := i']> (k_cons s) ->
     holds i' (if (c =? Ctl 78) || (c =? Ctl 66) || (c =? Ctl 80) then l else key c l) -> Q tt s') ->
  wp (console_key a c) Q s.
Proof.
  intros Hh Hl Hlen Hcon Hn Hi Hd Hc HQ. destruct l as [ready edit]. pose proof Hd as [R Hnl]. cbn [fst snd] in *.
  assert (forall s', frame [Fout] s s' -> (c =? Ctl 78) || (c =? Ctl 66) || (c =? Ctl 80) = true -> Q tt s') as Hsame.
  { intros s' F E. rewrite E in HQ. apply (HQ i); [|rewrite <- (frame_get Fcons _ _ _ F eq_refl : k_cons s = _); by rewrite list_insert_id|done].
    apply bframe_frame; [by apply (frame_more [Fout])|done]. }
  unfold console_key, key in *. destruct Hcon as [Hp Hpr].
  destruct (c =? Ctl 78); [by apply wp_printf_frame; eauto|].
  destruct (c =? Ctl 66); [by apply wp_printf_frame; eauto|].
  destruct (c =? Ctl 80); [by apply wp_procdump; auto|]. cbn [orb] in HQ.
  destruct (c =? Ctl 85).
  { kstep. eapply wp_kill_line; [done..|]. intros i' s' F Hc' R'.
    apply (HQ i'); [by apply bframe_frame|done|]. by split. }
  destruct ((c =? Ctl 72) || (c =? 127)).
  { kstep. rewrite (ring_edited i ready edit R). destruct edit as [|e edit]; cbn [length Nat.eqb negb]; kstep.
    - apply (HQ i); [reflexivity|by rewrite list_insert_id|done].
    - apply wp_consputc; [done|]. apply (HQ (i <| in_e ::= fun e => u32 (e - 1) |>)).
      + apply bframe_frame; [frame_solve|done].
      + done.
      + split; [by apply ring_erase|]. by apply Forall_take. }
  kstep. rewrite (ring_count i ready edit R).
  destruct (Z.eqb_spec c 0) as [->|Hc0]; cbn [negb andb orb]; kstep.
  { apply (HQ i); [reflexivity|by rewrite list_insert_id|done]. }
  destruct (Z.ltb_spec (Z.of_nat (length ready + length edit)) INPUT_BUF) as [Hlt|Hge].
  - unfold when at 1. cbv zeta. cbn [orb] in HQ. rewrite (proj2 (Nat.leb_gt _ _)) in HQ by (consts; lia).
    apply (wp_store_key a i ready edit); try done; [destruct (c =? 13); lia|consts; lia].
  - kstep. cbn [orb] in HQ. rewrite (proj2 (Nat.leb_le _ _)) in HQ by (consts; lia).
    apply (HQ i); [reflexivity|by rewrite list_insert_id|done].
Qed.

Lemma list_alter_insert {A} (f : A -> A) (i : nat) x (l : list A) : l !! i = Some x -> alter f i l = <[i := f x]> l.
Proof.
  intros Hx. apply list_eq. intros j. destruct (decide (i = j)) as [<-|Hne].
  - rewrite list_lookup_alter_eq, Hx, list_lookup_insert_eq; [done|]. by eapply lookup_lt_Some.
  - by rewrite list_lookup_alter_ne, list_lookup_insert_ne.
Qed.

(** The consoles of the kernel hold what [t] says. *)
Record represents (t : tty) (s : kstate) : Prop := {
  rp_active : k_active s = Z.of_nat (tty_active t);
  rp_consa : k_consa s = Some (tty_active t);
  rp_lt : (tty_active t < Z.to_nat NDEV)%nat;
  rp_len : length (k_cons s) = Z.to_nat NDEV;
  rp_lines : Forall2 holds (k_cons s) (tty_lines t)
}.

Definition tty_frame : list field := [Fcons; Fout; Factive; Fconsa].

Lemma input_ok_bframe s s' : bframe tty_frame s s' -> input_ok s -> input_ok s'.
Proof.
  intros [F W] [Hh [Hp Hpr] Hpu Hlen Hc Hn]. frame_use F Flocks. frame_use F Fpanicked.
  split; unfold console_ok, procs_unlocked in *; rewrite <- ?Hfr, <- ?Hfr0; try done.
  - by eapply hart_ok_frame.
  - by rewrite <- (Forall2_length _ _ _ W).
  - apply Forall_lookup. intros j q Hq. destruct (Forall2_lookup_r _ _ _ _ _ W Hq) as (p & Hp' & Hw).
    pose proof (Forall_lookup_1 _ _ _ _ Hn Hp'). destruct Hw as [->|[_ ->]]; done.
Qed.

(** The message about the active console. *)
Lemma wp_say_active Q s : input_ok s ->
  (forall s', frame [Fout] s s' -> Q tt s') ->
  wp (active ← gets k_active; printf "\nActive console now: %d\n" [AInt active]) Q s.
Proof. intros [Hh Hc _ _ _ _] HQ. kstep. by apply wp_printf_frame; [|repeat constructor|..]. Qed.

Lemma wp_next_active t s Q : input_ok s -> represents t s ->
  (forall s', frame tty_frame s s' ->
     represents (mktty (if (tty_active t =? 9)%nat then 0 else S (tty_active t)) (tty_lines t)) s' -> Q tt s') ->
  wp (nextconsole;; active ← gets k_active; printf "\nActive console now: %d\n" [AInt active]) Q s.
Proof.
  intros Hok [Ha Hc Hlt Hn Hl] HQ. unfold nextconsole. kstep.
  set (s1 := s <| k_active := _ |> <| k_consa := _ |>).
  assert (frame tty_frame s s1) as F1 by (unfold s1; frame_solve).
  apply wp_say_active; [eapply input_ok_bframe; [by eapply bframe_frame|done]|]. intros s2 F2. apply HQ.
  - etrans; [exact F1|]. by apply (frame_more [Fout]).
  - frame_use F2 Factive. frame_use F2 Fconsa. frame_use F2 Fcons.
    assert ((k_active s + 1) mod NDEV = Z.of_nat (if (tty_active t =? 9)%nat then 0 else S (tty_active t))) as E.
    { rewrite Ha. destruct (Nat.eqb_spec (tty_active t) 9) as [->|]; [done|]. consts. rewrite Z.mod_small; lia. }
    split; cbn [tty_active tty_lines]; rewrite <- ?Hfr, <- ?Hfr0, <- ?Hfr1; unfold s1; kfields; rewrite ?E, ?Nat2Z.id; try done.
    destruct (Nat.eqb_spec (tty_active t) 9); consts; lia.
Qed.

Lemma wp_prev_active t s Q : input_ok s -> represents t s ->
  (forall s', frame tty_frame s s' ->
     represents (mktty (if (tty_active t =? 0)%nat then 9 else pred (tty_active t)) (tty_lines t)) s' -> Q tt s') ->
  wp (prevconsole;; active ← gets k_active; printf "\nActive console now: %d\n" [AInt active]) Q s.
Proof.
  intros Hok [Ha Hc Hlt Hn Hl] HQ. unfold prevconsole. kstep.
  set (s1 := s <| k_active := _ |> <| k_consa := _ |>).
  assert (frame tty_frame s s1) as F1 by (unfold s1; frame_solve).
  apply wp_say_active; [eapply input_ok_bframe; [by eapply bframe_frame|done]|]. intros s2 F2. apply HQ.
  - etrans; [exact F1|]. by apply (frame_more [Fout]).
  - frame_use F2 Factive. frame_use F2 Fconsa. frame_use F2 Fcons.
    assert ((if k_active s - 1 <? 0 then NDEV - 1 else (k_active s - 1) mod NDEV) =
            Z.of_nat (if (tty_active t =? 0)%nat then 9 else pred (tty_active t))) as E.
    { rewrite Ha. consts. destruct (Nat.eqb_spec (tty_active t) 0) as [->|]; [done|].
      rewrite (proj2 (Z.ltb_ge _ _)), Z.mod_small by lia. lia. }
    split; cbn [tty_active tty_lines]; rewrite <- ?Hfr, <- ?Hfr0, <- ?Hfr1; unfold s1; kfields; rewrite ?E, ?Nat2Z.id; try done.
    destruct (Nat.eqb_spec (tty_active t) 0); consts; lia.
Qed.

Lemma wp_consoleintr t c Q s :
  input_ok s -> represents t s -> 0 <= c < 256 ->
  (forall s', bframe tty_frame s s' -> represents (type_key t c) s' -> Q tt s') -> wp (consoleintr c) Q s.
Proof.
  intros Hok Hrp Hc HQ. pose proof Hok as [Hh [Hp Hpr] Hpu Hlen Hcl Hn]. pose proof Hrp as [Ha Hca Hlt Hcn Hl].
  destruct (lookup_lt_is_Some_2 (k_cons s) (tty_active t)) as [i Hi]; [lia|].
  destruct (Forall2_lookup_l _ _ _ _ _ Hl Hi) as (l & Hll & Hd).
  unfold consoleintr. kstep. rewrite Hca. kstep. apply wp_acquire; [done..|]. kstep.
  apply (wp_console_key (tty_active t) i l); try done.
  { by apply hart_ok_hpush. }
  { intros j. unfold acq. kfields. rewrite lookup_insert_ne by done. apply Hpu. }
  { split; [done|]. unfold acq. kfields. by rewrite lookup_insert_ne. }
  intros i' s1 [F1 W1] Hc1 Hd1. kstep.
  apply (wp_release_frame (Fprocs :: [Fcons; Fout]) _ _ s); [done..|]. intros F2. kstep.
  set (s2 := rel (LCons (tty_active t)) s1) in *.
  assert (bframe tty_frame s s2) as B2 by (split; [by apply (frame_more [Fprocs; Fcons; Fout])|done]).
  set (l' := if (c =? Ctl 78) || _ || _ then l else key c l) in Hd1.
  assert (represents (mktty (tty_active t) (<[tty_active t := l']> (tty_lines t))) s2) as Hrp2.
  { split; cbn [tty_active tty_lines]; try done.
    - by rewrite <- (frame_get Factive _ _ _ F2 eq_refl : k_active s = k_active s2).
    - by rewrite <- (frame_get Fconsa _ _ _ F2 eq_refl : k_consa s = k_consa s2).
    - change (k_cons s2) with (k_cons s1). by rewrite Hc1, length_insert.
    - change (k_cons s2) with (k_cons s1). rewrite Hc1. by apply Forall2_insert. }
  assert (input_ok s2) as Hok2 by (by eapply input_ok_bframe).
  clearbody s2. unfold type_key in HQ. rewrite (list_alter_insert _ _ l) in HQ by done.
  destruct (Z.eqb_spec c (Ctl 78)) as [->|H78].
  { cbn [when]. unfold l' in Hrp2. cbn [orb] in Hrp2. rewrite list_insert_id in Hrp2 by done.
    eapply wp_next_active; [done..|]. intros s3 F3 Hrp3. kstep. apply HQ; [|exact Hrp3].
    etrans; [done|]. by apply bframe_frame. }
  kstep. destruct (Z.eqb_spec c (Ctl 66)) as [->|H66].
  { cbn [when]. unfold l' in Hrp2. cbn [orb] in Hrp2. rewrite list_insert_id in Hrp2 by done.
    eapply wp_prev_active; [done..|]. intros s3 F3 Hrp3. kstep. apply HQ; [|exact Hrp3].
    etrans; [done|]. by apply bframe_frame. }
  kstep. apply HQ; [done|]. unfold l' in Hrp2. cbn [orb] in Hrp2.
  destruct (c =? Ctl 80); [|done]. rewrite list_insert_id in Hrp2 by done. by destruct t.
Qed.
End typing.

(** ** Reading *)

(** What a read of at most [n] characters takes from the characters [ready]: up to and including a
    newline, or up to an end-of-file character, which only a read that has nothing before it
    consumes ([fresh]).  [None] where the reader has to wait for more. *)
Fixpoint take_line (n : nat) (fresh : bool) (ready : list Z) : option (list Z * list Z) :=
  match n with
  | O => Some ([], ready)
  | S n =>
    match ready with
    | [] => None
    | c :: rest =>
      if c =? Ctl 68 then Some ([], if fresh then rest else ready)
      else if c =? 10 then Some ([c], rest)
      else r ← take_line n false rest; Some (c :: r.1, r.2)
    end
  end.

Lemma take_line_length n : forall fresh ready bytes rest,
  take_line n fresh ready = Some (bytes, rest) -> (length bytes <= n)%nat.
Proof.
  induction n as [|n IH]; intros fresh ready bytes rest; cbn [take_line].
  - intros [= <- <-]. done.
  - destruct ready as [|c ready]; [done|]. repeat case_match; intros Hr; simplify_eq/=; try lia.
    destruct (take_line n false ready) as [[bs rs]|] eqn:E; simplify_eq/=. apply IH in E. lia.
Qed.

Section reading.
Context {EN : Env} (me : nat) (pid pt : Z) (T : table) (cons : nat).

(** The state in the loop of [consoleread], after the characters [got] were stored at [addr]. *)
Record reading (s s2 : kstate) (addr : Z) (got ready edit : list Z) (i : input) : Prop := {
  rd_frame : frame [Fcons; Fmem] s s2;
  rd_cons : k_cons s2 = <[cons := i]> (k_cons s);
  rd_ring : ring i ready edit;
  rd_stored : stored pt T (k_mem s) (k_mem s2) addr got
}.

Lemma wp_copy_char s s2 addr got ready edit i c Q :
  reading s s2 addr got ready edit i -> hart_ok (k_hart s) -> ht_proc (k_hart s) = Some me ->
  (exists p, k_procs s !! me = Some p /\ p_pagetable p = pt) ->
  0 <= addr -> addr + Z.of_nat (length got) < MAXVA -> uaddr (k_mem s) T (addr + Z.of_nat (length got)) <> 0 ->
  (forall s3, reading s s3 addr (got ++ [c]) ready edit i -> Q 0 s3) ->
  wp (either_copyout (User (addr + Z.of_nat (length got))) [c] 1) Q s2.
Proof.
  intros [F Hc R Hst] Hh Hme (p & Hp & Hpt) Ha Hmax Hmap HQ. unfold either_copyout. kstep.
  apply (wp_curproc_frame me); [by eapply hart_ok_frame| |].
  { by rewrite <- (proj1 (proj2 (frame_get Fhart _ _ _ F eq_refl))). }
  intros s3 F3. frame_use F Fprocs. frame_use F3 Fprocs. frame_use F3 Fmem. frame_use F3 Fcons.
  assert (k_procs s3 !! me = Some p) as Hp3 by congruence. kstep. rewrite bool_decide_eq_true_2 by (simpl; lia). kstep. rewrite Hpt.
  pose proof Hst as [Hrep Hsep Hview _]. rewrite Hfr1 in Hrep, Hsep, Hview.
  eapply wp_copyout; [done|done|lia|lia|lia|simpl; lia| |].
  - intros va Hva. replace va with (addr + Z.of_nat (length got)) by lia. unfold uaddr. by rewrite Hview.
  - intros s4 Hw. pose proof (wr_frame _ _ _ _ _ _ Hw) as F4. frame_use F4 Fcons. apply HQ. split.
    + etrans; [exact F|]. etrans; [apply (frame_more []); [done|exact F3]|by apply (frame_more [Fmem])].
    + congruence.
    + done.
    + eapply stored_snoc; [|exact Hw]. by rewrite <- Hfr1.
Qed.

(** Taking one character out of the buffer. *)
Lemma reading_take s s2 addr got c ready edit i :
  reading s s2 addr got (c :: ready) edit i -> (cons < length (k_cons s))%nat ->
  reading s (s2 <| k_cons ::= <[cons := i <| in_r ::= fun r => u32 (r + 1) |>]> |>) addr got ready edit
    (i <| in_r ::= fun r => u32 (r + 1) |>).
Proof.
  intros [F Hc R Hst] Hlt. apply ring_take in R as [R _]. split; try done.
  - etrans; [exact F|]. frame_solve.
  - kfields. rewrite Hc. by rewrite list_insert_insert_eq.
Qed.

(** Putting it back. *)
Lemma put_back (i : input) : 0 <= in_r i < 2 ^ 32 ->
  i <| in_r ::= fun r => u32 (r + 1) |> <| in_r ::= fun r => u32 (r - 1) |> = i.
Proof. intros Hr. destruct i as [bf r w e]. unfold set. simpl in *. f_equal. rsolve. Qed.

(** The loop, with [k] characters still wanted after [got]. *)
Lemma wp_read_loop s addr n edit rest :
  hart_ok (k_hart s) -> ht_proc (k_hart s) = Some me -> (cons < length (k_cons s))%nat ->
  (exists p, k_procs s !! me = Some p /\ p_pagetable p = pt) ->
  0 <= n < 2 ^ 31 -> 0 <= addr -> addr + n <= MAXVA ->
  (forall va, addr <= va < addr + n -> uaddr (k_mem s) T va <> 0) ->
  forall k got ready i bytes s2 Q,
    reading s s2 addr got ready edit i -> (k + length got)%nat = Z.to_nat n ->
    take_line k (k =? Z.to_nat n)%nat ready = Some (bytes, rest) ->
    (forall s3 i3, reading s s3 addr (got ++ bytes) rest edit i3 -> Q (Some (Z.of_nat (k - length bytes))) s3) ->
    wp (kloop (S k) (fun '(n0, dst) => read_turn cons n n0 dst) (Z.of_nat k, User (addr + Z.of_nat (length got)))) Q s2.
Proof.
  intros Hh Hme Hclt Hpr Hn Ha Hmax Hmap.
  induction k as [|k IH]; intros got ready i bytes s2 Q Hrd Hk Hline HQ.
  { simpl in Hline. injection Hline as <- <-. rewrite kloop_S. kstep. unfold read_turn at 1. kstep.
    apply (HQ s2 i). by rewrite app_nil_r. }
  rewrite kloop_S. kstep. unfold read_turn at 1. kstep. rewrite (proj2 (Z.ltb_lt 0 _)) by lia. kstep.
  destruct ready as [|c ready]; [done|]. cbn [take_line] in Hline. pose proof Hrd as [F2 Hc2 R2 Hst2].
  assert (k_cons s2 !! cons = Some i) as Hi2 by (rewrite Hc2; by apply list_lookup_insert_eq).
  rewrite kloop_S. kstep. rewrite (ring_ready _ _ _ R2). cbn [length Nat.eqb]. cbv iota. kstep.
  change (0 =? -1) with false. cbv iota. unfold in_get at 1. kstep.
  rewrite (proj2 (ring_take _ _ _ _ R2)). kstep.
  pose proof (reading_take _ _ _ _ _ _ _ _ Hrd Hclt) as Hrd'.
  destruct (Z.eqb_spec c (Ctl 68)) as [->|Hc4].
  { rewrite !u32_small by lia.
    destruct (Nat.eqb_spec (S k) (Z.to_nat n)) as [Hfr|Hfr]; injection Hline as <- <-;
      rewrite Nat.sub_0_r, app_nil_r in HQ.
    - rewrite (proj2 (Z.ltb_ge _ _)) by lia. kstep. by eapply HQ.
    - rewrite (proj2 (Z.ltb_lt _ _)) by lia. kstep. apply (HQ _ i). split; [..|done].
      + etrans; [exact F2|]. frame_solve.
      + kfields. rewrite Hc2, !list_insert_insert_eq. by rewrite (put_back i) by apply (rg_r _ _ _ R2).
      + done. }
  kstep. eapply wp_copy_char; [exact Hrd'|done|done|done|done|lia|apply Hmap; lia|]. intros s3 Hrd3.
  change (0 =? -1) with false. cbv iota.
  destruct (Z.eqb_spec c 10) as [->|Hc10].
  { injection Hline as <- <-. kstep. simpl (length [10]) in HQ. replace (Z.of_nat (S k) - 1) with (Z.of_nat (S k - 1)) by lia.
    by eapply HQ. }
  kstep. destruct (take_line k false ready) as [[bs rs]|] eqn:Hrest; [|done]. injection Hline as <- <-.
  replace (Z.of_nat (S k) - 1, place_add (User (addr + Z.of_nat (length got))) 1)
    with (Z.of_nat k, User (addr + Z.of_nat (length (got ++ [c])))).
  2:{ rewrite length_app. simpl length. unfold place_add. rewrite u64_small by (revert Hmax; consts; lia). f_equal; [lia|]. f_equal. lia. }
  eapply (IH _ _ _ bs); [exact Hrd3|rewrite length_app; simpl; lia| |].
  - rewrite (proj2 (Nat.eqb_neq k _)) by lia. exact Hrest.
  - intros s4 i4 Hrd4. rewrite <- app_assoc in Hrd4. apply (HQ _ _ Hrd4).
Qed.

Lemma wp_consoleread addr n ready edit bytes rest i Q s :
  thread_ok me pid s -> user_mem me pt T s -> k_locks s !! LCons cons = None ->
  k_cons s !! cons = Some i -> ring i ready edit -> 0 <= n < 2 ^ 31 ->
  take_line (Z.to_nat n) true ready = Some (bytes, rest) ->
  0 <= addr -> addr + n <= MAXVA -> (forall va, addr <= va < addr + n -> uaddr (k_mem s) T va <> 0) ->
  (forall s' i', frame [Fcons; Fmem] s s' -> k_cons s' = <[cons := i']> (k_cons s) -> ring i' rest edit ->
     stored pt T (k_mem s) (k_mem s') addr bytes -> Q (Z.of_nat (length bytes)) s') ->
  wp (consoleread cons (User addr) n) Q s.
Proof.
  intros Ht Hu Hl Hi R Hn Htl Ha Hmax Hmap HQ. unfold consoleread. kstep.
  apply wp_acquire; [apply Ht|done|]. kstep. destruct Hu as [Hpr Hrep Hsep].
  pose proof (take_line_length _ _ _ _ _ Htl) as Hlen.
  replace (n, User addr) with (Z.of_nat (Z.to_nat n), User (addr + Z.of_nat (@length Z []))).
  2:{ simpl. rewrite Z2Nat.id, Z.add_0_r by lia. done. }
  eapply (wp_read_loop (acq (LCons cons) s)); try done.
  - by apply hart_ok_hpush, Ht.
  - apply Ht.
  - by eapply lookup_lt_Some.
  - split; [reflexivity| |exact R|by apply stored_nil]. by rewrite list_insert_id.
  - rewrite Nat.eqb_refl. exact Htl.
  - intros s3 i3 [F3 Hc3 R3 Hst3]. simpl in *. kstep.
    apply (wp_release_frame [Fcons; Fmem] _ _ s); [apply Ht|done|done|done|done|]. intros F4. kstep.
    replace (i32 (n - Z.of_nat (Z.to_nat n - length bytes))) with (Z.of_nat (length bytes)) by (rewrite i32_small; lia).
    by apply (HQ _ i3).
Qed.

(** A read from a console returns the next line typed there: the characters ready at the console up to and including the first newline, at most [n] of them, stop short of an end-of-file character, are stored at [addr] in the reader's memory, in order, and nothing else of that memory changes; they are gone from the console afterwards, whose unfinished line stays as it was. An end-of-file character is consumed only by a read that returns nothing else. *)
Theorem consoleread_line addr n ready edit bytes rest i s :
  thread_ok me pid s -> user_mem me pt T s -> k_locks s !! LCons cons = None ->
  k_cons s !! cons = Some i -> holds i (ready, edit) -> 0 <= n < 2 ^ 31 ->
  take_line (Z.to_nat n) true ready = Some (bytes, rest) ->
  0 <= addr -> addr + n <= MAXVA -> (forall va, addr <= va < addr + n -> uaddr (k_mem s) T va <> 0) ->
  wp (consoleread cons (User addr) n) (fun r s' =>
    r = Z.of_nat (length bytes) /\ stored pt T (k_mem s) (k_mem s') addr bytes /\
    (exists i', k_cons s' = <[cons := i']> (k_cons s) /\ holds i' (rest, edit)) /\
    frame [Fcons; Fmem] s s') s.
Proof.
  intros Ht Hu Hl Hi [R Hnl] Hn Htl Ha Hmax Hmap.
  eapply wp_consoleread; try done. intros s' i' F Hc R' Hst. split_and!; try done. by exists i'.
Qed.
End reading.

Section typed.
Context {EN : Env}.

(** C15. The interrupt handler implements the line editor: from consoles that hold what [t] says, the characters the uart delivers leave them holding what typing those characters one by one makes of [t]. A plain character is appended to the line of the active console; backspace and delete take the last one back, control-U the whole line, never more than the unfinished line; newline, end-of-file or a full buffer finishes the line; control-N and control-B go to the next and the previous console, round the ten of them. The other consoles, the processes (but for those woken up) and all other state stay as they are. *)
Theorem uartintr_refines t input s :
  input_ok s -> represents t s -> Forall byte input ->
  wp (uartintr input) (fun _ s' =>
    represents (foldl type_key t input) s' /\ input_ok s' /\ bframe tty_frame s s') s.
Proof.
  intros Hok Hrp Hin. unfold uartintr.
  apply (wp_kfor (fun pre s' => represents (foldl type_key t pre) s' /\ input_ok s' /\ bframe tty_frame s s')).
  - done.
  - intros pre c post s2 -> (Hrp2 & Hok2 & B2). rewrite Forall_app, Forall_cons in Hin. destruct Hin as (_ & Hc & _).
    eapply wp_consoleintr; [done|done|done|]. intros s3 B3 Hrp3. rewrite foldl_app. split_and!; [done| |by etrans].
    by eapply input_ok_bframe.
  - done.
Qed.
End typed.

(** ** Example: ["lx", backspace, "s", newline] at console 1 *)

Section example.
#[local] Existing Instance small_machine.

Definition typing : kstate := small_boot <| k_consa := Some 1%nat |>.
Definition idle_tty : tty := mktty 1 (replicate 10 ([], [])).

Lemma zero_ring : ring zero_input [] [].
Proof. split; simpl; try done; lia. Qed.

Lemma typing_ok : input_ok typing.
Proof.
  split; try done.
  apply Forall_lookup. intros j p Hp. simpl in Hp. apply list_elem_of_lookup_2 in Hp.
  apply (bool_decide_unpack _). revert p Hp. apply Forall_forall. apply (bool_decide_unpack _). by vm_compute.
Qed.

Lemma typing_idle : represents idle_tty typing.
Proof.
  split; [done|done|vm_compute; lia|done|]. simpl. apply (Forall2_replicate _ 10 zero_input ([], [])). split; [apply zero_ring|done].
Qed.

Lemma uartintr_refines_witness :
  wp (uartintr [108; 120; 127; 115; 13]) (fun _ s' =>
    represents (mktty 1 (([], []) :: ([108; 115; 10], []) :: replicate 8 ([], []))) s' /\ input_ok s' /\
    bframe tty_frame typing s') typing.
Proof.
  apply (uartintr_refines idle_tty [108; 120; 127; 115; 13] typing); [apply typing_ok|apply typing_idle|].
  repeat constructor; lia.
Defined.

(** A line typed ahead, with the start of the next one. *)
Definition typed_input : input := mkinput ([108; 115; 10; 112] ++ replicate 124 0) 0 3 4.
Definition typed_ahead : kstate := one_pipe <| k_cons ::= <[1%nat := typed_input]> |>.

Lemma typed_holds : holds typed_input ([108; 115; 10], [112]).
Proof.
  split; [|by repeat constructor]. split; [done|done|done|done|vm_compute; lia|].
  intros j c Hj. do 4 (destruct j as [|j]; [by simplify_eq/=|]). done.
Qed.

Lemma consoleread_line_witness :
  wp (consoleread 1 (User 50) 100) (fun r s' =>
    r = 3 /\ stored page_a tree (k_mem typed_ahead) (k_mem s') 50 [108; 115; 10] /\
    (exists i', k_cons s' = <[1%nat := i']> (k_cons typed_ahead) /\ holds i' ([], [112])) /\
    frame [Fcons; Fmem] typed_ahead s') typed_ahead.
Proof.
  apply (consoleread_line 0 1 page_a tree 1 50 100 [108; 115; 10] [112] [108; 115; 10] [] typed_input typed_ahead);
    try done.
  - by split; [..|eexists; split| | | |]; try split.
  - split; [by eexists|apply one_page_rep|apply one_page_sep].
  - apply typed_holds.
  - intros. apply one_page_mapped. lia.
Defined.
End example.
