(* ===== verification/Process.v ===== *)
(** Life of a process ([kernel/proc.c]) and the images it runs ([kernel/exec.c]): the first process,
    [fork], [exit], [wait], the process listing, suspending a process to a file and resuming
    it, and [exec].

    A [struct trapframe] is the 288 bytes at [p->tf].  [argv] of [exec] is the list of the kernel pages
    that hold the argument strings, up to the null pointer.  What the stack holds where the code leaves
    a variable unset is an argument ([junk]). *)
From S2P Require Import Prelude Types Kstate Cstring Spinlock Frame Printf Accounting Kalloc Vm Proc Console Bio Log Fs File.
From stdpp Require Import base numbers list gmap strings.
From Stdlib Require Import ZArith Lia.

Local Open Scope Z_scope.
Local Open Scope xv6_scope.

Definition TF_SIZE : Z := 288.
Definition TF_kernel_satp : Z := 0.
Definition TF_kernel_sp : Z := 8.
Definition TF_kernel_trap : Z := 16.
Definition TF_epc : Z := 24.
Definition TF_kernel_hartid : Z := 32.
Definition TF_sp : Z := 48.
Definition TF_a0 : Z := 112.
Definition TF_a1 : Z := 120.
Definition TF_a7 : Z := 168.

Definition initcode : list Z :=
  [0x17; 0x05; 0x00; 0x00; 0x13; 0x05; 0x05; 0x02;
   0x97; 0x05; 0x00; 0x00; 0x93; 0x85; 0x05; 0x02;
   0x9d; 0x48; 0x73; 0x00; 0x00; 0x00; 0x89; 0x48;
   0x73; 0x00; 0x00; 0x00; 0xef; 0xf0; 0xbf; 0xff;
   0x2f; 0x69; 0x6e; 0x69; 0x74; 0x00; 0x00; 0x01;
   0x20; 0x00; 0x00; 0x00; 0x00; 0x00; 0x00; 0x00;
   0x00; 0x00; 0x00].

(** [struct elfhdr] and [struct proghdr] as read from a file. *)
Record elfhdr := mkelf { elf_magic : Z; elf_entry : Z; elf_phoff : Z; elf_phnum : Z }.
Definition ELF_MAGIC : Z := 0x464C457F.
Definition elf_of (bytes : list Z) : elfhdr :=
  mkelf (load 4 0 bytes) (load 8 24 bytes) (load 8 32 bytes) (load 2 56 bytes).

Record proghdr := mkph { ph_type : Z; ph_off : Z; ph_vaddr : Z; ph_filesz : Z; ph_memsz : Z }.
Definition ELF_PROG_LOAD : Z := 1.
Definition ph_of (bytes : list Z) : proghdr :=
  mkph (load 4 0 bytes) (load 8 8 bytes) (load 8 16 bytes) (load 8 32 bytes) (load 8 40 bytes).

(** [struct resumehdr]: [mem_sz], [code_sz], [stack_sz] and [tracing] are [int]s. *)
Record resumehdr := mkresumehdr { hd_mem_sz : Z; hd_code_sz : Z; hd_stack_sz : Z; hd_tracing : Z; hd_name : list Z }.
Definition resumehdr_size : Z := 32.
Definition resumehdr_bytes (h : resumehdr) : list Z :=
  le_bytes 4 (hd_mem_sz h) ++ le_bytes 4 (hd_code_sz h) ++ le_bytes 4 (hd_stack_sz h) ++
  le_bytes 4 (hd_tracing h) ++ hd_name h.
Definition resumehdr_of (bytes : list Z) : resumehdr :=
  mkresumehdr (i32 (load 4 0 bytes)) (i32 (load 4 4 bytes)) (i32 (load 4 8 bytes)) (i32 (load 4 12 bytes))
    (slice 16 16 bytes).

(** [struct pdata] of [pinfo.h]: pid 0, local_pid 4, mem 8, name 12, contname 28. *)
Definition PDATA_SIZE : nat := 44.
Definition PINFO_SIZE : Z := 64 * 44 + 4.

(** The part of a path after its last ['/']. *)
Fixpoint last_elem (last s : list Z) : list Z :=
  match s with
  | [] => last
  | c :: s' => if c =? 0 then last else if c =? 47 then last_elem s' s' else last_elem last s'
  end.

Section process.
Context `{Env}.

(** ** The first process *)

Definition userprocinit (c : nat) : K unit :=
  r ← allocproc c;
  modify (set k_initproc (fun _ => r));;
  i ← deref r;
  p ← get_proc i;
  uvminit (p_pagetable p) initcode (Z.of_nat (length initcode));;
  upd_proc i (set p_sz (fun _ => PGSIZE));;
  write64 (p_tf p + TF_epc) 0;;
  write64 (p_tf p + TF_sp) PGSIZE;;
  name ← deref (safestrcpy (p_name p) (lit "initcode") 16);
  upd_proc i (set p_name (fun _ => name));;
  cont ← get_cont c;
  rootdir ← deref (c_rootdir cont);
  cwd ← idup rootdir;
  upd_proc i (set p_cwd (fun _ => Some cwd));;
  upd_proc i (set p_state (fun _ => RUNNABLE));;
  upd_proc i (set p_cont (fun _ => Some c));;
  release (LProc i).

(** ** fork *)

(** With a container the child belongs to it and is init's; without one it is the caller's. *)
Definition dup_files (p : proc) (j : nat) : K unit :=
  kfor (seq 0 NOFILE) (fun k =>
    f ← deref (p_ofile p !! k);
    match f with
    | Some f => f ← filedup f; upd_proc j (set p_ofile <[k := Some f]>)
    | None => mret tt
    end).

(** The part of [fork] after [uvmcopy]: the child in slot [j] gets what [p] has. *)
Definition fork_child (p : proc) (parent cwd : option nat) (j : nat) : K Z :=
  np ← get_proc j;
  upd_proc j (set p_sz (fun _ => p_sz p));;
  upd_proc j (set p_parent (fun _ => parent));;
  tf ← read_phys (p_tf p) (Z.to_nat TF_SIZE);
  write_phys (p_tf np) tf;;
  write64 (p_tf np + TF_a0) 0;;
  dup_files p j;;
  cwd ← deref cwd;
  cwd ← idup cwd;
  upd_proc j (set p_cwd (fun _ => Some cwd));;
  np ← get_proc j;
  name ← deref (safestrcpy (p_name np) (p_name p) 16);
  upd_proc j (set p_name (fun _ => name));;
  np ← get_proc j;
  let pid := p_pid np in
  upd_proc j (set p_state (fun _ => RUNNABLE));;
  release (LProc j);;
  np ← get_proc j;
  r ← updatecontproc 1 (p_cont np);
  if r <? 0 then
    printf "Too many process in container \n" [];;
    np ← get_proc j;
    climitexceedhandler (p_cont np);;
    mret pid
  else mret pid.

Definition fork (c : option nat) : K Z :=
  i ← curproc;
  p ← get_proc i;
  initproc ← gets k_initproc;
  let '(cwd, cont, parent) :=
    match c with
    | None => (mret (p_cwd p), p_cont p, Some i)
    | Some k => (ct ← get_cont k; mret (c_rootdir ct), Some k, initproc)
    end in
  cwd ← cwd;
  cont ← deref cont;
  r ← allocproc cont;
  match r with
  | None => mret (-1)
  | Some j =>
    np ← get_proc j;
    r ← uvmcopy (p_pagetable p) (p_pagetable np) (p_sz p);
    if r <? 0 then
      freeproc j;;
      release (LProc j);;
      mret (-1)
    else fork_child p parent cwd j
  end.

(** ** exit and wait *)

Definition reparent (p : nat) : K unit :=
  kfor (seq 0 NPROC) (fun i =>
    pp ← get_proc i;
    when (bool_decide (p_parent pp = Some p))
      (acquire (LProc i);;
       initproc ← gets k_initproc;
       upd_proc i (set p_parent (fun _ => initproc));;
       release (LProc i))).

Definition exit {A} (status : Z) : K A :=
  i ← curproc;
  initproc ← gets k_initproc;
  (if bool_decide (initproc = Some i) then panic "init exiting" else mret tt);;
  kfor (seq 0 NOFILE) (fun fd =>
    p ← get_proc i;
    f ← deref (p_ofile p !! fd);
    match f with
    | Some f => fileclose f;; upd_proc i (set p_ofile <[fd := None]>)
    | None => mret tt
    end);;
  begin_op;;
  p ← get_proc i;
  cwd ← deref (p_cwd p);
  iput cwd;;
  end_op;;
  upd_proc i (set p_cwd (fun _ => None));;
  initproc ← gets k_initproc;
  init ← deref initproc;
  acquire (LProc init);;
  wakeup1 init;;
  release (LProc init);;
  acquire (LProc i);;
  p ← get_proc i;
  release (LProc i);;
  original_parent ← deref (p_parent p);
  acquire (LProc original_parent);;
  acquire (LProc i);;
  reparent i;;
  wakeup1 original_parent;;
  upd_proc i (set p_xstate (fun _ => status));;
  upd_proc i (set p_state (fun _ => ZOMBIE));;
  release (LProc original_parent);;
  sched;;
  panic "zombie exit".

(** The scan of the table: [inl] the loop ended with this [havekids], [inr] [wait] returns this. *)
Definition wait_scan (i : nat) (addr : Z) : K (bool + Z) :=
  kloop (S NPROC) (fun '(k, havekids) =>
    if (k <? NPROC)%nat then
      np ← get_proc k;
      if bool_decide (p_parent np = Some i) then
        acquire (LProc k);;
        np ← get_proc k;
        if bool_decide (p_state np = ZOMBIE) then
          let pid := p_pid np in
          p ← get_proc i;
          r ← (if negb (addr =? 0) then copyout (p_pagetable p) addr (le_bytes 4 (p_xstate np)) 4 else mret 0);
          if r <? 0 then
            release (LProc k);;
            release (LProc i);;
            mret (inr (inr (-1)))
          else
            freeproc k;;
            release (LProc k);;
            release (LProc i);;
            mret (inr (inr pid))
        else release (LProc k);; mret (inl (S k, true))
      else mret (inl (S k, havekids))
    else mret (inr (inl havekids))) (0%nat, false).

Definition wait (addr : Z) : K Z :=
  i ← curproc;
  acquire (LProc i);;
  kloop (S env_patience) (fun _ : unit =>
    r ← wait_scan i addr;
    match r with
    | inr pid => mret (inr pid)
    | inl havekids =>
      p ← get_proc i;
      if negb havekids || negb (p_killed p =? 0) then
        release (LProc i);;
        mret (inr (-1))
      else sleep (CProc i) (LProc i);; mret (inl tt)
    end) tt.

(** ** Listing processes *)

(** Stores [bytes] at [off] of entry [k] of [pd_array]. *)
Definition put_pdata (k off : nat) (bytes psinfo : list Z) : list Z := splice (k * PDATA_SIZE + off) bytes psinfo.

(** [strncpy] into a [char[16]] at [off] of entry [k]. *)
Definition put_pname (k off : nat) (name psinfo : list Z) : K (list Z) :=
  bytes ← deref (strncpy (slice (k * PDATA_SIZE + off) 16 psinfo) name 16);
  mret (put_pdata k off bytes psinfo).

Definition kpinfo (info_p : Z) (junk : list Z) : K Z :=
  me ← curproc;
  p ← get_proc me;
  c ← deref (p_cont p);
  cont ← get_cont c;
  let isroot := c_isroot cont in
  r ← kfold (seq 0 NPROC) (fun '(count, psinfo) i =>
    acquire (LProc i);;
    p ← get_proc i;
    r ← (if negb (isroot =? 0) then
           if bool_decide (p_state p = UNUSED) then mret (count, psinfo)
           else
             pc ← deref (p_cont p);
             pcont ← get_cont pc;
             if bool_decide (c_state pcont <> CUNUSED /\ c_state pcont <> CSTOPPED) then
               let psinfo := put_pdata count 0 (le_bytes 4 (p_pid p)) psinfo in
               psinfo ← put_pname count 12 (p_name p) psinfo;
               let psinfo := put_pdata count 8 (le_bytes 4 (p_sz p)) psinfo in
               let psinfo := put_pdata count 4 (le_bytes 4 (p_local_pid p)) psinfo in
               psinfo ← put_pname count 28 (c_name pcont) psinfo;
               mret (S count, psinfo)
             else mret (count, psinfo)
         else
           me ← curproc;
           mine ← get_proc me;
           if bool_decide (p_cont p = p_cont mine /\ p_state p <> UNUSED) then
             psinfo ← put_pname count 12 (p_name p) psinfo;
             let psinfo := put_pdata count 8 (le_bytes 4 (p_sz p)) psinfo in
             let psinfo := put_pdata count 4 (le_bytes 4 (p_local_pid p)) psinfo in
             mret (S count, psinfo)
           else mret (count, psinfo));
    let '(count, psinfo) := r in
    let psinfo := put_pdata 64 0 (le_bytes 4 (Z.of_nat count)) psinfo in
    release (LProc i);;
    mret (count, psinfo)) (0%nat, take (Z.to_nat PINFO_SIZE) junk);
  me ← curproc;
  p ← get_proc me;
  copyout (p_pagetable p) info_p r.2 PINFO_SIZE;;
  mret (if negb (isroot =? 0) then 6 else 0).

(** ** Suspending to a file *)

Definition ksuspend (pid : Z) (f : nat) : K Z :=
  r ← kfind (seq 0 NPROC) (fun i =>
    p ← get_proc i;
    if negb (p_pid p =? pid) then mret None
    else
      acquire (LProc i);;
      upd_proc i (set p_state (fun _ => SUSPENDED));;
      release (LProc i);;
      p ← get_proc i;
      name ← deref (strncpy (replicate 16 0) (p_name p) 16);
      let hdr := mkresumehdr (i32 (p_sz p)) (i32 (p_sz p - 2 * PGSIZE)) PGSIZE (p_tracing p) name in
      me ← curproc;
      mine ← get_proc me;
      let tmp := p_pagetable mine in
      upd_proc me (set p_pagetable (fun _ => p_pagetable p));;
      filewritefromkernel f (Local (resumehdr_bytes hdr)) resumehdr_size;;
      filewritefromkernel f (Phys (p_tf p)) TF_SIZE;;
      filewrite f 0 (hd_code_sz hdr);;
      filewrite f (u64 (i32 (hd_code_sz hdr + PGSIZE))) PGSIZE;;
      me ← curproc;
      upd_proc me (set p_pagetable (fun _ => tmp));;
      mret (Some 1));
  match r with
  | Some r => mret r
  | None => printf "invalid process id\n" [];; mret 0
  end.

(** ** Loading an image *)

Definition loadseg (pagetable va : Z) (ip : nat) (offset sz : Z) : K Z :=
  (if negb (va mod PGSIZE =? 0) then panic "loadseg: va must be page aligned" else mret tt);;
  kloop (S (Z.to_nat ((sz + PGSIZE - 1) / PGSIZE))) (fun i =>
    if i <? sz then
      pa ← walkaddr pagetable (u64 (va + i));
      (if pa =? 0 then panic "loadseg: address should exist" else mret tt);;
      let n := if sz - i <? PGSIZE then sz - i else PGSIZE in
      r ← readi ip (Phys pa) (u32 (offset + i)) n;
      if negb (u32 r.1 =? n) then mret (inr (-1))
      else mret (inl (u32 (i + PGSIZE)))
    else mret (inr 0)) 0.

(** The label [bad] while [ip] is locked, with [pagetable] allocated up to [sz]. *)
Definition image_bad (ip : nat) (pagetable sz : Z) : K Z :=
  when (negb (pagetable =? 0)) (proc_freepagetable pagetable sz);;
  iunlockput ip;;
  end_op;;
  mret (-1).

Definition kresume (path : list Z) : K Z :=
  i ← curproc;
  p ← get_proc i;
  let oldsz := p_sz p in
  begin_op;;
  r ← namei path;
  match r with
  | None => end_op;; mret (-1)
  | Some ip =>
    ilock (Some ip);;
    r ← readi ip (Local (replicate 32 0)) 0 resumehdr_size;
    if negb (r.1 =? resumehdr_size) then image_bad ip 0 0
    else
    let hdr := resumehdr_of r.2 in
    let pg_begin := resumehdr_size in
    r ← readi ip (Phys (p_tf p)) (u32 pg_begin) TF_SIZE;
    if u64 r.1 <? TF_SIZE then image_bad ip 0 0
    else
    let pg_begin := pg_begin + TF_SIZE in
    pagetable ← proc_pagetable i;
    if pagetable =? 0 then image_bad ip 0 0
    else
    sz ← uvmalloc pagetable 0 (u64 (hd_code_sz hdr));
    if sz =? 0 then image_bad ip pagetable 0
    else
    r ← loadseg pagetable 0 ip (u32 pg_begin) (u32 (hd_code_sz hdr));
    if r <? 0 then image_bad ip pagetable sz
    else
    let pg_begin := i32 (pg_begin + hd_code_sz hdr) in
    let sz := PGROUNDUP sz in
    sz ← uvmalloc pagetable sz (u64 (sz + 2 * PGSIZE));
    if sz =? 0 then image_bad ip pagetable 0
    else
    uvmclear pagetable (u64 (sz - 2 * PGSIZE));;
    r ← loadseg pagetable (u64 (i32 (hd_code_sz hdr + PGSIZE))) ip (u32 pg_begin) PGSIZE;
    if r <? 0 then image_bad ip pagetable sz
    else
    iunlockput ip;;
    p ← get_proc i;
    name ← deref (strncpy (p_name p) (hd_name hdr) 16);
    upd_proc i (set p_name (fun _ => name));;
    let oldpagetable := p_pagetable p in
    upd_proc i (fun p => p <| p_pagetable := pagetable |> <| p_sz := sz |> <| p_tracing := hd_tracing hdr |>);;
    proc_freepagetable oldpagetable oldsz;;
    mret 0
  end.

(** The loop over the program headers: [inl sz] goes to [bad], [inr sz] is the size loaded. *)
Definition exec_load (ip : nat) (pagetable : Z) (elf : elfhdr) : K (Z + Z) :=
  kloop (S (Z.to_nat (elf_phnum elf))) (fun '(i, off, sz) =>
    if i <? elf_phnum elf then
      r ← readi ip (Local (replicate 56 0)) (u32 off) 56;
      if negb (r.1 =? 56) then mret (inr (inl sz))
      else
      let ph := ph_of r.2 in
      if negb (ph_type ph =? ELF_PROG_LOAD) then mret (inl (i + 1, i32 (off + 56), sz))
      else if ph_memsz ph <? ph_filesz ph then mret (inr (inl sz))
      else if u64 (ph_vaddr ph + ph_memsz ph) <? ph_vaddr ph then mret (inr (inl sz))
      else
      sz ← uvmalloc pagetable sz (u64 (ph_vaddr ph + ph_memsz ph));
      if sz =? 0 then mret (inr (inl sz))
      else if negb (ph_vaddr ph mod PGSIZE =? 0) then mret (inr (inl sz))
      else
      r ← loadseg pagetable (ph_vaddr ph) ip (u32 (ph_off ph)) (u32 (ph_filesz ph));
      if r <? 0 then mret (inr (inl sz))
      else mret (inl (i + 1, i32 (off + 56), sz))
    else mret (inr (inr sz))) (0, i32 (elf_phoff elf), 0).

(** The loop that pushes the argument strings: [None] goes to [bad], otherwise the stack pointer and
    [ustack[0..argc)]. *)
Definition push_args (pagetable stackbase : Z) (argv : list Z) (sp : Z) : K (option (Z * list Z)) :=
  kloop (S (length argv)) (fun '(args, sp, ustack) =>
    match args with
    | [] => mret (inr (Some (sp, ustack)))
    | a :: args =>
      if MAXARG <=? Z.of_nat (length ustack) then mret (inr None)
      else
      s ← get_page a;
      len ← deref (strlen s);
      let sp := u64 (sp - (len + 1)) in
      let sp := sp - sp mod 16 in
      if sp <? stackbase then mret (inr None)
      else
      r ← copyout pagetable sp s (len + 1);
      if r <? 0 then mret (inr None)
      else mret (inl (args, sp, ustack ++ [sp]))
    end) (argv, sp, []).

Definition exec (path : list Z) (argv : list Z) : K Z :=
  i ← curproc;
  begin_op;;
  r ← namei path;
  match r with
  | None => end_op;; mret (-1)
  | Some ip =>
    ilock (Some ip);;
    r ← readi ip (Local (replicate 64 0)) 0 64;
    if negb (r.1 =? 64) then image_bad ip 0 0
    else
    let elf := elf_of r.2 in
    if negb (elf_magic elf =? ELF_MAGIC) then image_bad ip 0 0
    else
    pagetable ← proc_pagetable i;
    if pagetable =? 0 then image_bad ip 0 0
    else
    r ← exec_load ip pagetable elf;
    match r with
    | inl sz => image_bad ip pagetable sz
    | inr sz =>
      iunlockput ip;;
      end_op;;
      i ← curproc;
      p ← get_proc i;
      let oldsz := p_sz p in
      let sz := PGROUNDUP sz in
      sz ← uvmalloc pagetable sz (u64 (sz + 2 * PGSIZE));
      if sz =? 0 then proc_freepagetable pagetable 0;; mret (-1)
      else
      uvmclear pagetable (u64 (sz - 2 * PGSIZE));;
      let stackbase := u64 (sz - PGSIZE) in
      r ← push_args pagetable stackbase argv sz;
      match r with
      | None => proc_freepagetable pagetable sz;; mret (-1)
      | Some (sp, ustack) =>
        let argc := Z.of_nat (length ustack) in
        let sp := u64 (sp - (argc + 1) * 8) in
        let sp := sp - sp mod 16 in
        if sp <? stackbase then proc_freepagetable pagetable sz;; mret (-1)
        else
        r ← copyout pagetable sp (concat (le_bytes 8 <$> ustack ++ [0])) ((argc + 1) * 8);
        if r <? 0 then proc_freepagetable pagetable sz;; mret (-1)
        else
        p ← get_proc i;
        write64 (p_tf p + TF_a1) sp;;
        name ← deref (safestrcpy (p_name p) (last_elem path path) 16);
        upd_proc i (set p_name (fun _ => name));;
        let oldpagetable := p_pagetable p in
        upd_proc i (fun p => p <| p_pagetable := pagetable |> <| p_sz := sz |>);;
        write64 (p_tf p + TF_epc) (elf_entry elf);;
        write64 (p_tf p + TF_sp) sp;;
        proc_freepagetable oldpagetable oldsz;;
        mret (i32 argc)
      end
    end
  end.
End process.
