(* ===== verification/Fork.v ===== *)
(** [fork] of [kernel/proc.c]: the new process is a copy of its caller. *)
From S2P Require Import Prelude Types Kstate Cstring Spinlock Frame Printf Accounting Kalloc Vm Pagetable Uvm Proc Procalloc Copy Console Fs File Process.
From stdpp Require Import base numbers list gmap strings.
From Stdlib Require Import ZArith Lia.

Local Open Scope Z_scope.
Local Open Scope xv6_scope.

(** ** Reference counts of open files *)

(** How many of the descriptors [fds] refer to file [f]. *)
Definition uses (f : nat) (fds : list (option nat)) : Z := Z.of_nat (length (filter (.= Some f) fds)).

(** The file table when each of the descriptors [fds] has been duplicated. *)
Definition dup_refs (fds : list (option nat)) (files : list file) : list file :=
  imap (fun f x => x <| f_ref := f_ref x + uses f fds |>) files.

Lemma uses_snoc f fds d : uses f (fds ++ [d]) = uses f fds + (if bool_decide (d = Some f) then 1 else 0).
Proof.
  unfold uses. rewrite filter_app, length_app. rewrite filter_cons, filter_nil. case_bool_decide.
  - rewrite decide_True by done. simpl. lia.
  - rewrite decide_False by done. simpl. lia.
Qed.

Lemma uses_le f fds : 0 <= uses f fds <= Z.of_nat (length fds).
Proof. unfold uses. pose proof (length_filter (.= Some f) fds). lia. Qed.

Lemma dup_refs_nil files : dup_refs [] files = files.
Proof.
  unfold dup_refs. apply list_eq. intros f. rewrite list_lookup_imap. destruct (files !! f) as [[]|]; simpl; [|done].
  unfold uses, set. simpl. by rewrite Z.add_0_r.
Qed.

Lemma dup_refs_None fds files : dup_refs (fds ++ [None]) files = dup_refs fds files.
Proof.
  unfold dup_refs. apply imap_ext. intros f x _. rewrite uses_snoc, bool_decide_eq_false_2 by done. by rewrite Z.add_0_r.
Qed.

Lemma dup_refs_Some fds f x files : files !! f = Some x ->
  dup_refs (fds ++ [Some f]) files = <[f := x <| f_ref := f_ref x + uses f fds + 1 |>]> (dup_refs fds files).
Proof.
  intros Hx. unfold dup_refs. apply list_eq. intros g. rewrite list_lookup_insert, !list_lookup_imap, length_imap.
  destruct (decide (f = g)) as [<-|Hne].
  - rewrite decide_True by (split; [done|by eapply lookup_lt_Some]). rewrite Hx. simpl.
    rewrite uses_snoc, bool_decide_eq_true_2 by done. f_equal. unfold set. simpl. f_equal. lia.
  - rewrite decide_False by naive_solver. destruct (files !! g); simpl; [|done].
    rewrite uses_snoc, bool_decide_eq_false_2 by congruence. by rewrite Z.add_0_r.
Qed.

(** The descriptors refer to open files whose counts can be raised. *)
Definition fds_ok (fds : list (option nat)) (files : list file) : Prop :=
  forall f, Some f ∈ fds -> exists x, files !! f = Some x /\ 1 <= f_ref x < 2 ^ 31 - 1 - Z.of_nat NOFILE.

Lemma wp_filedup f x Q s :
  hart_ok (k_hart s) -> k_locks s !! LFtable = None -> k_files s !! f = Some x -> 1 <= f_ref x < 2 ^ 31 - 1 ->
  (forall s', frame [Ffiles] s s' -> k_files s' = <[f := x <| f_ref := f_ref x + 1 |>]> (k_files s) -> Q f s') ->
  wp (filedup f) Q s.
Proof.
  intros Hh Hl Hf Hr HQ. unfold filedup. kstep. apply wp_acquire; [done..|]. kstep.
  rewrite (proj2 (Z.ltb_ge _ _)) by lia. kstep.
  eapply (wp_release_frame [Ffiles] _ _ s); [done|done|frame_solve|done..|]. intros F. kstep.
  apply HQ; [done|]. kfields. unfold set. cbn [f_ref i_ref]. by rewrite i32_small by lia.
Qed.

Lemma wp_idup ip x Q s :
  hart_ok (k_hart s) -> k_locks s !! LIcache = None -> k_inodes s !! ip = Some x -> 0 <= i_ref x < 2 ^ 31 - 1 ->
  (forall s', frame [Finodes] s s' -> k_inodes s' = <[ip := x <| i_ref := i_ref x + 1 |>]> (k_inodes s) -> Q ip s') ->
  wp (idup ip) Q s.
Proof.
  intros Hh Hl Hf Hr HQ. unfold idup. kstep. apply wp_acquire; [done..|]. kstep.
  eapply (wp_release_frame [Finodes] _ _ s); [done|done|frame_solve|done..|]. intros F. kstep.
  apply HQ; [done|]. kfields. unfold set. cbn [f_ref i_ref]. by rewrite i32_small by lia.
Qed.

Lemma wp_dup_files p j np Q s :
  hart_ok (k_hart s) -> k_locks s !! LFtable = None -> k_procs s !! j = Some np ->
  length (p_ofile p) = NOFILE -> p_ofile np = replicate NOFILE None -> fds_ok (p_ofile p) (k_files s) ->
  (forall s', frame [Ffiles; Fprocs] s s' -> k_files s' = dup_refs (p_ofile p) (k_files s) ->
     k_procs s' = <[j := np <| p_ofile := p_ofile p |>]> (k_procs s) -> Q tt s') ->
  wp (dup_files p j) Q s.
Proof.
  intros Hh Hl Hj Hlen Hnp Hfds HQ. unfold dup_files.
  apply (wp_kfor (fun pre s' => frame [Ffiles; Fprocs] s s' /\ 
    k_files s' = dup_refs (take (length pre) (p_ofile p)) (k_files s) /\
    k_procs s' = <[j := np <| p_ofile := take (length pre) (p_ofile p) ++ replicate (NOFILE - length pre) None |>]> (k_procs s))).
  - split; [done|]. cbn [length take app]. rewrite dup_refs_nil, Nat.sub_0_r. split; [done|]. rewrite list_insert_id; [done|].
    rewrite Hj. f_equal. rewrite <- Hnp. by destruct np.
  - intros pre k post s2 Hseq (F & Hf2 & Hp2).
    assert (k = length pre /\ (length pre < NOFILE)%nat) as [-> Hk].
    { apply (f_equal (.!! length pre)) in Hseq as E. rewrite list_lookup_middle in E by done.
      apply lookup_seq in E. lia. }
    destruct (lookup_lt_is_Some_2 (p_ofile p) (length pre)) as [d Hd]; [lia|]. kstep. eapply wp_deref; [exact Hd|].
    rewrite length_app, Nat.add_1_r. rewrite (take_S_r _ _ _ Hd).
    assert (replicate (NOFILE - length pre) (None (A := nat)) = None :: replicate (NOFILE - S (length pre)) None) as Hrep.
    { by replace (NOFILE - length pre)%nat with (S (NOFILE - S (length pre))) by lia. }
    assert (j < length (k_procs s))%nat by (by eapply lookup_lt_Some).
    assert (length (take (length pre) (p_ofile p)) = length pre) as Htk by (rewrite length_take; lia).
    destruct d as [f|].
    + destruct (Hfds f) as (x & Hx & Hr); [by eapply list_elem_of_lookup_2|].
      pose proof (uses_le f (take (length pre) (p_ofile p))) as Hu. frame_use F Flocks. kstep.
      eapply (wp_filedup f (x <| f_ref := f_ref x + uses f (take (length pre) (p_ofile p)) |>)).
      * by eapply hart_ok_frame.
      * congruence.
      * rewrite Hf2. unfold dup_refs. by rewrite list_lookup_imap, Hx.
      * unfold set. cbn [f_ref]. lia.
      * intros s3 F3 Hf3. frame_use F3 Fprocs. kstep.
        eapply wp_upd_proc; [rewrite <- Hfr0, Hp2; by apply list_lookup_insert_eq|]. split_and!.
        -- etrans; [exact F|]. etrans; [by apply (frame_more [Ffiles]); [|exact F3]|frame_solve].
        -- kfields. rewrite Hf3, Hf2, (dup_refs_Some _ _ x) by done. f_equal.
        -- kfields. rewrite <- Hfr0, Hp2, list_insert_insert_eq. f_equal. unfold set. simpl. f_equal.
           rewrite Hrep, insert_app_r_alt by lia. rewrite Htk, Nat.sub_diag. simpl. by rewrite <- app_assoc.
    + kstep. split; [done|]. rewrite dup_refs_None. split; [done|]. rewrite Hp2. do 2 f_equal. unfold set. f_equal.
      rewrite Hrep. by rewrite <- app_assoc.
  - intros s' (F & Hf & Hp). rewrite length_seq, take_ge in Hf, Hp by lia. rewrite Nat.sub_diag, app_nil_r in Hp. by apply HQ.
Qed.

(** ** The child's entry *)

(** The trapframe page [bc] of the child when the registers [bp] of the parent have been copied to
    it and register a0 is zero. *)
Definition child_tf (bp bc : list Z) : list Z :=
  store 8 (Z.to_nat TF_a0) 0 (splice 0 (take (Z.to_nat TF_SIZE) bp) bc).

Definition child_of (p np : proc) (parent : option nat) (ip : nat) (name : list Z) : proc :=
  np <| p_sz := p_sz p |> <| p_parent := parent |> <| p_ofile := p_ofile p |> <| p_cwd := Some ip |>
     <| p_name := name |> <| p_state := RUNNABLE |>.

Definition fork_frame : list field := Ffiles :: Finodes :: alloc_frame.

(** State [s1], with the child in slot [j] and its lock taken in [s]. *)
Record child_ok (s s1 : kstate) (p np : proc) (ip j c : nat) (x : inode) (ct : container) (bp bc : list Z) : Prop := {
  ch_frame : frame alloc_frame (acq (LProc j) s) s1;
  ch_hart : hart_ok (k_hart s);
  ch_console : console_ok s;
  ch_free : k_locks s !! LProc j = None /\ k_locks s !! LFtable = None /\ k_locks s !! LIcache = None;
  ch_proc : k_procs s1 !! j = Some np;
  ch_files : length (p_ofile p) = NOFILE /\ p_ofile np = replicate NOFILE None /\ fds_ok (p_ofile p) (k_files s1);
  ch_cwd : p_cwd p = Some ip /\ k_inodes s1 !! ip = Some x /\ 0 <= i_ref x < 2 ^ 31 - 1;
  ch_name : length (p_name np) = 16%nat /\ 0 ∈ p_name p;
  ch_tf : p_tf p mod PGSIZE = 0 /\ k_mem s1 !! p_tf p = Some bp /\ length bp = Z.to_nat PGSIZE;
  ch_tf' : p_tf np mod PGSIZE = 0 /\ k_mem s1 !! p_tf np = Some bc /\ length bc = Z.to_nat PGSIZE;
  ch_cont : p_cont np = Some c /\ k_conts s1 !! c = Some ct /\ c_state ct <> CUNUSED /\
    0 <= c_used_proc ct < c_max_proc ct /\ c_max_proc ct < 2 ^ 31
}.

Lemma wp_copy_tf {B} a b bp bc (k : K B) Q s :
  a mod PGSIZE = 0 -> k_mem s !! a = Some bp -> length bp = Z.to_nat PGSIZE ->
  b mod PGSIZE = 0 -> k_mem s !! b = Some bc -> length bc = Z.to_nat PGSIZE ->
  wp k Q (s <| k_mem ::= <[b := child_tf bp bc]> |>) ->
  wp (read_phys a (Z.to_nat TF_SIZE)) (fun tf s => wp (write_phys b tf;; write64 (b + TF_a0) 0;; k) Q s) s.
Proof.
  intros Ha Hbp Hlp Hb Hbc Hlc HQ. unfold read_phys, write_phys, write64, write_phys.
  assert (PGROUNDDOWN (b + TF_a0) = b /\ (b + TF_a0) mod PGSIZE = TF_a0) as [Hd Hm].
  { rewrite PGROUNDDOWN_div. unfold PGSIZE, TF_a0 in *. Z.to_euclidean_division_equations. lia. }
  rewrite Hd, Hm, (PGROUNDDOWN_id a), (PGROUNDDOWN_id b), Ha, Hb by done. kstep.
  rewrite bool_decide_eq_true_2 by (rewrite Hlp; vm_compute; lia). kstep.
  assert (slice (Z.to_nat 0) (Z.to_nat TF_SIZE) bp = take (Z.to_nat TF_SIZE) bp) as Es by done. rewrite Es.
  assert (length (take (Z.to_nat TF_SIZE) bp) = Z.to_nat TF_SIZE) as Ht by (rewrite length_take, Hlp; by vm_compute).
  rewrite bool_decide_eq_true_2 by (rewrite Hlc, Ht; vm_compute; lia). kstep.
  rewrite bool_decide_eq_true_2 by (rewrite length_splice, length_le_bytes, Hlc by (rewrite Ht, Hlc; vm_compute; lia); vm_compute; lia).
  kstep. eapply eq_rect; [exact HQ|]. unfold set. cbn. rewrite insert_insert_eq. done.
Qed.

(** The end of [fork]: the child is published and its container charged for it. *)
Lemma wp_fork_publish s s1 j np c ct (pid : Z) Q :
  hart_ok (k_hart s) -> console_ok s -> k_locks s !! LProc j = None -> frame fork_frame (acq (LProc j) s) s1 ->
  k_procs s1 !! j = Some np -> p_cont np = Some c -> k_conts s1 !! c = Some ct -> c_state ct <> CUNUSED ->
  0 <= c_used_proc ct < c_max_proc ct -> c_max_proc ct < 2 ^ 31 ->
  (forall s', frame fork_frame s s' -> frame [Fhart; Flocks; Fconts; Fout] s1 s' ->
     k_conts s' = <[c := ct <| c_used_proc := c_used_proc ct + 1 |>]> (k_conts s1) -> Q pid s') ->
  wp (release (LProc j)) (fun _ s2 => wp (A := Z) (
    np ← get_proc j;
    r ← updatecontproc 1 (p_cont np);
    if r <? 0 then
      printf "Too many process in container \n" [];;
      np ← get_proc j;
      climitexceedhandler (p_cont np);;
      mret pid
    else mret pid) Q s2) s1.
Proof.
  intros Hh Hcons Hlj F Hj Hcn Hct Hcu Hused Hmax HQ.
  eapply (wp_release_frame fork_frame _ _ s); [done|done|done|done..|]. intros F1. kstep.
  rewrite Hcn. eapply (wp_updatecontproc c ct); [done|by eapply hart_ok_frame|by eapply console_ok_frame|].
  assert (charge_proc 1 ct = (1, ct <| c_used_proc := c_used_proc ct + 1 |>)) as E.
  { unfold charge_proc. rewrite bool_decide_eq_false_2, i32_small, (proj2 (Z.ltb_ge _ _)), Z.max_r by (done || lia). done. }
  rewrite E. intros s2 F2 Hc2. kstep. apply HQ; [| |done].
  - etrans; [exact F1|by apply (frame_more [Fout; Fconts])].
  - etrans; [|by apply (frame_more [Fout; Fconts])]. unfold rel. frame_solve.
Qed.

Lemma wp_fork_child s s1 p np parent ip j c x ct bp bc Q :
  child_ok s s1 p np ip j c x ct bp bc ->
  (forall s' name, frame fork_frame s s' ->
     k_procs s' = <[j := child_of p np parent ip name]> (k_procs s1) ->
     k_mem s' = <[p_tf np := child_tf bp bc]> (k_mem s1) ->
     k_files s' = dup_refs (p_ofile p) (k_files s1) ->
     k_inodes s' = <[ip := x <| i_ref := i_ref x + 1 |>]> (k_inodes s1) ->
     k_conts s' = <[c := ct <| c_used_proc := c_used_proc ct + 1 |>]> (k_conts s1) ->
     k_freelist s' = k_freelist s1 -> k_nextpid s' = k_nextpid s1 ->
     cstr name = take 15 (cstr (p_name p)) -> 0 ∈ name -> Q (p_pid np) s') ->
  wp (fork_child p parent (p_cwd p) j) Q s1.
Proof.
  intros [F Hh Hcons (Hlj & Hlf & Hli) Hj (Hlen & Hof & Hfds) (Hcwd & Hx & Hir) [Hnl Hnz] (Ha & Hbp & Hlp)
    (Hb & Hbc & Hlc) (Hcn & Hct & Hcu & Hused & Hmax)] HQ.
  assert (j < length (k_procs s1))%nat as Hjl by (by eapply lookup_lt_Some).
  unfold fork_child. kstep. eapply (wp_copy_tf _ _ bp bc); [done..|].
  match goal with |- wp _ _ ?st => set (s2 := st) end. frame_use F Flocks.
  set (n2 := np <| p_sz := p_sz p |> <| p_parent := parent |>).
  assert (k_procs s2 = <[j := n2]> (k_procs s1)) as Hp2 by (unfold s2; kfields; by rewrite list_insert_insert_eq).
  assert (frame alloc_frame (acq (LProc j) s) s2) as F2 by (etrans; [exact F|unfold s2; frame_solve]).
  assert (hart_ok (k_hart s2)) as Hh2 by (eapply hart_ok_frame; [exact F2|done|by apply hart_ok_hpush]).
  assert (k_mem s2 = <[p_tf np := child_tf bp bc]> (k_mem s1)) as Hm2 by done.
  assert (k_locks s2 !! LFtable = None /\ k_locks s2 !! LIcache = None) as [Hlf2 Hli2].
  { unfold s2. kfields. rewrite <- Hfr. by rewrite !lookup_insert_ne by done. }
  assert (frame [Fprocs; Fmem] s1 s2) as F12 by (unfold s2; frame_solve). clearbody s2.
  frame_use F12 Ffiles. frame_use F12 Finodes.
  kstep. eapply (wp_dup_files p j n2); [done|done|rewrite Hp2; by apply list_lookup_insert_eq|done|done|by rewrite <- Hfr0|].
  intros s3 F3 Hf3 Hp3. kstep. rewrite Hcwd. kstep. frame_use F3 Finodes. frame_use F3 Flocks.
  eapply (wp_idup ip x); [by eapply hart_ok_frame|congruence|congruence|done|]. intros s4 F4 Hi4. kstep.
  frame_use F4 Fprocs. assert (j < length (k_procs s4))%nat as Hj4 by (rewrite <- Hfr4, Hp3, Hp2, !length_insert; done).
  assert (k_procs s4 = <[j := n2 <| p_ofile := p_ofile p |>]> (k_procs s1)) as Hp4 by (by rewrite <- Hfr4, Hp3, Hp2, list_insert_insert_eq).
  eapply wp_upd_proc; [rewrite Hp4; by apply list_lookup_insert_eq|]. kstep.
  eapply wp_get_proc; [kfields; by apply list_lookup_insert_eq|]. unfold n2 at 1. cbn [p_name set].
  destruct (safestrcpy_spec (p_name np) (p_name p) 16) as (name & Hname & _ & Hz & Hcs); [done|by rewrite Hnl|done|].
  kstep. eapply wp_deref; [exact Hname|]. kstep.
  do 3 (first [eapply wp_upd_proc | eapply wp_get_proc]; [kfields; apply list_lookup_insert_eq; by rewrite ?length_insert|]; kstep).
  match goal with |- wp _ _ ?st => set (s5 := st) end.
  assert (k_procs s5 = <[j := child_of p np parent ip name]> (k_procs s1)) as Hp5.
  { unfold s5. kfields. rewrite Hp4, !list_insert_insert_eq. reflexivity. }
  assert (frame [Fprocs] s4 s5) as F5 by (unfold s5; frame_solve).
  assert (k_files s4 = k_files s3) as Hf43 by (symmetry; apply (frame_get Ffiles _ _ _ F4 eq_refl)).
  assert (k_files s5 = k_files s4 /\ k_inodes s5 = k_inodes s4) as [Hf54 Hi54] by done. clearbody s5.
  assert (frame [Ffiles; Finodes; Fprocs] s2 s5) as F25.
  { etrans; [by apply (frame_more [Ffiles; Fprocs])|]. etrans; [by apply (frame_more [Finodes])|].
    by apply (frame_more [Fprocs]). }
  assert (frame [Ffiles; Finodes; Fprocs; Fmem] s1 s5) as F15.
  { etrans; [by apply (frame_more [Fprocs; Fmem])|by apply (frame_more [Ffiles; Finodes; Fprocs])]. }
  frame_use F15 Fconts. frame_use F25 Fmem. frame_use F15 Ffreelist. frame_use F15 Fnextpid.
  eapply (wp_fork_publish s s5 j _ c ct); [done|done|done| |rewrite Hp5; by apply list_lookup_insert_eq|done|congruence|done..|].
  { etrans; [apply (frame_more alloc_frame); [done|exact F]|by apply (frame_more [Ffiles; Finodes; Fprocs; Fmem])]. }
  intros s6 F6 F56 Hc6. frame_use F56 Fprocs. frame_use F56 Fmem. frame_use F56 Ffiles. frame_use F56 Finodes.
  frame_use F56 Ffreelist. frame_use F56 Fnextpid. apply (HQ s6 name); [done|congruence..|done|done].
Qed.

(** Register [i] of the trapframe: the parent's, except a0. *)
Lemma child_register bp bc i :
  length bp = Z.to_nat PGSIZE -> length bc = Z.to_nat PGSIZE -> 0 <= i < TF_SIZE / 8 ->
  load 8 (Z.to_nat (8 * i)) (child_tf bp bc) = if i =? TF_a0 / 8 then 0 else load 8 (Z.to_nat (8 * i)) bp.
Proof.
  intros Hp Hc Hi. unfold child_tf. change (TF_SIZE / 8) with 36 in Hi. change (TF_a0 / 8) with 14.
  assert (length (take (Z.to_nat TF_SIZE) bp) = 288%nat) as Ht by (rewrite length_take, Hp; by vm_compute).
  assert (length (splice 0 (take (Z.to_nat TF_SIZE) bp) bc) = 4096%nat) as Hs.
  { rewrite length_splice by (rewrite Ht, Hc; vm_compute; lia). by rewrite Hc. }
  destruct (Z.eqb_spec i 14) as [->|Hne].
  - change (Z.to_nat (8 * 14)) with (Z.to_nat TF_a0). rewrite load_store_same; [done|]. rewrite Hs. vm_compute. lia.
  - rewrite load_store_ne by (rewrite ?Hs; change (Z.to_nat TF_a0) with 112%nat; lia).
    unfold load. f_equal. unfold slice, splice. rewrite take_0. cbn [app].
    rewrite drop_app_le by lia. rewrite take_app_le by (rewrite length_drop; lia).
    rewrite skipn_firstn_comm, take_take. f_equal. change (Z.to_nat TF_SIZE) with 288%nat. lia.
Qed.

Lemma length_child_tf bp bc :
  length bp = Z.to_nat PGSIZE -> length bc = Z.to_nat PGSIZE -> length (child_tf bp bc) = Z.to_nat PGSIZE.
Proof.
  intros Hp Hc. assert (length (splice 0 (take (Z.to_nat TF_SIZE) bp) bc) = Z.to_nat PGSIZE) as Hs.
  { rewrite length_splice; [done|]. rewrite length_take, Hp, Hc. vm_compute. lia. }
  unfold child_tf. rewrite length_store; [done|]. rewrite Hs. vm_compute. lia.
Qed.

Lemma ubyte_ne mem T q bs va :
  ~ in_table T q -> uaddr mem T va = 0 \/ uaddr mem T va <> q -> ubyte (<[q := bs]> mem) T va = ubyte mem T va.
Proof.
  intros Hq Hu. unfold ubyte. rewrite uaddr_data by done. destruct (Z.eqb_spec (uaddr mem T va) 0); [done|].
  destruct Hu; [done|]. by rewrite lookup_insert_ne by done.
Qed.

Lemma standing_lookup (l l' : list container) (c : nat) cont : standing <$> l' = standing <$> l -> l !! c = Some cont ->
  exists ct, l' !! c = Some ct /\ standing ct = standing cont.
Proof.
  intros E%(f_equal (.!! c)) Hc. rewrite !list_lookup_fmap, Hc in E.
  destruct (l' !! c) as [ct|]; [|done]. exists ct. split; [done|]. by apply (inj Some) in E.
Qed.

(** ** The whole of [fork] *)

Section fork.
Context {EN : Env} (s : kstate) (me j c ip : nat) (p q : proc) (cont : container) (x : inode).
Context (tf pt : Z) (l : list Z) (T : table).

(** Process [p] in slot [me] of container [c] calls [fork]; slot [j] is unused and the pages
    [tf], [pt] and [l] are free. *)
Record fork_ok : Prop := {
  fk_end : KERNBASE <= sym_end;
  fk_tramp : sym_trampoline mod PGSIZE = 0 /\ 0 <= sym_trampoline < PHYSTOP;
  fk_me : ht_proc (k_hart s) = Some me /\ k_procs s !! me = Some p;
  fk_slots : length (k_procs s) = NPROC /\ procs_unlocked s;
  fk_slot : list_find (fun p => p_state p = UNUSED) (k_procs s) = Some (j, q) /\ me <> j;
  fk_old : p_ofile q = replicate NOFILE None /\ length (p_name q) = 16%nat;
  fk_locks : Forall (fun lk => k_locks s !! lk = None) [LPid; LCid; LFtable; LIcache];
  fk_cont : p_cont p = Some c /\ k_conts s !! c = Some cont /\ c_state cont <> CUNUSED /\
    0 <= c_used_proc cont < c_max_proc cont /\ c_max_proc cont < 2 ^ 31;
  fk_alloc : alloc_ok s (tf :: pt :: l) (6 + 3 * npages (p_sz p)) /\ (4 + 3 * npages (p_sz p) <= length l)%nat;
  fk_sz : 0 <= p_sz p <= MAXVA - 2 * PGSIZE;
  fk_table : pt_rep (k_mem s) (p_pagetable p) T /\ forall r, in_table T r -> r ∉ tf :: pt :: l;
  fk_pages : forall va, 0 <= va < PGROUNDUP (p_sz p) -> Z.land (view (k_mem s) T va) PTE_V <> 0 /\
    frame_of T s va <> 0 /\ page_in (k_mem s) (frame_of T s va) /\ (frame_of T s va ∉ tf :: pt :: l);
  fk_tf : good_page (p_tf p) /\ page_in (k_mem s) (p_tf p) /\ (p_tf p ∉ tf :: pt :: l) /\ ~ in_table T (p_tf p);
  fk_files : length (p_ofile p) = NOFILE /\ fds_ok (p_ofile p) (k_files s);
  fk_cwd : p_cwd p = Some ip /\ k_inodes s !! ip = Some x /\ 0 <= i_ref x < 2 ^ 31 - 1;
  fk_name : 0 ∈ p_name p
}.
Hypothesis Hok : fork_ok.

(** The child as [allocproc] leaves it. *)
Definition blank_child : proc :=
  new_proc q c (k_nextpid s) (if c_isroot cont =? 0 then c_nextlocalpid cont else k_nextpid s) tf pt.

(** What [fork] leaves: [child] in slot [j]. *)
Record forked (s' : kstate) (child : proc) : Prop := {
  fo_frame : frame fork_frame s s';
  fo_procs : k_procs s' = <[j := child]> (k_procs s);
  fo_entry : p_state child = RUNNABLE /\ p_parent child = Some me /\ p_pid child = k_nextpid s /\
    p_cont child = Some c /\ p_sz child = p_sz p /\ p_ofile child = p_ofile p /\ p_cwd child = p_cwd p /\
    cstr (p_name child) = take 15 (cstr (p_name p)) /\ ctx_ra (p_context child) = sym_forkret;
  fo_memory : exists U, pt_rep (k_mem s') (p_pagetable child) U /\ pt_rep (k_mem s') (p_pagetable p) T /\
    forall va, 0 <= va < PGROUNDUP (p_sz p) ->
      ubyte (k_mem s') U va = ubyte (k_mem s) T va /\ ubyte (k_mem s') T va = ubyte (k_mem s) T va;
  fo_registers : forall i, 0 <= i < TF_SIZE / 8 ->
    entry (k_mem s') (p_tf child) i = (if i =? TF_a0 / 8 then 0 else entry (k_mem s) (p_tf p) i) /\
    entry (k_mem s') (p_tf p) i = entry (k_mem s) (p_tf p) i;
  fo_files : k_files s' = dup_refs (p_ofile p) (k_files s);
  fo_cwd : k_inodes s' = <[ip := x <| i_ref := i_ref x + 1 |>]> (k_inodes s);
  fo_cont : exists ct, k_conts s' !! c = Some ct /\ c_used_proc ct = c_used_proc cont + 1
}.

Lemma fork_allocproc Q s0 : frame [] s s0 ->
  (forall s', allocated s0 s' j q c cont (tf :: pt :: l) (3 * npages (p_sz p)) -> Q (Some j) s') ->
  wp (allocproc c) Q s0.
Proof.
  intros F HQ. destruct Hok as [? [??] [Hme ?] [? Hpu] [Hfind Hne] _ Hlk (_ & ? & _) [A ?] _ _ _ _ _ _ _].
  rewrite !Forall_cons in Hlk. destruct Hlk as (? & ? & _).
  frame_use F Fprocs. frame_use F Fconts. frame_use F Flocks. frame_use F Fmem.
  pose proof (frame_get Fhart _ _ _ F eq_refl) as (_ & Hp & _).
  apply (wp_allocproc c cont j q tf pt l (3 * npages (p_sz p))); try done; try congruence.
  - eapply alloc_ok_agree; [exact A|done|exact F|done|]. intros. by rewrite Hfr2.
  - lia.
Qed.

(** After [allocproc]. *)
Section copying.
Context (s1 : kstate) (U : table) (used l1 : list Z).
Hypothesis Hl1 : l = used ++ l1.
Hypothesis HU : pt_rep (k_mem s1) pt U.
Hypothesis HV : forall va, user_va va -> view (k_mem s1) U va = proc_view tf va.
Hypothesis HUl : forall r, in_table U r -> r ∈ tf :: pt :: l.
Hypothesis HUf : forall r, r ∈ l1 -> ~ in_table U r.
Hypothesis Hkeep : forall r, (r ∉ tf :: pt :: l) -> k_mem s1 !! r = k_mem s !! r.

Lemma rest_free r : r ∈ l1 -> r ∈ tf :: pt :: l.
Proof. intros Hr. do 2 right. rewrite Hl1. apply elem_of_app. by right. Qed.

Lemma fork_view va : view (k_mem s1) T va = view (k_mem s) T va.
Proof. apply view_agree. intros r Hr. by apply Hkeep, (fk_table Hok). Qed.

Lemma proc_view_user va : 0 <= va < MAXVA - 2 * PGSIZE -> proc_view tf va = 0.
Proof.
  intros Hva. unfold proc_view. rewrite !(proj2 (Z.eqb_neq _ _)); [done|..];
    revert Hva; consts; intros; Z.to_euclidean_division_equations; lia.
Qed.

Lemma fork_top : PGROUNDUP (p_sz p) <= MAXVA - 2 * PGSIZE.
Proof.
  pose proof (fk_sz Hok) as Hsz. pose proof (PGROUNDUP_mod (p_sz p)) as Hm.
  pose proof (PGROUNDUP_bounds (p_sz p) ltac:(revert Hsz; consts; lia)) as Hb.
  revert Hsz Hm Hb. consts. intros. Z.to_euclidean_division_equations. lia.
Qed.

Lemma fork_copy_ok : copy_ok (p_pagetable p) pt T U l1 s1 (p_sz p).
Proof.
  destruct (fk_table Hok) as [HT HTl]. pose proof (fk_sz Hok) as Hsz.
  split; try done; try apply Hok.
  - eapply pt_rep_agree; [|exact HT]. intros r Hr. by apply Hkeep, HTl.
  - intros r Hr. specialize (HTl r Hr). split; [by intros ?%rest_free|by intros ?%HUl].
  - intros va Hva. rewrite fork_view. by apply (fk_pages Hok).
  - intros va Hva. unfold frame_of. rewrite fork_view. fold (frame_of T s va).
    destruct (fk_pages Hok va Hva) as (_ & H0 & (bs & Hbs & Hlen) & Hnot). split_and!; [done| | |].
    + exists bs. by rewrite Hkeep.
    + by intros ?%rest_free.
    + by intros ?%HUl.
  - intros va Hva. pose proof fork_top. rewrite HV, proc_view_user; [done|lia|unfold user_va; revert Hva; consts; lia].
Qed.

(** After [uvmcopy] and the copy of the registers. *)
Section copied.
Context (s2 : kstate) (U2 : table) (l2 : list Z).
Hypothesis Hnd : NoDup (tf :: pt :: l).
Hypothesis Htf : ~ in_table U tf.
Hypothesis Hcp : copied pt T U l1 s1 (PGROUNDUP (p_sz p)) s2 U2 l2.

Lemma tf_apart : (tf ∉ l1) /\ ~ in_table U2 tf /\ ~ in_table T tf.
Proof.
  assert (tf ∉ l1) as Hl.
  { intros Hx. apply NoDup_cons in Hnd as [Hn _]. apply Hn. right. rewrite Hl1. apply elem_of_app. by right. }
  split_and!; [done| |].
  - by intros [?|?]%(cp_in _ _ _ _ _ _ _ _ _ Hcp).
  - intros Hx%(fk_table Hok). apply Hx. by left.
Qed.

Lemma outside_kept r : (r ∉ tf :: pt :: l) -> k_mem s2 !! r = k_mem s !! r.
Proof.
  intros Hr. rewrite (cp_other _ _ _ _ _ _ _ _ _ Hcp); [by apply Hkeep|by intros ?%rest_free|by intros ?%HUl].
Qed.

Lemma child_mem bs va : 0 <= va < PGROUNDUP (p_sz p) ->
  ubyte (<[tf := bs]> (k_mem s2)) U2 va = ubyte (k_mem s) T va /\
  ubyte (<[tf := bs]> (k_mem s2)) T va = ubyte (k_mem s) T va.
Proof.
  intros Hva. destruct tf_apart as (Hl & HU2 & HT). pose proof fork_copy_ok as Hck.
  destruct (child_entry _ _ _ _ _ _ _ _ _ Hcp va Hva) as (_ & Hg & Hin & _ & _ & Hm).
  destruct (fk_pages Hok va Hva) as (Hv & H0 & Hpg & Hn).
  assert (forall M, (forall r, (r ∉ tf :: pt :: l) -> M !! r = k_mem s !! r) -> ubyte M T va = ubyte (k_mem s) T va) as Hold.
  { intros M HM. assert (uaddr M T va = uaddr (k_mem s) T va) as E.
    { unfold uaddr. f_equal. apply view_agree. intros r Hr. by apply HM, (fk_table Hok). }
    unfold ubyte. rewrite E. unfold uaddr, upage. rewrite (proj2 (Z.eqb_neq _ 0) Hv).
    destruct (Z.land _ PTE_U =? 0); [done|]. fold (frame_of T s va). by rewrite HM. }
  split.
  - rewrite <- (Hold (k_mem s1)), <- (child_byte _ _ _ _ _ _ _ _ _ _ Hck Hcp va Hva) by done.
    apply ubyte_ne; [done|]. rewrite (child_uaddr _ _ _ _ _ _ _ _ _ Hcp) by done.
    destruct (_ =? 0); [by left|]. right. intros E. by rewrite E in Hin.
  - apply Hold. intros r Hr. rewrite lookup_insert_ne; [by apply outside_kept|]. intros <-. apply Hr. by left.
Qed.


Context (s0 : kstate) (bp bc : list Z) (ct : container).
Hypothesis F0 : frame [] s s0.
Hypothesis F2 : frame alloc_frame (acq (LProc j) s0) s2.
Hypothesis Hp2 : k_procs s2 = <[j := blank_child]> (k_procs s).
Hypothesis Hc2 : k_conts s2 !! c = Some ct.
Hypothesis Hst : standing ct = standing cont.
Hypothesis Hgtf : good_page tf.
Hypothesis Hbc : k_mem s2 !! tf = Some bc /\ length bc = Z.to_nat PGSIZE.
Hypothesis Hbp : k_mem s !! p_tf p = Some bp /\ length bp = Z.to_nat PGSIZE.

Lemma fork_child_ok : child_ok s0 s2 p blank_child ip j c x ct bp bc.
Proof.
  destruct Hok as [_ _ _ [Hlen Hpu] [Hfind _] [Hoq Hnq] Hlk (Hpc & Hc & Hcs) [A _] _ _ _ Htfp Hfiles Hcwd Hname].
  rewrite !Forall_cons in Hlk. destruct Hlk as (_ & _ & Hlf & Hli & _). frame_use F0 Flocks.
  frame_use F2 Ffiles. frame_use F0 Ffiles. frame_use F2 Finodes. frame_use F0 Finodes.
  pose proof (kok_hart _ (ao_kernel _ _ _ A)). pose proof (kok_console _ (ao_kernel _ _ _ A)).
  assert (j < length (k_procs s))%nat by (by apply list_find_Some in Hfind as [?%lookup_lt_Some _]).
  split; try done.
  - by eapply hart_ok_frame.
  - by eapply console_ok_frame.
  - rewrite <- Hfr. split_and!; [apply Hpu|done..].
  - rewrite Hp2. by apply list_lookup_insert_eq.
  - split_and!; [apply Hfiles|done|]. rewrite <- Hfr0, <- Hfr1. apply Hfiles.
  - by rewrite <- Hfr2, <- Hfr3.
  - destruct Htfp as ([? ?] & _ & ? & _). split; [done|]. by rewrite outside_kept.
  - split; [|done]. apply Hgtf.
  - pose proof (f_equal c_state Hst) as E1. pose proof (f_equal c_used_proc Hst) as E2.
    pose proof (f_equal c_max_proc Hst) as E3. simpl in E1, E2, E3. by rewrite E1, E2, E3.
Qed.

Lemma fork_forked s' name :
  frame fork_frame s0 s' -> k_procs s' = <[j := child_of p blank_child (Some me) ip name]> (k_procs s2) ->
  k_mem s' = <[tf := child_tf bp bc]> (k_mem s2) -> k_files s' = dup_refs (p_ofile p) (k_files s2) ->
  k_inodes s' = <[ip := x <| i_ref := i_ref x + 1 |>]> (k_inodes s2) ->
  k_conts s' = <[c := ct <| c_used_proc := c_used_proc ct + 1 |>]> (k_conts s2) ->
  cstr name = take 15 (cstr (p_name p)) -> forked s' (child_of p blank_child (Some me) ip name).
Proof.
  intros F' Hp' Hm' Hf' Hi' Hc' Hn. destruct tf_apart as (Hl & HU2 & HT). destruct (fk_tf Hok) as (_ & _ & Hptf & _).
  frame_use F2 Ffiles. frame_use F0 Ffiles. frame_use F2 Finodes. frame_use F0 Finodes.
  destruct Hbc as [Hbc1 Hbc2], Hbp as [Hbp1 Hbp2].
  assert (length (child_tf bp bc) = Z.to_nat PGSIZE) as Hlen by (by apply length_child_tf).
  assert (p_tf p <> tf) as Hne by (intros E; apply Hptf; rewrite E; by left).
  split.
  - etrans; [by apply (frame_more [])|done].
  - by rewrite Hp', Hp2, list_insert_insert_eq.
  - split_and!; try done. symmetry. apply Hok.
  - exists U2. rewrite Hm'. split_and!.
    + apply pt_rep_data; [apply Hcp|done|done].
    + apply pt_rep_data; [|done|done]. eapply pt_rep_agree; [|apply Hok]. intros r Hr. by apply outside_kept, (fk_table Hok).
    + intros va Hva. by apply child_mem.
  - intros i Hi. rewrite Hm'. split.
    + unfold entry at 1. simpl. rewrite lookup_insert_eq, child_register by done. unfold entry. by rewrite Hbp1.
    + rewrite entry_ne by done. apply entry_agree. by apply outside_kept.
  - congruence.
  - congruence.
  - exists (ct <| c_used_proc := c_used_proc ct + 1 |>). rewrite Hc'. split.
    + apply list_lookup_insert_eq. by eapply lookup_lt_Some.
    + pose proof (f_equal c_used_proc Hst) as E. simpl in *. lia.
Qed.
End copied.
End copying.

(** C10. [fork] makes a copy of its caller. With a free slot, room for a process in the container and enough free pages, the call returns the new pid. The child is runnable and is a child of the caller in the same container, with the caller's size, name, directory and open files; every byte of its user memory and every register reads as the caller's, except that register a0 is 0; the caller's memory and registers are unchanged; each file's count grows by the descriptors that refer to it, the directory's count by one, and the container is charged for one process. *)
Theorem fork_copies :
  wp (fork None) (fun r s' => r = k_nextpid s /\ exists child, forked s' child) s.
Proof.
  pose proof Hok as [He Htr [Hme Hp] [Hlen Hpu] [Hfind Hne] [Hoq Hnq] Hlk Hcont [A Hll] Hsz HT Hpg Htf Hfiles Hcwd Hname].
  pose proof (kok_hart _ (ao_kernel _ _ _ A)) as Hh. pose proof (proj2 (ao_free _ _ _ A)) as Hnd.
  unfold fork. kstep. apply (wp_curproc_frame me); [done..|]. intros s0 F0. kstep. frame_use F0 Fprocs.
  eapply wp_get_proc; [by rewrite <- Hfr|]. kstep. destruct Hcont as (Hpc & Hc & Hcs). rewrite Hpc. kstep.
  apply fork_allocproc; [done|].
  intros s1 [F1 Hc1 Hn1 (tf' & pt' & U & l1 & Hp1 & HU & HV & (used & [= <- <- Hl] & Hu4) & A1 & HUl & HUf & HUtf & Hgtf & (bc & Hbc & Hbl) & Hkeep)].
  frame_use F0 Fnextpid. frame_use F0 Fmem. frame_use F0 Fconts. rewrite <- Hfr, <- Hfr0 in Hp1. rewrite <- Hfr1 in Hkeep. rewrite <- Hfr2 in Hc1.
  kstep. eapply wp_get_proc; [rewrite Hp1; apply list_lookup_insert_eq; by apply list_find_Some in Hfind as [?%lookup_lt_Some _]|].
  kstep. cbn [p_pagetable new_proc set].
  assert (length l <= 4 + length l1)%nat by (rewrite Hl, length_app; lia).
  apply (wp_uvmcopy _ _ T U l1 s1 _ 0); [by eapply fork_copy_ok|by rewrite Nat.add_0_r|lia|]. intros s2 U2 l2 Hcp A2 _. kstep.
  destruct (cp_frame _ _ _ _ _ _ _ _ _ Hcp) as [F12 Hc12]. frame_use F12 Fprocs.
  destruct Htf as (_ & (bp & Hbp) & _).
  destruct (standing_lookup (k_conts s) (k_conts s2) c cont) as (ct & Hc2 & Hst); [congruence|done|].
  assert (k_mem s2 !! tf = Some bc /\ length bc = Z.to_nat PGSIZE) as Hbc2.
  { split; [|done]. rewrite (cp_other _ _ _ _ _ _ _ _ _ Hcp); [done|by eapply tf_apart|done]. }
  assert (frame alloc_frame (acq (LProc j) s0) s2) as F2 by (etrans; [exact F1|by apply (frame_more vm_frame)]).
  rewrite Hfr3 in Hp1.
  eapply (wp_fork_child s0 s2 p blank_child (Some me) ip j c x ct bp bc); [by eapply fork_child_ok|].
  intros s' name F' Hp' Hm' Hf' Hi' Hc' _ _ Hn' _. split; [done|].
  exists (child_of p blank_child (Some me) ip name). by eapply fork_forked.
Qed.
End fork.

(** ** Example: a process with one page of memory and one open file, and nine free pages *)

Definition nine_free : list Z := 
  [page_n 6; page_n 7; page_n 8; page_n 9; page_n 10; page_n 11; page_n 12; page_n 13; page_n 14].
Definition sh : proc :=
  zero_proc <| p_state := RUNNING |> <| p_pid := 1 |> <| p_sz := 100 |> <| p_pagetable := page_a |> <| p_tf := page_n 5 |>
            <| p_ofile := Some 0%nat :: replicate 15 None |> <| p_cwd := Some 0%nat |> <| p_cont := Some 1%nat |>
            <| p_name := lit "sh" ++ replicate 13 0 |>.
Definition cont_8 : container := cont_1 <| c_max_proc := 8 |> <| c_max_sz := 2 ^ 20 |>.
Definition root_dir : inode := zero_inode <| i_ref := 1 |>.
Definition shell : kstate :=
  bss <| k_hart := mkhart 0 (Some 0%nat) 0 false false |> <| k_nextpid := 2 |>
      <| k_procs := sh :: replicate 63 zero_proc |> <| k_conts ::= <[1%nat := cont_8]> |>
      <| k_files ::= <[0%nat := zero_file <| f_ref := 1 |>]> |> <| k_inodes ::= <[0%nat := root_dir]> |>
      <| k_freelist := page_n 6 |>
      <| k_mem := chain nine_free ∪ <[page_n 5 := replicate (Z.to_nat PGSIZE) 3]> (k_mem one_page) |>.

Section example.
#[local] Existing Instance small_machine.

Lemma shell_tree q : in_table tree q -> (q ∉ nine_free) /\ q <> page_n 5 /\ k_mem shell !! q = k_mem one_page !! q.
Proof. intros [->|[->| ->]]%tree_pages; (split_and!; [by apply (bool_decide_unpack _); vm_compute|done|reflexivity]). Qed.

Lemma shell_view va : 0 <= va < 4096 -> view (k_mem shell) tree va = Z.lor (PA2PTE page_d) 31.
Proof.
  intros Hva. rewrite (view_agree (k_mem one_page)) by (intros; by apply shell_tree).
  rewrite (proj2 one_page_rep) by (unfold user_va; consts; lia). by rewrite Z.div_small by (consts; lia).
Qed.

Lemma shell_alloc n : (n <= 100)%nat -> alloc_ok shell nine_free n.
Proof.
  intros Hn. split.
  - split; [split; simpl; lia|done| |intros i [= <-]; vm_compute; lia|intros i [= <-]; vm_compute; lia].
    apply Forall_insert; [apply Forall_replicate|]; vm_compute; by left.
  - done.
  - split; [|unfold nine_free; pages].
    apply (freelist_rep_agree (chain nine_free)); [|apply (chain_rep nine_free); [done|unfold nine_free; pages..]].
    intros q Hq. apply lookup_union_l. revert q Hq. apply Forall_forall. repeat (apply Forall_cons; split; [reflexivity|]).
    by apply Forall_nil.
  - unfold mem_room. change (cont_of shell) with (Some 1%nat). intros c [= <-]. right; right. split; [done|].
    unfold PGSIZE. simpl. lia.
Qed.

Lemma shell_fork_ok : fork_ok shell 0 1 1 0 sh zero_proc cont_8 root_dir (page_n 6) (page_n 7) (drop 2 nine_free) tree.
Proof.
  split; try done.
  - by repeat constructor.
  - split; [apply (shell_alloc 9); lia|by vm_compute].
  - split; [eapply pt_rep_agree; [|apply one_page_rep]; intros; by apply shell_tree|].
    intros r Hr. by apply shell_tree.
  - intros va Hva. change (PGROUNDUP (p_sz sh)) with 4096 in Hva. unfold frame_of. rewrite shell_view by done.
    change (PTE2PA (Z.lor (PA2PTE page_d) 31)) with page_d. split_and!; [done|done| |].
    + eexists. split; [reflexivity|by vm_compute].
    + by apply (bool_decide_unpack _); vm_compute.
  - split_and!; [by vm_compute|eexists; split; [reflexivity|apply length_replicate]| |].
    + by apply (bool_decide_unpack _); vm_compute.
    + by intros (_ & ? & _)%shell_tree.
  - split; [done|]. intros f Hf. apply elem_of_cons in Hf as [[= ->]|Hf].
    + eexists. split; [reflexivity|]. by vm_compute.
    + apply elem_of_replicate in Hf as [? _]. done.
  - apply (bool_decide_unpack _); by vm_compute.
Qed.

Lemma fork_copies_witness :
  wp (fork None) (fun r s' => r = 2 /\ exists child, forked shell 0 1 1 0 sh cont_8 root_dir tree s' child) shell.
Proof.
  exact (fork_copies shell 0 1 1 0 sh zero_proc cont_8 root_dir (page_n 6) (page_n 7) (drop 2 nine_free) tree shell_fork_ok).
Defined.
End example.
