(* ===== verification/Container.v ===== *)
(** Containers ([kernel/container.c]): boot, creation, start, pause, resume and stop, limits and
    reports.  The accounting that other parts of the kernel call is in [Accounting]. *)
From S2P Require Import Prelude Types Kstate Cstring Spinlock Frame Printf Accounting Kalloc Vm Proc Console Bio Log Fs File Process.
From stdpp Require Import base numbers list gmap strings.
From Stdlib Require Import ZArith Lia.

Local Open Scope Z_scope.
Local Open Scope xv6_scope.

(** [struct cinfo]: cname 0, max_proc 16, max_sz 24, max_dsk 32, used_proc 40, used_mem 48, used_dsk 56,
    state 64, ticks 80. *)
Definition CINFO_SIZE : nat := 88.
Definition CONTINFO_SIZE : Z := 8 * 88.

Definition statestr (st : contstate) : string :=
  match st with
  | CUNUSED => "unused" | CINITED => "inited" | CRUNNABLE => "runnable" | CPAUSED => "paused" | CSTOPPED => "stopped"
  end.

Section container.
Context `{Env}.

Definition alloccont : K (option nat) :=
  r ← kfind (seq 0 NCONT) (fun i =>
    acquire (LCont i);;
    c ← get_cont i;
    if bool_decide (c_state c = CUNUSED) then mret (Some i)
    else release (LCont i);; mret None);
  match r with
  | None => mret None
  | Some i =>
    upd_cont i (set c_state (fun _ => CRUNNABLE));;
    release (LCont i);;
    mret (Some i)
  end.

(** ** Limits *)

(** The differences are unsigned: only the present limit passes the test. *)
Definition setmaxdsk (contname : list Z) (newmax : Z) : K Z :=
  r ← name2cont contname;
  match r with
  | None => mret (-1)
  | Some i =>
    c ← get_cont i;
    if negb (c_isroot c =? 0) then
      printf "Cannot set disk limit for root container\n" [];;
      exit 0
    else if 0 <? u64 (u64 (i32 (newmax * 1024)) - c_max_dsk c) then
      printf "assign max disk exceed system limit, will use default size\n" [];;
      mret (-1)
    else
      printf "new max dsk: %d Kb, default max disk: %dKb\n" [AInt newmax; AInt (c_max_dsk c / 1024)];;
      upd_cont i (set c_max_dsk (fun _ => u64 (i32 (newmax * 1024))));;
      mret 1
  end.

Definition setmaxmem (contname : list Z) (newmax : Z) : K Z :=
  r ← name2cont contname;
  match r with
  | None => mret (-1)
  | Some i =>
    c ← get_cont i;
    if negb (c_isroot c =? 0) then
      printf "Cannot set mem limit for root container\n" [];;
      exit 0
    else if 0 <? u64 (u64 (i32 (newmax * 1024)) - c_max_sz c) then
      printf "assign max mem exceed system limit, will use default size\n" [];;
      mret (-1)
    else
      printf "new max mem: %d Kb, default max mem: %dKb\n" [AInt newmax; AInt (c_max_sz c / 1024)];;
      upd_cont i (set c_max_sz (fun _ => u64 (i32 (newmax * 1024))));;
      mret 1
  end.

Definition setmaxproc (contname : list Z) (numproc : Z) : K Z :=
  r ← name2cont contname;
  match r with
  | None => mret (-1)
  | Some i =>
    c ← get_cont i;
    if negb (c_isroot c =? 0) then
      printf "Cannot set proc limit for root container\n" [];;
      exit 0
    else if (c_max_proc c <? numproc) || (numproc <? 2) then
      printf "the assigned max proc does not fit the limit, will use default size\n" [];;
      mret (-1)
    else
      printf "new max proc: %d, default max proc: %d\n" [AInt numproc; AInt (c_max_proc c)];;
      upd_cont i (set c_max_proc (fun _ => numproc));;
      mret 1
  end.

(** ** Scheduling *)

Definition resetticksforcontainers : K unit :=
  kfor (seq 0 NCONT) (fun i => upd_cont i (set c_ticks (fun _ => 0))).

Definition getnextconttosched : K nat :=
  c0 ← get_cont 0;
  r ← kfold (seq 1 (NCONT - 1)) (fun '(c, holder) i =>
    ci ← get_cont i;
    if bool_decide (c_state ci = CRUNNABLE) && (c_ticks ci <? holder) then mret (i, c_ticks ci)
    else mret (c, holder)) (0%nat, c_ticks c0);
  mret r.1.

(** ** Boot *)

Definition ifvcavaliable (vcname : list Z) : K Z :=
  r ← kfind (seq 0 NCONT) (fun i =>
    c ← get_cont i;
    m ← name_matches vcname (c_vc_name c);
    if (m : bool) && bool_decide (c_state c <> CUNUSED) then
      printf "vc is used\n" [];;
      mret (Some (-1))
    else mret None);
  mret (default 1 r).

Definition initrootcont : K nat :=
  printf "done initing root container\n" [];;
  r ← namei (lit "/");
  match r with
  | None => panic "Can't set '/' as root container's rootdir"
  | Some rootdir =>
    printf "done initing root dir\n" [];;
    acquire (LCont ROOTCONT);;
    upd_cont ROOTCONT (fun c =>
      c <| c_max_proc := Z.of_nat NPROC |> <| c_max_sz := MAX_CMEM |> <| c_max_dsk := MAX_CDISK |>
        <| c_state := CRUNNABLE |> <| c_used_proc := 0 |> <| c_used_mem := 0 |> <| c_used_dsk := 0 |>);;
    rootdir ← idup rootdir;
    upd_cont ROOTCONT (fun c =>
      c <| c_rootdir := Some rootdir |> <| c_isroot := 1 |> <| c_nextlocalpid := 1 |>
        <| c_nextproctorun := None |> <| c_ticks := 0 |>);;
    c ← get_cont ROOTCONT;
    name ← deref (safestrcpy (c_name c) (lit "rootcont") 16);
    upd_cont ROOTCONT (set c_name (fun _ => name));;
    release (LCont ROOTCONT);;
    mret ROOTCONT
  end.

Definition cinit : K unit :=
  initlock LCid;;
  kfor (seq 0 NCONT) (fun i =>
    initlock (LCont i);;
    upd_cont i (fun c => c <| c_cid := Z.of_nat i |> <| c_state := CUNUSED |> <| c_ticks := 0 |>));;
  initrootcont;;
  procinit.

Definition userinit : K unit := userprocinit ROOTCONT.

(** ** Creating and running a container *)

Definition kcfork (name : list Z) : K Z :=
  r ← name2cont name;
  match r with
  | None => printf "Error: cfork, cannot find container %s\n" [AStr (Some name)];; mret (-1)
  | Some c => fork (Some c)
  end.

Definition setcontrootdir (name path : list Z) : K Z :=
  r ← name2cont name;
  match r with
  | None => printf "container %s is not existed\n" [AStr (Some name)];; mret (-1)
  | Some c =>
    printf "connecting path\n" [];;
    r ← namei path;
    match r with
    | None =>
      printf "Cannot find path\n" [];;
      upd_cont c (set c_state (fun _ => CUNUSED));;
      freecontainer c;;
      mret (-1)
    | Some rootdir =>
      upd_cont c (set c_rootdir (fun _ => Some rootdir));;
      mret 1
    end
  end.

Definition kccreate (name : list Z) : K Z :=
  r ← name2cont name;
  if bool_decide (r <> None) then
    printf "Container %s is created already\n" [AStr (Some name)];;
    mret (-1)
  else
    r ← alloccont;
    match r with
    | None => printf "Can't alloc init container." [];; mret (-1)
    | Some i =>
      acquire (LCont i);;
      upd_cont i (fun c =>
        c <| c_max_proc := Z.of_nat NPROC / Z.of_nat NCONT |> <| c_max_sz := MAX_CMEM / Z.of_nat NCONT |>
          <| c_max_dsk := MAX_CDISK / Z.of_nat NCONT |> <| c_used_dsk := 0 |> <| c_used_mem := 0 |>
          <| c_used_proc := 0 |>);;
      c ← get_cont i;
      cname ← deref (strncpy (c_name c) name 16);
      upd_cont i (set c_name (fun _ => cname));;
      upd_cont i (fun c =>
        c <| c_state := CINITED |> <| c_nextlocalpid := 1 |> <| c_nextproctorun := None |>
          <| c_isroot := 0 |> <| c_ticks := 0 |>);;
      release (LCont i);;
      setcontrootdir name name
    end.

Definition kcstart (name vcname : list Z) (disksize : Z) : K Z :=
  v ← ifvcavaliable vcname;
  if v <? 0 then mret (-1)
  else
    r ← name2cont name;
    match r with
    | None => printf "Error: kcstart, no container %s found\n" [AStr (Some name)];; mret (-1)
    | Some i =>
      c ← get_cont i;
      if bool_decide (c_state c <> CINITED) then
        printf "No avaliable container named %s is found\n" [AStr (Some name)];;
        mret (-1)
      else
        updatecontdsk disksize (Some i);;
        updatecontmem (40 * 1024) (Some i);;
        root ← cid2cont (Z.of_nat ROOTCONT);
        updatecontmem (u64 (- 40 * 1024)) root;;
        acquire (LCont i);;
        c ← get_cont i;
        vc ← deref (strncpy (c_vc_name c) vcname 16);
        upd_cont i (set c_vc_name (fun _ => vc));;
        upd_cont i (set c_state (fun _ => CRUNNABLE));;
        release (LCont i);;
        resetticksforcontainers;;
        mret 1
    end.

Definition kcpause (name : list Z) : K Z :=
  r ← name2cont name;
  match r with
  | None => printf "Error: kcspause, no container %s found\n" [AStr (Some name)];; mret (-1)
  | Some i =>
    c ← get_cont i;
    if negb (c_isroot c =? 0) then
      printf "Error: kcpause,  cannot pause root container\n" [];;
      mret (-1)
    else if bool_decide (c_state c <> CRUNNABLE /\ c_state c <> CPAUSED) then
      printf "Error: kcpause, cannot pause a not running container\n" [];;
      mret (-1)
    else
      acquire (LCont i);;
      upd_cont i (set c_state (fun _ => CPAUSED));;
      pauseprocforcontainer i;;
      release (LCont i);;
      mret 1
  end.

Definition kcstop (name : list Z) : K Z :=
  r ← name2cont name;
  match r with
  | None => printf "Error: kcstop, no container %s found\n" [AStr (Some name)];; mret (-1)
  | Some i =>
    c ← get_cont i;
    if negb (c_isroot c =? 0) then
      printf "Error: kcstop,  cannot stop root container\n" [];;
      mret (-1)
    else
      printf "kernel: checking container %s state\n" [AStr (Some (c_name c))];;
      if bool_decide (c_state c <> CRUNNABLE /\ c_state c <> CPAUSED) then
        printf "Error: kcstop, cannot kill a not running container\n" [];;
        mret (-1)
      else
        printf "kernel: stoping container %s ...\n" [AStr (Some (c_name c))];;
        acquire (LCont i);;
        containerkillall i;;
        release (LCont i);;
        upd_cont i (set c_state (fun _ => CSTOPPED));;
        freecontainer i;;
        resetticksforcontainers;;
        mret 1
  end.

Definition kcresume (name : list Z) : K Z :=
  r ← name2cont name;
  match r with
  | None => printf "Error: kcresume, no container %s found\n" [AStr (Some name)];; mret (-1)
  | Some i =>
    c ← get_cont i;
    if negb (c_isroot c =? 0) then
      printf "Error: kcresume,  cannot resume root container\n" [];;
      mret (-1)
    else if bool_decide (c_state c <> CPAUSED) then
      printf "Error: kcresume, container is already in progress\n" [];;
      mret (-1)
    else
      acquire (LCont i);;
      upd_cont i (set c_state (fun _ => CRUNNABLE));;
      resumeprocforcontainer i;;
      release (LCont i);;
      resetticksforcontainers;;
      mret 1
  end.

(** ** Reports *)

(** Stores [bytes] at [off] of entry [k] of the table. *)
Definition put_cinfo (k off : nat) (bytes tbl : list Z) : list Z := splice (k * CINFO_SIZE + off) bytes tbl.

(** The six limits and counters of entry [k]. *)
Definition put_usage (k : nat) (max_dsk max_sz max_proc used_dsk used_mem used_proc : Z) (tbl : list Z) : list Z :=
  put_cinfo k 40 (le_bytes 4 used_proc) (put_cinfo k 48 (le_bytes 8 used_mem)
    (put_cinfo k 56 (le_bytes 8 used_dsk) (put_cinfo k 16 (le_bytes 4 max_proc)
      (put_cinfo k 24 (le_bytes 8 max_sz) (put_cinfo k 32 (le_bytes 8 max_dsk) tbl))))).

Definition continfo (info_c : Z) (junk : list Z) : K Z :=
  me ← curproc;
  p ← get_proc me;
  c ← deref (p_cont p);
  cont ← get_cont c;
  if negb (c_isroot cont =? 1) then
    printf "Only root container can execute cinfo\n" [];;
    mret (-1)
  else
    r ← kfold (seq 0 NCONT) (fun '(tbl, totalmem, totaldisk, totalproc) i =>
      ci ← get_cont i;
      cname ← deref (strncpy (slice (i * CINFO_SIZE) 16 tbl) (c_name ci) 16);
      let tbl := put_cinfo i 0 cname tbl in
      state ← deref (strncpy (slice (i * CINFO_SIZE + 64) 16 tbl) (lit (statestr (c_state ci))) 16);
      let tbl := put_cinfo i 64 state tbl in
      let tbl := put_usage i (c_max_dsk ci) (c_max_sz ci) (c_max_proc ci)
                   (c_used_dsk ci) (c_used_mem ci) (c_used_proc ci) tbl in
      let tbl := put_cinfo i 80 (le_bytes 4 (c_ticks ci)) tbl in
      mret (tbl, u64 (c_used_mem ci + totalmem), u64 (c_used_dsk ci + totaldisk), i32 (c_used_proc ci + totalproc)))
      (take (Z.to_nat CONTINFO_SIZE) junk, 0, 0, 0);
    let '(tbl, totalmem, totaldisk, totalproc) := r in
    root ← get_cont ROOTCONT;
    let tbl := put_usage ROOTCONT (c_max_dsk root) (c_max_sz root) (c_max_proc root) totaldisk totalmem totalproc tbl in
    me ← curproc;
    p ← get_proc me;
    copyout (p_pagetable p) info_c tbl CONTINFO_SIZE;;
    mret 1.

Definition kcdf : K Z :=
  me ← curproc;
  p ← get_proc me;
  k ← deref (p_cont p);
  c ← get_cont k;
  if negb (c_isroot c =? 0) then
    totaldisk ← kfold (seq 1 (NCONT - 1)) (fun totaldisk i =>
      ci ← get_cont i;
      printf "Container: %s\n" [AStr (Some (c_name ci))];;
      let freedsk := u64 (c_max_dsk ci - c_used_dsk ci) in
      printf "Disk: used %d, avaliable %d\n" [AInt (c_used_dsk ci); AInt freedsk];;
      mret (u64 (c_used_dsk ci + totaldisk))) 0;
    root ← get_cont ROOTCONT;
    printf "Container: %s\n" [AStr (Some (c_name root))];;
    let freedsk := u64 (c_max_dsk root - c_used_dsk root - totaldisk) in
    printf "Disk: used %d, avaliable %d\n" [AInt (c_used_dsk root); AInt freedsk];;
    mret 1
  else
    printf "Container: %s\n" [AStr (Some (c_name c))];;
    let freedsk := u64 (c_max_dsk c - c_used_dsk c) in
    printf "Disk: used %d, avaliable %d\n" [AInt (c_used_dsk c); AInt freedsk];;
    mret 0.

(** For the root container the totals are those of the disk fields. *)
Definition kcfreemem : K Z :=
  me ← curproc;
  p ← get_proc me;
  k ← deref (p_cont p);
  c ← get_cont k;
  if negb (c_isroot c =? 0) then
    totalmem ← kfold (seq 1 (NCONT - 1)) (fun totalmem i =>
      ci ← get_cont i;
      printf "Container: %s\n" [AStr (Some (c_name ci))];;
      usedmem ← usedmemforcontainer i;
      let freemem := u64 (c_max_sz c - usedmem) in
      printf "Mem: used %d, avaliable %d\n" [AInt usedmem; AInt freemem];;
      mret (u64 (c_used_dsk ci + totalmem))) 0;
    root ← get_cont ROOTCONT;
    printf "Container: %s\n" [AStr (Some (c_name root))];;
    let freemem := u64 (c_max_dsk root - c_used_dsk root - totalmem) in
    printf "Mem: used %d, avaliable %d\n" [AInt (c_used_mem root); AInt freemem];;
    mret 1
  else
    printf "Container: %s\n" [AStr (Some (c_name c))];;
    usedmem ← usedmemforcontainer k;
    let freemem := u64 (c_max_sz c - usedmem) in
    printf "Mem: used %d, avaliable %d\n" [AInt usedmem; AInt freemem];;
    mret 0.
End container.
