(* ===== verification/Command.v ===== *)
(** What the container commands of [kernel/container.c] do: finding a container by name, pausing it,
    setting its limits, and the choice of the next container to run. *)
From S2P Require Import Prelude Types Kstate Cstring Spinlock Frame Printf Accounting Kalloc Vm Proc Console Bio Log Fs File Process Container.
From stdpp Require Import base numbers list gmap strings.
From Stdlib Require Import ZArith Lia.

Local Open Scope Z_scope.
Local Open Scope xv6_scope.

(** ** Names *)

(** The test of [name2cont]: the container's name begins with [name]. *)
Definition named (name : list Z) (c : container) : Prop := cstr name `prefix_of` c_name c.
#[export] Instance named_dec name c : Decision (named name c).
Proof. unfold named. apply _. Defined.

Section command.
Context {EN : Env} (s : kstate) (name : list Z).
Hypothesis Hh : hart_ok (k_hart s).
Hypothesis Hcons : console_ok s.
Hypothesis Hname : 0 ∈ name.
Hypothesis Hlen : length (k_conts s) = NCONT.
Hypothesis Hnames : Forall (fun c => (length (cstr name) <= length (c_name c))%nat) (k_conts s).

Lemma wp_name_matches c Q s1 : (length (cstr name) <= length (c_name c))%nat ->
  Q (bool_decide (named name c)) s1 -> wp (name_matches name (c_name c)) Q s1.
Proof.
  intros Hl HQ. unfold name_matches. kstep. eapply wp_deref; [by apply strlen_spec|]. kstep. rewrite Nat2Z.id.
  destruct (strncmp_strlen_prefix name (c_name c) Hname Hl) as (r & Hr & Hiff). eapply wp_deref; [exact Hr|]. kstep.
  replace (r =? 0) with (bool_decide (named name c)); [done|].
  destruct (Z.eqb_spec r 0); [apply bool_decide_eq_true_2|apply bool_decide_eq_false_2]; unfold named; naive_solver.
Qed.

Lemma wp_name2cont Q : Q (fst <$> list_find (named name) (k_conts s)) s -> wp (name2cont name) Q s.
Proof.
  intros HQ. unfold name2cont.
  apply (wp_kfind (fun pre s1 => s1 = s /\ Forall (fun c => ~ named name c) (take (length pre) (k_conts s)))).
  - split; [done|]. by rewrite take_0.
  - intros pre i post s1 E [-> Hno].
    assert (i = length pre /\ (length pre < NCONT)%nat) as [-> Hi].
    { apply (f_equal (.!! length pre)) in E. rewrite list_lookup_middle in E by done. apply lookup_seq in E. lia. }
    destruct (lookup_lt_is_Some_2 (k_conts s) (length pre)) as [c Hc]; [lia|]. kstep.
    apply wp_name_matches; [by apply (Forall_lookup_1 _ _ _ _ Hnames Hc)|]. kstep. case_bool_decide as Hn.
    + rewrite (proj2 (list_find_Some _ _ (length pre) c)) in HQ; [done|]. split_and!; [done..|].
      intros j y Hj Hlt. rewrite Forall_lookup in Hno. apply (Hno j). by rewrite lookup_take_lt.
    + split; [done|]. rewrite length_app, Nat.add_1_r, (take_S_r _ _ _ Hc). apply Forall_app. auto.
  - intros s1 [-> Hno]. rewrite length_seq, take_ge in Hno by lia. by rewrite (proj2 (list_find_None _ _) Hno) in HQ.
Qed.

(** ** Pausing *)

(** C38. [kcpause] acts on the first container whose name begins with the given string, and on no other. If there is none, or it is the root container, or it is neither runnable nor paused, the call returns -1 and changes nothing but the output. Otherwise it returns 1, the container is paused, exactly its sleeping and runnable processes are suspended, and no other container or process changes. *)
Theorem kcpause_pauses :
  length (k_procs s) = NPROC -> procs_unlocked s -> (forall i, k_locks s !! LCont i = None) ->
  wp (kcpause name) (fun r s' =>
    match list_find (named name) (k_conts s) with
    | Some (i, c) =>
      if (c_isroot c =? 0) && bool_decide (c_state c = CRUNNABLE \/ c_state c = CPAUSED) then
        r = 1 /\ frame [Fconts; Fprocs] s s' /\ k_procs s' = paused i <$> k_procs s /\
        k_conts s' = <[i := c <| c_state := CPAUSED |>]> (k_conts s)
      else r = -1 /\ frame [Fout] s s'
    | None => r = -1 /\ frame [Fout] s s'
    end) s.
Proof.
  intros Hpl Hpu Hcl. unfold kcpause. kstep. apply wp_name2cont.
  destruct (list_find (named name) (k_conts s)) as [[i c]|] eqn:Hf; simpl.
  2: { kstep. apply wp_printf_frame; [reflexivity|by repeat constructor|done..|]. intros s1 F1. by kstep. }
  apply list_find_Some in Hf as (Hc & _ & _). kstep. destruct (c_isroot c =? 0); simpl.
  2: { kstep. apply wp_printf_frame; [reflexivity|by repeat constructor|done..|]. intros s1 F1. by kstep. }
  destruct (decide (c_state c = CRUNNABLE \/ c_state c = CPAUSED)) as [Hst|Hst].
  2: { rewrite (bool_decide_eq_true_2 (_ /\ _)) by naive_solver. rewrite (bool_decide_eq_false_2 (_ \/ _)) by done. kstep.
       apply wp_printf_frame; [reflexivity|by repeat constructor|done..|]. intros s1 F1. by kstep. }
  rewrite (bool_decide_eq_false_2 (_ /\ _)) by naive_solver. rewrite (bool_decide_eq_true_2 (_ \/ _)) by done.
  kstep. apply wp_acquire; [done|apply Hcl|]. kstep.
  apply wp_pauseprocforcontainer; [done|by apply hart_ok_hpush| |].
  { intros j. unfold acq. kfields. rewrite lookup_insert_ne by done. apply Hpu. }
  intros s1 F1 Hp1. kstep. frame_use F1 Fconts.
  apply (wp_release_frame [Fconts; Fprocs] _ _ s); [done|apply Hcl| |done|done|].
  { etrans; [|apply (frame_more [Fprocs]); [done|exact F1]]. frame_solve. }
  intros F2. kstep. split_and!; [done|done|done|]. change (k_conts s1 = <[i := c <| c_state := CPAUSED |>]> (k_conts s)). by rewrite <- Hfr.
Qed.

(** ** Limits *)

(** [setmaxmem] cannot change a limit. On a container other than the root it returns 1 exactly when the new value in bytes is the present limit, and -1 otherwise, because the difference it compares with zero is unsigned; either way every limit is as before. *)
Theorem setmaxmem_fixed i c newmax :
  list_find (named name) (k_conts s) = Some (i, c) -> c_isroot c = 0 -> 0 <= c_max_sz c < 2 ^ 64 ->
  wp (setmaxmem name newmax) (fun r s' =>
    r = (if u64 (i32 (newmax * 1024)) =? c_max_sz c then 1 else -1) /\
    k_conts s' = k_conts s /\ frame [Fout; Fconts] s s') s.
Proof.
  intros Hf Hr Hmax. unfold setmaxmem. kstep. apply wp_name2cont. rewrite Hf. simpl.
  apply list_find_Some in Hf as (Hc & _ & _). kstep. rewrite Hr. kbool.
  set (v := u64 (i32 (newmax * 1024))). pose proof (u64_range (i32 (newmax * 1024))) as Hv. fold v in Hv.
  assert ((0 <? u64 (v - c_max_sz c)) = negb (v =? c_max_sz c)) as ->.
  { destruct (Z.eqb_spec v (c_max_sz c)) as [->|Hne]; simpl; [by rewrite Z.sub_diag|].
    apply Z.ltb_lt. pose proof (u64_range (v - c_max_sz c)). enough (u64 (v - c_max_sz c) <> 0) by lia.
    unfold u64. intros E. apply Hne. Z.to_euclidean_division_equations. lia. }
  destruct (Z.eqb_spec v (c_max_sz c)) as [E|Hne]; simpl; kstep.
  - apply wp_printf_frame; [reflexivity|by repeat constructor|done..|]. intros s1 F1. frame_use F1 Fconts. kstep.
    eapply wp_upd_cont; [by rewrite <- Hfr|]. kstep. split_and!; [done| |].
    + kfields. rewrite <- Hfr. apply list_insert_id. rewrite Hc. f_equal. rewrite E. by destruct c.
    + etrans; [by apply (frame_more [Fout])|frame_solve].
  - apply wp_printf_frame; [reflexivity|by repeat constructor|done..|]. intros s1 F1. frame_use F1 Fconts. kstep.
    split_and!; [done|done|by apply (frame_more [Fout])].
Qed.
End command.

(** ** Choosing a container *)

(** The scheduler may choose container [i]. *)
Definition schedulable (i : nat) (c : container) : Prop := i = 0%nat \/ c_state c = CRUNNABLE.

(** [getnextconttosched] returns the root container or a runnable one, and no runnable container nor the root has had fewer ticks; among those with the fewest ticks it takes the first. The state is unchanged. *)
Theorem getnextconttosched_least {EN : Env} s :
  length (k_conts s) = NCONT ->
  wp getnextconttosched (fun i s' => s' = s /\ exists c, k_conts s !! i = Some c /\ schedulable i c /\
    forall j cj, k_conts s !! j = Some cj -> schedulable j cj ->
      c_ticks c < c_ticks cj \/ (c_ticks c = c_ticks cj /\ (i <= j)%nat)) s.
Proof.
  intros Hlen. unfold getnextconttosched. destruct (lookup_lt_is_Some_2 (k_conts s) 0) as [c0 Hc0]; [rewrite Hlen; vm_compute; lia|].
  kstep. apply (wp_kfold (fun pre '(i, holder) s1 => s1 = s /\ (i <= length pre)%nat /\ exists c, k_conts s !! i = Some c /\ holder = c_ticks c /\
    (i = 0%nat \/ c_state c = CRUNNABLE) /\ forall j cj, (j <= length pre)%nat -> k_conts s !! j = Some cj ->
      (j = 0%nat \/ c_state cj = CRUNNABLE) -> c_ticks c < c_ticks cj \/ (c_ticks c = c_ticks cj /\ (i <= j)%nat))).
  - split; [done|]. split; [simpl; lia|]. exists c0. split_and!; [done|done|by left|]. simpl. intros j cj Hj Hcj _.
    assert (j = 0%nat) as -> by lia. simplify_eq. right. lia.
  - intros pre x post [i holder] s1 E (-> & Hi & c & Hc & -> & Hci & Hmin).
    assert (x = S (length pre) /\ (S (length pre) < NCONT)%nat) as [-> Hx].
    { apply (f_equal (.!! length pre)) in E. rewrite list_lookup_middle in E by done. apply lookup_seq in E. lia. }
    destruct (lookup_lt_is_Some_2 (k_conts s) (S (length pre))) as [cx Hcx]; [lia|]. kstep. rewrite length_app. simpl.
    destruct (bool_decide (c_state cx = CRUNNABLE) && (c_ticks cx <? c_ticks c)) eqn:Eb.
    + apply andb_prop in Eb as [Hst%bool_decide_eq_true Hlt%Z.ltb_lt]. kstep. split; [done|]. split; [lia|].
      exists cx. split_and!; [done|done|by right|]. intros j cj Hj Hcj Hok.
      destruct (decide (j = S (length pre))) as [->|]; [simplify_eq; right; lia|].
      destruct (Hmin j cj) as [?|[? ?]]; [lia|done|done|left; lia|left; lia].
    + kstep. split; [done|]. split; [lia|]. exists c. split_and!; [done|done|done|]. intros j cj Hj Hcj Hok.
      destruct (decide (j = S (length pre))) as [->|]; [|apply Hmin; [lia|done|done]]. assert (cj = cx) as -> by congruence.
      destruct Hok as [?|Hst]; [done|]. rewrite bool_decide_eq_true_2 in Eb by done. simpl in Eb.
      apply Z.ltb_ge in Eb. destruct (Z.eq_dec (c_ticks c) (c_ticks cx)); [right; lia|left; lia].
  - intros [i holder] s1 (-> & Hi & c & Hc & _ & Hci & Hmin). kstep. split; [done|]. exists c. split_and!; [done|done|].
    intros j cj Hcj. apply Hmin; [|done]. apply lookup_lt_Some in Hcj. rewrite length_seq. lia.
Qed.

(** ** Example: the root and a running container called c1 with two processes *)

Definition cont_c1 : container :=
  zero_container <| c_state := CRUNNABLE |> <| c_name := lit "c1" ++ replicate 13 0 |> <| c_max_sz := 4096 |> <| c_ticks := 3 |>.
Definition cont_root : container :=
  zero_container <| c_state := CRUNNABLE |> <| c_name := lit "rootcont" ++ replicate 7 0 |> <| c_isroot := 1 |> <| c_ticks := 5 |>.
Definition two_conts : kstate :=
  bss <| k_conts ::= <[1%nat := cont_c1]> |> <| k_conts ::= <[0%nat := cont_root]> |>
      <| k_procs ::= <[2%nat := zero_proc <| p_state := SLEEPING |> <| p_cont := Some 1%nat |>]> |>.

Section example.
#[local] Existing Instance small_machine.

Lemma two_conts_names : Forall (fun c => (length (cstr (lit "c1")) <= length (c_name c))%nat) (k_conts two_conts).
Proof. do 2 (apply Forall_insert; [|vm_compute; lia]). apply Forall_replicate. vm_compute. lia. Qed.

Lemma kcpause_pauses_witness :
  wp (kcpause (lit "c1")) (fun r s' => r = 1 /\ frame [Fconts; Fprocs] two_conts s' /\
    k_procs s' = paused 1 <$> k_procs two_conts /\
    k_conts s' = <[1%nat := cont_c1 <| c_state := CPAUSED |>]> (k_conts two_conts)) two_conts.
Proof.
  apply (kcpause_pauses two_conts (lit "c1")).
  - split; simpl; lia.
  - done.
  - apply (bool_decide_unpack _). by vm_compute.
  - reflexivity.
  - exact two_conts_names.
  - reflexivity.
  - intros i. reflexivity.
  - intros i. reflexivity.
Defined.

Lemma setmaxmem_fixed_witness :
  wp (setmaxmem (lit "c1") 2) (fun r s' => r = -1 /\ k_conts s' = k_conts two_conts /\ frame [Fout; Fconts] two_conts s') two_conts.
Proof.
  apply (setmaxmem_fixed two_conts (lit "c1")) with (i := 1%nat) (c := cont_c1).
  - split; simpl; lia.
  - done.
  - apply (bool_decide_unpack _). by vm_compute.
  - reflexivity.
  - exact two_conts_names.
  - vm_compute. reflexivity.
  - reflexivity.
  - simpl. lia.
Defined.

Lemma getnextconttosched_least_witness :
  wp getnextconttosched (fun i s' => s' = two_conts /\ exists c, k_conts two_conts !! i = Some c /\ (i = 0%nat \/ c_state c = CRUNNABLE) /\
    forall j cj, k_conts two_conts !! j = Some cj -> (j = 0%nat \/ c_state cj = CRUNNABLE) ->
      c_ticks c < c_ticks cj \/ (c_ticks c = c_ticks cj /\ (i <= j)%nat)) two_conts.
Proof. apply (getnextconttosched_least two_conts). reflexivity. Defined.
End example.
