(* ===== verification/Sysfile.v ===== *)
(** System call arguments ([kernel/syscall.c]) and the system calls on files, directories, pipes,
    images and containers ([kernel/sysfile.c]).

    What an uninitialised local variable holds is an argument of the section: [junk_fd], [junk_file] and
    the bytes [junk].  [stack_room] is the room the kernel stack has left for the array of [sys_write],
    and [file_ptr] the address of an entry of the file table, which the tracing code prints. *)
From S2P Require Import Prelude Types Kstate Cstring Spinlock Frame Printf Accounting Kalloc Vm Proc Console Bio Log Fs File Process Container.
From stdpp Require Import base numbers list gmap strings.
From Stdlib Require Import ZArith Lia.

Local Open Scope Z_scope.
Local Open Scope xv6_scope.

Definition quote : string := String.String (Ascii.ascii_of_nat 34) String.EmptyString.

(** [char name[DIRSIZ]] for [nameiparent]: every byte read of it is written first. *)
Definition name_buf : list Z := replicate (Z.to_nat DIRSIZ) 0.

Section syscall_args.
Context `{Env}.

(** ** Fetching arguments *)

Definition fetchaddr (addr : Z) : K (option Z) :=
  i ← curproc;
  p ← get_proc i;
  if (p_sz p <=? addr) || (p_sz p <? u64 (addr + 8)) then mret None
  else
    r ← copyin (p_pagetable p) addr 8;
    if negb (r.1 =? 0) then mret None else mret (Some (le_value r.2)).

(** The result and what [buf] holds then. *)
Definition fetchstr (addr : Z) (buf : list Z) (max : Z) : K (Z * list Z) :=
  i ← curproc;
  p ← get_proc i;
  r ← copyinstr (p_pagetable p) addr max;
  let buf := splice 0 r.2 buf in
  if r.1 <? 0 then mret (r.1, buf)
  else len ← deref (strlen buf); mret (len, buf).

(** [a0] to [a5] are next to each other in the trap frame. *)
Definition argraw (n : Z) : K Z :=
  i ← curproc;
  p ← get_proc i;
  if (0 <=? n) && (n <=? 5) then read64 (p_tf p + TF_a0 + 8 * n) else panic "argraw".

Definition argint (n : Z) : K Z := x ← argraw n; mret (i32 x).
Definition argaddr (n : Z) : K Z := argraw n.

Definition argstr (n : Z) (buf : list Z) (max : Z) : K (Z * list Z) :=
  addr ← argaddr n;
  fetchstr addr buf max.

(** [if(myproc()->tracing) printf(fmt, myproc()->pid, ...)] *)
Definition trace (fmt : string) (args : list arg) : K unit :=
  i ← curproc;
  p ← get_proc i;
  when (negb (p_tracing p =? 0)) (printf fmt (AInt (p_pid p) :: args)).

(** ** File descriptors *)

Definition argfd (n : Z) : K (option (Z * nat)) :=
  fd ← argint n;
  if (fd <? 0) || (Z.of_nat NOFILE <=? fd) then mret None
  else
    i ← curproc;
    p ← get_proc i;
    f ← deref (p_ofile p !! Z.to_nat fd);
    mret (match f with Some f => Some (fd, f) | None => None end).

Definition fdalloc (f : option nat) : K Z :=
  i ← curproc;
  r ← kfind (seq 0 NOFILE) (fun fd =>
    p ← get_proc i;
    o ← deref (p_ofile p !! fd);
    if bool_decide (o = None) then
      upd_proc i (set p_ofile <[fd := f]>);;
      mret (Some (Z.of_nat fd))
    else mret None);
  mret (default (-1) r).

(** ** Printing for the trace *)

Definition cputc_encoded (c : Z) : K unit :=
  if c =? 10 then printf "\\n" [] else printf "%s" [AStr (Some [c; 0])].

Definition cprintfn (s : list Z) (n : Z) : K unit :=
  kfor (seqZ 0 n) (fun i => c ← deref (s !! Z.to_nat i); cputc_encoded c).
End syscall_args.

Section sysfile.
Context `{Env} (junk_fd : Z) (junk_file : option nat) (junk : list Z) (stack_room : Z) (file_ptr : option nat -> Z).

(** [char path[MAXPATH]] *)
Definition path_buf : list Z := take (Z.to_nat MAXPATH) junk.

(** ** Files *)

(** The file of a bad descriptor is whatever [f] held, and [fdalloc] installs it. *)
Definition sys_dup : K Z :=
  r ← argfd 0;
  let f := match r with Some (_, f) => Some f | None => junk_file end in
  fd ← fdalloc f;
  trace "[%d] sys_dup(%d)\n" [AInt fd];;
  if bool_decide (r = None) then mret (-1)
  else if fd <? 0 then mret (-1)
  else
    f ← deref f;
    filedup f;;
    mret fd.

Definition sys_read : K Z :=
  r ← argfd 0;
  let '(fd, f) := match r with Some (fd, f) => (fd, Some f) | None => (junk_fd, junk_file) end in
  n ← argint 2;
  p ← argaddr 1;
  trace "[%d] sys_read(%d, <%x>, %d)\n" [AInt fd; AInt (file_ptr f); AInt n];;
  match r with
  | None => mret (-1)
  | Some (_, f) => fileread f p n
  end.

(** [char character[n]] has [n] bytes of the kernel stack. *)
Definition sys_write : K Z :=
  r ← argfd 0;
  n ← argint 2;
  p ← argaddr 1;
  (if (n <? 0) || (stack_room <? n) then fault else mret tt);;
  x ← fetchstr p (take (Z.to_nat n) junk) n;
  let character := x.2 in
  i ← curproc;
  q ← get_proc i;
  when (negb (p_tracing q =? 0))
    (trace ("[%d] sys_write(%d, " +:+ quote) [AInt (match r with Some (fd, _) => fd | None => junk_fd end)];;
     cprintfn character n;;
     printf (quote +:+ ", %d)\n") [AInt n]);;
  match r with
  | None => mret (-1)
  | Some (_, f) => filewrite f p n
  end.

Definition sys_close : K Z :=
  r ← argfd 0;
  trace "[%d] sys_close(%d)\n" [AInt (match r with Some (fd, _) => fd | None => junk_fd end)];;
  match r with
  | None => mret (-1)
  | Some (fd, f) =>
    i ← curproc;
    upd_proc i (set p_ofile <[Z.to_nat fd := None]>);;
    fileclose f;;
    mret 0
  end.

Definition sys_fstat : K Z :=
  r ← argfd 0;
  st ← argaddr 1;
  trace "[%d] sys_fstat(%d, <%x>)\n"
    [AInt st; AInt (file_ptr (match r with Some (_, f) => Some f | None => junk_file end))];;
  match r with
  | None => mret (-1)
  | Some (_, f) => filestat f st junk
  end.

(** ** Links *)

(** [ip->nlink--], the label [bad] of [sys_link]. *)
Definition link_bad (ip : nat) : K Z :=
  ilock (Some ip);;
  upd_inode ip (set i_nlink (fun n => i16 (n - 1)));;
  iupdate ip;;
  iunlockput ip;;
  end_op;;
  mret (-1).

Definition sys_link : K Z :=
  old ← argstr 0 path_buf MAXPATH;
  new ← argstr 1 path_buf MAXPATH;
  trace ("[%d] sys_link(" +:+ quote +:+ "%s" +:+ quote +:+ ", " +:+ quote +:+ "%s" +:+ quote +:+ ")\n")
    [AStr (Some old.2); AStr (Some new.2)];;
  if (old.1 <? 0) || (new.1 <? 0) then mret (-1)
  else
    begin_op;;
    r ← namei old.2;
    match r with
    | None => end_op;; mret (-1)
    | Some ip =>
      ilock (Some ip);;
      nd ← get_inode ip;
      if i_type nd =? T_DIR then
        iunlockput ip;;
        end_op;;
        mret (-1)
      else
        upd_inode ip (set i_nlink (fun n => i16 (n + 1)));;
        iupdate ip;;
        iunlock (Some ip);;
        r ← nameiparent new.2 name_buf;
        match r with
        | (None, _) => link_bad ip
        | (Some dp, name) =>
          ilock (Some dp);;
          d ← get_inode dp;
          n ← get_inode ip;
          bad ← (if negb (i_dev d =? i_dev n) then mret true
                 else x ← dirlink dp name (i_inum n); mret (x <? 0));
          if bad : bool then
            iunlockput dp;;
            link_bad ip
          else
            iunlockput dp;;
            iput ip;;
            end_op;;
            mret 0
        end
    end.

Definition isdirempty (dp : nat) : K bool :=
  nd ← get_inode dp;
  r ← kfind (drop 2 (dirent_offs (i_size nd))) (fun off =>
    de ← read_dirent dp off "isdirempty: readi";
    mret (if negb (de.1 =? 0) then Some false else None));
  mret (default true r).

Definition sys_unlink : K Z :=
  path ← argstr 0 path_buf MAXPATH;
  trace ("[%d] sys_unlink(" +:+ quote +:+ "%s" +:+ quote +:+ ")\n") [AStr (Some path.2)];;
  if path.1 <? 0 then mret (-1)
  else
    begin_op;;
    r ← nameiparent path.2 name_buf;
    match r with
    | (None, _) => end_op;; mret (-1)
    | (Some dp, name) =>
      ilock (Some dp);;
      dot ← deref (namecmp name (lit "."));
      dotdot ← (if dot =? 0 then mret 0 else deref (namecmp name (lit "..")));
      let bad := iunlockput dp;; end_op;; mret (-1) in
      if (dot =? 0) || (dotdot =? 0) then bad
      else
        r ← dirlookup dp name;
        match r with
        | None => bad
        | Some (ip, off) =>
          ilock (Some ip);;
          n ← get_inode ip;
          (if i_nlink n <? 1 then panic "unlink: nlink < 1" else mret tt);;
          empty ← (if i_type n =? T_DIR then isdirempty ip else mret true);
          if negb empty then
            iunlockput ip;;
            bad
          else
            w ← writei dp (Local (replicate (Z.to_nat DIRENT_SIZE) 0)) off DIRENT_SIZE;
            (if negb (w =? DIRENT_SIZE) then panic "unlink: writei" else mret tt);;
            when (i_type n =? T_DIR)
              (upd_inode dp (set i_nlink (fun k => i16 (k - 1)));;
               iupdate dp);;
            iunlockput dp;;
            upd_inode ip (set i_nlink (fun k => i16 (k - 1)));;
            iupdate ip;;
            iunlockput ip;;
            end_op;;
            mret 0
        end
    end.

(** ** Creating and opening *)

Definition create (path : list Z) (type major minor : Z) : K (option nat) :=
  r ← nameiparent path name_buf;
  match r with
  | (None, _) => mret None
  | (Some dp, name) =>
    ilock (Some dp);;
    r ← dirlookup dp name;
    match r with
    | Some (ip, _) =>
      iunlockput dp;;
      ilock (Some ip);;
      n ← get_inode ip;
      if (type =? T_FILE) && ((i_type n =? T_FILE) || (i_type n =? T_DEVICE)) then mret (Some ip)
      else iunlockput ip;; mret None
    | None =>
      d ← get_inode dp;
      ip ← ialloc (i_dev d) type;
      ilock (Some ip);;
      upd_inode ip (fun n => n <| i_major := i16 major |> <| i_minor := i16 minor |> <| i_nlink := 1 |>);;
      iupdate ip;;
      n ← get_inode ip;
      when (type =? T_DIR)
        (upd_inode dp (set i_nlink (fun k => i16 (k + 1)));;
         iupdate dp;;
         r1 ← dirlink ip (lit ".") (i_inum n);
         r2 ← (if r1 <? 0 then mret 0 else dirlink ip (lit "..") (i_inum d));
         if (r1 <? 0) || (r2 <? 0) then panic "create dots" else mret tt);;
      r ← dirlink dp name (i_inum n);
      (if r <? 0 then panic "create: dirlink" else mret tt);;
      iunlockput dp;;
      mret (Some ip)
    end
  end.

(** The first half: the inode, locked, or [None] where it returns -1. *)
Definition open_inode (path : list Z) (omode : Z) : K (option nat) :=
  if negb (Z.land omode O_CREATE =? 0) then
    r ← create path T_FILE 0 0;
    match r with
    | None => end_op;; mret None
    | Some ip => mret (Some ip)
    end
  else
    r ← namei path;
    match r with
    | None => end_op;; mret None
    | Some ip =>
      ilock (Some ip);;
      n ← get_inode ip;
      if (i_type n =? T_DIR) && negb (omode =? O_RDONLY) then
        iunlockput ip;;
        end_op;;
        mret None
      else mret (Some ip)
    end.

Definition sys_open : K Z :=
  path ← argstr 0 path_buf MAXPATH;
  omode ← argint 1;
  trace ("[%d] sys_open(" +:+ quote +:+ "%s" +:+ quote +:+ ", <%d>)\n") [AStr (Some path.2); AInt omode];;
  if path.1 <? 0 then mret (-1)
  else
    begin_op;;
    r ← open_inode path.2 omode;
    match r with
    | None => mret (-1)
    | Some ip =>
      n ← get_inode ip;
      if (i_type n =? T_DEVICE) && ((i_major n <? 0) || (NDEV <=? i_major n)) then
        iunlockput ip;;
        end_op;;
        mret (-1)
      else
        r ← filealloc;
        fd ← (if bool_decide (r = None) then mret (-1) else fdalloc r);
        match r with
        | Some f =>
          if fd <? 0 then
            fileclose f;;
            iunlockput ip;;
            end_op;;
            mret (-1)
          else
            n ← get_inode ip;
            (if i_type n =? T_DEVICE then
               upd_file f (fun x => x <| f_type := FD_DEVICE |> <| f_major := i_major n |>)
             else upd_file f (fun x => x <| f_type := FD_INODE |> <| f_off := 0 |>));;
            upd_file f (fun x =>
              x <| f_ip := Some ip |>
                <| f_readable := if Z.land omode O_WRONLY =? 0 then 1 else 0 |>
                <| f_writable := if negb (Z.land omode O_WRONLY =? 0) || negb (Z.land omode O_RDWR =? 0)
                                 then 1 else 0 |>);;
            iunlock (Some ip);;
            end_op;;
            mret fd
        | None =>
          iunlockput ip;;
          end_op;;
          mret (-1)
        end
    end.

(** [create] runs before the results of the fetches are looked at. *)
Definition sys_mkdir : K Z :=
  begin_op;;
  path ← argstr 0 path_buf MAXPATH;
  r ← create path.2 T_DIR 0 0;
  trace ("[%d] sys_mkdir(" +:+ quote +:+ "%s" +:+ quote +:+ ")\n") [AStr (Some path.2)];;
  match r with
  | Some ip => if path.1 <? 0 then end_op;; mret (-1) else iunlockput ip;; end_op;; mret 0
  | None => end_op;; mret (-1)
  end.

Definition sys_mknod : K Z :=
  begin_op;;
  path ← argstr 0 path_buf MAXPATH;
  major ← argint 1;
  minor ← argint 2;
  r ← create path.2 T_DEVICE (i16 major) (i16 minor);
  trace ("[%d] sys_mknod(" +:+ quote +:+ "%s" +:+ quote +:+ ", %d, %d)\n")
    [AStr (Some path.2); AInt major; AInt minor];;
  match r with
  | Some ip => if path.1 <? 0 then end_op;; mret (-1) else iunlockput ip;; end_op;; mret 0
  | None => end_op;; mret (-1)
  end.

Definition sys_chdir : K Z :=
  i ← curproc;
  begin_op;;
  path ← argstr 0 path_buf MAXPATH;
  r ← namei path.2;
  trace ("[%d] sys_chdir(" +:+ quote +:+ "%s" +:+ quote +:+ ")\n") [AStr (Some path.2)];;
  match r with
  | Some ip =>
    if path.1 <? 0 then end_op;; mret (-1)
    else
      ilock (Some ip);;
      n ← get_inode ip;
      if negb (i_type n =? T_DIR) then
        iunlockput ip;;
        end_op;;
        mret (-1)
      else
        iunlock (Some ip);;
        p ← get_proc i;
        cwd ← deref (p_cwd p);
        iput cwd;;
        end_op;;
        upd_proc i (set p_cwd (fun _ => Some ip));;
        mret 0
  | None => end_op;; mret (-1)
  end.

(** ** exec *)

(** The loop that fetches the arguments: the pages of [argv] up to its null pointer, and whether
    it went to [bad]. *)
Definition fetch_argv (uargv : Z) : K (list Z * bool) :=
  kloop (S (Z.to_nat MAXARG)) (fun argv : list Z =>
    let i := Z.of_nat (length argv) in
    if MAXARG <=? i then mret (inr (argv, true))
    else
      uarg ← fetchaddr (u64 (uargv + 8 * i));
      match uarg with
      | None => mret (inr (argv, true))
      | Some uarg =>
        if uarg =? 0 then mret (inr (argv, false))
        else
          pg ← kalloc;
          (if pg =? 0 then panic "sys_exec kalloc" else mret tt);;
          buf ← get_page pg;
          r ← fetchstr uarg buf PGSIZE;
          set_page pg r.2;;
          if r.1 <? 0 then mret (inr (argv ++ [pg], true))
          else mret (inl (argv ++ [pg]))
      end) [].

Definition sys_exec : K Z :=
  path ← argstr 0 path_buf MAXPATH;
  if path.1 <? 0 then mret (-1)
  else
    uargv ← argaddr 1;
    x ← fetch_argv uargv;
    let '(argv, bad) := x in
    if bad : bool then kfor argv kfree;; mret (-1)
    else
      i ← curproc;
      p ← get_proc i;
      when (negb (p_tracing p =? 0))
        (arg2 ← match argv !! 2%nat with
                | Some pg => bs ← get_page pg; mret (Some bs)
                | None => mret None
                end;
         trace ("[%d] sys_exec(" +:+ quote +:+ "%s" +:+ quote +:+ ",[" +:+ quote +:+ "%s" +:+ quote +:+ ",%s])\n")
           [AStr (Some path.2); AStr (Some path.2); AStr arg2]);;
      ret ← exec path.2 argv;
      kfor argv kfree;;
      mret ret.

(** ** Pipes *)

Definition sys_pipe : K Z :=
  i ← curproc;
  fdarray ← argaddr 0;
  x ← pipealloc;
  let '(rv2, rf, wf) := x in
  trace "[%d] sys_pipe(<%x>)\n" [AInt fdarray];;
  if rv2 <? 0 then mret (-1)
  else
    let close := (f ← deref rf; fileclose f;; f ← deref wf; fileclose f;; mret (-1)) in
    fd0 ← fdalloc rf;
    fd1 ← (if fd0 <? 0 then mret (-1) else fdalloc wf);
    if (fd0 <? 0) || (fd1 <? 0) then
      when (0 <=? fd0) (upd_proc i (set p_ofile <[Z.to_nat fd0 := None]>));;
      close
    else
      p ← get_proc i;
      r0 ← copyout (p_pagetable p) fdarray (le_bytes 4 fd0) 4;
      r1 ← (if r0 <? 0 then mret 0 else copyout (p_pagetable p) (u64 (fdarray + 4)) (le_bytes 4 fd1) 4);
      if (r0 <? 0) || (r1 <? 0) then
        upd_proc i (set p_ofile <[Z.to_nat fd0 := None]>);;
        upd_proc i (set p_ofile <[Z.to_nat fd1 := None]>);;
        close
      else mret 0.

(** ** Suspending and containers *)

Definition sys_suspend : K Z :=
  pid ← argint 0;
  r ← argfd 1;
  match r with
  | None => printf ("sys_suspend() read " +:+ quote +:+ "file" +:+ quote +:+ " failed\n") [];; mret (-1)
  | Some (_, f) => ksuspend pid f;; mret 0
  end.

Definition sys_resume : K Z :=
  path ← argstr 0 path_buf MAXPATH;
  if path.1 <? 0 then printf "sys_resume() read filename failed\n" [];; mret (-1)
  else kresume path.2;; mret 0.

Definition sys_ccreate : K Z :=
  path ← argstr 0 path_buf MAXPATH;
  if path.1 <? 0 then mret (-1) else kccreate path.2.

Definition sys_cfork : K Z :=
  path ← argstr 0 path_buf MAXPATH;
  if path.1 <? 0 then printf "sys_cfork: cannot get contaienr path\n" [];; mret (-1)
  else kcfork path.2.

Definition sys_cstart : K Z :=
  contname ← argstr 0 path_buf MAXPATH;
  vcname ← argstr 1 path_buf MAXPATH;
  disksize ← argint 2;
  if (contname.1 <? 0) || (vcname.1 <? 0) then printf "sys_cstart: passing argument error\n" [];; mret (-1)
  else kcstart contname.2 vcname.2 (u64 disksize).

Definition sys_cstop : K Z :=
  contname ← argstr 0 path_buf MAXPATH;
  if contname.1 <? 0 then printf "sys_cstart: argstr path error\n" [];; mret (-1)
  else kcstop contname.2.

Definition sys_cpause : K Z :=
  contname ← argstr 0 path_buf MAXPATH;
  if contname.1 <? 0 then printf "sys_cstart: argstr path error\n" [];; mret (-1)
  else kcpause contname.2.

Definition sys_cresume : K Z :=
  contname ← argstr 0 path_buf MAXPATH;
  if contname.1 <? 0 then printf "sys_cstart: argstr path error\n" [];; mret (-1)
  else kcresume contname.2.
End sysfile.
