(* ===== verification/Trap.v ===== *)
(** The other system calls ([kernel/sysproc.c]), their dispatch ([kernel/syscall.c]), traps and
    interrupts ([kernel/trap.c], [forkret] of [kernel/proc.c]) and the start of the kernel
    ([kernel/main.c]).

    The registers a trap handler reads are arguments.  [usertrapret] ends in the jump to [userret] of
    [trampoline.S]: its result is what the processor then runs with. *)
From S2P Require Import Prelude Types Kstate Cstring Spinlock Frame Printf Accounting Kalloc Vm Proc Console Bio Log Fs File Process Container Sysfile.
From stdpp Require Import base numbers list gmap strings.
From Stdlib Require Import ZArith Lia.

Local Open Scope Z_scope.
Local Open Scope xv6_scope.

Definition SSTATUS_SPP : Z := Z.shiftl 1 8.
Definition SSTATUS_SPIE : Z := Z.shiftl 1 5.
Definition SATP_SV39 : Z := u64 (Z.shiftl 8 60).
Definition MAKE_SATP (pagetable : Z) : Z := Z.lor SATP_SV39 (Z.shiftr pagetable 12).
Definition UART0_IRQ : Z := 10.
Definition VIRTIO0_IRQ : Z := 1.

(** What [userret] is entered with: [stvec], [sstatus], [sepc] and its second argument. *)
Record uentry := mkuentry { ue_stvec : Z; ue_sstatus : Z; ue_sepc : Z; ue_satp : Z }.

(** The registers a trap sets, the interrupt the PLIC hands out and the characters the uart has. *)
Record traps := mktraps { tr_scause : Z; tr_sepc : Z; tr_stval : Z; tr_sstatus : Z; tr_irq : Z; tr_input : list Z }.

Section sysproc.
Context `{Env} (junk : list Z).

Definition sys_exit : K Z :=
  n ← argint 0;
  trace "[%d] sys_exit(%d)\n" [AInt n];;
  exit n.

Definition sys_getpid : K Z :=
  trace "[%d] sys_getpid()\n" [];;
  i ← curproc;
  p ← get_proc i;
  mret (p_pid p).

Definition sys_fork : K Z :=
  trace "[%d] sys_fork()\n" [];;
  fork None.

Definition sys_wait : K Z :=
  p ← argaddr 0;
  trace "[%d] sys_wait(%d)\n" [AInt p];;
  wait p.

Definition sys_sbrk : K Z :=
  n ← argint 0;
  trace "[%d] sys_sbrk(%d)\n" [AInt n];;
  i ← curproc;
  p ← get_proc i;
  let addr := i32 (p_sz p) in
  r ← growproc n;
  mret (if r <? 0 then -1 else addr).

(** [ticks - ticks0 < n] compares unsigned. *)
Definition sys_sleep : K Z :=
  n ← argint 0;
  trace "[%d] sys_sleep(%d)\n" [AInt n];;
  acquire LTicks;;
  ticks0 ← gets k_ticks;
  kloop (S env_patience) (fun _ : unit =>
    ticks ← gets k_ticks;
    if u32 (ticks - ticks0) <? u32 n then
      i ← curproc;
      p ← get_proc i;
      if negb (p_killed p =? 0) then
        release LTicks;;
        mret (inr (-1))
      else
        sleep CTicks LTicks;;
        mret (inl tt)
    else
      release LTicks;;
      mret (inr 0)) tt.

Definition sys_kill : K Z :=
  pid ← argint 0;
  trace "[%d] sys_kill(%d)\n" [AInt pid];;
  kill pid.

Definition sys_uptime : K Z :=
  trace "[%d] sys_uptime()\n" [];;
  acquire LTicks;;
  xticks ← gets k_ticks;
  release LTicks;;
  mret xticks.

Definition sys_numprocs : K Z := numprocs.

Definition sys_traceon : K Z :=
  trace "[%d] sys_traceon()\n" [];;
  ktraceon.

Definition sys_psinfo : K Z :=
  info_p ← argaddr 0;
  trace "[%d] sys_pinfo()\n" [];;
  kpinfo info_p junk.

Definition sys_cinfo : K Z :=
  info_c ← argaddr 0;
  continfo info_c junk.

Definition sys_df : K Z := kcdf.
Definition sys_cfree : K Z := kcfreemem.

Definition sys_setmaxcmem : K Z :=
  path ← argstr 0 (path_buf junk) MAXPATH;
  if path.1 <? 0 then printf "sys_setmaxcmem() read filename failed\n" [];; mret (-1)
  else mem ← argint 1; setmaxmem path.2 mem.

Definition sys_setmaxcdsk : K Z :=
  path ← argstr 0 (path_buf junk) MAXPATH;
  if path.1 <? 0 then printf "sys_setmamcdsk() read filename failed\n" [];; mret (-1)
  else dsk ← argint 1; setmaxdsk path.2 dsk.

Definition sys_setmaxcproc : K Z :=
  path ← argstr 0 (path_buf junk) MAXPATH;
  if path.1 <? 0 then printf "sys_setmaxcproc() read filename failed\n" [];; mret (-1)
  else numproc ← argint 1; setmaxproc path.2 numproc.

Definition sys_getticks : K Z :=
  i ← curproc;
  p ← get_proc i;
  mret (p_ticks p).
End sysproc.

Section syscall.
Context `{Env} (junk_fd : Z) (junk_file : option nat) (junk : list Z) (stack_room : Z) (file_ptr : option nat -> Z).

(** [syscalls[]], by the numbers of [syscall.h]. *)
Definition syscalls : list (K Z) :=
  [sys_fork; sys_exit; sys_wait; sys_pipe; sys_read junk_fd junk_file file_ptr;
   sys_kill; sys_exec junk; sys_fstat junk_file junk file_ptr; sys_chdir junk; sys_dup junk_file;
   sys_getpid; sys_sbrk; sys_sleep; sys_uptime; sys_open junk;
   sys_write junk_fd junk stack_room; sys_mknod junk; sys_unlink junk; sys_link junk; sys_mkdir junk;
   sys_close junk_fd; sys_numprocs; sys_traceon; sys_psinfo junk; sys_suspend;
   sys_resume junk; sys_ccreate junk; sys_cstart junk; sys_cfork junk; sys_cstop junk;
   sys_cpause junk; sys_cresume junk; sys_cinfo junk; sys_df; sys_cfree;
   sys_setmaxcmem junk; sys_setmaxcdsk junk; sys_setmaxcproc junk; sys_getticks].

Definition syscall : K unit :=
  i ← curproc;
  p ← get_proc i;
  a7 ← read64 (p_tf p + TF_a7);
  let num := i32 a7 in
  match (if 0 <? num then syscalls !! Z.to_nat (num - 1) else None) with
  | Some call =>
    r ← call;
    p ← get_proc i;
    write64 (p_tf p + TF_a0) (u64 r)
  | None =>
    printf "%d %s: unknown sys call %d\n" [AInt (p_pid p); AStr (Some (p_name p)); AInt num];;
    write64 (p_tf p + TF_a0) (u64 (-1))
  end.

(** ** Traps *)

Definition trapinit : K unit := initlock LTicks.

Definition clockintr : K unit :=
  acquire LTicks;;
  modify (set k_ticks (fun t => u32 (t + 1)));;
  wakeup CTicks;;
  release LTicks.

(** A transfer of [disk_rw] is complete when it returns, so [virtio_disk_intr] finds nothing in the
    used ring: it takes its lock and lets it go. *)
Definition devintr (t : traps) : K Z :=
  let scause := tr_scause t in
  if negb (Z.land scause 0x8000000000000000 =? 0) && (Z.land scause 0xff =? 9) then
    (if tr_irq t =? UART0_IRQ then uartintr (tr_input t)
     else if tr_irq t =? VIRTIO0_IRQ then acquire LVdisk;; release LVdisk
     else mret tt);;
    mret 1
  else if scause =? 0x8000000000000001 then
    id ← cpuid;
    when (id =? 0)%nat clockintr;;
    mret 2
  else mret 0.

(** [uservec], [userret] and [usertrap] are addresses of code; [sstatus] is what [r_sstatus] reads. *)
Definition usertrapret (uservec usertrap sstatus : Z) : K uentry :=
  i ← curproc;
  p ← get_proc i;
  intr_off;;
  let stvec := u64 (TRAMPOLINE + (uservec - sym_trampoline)) in
  kpt ← gets k_kpt;
  write64 (p_tf p + TF_kernel_satp) (MAKE_SATP kpt);;
  write64 (p_tf p + TF_kernel_sp) (u64 (p_kstack p + PGSIZE));;
  write64 (p_tf p + TF_kernel_trap) usertrap;;
  id ← cpuid;
  write64 (p_tf p + TF_kernel_hartid) (Z.of_nat id);;
  let x := Z.lor (Z.land sstatus (Z.lnot SSTATUS_SPP)) SSTATUS_SPIE in
  epc ← read64 (p_tf p + TF_epc);
  mret (mkuentry stvec x epc (MAKE_SATP (p_pagetable p))).

Definition usertrap (uservec usertrap_addr : Z) (t : traps) : K uentry :=
  (if negb (Z.land (tr_sstatus t) SSTATUS_SPP =? 0) then panic "usertrap: not from user mode" else mret tt);;
  i ← curproc;
  p ← get_proc i;
  write64 (p_tf p + TF_epc) (tr_sepc t);;
  which_dev ← (if tr_scause t =? 8 then
                 p ← get_proc i;
                 (if negb (p_killed p =? 0) then exit (-1) else mret tt);;
                 epc ← read64 (p_tf p + TF_epc);
                 write64 (p_tf p + TF_epc) (u64 (epc + 4));;
                 intr_on;;
                 syscall;;
                 mret 0
               else
                 which_dev ← devintr t;
                 if negb (which_dev =? 0) then mret which_dev
                 else
                   p ← get_proc i;
                   printf "usertrap(): unexpected scause %p pid=%d\n" [AInt (tr_scause t); AInt (p_pid p)];;
                   printf "            sepc=%p stval=%p\n" [AInt (tr_sepc t); AInt (tr_stval t)];;
                   upd_proc i (set p_killed (fun _ => 1));;
                   mret 0);
  p ← get_proc i;
  (if negb (p_killed p =? 0) then exit (-1) else mret tt);;
  when (which_dev =? 2) yield;;
  usertrapret uservec usertrap_addr (tr_sstatus t).

(** The registers it leaves: [sepc] and [sstatus]. *)
Definition kerneltrap (t : traps) : K (Z * Z) :=
  (if Z.land (tr_sstatus t) SSTATUS_SPP =? 0 then panic "kerneltrap: not from supervisor mode" else mret tt);;
  on ← intr_get;
  (if on : bool then panic "kerneltrap: interrupts enabled" else mret tt);;
  which_dev ← devintr t;
  (if which_dev =? 0 then
     printf "scause %p\n" [AInt (tr_scause t)];;
     printf "sepc=%p stval=%p\n" [AInt (tr_sepc t); AInt (tr_stval t)];;
     panic "kerneltrap"
   else mret tt);;
  running ← (if which_dev =? 2 then
               o ← myproc;
               match o with
               | Some i => p ← get_proc i; mret (bool_decide (p_state p = RUNNING))
               | None => mret false
               end
             else mret false);
  when running yield;;
  mret (tr_sepc t, tr_sstatus t).

Definition forkret (uservec usertrap_addr sstatus : Z) : K uentry :=
  i ← curproc;
  release (LProc i);;
  first ← gets k_first;
  when first
    (modify (set k_first (fun _ => false));;
     fsinit ROOTDEV);;
  usertrapret uservec usertrap_addr sstatus.

(** What [main] does on hart 0 before [scheduler]: the set-up of paging, the PLIC and the disk only
    writes device registers. *)
Definition main : K unit :=
  consoleinit;;
  printfinit;;
  printf "\n" [];;
  printf "xv6 kernel is booting\n" [];;
  printf "\n" [];;
  kinit;;
  kvminit;;
  cinit;;
  trapinit;;
  binit;;
  iinit;;
  fileinit;;
  userinit.
End syscall.
