(* ===== verification/Stubs.v ===== *)
(** The way of a system call from a user program to its handler: the numbers of [kernel/syscall.h], the stubs that
    [user/usys.pl] generates and [user/initcode.S], run by [Machine], and the dispatch of [Trap].

    The trap frame is where the two models meet: [same_frame] says that the page the kernel's state has for it holds
    the words of the machine's memory. *)
From S2P Require Import Prelude Types Kstate Cstring Spinlock Frame Printf Accounting Kalloc Vm Pagetable Proc Console Bio Log Fs File Process Container Sysfile Trap Machine Asm.
From stdpp Require Import functions base numbers list gmap strings.
From Stdlib Require Import ZArith Lia.

Local Open Scope Z_scope.
Local Open Scope xv6_scope.

(** ** [kernel/syscall.h] *)

(** The numbers [SYS_<name>]. *)
Definition syscall_numbers : list (string * Z) :=
  [("fork", 1); ("exit", 2); ("wait", 3); ("pipe", 4); ("read", 5); ("kill", 6); ("exec", 7); ("fstat", 8);
   ("chdir", 9); ("dup", 10); ("getpid", 11); ("sbrk", 12); ("sleep", 13); ("uptime", 14); ("open", 15);
   ("write", 16); ("mknod", 17); ("unlink", 18); ("link", 19); ("mkdir", 20); ("close", 21);
   ("numprocs", 22); ("traceon", 23); ("psinfo", 24); ("suspend", 25); ("resume", 26); ("ccreate", 27);
   ("cstart", 28); ("cfork", 29); ("cstop", 30); ("cpause", 31); ("cresume", 32); ("cinfo", 33); ("df", 34);
   ("cfree", 35); ("setmaxcmem", 36); ("setmaxcdsk", 37); ("setmaxcproc", 38); ("getticks", 39)].
Definition SYS (name : string) : Z :=
  match list_find (fun x => x.1 = name) syscall_numbers with Some x => x.2.2 | None => 0 end.

(** ** [user/usys.pl] *)

(** [sub entry] *)
Definition stub (num : Z) : list instr := [Li A7 num; Ecall; Jr RA].
Definition usys : list (string * Z) :=
  (fun name => (name, SYS name)) <$>
  ["fork"; "exit"; "wait"; "pipe"; "read"; "write"; "close"; "kill"; "exec"; "open"; "mknod"; "unlink";
   "fstat"; "link"; "mkdir"; "chdir"; "dup"; "getpid"; "sbrk"; "sleep"; "uptime"; "numprocs"; "traceon";
   "psinfo"; "suspend"; "resume"; "ccreate"; "cstart"; "cfork"; "cstop"; "cpause"; "cresume"; "cinfo"; "df";
   "cfree"; "setmaxcmem"; "setmaxcdsk"; "setmaxcproc"; "getticks"].

(** ** [user/initcode.S] *)

(** With the addresses of [init] and [argv], and of the loop that exits. *)
Definition initcode_start (init argv : Z) : list instr := [Li A0 init; Li A1 argv; Li A7 (SYS "exec"); Ecall].
Definition initcode_exit (exit_addr : Z) : list instr := [Li A7 (SYS "exit"); Ecall; Jal exit_addr].

(** ** Dispatch *)

Section dispatch.
Context {EN : Env} (junk_fd : Z) (junk_file : option nat) (junk : list Z) (stack_room : Z) (file_ptr : option nat -> Z).

(** The handler meant for a system call, by its name. *)
Definition handlers : list (string * K Z) :=
  [("fork", sys_fork); ("exit", sys_exit); ("wait", sys_wait); ("pipe", sys_pipe);
   ("read", sys_read junk_fd junk_file file_ptr); ("write", sys_write junk_fd junk stack_room);
   ("close", sys_close junk_fd); ("kill", sys_kill); ("exec", sys_exec junk); ("open", sys_open junk);
   ("mknod", sys_mknod junk); ("unlink", sys_unlink junk); ("fstat", sys_fstat junk_file junk file_ptr);
   ("link", sys_link junk); ("mkdir", sys_mkdir junk); ("chdir", sys_chdir junk);
   ("dup", sys_dup junk_file); ("getpid", sys_getpid); ("sbrk", sys_sbrk); ("sleep", sys_sleep);
   ("uptime", sys_uptime); ("numprocs", sys_numprocs); ("traceon", sys_traceon);
   ("psinfo", sys_psinfo junk); ("suspend", sys_suspend); ("resume", sys_resume junk);
   ("ccreate", sys_ccreate junk); ("cstart", sys_cstart junk); ("cfork", sys_cfork junk);
   ("cstop", sys_cstop junk); ("cpause", sys_cpause junk); ("cresume", sys_cresume junk);
   ("cinfo", sys_cinfo junk); ("df", sys_df); ("cfree", sys_cfree); ("setmaxcmem", sys_setmaxcmem junk);
   ("setmaxcdsk", sys_setmaxcdsk junk); ("setmaxcproc", sys_setmaxcproc junk); ("getticks", sys_getticks)].

Lemma usys_handler k name num : usys !! k = Some (name, num) -> exists h, handlers !! k = Some (name, h) /\ 0 < num < 2 ^ 31 /\
  syscalls junk_fd junk_file junk stack_room file_ptr !! Z.to_nat (num - 1) = Some h.
Proof.
  intros H. apply lookup_lt_Some in H as Hk. change (length usys) with 39%nat in Hk.
  do 39 (destruct k as [|k]; [cbn in H; injection H as <- <-; eexists; split_and!; reflexivity|]). lia.
Qed.

(** The words of [struct trapframe] at [tf] are those of the machine's memory. *)
Definition same_frame (mem : gmap Z Z) (tf : Z) (s : kstate) : Prop :=
  page_in (k_mem s) tf /\ forall i, 0 <= i < 36 -> mem !! (tf + 8 * i) = Some (entry (k_mem s) tf i).

(** The stub of a call, and what [uservec] saves of the trap. *)
Lemma run_stub {PF : Platform} num m : 0 < num < 2 ^ 31 -> exists m', run (stub num) m = Some (Trap_ecall, m') /\
  get m' A7 = num /\ forall r, r <> A7 -> get m' r = get m r.
Proof.
  intros Hn. exists (put A7 num m). split_and!; [done| |].
  - change (u64 num = num). apply u64_word. lia.
  - intros r Hr. unfold get, put. destruct (decide (r = ZERO)); [done|]. destruct (decide (A7 = ZERO)); [done|]. cbn [m_reg set]. by rewrite fn_lookup_insert_ne.
Qed.

Lemma uservec_saves {PF : Platform} m tf : m_priv m = Supervisor_mode -> words m -> m_csr m SSCRATCH = TRAPFRAME -> mapped m TRAPFRAME tf 288 ->
  exists trap m', run uservec m = Some (Jump trap, m') /\ m_mem m' !! (tf + TF_a0) = Some (get m A0) /\
    forall r o, (r, o) ∈ trap_regs -> m_mem m' !! (tf + o) = Some (get m r).
Proof.
  intros Hp Hw Hss Hmap. destruct (run_uservec m tf Hp Hw Hss Hmap) as (m1 & satp & ksp & trap & hart & Hrun & _ & _ & _ & _ & _ & _ & _ & _ & Hmem).
  exists trap, m1. split_and!; [done|rewrite Hmem; apply lookup_insert_eq|]. intros r o Hin. destruct trap_layout as (Hnd & _ & Hok).
  pose proof (proj1 (Forall_forall _ _) Hok _ Hin) as (_ & _ & Hr). cbn [fst] in Hr. apply trap_offsets in Hin as Ho.
  rewrite Hmem, lookup_insert_ne, (stored_lookup _ _ _ _ r o) by (done || lia). unfold get. by rewrite decide_False.
Qed.

(** [syscall] with the number of a call in the trap frame. *)
Lemma syscall_runs num h i p s :
  0 < num < 2 ^ 31 -> syscalls junk_fd junk_file junk stack_room file_ptr !! Z.to_nat (num - 1) = Some h ->
  hart_ok (k_hart s) -> ht_proc (k_hart s) = Some i -> k_procs s !! i = Some p -> good_page (p_tf p) ->
  page_in (k_mem s) (p_tf p) -> entry (k_mem s) (p_tf p) 21 = num ->
  syscall junk_fd junk_file junk stack_room file_ptr s =
  (r ← h; p ← get_proc i; write64 (p_tf p + TF_a0) (u64 r)) (norm s).
Proof.
  intros Hn Hs Hh Hi Hp Hg Hpage Ha7. unfold syscall. 
  assert (curproc s = Ok i (norm s)) as Hcur.
  { unfold curproc, mbind, K_bind. rewrite myproc_eq by done. by rewrite Hi. }
  assert (get_proc i (norm s) = Ok p (norm s)) as Hget.
  { assert (wp (get_proc i) (fun q s' => q = p /\ s' = norm s) (norm s)) as (q & s' & E & -> & ->)%wp_inv by (by eapply wp_get_proc). exact E. }
  assert (read64 (p_tf p + TF_a7) (norm s) = Ok num (norm s)) as Hread.
  { assert (wp (read64 (p_tf p + 8 * 21)) (fun v s' => v = num /\ s' = norm s) (norm s)) as (v & s' & E & -> & ->)%wp_inv; [|exact E].
    apply wp_read64; [done|done|lia|]. done. }
  unfold mbind at 1, K_bind at 1. rewrite Hcur. unfold mbind at 1, K_bind at 1. rewrite Hget. unfold mbind at 1, K_bind at 1. rewrite Hread.
  rewrite i32_small by lia. rewrite (proj2 (Z.ltb_lt 0 num)) by lia. by rewrite Hs.
Qed.

(** The result of the handler in the trap frame. *)
Lemma store_result tf i p r s :
  k_procs s !! i = Some p -> p_tf p = tf -> good_page tf -> page_in (k_mem s) tf ->
  exists s', (p ← get_proc i; write64 (p_tf p + TF_a0) (u64 r)) s = Ok tt s' /\
    forall j, 0 <= j < 36 -> entry (k_mem s') tf j = if j =? 14 then u64 r else entry (k_mem s) tf j.
Proof.
  intros Hp <- Hg (bs & Hbs & Hlen).
  assert (wp (p ← get_proc i; write64 (p_tf p + TF_a0) (u64 r))
    (fun _ s' => s' = s <| k_mem ::= <[p_tf p := store 8 (Z.to_nat (8 * 14)) (u64 r) bs]> |>) s) as ([] & s' & E & ->)%wp_inv.
  { kstep. by eapply (wp_write64 _ 14); [..|lia|]. }
  eexists. split; [exact E|]. intros j Hj. unfold entry. kfields. rewrite lookup_insert_eq, Hbs. destruct (Z.eqb_spec j 14) as [->|Hne].
  - rewrite load_store_same by (rewrite Hlen; vm_compute; lia). apply Z.mod_small, Z.mod_pos_bound. done.
  - apply load_store_ne; [rewrite Hlen; unfold PGSIZE; lia|]. lia.
Qed.

End dispatch.

(** ** Example: a process asks for its pid *)

Section example.
#[local] Existing Instances small_machine flat.

Definition some_regs : reg -> Z := fun _ => 7.
Definition some_csrs : csr -> Z := fun c => if decide (c = SSCRATCH) then TRAPFRAME else 0.
Definition caller : machine := small User_mode TRAPFRAME 36 some_regs some_csrs.
Definition trapped : machine := small Supervisor_mode TRAPFRAME 36 (<[A7 := 11]> some_regs) some_csrs.
Definition saved : machine := match run uservec trapped with Some (_, m) => m | None => trapped end.

(** The page of the trap frame with the words of a machine. *)
Definition frame_page (m : machine) : list Z :=
  concat ((fun i => le_bytes 8 (default 0 (m_mem m !! (TRAPFRAME + 8 * i)))) <$> seqZ 0 512).
Definition getpid_proc : proc := zero_proc <| p_pid := 42 |> <| p_state := RUNNING |> <| p_tf := TRAPFRAME |>.
Definition in_getpid (page : list Z) : kstate :=
  bss <| k_hart := mkhart 0 (Some 0%nat) 0 false false |> <| k_mem := {[ TRAPFRAME := page ]} |>
      <| k_procs ::= <[0%nat := getpid_proc]> |>.

Lemma in_getpid_ok page : let s := in_getpid page in
  hart_ok (k_hart s) /\ ht_proc (k_hart s) = Some 0%nat /\ k_procs s !! 0%nat = Some getpid_proc /\ k_mem s !! TRAPFRAME = Some page.
Proof. split_and!; [done|done|done|]. exact (lookup_singleton_eq TRAPFRAME page). Qed.

Lemma load_words l : forall i v, l !! i = Some v -> load 8 (8 * i) (concat (le_bytes 8 <$> l)) = v mod 2 ^ 64.
Proof.
  induction l as [|x l IH]; intros i v Hi; [done|]. rewrite fmap_cons. cbn [concat]. destruct i as [|i].
  - injection Hi as ->. unfold load, slice. rewrite Nat.mul_0_r, drop_0, take_app_length' by (by rewrite length_le_bytes).
    apply (le_value_bytes 8).
  - rewrite <- (IH i v Hi). unfold load, slice. replace (8 * S i)%nat with (length (le_bytes 8 x) + 8 * i)%nat by (rewrite length_le_bytes; lia).
    by rewrite drop_app_add.
Qed.

Definition words_ok (m : machine) : bool :=
  forallb (fun i => match m_mem m !! (TRAPFRAME + 8 * i) with Some v => (0 <=? v) && (v <? 2 ^ 64) | None => false end) (seqZ 0 36).

Lemma words_ok_at m i : words_ok m = true -> 0 <= i < 36 -> exists v, m_mem m !! (TRAPFRAME + 8 * i) = Some v /\ 0 <= v < 2 ^ 64.
Proof.
  intros H Hi. unfold words_ok in H. rewrite forallb_forall in H. specialize (H i). rewrite <- list_elem_of_In, elem_of_seqZ in H.
  specialize (H ltac:(lia)). destruct (m_mem m !! _) as [v|]; [|done]. exists v. split; [done|lia].
Qed.

Lemma frame_page_same m s : words_ok m = true -> k_mem s !! TRAPFRAME = Some (frame_page m) -> same_frame (m_mem m) TRAPFRAME s.
Proof.
  intros Hok Hmem. assert (forall l, length (concat (le_bytes 8 <$> l)) = (8 * length l)%nat) as Hlen.
  { induction l as [|x l IH]; [done|]. rewrite fmap_cons. cbn [concat length]. rewrite length_app, length_le_bytes, IH. lia. }
  set (f := fun i => default 0 (m_mem m !! (TRAPFRAME + 8 * i))).
  assert (frame_page m = concat (le_bytes 8 <$> (f <$> seqZ 0 512))) as E by (unfold frame_page; by rewrite <- list_fmap_compose).
  split; [eexists; split; [exact Hmem|rewrite E, Hlen, length_fmap, length_seqZ; done]|]. intros i Hi.
  destruct (words_ok_at m i Hok Hi) as (v & Hv & Hw). unfold entry. rewrite Hmem, E, Hv. f_equal.
  replace (Z.to_nat (8 * i)) with (8 * Z.to_nat i)%nat by lia. rewrite (load_words _ _ v); [by rewrite Z.mod_small|].
  rewrite list_lookup_fmap, lookup_seqZ_lt, Z.add_0_l, Z2Nat.id by lia. unfold f. cbn [fmap option_fmap option_map]. by rewrite Hv.
Qed.

Lemma saved_frame : same_frame (m_mem saved) TRAPFRAME (in_getpid (frame_page saved)).
Proof. apply frame_page_same; [vm_compute; reflexivity|]. apply in_getpid_ok. Qed.

Lemma trapped_ok : words trapped /\ mapped trapped TRAPFRAME TRAPFRAME 288.
Proof.
  split; [|apply small_mapped; by vm_compute]. split; [|intros a v; by apply ram_words].
  apply word_insert; [lia|]. intros r. unfold some_regs. lia.
Qed.

Lemma saved_run : run uservec trapped = Some (Jump 2, saved).
Proof.
  destruct trapped_ok as [Hw Hm]. destruct (uservec_saves trapped TRAPFRAME eq_refl Hw eq_refl Hm) as (trap & m & Hrun & _).
  assert (match run uservec trapped with Some (Jump pc, _) => pc | _ => 0 end = 2) as Hpc by (vm_compute; reflexivity).
  unfold saved. revert Hpc Hrun. generalize (run uservec trapped). intros o Hpc ->. cbv iota in Hpc. rewrite Hpc. reflexivity.
Qed.

Lemma getpid_runs i p s : hart_ok (k_hart s) -> ht_proc (k_hart s) = Some i -> k_procs s !! i = Some p -> p_tracing p = 0 ->
  exists s1, sys_getpid (norm s) = Ok (p_pid p) s1 /\ k_procs s1 = k_procs s /\ k_mem s1 = k_mem s.
Proof.
  intros Hh Hi Hp Htr. pose proof (frame_norm s Hh) as F0. pose proof (frame_get Fhart _ _ _ F0 eq_refl) as (_ & Hi0 & _).
  assert (wp sys_getpid (fun r s1 => r = p_pid p /\ frame [] s s1) (norm s)) as (r & s1 & E & -> & F)%wp_inv.
  - unfold sys_getpid, trace. kstep. apply (wp_curproc_frame i); [by eapply hart_ok_frame|by rewrite <- Hi0|]. intros s1 F1.
    frame_use F1 Fprocs. pose proof (frame_get Fhart _ _ _ F1 eq_refl) as (_ & Hi1 & _).
    kstep. eapply wp_get_proc; [by rewrite <- Hfr|]. rewrite Htr. change (negb (0 =? 0)) with false. kstep.
    assert (frame [] s s1) as F01 by (by etrans).
    apply (wp_curproc_frame i); [by eapply hart_ok_frame|by rewrite <- Hi1, <- Hi0|]. intros s2 F2. frame_use F2 Fprocs.
    kstep. eapply wp_get_proc; [by rewrite <- Hfr0, <- Hfr|]. kstep. split; [done|by etrans].
  - exists s1. frame_use F Fprocs. frame_use F Fmem. by split_and!.
Qed.

Lemma frame_good : good_page TRAPFRAME.
Proof. by vm_compute. Qed.

End example.
