(* ===== verification/User.v ===== *)
(** User programs: the system calls they make ([user/user.h]) and the monad they run in.

    A user process sees the kernel through its system calls only: [sys] of class [World] maps a call to
    its result, the bytes the kernel stores through the pointer the call passes (none for most calls) and the
    world the process goes on in.  Other processes are part of the world; a program that forks goes on as the
    parent or as the child according to the result.  A pointer to characters is the list of the bytes from there
    to the end of the object, and an access outside it ends the run ([Crashed]). *)
From S2P Require Import Prelude.
From stdpp Require Import base numbers list gmap strings.
From Stdlib Require Import ZArith Lia.

Local Open Scope Z_scope.

(** ** System calls *)

Inductive ucall :=
  | Ufork | Uexit (status : Z) | Uwait | Upipe | Uread (fd n : Z) | Uwrite (fd : Z) (bytes : list Z)
  | Uwrite_neg (fd n : Z)            (* [write] with a negative count *)
  | Uclose (fd : Z) | Ukill (pid : Z) | Uexec (path : list Z) (argv : list (list Z))
  | Uopen (path : list Z) (mode : Z) | Umknod (path : list Z) (major minor : Z) | Uunlink (path : list Z)
  | Ufstat (fd : Z) | Ulink (old new : list Z) | Umkdir (path : list Z) | Uchdir (path : list Z)
  | Udup (fd : Z) | Ugetpid | Usbrk (n : Z) | Usleep (n : Z) | Uuptime | Unumprocs | Utraceon | Upsinfo
  | Ususpend (pid fd : Z) | Uresume (path : list Z) | Ugetticks
  | Uccreate (name : list Z) | Ucfork (name : list Z) | Ucstart (name vc : list Z) (dsk : Z)
  | Ucstop (name : list Z) | Ucpause (name : list Z) | Ucresume (name : list Z) | Ucinfo | Udf | Ucfree
  | Usetmaxcmem (name : list Z) (n : Z) | Usetmaxcdsk (name : list Z) (n : Z)
  | Usetmaxcproc (name : list Z) (n : Z).

Class World := {
  world : Type;
  sys : ucall -> world -> Z * list Z * world
}.

(** ** The monad *)

Section monad.
Context {WO : World}.

Inductive ures (A : Type) :=
  | Done (a : A) (w : world)
  | Gone (status : Z) (w : world)    (* exit *)
  | Crashed
  | Unfinished.                      (* the budget of a loop is exhausted *)
Arguments Done {A} a w.
Arguments Gone {A} status w.
Arguments Crashed {A}.
Arguments Unfinished {A}.

Definition U (A : Type) : Type := world -> ures A.

#[global] Instance U_ret : MRet U := fun A a w => Done a w.
#[global] Instance U_bind : MBind U := fun A B f m w =>
  match m w with
  | Done a w' => f a w'
  | Gone st w' => Gone st w'
  | Crashed => Crashed
  | Unfinished => Unfinished
  end.

Definition ucrash {A} : U A := fun _ => Crashed.
Definition access {A} (o : option A) : U A := match o with Some a => mret a | None => ucrash end.

(** A system call: its result, and the bytes it delivers. *)
Definition call (c : ucall) : U (Z * list Z) := fun w => let '(r, bs, w') := sys c w in Done (r, bs) w'.
Definition scall (c : ucall) : U Z := x ← call c; mret x.1.

(** [exit(status)] does not return. *)
Definition uexit {A} (status : Z) : U A := fun w => Gone status (sys (Uexit status) w).2.

(** [for(x in l) body], and [while] with its local variables. *)
Fixpoint ufor {X} (l : list X) (body : X -> U unit) : U unit :=
  match l with
  | [] => mret tt
  | x :: l => body x ;; ufor l body
  end.

Fixpoint uloop {V R} (fuel : nat) (body : V -> U (V + R)) (v : V) : U R :=
  match fuel with
  | O => fun _ => Unfinished
  | S fuel => r ← body v; match r with inl v' => uloop fuel body v' | inr x => mret x end
  end.

(** [uwp m Q E w]: from [w], [m] returns with a value and a world in [Q], or exits with a status and a
    world in [E]. *)
Definition uwp {A} (m : U A) (Q : A -> world -> Prop) (E : Z -> world -> Prop) (w : world) : Prop :=
  match m w with Done a w' => Q a w' | Gone st w' => E st w' | _ => False end.

Lemma uwp_ret {A} (a : A) Q E w : Q a w -> uwp (mret a) Q E w.
Proof. done. Qed.

Lemma uwp_bind {A B} (m : U A) (f : A -> U B) Q E w :
  uwp m (fun a w' => uwp (f a) Q E w') E w -> uwp (m ≫= f) Q E w.
Proof. unfold uwp, mbind, U_bind. by destruct (m w). Qed.

Lemma uwp_bind_inv {A B} (m : U A) (f : A -> U B) Q E w :
  uwp (m ≫= f) Q E w -> uwp m (fun a w' => uwp (f a) Q E w') E w.
Proof. unfold uwp, mbind, U_bind. by destruct (m w). Qed.

Lemma uwp_mono {A} (m : U A) (Q Q' : A -> world -> Prop) E w :
  uwp m Q E w -> (forall a w', Q a w' -> Q' a w') -> uwp m Q' E w.
Proof. unfold uwp. destruct (m w); auto. Qed.

Lemma uwp_access {A} (o : option A) a Q E w : o = Some a -> Q a w -> uwp (access o) Q E w.
Proof. by intros ->. Qed.

Lemma uwp_call c r bs w' Q E w : sys c w = (r, bs, w') -> Q (r, bs) w' -> uwp (call c) Q E w.
Proof. intros H HQ. unfold uwp, call. by rewrite H. Qed.

Lemma uwp_uloop {V R} (I : V -> world -> Prop) (mu : V -> nat) (body : V -> U (V + R)) Q E fuel v w :
  I v w -> (mu v < fuel)%nat ->
  (forall v w, I v w ->
     uwp (body v) (fun r w' => match r with
                               | inl v' => I v' w' /\ (mu v' < mu v)%nat
                               | inr x => Q x w' end) E w) ->
  uwp (uloop fuel body v) Q E w.
Proof.
  intros HI Hf Hstep. revert v w HI Hf. induction fuel as [|fuel IH]; intros v w HI Hf; [lia|]; simpl.
  apply uwp_bind. eapply uwp_mono; [by apply Hstep|].
  intros [v'|x] w'; [intros [HI' ?]; apply IH; [done|lia]|apply uwp_ret].
Qed.

(** The same with a measure that depends on the world. *)
Lemma uwp_uloop_until {V R} (I : nat -> V -> world -> Prop) (body : V -> U (V + R)) Q E fuel n v w :
  I n v w -> (n < fuel)%nat ->
  (forall n v w, I n v w ->
     uwp (body v) (fun r w' => match r with
                               | inl v' => exists n', (n' < n)%nat /\ I n' v' w'
                               | inr x => Q x w' end) E w) ->
  uwp (uloop fuel body v) Q E w.
Proof.
  intros HI Hf Hstep. revert n v w HI Hf. induction fuel as [|fuel IH]; intros n v w HI Hf; [lia|]; simpl.
  apply uwp_bind. eapply uwp_mono; [by eapply Hstep|].
  intros [v'|x] w'; [intros (n' & Hn' & HI'); apply (IH n'); [done|lia]|apply uwp_ret].
Qed.

(** A loop that always goes on outlasts every budget. *)
Lemma uloop_forever {V R} (body : V -> U (V + R)) fuel :
  (forall v w, exists v' w', body v w = Done (inl v') w') -> forall v w, uloop fuel body v w = Unfinished.
Proof.
  intros Hb. induction fuel as [|fuel IH]; intros v w; [done|]. simpl. unfold mbind, U_bind.
  destruct (Hb v w) as (v' & w' & ->). apply IH.
Qed.

Lemma uwp_ufor {X} (I : list X -> world -> Prop) (l : list X) (body : X -> U unit) Q E w :
  I [] w ->
  (forall pre x post w, l = pre ++ x :: post -> I pre w -> uwp (body x) (fun _ w' => I (pre ++ [x]) w') E w) ->
  (forall w, I l w -> Q tt w) ->
  uwp (ufor l body) Q E w.
Proof.
  intros H0 Hstep Hend.
  enough (forall post pre w, l = pre ++ post -> I pre w -> uwp (ufor post body) Q E w) as H by (by apply (H l [])).
  clear H0 w. induction post as [|x post IH]; intros pre w Hl Hw; simpl.
  - apply uwp_ret, Hend. by rewrite Hl, app_nil_r.
  - apply uwp_bind. eapply uwp_mono; [by eapply Hstep|].
    intros [] w' H'. apply (IH (pre ++ [x])); [|done]. by rewrite Hl, <- app_assoc.
Qed.
End monad.
Arguments Done {WO A} a w.
Arguments Gone {WO A} status w.
Arguments Crashed {WO A}.
Arguments Unfinished {WO A}.

Ltac ustep :=
  repeat match goal with
    | |- uwp (mret _) _ _ _ => apply uwp_ret; cbv beta iota; cbn [fst snd]
    | |- uwp (_ ≫= _) _ _ _ => apply uwp_bind; cbv beta iota
    | H : ?o = Some _ |- uwp (access ?o) _ _ _ => apply (uwp_access _ _ _ _ _ H)
    | H : sys ?c ?w = _ |- uwp (call ?c) _ _ ?w => apply (uwp_call _ _ _ _ _ _ _ H); cbn [fst snd]
    | |- uwp (scall _) _ _ _ => unfold scall
    end.

(** ** A stream and its reader

    [feeds data out w]: in [w], reading descriptor [fd] will deliver [data], in pieces of any size, and [out]
    has been written to descriptor 1. *)
Class Stream {WO : World} (fd : Z) (feeds : list Z -> list Z -> world -> Prop) : Prop := {
  st_read data out n w : feeds data out w -> 0 < n ->
    exists k w', sys (Uread fd n) w = (Z.of_nat k, take k data, w') /\ Z.of_nat k <= n /\
      (k <= length data)%nat /\ (k = 0%nat -> data = []) /\ feeds (drop k data) out w';
  st_write data out bs w : feeds data out w ->
    exists w', sys (Uwrite 1 bs) w = (Z.of_nat (length bs), [], w') /\ feeds data (out ++ bs) w'
}.

(** A world that is only a tape to read, at most [step] bytes at a time, and one to write. *)
Definition tape (step : nat) : World := {|
  world := list Z * list Z;
  sys := fun c '(data, out) =>
    match c with
    | Uread _ n =>
      let k := Nat.min (Nat.min (Z.to_nat n) step) (length data) in
      (Z.of_nat k, take k data, (drop k data, out))
    | Uwrite _ bs => (Z.of_nat (length bs), [], (data, out ++ bs))
    | _ => (-1, [], (data, out))
    end
|}.

Definition on_tape {step} (data out : list Z) (w : @world (tape step)) : Prop := w = (data, out).

Lemma tape_stream step fd : (0 < step)%nat -> @Stream (tape step) fd on_tape.
Proof.
  intros Hs. split.
  - intros data out n w -> Hn. simpl. eexists _, _. split; [done|].
    split_and!; [lia|lia| |done]. intros Hk. apply length_zero_iff_nil. lia.
  - intros data out bs w ->. simpl. by eexists.
Qed.
