(* ===== verification/Umalloc.v ===== *)
(** [user/umalloc.c]: the memory allocator of the user programs.

    Memory is seen in units of [sizeof(Header)] = 16 bytes: [u_mem] maps the address of each mapped unit to the
    header it would hold.  The free blocks form a ring in the order of their addresses, starting at the static
    [base].  The invariant [heap_ok] says that the free blocks and the live ones are disjoint, that neighbouring
    free blocks are merged, and that nothing the program writes into its blocks matters. *)
From S2P Require Import Prelude User.
From stdpp Require Import base numbers list gmap strings.
From Stdlib Require Import ZArith Lia.

Local Open Scope Z_scope.
Local Open Scope xv6_scope.

(** ** The code *)

Record header := mkheader { h_ptr : Z; h_size : Z }.
#[export] Instance header_eta : Eta header := fun x => mkheader (h_ptr x) (h_size x).

(** The static variables and the memory of the process. *)
Record heap := mkheap { u_mem : gmap Z header; u_freep : Z }.
#[export] Instance heap_eta : Eta heap := fun x => mkheap (u_mem x) (u_freep x).

(** [p->s.ptr = v] and [p->s.size = v]. *)
Definition set_ptr (p v : Z) (h : heap) : option heap :=
  c ← u_mem h !! p; Some (h <| u_mem ::= <[p := c <| h_ptr := v |>]> |>).
Definition set_size (p v : Z) (h : heap) : option heap :=
  c ← u_mem h !! p; Some (h <| u_mem ::= <[p := c <| h_size := v |>]> |>).

(** The loop of [free]: from [p], the block after which [bp] belongs. *)
Fixpoint free_place (fuel : nat) (m : gmap Z header) (bp p : Z) : option Z :=
  match fuel with
  | O => None
  | S fuel =>
    c ← m !! p;
    if (p <? bp) && (bp <? h_ptr c) then Some p
    else if (h_ptr c <=? p) && ((p <? bp) || (bp <? h_ptr c)) then Some p
    else free_place fuel m bp (h_ptr c)
  end.

(** [void free(void *ap)] *)
Definition free (ap : Z) (h : heap) : option heap :=
  let bp := ap - 16 in
  p ← free_place (S (size (u_mem h))) (u_mem h) bp (u_freep h);
  cp ← u_mem h !! p;
  cb ← u_mem h !! bp;
  h ← (if bp + 16 * h_size cb =? h_ptr cp then
         cn ← u_mem h !! h_ptr cp;
         h ← set_size bp (u32 (h_size cb + h_size cn)) h;
         cn ← u_mem h !! h_ptr cp;
         set_ptr bp (h_ptr cn) h
       else set_ptr bp (h_ptr cp) h);
  cp ← u_mem h !! p;
  cb ← u_mem h !! bp;
  h ← (if p + 16 * h_size cp =? bp then
         h ← set_size p (u32 (h_size cp + h_size cb)) h;
         set_ptr p (h_ptr cb) h
       else set_ptr p bp h);
  Some (h <| u_freep := p |>).

(** The memory after a successful [sbrk(n)] that returned [a]: new units are zero. *)
Definition sbrk_mem (a n : Z) (m : gmap Z header) : gmap Z header :=
  if 0 <=? n then foldr (fun i m => <[a + 16 * i := mkheader 0 0]> m) m (seqZ 0 (n / 16))
  else filter (fun '(x, _) => x < a + n) m.

Section malloc.
Context {WO : World} (base : Z).

(** [static Header* morecore(uint nu)] *)
Definition morecore (nu : Z) (h : heap) : U (Z * heap) :=
  let nu := if nu <? 4096 then 4096 else nu in
  let n := i32 (nu * 16) in
  p ← scall (Usbrk n);
  if p =? -1 then mret (0, h)
  else
    let h := h <| u_mem ::= sbrk_mem p n |> in
    h ← access (set_size p nu h);
    h ← access (free (p + 16) h);
    mret (u_freep h, h).

(** One turn of the loop of [malloc], at [p] after [prevp]: the next place, or the result. *)
Definition malloc_turn (nunits : Z) (v : heap * Z * Z) : U (heap * Z * Z + Z * heap) :=
  let '(h, prevp, p) := v in
  c ← access (u_mem h !! p);
  if nunits <=? h_size c then
    x ← (if h_size c =? nunits then
           h ← access (set_ptr prevp (h_ptr c) h);
           mret (p, h)
         else
           let size := u32 (h_size c - nunits) in
           h ← access (set_size p size h);
           let p := p + 16 * size in
           h ← access (set_size p nunits h);
           mret (p, h));
    let '(p, h) := x in
    mret (inr (p + 16, h <| u_freep := prevp |>))
  else if p =? u_freep h then
    x ← morecore nunits h;
    let '(p, h) := x in
    if p =? 0 then mret (inr (0, h))
    else c ← access (u_mem h !! p); mret (inl (h, p, h_ptr c))
  else mret (inl (h, p, h_ptr c)).

(** [void* malloc(uint nbytes)] *)
Definition malloc (nbytes : Z) (h : heap) : U (Z * heap) :=
  let nunits := u32 ((nbytes + 16 - 1) / 16 + 1) in
  x ← (if u_freep h =? 0 then
         h ← access (set_ptr base base h);
         h ← access (set_size base 0 (h <| u_freep := base |>));
         mret (base, h)
       else mret (u_freep h, h));
  let '(prevp, h) := x in
  c ← access (u_mem h !! prevp);
  uloop (2 * size (u_mem h) + 4) (malloc_turn nunits) (h, prevp, h_ptr c).
End malloc.

(** ** The ring of free blocks *)

(** A block: the address of its header and its size in units, the header included. *)
Abbreviation block := (Z * Z)%type.
Definition fin (b : block) : Z := b.1 + 16 * b.2.
Definition apart (b c : block) : Prop := fin b <= c.1 \/ fin c <= b.1.

Definition first (l : list block) (last : Z) : Z := match l with [] => last | b :: _ => b.1 end.

(** The blocks of [l] are linked in this order, the last one to [last]. *)
Fixpoint seg (m : gmap Z header) (l : list block) (last : Z) : Prop :=
  match l with
  | [] => True
  | b :: l => m !! b.1 = Some (mkheader (first l last) b.2) /\ seg m l last
  end.

(** Ascending addresses, with a gap before each block: no two free blocks touch. *)
Fixpoint spaced (lo : Z) (l : list block) : Prop :=
  match l with
  | [] => True
  | b :: l => lo < b.1 /\ 0 < b.2 /\ spaced (fin b) l
  end.

Lemma seg_app m l l' last : seg m (l ++ l') last <-> seg m l (first l' last) /\ seg m l' last.
Proof.
  induction l as [|b l IH]; simpl; [tauto|]. rewrite IH.
  assert (first (l ++ l') last = first l (first l' last)) as -> by (by destruct l). tauto.
Qed.

Lemma seg_insert_ne m l last a c : Forall (fun b => b.1 <> a) l -> seg (<[a := c]> m) l last <-> seg m l last.
Proof.
  induction 1 as [|b l Hb _ IH]; simpl; [done|]. by rewrite lookup_insert_ne, IH by done.
Qed.

Lemma seg_lookup m pre b post last : seg m (pre ++ b :: post) last -> m !! b.1 = Some (mkheader (first post last) b.2).
Proof. rewrite seg_app. simpl. tauto. Qed.

Lemma spaced_weaken lo lo' l : lo' <= lo -> spaced lo l -> spaced lo' l.
Proof. destruct l; simpl; [done|]. intros. split_and!; [lia|tauto..]. Qed.

Lemma spaced_above lo l : spaced lo l -> Forall (fun b => lo < b.1 /\ 0 < b.2) l.
Proof.
  revert lo. induction l as [|b l IH]; intros lo; [constructor|]. simpl. intros (H1 & H2 & H3). constructor; [done|].
  eapply Forall_impl; [by apply IH|]. simpl. unfold fin. intros c [??]. lia.
Qed.

(** Where a list of spaced blocks is cut: everything before ends before what comes after. *)
Lemma spaced_app lo l l' : spaced lo (l ++ l') <->
  spaced lo l /\ spaced lo l' /\ Forall (fun b => Forall (fun c => fin b < c.1) l') l.
Proof.
  revert lo. induction l as [|b l IH]; intros lo; simpl.
  { split; [by repeat split|tauto]. }
  rewrite IH. split.
  - intros (H1 & H2 & H3 & H4 & H5). split_and!; try done.
    + eapply spaced_weaken; [|done]. unfold fin. lia.
    + constructor; [|done]. eapply Forall_impl; [by apply spaced_above|]. simpl. tauto.
  - intros ((H1 & H2 & H3) & H4 & H5). inversion H5 as [|?? H6 H7]; subst. split_and!; try done.
    destruct l' as [|c l']; [done|]. inversion H6; subst. simpl in *. split_and!; [done|tauto..].
Qed.

(** The block a new one belongs after is found from anywhere in the ring. *)
Lemma free_place_left m base bp R post : forall pre p fuel, seg m (pre ++ p :: post ++ R) base ->
  spaced (fin p) post -> base <= p.1 -> p.1 < bp -> 0 <= p.2 -> base < bp ->
  Forall (fun b => b.1 < bp) post -> Forall (fun b => bp < b.1) R -> (length post < fuel)%nat ->
  free_place fuel m bp p.1 = Some (default p (last post)).1.
Proof.
  induction post as [|q post IH]; intros pre p [|fuel] Hs Hsp Hb Hp Hp2 Hbb HL HR Hf; [simpl in Hf; lia| |simpl in Hf; lia|].
  - simpl. rewrite (seg_lookup _ _ _ _ _ Hs). simpl. destruct (Z.ltb_spec p.1 bp); [|lia]. simpl.
    destruct R as [|r R]; simpl.
    + destruct (Z.ltb_spec bp base); [lia|]. by destruct (Z.leb_spec base p.1); [|lia].
    + inversion HR; subst. by destruct (Z.ltb_spec bp r.1); [|lia].
  - simpl in *. rewrite (seg_lookup _ _ _ _ _ Hs). simpl. destruct Hsp as (H1 & H2 & H3). unfold fin in H1.
    inversion HL; subst. destruct (Z.ltb_spec bp q.1); [lia|]. rewrite andb_false_r.
    destruct (Z.leb_spec q.1 p.1); [lia|]. simpl.
    assert (seg m ((pre ++ [p]) ++ q :: post ++ R) base) by (by rewrite <- app_assoc).
    rewrite (IH (pre ++ [p]) q fuel) by (done || lia). rewrite last_cons. by destruct (last post).
Qed.

Lemma free_place_right m base bp L post : forall pre p fuel, seg m ((base, 0) :: L ++ pre ++ p :: post) base ->
  spaced base L -> spaced (fin p) post -> base < bp -> bp < p.1 -> 0 < p.2 ->
  Forall (fun b => b.1 < bp) L -> Forall (fun b => bp < b.1) pre ->
  (S (length post) + length L < fuel)%nat ->
  free_place fuel m bp p.1 = Some (default (base, 0) (last L)).1.
Proof.
  induction post as [|q post IH]; intros pre p [|fuel] Hs HL Hsp Hb Hp Hp2 HLb Hpre Hf; [simpl in Hf; lia| |simpl in Hf; lia|].
  - simpl in Hf |- *. rewrite (seg_lookup m ((base, 0) :: L ++ pre) p [] base) by (by rewrite <- app_comm_cons, <- app_assoc).
    simpl. destruct (Z.ltb_spec p.1 bp); [lia|]. destruct (Z.leb_spec base p.1); [|lia]. simpl.
    destruct (Z.ltb_spec bp base); [lia|].
    apply (free_place_left m base bp (pre ++ [p]) L [] (base, 0)); simpl; try lia; try done.
    + unfold fin. simpl. by eapply spaced_weaken; [|done]; lia.
    + apply Forall_app_2; [done|]. constructor; [lia|constructor].
  - simpl in Hf |- *. simpl in Hsp. destruct Hsp as (H1 & H2 & H3). unfold fin in H1.
    rewrite (seg_lookup m ((base, 0) :: L ++ pre) p (q :: post) base) by (by rewrite <- app_comm_cons, <- app_assoc).
    simpl. destruct (Z.ltb_spec p.1 bp); [lia|]. destruct (Z.leb_spec q.1 p.1); [lia|]. simpl.
    assert (seg m ((base, 0) :: L ++ (pre ++ [p]) ++ q :: post) base) by (by rewrite <- (app_assoc pre)).
    assert (Forall (fun b => bp < b.1) (pre ++ [p])) by (apply Forall_app_2; [done|]; constructor; [lia|constructor]).
    apply (IH (pre ++ [p])); done || lia.
Qed.

Lemma free_place_spec m base fl bp p L R fuel :
  seg m ((base, 0) :: fl) base -> spaced base fl -> fl = L ++ R -> base < bp ->
  Forall (fun b => b.1 < bp) L -> Forall (fun b => bp < b.1) R -> p ∈ (base, 0) :: fl ->
  (S (length fl) < fuel)%nat ->
  free_place fuel m bp p.1 = Some (default (base, 0) (last L)).1.
Proof.
  intros Hs Hsp -> Hb HL HR Hp Hf. rewrite length_app in Hf. apply spaced_app in Hsp as (HspL & HspR & Hcross).
  rewrite app_comm_cons in Hp. apply elem_of_app in Hp as [Hp|Hp]; apply list_elem_of_split in Hp as (pre & post & E).
  - assert (default (base, 0) (last L) = default p (last post)) as ->.
    { assert (last ((base, 0) :: L) = last (pre ++ p :: post)) as El by (by rewrite E).
      rewrite last_app, !last_cons in El. by destruct (last L), (last post); simplify_eq/=. }
    assert (base <= p.1 /\ p.1 < bp /\ 0 <= p.2 /\ spaced (fin p) post /\ Forall (fun b => b.1 < bp) post) as (H1 & H2 & H3 & H4 & H5).
    { destruct pre as [|q pre]; simplify_eq/=.
      - split_and!; done || lia || (unfold fin; simpl; eapply spaced_weaken; [|done]; lia).
      - apply spaced_app in HspL as (_ & (? & ? & ?) & _). apply Forall_app in HL as [_ HL].
        inversion HL; subst. split_and!; done || lia. }
    assert (seg m (pre ++ p :: post ++ R) base) by (by rewrite app_comm_cons, E, <- app_assoc in Hs).
    apply (f_equal length) in E. rewrite length_app in E. simpl in E.
    apply (free_place_left m base bp R post pre p); done || lia.
  - subst R. apply spaced_app in HspR as (_ & (? & ? & ?) & _). apply Forall_app in HR as [HR1 HR2].
    inversion HR2; subst. rewrite length_app in Hf. simpl in Hf.
    apply (free_place_right m base bp L post pre p); done || lia.
Qed.

Lemma spaced_split lo fl b : spaced lo fl -> 0 < b.2 -> Forall (apart b) fl -> exists L R, fl = L ++ R /\
  Forall (fun c => fin c <= b.1) L /\ Forall (fun c => fin b <= c.1) R.
Proof.
  revert lo. induction fl as [|c fl IH]; intros lo Hsp Hb Ha; [by exists [], []|].
  simpl in Hsp. destruct Hsp as (H1 & H2 & H3). inversion Ha as [|?? Hc Ha']; subst. destruct Hc as [Hc|Hc].
  - exists [], (c :: fl). split; [done|]. split; [constructor|]. constructor; [done|].
    eapply Forall_impl; [by apply spaced_above|]. simpl. unfold fin in *. intros d [??]. lia.
  - destruct (IH _ H3 Hb Ha') as (L & R & -> & HL & HR). exists (c :: L), R. split_and!; [done|by constructor|done].
Qed.

(** ** Freeing *)

Definition join_next (b : block) (R : list block) : list block :=
  match R with
  | r :: R' => if fin b =? r.1 then (b.1, b.2 + r.2) :: R' else b :: R
  | [] => [b]
  end.

Definition join_prev (p : block) (l : list block) : list block :=
  match l with
  | b :: l' => if fin p =? b.1 then (p.1, p.2 + b.2) :: l' else p :: l
  | [] => [p]
  end.

Lemma set_ptr_Some p v c h : u_mem h !! p = Some c ->
  set_ptr p v h = Some (h <| u_mem ::= <[p := mkheader v (h_size c)]> |>).
Proof. intros H. unfold set_ptr. by rewrite H. Qed.

Lemma set_size_Some p v c h : u_mem h !! p = Some c ->
  set_size p v h = Some (h <| u_mem ::= <[p := mkheader (h_ptr c) v]> |>).
Proof. intros H. unfold set_size. by rewrite H. Qed.

(** The first half of [free] links the block to what follows it. *)
Lemma free_next h b p R base cb : u_mem h !! b.1 = Some cb -> h_size cb = b.2 ->
  seg (u_mem h) (p :: R) base -> p.1 <> b.1 -> Forall (fun c => c.1 <> b.1) R -> fin b <> base ->
  0 <= b.2 -> Forall (fun c => 0 <= c.2 /\ b.2 + c.2 < 2 ^ 32) R ->
  exists b' R' h1, join_next b R = b' :: R' /\ b'.1 = b.1 /\
    (if b.1 + 16 * h_size cb =? first R base then
       cn ← u_mem h !! first R base;
       h ← set_size b.1 (u32 (h_size cb + h_size cn)) h;
       cn ← u_mem h !! first R base;
       set_ptr b.1 (h_ptr cn) h
     else set_ptr b.1 (first R base) h) = Some h1 /\
    u_freep h1 = u_freep h /\ u_mem h1 = <[b.1 := mkheader (first R' base) b'.2]> (u_mem h) /\ seg (u_mem h) R' base.
Proof.
  intros Hb Hsz Hs Hpb HR Hbase Hb0 Hbd. destruct R as [|r R]; simpl in *.
  - exists b, [], (h <| u_mem ::= <[b.1 := mkheader base b.2]> |>). split_and!; try done. rewrite Hsz.
    unfold fin in Hbase. destruct (Z.eqb_spec (b.1 + 16 * b.2) base); [done|].
    rewrite (set_ptr_Some _ _ cb) by done. by rewrite Hsz.
  - destruct Hs as (Hp & Hr & Hs). inversion HR as [|?? Hrb HR']; subst. inversion Hbd as [|?? [Hr0 Hr1] _]; subst.
    rewrite Hsz. unfold fin. destruct (Z.eqb_spec (b.1 + 16 * b.2) r.1).
    + exists (b.1, b.2 + r.2), R, (h <| u_mem ::= <[b.1 := mkheader (first R base) (b.2 + r.2)]> |>).
      split_and!; try done. rewrite Hr. simpl. rewrite (set_size_Some _ _ cb) by done. simpl.
      rewrite lookup_insert_ne, Hr by done. simpl.
      rewrite (set_ptr_Some _ _ (mkheader (h_ptr cb) (u32 (b.2 + r.2)))) by (simpl; by rewrite lookup_insert_eq).
      unfold set. simpl. rewrite insert_insert_eq. rewrite u32_small by lia. done.
    + exists b, (r :: R), (h <| u_mem ::= <[b.1 := mkheader r.1 b.2]> |>). split_and!; try done.
      rewrite (set_ptr_Some _ _ cb) by done. by rewrite Hsz.
Qed.

(** [free] puts a block back between its neighbours and merges it with those it touches. *)
Lemma free_spec h pre p R b base cb :
  free_place (S (size (u_mem h))) (u_mem h) b.1 (u_freep h) = Some p.1 ->
  seg (u_mem h) (pre ++ p :: R) base -> u_mem h !! b.1 = Some cb -> h_size cb = b.2 ->
  p.1 <> b.1 -> Forall (fun c => c.1 <> b.1 /\ c.1 <> p.1) (pre ++ R) -> fin b <> base ->
  0 <= b.2 -> 0 <= p.2 -> p.2 + b.2 < 2 ^ 32 -> Forall (fun c => 0 <= c.2 /\ p.2 + b.2 + c.2 < 2 ^ 32) R ->
  exists h', free (b.1 + 16) h = Some h' /\ u_freep h' = p.1 /\
    seg (u_mem h') (pre ++ join_prev p (join_next b R)) base /\
    (forall a, a <> p.1 -> a <> b.1 -> u_mem h' !! a = u_mem h !! a) /\
    (forall a, is_Some (u_mem h !! a) -> is_Some (u_mem h' !! a)).
Proof.
  intros Hpl Hs Hb Hsz Hpb Hd Hbase Hb0 Hp0 Hbd0 Hbd. apply seg_app in Hs as [Hpre Hs].
  apply Forall_app in Hd as [Hdp HdR].
  destruct (free_next h b p R base cb) as (b' & R' & h1 & Hj & Hb' & Hh1 & Hf1 & Hm1 & HsR'); try done.
  { eapply Forall_impl; [exact HdR|]. simpl. tauto. }
  { eapply Forall_impl; [exact Hbd|]. simpl. intros c ?. lia. }
  assert (Forall (fun c => c.1 <> b.1 /\ c.1 <> p.1) R' /\ 0 <= b'.2 /\ p.2 + b'.2 < 2 ^ 32) as (HdR' & Hb'0 & Hbd').
  { unfold join_next in Hj. destruct R as [|r R]; [simplify_eq/=; split_and!; done|]. inversion HdR; inversion Hbd; subst.
    destruct (fin b =? r.1); simplify_eq/=; split_and!; done || lia. }
  destruct Hs as [Hp HsR]. unfold free. replace (b.1 + 16 - 16) with b.1 by lia. rewrite Hpl. cbn [mbind option_bind].
  rewrite Hp, Hb. cbn [mbind option_bind h_ptr h_size]. rewrite Hh1. cbn [mbind option_bind].
  rewrite Hm1, (lookup_insert_ne _ b.1 p.1), Hp, lookup_insert_eq by congruence. cbn [mbind option_bind h_ptr h_size].
  rewrite Hj. unfold join_prev. change (p.1 + 16 * p.2) with (fin p). rewrite Hb'.
  destruct (Z.eqb_spec (fin p) b.1).
  - erewrite set_size_Some by (by rewrite Hm1, lookup_insert_ne by congruence). cbn [mbind option_bind].
    erewrite set_ptr_Some by (simpl; by rewrite lookup_insert_eq). cbn [mbind option_bind h_ptr h_size].
    eexists. split; [done|]. split; [done|]. simpl. rewrite Hm1, insert_insert_eq, u32_small by lia. split_and!.
    + apply seg_app. split.
      * rewrite !seg_insert_ne; [done|eapply Forall_impl; [exact Hdp|simpl; tauto]..].
      * simpl. rewrite lookup_insert_eq. split; [done|].
        rewrite !seg_insert_ne; [done|eapply Forall_impl; [exact HdR'|simpl; tauto]..].
    + intros a Ha1 Ha2. by rewrite !lookup_insert_ne by congruence.
    + intros a Ha. rewrite !lookup_insert_is_Some. destruct (decide (p.1 = a)); [by left|].
      destruct (decide (b.1 = a)); tauto.
  - erewrite set_ptr_Some by (by rewrite Hm1, lookup_insert_ne by congruence). cbn [mbind option_bind h_ptr h_size].
    eexists. split; [done|]. split; [done|]. simpl. rewrite Hm1. split_and!.
    + apply seg_app. split.
      * rewrite !seg_insert_ne; [done|eapply Forall_impl; [exact Hdp|simpl; tauto]..].
      * simpl. rewrite Hb', lookup_insert_eq, lookup_insert_ne, lookup_insert_eq by congruence. split; [done|]. split; [done|].
        rewrite !seg_insert_ne; [done|eapply Forall_impl; [exact HdR'|simpl; tauto]..].
    + intros a Ha1 Ha2. by rewrite !lookup_insert_ne by congruence.
    + intros a Ha. rewrite !lookup_insert_is_Some. destruct (decide (p.1 = a)); [by left|].
      destruct (decide (b.1 = a)); tauto.
Qed.

(** ** The invariant *)

Definition mapped (m : gmap Z header) (b : block) : Prop :=
  forall i, 0 <= i < b.2 -> is_Some (m !! (b.1 + 16 * i)).

Fixpoint total (l : list block) : Z := match l with [] => 0 | b :: l => b.2 + total l end.

Fixpoint all_apart (live fl : list block) : Prop :=
  match live with
  | [] => True
  | b :: live => Forall (apart b) (live ++ fl) /\ all_apart live fl
  end.

Definition is_live (m : gmap Z header) (b : block) : Prop :=
  0 < b.2 /\ exists c, m !! b.1 = Some c /\ h_size c = b.2.

Record heap_ok (base brk : Z) (h : heap) (fl live : list block) : Prop := {
  ho_ring : seg (u_mem h) ((base, 0) :: fl) base;
  ho_freep : exists s, (u_freep h, s) ∈ (base, 0) :: fl;
  ho_spaced : spaced base fl;
  ho_live : Forall (is_live (u_mem h)) live;
  ho_apart : all_apart live fl;
  ho_range : Forall (fun b => base + 16 <= b.1 /\ fin b <= brk) (fl ++ live);
  ho_mapped : Forall (mapped (u_mem h)) (fl ++ live);
  ho_base : 0 < base;
  ho_brk : base + 16 <= brk <= 2 ^ 32
}.

Lemma apart_sym b c : apart b c -> apart c b.
Proof. unfold apart. tauto. Qed.

Lemma all_apart_split l1 b l2 fl : all_apart (l1 ++ b :: l2) fl <->
  all_apart (l1 ++ l2) fl /\ Forall (apart b) (l1 ++ l2 ++ fl).
Proof.
  induction l1 as [|c l1 IH]; simpl; [tauto|]. rewrite IH. rewrite !Forall_app, !Forall_cons, !Forall_app.
  split; intros; destruct_and!; split_and!; try done; by apply apart_sym.
Qed.

Lemma all_apart_fl live fl fl' : all_apart live fl ->
  Forall (fun b => Forall (apart b) fl -> Forall (apart b) fl') live -> all_apart live fl'.
Proof.
  induction live as [|b live IH]; simpl; [done|]. intros [H1 H2] H3. inversion H3; subst.
  apply Forall_app in H1 as [? ?]. split; [apply Forall_app; auto|auto].
Qed.

Lemma all_apart_lookup live fl b : all_apart live fl -> b ∈ live -> Forall (apart b) fl.
Proof.
  intros Ha Hb. apply list_elem_of_split in Hb as (l1 & l2 & ->). apply all_apart_split in Ha as [_ Ha].
  rewrite !Forall_app in Ha. tauto.
Qed.

(** The free list after [b] has come back between [L] and [R]. *)
Definition put_back (L : list block) (b : block) (R : list block) : list block :=
  match last L with
  | None => join_next b R
  | Some q => take (length L - 1) L ++ join_prev q (join_next b R)
  end.

Lemma put_back_snoc L q b R : put_back (L ++ [q]) b R = L ++ join_prev q (join_next b R).
Proof. unfold put_back. rewrite last_snoc, length_app, take_app_le by (simpl; lia). simpl. by rewrite take_ge by lia. Qed.

Lemma join_next_head b R : exists b' R', join_next b R = b' :: R' /\ b'.1 = b.1.
Proof. destruct R as [|r R]; simpl; [eauto|]. destruct (fin b =? r.1); eauto. Qed.

(** What holds of blocks and of merged blocks holds of the new list. *)
Lemma put_back_Forall (P : block -> Prop) L b R :
  (forall x y, P x -> P y -> fin x = y.1 -> P (x.1, x.2 + y.2)) ->
  P b -> Forall P (L ++ R) -> Forall P (put_back L b R).
Proof.
  intros HP Hb HLR. apply Forall_app in HLR as [HL HR].
  assert (Forall P (join_next b R)) as Hj.
  { destruct R as [|r R]; simpl; [by repeat constructor|]. inversion HR; subst.
    destruct (Z.eqb_spec (fin b) r.1); [constructor; [by apply HP|done]|by repeat constructor]. }
  destruct L as [|q L _] using rev_ind; [done|]. rewrite put_back_snoc. apply Forall_app in HL as [HL Hq].
  apply Forall_app_2; [done|]. inversion Hq; subst. destruct (join_next b R) as [|c l]; simpl; [done|]. inversion Hj; subst.
  destruct (Z.eqb_spec (fin q) c.1); [constructor; [by apply HP|done]|by repeat constructor].
Qed.

Lemma spaced_join_next lo b R : lo < b.1 -> 0 < b.2 -> spaced lo R -> Forall (fun c => fin b <= c.1) R ->
  spaced lo (join_next b R).
Proof.
  intros Hb Hb2 HR HbR. destruct R as [|r R]; simpl; [done|]. simpl in HR. destruct HR as (H1 & H2 & H3). inversion HbR; subst.
  destruct (Z.eqb_spec (fin b) r.1); simpl.
  - split_and!; [done|lia|]. replace (fin (b.1, b.2 + r.2)) with (fin r); [done|]. unfold fin in *. simpl. lia.
  - split_and!; done || lia.
Qed.

Lemma put_back_spaced lo L b R : spaced lo (L ++ R) -> lo < b.1 -> 0 < b.2 ->
  Forall (fun c => fin c <= b.1) L -> Forall (fun c => fin b <= c.1) R -> spaced lo (put_back L b R).
Proof.
  intros HLR Hb Hb2 HL HR. apply spaced_app in HLR as (HsL & HsR & Hc).
  destruct L as [|q L _] using rev_ind; [by apply spaced_join_next|]. rewrite put_back_snoc.
  apply spaced_app in HsL as (HsL & Hsq & HLq). simpl in Hsq. apply Forall_app in HL as [HL Hq]. inversion Hq; subst.
  assert (spaced (b.1 - 1) (join_next b R)) as Hj.
  { apply spaced_join_next; [lia|done| |done]. destruct R as [|r R]; [done|]. simpl in *. inversion HR; subst.
    destruct HsR as (? & ? & ?). unfold fin in *. split_and!; done || lia. }
  destruct (join_next_head b R) as (b' & R' & Ej & Eb). rewrite Ej in Hj |- *. simpl in Hj. destruct Hj as (? & ? & Hj).
  unfold join_prev. rewrite Eb. apply spaced_app. split; [done|].
  assert (forall n, 0 <= n -> Forall (fun c => Forall (fun d => fin c < d.1) ((q.1, n) :: b' :: R')) L) as Hcross.
  { intros n Hn. eapply Forall_impl; [exact HLq|]. intros c Hcq. simpl in Hcq. inversion Hcq; subst. constructor; [done|].
    assert (fin c < b.1) by (unfold fin in *; lia). constructor; [lia|].
    eapply Forall_impl; [apply spaced_above; exact Hj|]. simpl. intros d [? ?]. unfold fin in *. lia. }
  destruct (Z.eqb_spec (fin q) b.1) as [E|E].
  - split; [simpl; split_and!; [lia|lia|]|].
    + replace (fin (q.1, q.2 + b'.2)) with (fin b'); [done|]. unfold fin in *. simpl. lia.
    + eapply Forall_impl; [apply (Hcross (q.2 + b'.2)); lia|]. intros c. rewrite !Forall_cons. tauto.
  - split; [simpl; split_and!; done || lia|].
    eapply Forall_impl; [apply (Hcross q.2); lia|]. intros c. by destruct q.
Qed.

Lemma total_app l l' : total (l ++ l') = total l + total l'.
Proof. induction l as [|c l IH]; simpl; [done|]. rewrite IH. lia. Qed.

Lemma put_back_total L b R : total (put_back L b R) = total (L ++ R) + b.2.
Proof.
  assert (total (join_next b R) = total R + b.2) as Hj.
  { destruct R as [|r R]; simpl; [lia|]. destruct (fin b =? r.1); simpl; lia. }
  assert (forall q l, total (join_prev q l) = q.2 + total l) as Hq.
  { intros q [|c l]; simpl; [done|]. destruct (fin q =? c.1); simpl; lia. }
  destruct L as [|q L _] using rev_ind; [done|]. rewrite put_back_snoc, !total_app, Hq. simpl. lia.
Qed.

Lemma put_back_has L b R : Forall (fun c => 0 < c.2) (L ++ R) -> exists c, c ∈ put_back L b R /\ b.2 <= c.2.
Proof.
  intros Hpos. assert (exists b' R', join_next b R = b' :: R' /\ b.2 <= b'.2) as (b' & R' & Ej & Hb).
  { apply Forall_app in Hpos as [_ Hpos]. destruct R as [|r R]; simpl; [eexists _, _; split; [done|lia]|].
    inversion Hpos; subst. destruct (fin b =? r.1); eexists _, _; (split; [done|simpl; lia]). }
  destruct L as [|q L _] using rev_ind.
  - exists b'. unfold put_back. simpl. rewrite Ej. split; [by left|done].
  - rewrite put_back_snoc, Ej. rewrite <- app_assoc, Forall_app in Hpos. destruct Hpos as [_ Hq]. inversion Hq; subst. simpl.
    destruct (fin q =? b'.1).
    + exists (q.1, q.2 + b'.2). split; [apply elem_of_app; right; by left|simpl; lia].
    + exists b'. split; [apply elem_of_app; right; right; by left|done].
Qed.

Lemma spaced_NoDup lo l : spaced lo l -> NoDup (l.*1).
Proof.
  revert lo. induction l as [|b l IH]; intros lo; simpl; [constructor|]. intros (H1 & H2 & H3). constructor; [|by eapply IH].
  rewrite list_elem_of_fmap. intros (c & E & Hc). apply spaced_above in H3. rewrite Forall_forall in H3.
  specialize (H3 c Hc). unfold fin in H3. lia.
Qed.

Lemma seg_dom m l last : seg m l last -> Forall (fun a => is_Some (m !! a)) (l.*1).
Proof. induction l as [|b l IH]; simpl; constructor; [by eexists; apply H|apply IH; tauto]. Qed.

Lemma keys_size (m : gmap Z header) (l : list Z) : NoDup l -> Forall (fun a => is_Some (m !! a)) l -> (length l <= size m)%nat.
Proof.
  intros Hn Hl. rewrite <- size_dom. rewrite <- (size_list_to_set (C := gset Z) l) by done.
  apply subseteq_size. intros a. rewrite elem_of_list_to_set, elem_of_dom. rewrite Forall_forall in Hl. auto.
Qed.

Section ok.
Context (base : Z).

Lemma ring_size brk h fl live : heap_ok base brk h fl live -> (S (length fl) <= size (u_mem h))%nat.
Proof.
  intros Hok. replace (S (length fl)) with (length (((base, 0) :: fl).*1)) by (simpl; by rewrite length_fmap).
  apply keys_size; [|by eapply seg_dom, ho_ring].
  simpl. constructor; [|eapply spaced_NoDup, ho_spaced, Hok]. rewrite list_elem_of_fmap. intros (c & E & Hc).
  pose proof (spaced_above _ _ (ho_spaced _ _ _ _ _ Hok)) as Ha. rewrite Forall_forall in Ha. specialize (Ha c Hc). lia.
Qed.

(** The pieces of the ring around the place of [b]. *)
Lemma ring_around L : exists pre p, (base, 0) :: L = pre ++ [p] /\ p.1 = (default (base, 0) (last L)).1 /\
  (forall b R, spaced base (L ++ R) -> base < b.1 -> pre ++ join_prev p (join_next b R) = (base, 0) :: put_back L b R).
Proof.
  destruct L as [|q L _] using rev_ind.
  - exists [], (base, 0). split_and!; [done|done|]. intros b R _ Hb. destruct (join_next_head b R) as (b' & R' & Ej & Eb).
    unfold put_back. simpl. rewrite Ej. simpl. rewrite Eb. unfold fin. simpl.
    by destruct (Z.eqb_spec (base + 16 * 0) b.1); [lia|].
  - exists ((base, 0) :: L), q. rewrite last_snoc. split_and!; [done|done|]. intros b R _ _. by rewrite put_back_snoc.
Qed.
End ok.

Section free.
Context (base brk : Z).

Lemma ring_NoDup fl : spaced base fl -> NoDup (((base, 0) :: fl).*1).
Proof.
  intros Hs. simpl. constructor; [|by eapply spaced_NoDup]. rewrite list_elem_of_fmap. intros (c & E & Hc).
  apply spaced_above in Hs. rewrite Forall_forall in Hs. specialize (Hs c Hc). lia.
Qed.

(** Blocks that are apart have different addresses. *)
Lemma apart_ne b c : 0 < b.2 -> 0 < c.2 -> apart b c -> c.1 <> b.1.
Proof. unfold apart, fin. lia. Qed.

(** The bounds [free] needs on the blocks around [b]. *)
Lemma around_bounds L R b pre p :
  spaced base (L ++ R) -> (base, 0) :: L = pre ++ [p] -> 0 < base -> base < b.1 -> 0 < b.2 ->
  Forall (fun c => fin c <= b.1) L -> Forall (fun c => fin b <= c.1) R ->
  0 <= p.2 /\ base <= p.1 /\ fin p <= b.1 /\ p.1 < b.1 /\
  Forall (fun c => c.1 <> b.1 /\ c.1 <> p.1) (pre ++ R).
Proof.
  intros Hs E Hb0 Hb Hb2 HL HR. pose proof (ring_NoDup _ Hs) as Hn. rewrite app_comm_cons, E in Hn.
  pose proof (spaced_above _ _ Hs) as Ha. apply Forall_app in Ha as [HaL HaR].
  assert (Forall (fun c => 0 <= c.2 /\ base <= c.1 /\ fin c <= b.1 /\ c.1 < b.1) (pre ++ [p])) as Hall.
  { rewrite <- E. constructor; [unfold fin; simpl; lia|]. rewrite Forall_forall in HaL, HL |- *. intros c Hc.
    specialize (HaL c Hc). specialize (HL c Hc). unfold fin in *. simpl in *. lia. }
  apply Forall_app in Hall as [Hpre Hp]. inversion Hp as [|?? (?&?&?&?) _]; subst. split_and!; try done.
  rewrite <- app_assoc, fmap_app in Hn. apply NoDup_app in Hn as (_ & Hn1 & Hn2). simpl in Hn2. apply NoDup_cons in Hn2 as [Hn2 _].
  rewrite Forall_app, !Forall_forall. rewrite Forall_forall in Hpre, HR, HaR. split; intros c Hc; split.
  - specialize (Hpre c Hc). lia.
  - intros Ec. apply (Hn1 c.1); [apply list_elem_of_fmap; by exists c|]. rewrite Ec. by left.
  - specialize (HR c Hc). unfold fin in HR. lia.
  - intros Ec. apply Hn2. rewrite <- Ec. apply list_elem_of_fmap. by exists c.
Qed.

Lemma is_live_kept m m' b a1 a2 : is_live m b -> b.1 <> a1 -> b.1 <> a2 ->
  (forall a, a <> a1 -> a <> a2 -> m' !! a = m !! a) -> is_live m' b.
Proof. intros [H1 H2] ?? Hm. split; [done|]. by rewrite Hm. Qed.

Lemma mapped_merge m x y : mapped m x -> mapped m y -> fin x = y.1 -> mapped m (x.1, x.2 + y.2).
Proof.
  intros Hx Hy E i Hi. simpl in *. destruct (decide (i < x.2)); [apply Hx; lia|].
  replace (x.1 + 16 * i) with (y.1 + 16 * (i - x.2)) by (unfold fin in E; lia). apply Hy. lia.
Qed.

(** What [free] does to the ring, for a block that touches no free one. *)
Lemma free_links h fl live b cb :
  heap_ok base brk h fl live -> 0 < b.2 -> u_mem h !! b.1 = Some cb -> h_size cb = b.2 -> Forall (apart b) fl ->
  base + 16 <= b.1 -> fin b <= brk ->
  exists h' L R p, free (b.1 + 16) h = Some h' /\ fl = L ++ R /\ p ∈ (base, 0) :: L /\
    Forall (fun c => fin c <= b.1) L /\ Forall (fun c => fin b <= c.1) R /\
    seg (u_mem h') ((base, 0) :: put_back L b R) base /\ (exists s, (u_freep h', s) ∈ (base, 0) :: put_back L b R) /\
    (forall a, a <> p.1 -> a <> b.1 -> u_mem h' !! a = u_mem h !! a) /\
    (forall a, is_Some (u_mem h !! a) -> is_Some (u_mem h' !! a)).
Proof.
  intros Hok Hb2 Hcb Hsz HaF Hb1 Hbf. destruct (Hok) as [Hring [s0 Hfp] Hsp _ _ Hrg _ Hb0 Hbrk].
  apply Forall_app in Hrg as [HrF _]. destruct (spaced_split base fl b Hsp Hb2 HaF) as (L & R & -> & HL & HR).
  destruct (ring_around base L) as (pre & p & E & Ep & Hpb).
  destruct (around_bounds L R b pre p) as (Hp2 & Hp1 & Hpf & Hpl & Hd); try done; [lia|].
  pose proof (spaced_above _ _ Hsp) as Hpos. apply Forall_app in Hpos as [HposL HposR]. apply Forall_app in HrF as [_ HrR].
  destruct (free_spec h pre p R b base cb) as (h' & Hf & Hfp' & Hs' & Hm & Hdom); try done; try (unfold fin in *; lia).
  - rewrite Ep. apply (free_place_spec (u_mem h) base (L ++ R) b.1 (u_freep h, s0) L R); try done; [lia| | |].
    + rewrite Forall_forall in HL, HposL |- *. intros c Hc. specialize (HL c Hc). specialize (HposL c Hc). unfold fin in *. simpl in *. lia.
    + eapply Forall_impl; [exact HR|]. unfold fin. simpl. lia.
    + pose proof (ring_size base brk h (L ++ R) live Hok). lia.
  - by rewrite app_comm_cons, E, <- app_assoc in Hring.
  - rewrite Forall_forall in HR, HposR, HrR |- *. intros c Hc. specialize (HR c Hc). specialize (HposR c Hc). specialize (HrR c Hc).
    unfold fin in *. simpl in *. lia.
  - exists h', L, R, p. assert (exists s, (p.1, s) ∈ pre ++ join_prev p (join_next b R)) as Hin.
    { destruct (join_next b R) as [|c l]; simpl; [exists p.2; apply elem_of_app; right; destruct p; by left|].
      destruct (fin p =? c.1); [exists (p.2 + c.2)|exists p.2]; apply elem_of_app; right; [by left|destruct p; by left]. }
    rewrite Hpb in Hs', Hin by (done || lia). rewrite Hfp'. split_and!; try done.
    rewrite E. apply elem_of_app. right. by left.
Qed.

(** The header of a live block is none of those [free] writes. *)
Lemma live_elsewhere h L R live p : heap_ok base brk h (L ++ R) live -> p ∈ (base, 0) :: L ->
  Forall (fun c => c.1 <> p.1) live.
Proof.
  intros [_ _ Hsp Hlive Hap Hrg _ _ _] Hp. apply Forall_app in Hrg as [_ HrL]. rewrite Forall_forall in Hlive, HrL |- *.
  intros c Hc. destruct (Hlive c Hc) as [Hc2 _]. specialize (HrL c Hc).
  apply elem_of_cons in Hp as [->|Hp]; [simpl; lia|].
  pose proof (all_apart_lookup _ _ _ Hap Hc) as Hac. apply Forall_app in Hac as [Hac _]. rewrite Forall_forall in Hac.
  apply spaced_above in Hsp. apply Forall_app in Hsp as [Hsp _]. rewrite Forall_forall in Hsp.
  apply not_eq_sym, apart_ne; [done|by apply Hsp|by apply Hac].
Qed.

Lemma free_block h fl live b :
  heap_ok base brk h fl live -> is_live (u_mem h) b -> Forall (apart b) (fl ++ live) ->
  base + 16 <= b.1 -> fin b <= brk -> mapped (u_mem h) b ->
  exists h' L R, free (b.1 + 16) h = Some h' /\ fl = L ++ R /\ heap_ok base brk h' (put_back L b R) live.
Proof.
  intros Hok [Hb2 (cb & Hcb & Hsz)] Ha Hb1 Hbf Hbm. apply Forall_app in Ha as [HaF HaL].
  destruct (free_links h fl live b cb) as (h' & L & R & p & Hf & -> & Hp & HL & HR & Hs' & Hfp' & Hm & Hdom); try done.
  pose proof (live_elsewhere h L R live p Hok Hp) as Hlp. destruct Hok as [_ _ Hsp Hlive Hap Hrg Hmp Hb0 Hbrk].
  apply Forall_app in Hrg as [HrF HrL]. apply Forall_app in Hmp as [HmF HmL].
  exists h', L, R. split; [done|]. split; [done|]. split; try done.
  - apply put_back_spaced; done || lia.
  - rewrite Forall_forall in HaL, Hlive, Hlp |- *. intros c Hc. destruct (Hlive c Hc) as [Hc2 _].
    apply (is_live_kept (u_mem h) _ c p.1 b.1); auto. apply apart_ne; auto.
  - apply (all_apart_fl _ (L ++ R)); [done|]. rewrite Forall_forall in HaL, Hlive |- *. intros c Hc Hcf. destruct (Hlive c Hc) as [Hc2 _].
    apply put_back_Forall; [|apply apart_sym; auto|done]. unfold apart, fin. simpl. intros. lia.
  - apply Forall_app_2; [|done]. apply put_back_Forall; [|done|done]. unfold fin. simpl. intros. lia.
  - apply Forall_app_2; [|eapply Forall_impl; [exact HmL|]; intros c Hc i Hi; auto].
    apply put_back_Forall; [intros x y; apply mapped_merge|intros i Hi; auto|].
    eapply Forall_impl; [exact HmF|]. intros c Hc i Hi. auto.
Qed.
End free.

(** ** Taking a block *)

Lemma seg_index m l last j r : seg m l last -> l !! j = Some r ->
  m !! r.1 = Some (mkheader (match l !! S j with Some c => c.1 | None => last end) r.2).
Proof.
  intros Hs Hj. destruct (list_elem_of_split_length _ _ _ Hj) as (l1 & l2 & -> & ->). apply seg_lookup in Hs. rewrite Hs.
  rewrite lookup_app_r by lia. replace (S (length l1) - length l1)%nat with 1%nat by lia. by destruct l2.
Qed.

Section take.
Context (base brk : Z).

(** The ring around the free block [r], and what is known of it. *)
Lemma ring_remove h A r B live : heap_ok base brk h (A ++ r :: B) live -> exists pre q,
  (base, 0) :: A = pre ++ [q] /\ seg (u_mem h) pre q.1 /\ seg (u_mem h) B base /\
  u_mem h !! q.1 = Some (mkheader r.1 q.2) /\ u_mem h !! r.1 = Some (mkheader (first B base) r.2) /\
  Forall (fun c => c.1 <> q.1 /\ c.1 <> r.1) (pre ++ B) /\ q.1 <> r.1 /\
  Forall (apart r) (A ++ B) /\ Forall (apart r) live /\ 0 < r.2 /\ base + 16 <= r.1 /\ fin r <= brk /\ mapped (u_mem h) r.
Proof.
  intros [Hs _ Hsp Hlive Hap Hrg Hmp Hb0 Hbrk].
  assert (exists pre q, (base, 0) :: A = pre ++ [q]) as (pre & q & E).
  { destruct A as [|a A _] using rev_ind; [by exists [], (base, 0)|]. by exists ((base, 0) :: A), a. }
  exists pre, q. split; [done|]. rewrite app_comm_cons, E in Hs. rewrite <- app_assoc in Hs. simpl in Hs.
  pose proof (ring_NoDup base _ Hsp) as Hn. rewrite app_comm_cons, E, <- app_assoc, fmap_app in Hn. simpl in Hn.
  apply NoDup_app in Hn as (_ & Hn1 & Hn2). apply NoDup_cons in Hn2 as [Hn2 Hn3]. apply NoDup_cons in Hn3 as [Hn3 _].
  apply seg_app in Hs as [Hs1 (Hs2 & Hs3 & Hs4)]. simpl in *.
  apply Forall_app in Hrg as [Hrg _]. apply Forall_app in Hrg as [_ Hrg]. apply Forall_cons in Hrg as [[? ?] _].
  apply Forall_app in Hmp as [Hmp _]. apply Forall_app in Hmp as [_ Hmp]. apply Forall_cons in Hmp as [? _].
  apply spaced_app in Hsp as (_ & (? & ? & Hsp) & HspA).
  split_and!; try done.
  - rewrite Forall_app, !Forall_forall. split; intros c Hc; (split; intros Ec).
    + apply (Hn1 c.1); [apply list_elem_of_fmap; by exists c|rewrite Ec; by left].
    + apply (Hn1 c.1); [apply list_elem_of_fmap; by exists c|rewrite Ec; right; by left].
    + apply Hn2. right. rewrite <- Ec. apply list_elem_of_fmap. by exists c.
    + apply Hn3. rewrite <- Ec. apply list_elem_of_fmap. by exists c.
  - intros Ec. apply Hn2. rewrite Ec. by left.
  - apply Forall_app. split.
    + eapply Forall_impl; [exact HspA|]. simpl. intros c Hc. inversion Hc; subst. right. lia.
    + eapply Forall_impl; [by apply spaced_above|]. simpl. intros c [??]. left. lia.
  - rewrite Forall_forall. intros c Hc. pose proof (all_apart_lookup _ _ _ Hap Hc) as Ha.
    rewrite Forall_app, Forall_cons in Ha. apply apart_sym. tauto.
Qed.

Lemma is_live_insert m a c b : b.1 <> a -> is_live m b -> is_live (<[a := c]> m) b.
Proof. intros Ha [H1 H2]. split; [done|]. by rewrite lookup_insert_ne. Qed.

Lemma mapped_insert m a c b : mapped m b -> mapped (<[a := c]> m) b.
Proof. intros Hb i Hi. apply lookup_insert_is_Some'. right. by apply Hb. Qed.

Lemma all_mapped_insert m a c l : Forall (mapped m) l -> Forall (mapped (<[a := c]> m)) l.
Proof. intros Hl. eapply Forall_impl; [exact Hl|]. intros b. apply mapped_insert. Qed.

(** No header of a live block is in the ring. *)
Lemma live_not_free h fl live c p : heap_ok base brk h fl live -> c ∈ live -> p ∈ (base, 0) :: fl -> c.1 <> p.1.
Proof.
  intros Hok Hc Hp. rewrite <- (app_nil_r fl) in Hok. pose proof (live_elsewhere base brk h fl [] live p Hok Hp) as Hl.
  rewrite Forall_forall in Hl. by apply Hl.
Qed.

Lemma take_exact h A r B live pre q : heap_ok base brk h (A ++ r :: B) live -> (base, 0) :: A = pre ++ [q] ->
  seg (u_mem h) pre q.1 -> seg (u_mem h) B base -> Forall (fun c => c.1 <> q.1 /\ c.1 <> r.1) (pre ++ B) -> q.1 <> r.1 ->
  u_mem h !! r.1 = Some (mkheader (first B base) r.2) -> Forall (apart r) (A ++ B) -> Forall (apart r) live ->
  heap_ok base brk (h <| u_mem ::= <[q.1 := mkheader (first B base) q.2]> |> <| u_freep := q.1 |>) (A ++ B) (r :: live).
Proof.
  intros Hok E Hpre HB Hne Hqr Hr HaF HaL. assert (q ∈ (base, 0) :: A ++ r :: B) as Hq.
  { rewrite app_comm_cons, E. apply elem_of_app. left. apply elem_of_app. right. by left. }
  pose proof (fun c Hc => live_not_free _ _ _ c q Hok Hc Hq) as Hlq. destruct Hok as [_ _ Hsp Hlive Hap Hrg Hmp Hb0 Hbrk].
  apply Forall_app in Hne as [Hne1 Hne2]. rewrite Forall_app, Forall_app, Forall_cons in Hrg, Hmp.
  apply spaced_app in Hsp as (HsA & (? & ? & HsB) & Hc).
  assert (seg (<[q.1 := mkheader (first B base) q.2]> (u_mem h)) ((base, 0) :: A ++ B) base) as Hseg.
  { rewrite app_comm_cons, E, <- app_assoc. apply seg_app. split.
    + apply seg_insert_ne; [|done]. eapply Forall_impl; [exact Hne1|]. simpl. tauto.
    + simpl. rewrite lookup_insert_eq. split; [done|]. apply seg_insert_ne; [|done]. eapply Forall_impl; [exact Hne2|]. simpl. tauto. }
  split; [exact Hseg|clear Hseg; simpl; try done..].
  - exists q.2. rewrite app_comm_cons, E. apply elem_of_app. left. apply elem_of_app. right. destruct q. by left.
  - apply spaced_app. split; [done|]. split; [eapply spaced_weaken; [|exact HsB]; unfold fin; lia|].
    eapply Forall_impl; [exact Hc|]. intros c Hcc. by inversion Hcc.
  - constructor; [split; [done|]; rewrite lookup_insert_ne by done; eauto|].
    rewrite Forall_forall in Hlive |- *. intros c Hcl. apply is_live_insert; auto.
  - split.
    + apply Forall_app_2; done.
    + apply (all_apart_fl _ (A ++ r :: B)); [done|]. rewrite Forall_forall. intros c _. rewrite !Forall_app, Forall_cons. tauto.
  - rewrite !Forall_app, Forall_cons. tauto.
  - apply all_mapped_insert. rewrite !Forall_app, Forall_cons. tauto.
Qed.

Lemma apart_sub b c x : apart b c -> b.1 <= x.1 -> fin x <= fin b -> 0 <= x.2 -> apart x c.
Proof. unfold apart, fin. lia. Qed.

Lemma all_apart_sub b x l : Forall (apart b) l -> b.1 <= x.1 -> fin x <= fin b -> 0 <= x.2 -> Forall (apart x) l.
Proof. intros Hl ???. eapply Forall_impl; [exact Hl|]. intros c Hc. by apply (apart_sub b). Qed.

(** Cutting [n] units off the end of the free block [r]. *)
Lemma take_split h A r B live pre q n x : heap_ok base brk h (A ++ r :: B) live -> (base, 0) :: A = pre ++ [q] ->
  seg (u_mem h) pre q.1 -> seg (u_mem h) B base -> Forall (fun c => c.1 <> q.1 /\ c.1 <> r.1) (pre ++ B) -> q.1 <> r.1 ->
  u_mem h !! q.1 = Some (mkheader r.1 q.2) -> Forall (apart r) (A ++ B) -> Forall (apart r) live ->
  0 < n < r.2 -> let p := r.1 + 16 * (r.2 - n) in
  heap_ok base brk (mkheap (<[p := mkheader x n]> (<[r.1 := mkheader (first B base) (r.2 - n)]> (u_mem h))) q.1)
    (A ++ (r.1, r.2 - n) :: B) ((p, n) :: live).
Proof.
  intros Hok E Hpre HB Hne Hqr Hq HaF HaL Hn p. set (r' := (r.1, r.2 - n)).
  pose proof (fun c Hc => live_not_free _ _ _ c r Hok Hc (ltac:(right; apply elem_of_app; right; by left))) as Hlr.
  destruct Hok as [_ _ Hsp Hlive Hap Hrg Hmp Hb0 Hbrk]. pose proof (spaced_above _ _ Hsp) as Hpos.
  rewrite Forall_app, Forall_app, Forall_cons in Hrg, Hmp. destruct Hrg as ((HrA & [Hr1 Hr2] & HrB) & HrL).
  destruct Hmp as ((HmA & Hmr & HmB) & HmL). apply Forall_app in Hpos as [HposA HposB]. inversion HposB as [|?? [? ?] HposB']; subst.
  assert (forall c, 0 < c.2 -> apart r c -> c.1 <> p) as Hp by (intros c; unfold apart, fin, p; lia).
  apply spaced_app in Hsp as (HsA & (? & ? & HsB) & Hc). apply Forall_app in Hne as [Hne1 Hne2]. apply Forall_app in HaF as [HaA HaB].
  assert (Forall (fun c => c.1 <> p) (pre ++ [q])) as HpreP.
  { rewrite <- E. constructor; [unfold p; simpl; lia|]. rewrite Forall_forall in HaA, HposA |- *. intros c Hcc. apply Hp; [apply HposA|apply HaA]; done. }
  assert (Forall (fun c => c.1 <> p) B) as HBP.
  { rewrite Forall_forall in HaB, HposB' |- *. intros c Hcc. apply Hp; [apply HposB'|apply HaB]; done. }
  apply Forall_app in HpreP as [HpreP HqP]. inversion HqP; subst.
  assert (seg (<[p := mkheader x n]> (<[r.1 := mkheader (first B base) (r.2 - n)]> (u_mem h))) ((base, 0) :: A ++ r' :: B) base) as Hseg.
  { rewrite app_comm_cons, E, <- app_assoc. apply seg_app. split; [|simpl; split_and!].
    - apply seg_insert_ne; [done|]. apply seg_insert_ne; [|done]. eapply Forall_impl; [exact Hne1|]. simpl. tauto.
    - by rewrite !lookup_insert_ne by congruence.
    - rewrite lookup_insert_ne, lookup_insert_eq by (unfold p; lia). done.
    - apply seg_insert_ne; [done|]. apply seg_insert_ne; [|done]. eapply Forall_impl; [exact Hne2|]. simpl. tauto. }
  split; [exact Hseg|clear Hseg; simpl; try done..].
  - exists q.2. rewrite app_comm_cons, E. apply elem_of_app. left. apply elem_of_app. right. destruct q. by left.
  - apply spaced_app. split; [done|]. split.
    + split_and!; [done|simpl; lia|]. eapply spaced_weaken; [|exact HsB]. unfold r', fin. simpl. lia.
    + eapply Forall_impl; [exact Hc|]. intros c Hcc. inversion Hcc; subst. by constructor.
  - constructor; [split; [simpl; lia|]; simpl; rewrite lookup_insert_eq; eauto|].
    rewrite Forall_forall in Hlive, HaL |- *. intros c Hcl. apply is_live_insert; [apply Hp; [apply Hlive|apply HaL]; done|].
    apply is_live_insert; auto.
  - assert (apart (p, n) r') by (unfold apart, fin, p, r'; simpl; lia).
    assert (forall l, Forall (apart r) l -> Forall (apart (p, n)) l) as Hsub.
    { intros l Hl. apply (all_apart_sub r); [done|unfold p, fin; simpl; lia..]. }
    split; [repeat (apply Forall_app_2; [by apply Hsub|]); constructor; [done|by apply Hsub]|].
    apply (all_apart_fl _ (A ++ r :: B)); [done|]. rewrite Forall_forall. intros c _. rewrite !Forall_app, !Forall_cons.
    intros (? & Hcr & ?). split_and!; try done. apply apart_sym, (apart_sub r); [by apply apart_sym|unfold r', fin; simpl; lia..].
  - rewrite !Forall_app, !Forall_cons. unfold p, r', fin in *. simpl. split_and!; done || lia.
  - do 2 apply all_mapped_insert. rewrite !Forall_app, !Forall_cons. split_and!; try done.
    + intros i Hi. apply Hmr. simpl in *. lia.
    + intros i Hi. simpl in *. replace (p + 16 * i) with (r.1 + 16 * (r.2 - n + i)) by (unfold p; lia). apply Hmr. lia.
Qed.
End take.

(** ** Growing *)

(** [sbrk] gives contiguous memory above the break, or fails; a process stays below 4 GB. *)
Class Brk {WO : World} (grows : Z -> world -> Prop) : Prop := {
  br_sbrk brk n w : grows brk w -> 0 <= n < 2 ^ 31 ->
    exists w', (sys (Usbrk n) w = (-1, [], w') /\ grows brk w') \/
               (sys (Usbrk n) w = (brk, [], w') /\ brk + n <= 2 ^ 32 /\ grows (brk + n) w')
}.

Lemma sbrk_mem_low a n m x : 0 <= n -> x < a -> sbrk_mem a n m !! x = m !! x.
Proof.
  intros Hn Hx. unfold sbrk_mem. destruct (Z.leb_spec 0 n); [|lia].
  assert (Forall (fun i => 0 <= i) (seqZ 0 (n / 16))) as Hi by (apply Forall_forall; intros i; rewrite elem_of_seqZ; lia).
  induction Hi as [|i l Hi _ IH]; simpl; [done|]. by rewrite lookup_insert_ne by lia.
Qed.

Lemma sbrk_mem_new a n m i : 0 <= i < n / 16 -> is_Some (sbrk_mem a n m !! (a + 16 * i)).
Proof.
  intros Hi. unfold sbrk_mem. destruct (Z.leb_spec 0 n); [|pose proof (Z.div_lt_upper_bound n 16 0); lia].
  assert (i ∈ seqZ 0 (n / 16)) as Hin by (apply elem_of_seqZ; lia).
  revert Hin. generalize (seqZ 0 (n / 16)). induction l as [|j l IH]; [by rewrite elem_of_nil|].
  intros Hin. simpl. apply lookup_insert_is_Some'. apply elem_of_cons in Hin as [->|Hin]; [by left|right; auto].
Qed.

Section grow.
Context {WO : World} (grows : Z -> world -> Prop) `{!Brk grows} (base : Z).

Lemma seg_low m m' l last brk : Forall (fun b => b.1 < brk) l -> (forall x, x < brk -> m' !! x = m !! x) ->
  seg m l last -> seg m' l last.
Proof.
  intros Hl Hm. induction Hl as [|b l Hb _ IH]; simpl; [done|]. intros [H1 H2]. rewrite Hm by done. auto.
Qed.

(** More memory, and a header written into it, change nothing of what is there. *)
Lemma heap_ok_grow brk h fl live n m' : heap_ok base brk h fl live -> 0 <= n -> brk + n <= 2 ^ 32 ->
  (forall x, x < brk -> m' !! x = u_mem h !! x) -> heap_ok base (brk + n) (h <| u_mem := m' |>) fl live.
Proof.
  intros [Hs Hf Hsp Hl Ha Hr Hm Hb Hk] Hn Hbn Hlow. pose proof (spaced_above _ _ Hsp) as Hpos. split; simpl; try done.
  - apply (seg_low (u_mem h) m' ((base, 0) :: fl) base brk); [|done|done]. constructor; [simpl; lia|].
    apply Forall_app in Hr as [Hr _]. rewrite Forall_forall in Hr, Hpos |- *. intros b Hb'.
    specialize (Hr b Hb'). specialize (Hpos b Hb'). unfold fin in Hr. simpl in *. lia.
  - apply Forall_app in Hr as [_ Hr]. rewrite Forall_forall in Hl, Hr |- *. intros b Hb'. destruct (Hl b Hb') as [H1 H2].
    split; [done|]. specialize (Hr b Hb'). unfold fin in Hr. rewrite Hlow by lia. done.
  - eapply Forall_impl; [exact Hr|]. simpl. lia.
  - rewrite Forall_forall in Hr, Hm |- *. intros b Hb' i Hi. specialize (Hr b Hb'). unfold fin in Hr.
    rewrite Hlow by lia. by apply Hm.
  - lia.
Qed.

Lemma length_put_back L b R : (length (put_back L b R) <= S (length (L ++ R)))%nat.
Proof.
  assert (length (join_next b R) <= S (length R))%nat as Hj.
  { destruct R as [|r R]; simpl; [done|]. destruct (fin b =? r.1); simpl; lia. }
  destruct L as [|q L _] using rev_ind; [done|]. rewrite put_back_snoc, !length_app. simpl.
  destruct (join_next b R) as [|c l]; simpl in *; [lia|]. destruct (fin q =? c.1); simpl; lia.
Qed.

Lemma uwp_morecore brk h fl live nu Q E w :
  heap_ok base brk h fl live -> grows brk w -> 0 < nu -> nu * 16 < 2 ^ 31 ->
  (forall w', grows brk w' -> Q (0, h) w') ->
  (forall brk' h' fl' w', brk' = brk + Z.max nu 4096 * 16 -> heap_ok base brk' h' fl' live -> grows brk' w' -> (length fl' <= S (length fl))%nat ->
     total fl' = total fl + Z.max nu 4096 -> (exists c, c ∈ fl' /\ nu <= c.2) -> Q (u_freep h', h') w') ->
  uwp (morecore nu h) Q E w.
Proof.
  intros Hok Hg Hnu Hnb Q0 Q1. unfold morecore.
  replace (if nu <? 4096 then 4096 else nu) with (Z.max nu 4096) by (destruct (Z.ltb_spec nu 4096); lia).
  set (n := Z.max nu 4096). rewrite i32_small by lia.
  destruct (br_sbrk brk (n * 16) w Hg) as (w' & [[Hs Hg']|(Hs & Hb & Hg')]); [lia| |]; ustep.
  - by apply Q0.
  - pose proof (ho_base _ _ _ _ _ Hok). pose proof (ho_brk _ _ _ _ _ Hok). destruct (Z.eqb_spec brk (-1)); [lia|].
    set (h1 := h <| u_mem ::= sbrk_mem brk (n * 16) |>).
    destruct (sbrk_mem_new brk (n * 16) (u_mem h) 0) as [c0 Hc0]; [rewrite Z.div_mul by lia; lia|].
    rewrite Z.add_0_r in Hc0. ustep. eapply uwp_access; [by apply (set_size_Some _ _ c0)|]. ustep.
    set (h2 := h1 <| u_mem ::= _ |>).
    assert (heap_ok base (brk + n * 16) h2 fl live) as Hok2.
    { assert (h2 = h <| u_mem := u_mem h2 |>) as -> by done. apply heap_ok_grow; [done|lia|lia|].
      intros x Hx. simpl. rewrite lookup_insert_ne by lia. apply sbrk_mem_low; lia. }
    assert (Forall (apart (brk, n)) (fl ++ live)) as Hap.
    { eapply Forall_impl; [exact (ho_range _ _ _ _ _ Hok)|]. simpl. intros c Hc. right. simpl. lia. }
    destruct (free_block base (brk + n * 16) h2 fl live (brk, n)) as (h3 & L & R & Hf & -> & Hok3); try done.
    + split; [simpl; lia|]. simpl. rewrite lookup_insert_eq. eauto.
    + simpl. lia.
    + unfold fin. simpl. lia.
    + intros i Hi. simpl. apply lookup_insert_is_Some'. right. apply sbrk_mem_new. rewrite Z.div_mul by lia. done.
    + simpl in Hf. ustep. eapply Q1; [reflexivity|exact Hok3|done|apply length_put_back|apply put_back_total|].
      destruct (put_back_has L (brk, n) R) as (c & Hc & Hle).
      { eapply Forall_impl; [eapply spaced_above, (ho_spaced _ _ _ _ _ Hok)|]. simpl. tauto. }
      exists c. split; [done|]. simpl in Hle. lia.
Qed.
End grow.

(** ** Searching *)

Section search.
Context {WO : World} (grows : Z -> world -> Prop) `{!Brk grows} (base : Z) (k : Z) (Hk : 0 < k) (Hk' : k * 16 < 2 ^ 31).

(** A free block that is big enough is taken. *)
Lemma turn_found brk h fl live i q r Q E w : heap_ok base brk h fl live ->
  ((base, 0) :: fl) !! i = Some q -> fl !! i = Some r -> k <= r.2 ->
  (forall p h' fl', heap_ok base brk h' fl' ((p, k) :: live) -> total fl' + k = total fl -> Q (inr (p + 16, h')) w) ->
  uwp (malloc_turn k (h, q.1, r.1)) Q E w.
Proof.
  intros Hok Hq Hr Hle HQ. destruct (list_elem_of_split_length _ _ _ Hr) as (A & B & -> & ->).
  destruct (ring_remove base brk h A r B live Hok) as (pre & q' & E0 & Hpre & HB & Hmq & Hmr & Hne & Hqr & HaF & HaL & Hr2 & Hr1 & Hrf & Hrm).
  assert (q' = q) as ->.
  { rewrite app_comm_cons, E0, <- app_assoc in Hq. apply (f_equal length) in E0 as El. rewrite length_app in El. simpl in El.
    replace (length A) with (length pre) in Hq by lia. change ([q'] ++ r :: B) with (q' :: r :: B) in Hq. rewrite list_lookup_middle in Hq by done. by simplify_eq. }
  pose proof (ho_base _ _ _ _ _ Hok). pose proof (ho_brk _ _ _ _ _ Hok). assert (r.2 < 2 ^ 32) by (unfold fin in Hrf; lia).
  unfold malloc_turn. ustep. simpl. destruct (Z.leb_spec k r.2); [|lia]. destruct (Z.eqb_spec r.2 k).
  - ustep. eapply uwp_access; [by apply (set_ptr_Some _ _ (mkheader r.1 q.2))|]. ustep.
    apply (HQ r.1 _ (A ++ B)); [|rewrite !total_app; simpl; lia]. replace (r.1, k) with r by (destruct r; simpl in *; congruence).
    by apply (take_exact base brk h A r B live pre q).
  - rewrite u32_small by lia. ustep. eapply uwp_access; [by apply (set_size_Some _ _ (mkheader (first B base) r.2))|]. ustep.
    set (p := r.1 + 16 * (r.2 - k)). destruct (Hrm (r.2 - k)) as [cp Hcp]; [lia|]. fold p in Hcp.
    eapply uwp_access; [apply (set_size_Some _ _ cp); simpl; rewrite lookup_insert_ne; [exact Hcp|unfold p; lia]|]. ustep.
    apply (HQ p _ (A ++ (r.1, r.2 - k) :: B)); [|rewrite !total_app; simpl; lia].
    apply (take_split base brk h A r B live pre q k (h_ptr cp)); done || lia.
Qed.

(** The index after [j] in a ring of [n] blocks, and how far [j] is from [f]. *)
Definition after (n j : nat) : nat := if decide (S j = n) then 0%nat else S j.
Definition dist (n f j : nat) : nat := (if decide (j <= f) then f - j else f + n - j)%nat.

Lemma ring_next brk h fl live j r : heap_ok base brk h fl live -> ((base, 0) :: fl) !! j = Some r ->
  exists c, ((base, 0) :: fl) !! after (S (length fl)) j = Some c /\ u_mem h !! r.1 = Some (mkheader c.1 r.2).
Proof.
  intros Hok Hj. pose proof (seg_index _ _ _ _ _ (ho_ring _ _ _ _ _ Hok) Hj) as Hm. unfold after.
  destruct (decide (S j = S (length fl))) as [E|E].
  - exists (base, 0). split; [done|]. rewrite lookup_ge_None_2 in Hm by (simpl; lia). done.
  - apply lookup_lt_Some in Hj as Hlt. simpl in Hlt.
    destruct (lookup_lt_is_Some_2 ((base, 0) :: fl) (S j)) as [c Hc]; [simpl; lia|]. exists c. rewrite Hc in Hm. done.
Qed.

(** The search from [j] on finds a block or comes to [freep], where no block is big enough. *)
Lemma search brk h fl live f Q E w :
  heap_ok base brk h fl live -> fst <$> ((base, 0) :: fl) !! f = Some (u_freep h) ->
  (forall p h' fl', heap_ok base brk h' fl' ((p, k) :: live) -> total fl' + k = total fl -> Q (p + 16, h') w) ->
  forall fuel m i j q r, dist (S (length fl)) f j = m -> j = after (S (length fl)) i ->
  ((base, 0) :: fl) !! i = Some q -> ((base, 0) :: fl) !! j = Some r ->
  (forall i' c, ((base, 0) :: fl) !! i' = Some c -> (m < dist (S (length fl)) f i')%nat -> c.2 < k) ->
  (forall fuel', (fuel <= m + S fuel')%nat -> Forall (fun c => c.2 < k) fl ->
     uwp (x ← morecore k h; let '(p, h) := x in
          if p =? 0 then mret (0, h) else c ← access (u_mem h !! p); uloop fuel' (malloc_turn k) (h, p, h_ptr c)) Q E w) ->
  (m < fuel)%nat -> uwp (uloop fuel (malloc_turn k) (h, q.1, r.1)) Q E w.
Proof.
  intros Hok Hf HQ. induction fuel as [|fuel IH]; intros m i j q r Hm Hj Hq Hr Hseen Hmore Hfuel; [lia|].
  pose proof (lookup_lt_Some _ _ _ Hr) as Hjn. pose proof (lookup_lt_Some _ _ _ Hq) as Hin.
  assert (f < S (length fl))%nat as Hfn.
  { destruct (((base, 0) :: fl) !! f) eqn:Ef; [|done]. apply lookup_lt_Some in Ef. done. }
  simpl in Hjn, Hin. simpl uloop. apply uwp_bind. destruct (decide (k <= r.2)) as [Hle|Hle].
  { destruct j as [|j]; [simplify_eq/=; lia|]. assert (i = j) as -> by (unfold after in Hj; case_decide; lia).
    eapply turn_found; [done|done|exact Hr|done|]. intros p h' fl' Hok' Ht. apply uwp_ret. by apply (HQ p h' fl'). }
  destruct (ring_next brk h fl live j r Hok Hr) as (c & Hc & Hmr). unfold malloc_turn at 1.
  ustep. simpl. destruct (Z.leb_spec k r.2); [lia|]. destruct (Z.eqb_spec r.1 (u_freep h)) as [Ef|Ef].
  - assert (j = f) as ->.
    { destruct (((base, 0) :: fl) !! f) as [c'|] eqn:Ec; [|done]. simpl in Hf. injection Hf as Hf.
      pose proof (ring_NoDup base fl (ho_spaced _ _ _ _ _ Hok)) as Hn. eapply (NoDup_lookup (((base, 0) :: fl).*1)); [exact Hn| |];
      rewrite list_lookup_fmap; [by rewrite Hr|rewrite Ec; simpl; congruence]. }
    assert (m = 0%nat) as -> by (subst m; unfold dist; case_decide; lia).
    assert (Forall (fun c => c.2 < k) fl) as Hsmall.
    { apply Forall_lookup_2. intros i' c' Hc'. destruct (decide (S i' = f)) as [Ei|Ei]; [rewrite <- Ei in Hr; change (fl !! i' = Some r) in Hr; simplify_eq; lia|].
      apply (Hseen (S i') c'); [done|]. apply lookup_lt_Some in Hc'. unfold dist. case_decide; lia. }
    specialize (Hmore fuel ltac:(lia) Hsmall). unfold uwp, mbind, U_bind in Hmore |- *.
    destruct (morecore k h w) as [[p' h'] w'|st w'| |]; try done. destruct (p' =? 0); [done|].
    unfold access in *. destruct (u_mem h' !! p'); done.
  - ustep. assert (j <> f) as Hjf by (intros ->; rewrite Hr in Hf; simplify_eq/=).
    eapply (IH (m - 1)%nat j _ r c); [|reflexivity|done|done| | |].
    + subst m. unfold after, dist. repeat case_decide; lia.
    + intros i' c' Hc' Hd. destruct (decide (i' = j)) as [->|Hij]; [simplify_eq; lia|]. apply (Hseen i' c'); [done|].
      apply lookup_lt_Some in Hc'. simpl in Hc'. subst m. unfold dist in *. repeat case_decide; lia.
    + intros fuel' Hfu Hsm. apply Hmore; [|done]. unfold dist in Hm. case_decide; lia.
    + unfold dist in Hm. case_decide; lia.
Qed.

Lemma search_start brk h fl live fuel Q E w :
  heap_ok base brk h fl live -> (S (length fl) <= fuel)%nat ->
  (forall p h' fl', heap_ok base brk h' fl' ((p, k) :: live) -> total fl' + k = total fl -> Q (p + 16, h') w) ->
  (forall fuel', (fuel <= S (length fl) + fuel')%nat -> Forall (fun c => c.2 < k) fl ->
     uwp (x ← morecore k h; let '(p, h) := x in
          if p =? 0 then mret (0, h) else c ← access (u_mem h !! p); uloop fuel' (malloc_turn k) (h, p, h_ptr c)) Q E w) ->
  uwp (c ← access (u_mem h !! u_freep h); uloop fuel (malloc_turn k) (h, u_freep h, h_ptr c)) Q E w.
Proof.
  intros Hok Hfuel HQ Hmore. destruct (ho_freep _ _ _ _ _ Hok) as [s0 Hin].
  apply list_elem_of_lookup in Hin as [f Hf]. destruct (ring_next brk h fl live f _ Hok Hf) as (r & Hr & Hm). simpl in Hm.
  pose proof (lookup_lt_Some _ _ _ Hf) as Hfn. simpl in Hfn. ustep. simpl h_ptr.
  assert (dist (S (length fl)) f (after (S (length fl)) f) = length fl) as Hd.
  { unfold after, dist. repeat case_decide; lia. }
  apply (search brk h fl live f Q E w Hok) with (m := length fl) (i := f) (j := after (S (length fl)) f) (q := (u_freep h, s0));
    try done; [by rewrite Hf| |].
  - intros i' c Hc. apply lookup_lt_Some in Hc. simpl in Hc. unfold dist. case_decide; lia.
  - intros fuel' Hfu Hsm. apply Hmore; [lia|done].
Qed.

(** What [malloc] leaves: a new live block of [k] units, or nothing new when memory is exhausted; and no unit
    is lost. *)
Definition malloc_post (brk : Z) (fl live : list block) (x : Z * heap) (w : world) : Prop :=
  exists brk' fl', grows brk' w /\ brk <= brk' /\
    ((x.1 = 0 /\ heap_ok base brk' x.2 fl' live /\ 16 * total fl' - brk' = 16 * total fl - brk) \/
     (heap_ok base brk' x.2 fl' ((x.1 - 16, k) :: live) /\ 16 * (total fl' + k) - brk' = 16 * total fl - brk)).

Lemma uwp_search brk h fl live fuel E w :
  heap_ok base brk h fl live -> grows brk w -> (2 * S (length fl) + 1 <= fuel)%nat ->
  uwp (c ← access (u_mem h !! u_freep h); uloop fuel (malloc_turn k) (h, u_freep h, h_ptr c)) (malloc_post brk fl live) E w.
Proof.
  intros Hok Hg Hfuel. apply (search_start brk h fl live); [done|lia| |].
  - intros p h' fl' Hok' Ht. exists brk, fl'. split; [done|]. split; [lia|]. right. simpl.
    replace (p + 16 - 16) with p by lia. split; [done|lia].
  - intros fuel' Hfu _. apply uwp_bind. apply (uwp_morecore grows base brk h fl live); try done.
    + intros w' Hg'. ustep. exists brk, fl. split; [done|]. split; [lia|]. left. by split_and!.
    + intros brk' h' fl' w' Hbrk Hok' Hg' Hlen Ht (c & Hc & Hck).
      assert (0 < u_freep h') as Hfp.
      { destruct (ho_freep _ _ _ _ _ Hok') as [s0 Hin]. pose proof (ho_base _ _ _ _ _ Hok').
        apply elem_of_cons in Hin as [Hin|Hin]; [simplify_eq; lia|].
        pose proof (spaced_above _ _ (ho_spaced _ _ _ _ _ Hok')) as Ha. rewrite Forall_forall in Ha. specialize (Ha _ Hin). simpl in Ha. lia. }
      destruct (Z.eqb_spec (u_freep h') 0); [lia|]. apply (search_start brk' h' fl' live); [done|lia| |].
      * intros p h2 fl2 Hok2 Ht2. exists brk', fl2. split; [done|]. split; [lia|]. right. simpl.
        replace (p + 16 - 16) with p by lia. split; [done|lia].
      * intros fuel2 _ Hsm. rewrite Forall_forall in Hsm. specialize (Hsm c Hc). simpl in Hsm. lia.
Qed.
End search.

(** ** Any use of the allocator *)

Inductive request :=
  | Rmalloc (nbytes : Z)
  | Rfree (i : nat)                          (* of the [i]-th live block *)
  | Rwrite (i : nat) (off : Z) (c : header). (* into unit [off] of the [i]-th live block *)

Section client.
Context {WO : World} (base : Z).

(** A program: its requests, and the blocks it holds. *)
Fixpoint client (rs : list request) (h : heap) (live : list block) : U (heap * list block) :=
  match rs with
  | [] => mret (h, live)
  | Rmalloc n :: rs =>
    x ← malloc base n h;
    client rs x.2 (if x.1 =? 0 then live else (x.1 - 16, (n + 16 - 1) / 16 + 1) :: live)
  | Rfree i :: rs =>
    match live !! i with
    | Some b => h ← access (free (b.1 + 16) h); client rs h (delete i live)
    | None => client rs h live
    end
  | Rwrite i off c :: rs =>
    match live !! i with
    | Some b =>
      if (1 <=? off) && (off <? b.2)
      then client rs (h <| u_mem ::= <[b.1 + 16 * off := c]> |>) live else client rs h live
    | None => client rs h live
    end
  end.

Definition sane (r : request) : Prop := match r with Rmalloc n => 0 <= n < 2 ^ 31 - 32 | _ => True end.

(** Before the first call nothing is allocated; later the invariant holds, and the blocks add up to the memory
    got from [sbrk] since the break was at [start]. *)
Definition heap_inv (start brk : Z) (h : heap) (live : list block) : Prop :=
  (u_freep h = 0 /\ live = [] /\ brk = start /\ is_Some (u_mem h !! base) /\ 0 < base /\ base + 16 <= brk <= 2 ^ 32) \/
  (exists fl, heap_ok base brk h fl live /\ 16 * (total fl + total live) = brk - start).

Lemma heap_ok_insert brk h fl live a c : heap_ok base brk h fl live ->
  Forall (fun b => b.1 <> a) ((base, 0) :: fl) -> Forall (fun b => b.1 <> a) live ->
  heap_ok base brk (h <| u_mem ::= <[a := c]> |>) fl live.
Proof.
  intros [Hs Hf Hsp Hl Ha Hr Hm Hb Hk] Hfl Hli. split; try done.
  - by apply seg_insert_ne.
  - rewrite Forall_forall in Hl, Hli |- *. intros b Hb'. apply is_live_insert; auto.
  - by apply all_mapped_insert.
Qed.

Lemma free_lookup brk h fl live i b : heap_ok base brk h fl live -> live !! i = Some b ->
  exists h' fl', free (b.1 + 16) h = Some h' /\ heap_ok base brk h' fl' (delete i live) /\
    total fl' + total (delete i live) = total fl + total live.
Proof.
  intros Hok Hi. destruct (list_elem_of_split_length _ _ _ Hi) as (l1 & l2 & -> & ->). rewrite delete_middle.
  destruct (Hok) as [Hs Hf Hsp Hl Ha Hr Hm Hb Hk]. apply all_apart_split in Ha as [Ha Hab].
  rewrite Forall_app, Forall_app, Forall_cons in Hr, Hm. rewrite Forall_app, Forall_cons in Hl.
  assert (heap_ok base brk h fl (l1 ++ l2)) as Hok'.
  { split; try done; rewrite !Forall_app; tauto. }
  destruct (free_block base brk h fl (l1 ++ l2) b) as (h' & L & R & Hfr & -> & Hok2); try tauto.
  { rewrite !Forall_app in Hab. rewrite !Forall_app. tauto. }
  exists h', (put_back L b R). split; [done|]. split; [done|]. rewrite put_back_total, !total_app. simpl. lia.
Qed.

Lemma write_ok brk h fl live i b off c : heap_ok base brk h fl live -> live !! i = Some b -> 1 <= off < b.2 ->
  heap_ok base brk (h <| u_mem ::= <[b.1 + 16 * off := c]> |>) fl live.
Proof.
  intros Hok Hi Hoff. destruct (Hok) as [_ _ Hsp Hl Ha Hr _ Hb Hk].
  destruct (list_elem_of_split_length _ _ _ Hi) as (l1 & l2 & -> & _). apply all_apart_split in Ha as [_ Ha].
  rewrite !Forall_app in Ha. destruct Ha as (Ha1 & Ha2 & Ha3). rewrite Forall_app, Forall_app, Forall_cons in Hr.
  assert (forall d, 0 < d.2 -> apart b d -> d.1 <> b.1 + 16 * off) as Hne by (intros d; unfold apart, fin; lia).
  rewrite Forall_app, Forall_cons in Hl. destruct Hl as (Hl1 & _ & Hl2).
  apply heap_ok_insert; [done| |].
  - constructor; [simpl; lia|]. apply spaced_above in Hsp. rewrite Forall_forall in Ha3, Hsp |- *. intros d Hd.
    apply Hne; [apply Hsp|apply Ha3]; done.
  - rewrite Forall_app, Forall_cons. rewrite !Forall_forall in *. split_and!; [|lia|]; intros d Hd; apply Hne; auto.
    + by apply Hl1.
    + by apply Hl2.
Qed.

Context (grows : Z -> world -> Prop) `{!Brk grows}.

(** The first call makes the ring of the empty [base]. *)
Lemma heap_ok_first h brk c : u_mem h !! base = Some c -> 0 < base -> base + 16 <= brk <= 2 ^ 32 ->
  heap_ok base brk (mkheap (<[base := mkheader base 0]> (u_mem h)) base) [] [].
Proof.
  intros Hc Hb Hk. split; simpl; try done; [by rewrite lookup_insert_eq|].
  exists 0. by left.
Qed.

Lemma uwp_malloc start brk h live n E w : heap_inv start brk h live -> grows brk w -> 0 <= n < 2 ^ 31 - 32 ->
  uwp (malloc base n h) (fun x w' => exists brk', grows brk' w' /\
    heap_inv start brk' x.2 (if x.1 =? 0 then live else (x.1 - 16, (n + 16 - 1) / 16 + 1) :: live)) E w.
Proof.
  intros Hinv Hg Hn. set (k := (n + 16 - 1) / 16 + 1).
  assert (0 < k /\ k * 16 < 2 ^ 31) as [Hk0 Hk1] by (unfold k; pose proof (Z.div_mod (n + 16 - 1) 16); pose proof (Z.mod_pos_bound (n + 16 - 1) 16); lia).
  assert (exists h' fl, heap_ok base brk h' fl live /\ 16 * (total fl + total live) = brk - start /\
    forall Q, uwp (c ← access (u_mem h' !! u_freep h'); uloop (2 * size (u_mem h') + 4) (malloc_turn k) (h', u_freep h', h_ptr c)) Q E w ->
      uwp (malloc base n h) Q E w) as (h' & fl & Hok & Ht & Hrun).
  { destruct Hinv as [(Hf & -> & -> & [c Hc] & Hb & Hbk)|(fl & Hok & Ht)].
    - exists (mkheap (<[base := mkheader base 0]> (u_mem h)) base), []. split; [by eapply heap_ok_first|].
      split; [simpl; lia|]. intros Q HQ. unfold malloc. rewrite u32_small by (fold k; lia). fold k. rewrite Hf. simpl.
      ustep. eapply uwp_access; [by apply (set_ptr_Some _ _ c)|]. ustep.
      eapply uwp_access; [apply (set_size_Some _ _ (mkheader base (h_size c))); simpl; by rewrite lookup_insert_eq|]. ustep.
      unfold set. simpl. rewrite insert_insert_eq. exact (uwp_bind_inv _ _ _ _ _ HQ).
    - exists h, fl. split; [done|]. split; [done|]. intros Q HQ. unfold malloc. rewrite u32_small by (fold k; lia). fold k.
      assert (0 < u_freep h).
      { destruct (ho_freep _ _ _ _ _ Hok) as [s0 Hin]. pose proof (ho_base _ _ _ _ _ Hok).
        apply elem_of_cons in Hin as [Hin|Hin]; [simplify_eq; lia|].
        pose proof (spaced_above _ _ (ho_spaced _ _ _ _ _ Hok)) as Ha. rewrite Forall_forall in Ha. specialize (Ha _ Hin). simpl in Ha. lia. }
      destruct (Z.eqb_spec (u_freep h) 0); [lia|]. apply uwp_bind, uwp_ret. exact HQ. }
  apply Hrun. pose proof (ring_size base brk h' fl live Hok) as Hsz. eapply uwp_mono.
  { apply (uwp_search grows base k Hk0 Hk1 brk h' fl live); [done|done|lia]. }
  intros x w' (brk' & fl' & Hg' & Hbb & [(-> & Hok' & Ht')|(Hok' & Ht')]); exists brk'; (split; [done|]).
  - right. exists fl'. split; [done|]. change (0 =? 0) with true. cbv iota. lia.
  - right. exists fl'. pose proof (ho_range _ _ _ _ _ Hok') as Hr. pose proof (ho_base _ _ _ _ _ Hok').
    apply Forall_app in Hr as [_ Hr]. inversion Hr as [|?? [Hr1 _] _]; subst. simpl in Hr1.
    destruct (Z.eqb_spec x.1 0); [lia|]. split; [done|]. simpl. lia.
Qed.

(** C7. However a program uses [malloc] and [free], and whatever it writes into its blocks, no call goes wrong: the
    live blocks stay disjoint from each other, from the free blocks and from the headers, each has room for what was
    asked for, neighbouring free blocks are merged, and the blocks together are all of the memory obtained from
    [sbrk].  Requests are below 2 GB. *)
Theorem allocator_sound rs start h w :
  u_freep h = 0 -> is_Some (u_mem h !! base) -> 0 < base -> base + 16 <= start <= 2 ^ 32 -> grows start w ->
  Forall sane rs ->
  uwp (client rs h []) (fun x w' => exists brk, grows brk w' /\ heap_inv start brk x.1 x.2) (fun _ _ => False) w.
Proof.
  intros Hf Hm Hb Hs Hg Hrs. assert (heap_inv start start h []) as Hinv by (left; done).
  enough (forall h w live brk, heap_inv start brk h live -> grows brk w -> uwp (client rs h live)
    (fun x w' => exists brk, grows brk w' /\ heap_inv start brk x.1 x.2) (fun _ _ => False) w) as H by (by apply (H h w [] start)).
  clear Hf Hm Hinv Hg h w.
  induction Hrs as [|r rs Hr _ IH]; intros h w live brk Hinv Hg; simpl; [ustep; eauto|]. destruct r as [n|i|i off c].
  - ustep. eapply uwp_mono; [by apply (uwp_malloc start brk h live)|]. intros x w' (brk' & Hg' & Hinv'). by eapply IH.
  - destruct (live !! i) as [b|] eqn:Hi; [|by eapply IH].
    destruct Hinv as [(? & -> & _)|(fl & Hok & Ht)]; [done|].
    destruct (free_lookup brk h fl live i b Hok Hi) as (h' & fl' & Hfr & Hok' & Ht'). ustep.
    apply (IH _ _ _ brk); [|done]. right. exists fl'. split; [done|lia].
  - destruct (live !! i) as [b|] eqn:Hi; [|by eapply IH].
    destruct (Z.leb_spec 1 off); [|by eapply IH]. destruct (Z.ltb_spec off b.2); [|by eapply IH]. simpl.
    destruct Hinv as [(? & -> & _)|(fl & Hok & Ht)]; [done|].
    apply (IH _ _ _ brk); [|done]. right. exists fl. split; [|done]. by apply (write_ok brk h fl live i b).
Qed.
End client.

(** A world that only grows the memory of the process, up to [limit]. *)
Definition brk_world (limit : Z) : World := {|
  world := Z;
  sys := fun c b =>
    match c with
    | Usbrk n => if b + n <=? limit then (b, [], b + n) else (-1, [], b)
    | _ => (-1, [], b)
    end
|}.

Lemma brk_world_brk limit : limit <= 2 ^ 32 -> @Brk (brk_world limit) (fun b w => w = b).
Proof.
  intros Hl. split. intros brk n w -> Hn. simpl. destruct (Z.leb_spec (brk + n) limit).
  - exists (brk + n). right. split_and!; [done|lia|done].
  - exists brk. left. done.
Qed.

Lemma allocator_sound_witness :
  let rs := [Rmalloc 100; Rmalloc 5000; Rwrite 0 3 (mkheader 7 8); Rfree 1; Rmalloc 20; Rfree 0; Rfree 0; Rmalloc 200000] in
  @uwp (brk_world 300000) _ (@client (brk_world 300000) 4096 rs (mkheap {[4096 := mkheader 0 0]} 0) [])
    (fun x w' => exists brk, w' = brk /\ heap_inv 4096 20480 brk x.1 x.2) (fun _ _ => False) 20480.
Proof.
  apply (@allocator_sound (brk_world 300000) 4096 (fun b w => w = b) (brk_world_brk 300000 ltac:(lia))).
  - reflexivity.
  - simpl. rewrite lookup_singleton_eq. by eexists.
  - lia.
  - lia.
  - reflexivity.
  - repeat constructor; simpl; lia.
Defined.
