(* ===== verification/Ulib.v ===== *)
(** The library of the user programs: [user/ulib.c] and [user/printf.c].

    Strings are modelled as in the kernel: a pointer is the list of the bytes from there to the end of
    the object.  [memmove] copies inside one object from offset [s] to offset [d], upwards. *)
From S2P Require Import Prelude Types Cstring Printf User.
From stdpp Require Import base numbers list gmap strings.
From Stdlib Require Import ZArith Lia.

Local Open Scope Z_scope.

(** ** [ulib.c] *)

(** [char* strcpy(char *s, const char *t)], to offset [i] of the object [s]. *)
Fixpoint strcpy (s : list Z) (i : nat) (t : list Z) : option (list Z) :=
  match t with
  | [] => None
  | c :: t => s' ← put s i c; if c =? 0 then Some s' else strcpy s' (S i) t
  end.

(** [int strcmp(const char *p, const char *q)] *)
Fixpoint strcmp (p q : list Z) : option Z :=
  match p, q with
  | a :: p', b :: q' => if negb (a =? 0) && (a =? b) then strcmp p' q' else Some (a - b)
  | _, _ => None
  end.

(** [uint strlen(const char *s)] *)
Fixpoint strlen (s : list Z) : option Z :=
  match s with
  | [] => None
  | c :: s => if negb (c =? 0) then n ← strlen s; Some (n + 1) else Some 0
  end.

(** [void* memset(void *dst, int c, uint n)], from offset [i] of the object [l]. *)
Fixpoint memset (l : list Z) (i : nat) (c : Z) (n : nat) : option (list Z) :=
  match n with
  | O => Some l
  | S n => l' ← put l i (u8 c); memset l' (S i) c n
  end.

(** [char* strchr(const char *s, char c)]: the offset of the character found. *)
Fixpoint strchr (s : list Z) (c : Z) : option (option nat) :=
  match s with
  | [] => None
  | a :: s =>
    if a =? 0 then Some None
    else if a =? c then Some (Some 0%nat)
    else r ← strchr s c; Some (option_map S r)
  end.

(** [int atoi(const char *s)], from the value [n] read so far. *)
Fixpoint atoi_from (s : list Z) (n : Z) : option Z :=
  match s with
  | [] => None
  | c :: s => if (48 <=? c) && (c <=? 57) then atoi_from s (i32 (n * 10 + c - 48)) else Some n
  end.
Definition atoi (s : list Z) : option Z := atoi_from s 0.

(** [void* memmove(void *vdst, const void *vsrc, int n)] *)
Definition memmove (m : list Z) (d s : nat) (n : Z) : option (list Z) := copy_forward m d s (Z.to_nat n).

(** The digits [itoa] stores in [tmp], the least significant first; [tmp] has 16 bytes. *)
Fixpoint itoa_digits (fuel : nat) (v radix : Z) (tmp : list Z) : option (list Z) :=
  match fuel with
  | O => None
  | S fuel =>
    if negb (v =? 0) || (length tmp =? 0)%nat then
      let i := v mod radix in
      if (length tmp <? 16)%nat
      then itoa_digits fuel (v / radix) radix (tmp ++ [if i <? 10 then i + 48 else i + 97 - 10])
      else None
    else Some tmp
  end.

(** [int itoa(int value, char *sp, int radix)]: the characters it stores through [sp]; their number is its
    result. *)
Definition itoa (value radix : Z) : option (list Z) :=
  let sign := (radix =? 10) && (value <? 0) in
  let v := if sign then u32 (- value) else u32 value in
  tmp ← itoa_digits 34 v radix [];
  Some ((if sign then [45] else []) ++ reverse tmp).

Section ulib.
Context {WO : World}.

(** [char* gets(char *buf, int max)] *)
Definition gets (buf : list Z) (max : Z) : U (list Z) :=
  x ← uloop (S (Z.to_nat max)) (fun '(buf, i) =>
    if i + 1 <? max then
      x ← call (Uread 0 1);
      if x.1 <? 1 then mret (inr (buf, i))
      else
        c ← access (head x.2);
        buf ← access (put buf (Z.to_nat i) c);
        if (c =? 10) || (c =? 13) then mret (inr (buf, i + 1)) else mret (inl (buf, i + 1))
    else mret (inr (buf, i))) (buf, 0);
  let '(buf, i) := x in
  access (put buf (Z.to_nat i) 0).

(** [int stat(const char *n, struct stat *st)]: the result, and the bytes of [st]. *)
Definition stat (n : list Z) : U (Z * list Z) :=
  fd ← scall (Uopen n O_RDONLY);
  if fd <? 0 then mret (-1, [])
  else
    r ← call (Ufstat fd);
    scall (Uclose fd);;
    mret r.

(** ** [printf.c] *)

Definition putc (fd c : Z) : U unit := scall (Uwrite fd [u8 c]);; mret tt.

Definition udigits : list Z := bytes_of "0123456789ABCDEF".

Fixpoint uprint_loop (fuel : nat) (x base : Z) : option (list Z) :=
  match fuel with
  | O => None
  | S fuel =>
    d ← udigits !! Z.to_nat (x mod base);
    if x / base =? 0 then Some [d] else r ← uprint_loop fuel (x / base) base; Some (d :: r)
  end.

(** [printint(fd, xx, base, sgn)]: [buf] has 16 bytes and is written from its end. *)
Definition uprintint (fd xx base sgn : Z) : U unit :=
  let neg := negb (sgn =? 0) && (xx <? 0) in
  let x := if neg then u32 (- xx) else u32 xx in
  ds ← access (uprint_loop 32 x base);
  let buf := if neg then ds ++ [45] else ds in
  if (length buf <=? 16)%nat then ufor (reverse buf) (putc fd) else ucrash.

Definition uprintptr (fd x : Z) : U unit :=
  putc fd 48;;
  putc fd 120;;
  ufor (seqZ 0 16) (fun i =>
    c ← access (udigits !! Z.to_nat (Z.shiftr (u64 (Z.shiftl x (4 * i))) 60));
    putc fd c).

(** [vprintf(fd, fmt, ap)]; [pct] is [state == '%']. *)
Fixpoint vprintf (fd : Z) (fmt : list Z) (ap : list arg) (pct : bool) : U unit :=
  match fmt with
  | [] => ucrash
  | c :: fmt =>
    if c =? 0 then mret tt
    else if negb pct then
      if c =? 37 then vprintf fd fmt ap true else putc fd c;; vprintf fd fmt ap false
    else if c =? 100 then
      match ap with
      | AInt z :: ap => uprintint fd (i32 z) 10 1;; vprintf fd fmt ap false
      | _ => ucrash
      end
    else if c =? 108 then
      match ap with
      | AInt z :: ap => uprintint fd (i32 z) 10 0;; vprintf fd fmt ap false
      | _ => ucrash
      end
    else if c =? 120 then
      match ap with
      | AInt z :: ap => uprintint fd (i32 z) 16 0;; vprintf fd fmt ap false
      | _ => ucrash
      end
    else if c =? 112 then
      match ap with
      | AInt z :: ap => uprintptr fd (u64 z);; vprintf fd fmt ap false
      | _ => ucrash
      end
    else if c =? 115 then
      match ap with
      | AStr o :: ap =>
        let s := default (lit "(null)") o in
        if decide (0 ∈ s) then ufor (cstr s) (putc fd);; vprintf fd fmt ap false else ucrash
      | _ => ucrash
      end
    else if c =? 99 then
      match ap with
      | AInt z :: ap => putc fd z;; vprintf fd fmt ap false
      | _ => ucrash
      end
    else if c =? 37 then putc fd c;; vprintf fd fmt ap false
    else putc fd 37;; putc fd c;; vprintf fd fmt ap false
  end.

Definition fprintf (fd : Z) (fmt : string) (args : list arg) : U unit := vprintf fd (lit fmt) args false.
Definition uprintf (fmt : string) (args : list arg) : U unit := vprintf 1 (lit fmt) args false.
End ulib.
