(* ===== verification/Grep.v ===== *)
(** [user/grep.c]: the pattern matcher and the filter built on it.

    A pattern denotes a set of lines ([accepts]): an optional anchor, a sequence of characters and
    repetitions, an optional end mark.  [grep] copies to its output exactly the lines of its input that the
    pattern accepts, however the input is cut into reads. *)
From S2P Require Import Prelude Types Cstring Printf User Ulib.
From stdpp Require Import base numbers list gmap strings.
From Stdlib Require Import ZArith Lia.

Local Open Scope Z_scope.

(** ** The matcher *)

(** [int matchstar(int c, char *re, char *text)]; [here] is [matchhere] of [re]. *)
Fixpoint matchstar (here : list Z -> option bool) (c : Z) (text : list Z) : option bool :=
  r ← here text;
  if r : bool then Some true
  else match text with
  | [] => None
  | a :: text => if negb (a =? 0) && ((a =? c) || (c =? 46)) then matchstar here c text else Some false
  end.

(** [int matchhere(char *re, char *text)] *)
Fixpoint matchhere (re text : list Z) : option bool :=
  match re with
  | [] => None
  | c :: re1 =>
    if c =? 0 then Some true
    else match re1 with
    | [] => None
    | d :: re2 =>
      if d =? 42 then matchstar (matchhere re2) c text
      else if (c =? 36) && (d =? 0) then a ← head text; Some (a =? 0)
      else match text with
      | [] => None
      | a :: text => if negb (a =? 0) && ((c =? 46) || (c =? a)) then matchhere re1 text else Some false
      end
    end
  end.

(** The loop of [match], over the places in [text]. *)
Fixpoint match_from (re text : list Z) : option bool :=
  r ← matchhere re text;
  if r : bool then Some true
  else match text with
  | [] => None
  | a :: text => if negb (a =? 0) then match_from re text else Some false
  end.

(** [int match(char *re, char *text)] *)
Definition grep_match (re text : list Z) : option bool :=
  c ← head re;
  if c =? 94 then matchhere (tail re) text else match_from re text.

(** ** The filter *)

Section grep.
Context {WO : World}.

(** The loop over the lines in [buf]: it ends with the buffer and the offset [p] of the rest. *)
Definition grep_lines (pattern buf : list Z) : U (list Z * nat) :=
  uloop 1025 (fun '(buf, p) =>
    o ← access (strchr (drop p buf) 10);
    match o with
    | None => mret (inr (buf, p))
    | Some k =>
      let q := (p + k)%nat in
      buf ← access (put buf q 0);
      r ← access (grep_match pattern (drop p buf));
      if r : bool then
        buf ← access (put buf q 10);
        scall (Uwrite 1 (slice p (q + 1 - p) buf));;
        mret (inl (buf, (q + 1)%nat))
      else mret (inl (buf, (q + 1)%nat))
    end) (buf, 0%nat).

(** [void grep(char *pattern, int fd)]: the static [buf] comes in and goes out. *)
Definition grep (fuel : nat) (pattern : list Z) (fd : Z) (buf : list Z) : U (list Z) :=
  uloop fuel (fun '(buf, m) =>
    x ← call (Uread fd (1024 - m - 1));
    if 0 <? x.1 then
      let buf := splice (Z.to_nat m) x.2 buf in
      let m := m + x.1 in
      buf ← access (put buf (Z.to_nat m) 0);
      y ← grep_lines pattern buf;
      let '(buf, p) := y in
      if 0 <? m then
        let m := m - Z.of_nat p in
        buf ← access (memmove buf 0 p m);
        mret (inl (buf, m))
      else mret (inl (buf, m))
    else mret (inr buf)) (buf, 0).

Definition grep_main (fuel : nat) (argv : list (list Z)) : U unit :=
  let buf := replicate 1024 0 in
  match argv with
  | _ :: pattern :: files =>
    match files with
    | [] => grep fuel pattern 0 buf;; uexit 0
    | _ =>
      uloop (S (length files)) (fun '(files, buf) =>
        match files with
        | [] => mret (inr tt)
        | f :: files =>
          fd ← scall (Uopen f 0);
          if fd <? 0 then uprintf "grep: cannot open %s\n" [AStr (Some f)];; uexit 1
          else
            buf ← grep fuel pattern fd buf;
            scall (Uclose fd);;
            mret (inl (files, buf))
        end) (files, buf);;
      uexit 0
    end
  | _ => fprintf 2 "usage: grep pattern [file ...]\n" [];; uexit 1
  end.
End grep.

(** ** What a pattern means *)

(** One character, or any number of them; the character 46 ([.]) stands for every one. *)
Inductive item := One (c : Z) | Many (c : Z).

Definition fits (c a : Z) : Prop := c = 46 \/ c = a.

Fixpoint lang (its : list item) (t : list Z) : Prop :=
  match its with
  | [] => t = []
  | One c :: its => exists a t', t = a :: t' /\ fits c a /\ lang its t'
  | Many c :: its => exists run t', t = run ++ t' /\ Forall (fits c) run /\ lang its t'
  end.

(** The items of a pattern, and whether it ends in [$]. *)
Fixpoint parse (re : list Z) : list item * bool :=
  match re with
  | [] => ([], false)
  | c :: re1 =>
    match re1 with
    | [] => if c =? 36 then ([], true) else ([One c], false)
    | d :: re2 =>
      if d =? 42 then (Many c :: (parse re2).1, (parse re2).2) else (One c :: (parse re1).1, (parse re1).2)
    end
  end.

(** A text starts with a match of the pattern [re] (the whole text, for a pattern that ends in [$]). *)
Definition starts (re text : list Z) : Prop :=
  exists mid post, text = mid ++ post /\ lang (parse re).1 mid /\ ((parse re).2 = true -> post = []).

Definition accepts (re text : list Z) : Prop :=
  match re with
  | c :: re' => if c =? 94 then starts re' text else exists pre rest, text = pre ++ rest /\ starts re rest
  | [] => True
  end.

(** The output of [grep] for the lines [ls]. *)
Inductive selects (re : list Z) : list (list Z) -> list Z -> Prop :=
  | selects_nil : selects re [] []
  | selects_keep l ls out : accepts re l -> selects re ls out -> selects re (l :: ls) (l ++ 10 :: out)
  | selects_drop l ls out : ~ accepts re l -> selects re ls out -> selects re (l :: ls) out.

(** The lines of a text, and what follows the last newline. *)
Fixpoint lines (t : list Z) : list (list Z) * list Z :=
  match t with
  | [] => ([], [])
  | c :: t =>
    let '(ls, r) := lines t in
    if c =? 10 then ([] :: ls, r)
    else match ls with [] => ([], c :: r) | l :: ls => ((c :: l) :: ls, r) end
  end.

(** ** The matcher decides the meaning *)

Abbreviation text_ok := (Forall (fun c => c <> 0)).

Lemma starts_nil t : starts [] t.
Proof. by exists [], t. Qed.

Lemma starts_end t : starts [36] t <-> t = [].
Proof.
  split.
  - intros (mid & post & -> & Hm & Hp). simpl in *. subst. by rewrite Hp.
  - intros ->. by exists [], [].
Qed.

Lemma starts_one c re t : (re <> [] \/ c <> 36) -> head re <> Some 42 ->
  starts (c :: re) t <-> exists a t', t = a :: t' /\ fits c a /\ starts re t'.
Proof.
  intros Hc Hs. assert (parse (c :: re) = (One c :: (parse re).1, (parse re).2)) as Hp.
  { destruct re as [|d re]; simpl.
    - destruct (Z.eqb_spec c 36); [naive_solver|done].
    - destruct (Z.eqb_spec d 42); [by subst|done]. }
  unfold starts. rewrite Hp. simpl. split.
  - intros (mid & post & -> & (a & t' & -> & Ha & Hl) & Hd). exists a, (t' ++ post). split; [done|].
    split; [done|]. by exists t', post.
  - intros (a & t' & -> & Ha & mid & post & -> & Hl & Hd). exists (a :: mid), post.
    split; [done|]. split; [by exists a, mid|done].
Qed.

Lemma starts_many c re t :
  starts (c :: 42 :: re) t <-> exists run t', t = run ++ t' /\ Forall (fits c) run /\ starts re t'.
Proof.
  unfold starts. simpl. split.
  - intros (mid & post & -> & (run & t' & -> & Hr & Hl) & Hd). exists run, (t' ++ post).
    rewrite app_assoc. split; [done|]. split; [done|]. by exists t', post.
  - intros (run & t' & -> & Hr & mid & post & -> & Hl & Hd). exists (run ++ mid), post.
    rewrite app_assoc. split; [done|]. split; [by exists run, mid|done].
Qed.

Lemma fits_bool c a : (c =? 46) || (c =? a) = true <-> fits c a.
Proof. unfold fits. rewrite orb_true_iff, !Z.eqb_eq. done. Qed.

(** [matchstar] tries every run of characters that fit. *)
Lemma matchstar_spec here P c r : (forall t, text_ok t -> exists b, here (t ++ 0 :: r) = Some b /\ (b = true <-> P t)) ->
  forall t, text_ok t -> exists b, matchstar here c (t ++ 0 :: r) = Some b /\
    (b = true <-> exists run t', t = run ++ t' /\ Forall (fits c) run /\ P t').
Proof.
  intros Hh. induction t as [|a t IH]; intros Ht; destruct (Hh _ Ht) as (b & Hb & HP).
  - simpl in *. rewrite Hb. simpl. exists b. split; [by destruct b|]. rewrite HP. split.
    + intros HP0. by exists [], [].
    + intros (run & t' & E & _ & HP0). symmetry in E. apply app_nil in E as [-> ->]. done.
  - simpl in *. rewrite Hb. simpl. destruct b.
    { exists true. split; [done|]. split; [|done]. intros _. exists [], (a :: t). naive_solver. }
    apply Forall_cons in Ht as [Ha Ht]. destruct (Z.eqb_spec a 0); [done|]. simpl.
    rewrite orb_comm, (Z.eqb_sym a c). destruct ((c =? 46) || (c =? a)) eqn:Ef.
    + apply fits_bool in Ef. destruct (IH Ht) as (b & Hb' & Hiff). exists b.
      split; [done|]. rewrite Hiff. split.
      * intros (run & t' & -> & Hr & HP'). exists (a :: run), t'. split; [done|]. split; [by constructor|done].
      * intros (run & t' & E & Hr & HP'). destruct run as [|a' run]; simplify_eq/=; [naive_solver|].
        inversion Hr; subst. eauto.
    + exists false. split; [done|]. split; [done|]. intros (run & t' & E & Hr & HP').
      destruct run as [|a' run]; simplify_eq/=; [naive_solver|].
      inversion Hr as [|x y Hf]; subst. apply fits_bool in Hf. congruence.
Qed.

Lemma matchhere_spec re r rr : text_ok re -> forall t, text_ok t ->
  exists b, matchhere (re ++ 0 :: rr) (t ++ 0 :: r) = Some b /\ (b = true <-> starts re t).
Proof.
  remember (length re) as n eqn:Hn. revert re Hn.
  induction n as [n IH] using lt_wf_ind. intros [|c re] -> Hre t Ht.
  { exists true. split; [done|]. split; [intros _; apply starts_nil|done]. }
  apply Forall_cons in Hre as [Hc Hre]. destruct (decide (head re = Some 42)) as [Hs|Hs].
  - destruct re as [|d re]; simplify_eq/=. apply Forall_cons in Hre as [_ Hre].
    destruct (Z.eqb_spec c 0); [done|]. setoid_rewrite starts_many. apply (matchstar_spec _ (starts re)); [|done].
    intros t' Ht'. apply (IH (length re)); [simpl; lia|done|done|done].
  - assert (exists d re2, re ++ 0 :: rr = d :: re2 /\ d <> 42 /\ (d = 0 <-> re = [])) as (d & re2 & E & Hd & Hd0).
    { destruct re as [|d re]; [by exists 0, rr|]. exists d, (re ++ 0 :: rr). split; [done|].
      apply Forall_cons in Hre as [? _]. split; [intros ->; done|naive_solver]. }
    simpl. rewrite E. destruct (Z.eqb_spec c 0); [done|]. destruct (Z.eqb_spec d 42); [done|].
    destruct (decide (re = [] /\ c = 36)) as [[-> ->]|Hnd].
    { destruct Hd0 as [_ Hd0]. rewrite (Hd0 eq_refl). setoid_rewrite starts_end. simpl.
      destruct t as [|a t]; simpl; [by exists true|]. exists (a =? 0). split; [done|].
      apply Forall_cons in Ht as [Ha _]. destruct (Z.eqb_spec a 0); [done|]. by split. }
    assert (re <> [] \/ c <> 36) as Hp by (destruct (decide (re = [])); [right; intros ->; by apply Hnd|by left]).
    setoid_rewrite starts_one; [|done..].
    assert ((c =? 36) && (d =? 0) = false) as -> by (apply andb_false_iff; rewrite !Z.eqb_neq; tauto).
    destruct t as [|a t]; cbn [app].
    { exists false. split; [done|]. split; [done|]. by intros (? & ? & ? & _). }
    apply Forall_cons in Ht as [Ha Ht]. destruct (Z.eqb_spec a 0); [done|]. cbn [negb andb].
    destruct ((c =? 46) || (c =? a)) eqn:Ef.
    + rewrite <- E. destruct (IH (length re) (ltac:(simpl; lia)) re eq_refl Hre t Ht) as (b & Hb & Hiff).
      exists b. split; [done|]. apply fits_bool in Ef. rewrite Hiff. split; [by exists a, t|].
      by intros (a' & t' & [= <- <-] & _ & ?).
    + exists false. split; [done|]. split; [done|]. intros (a' & t' & [= <- <-] & Hf & _).
      apply fits_bool in Hf. congruence.
Qed.

Lemma match_from_spec re r rr : text_ok re -> forall t, text_ok t ->
  exists b, match_from (re ++ 0 :: rr) (t ++ 0 :: r) = Some b /\
    (b = true <-> exists pre rest, t = pre ++ rest /\ starts re rest).
Proof.
  intros Hre. induction t as [|a t IH]; intros Ht; destruct (matchhere_spec re r rr Hre _ Ht) as (b & Hb & HP).
  - simpl in *. rewrite Hb. simpl. exists b. split; [by destruct b|]. rewrite HP. split.
    + intros Hs. by exists [], [].
    + intros (pre & rest & E & Hs). symmetry in E. apply app_nil in E as [-> ->]. done.
  - simpl in *. rewrite Hb. simpl. destruct b.
    { exists true. split; [done|]. split; [|done]. intros _. exists [], (a :: t). naive_solver. }
    apply Forall_cons in Ht as [Ha Ht]. destruct (Z.eqb_spec a 0); [done|]. simpl.
    destruct (IH Ht) as (b & Hb' & Hiff). exists b. split; [done|]. rewrite Hiff. split.
    + intros (pre & rest & -> & Hs). by exists (a :: pre), rest.
    + intros (pre & rest & E & Hs). destruct pre as [|a' pre]; simplify_eq/=; [naive_solver|eauto].
Qed.

Lemma grep_match_spec re t r rr : text_ok re -> text_ok t ->
  exists b, grep_match (re ++ 0 :: rr) (t ++ 0 :: r) = Some b /\ (b = true <-> accepts re t).
Proof.
  intros Hre Ht. unfold grep_match, accepts. destruct re as [|c re]; simpl.
  { exists true. split; [|done]. by destruct t. }
  destruct (c =? 94).
  - apply Forall_cons in Hre as [_ Hre]. by apply matchhere_spec.
  - by apply (match_from_spec (c :: re)).
Qed.

(** ** Lines *)

Lemma lines_no_newline t : 10 ∉ t -> lines t = ([], t).
Proof.
  induction t as [|c t IH]; intros Ht; [done|]. apply not_elem_of_cons in Ht as [Hc Ht]. simpl.
  rewrite (IH Ht). destruct (Z.eqb_spec c 10); [by subst|done].
Qed.

Lemma lines_line l t : 10 ∉ l -> lines (l ++ 10 :: t) = (l :: (lines t).1, (lines t).2).
Proof.
  induction l as [|c l IH]; intros Hl; simpl; [by destruct (lines t)|].
  apply not_elem_of_cons in Hl as [Hc Hl]. rewrite (IH Hl). destruct (Z.eqb_spec c 10); [by subst|done].
Qed.

(** A text without newline, or its first line. *)
Lemma line_cases t : 10 ∉ t \/ exists l t', t = l ++ 10 :: t' /\ 10 ∉ l.
Proof.
  induction t as [|c t IH]; [left; apply not_elem_of_nil|].
  destruct (decide (c = 10)) as [->|Hc]; [right; exists [], t; split; [done|apply not_elem_of_nil]|].
  destruct IH as [IH|(l & t' & -> & Hl)].
  - left. by apply not_elem_of_cons.
  - right. exists (c :: l), t'. split; [done|]. by apply not_elem_of_cons.
Qed.

(** Cutting a text anywhere leaves its lines: the rest of the first part starts the second. *)
Lemma lines_app t u : lines (t ++ u) = ((lines t).1 ++ (lines ((lines t).2 ++ u)).1, (lines ((lines t).2 ++ u)).2).
Proof.
  remember (length t) as n eqn:Hn. revert t Hn. induction n as [n IH] using lt_wf_ind. intros t ->.
  destruct (line_cases t) as [Ht|(l & t' & -> & Hl)].
  - rewrite (lines_no_newline t Ht). simpl. by destruct (lines (t ++ u)).
  - rewrite <- app_assoc. simpl. rewrite !lines_line by done. simpl.
    by rewrite (IH (length t') (ltac:(rewrite length_app; simpl; lia)) t' eq_refl).
Qed.

Lemma lines_rest t : (10 ∉ (lines t).2) /\ exists pre, t = pre ++ (lines t).2.
Proof.
  remember (length t) as n eqn:Hn. revert t Hn. induction n as [n IH] using lt_wf_ind. intros t ->.
  destruct (line_cases t) as [Ht|(l & t' & -> & Hl)].
  - rewrite (lines_no_newline t Ht). simpl. split; [done|by exists []].
  - rewrite lines_line by done. simpl.
    destruct (IH (length t') (ltac:(rewrite length_app; simpl; lia)) t' eq_refl) as [H1 [pre H2]].
    split; [done|]. exists (l ++ 10 :: pre). rewrite <- app_assoc. simpl. by rewrite <- H2.
Qed.

Lemma selects_app re ls ls' out out' :
  selects re ls out -> selects re ls' out' -> selects re (ls ++ ls') (out ++ out').
Proof.
  intros H H'. induction H as [|l ls out Ha H IH|l ls out Ha H IH]; [done| |by constructor].
  simpl. rewrite <- app_assoc. simpl. by constructor.
Qed.

Lemma strchr_newline l r : text_ok l -> 10 ∉ l -> strchr (l ++ 10 :: r) 10 = Some (Some (length l)).
Proof.
  induction l as [|a l IH]; intros Hl Hn; [done|]. apply Forall_cons in Hl as [Ha Hl].
  apply not_elem_of_cons in Hn as [Hn Hn']. simpl. destruct (Z.eqb_spec a 0); [done|].
  destruct (Z.eqb_spec a 10); [by subst|]. by rewrite IH.
Qed.

Lemma strchr_none l r : text_ok l -> 10 ∉ l -> strchr (l ++ 0 :: r) 10 = Some None.
Proof.
  induction l as [|a l IH]; intros Hl Hn; [done|]. apply Forall_cons in Hl as [Ha Hl].
  apply not_elem_of_cons in Hn as [Hn Hn']. simpl. destruct (Z.eqb_spec a 0); [done|].
  destruct (Z.eqb_spec a 10); [by subst|]. by rewrite IH.
Qed.

Lemma put_middle (front back : list Z) x v n : length front = n -> put (front ++ x :: back) n v = Some (front ++ v :: back).
Proof.
  intros <-. rewrite put_Some by (rewrite length_app; simpl; lia).
  rewrite insert_app_r_alt, Nat.sub_diag by lia. done.
Qed.

Section filter.
Context {WO : World} (fd : Z) (feeds : list Z -> list Z -> world -> Prop) `{!Stream fd feeds}.
Context (re rr : list Z) (Hre : text_ok re).

(** The state of the loop over the lines of [text]: the rest to scan and what has been printed. *)
Definition scanning (data out text junk : list Z) (v : list Z * nat) (w : world) : Prop :=
  exists front rest ls new, v.1 = front ++ rest ++ 0 :: junk /\ v.2 = length front /\ text_ok rest /\
    (length front + length rest = length text)%nat /\
    lines text = (ls ++ (lines rest).1, (lines rest).2) /\ selects re ls new /\ feeds data (out ++ new) w.

Lemma scan_line data out text junk front l rest ls new E w :
  text_ok l -> 10 ∉ l -> text_ok rest -> (length front + length (l ++ 10%Z :: rest) = length text)%nat ->
  lines text = (ls ++ (lines (l ++ 10 :: rest)).1, (lines (l ++ 10 :: rest)).2) ->
  selects re ls new -> feeds data (out ++ new) w ->
  uwp (buf ← access (put (front ++ l ++ 10 :: rest ++ 0 :: junk) (length front + length l) 0);
       r ← access (grep_match (re ++ 0 :: rr) (drop (length front) buf));
       if r : bool then
         buf ← access (put buf (length front + length l) 10);
         scall (Uwrite 1 (slice (length front) (length front + length l + 1 - length front) buf));;
         mret (inl (buf, (length front + length l + 1)%nat))
       else mret (inl (buf, (length front + length l + 1)%nat)))
    (fun (r : list Z * nat + list Z * nat) w' => match r with
                 | inl v => scanning data out text junk v w' /\ v.2 = (length front + length l + 1)%nat
                 | inr _ => False end) E w.
Proof.
  intros Hl Hn Hr Hlen Hls Hsel Hf. rewrite lines_line in Hls by done. rewrite length_app in Hlen. simpl in *.
  apply uwp_bind. rewrite app_assoc. eapply uwp_access; [apply put_middle; by rewrite length_app|].
  rewrite <- app_assoc, drop_app_length. destruct (grep_match_spec re l (rest ++ 0 :: junk) rr Hre Hl) as (b & Hb & Hacc).
  ustep. destruct b.
  - ustep. rewrite app_assoc. eapply uwp_access; [apply put_middle; by rewrite length_app|].
    destruct (st_write data (out ++ new) (l ++ [10]) w Hf) as (w' & Hw & Hf').
    replace (slice _ _ _) with (l ++ [10]).
    2:{ rewrite <- app_assoc. unfold slice. rewrite drop_app_length. replace (_ + _ + _ - _)%nat with (length (l ++ [10])) by (rewrite length_app; simpl; lia).
        change (10 :: rest ++ 0 :: junk) with ([10] ++ rest ++ 0 :: junk). by rewrite (app_assoc l), take_app_length. }
    unfold scall. ustep. split; [|done]. exists (front ++ l ++ [10]), rest, (ls ++ [l]), (new ++ l ++ [10]).
    rewrite <- !app_assoc. simpl. split_and!; [done|rewrite !length_app; simpl; lia|done|rewrite !length_app; simpl; lia|done| |].
    + apply selects_app; [done|]. constructor; [by apply Hacc|constructor].
    + by rewrite <- !app_assoc in Hf'.
  - ustep. split; [|done]. exists (front ++ l ++ [0]), rest, (ls ++ [l]), new.
    rewrite <- !app_assoc. simpl. split_and!; [done|rewrite !length_app; simpl; lia|done|rewrite !length_app; simpl; lia|done| |done].
    rewrite <- (app_nil_r new). apply selects_app; [done|]. apply selects_drop; [|constructor].
    intros Ha. apply Hacc in Ha. done.
Qed.

Lemma uwp_grep_lines data out text junk E w :
  text_ok text -> (length text < 1024)%nat -> feeds data out w ->
  uwp (grep_lines (re ++ 0 :: rr) (text ++ 0 :: junk))
    (fun v w' => exists front new, v = (front ++ (lines text).2 ++ 0 :: junk, length front) /\
       (length front + length (lines text).2 = length text)%nat /\
       selects re (lines text).1 new /\ feeds data (out ++ new) w') E w.
Proof.
  intros Ht Hlen Hf. apply (uwp_uloop (scanning data out text junk) (fun v => (length text - v.2)%nat)).
  - exists [], text, [], []. rewrite app_nil_r. split_and!; try done; [by destruct (lines text)|constructor].
  - simpl. lia.
  - intros [buf p] w1 (front & rest & ls & new & Hb & Hp & Hr & Hl & Hls & Hsel & Hf1). simpl in Hb, Hp. subst buf p.
    rewrite drop_app_length. destruct (line_cases rest) as [Hn|(l & rest' & -> & Hn)].
    + ustep. eapply uwp_access; [by apply strchr_none|]. ustep. rewrite (lines_no_newline rest Hn), app_nil_r in Hls. simpl in Hls.
      exists front, new. by rewrite Hls.
    + apply Forall_app in Hr as [Hl1 Hr]. apply Forall_cons in Hr as [_ Hr].
      ustep. rewrite <- app_assoc. simpl. eapply uwp_access; [by apply strchr_newline|].
      eapply uwp_mono; [by eapply (scan_line data out text junk front l rest')|].
      intros [v|v] w2; [|done]. intros [Hs Hv]. split; [done|]. rewrite length_app in Hl. simpl in Hl. lia.
Qed.
End filter.

(** Every line of [t], and what follows the last one, fits into [buf]. *)
Definition short (t : list Z) : Prop :=
  Forall (fun l => (length l <= 1022)%nat) (lines t).1 /\ (length (lines t).2 <= 1022)%nat.

Lemma short_pending p t : 10 ∉ p -> short (p ++ t) -> (length p <= 1022)%nat.
Proof.
  intros Hp [Hl Hr]. destruct (line_cases t) as [Ht|(l & t' & -> & Hn)].
  - rewrite lines_no_newline in Hr by (rewrite elem_of_app; tauto). simpl in Hr. rewrite length_app in Hr. lia.
  - rewrite app_assoc, lines_line in Hl by (rewrite elem_of_app; tauto). inversion Hl. rewrite length_app in *. lia.
Qed.

Lemma short_app t u : short (t ++ u) -> short ((lines t).2 ++ u).
Proof. unfold short. rewrite (lines_app t u). simpl. rewrite Forall_app. tauto. Qed.

(** What the buffer holds after a read of [chunk] and the terminating NUL. *)
Lemma read_into pending chunk junk : (length pending + length junk = 1024)%nat ->
  (length pending + length chunk < 1024)%nat -> exists junk',
    put (splice (length pending) chunk (pending ++ junk)) (length pending + length chunk) 0 =
      Some ((pending ++ chunk) ++ 0 :: junk') /\ (length (pending ++ chunk) + S (length junk') = 1024)%nat.
Proof.
  intros Hl Hc. unfold splice. rewrite take_app_length, drop_app_ge, app_assoc by lia.
  replace (_ + _ - _)%nat with (length chunk) by lia.
  destruct (drop (length chunk) junk) as [|x junk'] eqn:E.
  { apply (f_equal length) in E. rewrite length_drop in E. simpl in E. lia. }
  exists junk'. split; [apply put_middle; by rewrite length_app|].
  apply (f_equal length) in E. rewrite length_drop in E. simpl in E. rewrite length_app. lia.
Qed.

(** Moving the rest to the start of the buffer. *)
Lemma move_rest front rest junk : exists junk',
  memmove (front ++ rest ++ junk) 0 (length front) (Z.of_nat (length rest)) = Some (rest ++ junk') /\
  length (rest ++ junk') = length (front ++ rest ++ junk).
Proof.
  unfold memmove. rewrite Nat2Z.id.
  rewrite copy_forward_spec by (rewrite ?length_app; lia). unfold slice. rewrite drop_app_length, take_app_length.
  exists (drop (length rest) (front ++ rest ++ junk)). unfold splice. simpl. split; [done|].
  rewrite !length_app, length_drop, !length_app. lia.
Qed.

Section main.
Context {WO : World} (fd : Z) (feeds : list Z -> list Z -> world -> Prop) `{!Stream fd feeds}.
Context (re rr : list Z) (Hre : text_ok re).

Lemma uwp_grep_from n : forall fuel pending junk data out E w,
  (length data <= n)%nat -> (n < fuel)%nat -> text_ok (pending ++ data) -> short (pending ++ data) -> 10 ∉ pending ->
  (length pending + length junk = 1024)%nat -> feeds data out w ->
  uwp (uloop fuel (fun '(buf, m) =>
    x ← call (Uread fd (1024 - m - 1));
    if 0 <? x.1 then
      let buf := splice (Z.to_nat m) x.2 buf in
      let m := m + x.1 in
      buf ← access (put buf (Z.to_nat m) 0);
      y ← grep_lines (re ++ 0 :: rr) buf;
      let '(buf, p) := y in
      if 0 <? m then
        let m := m - Z.of_nat p in
        buf ← access (memmove buf 0 p m);
        mret (inl (buf, m))
      else mret (inl (buf, m))
    else mret (inr buf)) (pending ++ junk, Z.of_nat (length pending)))
    (fun buf w' => length buf = 1024%nat /\
       exists new, selects re (lines (pending ++ data)).1 new /\ feeds [] (out ++ new) w') E w.
Proof.
  induction n as [n IH] using lt_wf_ind. intros [|fuel] pending junk data out E w Hn Hfuel Htxt Hsh Hp Hlen Hf; [lia|].
  pose proof (short_pending pending data Hp Hsh) as Hm. simpl.
  destruct (st_read data out (1024 - Z.of_nat (length pending) - 1) w Hf) as (k & w1 & Hs & Hk & Hkd & Hk0 & Hf1); [lia|].
  apply uwp_bind. ustep. destruct (Z.ltb_spec 0 (Z.of_nat k)).
  - rewrite Nat2Z.id, <- Nat2Z.inj_add, Nat2Z.id.
    assert (length (take k data) = k) as Hck by (rewrite length_take; lia).
    destruct (read_into pending (take k data) junk) as (junk1 & Hput & Hl1); [done|lia|].
    rewrite Hck in Hput. ustep.
    assert (text_ok (pending ++ take k data)) as Ht1.
    { rewrite Forall_app in Htxt |- *. destruct Htxt. split; [done|by apply Forall_take]. }
    eapply uwp_mono; [eapply (uwp_grep_lines fd feeds re rr Hre (drop k data) out); [done| |exact Hf1]|].
    { rewrite length_app in Hl1 |- *. lia. }
    intros v w2 (front & new & -> & Hfl & Hsel & Hf2). rewrite length_app, Hck in Hfl.
    assert (pending ++ data = (pending ++ take k data) ++ drop k data) as Hd by (by rewrite <- app_assoc, take_drop).
    rewrite Hd in Hsh |- *. apply short_app in Hsh. destruct (lines_rest (pending ++ take k data)) as [Hr1 [pre Hpre]].
    set (rest := (lines (pending ++ take k data)).2) in *. destruct (Z.ltb_spec 0 (Z.of_nat (length pending + k))); [|lia].
    replace (Z.of_nat (length pending + k) - Z.of_nat (length front)) with (Z.of_nat (length rest)) by lia.
    destruct (move_rest front rest (0 :: junk1)) as (junk2 & Hmv & Hl2). ustep.
    eapply uwp_mono; [apply (IH (length (drop k data)) (ltac:(rewrite length_drop; lia))); try done|].
    + rewrite length_drop. lia.
    + rewrite Hd, Forall_app in Htxt. destruct Htxt as [Ha Hb]. rewrite Forall_app. split; [|done].
      rewrite Hpre in Ha. by apply Forall_app in Ha as [_ Ha].
    + rewrite <- length_app, Hl2. rewrite !length_app in Hl1. rewrite !length_app. simpl. lia.
    + intros buf w3 [Hb (new' & Hsel' & Hf3)]. split; [done|]. exists (new ++ new'). rewrite app_assoc. split; [|done].
      rewrite (lines_app (pending ++ take k data)). by apply selects_app.
  - ustep. rewrite length_app. split; [done|]. exists []. rewrite app_nil_r. rewrite Hk0 in * by lia.
    rewrite app_nil_r, lines_no_newline by done. split; [constructor|]. by rewrite drop_nil in Hf1.
Qed.

(** C21. [grep] reads its input to the end and writes exactly the lines the pattern accepts, in their order and
    each with its newline, however the input arrives; the text after the last newline is not looked at.  The
    pattern and the input hold no NUL, and the lines fit into the buffer of 1024 bytes. *)
Theorem grep_filters fuel buf data out w :
  (length data < fuel)%nat -> text_ok data -> short data -> length buf = 1024%nat -> feeds data out w ->
  uwp (grep fuel (re ++ 0 :: rr) fd buf)
    (fun buf' w' => length buf' = 1024%nat /\
       exists new, selects re (lines data).1 new /\ feeds [] (out ++ new) w') (fun _ _ => False) w.
Proof.
  intros Hfuel Ht Hs Hb Hf. apply (uwp_grep_from (length data) fuel [] buf data out); try done.
  apply not_elem_of_nil.
Qed.
End main.

(** A pattern and a text of five lines, read seven bytes at a time. *)
Definition grep_text : list Z := bytes_of "one\ntwo fish\nred fishes\n\nblue fish\nfis".

Lemma grep_filters_witness :
  @uwp (tape 7) _ (@grep (tape 7) 50 (lit "^.*fish$") 0 (replicate 1024 0))
    (fun buf' w' => length buf' = 1024%nat /\
       exists new, selects (bytes_of "^.*fish$") (lines grep_text).1 new /\ on_tape [] ([] ++ new) w')
    (fun _ _ => False) (grep_text, []).
Proof.
  apply (@grep_filters (tape 7) 0 on_tape (tape_stream 7 0 ltac:(lia)) (bytes_of "^.*fish$") []).
  - vm_compute. repeat constructor; discriminate.
  - vm_compute. lia.
  - vm_compute. repeat constructor; discriminate.
  - split; vm_compute; [repeat constructor|]; lia.
  - by rewrite length_replicate.
  - done.
Defined.
