(* ===== verification/Tools.v ===== *)
(** The small user programs: [cat], [wc], [echo], [kill], [ln], [mkdir], [rm], [ls], [ps], [free], [df], [hello],
    [counter], [numprocs], [strace], [suspend], [resume] and [init], each [user/<name>.c].

    [argv] is the list of the arguments, each up to the end of its object; reading an argument that is not there ends
    the run.  A program that loops for ever has a budget of turns.  [cat_copies] and [wc_counts] are about what the
    two filters do to their input. *)
From S2P Require Import Prelude Types Cstring Printf User Ulib.
From stdpp Require Import base numbers list gmap strings.
From Stdlib Require Import ZArith Lia.

Local Open Scope Z_scope.

Section tools.
Context {WO : World}.

(** ** Filters *)

(** [void cat(int fd)]: the static [buf] comes in and goes out. *)
Definition cat (fuel : nat) (fd : Z) (buf : list Z) : U (list Z) :=
  x ← uloop fuel (fun buf =>
    x ← call (Uread fd 512);
    let n := x.1 in
    if 0 <? n then
      let buf := splice 0 x.2 buf in
      r ← scall (Uwrite 1 (take (Z.to_nat n) buf));
      if negb (r =? n) then uprintf "cat: write error\n" [];; uexit 1 else mret (inl buf)
    else mret (inr (n, buf))) buf;
  if x.1 <? 0 then uprintf "cat: read error\n" [];; uexit 1 else mret x.2.

(** [open], [body], [close] for each file in turn. *)
Definition each_file (name : string) (files : list (list Z)) (buf : list Z) (body : Z -> list Z -> list Z -> U (list Z)) : U unit :=
  uloop (S (length files)) (fun '(files, buf) =>
    match files with
    | [] => mret (inr tt)
    | f :: files =>
      fd ← scall (Uopen f 0);
      if fd <? 0 then vprintf 1 (bytes_of name ++ lit ": cannot open %s\n") [AStr (Some f)] false;; uexit 1
      else buf ← body fd f buf; scall (Uclose fd);; mret (inl (files, buf))
    end) (files, buf).

Definition cat_main (fuel : nat) (argv : list (list Z)) : U unit :=
  let buf := replicate 512 0 in
  if (length argv <=? 1)%nat then cat fuel 0 buf;; uexit 1
  else each_file "cat" (drop 1 argv) buf (fun fd _ buf => cat fuel fd buf);; uexit 0.

(** [l], [w], [c] and [inword] of [wc]. *)
Record counts := mkcounts { n_lines : Z; n_words : Z; n_chars : Z; inword : bool }.

(** [" \r\t\n\v"] *)
Definition wc_blanks : list Z := [32; 13; 9; 10; 11; 0].
Definition wc_char (k : counts) (ch : Z) : U counts :=
  let c := i32 (n_chars k + 1) in
  let l := if ch =? 10 then i32 (n_lines k + 1) else n_lines k in
  b ← access (strchr wc_blanks ch);
  mret (match b with
        | Some _ => mkcounts l (n_words k) c false
        | None => if inword k then mkcounts l (n_words k) c true else mkcounts l (i32 (n_words k + 1)) c true
        end).
Fixpoint wc_chars (k : counts) (chars : list Z) : U counts :=
  match chars with [] => mret k | ch :: chars => k ← wc_char k ch; wc_chars k chars end.

(** [void wc(int fd, char *name)]; [char] is unsigned. *)
Definition wc (fuel : nat) (fd : Z) (name buf : list Z) : U (list Z) :=
  x ← uloop fuel (fun '(k, buf) =>
    x ← call (Uread fd 512);
    let n := x.1 in
    if 0 <? n then
      let buf := splice 0 x.2 buf in
      k ← wc_chars k (take (Z.to_nat n) buf);
      mret (inl (k, buf))
    else mret (inr (n, k, buf))) (mkcounts 0 0 0 false, buf);
  let '(n, k, buf) := x in
  if n <? 0 then uprintf "wc: read error\n" [];; uexit 1
  else uprintf "%d %d %d %s\n" [AInt (n_lines k); AInt (n_words k); AInt (n_chars k); AStr (Some name)];; mret buf.

Definition wc_main (fuel : nat) (argv : list (list Z)) : U unit :=
  let buf := replicate 512 0 in
  if (length argv <=? 1)%nat then wc fuel 0 (lit "") buf;; uexit 0
  else each_file "wc" (drop 1 argv) buf (wc fuel);; uexit 0.

(** ** Calls passed on *)

Fixpoint echo_from (args : list (list Z)) : U unit :=
  match args with
  | [] => mret tt
  | a :: rest =>
    n ← access (strlen a);
    scall (Uwrite 1 (take (Z.to_nat n) a));;
    scall (Uwrite 1 (if bool_decide (rest = []) then [10] else [32]));;
    echo_from rest
  end.
Definition echo_main (argv : list (list Z)) : U unit := echo_from (drop 1 argv);; uexit 0.

Definition kill_main (argv : list (list Z)) : U unit :=
  if (length argv <? 2)%nat then fprintf 2 "usage: kill pid...\n" [];; uexit 1
  else ufor (drop 1 argv) (fun a => n ← access (atoi a); scall (Ukill n);; mret tt);; uexit 0.

Definition ln_main (argv : list (list Z)) : U unit :=
  match argv with
  | [_; old; new] =>
    r ← scall (Ulink old new);
    (if r <? 0 then fprintf 2 "link %s %s: failed\n" [AStr (Some old); AStr (Some new)] else mret tt);;
    uexit 0
  | _ => fprintf 2 "Usage: ln old new\n" [];; uexit 1
  end.

(** The loop of [mkdir] and [rm], which breaks at the first failure. *)
Fixpoint until_failure (args : list (list Z)) (c : list Z -> ucall) (complain : list Z -> U unit) : U unit :=
  match args with
  | [] => mret tt
  | a :: args => r ← scall (c a); if r <? 0 then complain a else until_failure args c complain
  end.

Definition mkdir_main (argv : list (list Z)) : U unit :=
  if (length argv <? 2)%nat then fprintf 2 "Usage: mkdir files...\n" [];; uexit 1
  else until_failure (drop 1 argv) Umkdir (fun a => fprintf 2 "mkdir: %s failed to create\n" [AStr (Some a)]);; uexit 0.

Definition rm_main (argv : list (list Z)) : U unit :=
  if (length argv <? 2)%nat then fprintf 2 "Usage: rm files...\n" [];; uexit 1
  else until_failure (drop 1 argv) Uunlink (fun a => fprintf 2 "rm: %s failed to delete\n" [AStr (Some a)]);; uexit 0.

Definition free_main : U unit := r ← scall Ucfree; (if r <? 0 then uprintf "execute cfree failed\n" [] else mret tt);; uexit 0.
Definition df_main : U unit := r ← scall Udf; (if r <? 0 then uprintf "df failed\n" [] else mret tt);; uexit 0.
Definition hello_main : U unit := uprintf "Hello xv6!\n" [];; uexit 0.
Definition numprocs_main : U unit := r ← scall Unumprocs; uprintf "numprocs = %d\n" [AInt r];; uexit 0.

Definition counter_main (fuel : nat) (argv : list (list Z)) : U unit :=
  let label := if (length argv =? 2)%nat then argv !! 1%nat else None in
  uloop fuel (fun i =>
    match label with
    | Some l => uprintf "[%s] i = %d\n" [AStr (Some l); AInt i]
    | None => uprintf "i = %d\n" [AInt i]
    end;;
    scall (Usleep 30);;
    mret (inl (i32 (i + 1)))) 0.

Definition strace_main (argv : list (list Z)) : U unit :=
  if (length argv <? 2)%nat then fprintf 1 "invalid number of arguments\n" [];; uexit 0
  else
    id ← scall Ufork;
    if id =? 0 then
      scall Utraceon;;
      a ← access (argv !! 1%nat);
      scall (Uexec a argv);;
      uexit 0
    else scall Uwait;; uexit 0.

Definition resume_main (argv : list (list Z)) : U unit :=
  if negb (length argv =? 2)%nat then uprintf "invalid number of arguments\n" [];; uexit 0
  else
    pid ← scall Ufork;
    (if pid =? 0 then a ← access (argv !! 1%nat); scall (Uresume a);; mret tt else mret tt);;
    (if pid <? 0 then uprintf "fork failed for resume\n" [] else mret tt);;
    uexit 0.

Definition suspend_main (argv : list (list Z)) : U unit :=
  match argv with
  | [_; a; file] =>
    pid ← access (atoi a);
    fd ← scall (Uopen file (Z.lor O_CREATE O_WRONLY));
    scall (Ususpend pid fd);;
    scall (Uclose fd);;
    scall (Ukill pid);;
    uexit 0
  | _ => uprintf "invalid number of arguments\n" [];; uexit 0
  end.

(** ** [ps.c] *)

(** [struct pdata] and [struct pinfo] in the bytes the kernel delivers. *)
Record pdata := mkpdata { pd_pid : Z; pd_local_pid : Z; pd_mem : Z; pd_name : list Z; pd_contname : list Z }.
Definition pdata_at (pf : list Z) (i : nat) : pdata :=
  mkpdata (i32 (load 4 (44 * i) pf)) (i32 (load 4 (44 * i + 4) pf)) (i32 (load 4 (44 * i + 8) pf))
    (drop (44 * i + 12) pf) (drop (44 * i + 28) pf).
Definition numproc (pf : list Z) : Z := i32 (load 4 2816 pf).

Definition ps_main : U unit :=
  x ← call Upsinfo;
  let '(rv, pf) := x in
  (if rv =? 6 then
     uprintf "PID\tPID(local)\tMEM\tNAME\tCONT_NAME\n" [];;
     ufor (seq 0 (Z.to_nat (numproc pf))) (fun i =>
       uprintf "%d\t%d\t\t%d\t%s\t%s\n" [AInt (pd_pid (pdata_at pf i)); AInt (pd_local_pid (pdata_at pf i)); AInt (pd_mem (pdata_at pf i)); AStr (Some (pd_name (pdata_at pf i))); AStr (Some (pd_contname (pdata_at pf i)))])
   else if rv =? 0 then
     uprintf "PID\tMEM\tNAME\n" [];;
     ufor (seq 0 (Z.to_nat (numproc pf))) (fun i =>
       uprintf "%d\t%d\t%s\n" [AInt (pd_local_pid (pdata_at pf i)); AInt (pd_mem (pdata_at pf i)); AStr (Some (pd_name (pdata_at pf i)))])
   else uprintf "failed to get proc info\n" []);;
  uexit 0.

(** ** [ls.c] *)

(** One past the last slash at or before offset [k], or the start. *)
Fixpoint after_slash (path : list Z) (k : nat) : nat :=
  if bool_decide (path !! k = Some 47) then S k else match k with O => O | S k => after_slash path k end.

(** [char* fmtname(char *path)] *)
Definition fmtname (path : list Z) : option (list Z) :=
  n ← strlen path;
  let p := drop (after_slash path (Z.to_nat n)) path in
  k ← strlen p;
  if DIRSIZ <=? k then Some p
  else Some (take (Z.to_nat k) p ++ replicate (Z.to_nat (DIRSIZ - k)) 32 ++ [0]).

(** [struct stat] in the bytes the kernel delivers. *)
Record ustat := mkustat { st_ino : Z; st_type : Z; st_size : Z }.
Definition stat_of (st : list Z) : ustat := mkustat (load 4 4 st) (i16 (load 2 8 st)) (load 8 16 st).

(** Bytes stored into an array from offset [i] on. *)
Definition blit (buf : list Z) (i : nat) (bytes : list Z) : option (list Z) :=
  if (i + length bytes <=? length buf)%nat then Some (splice i bytes buf) else None.

(** The path of a directory entry: [memmove(p, de.name, DIRSIZ); p[DIRSIZ] = 0], with [p] at offset [p]. *)
Definition entry_path (buf : list Z) (p : nat) (de : list Z) : option (list Z) :=
  buf ← blit buf p (slice 2 14 de); put buf (p + 14) 0.

(** [strcpy(buf, path); p = buf+strlen(buf); *p++ = '/'] *)
Definition dir_path (buf path : list Z) : option (list Z * nat) :=
  buf ← strcpy buf 0 path;
  n ← strlen buf;
  buf ← put buf (Z.to_nat n) 47;
  Some (buf, S (Z.to_nat n)).

(** [void ls(char *path)]; [junk] is what the array [buf] holds at first. *)
Definition ls (fuel : nat) (junk path : list Z) : U unit :=
  fd ← scall (Uopen path 0);
  if fd <? 0 then fprintf 2 "ls: cannot open %s\n" [AStr (Some path)]
  else
    x ← call (Ufstat fd);
    let '(r, st) := x in
    if r <? 0 then fprintf 2 "ls: cannot stat %s\n" [AStr (Some path)];; scall (Uclose fd);; mret tt
    else
      (if st_type (stat_of st) =? T_FILE then
         name ← access (fmtname path);
         uprintf "%s %d %d %l\n" [AStr (Some name); AInt (st_type (stat_of st)); AInt (st_ino (stat_of st)); AInt (st_size (stat_of st))]
       else if st_type (stat_of st) =? T_DIR then
         n ← access (strlen path);
         if 512 <? n + 1 + DIRSIZ + 1 then uprintf "ls: path too long\n" []
         else
           b ← access (dir_path junk path);
           let '(buf, p) := b in
           uloop fuel (fun buf =>
             x ← call (Uread fd 16);
             if negb (x.1 =? 16) then mret (inr tt)
             else if load 2 0 x.2 =? 0 then mret (inl buf)
             else
               buf ← access (entry_path buf p x.2);
               y ← stat buf;
               let '(r, st) := y in
               if r <? 0 then uprintf "ls: cannot stat %s\n" [AStr (Some buf)];; mret (inl buf)
               else
                 name ← access (fmtname buf);
                 uprintf "%s %d %d %d\n" [AStr (Some name); AInt (st_type (stat_of st)); AInt (st_ino (stat_of st)); AInt (st_size (stat_of st))];;
                 mret (inl buf)) buf
       else mret tt);;
      scall (Uclose fd);;
      mret tt.

Definition ls_main (fuel : nat) (junk : list Z) (argv : list (list Z)) : U unit :=
  if (length argv <? 2)%nat then ls fuel junk (lit ".");; uexit 0
  else ufor (drop 1 argv) (ls fuel junk);; uexit 0.

(** ** [init.c] *)

Definition create_vcs : U unit :=
  ufor (seqZ 0 10) (fun i =>
    let dname := bytes_of "vc" ++ [48 + i; 0] in
    fd ← scall (Uopen dname O_RDWR);
    (if fd <? 0 then scall (Umknod dname i 0) else scall (Uclose fd));;
    mret tt).

(** One shell: it ends when the shell has been waited for, or when there is nothing to wait for. *)
Definition run_shell (fuel : nat) : U unit :=
  uprintf "init: starting sh\n" [];;
  pid ← scall Ufork;
  if pid <? 0 then uprintf "init: fork failed\n" [];; uexit 1
  else if pid =? 0 then scall (Uexec (lit "sh") [lit "sh"]);; uprintf "init: exec sh failed\n" [];; uexit 1
  else uloop fuel (fun _ => wpid ← scall Uwait; mret (if (0 <=? wpid) && negb (wpid =? pid) then inl tt else inr tt)) tt.

Definition init_main (fuel : nat) : U unit :=
  fd ← scall (Uopen (lit "console") O_RDWR);
  (if fd <? 0 then scall (Umknod (lit "console") 1 1);; scall (Uopen (lit "console") O_RDWR);; mret tt else mret tt);;
  scall (Udup 0);;
  scall (Udup 0);;
  create_vcs;;
  uloop fuel (fun _ => run_shell fuel;; mret (inl tt)) tt.
End tools.

(** ** What the filters do *)

(** The pieces between blanks; the words of a text are those that are not empty. *)
Definition blank (c : Z) : bool := bool_decide (c ∈ [32; 13; 9; 10; 11]).
Fixpoint fields (s : list Z) : list (list Z) :=
  match s with
  | [] => [[]]
  | c :: s =>
    if blank c then [] :: fields s else match fields s with f :: fs => (c :: f) :: fs | [] => [[c]] end
  end.
Definition words_in (fs : list (list Z)) : Z := Z.of_nat (length (filter (fun f => f <> []) fs)).
Definition lines_in (s : list Z) : Z := Z.of_nat (length (filter (fun c => c = 10) s)).

Definition count_char (k : counts) (ch : Z) : counts :=
  mkcounts (if ch =? 10 then i32 (n_lines k + 1) else n_lines k)
    (if negb (blank ch) && negb (inword k) then i32 (n_words k + 1) else n_words k)
    (i32 (n_chars k + 1)) (negb (blank ch)).

Lemma strchr_blanks ch : exists o, strchr wc_blanks ch = Some o /\ (blank ch = true <-> o <> None).
Proof.
  assert (blank ch = true <-> ch = 32 \/ ch = 13 \/ ch = 9 \/ ch = 10 \/ ch = 11) as Hb.
  { unfold blank. rewrite bool_decide_eq_true, !elem_of_cons, elem_of_nil. naive_solver. }
  unfold wc_blanks. simpl.
  repeat (case_Z; simpl; [eexists; split; [done|]; split; [done|intros _; apply Hb; lia]|]).
  eexists. split; [done|]. split; [rewrite Hb; lia|done].
Qed.

Lemma fields_cons s : exists f fs, fields s = f :: fs.
Proof. induction s as [|c s (f & fs & IH)]; simpl; [by eexists _, _|]. rewrite IH. destruct (blank c); by eexists _, _. Qed.

(** Inside a word the first piece has been counted. *)
Lemma count_chars s : forall k,
  0 <= n_lines k -> 0 <= n_words k -> 0 <= n_chars k ->
  n_lines k + Z.of_nat (length s) < 2 ^ 31 -> n_words k + Z.of_nat (length s) < 2 ^ 31 ->
  n_chars k + Z.of_nat (length s) < 2 ^ 31 ->
  let k' := foldl count_char k s in
  n_lines k' = n_lines k + lines_in s /\ n_chars k' = n_chars k + Z.of_nat (length s) /\
  n_words k' = n_words k + words_in (if inword k then tail (fields s) else fields s).
Proof.
  induction s as [|c s IH]; intros k Hl Hw Hc Hl' Hw' Hc' k'; subst k'.
  { unfold lines_in, words_in. simpl. destruct (inword k); simpl; lia. }
  destruct (fields_cons s) as (f & fs & Hfs). cbn [length] in Hl', Hw', Hc'. cbn [foldl].
  destruct (IH (count_char k c)) as (-> & -> & ->); clear IH; unfold count_char; cbn [n_lines n_words n_chars inword].
  1-6: repeat case_match; rewrite ?i32_small by lia; lia.
  unfold lines_in, words_in. cbn [fields]. rewrite Hfs, filter_cons. cbn [length].
  split_and!.
  - case_Z; case_decide; try done; rewrite ?i32_small by lia; simpl; lia.
  - rewrite i32_small by lia. lia.
  - destruct (blank c), (inword k); cbn [negb andb tail]; rewrite ?filter_cons; repeat case_decide; try done;
      rewrite ?i32_small by lia; simpl; lia.
Qed.

Lemma udigits_decimal d : 0 <= d < 10 -> udigits !! Z.to_nat d = digits !! Z.to_nat d.
Proof.
  intros Hd. assert (Z.to_nat d < 10)%nat as Hn by lia. revert Hn. generalize (Z.to_nat d) as n. clear d Hd. intros n Hn.
  do 10 (destruct n as [|n]; [vm_compute; reflexivity|]). lia.
Qed.

Lemma uprint_loop_10 fuel : forall x, 0 <= x -> uprint_loop fuel x 10 = printint_loop fuel x 10.
Proof.
  induction fuel as [|fuel IH]; intros x Hx; [done|]. unfold printint_loop; fold printint_loop. simpl.
  rewrite IH by (apply Z.div_pos; lia).
  assert (0 <= x mod 10 < 10) as Hm by (apply Z.mod_pos_bound; lia).
  by rewrite udigits_decimal.
Qed.

Lemma numeral_bytes xx cs : is_numeral 10 xx cs -> Forall (fun c => 0 <= c < 256) cs.
Proof.
  intros (ds & -> & Hd & _). apply Forall_app. split; [case_Z; repeat constructor; lia|].
  apply Forall_fmap, Forall_reverse. eapply Forall_impl; [exact Hd|]. intros d Hb. unfold compose, digit_char. cbv beta in Hb. case_Z; lia.
Qed.

Lemma bytes_cstr s : Forall (fun c => 0 <= c < 256) s -> Forall (fun c => 0 <= c < 256) (cstr s).
Proof. induction 1 as [|c s]; simpl; [constructor|]. case_Z; by constructor. Qed.

Section filters.
Context {WO : World} (fd : Z) (feeds : list Z -> list Z -> world -> Prop) `{!Stream fd feeds}.

Lemma uwp_putc c data out Q E w :
  0 <= c < 256 -> feeds data out w -> (forall w', feeds data (out ++ [c]) w' -> Q tt w') -> uwp (putc 1 c) Q E w.
Proof.
  intros Hc Hf HQ. unfold putc. rewrite u8_small by done.
  destruct (st_write data out [c] w Hf) as (w' & Hs & Hf'). ustep. by apply HQ.
Qed.

Lemma uwp_puts cs : forall data out Q E w,
  Forall (fun c => 0 <= c < 256) cs -> feeds data out w -> (forall w', feeds data (out ++ cs) w' -> Q tt w') ->
  uwp (ufor cs (putc 1)) Q E w.
Proof.
  induction cs as [|c cs IH]; intros data out Q E w Hcs Hf HQ; simpl.
  { apply uwp_ret, HQ. by rewrite app_nil_r. }
  inversion_clear Hcs. apply uwp_bind. eapply uwp_putc; [done|done|]. intros w' Hf'.
  eapply IH; [done|done|]. intros w''. rewrite <- app_assoc. apply HQ.
Qed.

(** The conversions of [vprintf] the programs use. *)
Lemma uwp_vprintf_char c fmt ap data out Q E w :
  0 < c < 256 -> c <> 37 -> feeds data out w ->
  (forall w', feeds data (out ++ [c]) w' -> uwp (vprintf 1 fmt ap false) Q E w') ->
  uwp (vprintf 1 (c :: fmt) ap false) Q E w.
Proof.
  intros Hc Hp Hf HQ. cbn [vprintf negb]. rewrite (proj2 (Z.eqb_neq c 0)), (proj2 (Z.eqb_neq c 37)) by lia.
  apply uwp_bind. eapply uwp_putc; [lia|done|]. exact HQ.
Qed.

Lemma uwp_vprintf_d z fmt ap data out Q E w :
  0 <= z < 2 ^ 31 -> feeds data out w ->
  (forall cs w', is_numeral 10 z cs -> feeds data (out ++ cs) w' -> uwp (vprintf 1 fmt ap false) Q E w') ->
  uwp (vprintf 1 (37 :: 100 :: fmt) (AInt z :: ap) false) Q E w.
Proof.
  intros Hz Hf HQ. change (uwp (uprintint 1 (i32 z) 10 1;; vprintf 1 fmt ap false) Q E w).
  rewrite i32_small by lia. destruct (printint_numeral 10 z) as (cs & Hcs & Hn); [lia..|].
  unfold printint in Hcs. unfold uprintint.
  rewrite (proj2 (Z.ltb_ge z 0)) in Hcs |- * by lia. rewrite andb_false_r in Hcs |- *.
  rewrite u32_small in Hcs |- * by lia. rewrite <- uprint_loop_10 in Hcs by lia.
  destruct (uprint_loop 32 z 10) as [ds|] eqn:Hds; [|done]. simpl in Hcs. ustep. eapply uwp_access; [reflexivity|]. cbv beta zeta.
  destruct (length ds <=? 16)%nat; [|done]. apply (inj Some) in Hcs as Hcs'. rewrite Hcs'.
  eapply uwp_puts; [by eapply numeral_bytes|done|]. intros w' Hf'. by eapply HQ.
Qed.

Lemma uwp_vprintf_s s fmt ap data out Q E w :
  0 ∈ s -> Forall (fun c => 0 <= c < 256) s -> feeds data out w ->
  (forall w', feeds data (out ++ cstr s) w' -> uwp (vprintf 1 fmt ap false) Q E w') ->
  uwp (vprintf 1 (37 :: 115 :: fmt) (AStr (Some s) :: ap) false) Q E w.
Proof.
  intros H0 Hs Hf HQ.
  change (uwp (if decide (0 ∈ s) then ufor (cstr s) (putc 1);; vprintf 1 fmt ap false else ucrash) Q E w).
  case_decide; [|done]. apply uwp_bind. eapply uwp_puts; [by apply bytes_cstr|done|]. exact HQ.
Qed.

(** [cat] writes to its output exactly the bytes of its input, in their order and all of them, however the
    input arrives. *)
Theorem cat_copies fuel buf data out w :
  (length data < fuel)%nat -> length buf = 512%nat -> feeds data out w ->
  uwp (cat fuel fd buf) (fun buf' w' => length buf' = 512%nat /\ feeds [] (out ++ data) w') (fun _ _ => False) w.
Proof.
  intros Hfuel Hb Hf. unfold cat. apply uwp_bind.
  apply (uwp_uloop_until (fun n buf w => exists done rest, data = done ++ rest /\ n = length rest /\
    length buf = 512%nat /\ feeds rest (out ++ done) w) _ _ _ fuel (length data)); [|done|].
  { exists [], data. by rewrite app_nil_r. }
  clear Hfuel Hb Hf buf w. intros n buf w (done & rest & -> & -> & Hb & Hf).
  destruct (st_read rest (out ++ done) 512 w Hf) as (k & w1 & Hs & Hk & Hkd & Hk0 & Hf1); [lia|].
  ustep. destruct (Z.ltb_spec 0 (Z.of_nat k)).
  - assert (length (take k rest) = k) as Hl by (rewrite length_take; lia).
    assert (take (Z.to_nat (Z.of_nat k)) (splice 0 (take k rest) buf) = take k rest) as ->.
    { rewrite Nat2Z.id. unfold splice. simpl. rewrite take_app_length' by done. done. }
    destruct (st_write (drop k rest) (out ++ done) (take k rest) w1 Hf1) as (w2 & Hs2 & Hf2).
    ustep. rewrite Hl, Z.eqb_refl. cbn [negb]. ustep. exists (length (drop k rest)).
    split; [rewrite length_drop; lia|]. exists (done ++ take k rest), (drop k rest).
    rewrite <- !app_assoc, take_drop in *. split_and!; [done|done|rewrite length_splice; lia|done].
  - ustep. rewrite (proj2 (Z.ltb_ge _ _)) by lia. ustep. split; [done|]. rewrite Hk0 in * by lia.
    by rewrite app_nil_r, drop_nil in *.
Qed.

Lemma uwp_wc_chars s : forall k Q E w, Q (foldl count_char k s) w -> uwp (wc_chars k s) Q E w.
Proof.
  induction s as [|ch s IH]; intros k Q E w HQ; simpl; [by apply uwp_ret|].
  destruct (strchr_blanks ch) as (o & Ho & Hb). unfold wc_char. ustep. apply IH. simpl in HQ.
  unfold count_char in HQ. destruct o as [p|].
  - rewrite (proj2 Hb) in HQ by discriminate. exact HQ.
  - destruct (blank ch); [by destruct (proj1 Hb eq_refl)|]. simpl in HQ. destruct (inword k); exact HQ.
Qed.

Lemma uwp_wc_print l wd c name data out Q E w :
  0 <= l < 2 ^ 31 -> 0 <= wd < 2 ^ 31 -> 0 <= c < 2 ^ 31 -> 0 ∈ name -> Forall (fun c => 0 <= c < 256) name ->
  feeds data out w ->
  (forall sl sw sc w', is_numeral 10 l sl -> is_numeral 10 wd sw -> is_numeral 10 c sc ->
     feeds data (out ++ sl ++ [32] ++ sw ++ [32] ++ sc ++ [32] ++ cstr name ++ [10]) w' -> Q tt w') ->
  uwp (uprintf "%d %d %d %s\n" [AInt l; AInt wd; AInt c; AStr (Some name)]) Q E w.
Proof.
  intros Hl Hw Hc H0 Hn Hf HQ. unfold uprintf.
  replace (lit "%d %d %d %s\n") with [37; 100; 32; 37; 100; 32; 37; 100; 32; 37; 115; 10; 0] by (vm_compute; reflexivity).
  eapply uwp_vprintf_d; [done|exact Hf|]. intros sl w1 Hsl Hf1.
  eapply uwp_vprintf_char; [lia|lia|exact Hf1|]. intros w2 Hf2.
  eapply uwp_vprintf_d; [done|exact Hf2|]. intros sw w3 Hsw Hf3.
  eapply uwp_vprintf_char; [lia|lia|exact Hf3|]. intros w4 Hf4.
  eapply uwp_vprintf_d; [done|exact Hf4|]. intros sc w5 Hsc Hf5.
  eapply uwp_vprintf_char; [lia|lia|exact Hf5|]. intros w6 Hf6.
  eapply uwp_vprintf_s; [done|done|exact Hf6|]. intros w7 Hf7.
  eapply uwp_vprintf_char; [lia|lia|exact Hf7|]. intros w8 Hf8.
  apply uwp_ret. apply (HQ sl sw sc w8 Hsl Hsw Hsc). by rewrite <- !app_assoc in Hf8.
Qed.

Lemma words_bound s : words_in (fields s) <= Z.of_nat (length s).
Proof.
  unfold words_in.
  enough (length (filter (fun f => f <> []) (fields s)) <= length s /\
    (length (filter (fun f => f <> []) (tail (fields s))) <= length s - 1))%nat by lia.
  induction s as [|c s IH]; [vm_compute; lia|]. cbn [fields length]. destruct (fields_cons s) as (f & fs & Hfs).
  rewrite Hfs in IH |- *. cbn [tail] in IH. rewrite filter_cons in IH.
  destruct (blank c); cbn [tail]; rewrite !filter_cons; repeat case_decide; try done; cbn [length] in *; destruct s; cbn [length] in *; try lia.
Qed.

(** The loop of [wc]: whatever the reads deliver, all the characters are counted. *)
Lemma uwp_wc_loop fuel buf data out E w :
  (length data < fuel)%nat -> length buf = 512%nat -> feeds data out w ->
  uwp (uloop fuel (fun '(k, buf) =>
    x ← call (Uread fd 512);
    let n := x.1 in
    if 0 <? n then
      let buf := splice 0 x.2 buf in
      k ← wc_chars k (take (Z.to_nat n) buf);
      mret (inl (k, buf))
    else mret (inr (n, k, buf))) (mkcounts 0 0 0 false, buf))
    (fun '(n, k, buf') w' => n = 0 /\ k = foldl count_char (mkcounts 0 0 0 false) data /\
       length buf' = 512%nat /\ feeds [] out w') E w.
Proof.
  intros Hfuel Hb Hf.
  apply (uwp_uloop_until (fun n '(k, buf) w => exists seen rest, data = seen ++ rest /\ n = length rest /\
    k = foldl count_char (mkcounts 0 0 0 false) seen /\ length buf = 512%nat /\ feeds rest out w) _ _ _ fuel (length data)); [|done|].
  { by exists [], data. }
  clear Hfuel Hb Hf buf w. intros n [k buf] w (seen & rest & -> & -> & -> & Hb & Hf).
  destruct (st_read rest out 512 w Hf) as (j & w1 & Hs & Hj & Hjd & Hj0 & Hf1); [lia|].
  ustep. destruct (Z.ltb_spec 0 (Z.of_nat j)).
  - assert (length (take j rest) = j) as Hl by (rewrite length_take; lia).
    assert (take (Z.to_nat (Z.of_nat j)) (splice 0 (take j rest) buf) = take j rest) as ->.
    { rewrite Nat2Z.id. unfold splice. simpl. by rewrite take_app_length' by done. }
    apply uwp_bind, uwp_wc_chars. ustep. exists (length (drop j rest)). split; [rewrite length_drop; lia|].
    exists (seen ++ take j rest), (drop j rest). rewrite <- foldl_app, <- app_assoc, take_drop.
    split_and!; [done|done|done|rewrite length_splice; lia|done].
  - ustep. rewrite Hj0 in * by lia. rewrite app_nil_r, drop_nil in *. split_and!; [lia|done|done|done].
Qed.

(** C24. [wc] prints the number of newlines, of words and of characters of its input and the name, in decimal,
    however the input arrives; a word is a longest run of characters other than blanks.  The input has less than
    2^31 characters. *)
Theorem wc_counts fuel name buf data out w :
  (length data < fuel)%nat -> Z.of_nat (length data) < 2 ^ 31 -> length buf = 512%nat ->
  0 ∈ name -> Forall (fun c => 0 <= c < 256) name -> feeds data out w ->
  uwp (wc fuel fd name buf)
    (fun buf' w' => length buf' = 512%nat /\ exists l wd c,
       is_numeral 10 (lines_in data) l /\ is_numeral 10 (words_in (fields data)) wd /\
       is_numeral 10 (Z.of_nat (length data)) c /\
       feeds [] (out ++ l ++ [32] ++ wd ++ [32] ++ c ++ [32] ++ cstr name ++ [10]) w') (fun _ _ => False) w.
Proof.
  intros Hfuel Hd Hb H0 Hn Hf. unfold wc. apply uwp_bind.
  eapply uwp_mono; [by apply (uwp_wc_loop fuel buf data out)|].
  intros [[n k] buf'] w' (-> & -> & Hb' & Hf').
  destruct (count_chars data (mkcounts 0 0 0 false)) as (Hl & Hc & Hw); cbn [n_lines n_words n_chars inword] in *; [lia..|].
  pose proof (words_bound data). pose proof (length_filter (fun c => c = 10) data).
  change (0 <? 0) with false. cbv iota. apply uwp_bind. rewrite Hl, Hc, Hw, !Z.add_0_l.
  eapply (uwp_wc_print _ _ _ name []); [unfold lines_in; lia|unfold words_in in *; lia|lia|done|done|done|].
  intros sl sw sc w'' ??? Hf''. ustep. split; [done|]. by exists sl, sw, sc.
Qed.
End filters.

(** A text of three lines read five bytes at a time. *)
Definition tools_text : list Z := bytes_of "one two\n  three\tfour\nlast line".

Lemma cat_copies_witness :
  @uwp (tape 5) _ (@cat (tape 5) 40 0 (replicate 512 0))
    (fun buf' w' => length buf' = 512%nat /\ on_tape [] ([] ++ tools_text) w') (fun _ _ => False) (tools_text, []).
Proof.
  apply (@cat_copies (tape 5) 0 on_tape (tape_stream 5 0 ltac:(lia))).
  - vm_compute. lia.
  - by rewrite length_replicate.
  - done.
Defined.

Lemma wc_counts_witness :
  words_in (fields tools_text) = 6 /\ lines_in tools_text = 2 /\
  @uwp (tape 5) _ (@wc (tape 5) 40 0 (lit "f") (replicate 512 0))
    (fun buf' w' => length buf' = 512%nat /\ exists l wd c,
       is_numeral 10 (lines_in tools_text) l /\ is_numeral 10 (words_in (fields tools_text)) wd /\
       is_numeral 10 (Z.of_nat (length tools_text)) c /\
       on_tape [] ([] ++ l ++ [32] ++ wd ++ [32] ++ c ++ [32] ++ cstr (lit "f") ++ [10]) w')
    (fun _ _ => False) (tools_text, []).
Proof.
  split; [vm_compute; reflexivity|]. split; [vm_compute; reflexivity|].
  apply (@wc_counts (tape 5) 0 on_tape (tape_stream 5 0 ltac:(lia))).
  - vm_compute. lia.
  - vm_compute. reflexivity.
  - by rewrite length_replicate.
  - vm_compute. repeat constructor.
  - vm_compute. repeat constructor; discriminate.
  - done.
Defined.
