(* ===== verification/Ctools.v ===== *)
(** The programs that manage containers: [user/ccreate.c], [cinfo.c], [cpause.c], [cresume.c], [cstart.c], [cstop.c]
    and [ctool.c].

    [junk n] is what an array of [n] bytes on the stack holds before anything is stored to it.  [argv] is as in the
    other programs: [ccreate] and [cstart] go on after complaining about too few arguments, and the first argument
    they then miss ends the run. *)
From S2P Require Import Prelude Types Cstring Printf User Ulib Tools.
From stdpp Require Import base numbers list gmap strings.
From Stdlib Require Import ZArith Lia.

Local Open Scope Z_scope.

Section ctools.
Context {WO : World} (junk : nat -> list Z).

(** ** [ccreate.c] *)

(** The array [path] of [cp]. *)
Definition cp_path (dest src : list Z) : option (list Z) :=
  dl ← strlen dest;
  sl ← strlen src;
  let path := junk (Z.to_nat (dl + sl + 2)) in
  path ← strcpy path 0 dest;
  path ← strcpy path (Z.to_nat dl) (lit "/");
  path ← strcpy path (Z.to_nat (dl + 1)) src;
  strcpy path (Z.to_nat (dl + 1 + sl)) [0; 0].

(** [int cp(char* dest, char* src)] *)
Definition cp (fuel : nat) (dest src : list Z) : U Z :=
  path ← access (cp_path dest src);
  srcfd ← scall (Uopen src O_RDONLY);
  if srcfd <? 0 then uprintf "cp:Failed to open src folder/file %s\n" [AStr (Some src)];; mret (-1)
  else
    destfd ← scall (Uopen path (Z.lor O_WRONLY O_CREATE));
    if destfd <? 0 then
      uprintf "cp:Failed to open dest folder/file %s\n" [AStr (Some dest)];;
      scall (Uclose destfd);;
      mret (-1)
    else
      uloop fuel (fun buf =>
        x ← call (Uread srcfd 1024);
        let n := x.1 in
        if negb (n =? 0) then
          let buf := splice 0 x.2 buf in
          (if n <? 0 then scall (Uwrite_neg destfd n) else scall (Uwrite destfd (take (Z.to_nat n) buf)));;
          mret (inl buf)
        else mret (inr tt)) (junk 1024);;
      scall (Uclose srcfd);;
      scall (Uclose destfd);;
      mret 1.

(** [addr] is the address of [argv[1]], which a [%c] prints. *)
Definition ccreate_main (fuel : nat) (addr : Z) (argv : list (list Z)) : U unit :=
  (if (length argv <? 2)%nat then
     uprintf "too few arguments\n" [];;
     uprintf "usage: ccreate <container name> [cmd] [cmd] ... \n" []
   else mret tt);;
  name ← access (argv !! 1%nat);
  r ← scall (Umkdir name);
  if negb (r =? 0) then uprintf "Error creating directory %s\n" [AStr (argv !! 2%nat)];; uexit 0
  else
    ufor (drop 2 argv) (fun a =>
      rv ← cp fuel name a;
      if rv <? 0 then uprintf "cp %s to %c failed\n" [AStr (Some a); AInt addr] else mret tt);;
    r ← scall (Uccreate name);
    (if r =? 1 then uprintf "container %s is created\n" [AStr (Some name)]
     else uprintf "create container failed\n" [];; scall (Uunlink name);; mret tt);;
    uexit 0.

(** ** [cinfo.c] *)

(** [struct cinfo] and [struct continfo] in the bytes the kernel delivers. *)
Record cinfo := mkcinfo {
  ci_cname : list Z; ci_max_proc : Z; ci_max_sz : Z; ci_max_dsk : Z; ci_used_proc : Z; ci_used_mem : Z; ci_used_dsk : Z;
  ci_state : list Z; ci_ticks : Z
}.
Definition cinfo_at (cf : list Z) (a : nat) : cinfo :=
  mkcinfo (drop (88 * a) cf) (i32 (load 4 (88 * a + 16) cf)) (load 8 (88 * a + 24) cf) (load 8 (88 * a + 32) cf)
    (i32 (load 4 (88 * a + 40) cf)) (load 8 (88 * a + 48) cf) (load 8 (88 * a + 56) cf) (drop (88 * a + 64) cf)
    (i32 (load 4 (88 * a + 80) cf)).

Definition cinfo_procs (pf cname : list Z) : U unit :=
  ufor (seq 0 (Z.to_nat (numproc pf))) (fun i =>
    r ← access (strcmp (pd_contname (pdata_at pf i)) cname);
    if r =? 0 then
      uprintf "%d\t%d\t\t%d\t%s\t%s\n" [AInt (pd_pid (pdata_at pf i)); AInt (pd_local_pid (pdata_at pf i)); AInt (pd_mem (pdata_at pf i));
        AStr (Some (pd_name (pdata_at pf i))); AStr (Some (pd_contname (pdata_at pf i)))]
    else mret tt).

Definition cinfo_show (cf pf : list Z) (a : nat) : U unit :=
  let cname := ci_cname (cinfo_at cf a) in
  r ← access (strcmp cname (lit "rootcont"));
  (if r =? 0 then
     uprintf "==== Container: %s\tDirectory: . \tState: %s \tTicks %d ====\n"
       [AStr (Some cname); AStr (Some (ci_state (cinfo_at cf a))); AInt (ci_ticks (cinfo_at cf a))]
   else
     uprintf "==== Container: %s\tDirectory: %s \tState: %s \tTicks %d ====\n"
       [AStr (Some cname); AStr (Some cname); AStr (Some (ci_state (cinfo_at cf a))); AInt (ci_ticks (cinfo_at cf a))]);;
  uprintf "\t\t USED \t\t FREE\n" [];;
  uprintf "DISK:\t\t%d Kb \t\t %d Kb\n" [AInt (ci_used_dsk (cinfo_at cf a) / 1024); AInt (u64 (ci_max_dsk (cinfo_at cf a) - ci_used_dsk (cinfo_at cf a)) / 1024)];;
  uprintf "MEM :\t\t%d Kb\t\t %d Kb\n" [AInt (ci_used_mem (cinfo_at cf a) / 1024); AInt (u64 (ci_max_sz (cinfo_at cf a) - ci_used_mem (cinfo_at cf a)) / 1024)];;
  uprintf "PROC:\t\t%d \t\t %d\n" [AInt (ci_used_proc (cinfo_at cf a)); AInt (i32 (ci_max_proc (cinfo_at cf a) - ci_used_proc (cinfo_at cf a)))];;
  uprintf "\n" [];;
  uprintf "PID\tPID(local)\tMEM\tNAME\tCONT_NAME\t\n" [];;
  cinfo_procs pf cname;;
  uprintf "\n" [];;
  uprintf "----------------------------------\n" [];;
  uprintf "\n" [].

Definition cinfo_main : U unit :=
  x ← call Ucinfo;
  let '(rv, cf) := x in
  if rv <? 0 then uprintf "Current container has no permission\n" [];; uexit 0
  else
    y ← call Upsinfo;
    let '(rv2, pf) := y in
    if rv2 <? 0 then uprintf "failed to get proc info\n" [];; uexit 0
    else ufor (seq 0 NCONT) (cinfo_show cf pf);; uexit 0.

(** ** [cpause.c], [cresume.c] and [ctool.c] *)

Definition cpause_main (argv : list (list Z)) : U unit :=
  if (length argv <? 2)%nat then uprintf "Too few arguments. Usage: cpause <container name>\n" [];; uexit 0
  else
    a ← access (argv !! 1%nat);
    rv ← scall (Ucpause a);
    (if rv <? 0 then uprintf "pause container %s failed\n" [AStr (Some a)] else mret tt);;
    uexit 0.

Definition cresume_main (argv : list (list Z)) : U unit :=
  if (length argv <? 2)%nat then uprintf "Too few arguments. Usage: resume <container name>\n" [];; uexit 0
  else
    a ← access (argv !! 1%nat);
    rv ← scall (Ucresume a);
    (if rv <? 0 then uprintf "resume container %s failed\n" [AStr (Some a)] else mret tt);;
    uexit 0.

Definition ctool_main (argv : list (list Z)) : U unit :=
  if (length argv <? 2)%nat then uprintf "usage: ctool <cmd> [<arg> ...]" [];; uexit 0 else uexit 0.

(** ** [cstart.c] and [cstop.c] *)

(** [char a[strlen(path)+n]] holding [path] followed by [s]. *)
Definition with_suffix (path s : list Z) (n : Z) : option (list Z) :=
  l ← strlen path;
  a ← strcpy (junk (Z.to_nat (l + n))) 0 path;
  strcpy a (Z.to_nat l) s.

(** The array [path] of [main]: [name] after a slash. *)
Definition root_path (name : list Z) : option (list Z) :=
  l ← strlen name;
  path ← strcpy (junk (Z.to_nat (l + 2))) 0 (lit "/");
  path ← strcpy path 1 name;
  strcpy path (Z.to_nat (l + 1)) [0; 0].

(** [int containerinitdisk(char* path)] *)
Definition containerinitdisk (fuel : nat) (path : list Z) : U Z :=
  curdir ← access (with_suffix path (lit "/." ++ [0]) 3);
  updir ← access (with_suffix path (lit "/.." ++ [0]) 4);
  fd ← scall (Uopen path 0);
  if fd <? 0 then fprintf 2 "ls: cannot open %s\n" [AStr (Some path)];; mret 0
  else
    x ← call (Ufstat fd);
    let '(r, st) := x in
    if r <? 0 then fprintf 2 "ls: cannot stat %s\n" [AStr (Some path)];; scall (Uclose fd);; mret 0
    else
      size ←
        (if st_type (stat_of st) =? T_FILE then mret (i32 (st_size (stat_of st)))
         else if st_type (stat_of st) =? T_DIR then
           n ← access (strlen path);
           if 512 <? n + 1 + DIRSIZ + 1 then uprintf "ls: path too long\n" [];; mret 0
           else
             b ← access (dir_path (junk 512) path);
             let '(buf, p) := b in
             uloop fuel (fun '(buf, size) =>
               x ← call (Uread fd 16);
               if negb (x.1 =? 16) then mret (inr size)
               else if load 2 0 x.2 =? 0 then mret (inl (buf, size))
               else
                 buf ← access (entry_path buf p x.2);
                 y ← stat buf;
                 let '(r, st) := y in
                 if r <? 0 then mret (inl (buf, size))
                 else
                   c ← access (strcmp buf curdir);
                   u ← (if c =? 0 then mret 0 else access (strcmp buf updir));
                   if (c =? 0) || (u =? 0) then mret (inl (buf, size))
                   else mret (inl (buf, i32 (size + st_size (stat_of st))))) (buf, 0)
         else mret 0);
      scall (Uclose fd);;
      mret size.

(** [int unlinkcontainerfiles(char* path)] *)
Definition unlinkcontainerfiles (fuel : nat) (path : list Z) : U Z :=
  access (with_suffix path (lit "/." ++ [0]) 3);;
  access (with_suffix path (lit "/.." ++ [0]) 4);;
  fd ← scall (Uopen path 0);
  if fd <? 0 then fprintf 2 "ls: cannot open %s\n" [AStr (Some path)];; mret 0
  else
    x ← call (Ufstat fd);
    let '(r, st) := x in
    if r <? 0 then fprintf 2 "ls: cannot stat %s\n" [AStr (Some path)];; scall (Uclose fd);; mret 0
    else
      (if st_type (stat_of st) =? T_FILE then scall (Uunlink (junk 512));; mret tt
       else if st_type (stat_of st) =? T_DIR then
         n ← access (strlen path);
         if 512 <? n + 1 + DIRSIZ + 1 then uprintf "ls: path too long\n" []
         else
           b ← access (dir_path (junk 512) path);
           let '(buf, p) := b in
           uloop fuel (fun buf =>
             x ← call (Uread fd 16);
             if negb (x.1 =? 16) then mret (inr tt)
             else if load 2 0 x.2 =? 0 then mret (inl buf)
             else
               buf ← access (entry_path buf p x.2);
               y ← stat buf;
               if y.1 <? 0 then mret (inl buf) else scall (Uunlink buf);; mret (inl buf)) buf
       else mret tt);;
      scall (Uclose fd);;
      mret 0.

(** The limits on the command line, from [argv[4]] on. *)
Definition cstart_limits (argv : list (list Z)) (name : list Z) (disksize : Z) : U unit :=
  match argv !! 4%nat with
  | Some a =>
    newmem ← access (atoi a);
    uprintf " checking new max mem...\n" [];;
    if negb (newmem =? 0) then scall (Usetmaxcmem name newmem);; mret tt else mret tt
  | None => mret tt
  end;;
  match argv !! 5%nat with
  | Some a =>
    newdisk ← access (atoi a);
    uprintf " checking new max disk...\n" [];;
    if newdisk <? disksize then uprintf "input disk size is too small, using default size\n" []
    else scall (Usetmaxcdsk name newdisk);; mret tt
  | None => mret tt
  end;;
  match argv !! 6%nat with
  | Some a =>
    numproc ← access (atoi a);
    uprintf " checking new max proc...\n" [];;
    if 0 <? numproc then scall (Usetmaxcproc name numproc);; mret tt else mret tt
  | None => mret tt
  end.

(** The child, in the container. *)
Definition cstart_child (fuel : nat) (argv : list (list Z)) (name : list Z) (vcfd : Z) : U unit :=
  scall (Uclose 0);;
  scall (Uclose 1);;
  scall (Uclose 2);;
  scall (Udup vcfd);;
  scall (Udup vcfd);;
  scall (Udup vcfd);;
  prog ← access (argv !! 3%nat);
  scall (Uexec prog (drop 3 argv));;
  path ← access (root_path name);
  unlinkcontainerfiles fuel path;;
  scall (Uunlink name);;
  uexit 0.

Definition cstart_main (fuel : nat) (argv : list (list Z)) : U unit :=
  (if (length argv <? 4)%nat then
     uprintf "too few arguments\n" [];;
     uprintf "usage: cstart <virtual console> <container name> <init program> [max mem (Kb)] [max disk (Kb)] [max proc]\n" []
   else mret tt);;
  vc ← access (argv !! 1%nat);
  vcfd ← scall (Uopen vc O_RDWR);
  if vcfd <? 0 then uprintf "cstart: Could not find vc\n" [];; uexit 0
  else
    name ← access (argv !! 2%nat);
    path ← access (root_path name);
    disksize ← containerinitdisk fuel path;
    if disksize <? 0 then uexit 0
    else
      cstart_limits argv name disksize;;
      cstart_rv ← scall (Ucstart name vc disksize);
      if cstart_rv <? 0 then uprintf "start container failed\n" [];; uexit 0
      else
        uprintf "container started\n" [];;
        id ← scall (Ucfork name);
        if id =? 0 then cstart_child fuel argv name vcfd else uexit 0.

(** [cstop.c] has its own copy of [unlinkcontainerfiles], with the same text. *)
Definition cstop_unlinkcontainerfiles (fuel : nat) (path : list Z) : U Z := unlinkcontainerfiles fuel path.

Definition cstop_main (fuel : nat) (argv : list (list Z)) : U unit :=
  if (length argv <? 2)%nat then uprintf "Too few arguments. Usage: cstop <container name>\n" [];; uexit 0
  else
    a ← access (argv !! 1%nat);
    rv ← scall (Ucstop a);
    (if rv <? 0 then uprintf "stop container %s failed\n" [AStr (Some a)] else mret tt);;
    path ← access (root_path a);
    cstop_unlinkcontainerfiles fuel path;;
    scall (Uunlink a);;
    uexit 0.
End ctools.

(** ** Strings *)

Lemma ustrlen_spec l : 0 ∈ l -> strlen l = Some (Z.of_nat (length (cstr l))).
Proof.
  induction l as [|c l IH]; [by intros ?%elem_of_nil|]. intros Hin. simpl. case_Z; simpl; [done|].
  apply elem_of_cons in Hin as [|Hin]; [lia|]. rewrite IH by done. simpl. f_equal. lia.
Qed.

Lemma strcpy_spec t : forall s i, 0 ∈ t -> (i + length (cstr t) < length s)%nat ->
  strcpy s i t = Some (splice i (cstr t ++ [0]) s).
Proof.
  induction t as [|c t IH]; intros s i Hin Hl; [by apply elem_of_nil in Hin|]. simpl in *.
  destruct (Z.eqb_spec c 0) as [->|Hc]; simpl in *.
  - rewrite put_Some by lia. simpl. by rewrite splice_1 by lia.
  - apply elem_of_cons in Hin as [|Hin]; [lia|]. rewrite put_Some by lia. simpl.
    rewrite IH by (rewrite ?length_insert; done || lia).
    rewrite <- (splice_cons i c) by (rewrite length_app; simpl; lia). done.
Qed.

Lemma splice_all {A} (new l : list A) : length new = length l -> splice 0 new l = new.
Proof. intros Hl. unfold splice. simpl. by rewrite drop_ge, app_nil_r by lia. Qed.

(** Two strings stored one after the other; the second begins over the NUL of the first. *)
Lemma splice_join {A} i (a b l : list A) z :
  (i + length a + length b <= length l)%nat -> (0 < length b)%nat ->
  splice (i + length a) b (splice i (a ++ [z]) l) = splice i (a ++ b) l.
Proof.
  intros Hl Hb. apply list_eq. intros j.
  repeat rewrite lookup_splice by (rewrite ?length_splice, ?length_app; simpl; rewrite ?length_app; simpl; lia).
  rewrite !length_app. simpl. repeat case_decide; try lia; try done.
  - rewrite lookup_app_r by lia. f_equal. lia.
  - rewrite !lookup_app_l by lia. done.
Qed.

Lemma strcpy_after (a l t : list Z) i :
  0 ∈ t -> i = length a -> (length a + length (cstr t) < length l)%nat ->
  strcpy (splice 0 (a ++ [0]) l) i t = Some (splice 0 (a ++ cstr t ++ [0]) l).
Proof.
  intros Ht -> Hl. rewrite strcpy_spec; [|done|rewrite length_splice; rewrite ?length_app; simpl; lia].
  f_equal. apply (splice_join 0); rewrite ?length_app; simpl; lia.
Qed.

(** ** Copying a file into a container *)

(** [holds data out w]: in [w], reading descriptor [s] will deliver [data], in pieces of any size, and [out] has been
    written to descriptor [d].  A write may store only a part of what it is given, as when the disk is full; it then
    does not return the number of bytes it was given. *)
Class Copying {WO : World} (s d : Z) (holds : list Z -> list Z -> world -> Prop) : Prop := {
  co_read data out n w : holds data out w -> 0 < n ->
    exists k w', sys (Uread s n) w = (Z.of_nat k, take k data, w') /\ Z.of_nat k <= n /\
      (k <= length data)%nat /\ (k = 0%nat -> data = []) /\ holds (drop k data) out w';
  co_write data out bs w : holds data out w ->
    exists j r w', sys (Uwrite d bs) w = (r, [], w') /\ (r = Z.of_nat (length bs) -> j = length bs) /\
      holds data (out ++ take j bs) w'
}.

(** No write to [d] is short. *)
Definition writes_in_full {WO : World} (d : Z) : Prop :=
  forall bs w r bs' w', sys (Uwrite d bs) w = (r, bs', w') -> r = Z.of_nat (length bs).

Section copying.
Context {WO : World} (junk : nat -> list Z) (Hjunk : forall n, length (junk n) = n).

Lemma cp_path_spec dest src : 0 ∈ dest -> 0 ∈ src -> cp_path junk dest src = Some (cstr dest ++ 47 :: cstr src ++ [0]).
Proof.
  intros Hd Hs. unfold cp_path. rewrite !ustrlen_spec by done. cbn [mbind option_bind].
  set (a := cstr dest). set (b := cstr src). set (l := junk _).
  assert (length l = (length a + length b + 2)%nat) as Hl by (unfold l; rewrite Hjunk; lia).
  rewrite (strcpy_spec dest) by (fold a; done || lia). fold a. cbn [mbind option_bind].
  rewrite (strcpy_after a); [|vm_compute; repeat constructor|lia|change (length (cstr (lit "/"))) with 1%nat; lia].
  change (cstr (lit "/") ++ [0]) with ([47] ++ [0]). rewrite app_assoc. cbn [mbind option_bind].
  rewrite (strcpy_after (a ++ [47])); [|done|rewrite length_app; simpl; lia|rewrite length_app; fold b; simpl; lia].
  fold b. rewrite app_assoc. cbn [mbind option_bind].
  rewrite (strcpy_after ((a ++ [47]) ++ b)); [|repeat constructor|rewrite !length_app; simpl; lia|rewrite !length_app; simpl; lia].
  change (cstr [0; 0] ++ [0]) with [0].
  rewrite splice_all by (rewrite !length_app; simpl; lia). by rewrite <- !app_assoc.
Qed.

(** C25. Suppose [cp] can open both files and no read of the source fails. Then it opens the source and the file of
    that name in the directory, reads the source to its end in pieces however they arrive, closes both and returns 1.
    What it has written is a subsequence of the source's bytes, and all of them if no write was short; since [cp]
    ignores what [write] returns, it returns 1 also when bytes are missing. (When reads fail it does not end:
    [cp_read_error].) *)
Theorem cp_copies s d holds `{!Copying s d holds} fuel dest src data w w1 w2 bs1 bs2 :
  0 ∈ dest -> 0 ∈ src -> 0 <= s -> 0 <= d -> (length data < fuel)%nat ->
  sys (Uopen src O_RDONLY) w = (s, bs1, w1) ->
  sys (Uopen (cstr dest ++ 47 :: cstr src ++ [0]) (Z.lor O_WRONLY O_CREATE)) w1 = (d, bs2, w2) ->
  holds data [] w2 ->
  uwp (cp junk fuel dest src)
    (fun r w' => r = 1 /\ exists out w3, holds [] out w3 /\ out `sublist_of` data /\ (writes_in_full d -> out = data) /\ w' = (sys (Uclose d) (sys (Uclose s) w3).2).2)
    (fun _ _ => False) w.
Proof.
  intros Hd Hs Hs0 Hd0 Hfuel Ho1 Ho2 Hw2. unfold cp. apply uwp_bind.
  eapply uwp_access; [by apply cp_path_spec|]. ustep. rewrite (proj2 (Z.ltb_ge s 0)) by lia.
  ustep. rewrite (proj2 (Z.ltb_ge d 0)) by lia. apply uwp_bind.
  apply (uwp_uloop_until (fun n buf w => exists seen rest out, data = seen ++ rest /\ n = length rest /\
    length buf = 1024%nat /\ holds rest out w /\ out `sublist_of` seen /\ (writes_in_full d -> out = seen)) _ _ _ fuel (length data)).
  { by exists [], data, []. }
  { done. }
  clear Hfuel Ho1 Ho2 Hw2 w w1 w2. intros n buf w (seen & rest & out & -> & -> & Hb & Hh & Hsub & Hfull).
  destruct (co_read rest out 1024 w Hh) as (k & w1 & Hr & Hk & Hkd & Hk0 & Hh1); [lia|].
  ustep. destruct (Z.eqb_spec (Z.of_nat k) 0) as [H0|H0]; cbn [negb].
  - ustep. rewrite Hk0 in * by lia. rewrite app_nil_r, drop_nil in *.
    destruct (sys (Uclose s) w1) as [[rc bc] w2] eqn:Hc. ustep.
    destruct (sys (Uclose d) w2) as [[rc' bc'] w3] eqn:Hc'. ustep.
    split; [done|]. exists out, w1. rewrite Hc. cbn [snd]. rewrite Hc'. done.
  - rewrite (proj2 (Z.ltb_ge (Z.of_nat k) 0)), Nat2Z.id by lia.
    assert (length (take k rest) = k) as Hl by (rewrite length_take; lia).
    assert (take k (splice 0 (take k rest) buf) = take k rest) as ->.
    { unfold splice. simpl. by rewrite take_app_length' by done. }
    destruct (co_write (drop k rest) out (take k rest) w1 Hh1) as (j & r & w2 & Hw & Hj & Hh2). ustep.
    exists (length (drop k rest)). split; [rewrite length_drop; lia|]. exists (seen ++ take k rest), (drop k rest), (out ++ take j (take k rest)).
    rewrite <- app_assoc, take_drop. split_and!; [done|done|rewrite length_splice; lia|done| |].
    + apply sublist_app; [done|]. apply sublist_take.
    + intros Hf. rewrite Hfull by done. rewrite Hj by (by eapply Hf). by rewrite firstn_all.
Qed.

(** A source that cannot be read keeps [cp] in its loop. *)
Lemma cp_read_error fuel dest src s d w w1 w2 bs1 bs2 :
  0 ∈ dest -> 0 ∈ src -> 0 <= s -> 0 <= d ->
  sys (Uopen src O_RDONLY) w = (s, bs1, w1) ->
  sys (Uopen (cstr dest ++ 47 :: cstr src ++ [0]) (Z.lor O_WRONLY O_CREATE)) w1 = (d, bs2, w2) ->
  (forall w, (sys (Uread s 1024) w).1.1 = -1) ->
  cp junk fuel dest src w = Unfinished.
Proof.
  intros Hd Hs Hs0 Hd0 Ho1 Ho2 Hr. unfold cp. rewrite cp_path_spec by done.
  unfold access, scall, call, mret, U_ret, mbind, U_bind. rewrite Ho1. cbn [fst].
  rewrite (proj2 (Z.ltb_ge s 0)) by lia. rewrite Ho2. cbn [fst]. rewrite (proj2 (Z.ltb_ge d 0)) by lia.
  rewrite uloop_forever; [done|]. intros buf w3. specialize (Hr w3).
  destruct (sys (Uread s 1024) w3) as [[r bs] w4]. cbn [fst] in Hr. subst r. cbn [fst snd].
  change (negb (-1 =? 0)) with true. change (-1 <? 0) with true. cbv beta iota.
  destruct (sys (Uwrite_neg d (-1)) w4) as [[r bs'] w5]. by eexists _, _.
Qed.
End copying.

(** A world of one file to read, seven bytes at a time, and one to write. *)
Definition two_files : World := {|
  world := list Z * list Z;
  sys := fun c '(data, out) =>
    match c with
    | Uopen _ mode => ((if mode =? O_RDONLY then 3 else 4), [], (data, out))
    | Uread _ n =>
      let k := Nat.min (Nat.min (Z.to_nat n) 7) (length data) in
      (Z.of_nat k, take k data, (drop k data, out))
    | Uwrite _ bs => (Z.of_nat (length bs), [], (data, out ++ bs))
    | Uclose _ => (0, [], (data, out))
    | _ => (-1, [], (data, out))
    end
|}.

Lemma two_files_copying : @Copying two_files 3 4 (fun data out w => w = (data, out)).
Proof.
  split.
  - intros data out n w -> Hn. simpl. eexists _, _. split; [done|].
    split_and!; [lia|lia| |done]. intros Hk. apply length_zero_iff_nil. lia.
  - intros data out bs w ->. exists (length bs). eexists _, _. split; [reflexivity|]. split; [done|]. by rewrite firstn_all.
Qed.

Lemma cp_copies_witness :
  @uwp two_files _ (@cp two_files (fun n => replicate n 165) 40 (lit "box") (lit "sh"))
    (fun r w' => r = 1 /\ w' = ([], tools_text)) (fun _ _ => False) (tools_text, []).
Proof.
  eapply uwp_mono.
  - apply (@cp_copies two_files (fun n => replicate n 165) (fun n => length_replicate n 165) 3 4
      (fun data out w => w = (data, out)) two_files_copying 40 (lit "box") (lit "sh") tools_text _ (tools_text, []) (tools_text, []) [] []).
    + vm_compute. repeat constructor.
    + vm_compute. repeat constructor.
    + lia.
    + lia.
    + vm_compute. lia.
    + reflexivity.
    + reflexivity.
    + reflexivity.
  - intros r w' (-> & out & w3 & -> & _ & Hfull & ->). split; [done|]. rewrite Hfull; [done|].
    intros bs [data o] r bs' w' E. by injection E as <- _ _.
Defined.
