(* ===== verification/Shell.v ===== *)
(** The shell, [user/sh.c]: reading a command line, parsing it and running it.

    A command line is a buffer [buf] of bytes; a [char *] into it is an offset.  The parser moves the variable its
    callers share through [ps] and builds its commands in [ps_nodes]: a [struct cmd *] is an index.  [room] is the
    number of commands [malloc] has memory for; after that it returns 0 and [memset] faults. *)
From S2P Require Import Prelude Types Cstring Printf User Ulib.
From stdpp Require Import base numbers list gmap strings.
From Stdlib Require Import ZArith Lia.

Local Open Scope Z_scope.
Local Open Scope xv6_scope.

Definition MAXARGS : nat := 10.

(** [struct execcmd], [redircmd], [pipecmd], [listcmd] and [backcmd]. *)
Inductive node :=
  | EXEC (argv eargv : list (option nat))
  | REDIR (cmd file efile : nat) (mode fd : Z)
  | PIPE (left right : nat)
  | LIST (left right : nat)
  | BACK (cmd : nat).

Record pst := mkpst { ps_pos : nat; ps_nodes : list node }.
#[export] Instance pst_eta : Eta pst := fun x => mkpst (ps_pos x) (ps_nodes x).

(** Why the parser gives up: [panic], an access outside the buffer or through a null pointer, or the budget of
    the model. *)
Inductive perr := Syntax (msg : string) | Crash | NoFuel.

Definition PM (A : Type) : Type := pst -> perr + A * pst.
#[export] Instance PM_ret : MRet PM := fun A a s => inr (a, s).
#[export] Instance PM_bind : MBind PM := fun A B f m s =>
  match m s with inl e => inl e | inr (a, s') => f a s' end.
Definition perror {A} (e : perr) : PM A := fun _ => inl e.
Definition pget {A} (o : option A) : PM A := match o with Some a => mret a | None => perror Crash end.
Definition pos : PM nat := fun s => inr (ps_pos s, s).
Definition set_pos (n : nat) : PM unit := fun s => inr (tt, s <| ps_pos := n |>).

(** [char whitespace[]] and [char symbols[]] *)
Definition whitespace : list Z := [32; 9; 13; 10; 11].
Definition symbols : list Z := bytes_of "<|>&;()".
Definition is_in (l : list Z) (c : Z) : bool := bool_decide (c ∈ l).

Section parser.
Context (buf : list Z) (es : nat) (room : nat).

(** [while(s < es && f( *s)) s++], [n] being [es - s]. *)
Fixpoint skip (f : Z -> bool) (n s : nat) : option nat :=
  match n with
  | O => Some s
  | S n => c ← buf !! s; if f c then skip f n (S s) else Some s
  end.

(** [int gettoken(char **ps, char *es, char **q, char **eq)]: the result with [*q] and [*eq]. *)
Definition gettoken : PM (Z * nat * nat) :=
  s ← pos;
  s ← pget (skip (is_in whitespace) (es - s) s);
  let q := s in
  c ← pget (buf !! s);
  x ← (if c =? 0 then mret (c, s)
       else if is_in (bytes_of "|();&<") c then mret (c, S s)
       else if c =? 62 then
         d ← pget (buf !! S s);
         if d =? 62 then mret (43, S (S s)) else mret (c, S s)
       else
         s ← pget (skip (fun c => negb (is_in whitespace c) && negb (is_in symbols c)) (es - s) s);
         mret (97, s));
  let '(ret, s) := x in
  let eq := s in
  s ← pget (skip (is_in whitespace) (es - s) s);
  set_pos s;;
  mret (ret, q, eq).

(** [int peek(char **ps, char *es, char *toks)] *)
Definition peek (toks : list Z) : PM bool :=
  s ← pos;
  s ← pget (skip (is_in whitespace) (es - s) s);
  set_pos s;;
  c ← pget (buf !! s);
  mret (negb (c =? 0) && is_in toks c).

(** The constructors: a command in new memory. *)
Definition new_cmd (n : node) : PM nat := fun s =>
  if (length (ps_nodes s) <? room)%nat
  then inr (length (ps_nodes s), s <| ps_nodes ::= fun l => l ++ [n] |>) else inl Crash.
Definition execcmd : PM nat := new_cmd (EXEC (replicate MAXARGS None) (replicate MAXARGS None)).
Definition redircmd (subcmd file efile : nat) (mode fd : Z) : PM nat := new_cmd (REDIR subcmd file efile mode fd).
Definition pipecmd (left right : nat) : PM nat := new_cmd (PIPE left right).
Definition listcmd (left right : nat) : PM nat := new_cmd (LIST left right).
Definition backcmd (subcmd : nat) : PM nat := new_cmd (BACK subcmd).

(** [cmd->argv[i] = q; cmd->eargv[i] = eq;] *)
Definition set_arg (cmd i : nat) (q eq : option nat) : PM unit := fun s =>
  match ps_nodes s !! cmd with
  | Some (EXEC argv eargv) =>
    if (i <? MAXARGS)%nat
    then inr (tt, s <| ps_nodes ::= <[cmd := EXEC (<[i := q]> argv) (<[i := eq]> eargv)]> |>) else inl Crash
  | _ => inl Crash
  end.

Fixpoint ploop {V R} (fuel : nat) (body : V -> PM (V + R)) (v : V) : PM R :=
  match fuel with
  | O => perror NoFuel
  | S fuel => r ← body v; match r with inl v' => ploop fuel body v' | inr x => mret x end
  end.

(** One turn of the loop of [parseredirs]. *)
Definition redir_turn (cmd : nat) : PM (nat + nat) :=
  b ← peek (bytes_of "<>");
  if b : bool then
    t ← gettoken;
    x ← gettoken;
    let '(tok, _, _) := t in
    let '(a, q, eq) := x in
    if negb (a =? 97) then perror (Syntax "missing file for redirection")
    else if tok =? 60 then cmd ← redircmd cmd q eq O_RDONLY 0; mret (inl cmd)
    else if tok =? 62 then cmd ← redircmd cmd q eq (Z.lor O_WRONLY O_CREATE) 1; mret (inl cmd)
    else if tok =? 43 then cmd ← redircmd cmd q eq (Z.lor O_WRONLY O_CREATE) 1; mret (inl cmd)
    else mret (inl cmd)
  else mret (inr cmd).

(** [struct cmd* parseredirs(struct cmd *cmd, char **ps, char *es)] *)
Definition parseredirs (cmd : nat) : PM nat := ploop (S es) redir_turn cmd.

(** One turn of the loop of [parseexec] that reads the arguments of [cmd]: [ret] and [argc]. *)
Definition arg_turn (cmd : nat) (v : nat * nat) : PM (nat * nat + nat * nat) :=
  let '(ret, argc) := v in
  b ← peek (bytes_of "|)&;");
  if b : bool then mret (inr (ret, argc))
  else
    x ← gettoken;
    let '(tok, q, eq) := x in
    if tok =? 0 then mret (inr (ret, argc))
    else if negb (tok =? 97) then perror (Syntax "syntax")
    else
      set_arg cmd argc (Some q) (Some eq);;
      if (MAXARGS <=? S argc)%nat then perror (Syntax "too many args")
      else
        ret ← parseredirs ret;
        mret (inl (ret, S argc)).
Definition parseargs (cmd ret : nat) : PM (nat * nat) := ploop (S es) (arg_turn cmd) (ret, 0%nat).

(** One turn of the loop of [parseline] over [&]. *)
Definition back_turn (cmd : nat) : PM (nat + nat) :=
  b ← peek (bytes_of "&");
  if b : bool then gettoken;; cmd ← backcmd cmd; mret (inl cmd) else mret (inr cmd).

(** [parseline], [parsepipe], [parseexec] and [parseblock]; [fuel] bounds the depth of their calls. *)
Fixpoint parseline (fuel : nat) : PM nat :=
  match fuel with
  | O => perror NoFuel
  | S fuel =>
    cmd ← parsepipe fuel;
    cmd ← ploop (S es) back_turn cmd;
    b ← peek (bytes_of ";");
    if b : bool then
      gettoken;;
      rest ← parseline fuel;
      listcmd cmd rest
    else mret cmd
  end
with parsepipe (fuel : nat) : PM nat :=
  match fuel with
  | O => perror NoFuel
  | S fuel =>
    cmd ← parseexec fuel;
    b ← peek (bytes_of "|");
    if b : bool then
      gettoken;;
      rest ← parsepipe fuel;
      pipecmd cmd rest
    else mret cmd
  end
with parseexec (fuel : nat) : PM nat :=
  match fuel with
  | O => perror NoFuel
  | S fuel =>
    b ← peek (bytes_of "(");
    if b : bool then parseblock fuel
    else
      cmd ← execcmd;
      ret ← parseredirs cmd;
      x ← parseargs cmd ret;
      let '(ret, argc) := x in
      set_arg cmd argc None None;;
      mret ret
  end
with parseblock (fuel : nat) : PM nat :=
  match fuel with
  | O => perror NoFuel
  | S fuel =>
    b ← peek (bytes_of "(");
    if negb b then perror (Syntax "parseblock")
    else
      gettoken;;
      cmd ← parseline fuel;
      b ← peek (bytes_of ")");
      if negb b then perror (Syntax "syntax - missing )")
      else
        gettoken;;
        parseredirs cmd
  end.
End parser.

(** ** After parsing *)

(** [for(i=0; ecmd->argv[i]; i++) *ecmd->eargv[i] = 0;], from [i] on. *)
Fixpoint terminate_args (argv eargv : list (option nat)) (i k : nat) (buf : list Z) : option (list Z) :=
  match k with
  | O => None
  | S k =>
    a ← argv !! i;
    match a with
    | None => Some buf
    | Some _ => e ← eargv !! i; e ← e; buf ← put buf e 0; terminate_args argv eargv (S i) k buf
    end
  end.

(** [struct cmd *nulterminate(struct cmd *cmd)]: it writes a NUL after every string of the tree. *)
Fixpoint nulterminate (fuel : nat) (nodes : list node) (cmd : nat) (buf : list Z) : option (list Z) :=
  match fuel with
  | O => None
  | S fuel =>
    n ← nodes !! cmd;
    match n with
    | EXEC argv eargv =>
      terminate_args argv eargv 0 (S MAXARGS) buf
    | REDIR c _ efile _ _ => buf ← nulterminate fuel nodes c buf; put buf efile 0
    | PIPE l r => buf ← nulterminate fuel nodes l buf; nulterminate fuel nodes r buf
    | LIST l r => buf ← nulterminate fuel nodes l buf; nulterminate fuel nodes r buf
    | BACK c => nulterminate fuel nodes c buf
    end
  end.

(** What a command line is parsed to: the buffer with its strings terminated, the commands and the first of
    them; or an error, with the text that was left over. *)
Inductive presult :=
  | Parsed (buf : list Z) (nodes : list node) (cmd : nat)
  | Leftovers (s : nat)
  | Failed (e : perr).

(** [struct cmd* parsecmd(char *s)], up to what it prints. *)
Definition parse_line (room : nat) (buf : list Z) : presult :=
  match strlen buf with
  | None => Failed Crash
  | Some len =>
    let es := Z.to_nat len in
    match (cmd ← parseline buf es room (4 * S es); peek buf es (bytes_of "");; s ← pos; mret (cmd, s)) (mkpst 0 []) with
    | inl e => Failed e
    | inr (cmd, s, st) =>
      if negb (s =? es)%nat then Leftovers s
      else match nulterminate (S (length (ps_nodes st))) (ps_nodes st) cmd buf with
           | Some buf => Parsed buf (ps_nodes st) cmd
           | None => Failed Crash
           end
    end
  end.

Section shell.
Context {WO : World} (room : nat).

(** [void panic(char *s)] *)
Definition upanic {A} (s : string) : U A := fprintf 2 "%s\n" [AStr (Some (lit s))];; uexit 1.

(** [int fork1(void)] *)
Definition fork1 : U Z :=
  pid ← scall Ufork;
  if pid =? -1 then upanic "fork" else mret pid.

(** [struct cmd* parsecmd(char *s)] *)
Definition parsecmd (s : list Z) : U (list Z * list node * nat) :=
  match parse_line room s with
  | Parsed buf nodes cmd => mret (buf, nodes, cmd)
  | Leftovers p => fprintf 2 "leftovers: %s\n" [AStr (Some (drop p s))];; upanic "syntax"
  | Failed (Syntax msg) => upanic msg
  | Failed Crash => ucrash
  | Failed NoFuel => fun _ => Unfinished
  end.

(** The strings of [argv], up to the null pointer. *)
Fixpoint args_of (buf : list Z) (argv : list (option nat)) : list (list Z) :=
  match argv with
  | Some q :: argv => drop q buf :: args_of buf argv
  | _ => []
  end.

(** [void runcmd(struct cmd *cmd)]: it never returns. *)
Fixpoint runcmd (fuel : nat) (buf : list Z) (nodes : list node) (cmd : nat) : U unit :=
  match fuel with
  | O => fun _ => Unfinished
  | S fuel =>
    n ← access (nodes !! cmd);
    match n with
    | EXEC argv _ =>
      match args_of buf argv with
      | [] => uexit 1
      | a :: _ =>
        scall (Uexec a (args_of buf argv));;
        fprintf 2 "exec %s failed\n" [AStr (Some a)]
      end
    | REDIR c file _ mode fd =>
      scall (Uclose fd);;
      r ← scall (Uopen (drop file buf) mode);
      if r <? 0 then fprintf 2 "open %s failed\n" [AStr (Some (drop file buf))];; uexit 1
      else runcmd fuel buf nodes c
    | LIST l r =>
      pid ← fork1;
      (if pid =? 0 then runcmd fuel buf nodes l else mret tt);;
      scall Uwait;;
      runcmd fuel buf nodes r
    | PIPE l r =>
      x ← call Upipe;
      if x.1 <? 0 then upanic "pipe"
      else
        let p0 := load 4 0 x.2 in
        let p1 := load 4 4 x.2 in
        pid ← fork1;
        (if pid =? 0 then
           scall (Uclose 1);; scall (Udup p1);; scall (Uclose p0);; scall (Uclose p1);; runcmd fuel buf nodes l
         else mret tt);;
        pid ← fork1;
        (if pid =? 0 then
           scall (Uclose 0);; scall (Udup p0);; scall (Uclose p0);; scall (Uclose p1);; runcmd fuel buf nodes r
         else mret tt);;
        scall (Uclose p0);;
        scall (Uclose p1);;
        scall Uwait;;
        scall Uwait;;
        mret tt
    | BACK c =>
      pid ← fork1;
      if pid =? 0 then runcmd fuel buf nodes c else mret tt
    end;;
    uexit 0
  end.

(** [int getcmd(char *buf, int nbuf)] *)
Definition getcmd (buf : list Z) (nbuf : Z) : U (Z * list Z) :=
  fprintf 2 "$ " [];;
  buf ← access (memset buf 0 0 (Z.to_nat nbuf));
  buf ← gets buf nbuf;
  c ← access (buf !! 0%nat);
  mret (if c =? 0 then -1 else 0, buf).

(** The loop of [main] that runs commands; it ends at the end of the input. *)
Definition sh_loop (fuel : nat) (buf : list Z) : U unit :=
  uloop fuel (fun buf =>
    x ← getcmd buf 100;
    let '(r, buf) := x in
    if r <? 0 then mret (inr tt)
    else
      c0 ← access (buf !! 0%nat);
      c1 ← access (buf !! 1%nat);
      c2 ← access (buf !! 2%nat);
      if (c0 =? 99) && (c1 =? 100) && (c2 =? 32) then
        len ← access (strlen buf);
        buf ← access (put buf (Z.to_nat (len - 1)) 0);
        r ← scall (Uchdir (drop 3 buf));
        (if r <? 0 then fprintf 2 "cannot cd %s\n" [AStr (Some (drop 3 buf))] else mret tt);;
        mret (inl buf)
      else
        pid ← fork1;
        (if pid =? 0 then
           x ← parsecmd buf;
           let '(buf, nodes, cmd) := x in
           runcmd (S (length nodes)) buf nodes cmd
         else mret tt);;
        scall Uwait;;
        mret (inl buf)) buf.

(** [int main(void)] *)
Definition sh_main (fuel : nat) : U unit :=
  uloop fuel (fun _ : unit =>
    fd ← scall (Uopen (lit "console") O_RDWR);
    if 0 <=? fd then
      if 3 <=? fd then scall (Uclose fd);; mret (inr tt) else mret (inl tt)
    else mret (inr tt)) tt;;
  sh_loop fuel (replicate 100 0);;
  uexit 0.
End shell.

(** ** Reasoning about the parser *)

(** [pwp m Q E s]: from [s], [m] returns with a value and a state in [Q], or gives up for a reason in [E]. *)
Definition pwp {A} (m : PM A) (Q : A -> pst -> Prop) (E : perr -> Prop) (s : pst) : Prop :=
  match m s with inl e => E e | inr (a, s') => Q a s' end.

Lemma pwp_ret {A} (a : A) Q E s : Q a s -> pwp (mret a) Q E s.
Proof. done. Qed.

Lemma pwp_bind {A B} (m : PM A) (f : A -> PM B) Q E s :
  pwp m (fun a s' => pwp (f a) Q E s') E s -> pwp (m ≫= f) Q E s.
Proof. unfold pwp, mbind, PM_bind. by destruct (m s) as [|[??]]. Qed.

Lemma pwp_mono {A} (m : PM A) (Q Q' : A -> pst -> Prop) E s :
  pwp m Q E s -> (forall a s', Q a s' -> Q' a s') -> pwp m Q' E s.
Proof. unfold pwp. destruct (m s) as [|[??]]; auto. Qed.

Lemma pwp_get {A} (o : option A) a Q E s : o = Some a -> Q a s -> pwp (pget o) Q E s.
Proof. by intros ->. Qed.

Lemma pwp_pos Q E s : Q (ps_pos s) s -> pwp pos Q E s.
Proof. done. Qed.

Lemma pwp_set_pos n Q E s : Q tt (s <| ps_pos := n |>) -> pwp (set_pos n) Q E s.
Proof. done. Qed.

Lemma pwp_error {A} e Q E s : E e -> pwp (@perror A e) Q E s.
Proof. done. Qed.

Lemma pwp_ploop {V R} (I : V -> pst -> Prop) (mu : V -> pst -> nat) (body : V -> PM (V + R)) Q E fuel v s :
  I v s -> (mu v s < fuel)%nat ->
  (forall v s, I v s -> pwp (body v) (fun r s' => match r with
                                      | inl v' => I v' s' /\ (mu v' s' < mu v s)%nat
                                      | inr x => Q x s' end) E s) ->
  pwp (ploop fuel body v) Q E s.
Proof.
  intros HI Hf Hstep. revert v s HI Hf. induction fuel as [|fuel IH]; intros v s HI Hf; [lia|]; simpl.
  apply pwp_bind. eapply pwp_mono; [by apply Hstep|].
  intros [v'|x] s'; [intros [HI' ?]; apply IH; [done|lia]|apply pwp_ret].
Qed.

Lemma pwp_set_arg cmd i q eq argv eargv Q E s : ps_nodes s !! cmd = Some (EXEC argv eargv) -> (i < MAXARGS)%nat ->
  Q tt (s <| ps_nodes ::= <[cmd := EXEC (<[i := q]> argv) (<[i := eq]> eargv)]> |>) -> pwp (set_arg cmd i q eq) Q E s.
Proof. intros Hl Hi HQ. unfold pwp, set_arg. rewrite Hl. by destruct (Nat.ltb_spec i MAXARGS); [|lia]. Qed.

Ltac pstep :=
  repeat match goal with
    | |- pwp (mret _) _ _ _ => apply pwp_ret; cbv beta iota
    | |- pwp (_ ≫= _) _ _ _ => apply pwp_bind; cbv beta iota
    | |- pwp pos _ _ _ => apply pwp_pos
    | |- pwp (set_pos _) _ _ _ => apply pwp_set_pos
    | H : ?o = Some _ |- pwp (pget ?o) _ _ _ => apply (pwp_get _ _ _ _ _ H)
    end.

Section tokens.
Context (text junk : list Z) (Htext : Forall (fun c => c <> 0) text).
Abbreviation buf := (text ++ 0 :: junk).
Abbreviation es := (length text).

Lemma buf_lookup s : (s <= es)%nat -> exists c, buf !! s = Some c /\ (c = 0 <-> s = es).
Proof.
  intros Hs. destruct (decide (s = es)) as [->|Hne].
  - exists 0. rewrite list_lookup_middle by done. done.
  - destruct (lookup_lt_is_Some_2 text s) as [c Hc]; [lia|]. exists c. rewrite lookup_app_l by lia.
    split; [done|]. rewrite Forall_lookup in Htext. specialize (Htext _ _ Hc). naive_solver.
Qed.

Lemma skip_spec f s : (s <= es)%nat -> exists s' c, skip buf f (es - s) s = Some s' /\ (s <= s' <= es)%nat /\
  buf !! s' = Some c /\ (s' = es \/ f c = false) /\ (forall i x, (s <= i < s')%nat -> buf !! i = Some x -> f x = true).
Proof.
  remember (es - s)%nat as n eqn:Hn. revert s Hn. induction n as [|n IH]; intros s Hn Hs; simpl.
  - destruct (buf_lookup s Hs) as (c & Hc & _). exists s, c. split_and!; done || lia || (left; lia) || (intros; lia).
  - destruct (buf_lookup s Hs) as (c & Hc & _). rewrite Hc. simpl. destruct (f c) eqn:Ef.
    + destruct (IH (S s)) as (s' & c' & E & Hb & Hc' & Hend & Hall); [lia|lia|]. exists s', c'. split_and!; try (done || lia).
      intros i x Hi Hx. destruct (decide (i = s)) as [->|]; [congruence|]. apply (Hall i x); [lia|done].
    + exists s, c. split_and!; done || lia || (by right) || (intros; lia).
Qed.

Definition syntax_error (e : perr) : Prop := exists msg, e = Syntax msg.

(** [peek] moves to the next character that is not white space and tells whether it is one of [toks]. *)
Lemma pwp_peek toks Q E st : (ps_pos st <= es)%nat ->
  (forall s c, (ps_pos st <= s <= es)%nat -> buf !! s = Some c -> is_in whitespace c = false ->
     Q (negb (c =? 0) && is_in toks c) (st <| ps_pos := s |>)) ->
  pwp (peek buf es toks) Q E st.
Proof.
  intros Hp HQ. unfold peek. destruct (skip_spec (is_in whitespace) _ Hp) as (s & c & Hs & Hb & Hc & Hend & _).
  pstep. apply (HQ s c); [lia|done|]. destruct Hend as [->|Hf]; [|done].
  rewrite list_lookup_middle in Hc by done. by simplify_eq.
Qed.

(** [gettoken] consumes something unless it is at the end of the line. *)
Lemma pwp_gettoken Q E st : (ps_pos st <= es)%nat ->
  (forall ret q eq s, (ps_pos st <= q <= eq)%nat -> (eq <= s <= es)%nat -> (ret = 0 -> q = es) ->
     (ret <> 0 -> (q < eq)%nat) -> Q (ret, q, eq) (st <| ps_pos := s |>)) ->
  pwp (gettoken buf es) Q E st.
Proof.
  intros Hp HQ. unfold gettoken. destruct (skip_spec (is_in whitespace) _ Hp) as (q & c & Hs & Hb & Hc & Hend & _).
  destruct (buf_lookup q) as (c' & Hc' & Hc0); [lia|]. simplify_eq.
  assert (forall ret eq, (q <= eq <= es)%nat -> (ret = 0 -> q = es) -> (ret <> 0 -> (q < eq)%nat) ->
    pwp (pget (skip buf (is_in whitespace) (es - eq) eq)) (fun s st => pwp (set_pos s;; mret (ret, q, eq)) Q E st) E st) as Hfin.
  { intros ret eq Heq H0 H1. destruct (skip_spec (is_in whitespace) eq) as (s & d & Hs2 & Hb2 & _); [lia|].
    pstep. apply HQ; done || lia. }
  pstep. destruct (Z.eqb_spec c 0) as [->|Hnz].
  { pstep. apply Hfin; [lia|tauto|done]. }
  assert (q < es)%nat as Hq by (destruct (decide (q = es)); [tauto|lia]).
  destruct (is_in (bytes_of "|();&<") c) eqn:Esym; [pstep; apply Hfin; done || lia|].
  destruct (Z.eqb_spec c 62) as [->|Hngt].
  - destruct (buf_lookup (S q)) as (d & Hd & Hd0); [lia|]. pstep. destruct (Z.eqb_spec d 62) as [->|].
    + pstep. assert (S q <> es) by (intros E0; apply Hd0 in E0; done). apply Hfin; done || lia.
    + pstep. apply Hfin; done || lia.
  - destruct Hend as [?|Hws]; [lia|].
    destruct (skip_spec (fun c => negb (is_in whitespace c) && negb (is_in symbols c)) q) as (s & d & Hs2 & Hb2 & Hd & Hend2 & _); [lia|].
    pstep. assert (q <> s).
    { intros <-. assert (d = c) as -> by congruence. destruct Hend2 as [?|Hf]; [lia|]. rewrite Hws in Hf. simpl in Hf.
      assert (is_in symbols c = true) as Hin by (by destruct (is_in symbols c)).
      unfold is_in in Hin, Esym. rewrite bool_decide_eq_true in Hin. rewrite bool_decide_eq_false in Esym.
      apply Esym. change (bytes_of "|();&<") with [124; 40; 41; 59; 38; 60].
      change symbols with [60; 124; 62; 38; 59; 40; 41] in Hin. set_solver. }
    apply Hfin; done || lia.
Qed.
End tokens.

(** ** Every line is parsed or refused *)

(** A command refers to older commands and to places in the line, and its arguments end with a null pointer. *)
Definition node_ok (es i : nat) (n : node) : Prop :=
  match n with
  | EXEC argv eargv => length argv = MAXARGS /\ length eargv = MAXARGS /\
      (exists j, argv !! j = Some None) /\
      (forall j q, argv !! j = Some (Some q) -> exists e, eargv !! j = Some (Some e) /\ (e <= es)%nat)
  | REDIR c _ e _ _ => (c < i)%nat /\ (e <= es)%nat
  | PIPE l r | LIST l r => (l < i)%nat /\ (r < i)%nat
  | BACK c => (c < i)%nat
  end.
Definition nodes_ok (es : nat) (l : list node) : Prop := forall i n, l !! i = Some n -> node_ok es i n.

Lemma nodes_ok_snoc es l n : nodes_ok es l -> node_ok es (length l) n -> nodes_ok es (l ++ [n]).
Proof. intros Hl Hn i x Hi. apply lookup_snoc_Some in Hi as [[_ Hi]|[-> <-]]; auto. Qed.

Lemma nodes_ok_insert es l i n : nodes_ok es l -> node_ok es i n -> nodes_ok es (<[i := n]> l).
Proof. intros Hl Hn j x Hj. apply list_lookup_insert_Some in Hj as [(-> & -> & _)|[_ Hj]]; auto. Qed.

Section safe.
Context (text junk : list Z) (Htext : Forall (fun c => c <> 0) text) (room : nat).
Abbreviation buf := (text ++ 0 :: junk).
Abbreviation es := (length text).

(** How far the parser has come since [st], having built at most two commands for each character and [k] more. *)
Record grew (k : nat) (st st' : pst) : Prop := {
  gw_pos : (ps_pos st <= ps_pos st' <= es)%nat;
  gw_nodes : ps_nodes st `prefix_of` ps_nodes st';
  gw_ok : nodes_ok es (ps_nodes st');
  gw_count : (length (ps_nodes st') <= length (ps_nodes st) + 2 * (ps_pos st' - ps_pos st) + k)%nat
}.

Record fits (st : pst) : Prop := {
  ft_pos : (ps_pos st <= es)%nat;
  ft_ok : nodes_ok es (ps_nodes st);
  ft_room : (length (ps_nodes st) + 2 * (es - ps_pos st) < room)%nat
}.

Lemma grew_refl st : fits st -> grew 0 st st.
Proof. intros [Hp Hok _]. split; try done; lia. Qed.

Lemma grew_weaken k k' st st' : (k <= k')%nat -> grew k st st' -> grew k' st st'.
Proof. intros Hk [? ? ? ?]. split; try done. lia. Qed.

Lemma grew_skip k st st' s : grew k st st' -> (ps_pos st' <= s <= es)%nat -> grew k st (st' <| ps_pos := s |>).
Proof. intros [? ? ? ?] Hs. split; simpl; try done; lia. Qed.

(** A new command, paid for by what was read before it. *)
Lemma pwp_new_cmd k st0 st n Q E : grew k st0 st -> (length (ps_nodes st) < room)%nat ->
  node_ok es (length (ps_nodes st)) n ->
  (forall st', ps_nodes st' = ps_nodes st ++ [n] -> grew (S k) st0 st' -> ps_pos st' = ps_pos st ->
     Q (length (ps_nodes st)) st') ->
  pwp (new_cmd room n) Q E st.
Proof.
  intros [Hp Hn Hok Hc] Hr Hno HQ. unfold pwp, new_cmd. destruct (Nat.ltb_spec (length (ps_nodes st)) room); [|lia].
  apply HQ; [done| |done]. split; simpl; try done; try lia.
  - by apply prefix_app_r.
  - by apply nodes_ok_snoc.
  - rewrite length_app. simpl. lia.
Qed.

Lemma peeked st s toks c : buf !! s = Some c -> (ps_pos st <= s <= es)%nat -> negb (c =? 0) && is_in toks c = true -> (s < es)%nat.
Proof.
  intros Hc Hs Hb. apply andb_true_iff in Hb as [Hb _]. apply negb_true_iff, Z.eqb_neq in Hb.
  destruct (buf_lookup text junk Htext s) as (c' & Hc' & H0); [lia|]. simplify_eq. destruct (decide (s = es)); [tauto|lia].
Qed.

(** [gettoken] before the end of the line moves on. *)
Lemma pwp_token k st0 st Q E : grew k st0 st -> (ps_pos st < es)%nat ->
  (forall ret q eq s, (ps_pos st < s <= es)%nat -> (eq <= es)%nat -> (ret <> 0 -> (q < eq)%nat /\ (ps_pos st <= q)%nat) ->
     grew k st0 (st <| ps_pos := s |>) -> Q (ret, q, eq) (st <| ps_pos := s |>)) ->
  pwp (gettoken buf es) Q E st.
Proof.
  intros Hg Hp HQ. apply (pwp_gettoken text junk Htext); [lia|]. intros ret q eq s H1 H2 H3 H4.
  assert (ps_pos st < s)%nat by (destruct (decide (ret = 0)) as [E0|E0]; [specialize (H3 E0)|specialize (H4 E0)]; lia).
  apply HQ; [lia|lia|intros; split; [by apply H4|lia]|]. apply grew_skip; [done|lia].
Qed.

Lemma parseredirs_safe k st0 st cmd Q : fits st0 -> grew k st0 st -> (k <= 1)%nat -> (cmd < length (ps_nodes st))%nat ->
  (forall cmd' st', grew k st0 st' -> ps_nodes st `prefix_of` ps_nodes st' -> (ps_pos st <= ps_pos st')%nat ->
     (cmd' < length (ps_nodes st'))%nat -> Q cmd' st') ->
  pwp (parseredirs buf es room cmd) Q syntax_error st.
Proof.
  intros Hf Hg Hk Hc HQ. unfold parseredirs.
  apply (pwp_ploop (fun cmd st' => grew k st0 st' /\ ps_nodes st `prefix_of` ps_nodes st' /\ (ps_pos st <= ps_pos st')%nat /\
    (cmd < length (ps_nodes st'))%nat) (fun _ st' => (es - ps_pos st')%nat)); [split_and!; done|lia|].
  clear cmd Hc. intros cmd st1 (Hg1 & Hpre & Hpos & Hc). unfold redir_turn. apply pwp_bind. apply (pwp_peek text junk Htext); [apply Hg1|].
  intros s c Hs Hcs _. destruct (negb (c =? 0) && is_in _ c) eqn:Eb; [|pstep; apply HQ; simpl; try done; [by apply grew_skip|lia]].
  pose proof (peeked st1 s _ c Hcs Hs Eb) as Hlt. pose proof (gw_pos _ _ _ Hg1).
  assert (grew k st0 (st1 <| ps_pos := s |>)) as Hg2 by (by apply grew_skip).
  apply pwp_bind. apply (pwp_token k st0); [done|done|]. intros tok q0 eq0 s1 Hs1 _ _ Hg3. simpl in Hs1.
  apply pwp_bind. apply (pwp_gettoken text junk Htext); [simpl; lia|]. intros a q eq s2 H1 H2 H3 H4. simpl in H1.
  destruct (Z.eqb_spec a 97) as [->|]; simpl; [|by eexists]. specialize (H4 ltac:(done)).
  assert (grew k st0 (st1 <| ps_pos := s |> <| ps_pos := s1 |> <| ps_pos := s2 |>)) as Hg4 by (apply grew_skip; [done|simpl; lia]).
  destruct Hf as [Hf1 _ Hf3]. pose proof (gw_count _ _ _ Hg1) as Hcnt.
  assert (forall mode fd, pwp (cmd' ← redircmd room cmd q eq mode fd; mret (inl cmd'))
    (fun r s' => match r with inl v => (grew k st0 s' /\ ps_nodes st `prefix_of` ps_nodes s' /\ (ps_pos st <= ps_pos s')%nat /\
      (v < length (ps_nodes s'))%nat) /\ (es - ps_pos s' < es - ps_pos st1)%nat | inr x => Q x s' end) syntax_error
    (st1 <| ps_pos := s |> <| ps_pos := s1 |> <| ps_pos := s2 |>)) as Hnew.
  { intros mode fd. apply pwp_bind. apply (pwp_new_cmd k st0); [done|simpl; lia|simpl; lia|].
    intros st' Hn Hg' Hp'. pstep. simpl in Hn, Hp'. rewrite Hn, Hp', length_app. simpl. split_and!; try lia.
    - destruct Hg' as [P1 P2 P3 P4]. split; try done. rewrite Hn, Hp', length_app in *. simpl. lia.
    - by apply prefix_app_r. }
  destruct (tok =? 60); [apply Hnew|]. destruct (tok =? 62); [apply Hnew|]. destruct (tok =? 43); [apply Hnew|].
  pstep. simpl. split_and!; done || lia.
Qed.

(** The command being filled in: its arguments from [argc] on are null. *)
Definition filling (cmd argc : nat) (l : list node) : Prop :=
  exists argv eargv, l !! cmd = Some (EXEC argv eargv) /\ (argc < MAXARGS)%nat /\
    forall j, (argc <= j < MAXARGS)%nat -> argv !! j = Some None.

Lemma filling_prefix cmd argc l l' : l `prefix_of` l' -> filling cmd argc l -> filling cmd argc l'.
Proof. intros Hp (a & e & Hl & H). exists a, e. split; [by eapply prefix_lookup_Some|done]. Qed.

(** Storing an argument keeps the commands well formed unless it is the last one there is room for. *)
Lemma set_arg_ok l cmd argc q eq argv eargv : nodes_ok es l -> l !! cmd = Some (EXEC argv eargv) -> (eq <= es)%nat ->
  (S argc < MAXARGS)%nat -> (forall j, (argc <= j < MAXARGS)%nat -> argv !! j = Some None) ->
  nodes_ok es (<[cmd := EXEC (<[argc := Some q]> argv) (<[argc := Some eq]> eargv)]> l) /\
  filling cmd (S argc) (<[cmd := EXEC (<[argc := Some q]> argv) (<[argc := Some eq]> eargv)]> l).
Proof.
  intros Hok Hl Heq Hargc Hnone. destruct (Hok _ _ Hl) as (L1 & L2 & _ & L4). split.
  - apply nodes_ok_insert; [done|]. simpl. rewrite !length_insert. split_and!; try done.
    + exists (S argc). rewrite list_lookup_insert_ne by lia. apply Hnone. lia.
    + intros j x Hj. destruct (decide (j = argc)) as [->|Hne].
      * rewrite list_lookup_insert_eq in * by lia. exists eq. by simplify_eq.
      * rewrite list_lookup_insert_ne in * by done. eauto.
  - eexists _, _. split; [apply list_lookup_insert_eq; by eapply lookup_lt_Some|]. split; [done|].
    intros j Hj. rewrite list_lookup_insert_ne by lia. apply Hnone. lia.
Qed.

Lemma grew_insert k st0 st cmd n : grew k st0 st -> (length (ps_nodes st0) <= cmd)%nat ->
  nodes_ok es (<[cmd := n]> (ps_nodes st)) -> grew k st0 (st <| ps_nodes ::= <[cmd := n]> |>).
Proof.
  intros [P1 [l Hl] P3 P4] Hc Hok. split; simpl; try done; [|by rewrite length_insert].
  rewrite Hl, insert_app_r_alt by done. by apply prefix_app_r.
Qed.

Lemma parseargs_safe st0 st cmd ret Q : fits st0 -> grew 1 st0 st -> (length (ps_nodes st0) <= cmd)%nat ->
  filling cmd 0 (ps_nodes st) -> (ret < length (ps_nodes st))%nat ->
  (forall ret' argc st', grew 1 st0 st' -> filling cmd argc (ps_nodes st') -> (ret' < length (ps_nodes st'))%nat -> Q (ret', argc) st') ->
  pwp (parseargs buf es room cmd ret) Q syntax_error st.
Proof.
  intros Hf Hg Hcmd Hfill Hret HQ. unfold parseargs.
  apply (pwp_ploop (fun '(ret, argc) st' => grew 1 st0 st' /\ filling cmd argc (ps_nodes st') /\ (ret < length (ps_nodes st'))%nat)
    (fun _ st' => (es - ps_pos st')%nat)); [done|lia|].
  clear st Hg Hfill Hret ret. intros [ret argc] st (Hg & Hfill & Hret). pose proof (gw_pos _ _ _ Hg). unfold arg_turn.
  apply pwp_bind. apply (pwp_peek text junk Htext); [lia|]. intros s c Hs Hcs _.
  destruct (negb (c =? 0) && is_in _ c); [pstep; apply HQ; [by apply grew_skip|done|done]|].
  apply pwp_bind. apply (pwp_gettoken text junk Htext); [simpl; lia|]. cbn [ps_pos set]. intros tok q eq s1 H1 H2 H3 H4.
  destruct (Z.eqb_spec tok 0) as [->|Hnz].
  { pstep. apply HQ; [|done|done]. apply grew_skip; [by apply grew_skip|simpl; lia]. }
  destruct (Z.eqb_spec tok 97) as [->|]; cbn [negb]; [|by eexists]. specialize (H4 Hnz).
  destruct Hfill as (argv & eargv & Hl & Hargc & Hnone). apply pwp_bind. apply (pwp_set_arg _ _ _ _ argv eargv); [done|done|].
  destruct (Nat.leb_spec MAXARGS (S argc)); [by eexists|].
  destruct (set_arg_ok _ cmd argc q eq argv eargv (gw_ok _ _ _ Hg) Hl) as [Hok' Hfill']; [lia|done|done|].
  assert (grew 1 st0 (st <| ps_pos := s |> <| ps_pos := s1 |> <| ps_nodes ::= <[cmd := EXEC (<[argc := Some q]> argv) (<[argc := Some eq]> eargv)]> |>)) as Hg'.
  { apply grew_insert; [|done|done]. apply grew_skip; [by apply grew_skip|simpl; lia]. }
  apply pwp_bind. eapply (parseredirs_safe 1 st0); [done|exact Hg'|lia|simpl; rewrite length_insert; lia|].
  intros ret' st' Hg2 Hpre Hpos Hr'. pstep. split; [|simpl in Hpos; lia].
  split; [done|]. split; [|done]. eapply filling_prefix; [exact Hpre|]. exact Hfill'.
Qed.

(** A character read pays for two commands. *)
Lemma grew_paid st st1 s : grew 1 st st1 -> (ps_pos st1 < s <= es)%nat -> grew 0 st (st1 <| ps_pos := s |>).
Proof. intros [P1 P2 P3 P4] Hs. split; simpl; try done; lia. Qed.

Lemma fits_grew st st' : fits st -> grew 0 st st' -> fits st'.
Proof. intros [F1 F2 F3] [P1 P2 P3 P4]. split; [lia|done|lia]. Qed.

Lemma grew_trans a b st st1 st2 : grew a st st1 -> grew b st1 st2 -> grew (a + b) st st2.
Proof. intros [P1 P2 P3 P4] [R1 R2 R3 R4]. split; [lia|by etrans|done|lia]. Qed.

Definition parses (m : PM nat) (st : pst) : Prop :=
  pwp m (fun cmd st' => grew 1 st st' /\ (cmd < length (ps_nodes st'))%nat) syntax_error st.

(** The tail [op rest] of a list or a pipe. *)
Lemma parse_rest st st1 toks cmd (rest : PM nat) (join : nat -> nat -> node) :
  fits st -> grew 1 st st1 -> (cmd < length (ps_nodes st1))%nat ->
  (forall i l r, (l < i)%nat -> (r < i)%nat -> node_ok es i (join l r)) ->
  (forall st2, fits st2 -> (ps_pos st1 < ps_pos st2)%nat -> parses rest st2) ->
  pwp (b ← peek buf es toks;
       if b : bool then gettoken buf es;; r ← rest; new_cmd room (join cmd r) else mret cmd)
    (fun cmd st' => grew 1 st st' /\ (cmd < length (ps_nodes st'))%nat) syntax_error st1.
Proof.
  intros Hf Hg Hc Hjoin Hrest. pose proof (gw_pos _ _ _ Hg). apply pwp_bind. apply (pwp_peek text junk Htext); [lia|].
  intros s c Hs Hcs _. destruct (negb (c =? 0) && is_in _ c) eqn:Eb; [|pstep; split; [by apply grew_skip|done]].
  pose proof (peeked st1 s _ c Hcs Hs Eb) as Hlt. apply pwp_bind. apply (pwp_token 1 st); [by apply grew_skip|done|].
  intros tok q eq s1 Hs1 _ _ _. simpl in Hs1. assert (grew 0 st (st1 <| ps_pos := s1 |>)) as Hg2 by (apply grew_paid; [done|lia]).
  apply pwp_bind. eapply pwp_mono; [apply Hrest; [by eapply fits_grew|simpl; lia]|].
  intros r st3 [Hg3 Hr]. simpl. pose proof (gw_nodes _ _ _ Hg3) as Hpre. apply prefix_length in Hpre. simpl in Hpre.
  assert (grew 0 st st3) as Hg4.
  { destruct Hg as [P1 P2 P3 P4], Hg3 as [R1 R2 R3 R4]. simpl in *. split; [lia|by etrans|done|lia]. }
  apply (pwp_new_cmd 0 st); [done| |apply Hjoin; lia|].
  - destruct Hf as [F1 F2 F3], Hg4 as [P1 P2 P3 P4]. lia.
  - intros st' Hn Hg5 _. split; [done|]. rewrite Hn, length_app. simpl. lia.
Qed.

Lemma parse_backs st st1 cmd Q : fits st -> grew 1 st st1 -> (cmd < length (ps_nodes st1))%nat ->
  (forall cmd st', grew 1 st st' -> (ps_pos st1 <= ps_pos st')%nat -> (cmd < length (ps_nodes st'))%nat -> Q cmd st') ->
  pwp (ploop (S es) (back_turn buf es room) cmd) Q syntax_error st1.
Proof.
  intros Hf Hg Hc HQ. apply (pwp_ploop (fun cmd st' => grew 1 st st' /\ (ps_pos st1 <= ps_pos st')%nat /\ (cmd < length (ps_nodes st'))%nat)
    (fun _ st' => (es - ps_pos st')%nat)); [done|lia|].
  clear cmd Hc. intros cmd st2 (Hg2 & Hp2 & Hc). pose proof (gw_pos _ _ _ Hg2). unfold back_turn. apply pwp_bind.
  apply (pwp_peek text junk Htext); [lia|]. intros s c Hs Hcs _.
  destruct (negb (c =? 0) && is_in _ c) eqn:Eb; [|pstep; apply HQ; [by apply grew_skip|simpl; lia|done]].
  pose proof (peeked st2 s _ c Hcs Hs Eb) as Hlt. apply pwp_bind. apply (pwp_token 1 st); [by apply grew_skip|done|].
  intros tok q eq s1 Hs1 _ _ _. simpl in Hs1. assert (grew 0 st (st2 <| ps_pos := s1 |>)) as Hg3 by (apply grew_paid; [done|lia]).
  apply pwp_bind. apply (pwp_new_cmd 0 st); [done| |simpl; lia|].
  - destruct Hf as [F1 F2 F3], Hg3 as [P1 P2 P3 P4]. simpl in *. lia.
  - intros st' Hn Hg5 Hp5. pstep. simpl in Hn, Hp5. rewrite Hn, length_app. simpl. split_and!; done || lia.
Qed.

Lemma exec_node_ok i : node_ok es i (EXEC (replicate MAXARGS None) (replicate MAXARGS None)).
Proof.
  unfold node_ok. rewrite !length_replicate. split_and!; [done|done|exists 0%nat; by apply lookup_replicate_2; unfold MAXARGS; lia|].
  intros j q Hj. by apply lookup_replicate in Hj as [? _].
Qed.

Lemma parseexec_safe st fuel : fits st -> (forall st2, fits st2 -> (ps_pos st < ps_pos st2)%nat -> parses (parseline buf es room fuel) st2) ->
  parses (parseexec buf es room (S (S fuel))) st.
Proof.
  intros Hf Hline. pose proof (ft_pos _ Hf). unfold parses. simpl. apply pwp_bind. apply (pwp_peek text junk Htext); [done|].
  intros s c Hs Hcs _. assert (grew 0 st (st <| ps_pos := s |>)) as Hg by (apply grew_skip; [by apply grew_refl|done]).
  destruct (negb (c =? 0) && is_in _ c) eqn:Eb.
  - apply pwp_bind. apply (pwp_peek text junk Htext); [simpl; lia|]. intros s1 c1 Hs1 Hcs1 _. simpl in Hs1.
    destruct (negb (c1 =? 0) && is_in _ c1) eqn:Eb1; [|by eexists]. cbn [negb].
    pose proof (peeked st s1 _ c1 Hcs1 ltac:(lia) Eb1) as Hlt.
    apply pwp_bind. apply (pwp_token 0 st); [apply grew_skip; done|done|]. intros tok q eq s2 Hs2 _ _ Hg2. simpl in Hs2.
    apply pwp_bind. eapply pwp_mono; [apply Hline; [by eapply fits_grew|simpl; lia]|]. intros cmd st3 [Hg3 Hc].
    pose proof (gw_pos _ _ _ Hg3). simpl in *. apply pwp_bind. apply (pwp_peek text junk Htext); [lia|]. intros s4 c4 Hs4 Hcs4 _.
    destruct (negb (c4 =? 0) && is_in _ c4) eqn:Eb4; [|by eexists]. cbn [negb].
    pose proof (peeked st3 s4 _ c4 Hcs4 Hs4 Eb4) as Hlt4.
    assert (grew 1 st (st3 <| ps_pos := s4 |>)) as Hg4 by (apply grew_skip; [exact (grew_trans 0 1 _ _ _ Hg2 Hg3)|done]).
    apply pwp_bind. apply (pwp_token 1 st); [done|done|]. intros _ _ _ s5 Hs5 _ _ Hg5.
    apply (parseredirs_safe 1 st); [done|exact Hg5|lia|done|]. by intros cmd' st' ? _ _ ?.
  - apply pwp_bind. apply (pwp_new_cmd 0 st); [done| |apply exec_node_ok|].
    { destruct Hf as [F1 F2 F3]. simpl. lia. }
    intros st1 Hn Hg1 Hp1. simpl in Hn. apply pwp_bind.
    assert (filling (length (ps_nodes st)) 0 (ps_nodes st1)) as Hfill.
    { exists (replicate MAXARGS None), (replicate MAXARGS None). rewrite Hn, list_lookup_middle by done. split; [done|]. split; [unfold MAXARGS; lia|].
      intros j Hj. apply lookup_replicate_2. lia. }
    apply (parseredirs_safe 1 st); [done|done|lia|rewrite Hn, length_app; simpl; lia|]. intros ret st2 Hg2 Hpre _ Hret.
    apply pwp_bind. apply (parseargs_safe st); try done; [by eapply filling_prefix|].
    intros ret' argc st3 Hg3 (argv & eargv & Hl & Hargc & Hnone) Hret'. apply pwp_bind.
    apply (pwp_set_arg _ _ _ _ argv eargv); [done|done|]. pstep. split; [|simpl; by rewrite length_insert].
    apply grew_insert; [done|done|]. destruct (gw_ok _ _ _ Hg3 _ _ Hl) as (L1 & L2 & L3 & L4).
    apply nodes_ok_insert; [apply Hg3|]. simpl. rewrite !length_insert. split_and!; try done.
    + exists argc. apply list_lookup_insert_eq. unfold MAXARGS in *. lia.
    + intros j q Hj. destruct (decide (j = argc)) as [->|]; [rewrite list_lookup_insert_eq in Hj by (unfold MAXARGS in *; lia); done|].
      rewrite list_lookup_insert_ne in * by done. eauto.
Qed.

Lemma parse_safe fuel : forall st, fits st ->
  ((4 * (es - ps_pos st) + 4 <= fuel)%nat -> parses (parseline buf es room fuel) st) /\
  ((4 * (es - ps_pos st) + 3 <= fuel)%nat -> parses (parsepipe buf es room fuel) st) /\
  ((4 * (es - ps_pos st) + 2 <= fuel)%nat -> parses (parseexec buf es room fuel) st).
Proof.
  induction fuel as [fuel IH] using lt_wf_ind. intros st Hf.
  assert ((4 * (es - ps_pos st) + 2 <= fuel)%nat -> parses (parseexec buf es room fuel) st) as HC.
  { intros Hfu. destruct fuel as [|[|fuel]]; [lia|lia|]. apply parseexec_safe; [done|]. intros st2 Hf2 Hp2.
    pose proof (ft_pos _ Hf2). apply (IH fuel); [lia|done|lia]. }
  assert ((4 * (es - ps_pos st) + 3 <= fuel)%nat -> parses (parsepipe buf es room fuel) st) as HB.
  { intros Hfu. destruct fuel as [|fuel]; [lia|]. unfold parses. simpl. apply pwp_bind.
    eapply pwp_mono; [apply (IH fuel); [lia|exact Hf|lia]|]. intros cmd st1 [Hg1 Hc].
    apply (parse_rest st st1 _ cmd (parsepipe buf es room fuel) PIPE); try done.
    intros st2 Hf2 Hp2. pose proof (ft_pos _ Hf2). pose proof (gw_pos _ _ _ Hg1). apply (IH fuel); [lia|done|lia]. }
  split_and!; [|done|done]. intros Hfu. destruct fuel as [|fuel]; [lia|]. unfold parses. simpl. apply pwp_bind.
  eapply pwp_mono; [apply (IH fuel); [lia|exact Hf|lia]|]. intros cmd st1 [Hg1 Hc]. apply pwp_bind.
  apply (parse_backs st st1); try done. intros cmd' st2 Hg2 Hp2 Hc2.
  apply (parse_rest st st2 _ cmd' (parseline buf es room fuel) LIST); try done.
  intros st3 Hf3 Hp3. pose proof (ft_pos _ Hf3). pose proof (gw_pos _ _ _ Hg1). pose proof (gw_pos _ _ _ Hg2). apply (IH fuel); [lia|done|lia].
Qed.
End safe.

Lemma terminate_args_safe es argv eargv j k i buf :
  (forall j q, argv !! j = Some (Some q) -> exists e, eargv !! j = Some (Some e) /\ (e <= es)%nat) ->
  argv !! j = Some None -> (i <= j)%nat -> (j < i + k)%nat -> (es < length buf)%nat ->
  exists buf', terminate_args argv eargv i k buf = Some buf' /\ length buf' = length buf.
Proof.
  intros He Hj. revert i buf. induction k as [|k IH]; intros i buf Hi Hk Hb; [lia|]. simpl.
  destruct (lookup_lt_is_Some_2 argv i) as [a Ha]; [apply lookup_lt_Some in Hj; lia|]. rewrite Ha. simpl.
  destruct a as [q|]; [|by eexists]. destruct (He _ _ Ha) as (e & He' & Hle). rewrite He'. simpl. rewrite put_Some by lia. simpl.
  destruct (decide (i = j)) as [->|]; [congruence|].
  destruct (IH (S i) (<[e := 0]> buf)) as (buf' & -> & Hl); [lia|lia|rewrite length_insert; lia|].
  exists buf'. by rewrite Hl, length_insert.
Qed.

Lemma nulterminate_safe es nodes : nodes_ok es nodes -> forall fuel cmd buf, (cmd < length nodes)%nat -> (cmd < fuel)%nat ->
  (es < length buf)%nat -> exists buf', nulterminate fuel nodes cmd buf = Some buf' /\ length buf' = length buf.
Proof.
  intros Hok. induction fuel as [|fuel IH]; intros cmd buf Hc Hfu Hb; [lia|]. cbn [nulterminate].
  destruct (lookup_lt_is_Some_2 nodes cmd Hc) as [n Hn]. rewrite Hn. cbn [mbind option_bind]. pose proof (Hok _ _ Hn) as Hno.
  destruct n as [argv eargv|c f e m fd|l r|l r|c]; simpl in Hno.
  - destruct Hno as (L1 & L2 & [j Hj] & L4). apply (terminate_args_safe es argv eargv j); try done; [lia|].
    apply lookup_lt_Some in Hj. lia.
  - destruct (IH c buf) as (buf' & -> & Hl); [lia..|]. simpl. rewrite put_Some by lia. eexists. split; [done|].
    by rewrite length_insert.
  - destruct (IH l buf) as (buf' & -> & Hl); [lia..|]. simpl. destruct (IH r buf') as (buf2 & -> & Hl2); [lia..|]. exists buf2. split; [done|lia].
  - destruct (IH l buf) as (buf' & -> & Hl); [lia..|]. simpl. destruct (IH r buf') as (buf2 & -> & Hl2); [lia..|]. exists buf2. split; [done|lia].
  - apply IH; lia.
Qed.

Lemma strlen_text text junk : Forall (fun c => c <> 0) text -> strlen (text ++ 0 :: junk) = Some (Z.of_nat (length text)).
Proof.
  induction 1 as [|c text Hc _ IH]; [done|]. simpl. destruct (Z.eqb_spec c 0); [done|]. simpl. rewrite IH. simpl. f_equal. lia.
Qed.

(** [parsecmd] up to the check that nothing is left over. *)
Lemma parse_run room text junk : Forall (fun c => c <> 0) text -> (2 * length text < room)%nat ->
  pwp (cmd ← parseline (text ++ 0 :: junk) (length text) room (4 * S (length text)); peek (text ++ 0 :: junk) (length text) (bytes_of "");;
       s ← pos; mret (cmd, s))
    (fun x st' => (x.1 < length (ps_nodes st'))%nat /\ nodes_ok (length text) (ps_nodes st') /\ (x.2 <= length text)%nat)
    syntax_error (mkpst 0 []).
Proof.
  intros Ht Hr. apply pwp_bind. destruct (parse_safe text junk Ht room (4 * S (length text)) (mkpst 0 [])) as [H _].
  { split; simpl; [lia|intros i n Hi; by rewrite lookup_nil in Hi|lia]. }
  eapply pwp_mono; [apply H; simpl; lia|]. intros cmd st [Hg Hc]. pose proof (gw_pos _ _ _ _ Hg). apply pwp_bind.
  apply (pwp_peek text junk Ht); [lia|]. intros s c Hs _ _. pstep. simpl. split_and!; [done|apply Hg|lia].
Qed.

(** C27. Every command line is parsed in finite time without an access outside its buffer: the result is a tree of
    well-formed commands, a syntax error, or a complaint about left-over text; a line of [n] characters needs at
    most [2 * n + 1] commands. *)
Theorem parsecmd_total room text junk :
  Forall (fun c => c <> 0) text -> (2 * length text < room)%nat ->
  match parse_line room (text ++ 0 :: junk) with
  | Parsed buf nodes cmd => nodes_ok (length text) nodes /\ (cmd < length nodes)%nat /\ length buf = length (text ++ 0 :: junk)
  | Leftovers s => (s < length text)%nat
  | Failed e => syntax_error e
  end.
Proof.
  intros Ht Hr. unfold parse_line. rewrite strlen_text, Nat2Z.id by done. pose proof (parse_run room text junk Ht Hr) as Hm.
  set (m := _ ≫= _) in Hm |- *. unfold pwp in Hm. destruct (m (mkpst 0 [])) as [e|[[cmd s] st]]; [done|]. simpl in Hm. destruct Hm as (Hc & Hok & Hs).
  destruct (Nat.eqb_spec s (length text)); cbn [negb]; [|lia].
  destruct (nulterminate_safe _ _ Hok (S (length (ps_nodes st))) cmd (text ++ 0 :: junk)) as (buf' & -> & Hl); [done|lia|rewrite length_app; simpl; lia|].
  done.
Qed.

Lemma parsecmd_total_witness :
  let text := bytes_of "(ls < a; grep x* >> b) | wc & echo" in
  match parse_line 100 (text ++ 0 :: []) with
  | Parsed buf nodes cmd => nodes_ok (length text) nodes /\ (cmd < length nodes)%nat /\ length buf = length (text ++ [0])
  | Leftovers s => (s < length text)%nat
  | Failed e => syntax_error e
  end.
Proof.
  apply (parsecmd_total 100).
  - vm_compute. repeat constructor; discriminate.
  - vm_compute. lia.
Defined.
