(* ===== verification/Cmdline.v ===== *)
(** What the shell makes of a command line: the parser of [user/sh.c] against a grammar.

    A [line] is the abstract syntax of a command line; [spells] relates its tokens to the texts that spell it, with
    any white space, and [meaning] is the tree of commands it stands for.  [parse_line] turns every such
    text into that tree, with the words as C strings. *)
From S2P Require Import Prelude Types Cstring Printf User Ulib Shell.
From stdpp Require Import base numbers list gmap strings.
From Stdlib Require Import ZArith Lia.

Local Open Scope Z_scope.
Local Open Scope xv6_scope.

(** ** Tokens *)

Inductive tok := TWord (w : list Z) | TSym (c : Z) | TApp.

Definition wordchar (c : Z) : Prop := c <> 0 /\ (c ∉ whitespace) /\ (c ∉ symbols).
Definition blank (s : list Z) : Prop := Forall (fun c => c ∈ whitespace) s.

Inductive spells : list tok -> list Z -> Prop :=
  | spells_nil s : blank s -> spells [] s
  | spells_sym s c ts rest : blank s -> c ∈ symbols -> c <> 62 -> spells ts rest -> spells (TSym c :: ts) (s ++ c :: rest)
  | spells_gt s ts rest : blank s -> head rest <> Some 62 -> spells ts rest -> spells (TSym 62 :: ts) (s ++ 62 :: rest)
  | spells_app s ts rest : blank s -> spells ts rest -> spells (TApp :: ts) (s ++ 62 :: 62 :: rest)
  | spells_word s w ts rest : blank s -> w <> [] -> Forall wordchar w ->
      (forall c, head rest = Some c -> ~ wordchar c) -> spells ts rest -> spells (TWord w :: ts) (s ++ w ++ rest).

(** ** Syntax and meaning *)

Inductive rkind := RIn | ROut | RApp.
Abbreviation redir := (rkind * list Z)%type.

Inductive line :=
  | LEnd (p : pline) (bg : nat)
  | LSeq (p : pline) (bg : nat) (l : line)
with pline :=
  | POne (e : simple)
  | PBar (e : simple) (p : pline)
with simple :=
  | SWords (rs : list redir) (ws : list (list Z * list redir))
  | SBlock (l : line) (rs : list redir).

Inductive tree :=
  | TExec (args : list (list Z))
  | TRedir (t : tree) (file : list Z) (mode fd : Z)
  | TPipe (l r : tree)
  | TList (l r : tree)
  | TBack (t : tree).

Definition redir_toks (r : redir) : list tok :=
  [match r.1 with RIn => TSym 60 | ROut => TSym 62 | RApp => TApp end; TWord r.2].
Definition redirs_toks (rs : list redir) : list tok := rs ≫= redir_toks.
Definition arg_toks (a : list Z * list redir) : list tok := TWord a.1 :: redirs_toks a.2.

Fixpoint line_toks (l : line) : list tok :=
  match l with
  | LEnd p bg => pline_toks p ++ replicate bg (TSym 38)
  | LSeq p bg l => pline_toks p ++ replicate bg (TSym 38) ++ TSym 59 :: line_toks l
  end
with pline_toks (p : pline) : list tok :=
  match p with
  | POne e => simple_toks e
  | PBar e p => simple_toks e ++ TSym 124 :: pline_toks p
  end
with simple_toks (e : simple) : list tok :=
  match e with
  | SWords rs ws => redirs_toks rs ++ (ws ≫= arg_toks)
  | SBlock l rs => TSym 40 :: line_toks l ++ TSym 41 :: redirs_toks rs
  end.

Definition rmode (k : rkind) : Z := match k with RIn => O_RDONLY | _ => Z.lor O_WRONLY O_CREATE end.
Definition rfd (k : rkind) : Z := match k with RIn => 0 | _ => 1 end.
Definition redirect (t : tree) (rs : list redir) : tree := foldl (fun t r => TRedir t r.2 (rmode r.1) (rfd r.1)) t rs.
Definition background (t : tree) (bg : nat) : tree := Nat.iter bg TBack t.

(** A redirection applies to the whole simple command wherever it stands; the first one is the innermost. *)
Fixpoint meaning (l : line) : tree :=
  match l with
  | LEnd p bg => background (pline_meaning p) bg
  | LSeq p bg l => TList (background (pline_meaning p) bg) (meaning l)
  end
with pline_meaning (p : pline) : tree :=
  match p with
  | POne e => simple_meaning e
  | PBar e p => TPipe (simple_meaning e) (pline_meaning p)
  end
with simple_meaning (e : simple) : tree :=
  match e with
  | SWords rs ws => redirect (TExec ws.*1) (rs ++ (ws ≫= snd))
  | SBlock l rs => redirect (meaning l) rs
  end.

(** The commands have at most nine words. *)
Fixpoint line_ok (l : line) : Prop :=
  match l with LEnd p _ => pline_ok p | LSeq p _ l => pline_ok p /\ line_ok l end
with pline_ok (p : pline) : Prop :=
  match p with POne e => simple_ok e | PBar e p => simple_ok e /\ pline_ok p end
with simple_ok (e : simple) : Prop :=
  match e with SWords _ ws => (length ws < MAXARGS)%nat | SBlock l _ => line_ok l end.

(** The tree of commands at [i]; [W q e w]: the string [w] is between [q] and [e]. *)
Inductive built (W : nat -> nat -> list Z -> Prop) (nodes : list node) : nat -> tree -> Prop :=
  | built_exec i qs es args : (length qs < MAXARGS)%nat ->
      nodes !! i = Some (EXEC ((Some <$> qs) ++ replicate (MAXARGS - length qs) None)
                              ((Some <$> es) ++ replicate (MAXARGS - length qs) None)) ->
      Forall3 W qs es args -> built W nodes i (TExec args)
  | built_redir i c q e t file mode fd : nodes !! i = Some (REDIR c q e mode fd) -> built W nodes c t ->
      W q e file -> built W nodes i (TRedir t file mode fd)
  | built_pipe i l r tl tr : nodes !! i = Some (PIPE l r) -> built W nodes l tl -> built W nodes r tr ->
      built W nodes i (TPipe tl tr)
  | built_list i l r tl tr : nodes !! i = Some (LIST l r) -> built W nodes l tl -> built W nodes r tr ->
      built W nodes i (TList tl tr)
  | built_back i c t : nodes !! i = Some (BACK c) -> built W nodes c t -> built W nodes i (TBack t).

(** A C string in a buffer. *)
Definition string_at (buf : list Z) (q e : nat) (w : list Z) : Prop := exists r, drop q buf = w ++ 0 :: r.

Lemma built_prefix W l l' i t : l `prefix_of` l' -> built W l i t -> built W l' i t.
Proof. intros Hp. induction 1; econstructor; eauto using prefix_lookup_Some. Qed.

(** ** Reading tokens *)

Section read.
Context (text junk : list Z) (Htext : Forall (fun c => c <> 0) text).
Abbreviation buf := (text ++ 0 :: junk).
Abbreviation es := (length text).

Lemma skip_exact f s r : forall p, drop p text = s ++ r -> (p <= es)%nat -> Forall (fun c => f c = true) s ->
  (forall c, head r = Some c -> f c = false) -> skip buf f (es - p) p = Some (p + length s)%nat.
Proof.
  induction s as [|c s IH]; intros p Hd Hp Hs Hr; simpl in *.
  - rewrite Nat.add_0_r. destruct (es - p)%nat as [|n] eqn:En; [done|]. simpl.
    destruct r as [|c r]; [apply (f_equal length) in Hd; rewrite length_drop in Hd; simpl in Hd; lia|].
    assert (text !! p = Some c) as Hc by (by rewrite <- (Nat.add_0_r p), <- lookup_drop, Hd).
    rewrite lookup_app_l, Hc by (by eapply lookup_lt_Some). simpl. by rewrite (Hr c).
  - assert (text !! p = Some c) as Hc by (by rewrite <- (Nat.add_0_r p), <- lookup_drop, Hd).
    pose proof (lookup_lt_Some _ _ _ Hc). replace (es - p)%nat with (S (es - S p)) by lia. simpl.
    rewrite lookup_app_l, Hc by lia. simpl. inversion Hs as [|?? Hfc Hs']; subst. rewrite Hfc.
    rewrite (IH (S p)); [f_equal; lia| |lia|done|done]. rewrite <- Nat.add_1_r, <- drop_drop, Hd. done.
Qed.

(** The parser stands before the tokens [ts]. *)
Definition before (ts : list tok) (st : pst) : Prop := (ps_pos st <= es)%nat /\ spells ts (drop (ps_pos st) text).

Definition word_at (q e : nat) (w : list Z) : Prop := e = (q + length w)%nat /\ Forall wordchar w /\ (e <= es)%nat /\
  exists r, drop q text = w ++ r /\ forall c, head r = Some c -> ~ wordchar c.

(** The first character of the tokens. *)
Definition first_char (ts : list tok) : Z :=
  match ts with [] => 0 | TWord w :: _ => default 0 (head w) | TSym c :: _ => c | TApp :: _ => 62 end.

Lemma symbols_list c : c ∈ symbols <-> c ∈ [60; 124; 62; 38; 59; 40; 41].
Proof. done. Qed.

Lemma is_in_true l c : c ∈ l -> is_in l c = true.
Proof. intros. by apply bool_decide_eq_true. Qed.
Lemma is_in_false l c : c ∉ l -> is_in l c = false.
Proof. intros. by apply bool_decide_eq_false. Qed.

Lemma symbol_facts c : c ∈ symbols -> c <> 0 /\ (c ∉ whitespace).
Proof.
  rewrite symbols_list. unfold whitespace. rewrite !elem_of_cons, elem_of_nil. intros H. split; lia.
Qed.

Lemma gt_not_blank : 62 ∉ whitespace.
Proof. unfold whitespace. rewrite !elem_of_cons, elem_of_nil. lia. Qed.

(** After the white space before [ts] come the tokens themselves. *)
Lemma spells_strip ts u : spells ts u -> exists s r, u = s ++ r /\ blank s /\ spells ts r /\
  default 0 (head r) = first_char ts /\ (forall c, head r = Some c -> c ∉ whitespace).
Proof.
  intros H. destruct H as [s Hs|s c ts rest Hs Hc Hn H|s ts rest Hs Hh H|s ts rest Hs H|s w ts rest Hs Hw Hf Hh H].
  - exists s, []. rewrite app_nil_r. split_and!; try done. apply spells_nil. constructor.
  - exists s, (c :: rest). split_and!; try done; [by apply (spells_sym []); [constructor|..]|]. simpl. intros ? [= <-]. by apply symbol_facts.
  - exists s, (62 :: rest). split_and!; try done; [by apply (spells_gt []); [constructor|..]|]. simpl. intros ? [= <-]. apply gt_not_blank.
  - exists s, (62 :: 62 :: rest). split_and!; try done; [by apply (spells_app []); [constructor|..]|]. simpl. intros ? [= <-]. apply gt_not_blank.
  - exists s, (w ++ rest). destruct w as [|c w]; [done|]. split_and!; try done; [by apply (spells_word [] (c :: w) ts rest); [constructor|..]|].
    simpl. intros ? [= <-]. inversion Hf as [|?? [_ [Hc _]] _]; subst. done.
Qed.

Lemma blank_skip s : blank s -> Forall (fun c => is_in whitespace c = true) s.
Proof. intros Hs. eapply Forall_impl; [exact Hs|]. intros c. apply is_in_true. Qed.

(** Moving over white space. *)
Lemma skip_blank ts st : before ts st -> exists s, skip buf (is_in whitespace) (es - ps_pos st) (ps_pos st) = Some s /\
  (ps_pos st <= s <= es)%nat /\ before ts (st <| ps_pos := s |>) /\ buf !! s = Some (first_char ts) /\
  (forall c, head (drop s text) = Some c -> c ∉ whitespace).
Proof.
  intros [Hp Hs]. destruct (spells_strip _ _ Hs) as (b & r & E & Hb & Hr & Hf & Hh).
  exists (ps_pos st + length b)%nat. assert (drop (ps_pos st + length b) text = r) as Ed by (by rewrite <- drop_drop, E, drop_app_length).
  assert (ps_pos st + length b <= es)%nat as Hle.
  { apply (f_equal length) in E. rewrite length_drop, length_app in E. lia. }
  split_and!; try lia.
  - apply (skip_exact _ b r); [done|done|by apply blank_skip|]. intros c Hc. apply is_in_false. auto.
  - split; simpl; [done|]. by rewrite Ed.
  - destruct r as [|c r]; simpl in Hf.
    + assert (ps_pos st + length b = es)%nat as -> by (apply (f_equal length) in Ed; rewrite length_drop in Ed; simpl in Ed; lia).
      rewrite list_lookup_middle by done. congruence.
    + assert (text !! (ps_pos st + length b)%nat = Some c) as Hc by (by rewrite <- (Nat.add_0_r (_ + _)), <- lookup_drop, Ed).
      rewrite lookup_app_l, Hc by (by eapply lookup_lt_Some). congruence.
  - by rewrite Ed.
Qed.

Lemma pwp_peek_exact ts toks Q E st : before ts st ->
  (forall st', before ts st' -> ps_nodes st' = ps_nodes st ->
     Q (negb (first_char ts =? 0) && is_in toks (first_char ts)) st') ->
  pwp (peek buf es toks) Q E st.
Proof.
  intros Hb HQ. destruct (skip_blank ts st Hb) as (s & Hs & _ & Hb' & Hc & _). unfold peek. pstep. by apply HQ.
Qed.

(** Without white space in front, what the tokens look like. *)
Lemma blank_head s (r : list Z) : blank s -> (forall c, head (s ++ r) = Some c -> c ∉ whitespace) -> s = [].
Proof. intros Hs Hh. destruct s as [|c s]; [done|]. inversion Hs; subst. by destruct (Hh c eq_refl). Qed.

Definition code (t : tok) : Z := match t with TWord _ => 97 | TSym c => c | TApp => 43 end.

(** How the token at [s] ends, and what follows it. *)
Lemma token_end t ts s : (s <= es)%nat -> spells (t :: ts) (drop s text) ->
  (forall c, head (drop s text) = Some c -> c ∉ whitespace) ->
  exists e, (s <= e <= es)%nat /\ spells ts (drop e text) /\ match t with TWord w => word_at s e w | _ => True end /\
  forall Q E st, Q (code t, e) st ->
    pwp (if first_char (t :: ts) =? 0 then mret (first_char (t :: ts), s)
         else if is_in (bytes_of "|();&<") (first_char (t :: ts)) then mret (first_char (t :: ts), S s)
         else if first_char (t :: ts) =? 62 then
           d ← pget (buf !! S s);
           if d =? 62 then mret (43, S (S s)) else mret (first_char (t :: ts), S s)
         else
           s ← pget (skip buf (fun c => negb (is_in whitespace c) && negb (is_in symbols c)) (es - s) s);
           mret (97, s)) Q E st.
Proof.
  intros Hs H Hh. inversion H as [|b c ts' rest Hb Hc Hn H' E1 E2|b ts' rest Hb Hg H' E1 E2|b ts' rest Hb H' E1 E2|b w ts' rest Hb Hw Hf Hg H' E1 E2];
    subst; rewrite <- E2 in Hh; pose proof (blank_head _ _ Hb Hh) as ->; simpl in E2; symmetry in E2.
  - assert (s < es)%nat by (apply (f_equal length) in E2; rewrite length_drop in E2; simpl in E2; lia).
    exists (S s). split; [lia|]. split; [by rewrite <- Nat.add_1_r, <- drop_drop, E2|]. split; [done|]. intros Q E st HQ. simpl.
    destruct (symbol_facts c Hc) as [Hc0 _]. destruct (Z.eqb_spec c 0); [done|].
    rewrite is_in_true; [by pstep|]. rewrite symbols_list in Hc. change (bytes_of "|();&<") with [124; 40; 41; 59; 38; 60].
    rewrite !elem_of_cons, elem_of_nil in Hc. rewrite !elem_of_cons, elem_of_nil. lia.
  - assert (s < es)%nat by (apply (f_equal length) in E2; rewrite length_drop in E2; simpl in E2; lia).
    exists (S s). split; [lia|]. assert (drop (S s) text = rest) as Er by (by rewrite <- Nat.add_1_r, <- drop_drop, E2).
    split; [by rewrite Er|]. split; [done|]. intros Q E st HQ. simpl.
    assert (exists d, buf !! S s = Some d /\ d <> 62) as (d & Hd & Hd62).
    { destruct (buf_lookup text junk Htext (S s)) as (d & Hd & Hd0); [lia|]. exists d. split; [done|]. intros ->.
      destruct (decide (S s = es)) as [Ee|Ee]; [by apply Hd0 in Ee|]. apply Hg. rewrite <- Er.
      rewrite lookup_app_l in Hd by lia. by rewrite head_lookup, lookup_drop, Nat.add_0_r. }
    pstep. destruct (Z.eqb_spec d 62); [done|]. by pstep.
  - assert (S s < es)%nat by (apply (f_equal length) in E2; rewrite length_drop in E2; simpl in E2; lia).
    exists (S (S s)). split; [lia|]. split; [by rewrite <- Nat.add_1_r, <- (Nat.add_1_r s), <- !drop_drop, E2|]. split; [done|].
    intros Q E st HQ. simpl. assert (buf !! S s = Some 62) as Hd.
    { rewrite lookup_app_l by lia. by rewrite <- Nat.add_1_r, <- lookup_drop, E2. }
    pstep. by pstep.
  - exists (s + length w)%nat. assert (s + length w <= es)%nat by (apply (f_equal length) in E2; rewrite length_drop, length_app in E2; lia).
    split; [lia|]. split; [by rewrite <- drop_drop, E2, drop_app_length|].
    split; [split_and!; try done; by exists rest|]. intros Q E st HQ. destruct w as [|c w]; [done|]. simpl.
    inversion Hf as [|?? (Hc0 & Hc1 & Hc2) Hf']; subst. destruct (Z.eqb_spec c 0); [done|].
    rewrite symbols_list, !not_elem_of_cons in Hc2.
    rewrite is_in_false by (change (bytes_of "|();&<") with [124; 40; 41; 59; 38; 60]; rewrite !elem_of_cons, elem_of_nil; lia).
    destruct (Z.eqb_spec c 62); [lia|]. apply pwp_bind. eapply pwp_get; [|by pstep].
    apply (skip_exact _ (c :: w) rest); [done|lia| |].
    + eapply Forall_impl; [exact Hf|]. intros x (_ & H1 & H2). by rewrite !is_in_false.
    + intros x Hx. specialize (Hg x Hx). destruct (is_in whitespace x) eqn:E1; [done|]. destruct (is_in symbols x) eqn:E3; [done|].
      exfalso. apply Hg. unfold is_in in E1, E3. rewrite bool_decide_eq_false in E1, E3. split_and!; try done.
      assert (x ∈ text) as Hin.
      { rewrite <- (take_drop s text), E2. apply elem_of_app. right. apply elem_of_app. right. destruct rest; [done|]. simplify_eq/=. by left. }
      rewrite Forall_forall in Htext. auto.
Qed.

Lemma pwp_gettoken_exact t ts Q E st : before (t :: ts) st ->
  (forall q e st', before ts st' -> ps_nodes st' = ps_nodes st -> match t with TWord w => word_at q e w | _ => True end ->
     Q (code t, q, e) st') ->
  pwp (gettoken buf es) Q E st.
Proof.
  intros Hb HQ. destruct (skip_blank _ st Hb) as (s & Hs & Hle & [_ Hb'] & Hc & Hh). unfold gettoken. pstep.
  destruct (token_end t ts s) as (e & He & Hts & Hw & Hrun); [lia|done|done|]. apply Hrun. pstep.
  destruct (skip_blank ts (st <| ps_pos := e |>)) as (s' & Hs' & _ & Hb2 & _); [split; [simpl; lia|done]|]. simpl in Hs'. pstep.
  by apply HQ.
Qed.

Lemma pwp_gettoken_end Q E st : before [] st ->
  (forall q e st', before [] st' -> ps_nodes st' = ps_nodes st -> Q (0, q, e) st') -> pwp (gettoken buf es) Q E st.
Proof.
  intros Hb HQ. destruct (skip_blank _ st Hb) as (s & Hs & Hle & Hb' & Hc & Hh). unfold gettoken. pstep. simpl. pstep.
  destruct (skip_blank [] _ Hb') as (s' & Hs' & _ & Hb2 & _). simpl in Hs'. pstep. by apply HQ.
Qed.

(** ** Building commands *)

Context (room : nat).

(** Memory or the budget of the model may run out. *)
Definition resource (e : perr) : Prop := e = Crash \/ e = NoFuel.

Lemma pwp_new ts n Q st : before ts st ->
  (forall st', before ts st' -> ps_nodes st' = ps_nodes st ++ [n] -> Q (length (ps_nodes st)) st') ->
  pwp (new_cmd room n) Q resource st.
Proof.
  intros Hb HQ. unfold pwp, new_cmd. destruct (length (ps_nodes st) <? room)%nat; [|by left]. by apply HQ.
Qed.

Lemma ploop_resource {V R} (body : V -> PM (V + R)) v Q st : pwp (ploop 0 body v) Q resource st.
Proof. by right. Qed.

Lemma pwp_ploop_S {V R} fuel (body : V -> PM (V + R)) v Q E st :
  pwp (body v) (fun r st' => pwp (match r with inl v' => ploop fuel body v' | inr x => mret x end) Q E st') E st ->
  pwp (ploop (S fuel) body v) Q E st.
Proof. apply pwp_bind. Qed.

Definition follow (l : list Z) (ts : list tok) : Prop := ts = [] \/ exists c ts', ts = TSym c :: ts' /\ c ∈ l.

(** What [peek] answers. *)
Definition peeks (toks : list Z) (ts : list tok) : bool := negb (first_char ts =? 0) && is_in toks (first_char ts).

Lemma spells_suffix a ts u : spells (a ++ ts) u -> exists u', spells ts u'.
Proof.
  revert u. induction a as [|x a IH]; intros u H; [by exists u|]. simpl in H. inversion H; subst; eauto.
Qed.

Lemma peeks_word toks w ts u : (forall c, c ∈ toks -> c ∈ symbols) -> spells (TWord w :: ts) u -> peeks toks (TWord w :: ts) = false.
Proof.
  intros Ht Hs. inversion Hs as [| | | |b w' ts' rest _ Hw Hf _ _ E1 E2]; subst. destruct w as [|c w]; [done|].
  unfold peeks. simpl. inversion Hf as [|?? (_ & _ & Hc) _]; subst. rewrite is_in_false by (intros Hin; by apply Hc, Ht).
  by rewrite andb_false_r.
Qed.

Lemma peeks_follow toks l ts : (forall c, c ∈ l -> c ∈ toks -> False) -> follow l ts -> peeks toks ts = false.
Proof.
  intros Hd [->|(c & ts' & -> & Hc)]; [done|]. unfold peeks. simpl. rewrite is_in_false by (intros Hin; eauto). by rewrite andb_false_r.
Qed.

(** [r] is [c] inside the redirections [rs]. *)
Inductive wraps (nodes : list node) (c : nat) : list redir -> nat -> Prop :=
  | wraps_nil : wraps nodes c [] c
  | wraps_snoc rs r k file q e i : wraps nodes c rs r -> nodes !! i = Some (REDIR r q e (rmode k) (rfd k)) ->
      word_at q e file -> wraps nodes c (rs ++ [(k, file)]) i.

Lemma wraps_cons nodes c k file q e i rs r : nodes !! i = Some (REDIR c q e (rmode k) (rfd k)) -> word_at q e file ->
  wraps nodes i rs r -> wraps nodes c ((k, file) :: rs) r.
Proof.
  intros Hi Hw. induction 1 as [|rs r k' f' q' e' i' H IH Hi' Hw'].
  - apply (wraps_snoc _ _ [] c k file q e); [constructor|done|done].
  - rewrite app_comm_cons. by eapply wraps_snoc.
Qed.

Lemma wraps_app nodes c rs r rs' r' : wraps nodes c rs r -> wraps nodes r rs' r' -> wraps nodes c (rs ++ rs') r'.
Proof.
  intros H. induction 1 as [|rs' r' k f q e i H' IH Hi Hw]; [by rewrite app_nil_r|]. rewrite app_assoc. by eapply wraps_snoc.
Qed.

Lemma wraps_mono nodes nodes' c rs r : (forall i c q e m f, nodes !! i = Some (REDIR c q e m f) -> nodes' !! i = Some (REDIR c q e m f)) ->
  wraps nodes c rs r -> wraps nodes' c rs r.
Proof. intros Hm. induction 1; econstructor; eauto. Qed.

Lemma built_wraps nodes c t rs r : built word_at nodes c t -> wraps nodes c rs r -> built word_at nodes r (redirect t rs).
Proof.
  intros Hc. induction 1 as [|rs r k f q e i H IH Hi Hw]; [done|]. unfold redirect. rewrite foldl_app. simpl.
  by eapply built_redir.
Qed.

Lemma peeks_redir r ts : peeks (bytes_of "<>") (redir_toks r ++ ts) = true.
Proof. destruct r as [[] ?]; reflexivity. Qed.

Lemma pwp_redirs rs : forall fuel cmd st ts Q, before (redirs_toks rs ++ ts) st -> peeks (bytes_of "<>") ts = false ->
  (forall cmd' st', before ts st' -> ps_nodes st `prefix_of` ps_nodes st' -> wraps (ps_nodes st') cmd rs cmd' -> Q cmd' st') ->
  pwp (ploop fuel (redir_turn buf es room) cmd) Q resource st.
Proof.
  induction rs as [|[k file] rs IH]; intros [|fuel] cmd st ts Q Hb Hp HQ; try apply ploop_resource; apply pwp_ploop_S; unfold redir_turn at 1.
  - apply pwp_bind. apply (pwp_peek_exact ts); [done|]. intros st' Hb' Hn. change (negb _ && _) with (peeks (bytes_of "<>") ts).
    rewrite Hp. pstep. apply HQ; [done|by rewrite Hn|constructor].
  - change (redirs_toks ((k, file) :: rs) ++ ts) with ((redir_toks (k, file) ++ redirs_toks rs) ++ ts) in Hb. rewrite <- app_assoc in Hb.
    apply pwp_bind. apply (pwp_peek_exact (redir_toks (k, file) ++ redirs_toks rs ++ ts)); [done|]. intros st1 Hb1 Hn1.
    change (negb _ && _) with (peeks (bytes_of "<>") (redir_toks (k, file) ++ redirs_toks rs ++ ts)). rewrite peeks_redir.
    apply pwp_bind. eapply pwp_gettoken_exact; [exact Hb1|]. intros q0 e0 st2 Hb2 Hn2 _.
    apply pwp_bind. eapply pwp_gettoken_exact; [exact Hb2|]. intros q e st3 Hb3 Hn3 Hw. change (negb (code (TWord _) =? 97)) with false. cbv iota.
    assert (pwp (cmd ← redircmd room cmd q e (rmode k) (rfd k); mret (inl cmd)) (fun (r : nat + nat) s' =>
      pwp (match r with inl v' => ploop fuel (redir_turn buf es room) v' | inr x => mret x end) Q resource s') resource st3) as Hnew.
    { apply pwp_bind. apply (pwp_new (redirs_toks rs ++ ts)); [done|]. intros st4 Hb4 Hn4. pstep.
      apply (IH fuel _ st4 ts); [done|done|]. intros cmd' st' Hb' Hpre Hwr. apply HQ; [done| |].
      - etrans; [|exact Hpre]. rewrite Hn4, Hn3, Hn2, Hn1. by apply prefix_app_r.
      - eapply wraps_cons; [|exact Hw|exact Hwr]. eapply prefix_lookup_Some; [|exact Hpre]. rewrite Hn4. by apply list_lookup_middle. }
    destruct k; exact Hnew.
Qed.

Definition filled (qs es : list nat) : node :=
  EXEC ((Some <$> qs) ++ replicate (MAXARGS - length qs) None) ((Some <$> es) ++ replicate (MAXARGS - length qs) None).

Lemma fill_next (qs : list nat) n q : (length qs < n)%nat ->
  <[length qs := Some q]> ((Some <$> qs) ++ replicate (n - length qs) None) =
  (Some <$> (qs ++ [q])) ++ replicate (n - length (qs ++ [q])) None.
Proof.
  intros Hn. rewrite insert_app_r_alt by (rewrite length_fmap; lia). rewrite length_fmap, Nat.sub_diag.
  replace (n - length qs)%nat with (S (n - length (qs ++ [q]))) by (rewrite length_app; simpl; lia). simpl.
  by rewrite fmap_app, <- app_assoc.
Qed.

Lemma fill_end (qs : list nat) n : <[length qs := None]> ((Some <$> qs) ++ replicate (n - length qs) None) =
  (Some <$> qs) ++ replicate (n - length qs) None.
Proof.
  rewrite insert_app_r_alt by (rewrite length_fmap; lia). f_equal. rewrite length_fmap, Nat.sub_diag.
  by destruct (n - length qs)%nat.
Qed.

Lemma peeks_args ws ts u : spells ((ws ≫= arg_toks) ++ ts) u -> follow [124; 41; 38; 59] ts ->
  peeks (bytes_of "<>") ((ws ≫= arg_toks) ++ ts) = false.
Proof.
  intros Hb Hf. destruct ws as [|[w rs] ws].
  - eapply peeks_follow; [|exact Hf]. change (bytes_of "<>") with [60; 62]. intros c. rewrite !elem_of_cons, !elem_of_nil. lia.
  - eapply peeks_word; [|exact Hb]. change (bytes_of "<>") with [60; 62]. intros c. rewrite symbols_list, !elem_of_cons, !elem_of_nil. lia.
Qed.

(** Storing an argument: the commands before [cmd] and the redirections around it stay. *)
Lemma store_arg nodes0 nodes cmd ret qs eqs rs q e : nodes0 `prefix_of` nodes -> (length nodes0 <= cmd)%nat ->
  nodes !! cmd = Some (filled qs eqs) -> length qs = length eqs -> (length qs < MAXARGS)%nat -> wraps nodes cmd rs ret ->
  <[cmd := EXEC (<[length qs := Some q]> ((Some <$> qs) ++ replicate (MAXARGS - length qs) None))
                (<[length qs := Some e]> ((Some <$> eqs) ++ replicate (MAXARGS - length qs) None))]> nodes =
  <[cmd := filled (qs ++ [q]) (eqs ++ [e])]> nodes /\
  nodes0 `prefix_of` <[cmd := filled (qs ++ [q]) (eqs ++ [e])]> nodes /\ wraps (<[cmd := filled (qs ++ [q]) (eqs ++ [e])]> nodes) cmd rs ret.
Proof.
  intros Hpre Hcmd Hc Hle Hlen Hw. split_and!.
  - f_equal. unfold filled. f_equal; [apply fill_next; lia|].
    rewrite Hle at 1 2. rewrite fill_next by lia. do 2 f_equal. rewrite !length_app. simpl. lia.
  - destruct Hpre as [l ->]. rewrite insert_app_r_alt by done. by apply prefix_app_r.
  - eapply wraps_mono; [|exact Hw]. intros i c' q' e' m f Hi. rewrite list_lookup_insert_ne; [done|].
    intros ->. rewrite Hc in Hi. done.
Qed.

Lemma pwp_args ws : forall fuel cmd ret st0 st ts qs eqs args rs Q,
  before ((ws ≫= arg_toks) ++ ts) st -> follow [124; 41; 38; 59] ts ->
  ps_nodes st0 `prefix_of` ps_nodes st -> (length (ps_nodes st0) <= cmd)%nat ->
  ps_nodes st !! cmd = Some (filled qs eqs) -> Forall3 word_at qs eqs args -> (length qs + length ws < MAXARGS)%nat ->
  wraps (ps_nodes st) cmd rs ret ->
  (forall ret' st' qs' eqs', before ts st' -> ps_nodes st0 `prefix_of` ps_nodes st' -> ps_nodes st' !! cmd = Some (filled qs' eqs') ->
     (length qs' < MAXARGS)%nat -> Forall3 word_at qs' eqs' (args ++ ws.*1) ->
     wraps (ps_nodes st') cmd (rs ++ (ws ≫= snd)) ret' -> Q (ret', length qs') st') ->
  pwp (ploop fuel (arg_turn buf es room cmd) (ret, length qs)) Q resource st.
Proof.
  induction ws as [|[w wrs] ws IH]; intros [|fuel] cmd ret st0 st ts qs eqs args rs Q Hb Hfo Hpre Hcmd Hc Ha Hlen Hw HQ;
    try apply ploop_resource; apply pwp_ploop_S; unfold arg_turn at 1.
  - apply pwp_bind. apply (pwp_peek_exact ts); [done|]. intros st' Hb' Hn.
    assert (Q (ret, length qs) st') as HQ' by (apply (HQ ret st' qs eqs); rewrite ?Hn, ?app_nil_r; simpl; done || (simpl in Hlen; lia)).
    destruct Hfo as [->|(c & ts' & -> & Hfc)].
    + change (negb _ && _) with false. cbv iota. apply pwp_bind. apply pwp_gettoken_end; [done|]. intros q e st2 Hb2 Hn2. simpl. pstep.
      apply (HQ ret st2 qs eqs); rewrite ?Hn2, ?Hn, ?app_nil_r; simpl; done || (simpl in Hlen; lia).
    + assert (negb (first_char (TSym c :: ts') =? 0) && is_in (bytes_of "|)&;") (first_char (TSym c :: ts')) = true) as ->; [|by pstep].
      simpl. rewrite !elem_of_cons, elem_of_nil in Hfc. change (bytes_of "|)&;") with [124; 41; 38; 59].
      destruct (Z.eqb_spec c 0); [lia|]. apply is_in_true. rewrite !elem_of_cons, elem_of_nil. lia.
  - change ((((w, wrs) :: ws) ≫= arg_toks) ++ ts) with (TWord w :: (redirs_toks wrs ++ (ws ≫= arg_toks)) ++ ts) in Hb. rewrite <- app_assoc in Hb.
    apply pwp_bind. apply (pwp_peek_exact (TWord w :: redirs_toks wrs ++ (ws ≫= arg_toks) ++ ts)); [done|]. intros st1 Hb1 Hn1.
    change (negb _ && _) with (peeks (bytes_of "|)&;") (TWord w :: redirs_toks wrs ++ (ws ≫= arg_toks) ++ ts)).
    rewrite (peeks_word _ _ _ (drop (ps_pos st1) text)); [|change (bytes_of "|)&;") with [124; 41; 38; 59]; intros c; rewrite symbols_list, !elem_of_cons, !elem_of_nil; lia|apply Hb1].
    apply pwp_bind. eapply pwp_gettoken_exact; [exact Hb1|]. intros q e st2 Hb2 Hn2 Hwd. simpl code.
    change (97 =? 0) with false. change (negb (97 =? 97)) with false. cbv iota.
    assert (length qs = length eqs) as Hle by (by eapply Forall3_length_lm). simpl in Hlen. apply pwp_bind.
    eapply pwp_set_arg; [rewrite Hn2, Hn1; exact Hc|lia|].
    destruct (Nat.leb_spec MAXARGS (S (length qs))); [lia|].
    set (st3 := st2 <| ps_nodes ::= _ |>).
    destruct (store_arg (ps_nodes st0) (ps_nodes st) cmd ret qs eqs rs q e) as (Hn3' & Hpre3 & Hw3); [done|done|done|done|lia|done|].
    assert (ps_nodes st3 = <[cmd := filled (qs ++ [q]) (eqs ++ [e])]> (ps_nodes st)) as Hn3 by (unfold st3; simpl; by rewrite Hn2, Hn1).
    rewrite <- Hn3 in Hpre3, Hw3.
    destruct (spells_suffix _ _ _ (proj2 Hb2)) as [u Hu]. pose proof (peeks_args ws ts u Hu Hfo) as Hpk.
    apply pwp_bind. unfold parseredirs. apply (pwp_redirs wrs _ _ st3 ((ws ≫= arg_toks) ++ ts)); [done|done|].
    intros ret' st4 Hb4 Hpre4 Hw4. pstep. replace (S (length qs)) with (length (qs ++ [q])) by (rewrite length_app; simpl; lia).
    apply (IH fuel cmd ret' st0 st4 ts (qs ++ [q]) (eqs ++ [e]) (args ++ [w]) (rs ++ wrs)); try done.
    + etrans; [exact Hpre3|exact Hpre4].
    + eapply prefix_lookup_Some; [|exact Hpre4]. rewrite Hn3. apply list_lookup_insert_eq. by eapply lookup_lt_Some.
    + apply Forall3_app; [done|]. constructor; [exact Hwd|constructor].
    + rewrite length_app. simpl. lia.
    + eapply wraps_app; [|exact Hw4]. eapply wraps_mono; [|exact Hw3]. intros. by eapply prefix_lookup_Some.
    + intros ret2 st5 qs' eqs' H1 H2 H3 H4 H5 H6. apply (HQ ret2 st5 qs' eqs'); try done; simpl.
      * by rewrite <- app_assoc in H5.
      * by rewrite <- app_assoc in H6.
Qed.

(** [m], standing before a phrase that means [t] and the tokens [ts], builds [t] and stops before [ts]. *)
Definition parsed (m : PM nat) (t : tree) (ts : list tok) (st : pst) : Prop := forall Q,
  (forall c st', before ts st' -> ps_nodes st `prefix_of` ps_nodes st' -> built word_at (ps_nodes st') c t -> Q c st') ->
  pwp m Q resource st.

Lemma parsed_exec rs ws ts fuel st : before (redirs_toks rs ++ (ws ≫= arg_toks) ++ ts) st -> follow [124; 41; 38; 59] ts ->
  (length ws < MAXARGS)%nat -> parsed (parseexec buf es room (S fuel)) (redirect (TExec ws.*1) (rs ++ (ws ≫= snd))) ts st.
Proof.
  intros Hb Hfo Hlen Q HQ. simpl parseexec. apply pwp_bind. eapply pwp_peek_exact; [exact Hb|]. intros st1 Hb1 Hn1.
  assert (peeks (bytes_of "(") (redirs_toks rs ++ (ws ≫= arg_toks) ++ ts) = false) as Hpk.
  { destruct rs as [|[[] f] rs]; [|reflexivity..]. destruct ws as [|[w wrs] ws].
    - eapply peeks_follow; [|exact Hfo]. change (bytes_of "(") with [40]. intros c. rewrite !elem_of_cons, !elem_of_nil. lia.
    - eapply peeks_word; [|apply Hb]. change (bytes_of "(") with [40]. intros c. rewrite symbols_list, !elem_of_cons, !elem_of_nil. lia. }
  unfold peeks in Hpk. rewrite Hpk. clear Hpk.
  apply pwp_bind. apply (pwp_new (redirs_toks rs ++ (ws ≫= arg_toks) ++ ts)); [done|]. intros st2 Hb2 Hn2.
  destruct (spells_suffix _ _ _ (proj2 Hb2)) as [u Hu]. pose proof (peeks_args ws ts u Hu Hfo) as Hpk.
  apply pwp_bind. unfold parseredirs. apply (pwp_redirs rs _ _ st2 ((ws ≫= arg_toks) ++ ts)); [done|done|]. intros ret st3 Hb3 Hpre3 Hw3.
  assert (ps_nodes st `prefix_of` ps_nodes st2) as Hpre2 by (rewrite Hn2, Hn1; by apply prefix_app_r).
  apply pwp_bind. unfold parseargs. apply (pwp_args ws (S es) (length (ps_nodes st1)) ret st st3 ts [] [] [] rs); try done.
  - by etrans.
  - by rewrite Hn1.
  - eapply prefix_lookup_Some; [|exact Hpre3]. rewrite Hn2. by apply list_lookup_middle.
  - constructor.
  - intros ret' st4 qs eqs Hb4 Hpre4 Hc4 Hl4 Ha4 Hw4. apply pwp_bind.
    assert (length qs = length eqs) as Hle by (by eapply Forall3_length_lm).
    eapply pwp_set_arg; [exact Hc4|done|]. pstep.
    rewrite fill_end. rewrite Hle at 2 3. rewrite fill_end. rewrite <- Hle. fold (filled qs eqs).
    assert (<[length (ps_nodes st1) := filled qs eqs]> (ps_nodes st4) = ps_nodes st4) as Hsame by (by apply list_insert_id).
    apply HQ; simpl; rewrite ?Hsame; try done.
    eapply built_wraps; [|exact Hw4]. by eapply built_exec.
Qed.

Lemma parsed_backs bg : forall fuel c t st ts Q, before (replicate bg (TSym 38) ++ ts) st -> follow [41; 59] ts ->
  built word_at (ps_nodes st) c t ->
  (forall c' st', before ts st' -> ps_nodes st `prefix_of` ps_nodes st' -> built word_at (ps_nodes st') c' (background t bg) -> Q c' st') ->
  pwp (ploop fuel (back_turn buf es room) c) Q resource st.
Proof.
  induction bg as [|bg IH]; intros [|fuel] c t st ts Q Hb Hfo Hc HQ; try apply ploop_resource; apply pwp_ploop_S; unfold back_turn at 1;
    apply pwp_bind; (eapply pwp_peek_exact; [exact Hb|]); intros st1 Hb1 Hn1.
  - assert (peeks (bytes_of "&") ts = false) as Hpk.
    { eapply peeks_follow; [|exact Hfo]. change (bytes_of "&") with [38]. intros x. rewrite !elem_of_cons, !elem_of_nil. lia. }
    unfold peeks in Hpk. simpl replicate. simpl app. rewrite Hpk. pstep. apply HQ; rewrite ?Hn1; done.
  - change (negb _ && _) with true. cbv iota. apply pwp_bind. eapply pwp_gettoken_exact; [exact Hb1|]. intros q e st2 Hb2 Hn2 _.
    apply pwp_bind. apply (pwp_new (replicate bg (TSym 38) ++ ts)); [done|]. intros st3 Hb3 Hn3. pstep.
    assert (ps_nodes st `prefix_of` ps_nodes st3) as Hpre by (rewrite Hn3, Hn2, Hn1; by apply prefix_app_r).
    apply (IH fuel _ (TBack t) st3 ts); [done|done| |].
    + eapply built_back; [rewrite Hn3; by apply list_lookup_middle|]. by eapply built_prefix.
    + intros c' st' Hb' Hp' Hbt. apply HQ; [done|by etrans|]. unfold background in *. by rewrite Nat.iter_succ_r.
Qed.

(** The operator [op] between two phrases, or its absence. *)
Lemma parsed_op op (join : nat -> nat -> node) (mk : tree -> tree -> tree) rest c t t' st0 st ts toks Q :
  peeks [op] (TSym op :: toks) = true -> before (TSym op :: toks) st -> ps_nodes st0 `prefix_of` ps_nodes st ->
  built word_at (ps_nodes st) c t ->
  (forall nodes i l r tl tr, nodes !! i = Some (join l r) -> built word_at nodes l tl -> built word_at nodes r tr -> built word_at nodes i (mk tl tr)) ->
  (forall st1, before toks st1 -> parsed rest t' ts st1) ->
  (forall c' st', before ts st' -> ps_nodes st0 `prefix_of` ps_nodes st' -> built word_at (ps_nodes st') c' (mk t t') -> Q c' st') ->
  pwp (b ← peek buf es [op]; if b : bool then gettoken buf es;; r ← rest; new_cmd room (join c r) else mret c) Q resource st.
Proof.
  intros Hpk Hb Hpre Hc Hjoin Hrest HQ. apply pwp_bind. eapply pwp_peek_exact; [exact Hb|]. intros st1 Hb1 Hn1.
  unfold peeks in Hpk. rewrite Hpk. apply pwp_bind. eapply pwp_gettoken_exact; [exact Hb1|]. intros q e st2 Hb2 Hn2 _.
  apply pwp_bind. apply (Hrest st2 Hb2). intros r st3 Hb3 Hpre3 Hr. eapply pwp_new; [exact Hb3|]. intros st4 Hb4 Hn4.
  assert (ps_nodes st `prefix_of` ps_nodes st3) as Hp3 by (by rewrite <- Hn1, <- Hn2).
  apply HQ; [done|rewrite Hn4; apply prefix_app_r; by etrans|]. eapply Hjoin; [rewrite Hn4; by apply list_lookup_middle| |].
  - eapply built_prefix; [|exact Hc]. rewrite Hn4. by apply prefix_app_r.
  - eapply built_prefix; [|exact Hr]. rewrite Hn4. by apply prefix_app_r.
Qed.

Lemma parsed_no_op op (m : nat -> PM nat) c ts st Q E : peeks [op] ts = false -> before ts st ->
  (forall st', before ts st' -> ps_nodes st' = ps_nodes st -> Q c st') ->
  pwp (b ← peek buf es [op]; if b : bool then gettoken buf es;; m c else mret c) Q E st.
Proof.
  intros Hpk Hb HQ. apply pwp_bind. eapply pwp_peek_exact; [exact Hb|]. intros st1 Hb1 Hn1.
  unfold peeks in Hpk. rewrite Hpk. pstep. by apply HQ.
Qed.

Lemma follow_mono l l' ts : l ⊆ l' -> follow l ts -> follow l' ts.
Proof. intros Hl [->|(c & ts' & -> & Hc)]; [by left|]. right. eauto. Qed.

Lemma follow_sym c l ts : c ∈ l -> follow l (TSym c :: ts).
Proof. right. eauto. Qed.

Lemma parsed_block l rs ts fuel st :
  (forall st1, before (line_toks l ++ TSym 41 :: redirs_toks rs ++ ts) st1 ->
     parsed (parseline buf es room fuel) (meaning l) (TSym 41 :: redirs_toks rs ++ ts) st1) ->
  before (TSym 40 :: line_toks l ++ TSym 41 :: redirs_toks rs ++ ts) st -> follow [124; 41; 38; 59] ts ->
  parsed (parseexec buf es room (S (S fuel))) (redirect (meaning l) rs) ts st.
Proof.
  intros IH Hb Hfo Q HQ. simpl parseexec. apply pwp_bind. eapply pwp_peek_exact; [exact Hb|]. intros st1 Hb1 Hn1.
  change (negb _ && _) with true. cbv iota.
  apply pwp_bind. eapply pwp_peek_exact; [exact Hb1|]. intros st2 Hb2 Hn2. change (negb (negb _ && _)) with false. cbv iota.
  apply pwp_bind. eapply pwp_gettoken_exact; [exact Hb2|]. intros q e st3 Hb3 Hn3 _.
  apply pwp_bind. apply (IH st3 Hb3). intros c st4 Hb4 Hp4 Hc.
  apply pwp_bind. eapply pwp_peek_exact; [exact Hb4|]. intros st5 Hb5 Hn5. change (negb (negb _ && _)) with false. cbv iota.
  apply pwp_bind. eapply pwp_gettoken_exact; [exact Hb5|]. intros q' e' st6 Hb6 Hn6 _.
  unfold parseredirs. apply (pwp_redirs rs _ _ st6 ts); [done| |].
  - eapply peeks_follow; [|exact Hfo]. change (bytes_of "<>") with [60; 62]. intros x. rewrite !elem_of_cons, !elem_of_nil. lia.
  - intros r st7 Hb7 Hp7 Hw. apply HQ; [done| |].
    + rewrite <- Hn1, <- Hn2, <- Hn3. etrans; [exact Hp4|]. by rewrite <- Hn5, <- Hn6.
    + eapply built_wraps; [|exact Hw]. eapply built_prefix; [exact Hp7|]. by rewrite Hn6, Hn5.
Qed.

(** Each of the parsing functions builds the meaning of its phrase. *)
Definition lines_parsed (fuel : nat) : Prop := forall st ts l, before (line_toks l ++ ts) st -> follow [41] ts -> line_ok l ->
  parsed (parseline buf es room fuel) (meaning l) ts st.
Definition plines_parsed (fuel : nat) : Prop := forall st ts p, before (pline_toks p ++ ts) st -> follow [41; 38; 59] ts -> pline_ok p ->
  parsed (parsepipe buf es room fuel) (pline_meaning p) ts st.
Definition simples_parsed (fuel : nat) : Prop := forall st ts e, before (simple_toks e ++ ts) st -> follow [124; 41; 38; 59] ts -> simple_ok e ->
  parsed (parseexec buf es room fuel) (simple_meaning e) ts st.

Lemma parsed_line fuel : plines_parsed fuel -> lines_parsed fuel -> lines_parsed (S fuel).
Proof.
  intros IHp IHl st ts [p bg|p bg l] Hb Hfo Hok Q HQ; cbn [line_toks] in Hb; rewrite <- !app_assoc in Hb;
    change (parseline buf es room (S fuel)) with (cmd ← parsepipe buf es room fuel; cmd ← ploop (S es) (back_turn buf es room) cmd;
      b ← peek buf es [59]; if b : bool then gettoken buf es;; rest ← parseline buf es room fuel; listcmd room cmd rest else mret cmd);
    apply pwp_bind.
  - apply (IHp st (replicate bg (TSym 38) ++ ts) p); [done| |done|].
    { destruct bg; [eapply follow_mono; [|exact Hfo]; set_solver|apply follow_sym; set_solver]. }
    intros c st1 Hb1 Hp1 Hc. apply pwp_bind. eapply (parsed_backs bg _ c (pline_meaning p) st1 ts _ Hb1); [eapply follow_mono; [|exact Hfo]; set_solver|done|].
    intros c' st2 Hb2 Hp2 Hc'. apply (parsed_no_op 59 (fun cmd => rest ← parseline buf es room fuel; listcmd room cmd rest) c' ts); [|done|].
    { eapply peeks_follow; [|exact Hfo]. intros x. rewrite !elem_of_cons, !elem_of_nil. lia. }
    intros st3 Hb3 Hn3. apply HQ; rewrite ?Hn3; [done|by etrans|done].
  - destruct Hok as [Hok1 Hok2]. set (ts1 := TSym 59 :: line_toks l ++ ts).
    change (before (pline_toks p ++ replicate bg (TSym 38) ++ ts1) st) in Hb.
    apply (IHp st (replicate bg (TSym 38) ++ ts1) p); [done| |done|].
    { destruct bg; apply follow_sym; set_solver. }
    intros c st1 Hb1 Hp1 Hc. apply pwp_bind. eapply (parsed_backs bg _ c (pline_meaning p) st1 ts1 _ Hb1); [apply follow_sym; set_solver|done|].
    intros c' st2 Hb2 Hp2 Hc'.
    eapply (parsed_op 59 LIST TList _ c' _ (meaning l) st st2 ts (line_toks l ++ ts) Q); [done|done|by etrans|done| | |exact HQ].
    { intros. by eapply built_list. }
    intros st3 Hb3. by apply IHl.
Qed.

Lemma parsed_pline fuel : simples_parsed fuel -> plines_parsed fuel -> plines_parsed (S fuel).
Proof.
  intros IHe IHp st ts [e|e p] Hb Hfo Hok Q HQ; cbn [pline_toks] in Hb; rewrite <- ?app_assoc in Hb;
    change (parsepipe buf es room (S fuel)) with (cmd ← parseexec buf es room fuel; b ← peek buf es [124];
      if b : bool then gettoken buf es;; rest ← parsepipe buf es room fuel; pipecmd room cmd rest else mret cmd);
    apply pwp_bind.
  - apply (IHe st ts e); [done|eapply follow_mono; [|exact Hfo]; set_solver|done|].
    intros c st1 Hb1 Hp1 Hc. apply (parsed_no_op 124 (fun cmd => rest ← parsepipe buf es room fuel; pipecmd room cmd rest) c ts); [|done|].
    { eapply peeks_follow; [|exact Hfo]. intros x. rewrite !elem_of_cons, !elem_of_nil. lia. }
    intros st3 Hb3 Hn3. apply HQ; rewrite ?Hn3; done.
  - destruct Hok as [Hok1 Hok2]. apply (IHe st (TSym 124 :: pline_toks p ++ ts) e); [done|apply follow_sym; set_solver|done|].
    intros c st1 Hb1 Hp1 Hc.
    eapply (parsed_op 124 PIPE TPipe _ c _ (pline_meaning p) st st1 ts (pline_toks p ++ ts) Q); [done|done|done|done| | |exact HQ].
    { intros. by eapply built_pipe. }
    intros st3 Hb3. by apply IHp.
Qed.

Lemma parse_exact fuel : lines_parsed fuel /\ plines_parsed fuel /\ simples_parsed fuel.
Proof.
  induction fuel as [fuel IH] using lt_wf_ind. destruct fuel as [|fuel]; [split_and!; intros ??????? HQ; by right|].
  destruct (IH fuel) as (IHl & IHp & IHe); [lia|]. split_and!; [by apply parsed_line|by apply parsed_pline|].
  intros st ts [rs ws|l rs] Hb Hfo Hok; cbn [simple_toks] in Hb.
  - rewrite <- app_assoc in Hb. by apply parsed_exec.
  - change (before (TSym 40 :: (line_toks l ++ TSym 41 :: redirs_toks rs) ++ ts) st) in Hb. rewrite <- app_assoc in Hb.
    destruct fuel as [|fuel]; [intros Q HQ; apply pwp_bind; eapply pwp_peek_exact; [exact Hb|]; intros; by right|].
    apply parsed_block; [|done|done]. intros st1 Hb1. apply (proj1 (IH fuel ltac:(lia))); [done|apply follow_sym; set_solver|done].
Qed.

(** ** The strings *)

(** From [b] to [b'], characters that are not part of a word have become NUL. *)
Definition marks (b b' : list Z) : Prop := length b' = length b /\ forall k, b' !! k = b !! k \/
  (b' !! k = Some 0 /\ forall c, text !! k = Some c -> ~ wordchar c).

Lemma marks_refl b : marks b b.
Proof. split; [done|]. by left. Qed.
Lemma marks_trans b b1 b2 : marks b b1 -> marks b1 b2 -> marks b b2.
Proof.
  intros [L1 H1] [L2 H2]. split; [congruence|]. intros k. destruct (H2 k) as [E|E]; [|by right].
  rewrite E. apply H1.
Qed.

Lemma word_end q e w : word_at q e w -> forall c, text !! e = Some c -> ~ wordchar c.
Proof.
  intros (-> & _ & _ & r & Hd & Hr) c Hc. apply Hr. rewrite <- lookup_drop, Hd, lookup_app_r, Nat.sub_diag in Hc by done.
  by rewrite head_lookup.
Qed.

Lemma marks_put b q e w b' : word_at q e w -> put b e 0 = Some b' -> marks b b' /\ b' !! e = Some 0.
Proof.
  intros Hw. unfold put. destruct (decide _) as [Hlt|]; [|done]. intros [= <-].
  split; [|by apply list_lookup_insert_eq]. split; [by rewrite length_insert|]. intros k.
  destruct (decide (k = e)) as [->|]; [|left; by apply list_lookup_insert_ne].
  right. split; [by apply list_lookup_insert_eq|]. by eapply word_end.
Qed.

Lemma marks_keep b b' e : marks b b' -> b !! e = Some 0 -> b' !! e = Some 0.
Proof. intros [_ H] He. destruct (H e) as [->|[-> _]]; done. Qed.

Definition ended (b : list Z) (q e : nat) (w : list Z) : Prop := word_at q e w /\ b !! e = Some 0.

Lemma built_mono (W W' : nat -> nat -> list Z -> Prop) nodes i t : (forall q e w, W q e w -> W' q e w) -> built W nodes i t -> built W' nodes i t.
Proof.
  intros HW. induction 1 as [i qs eqs args Hl Hi Ha| | | |]; [|econstructor; eauto..]. eapply built_exec; eauto.
  clear -HW Ha. induction Ha; constructor; auto.
Qed.

Lemma ended_keep b b' nodes i t : marks b b' -> built (ended b) nodes i t -> built (ended b') nodes i t.
Proof. intros Hm. apply built_mono. intros q e w [Hw He]. split; [done|]. by eapply marks_keep. Qed.

Lemma terminate_args_ends n : forall k qs1 qs2 es1 es2 args b b', length qs1 = length es1 -> Forall3 word_at qs2 es2 args ->
  terminate_args ((Some <$> (qs1 ++ qs2)) ++ replicate (S n) None) ((Some <$> (es1 ++ es2)) ++ replicate (S n) None) (length qs1) k b = Some b' ->
  marks b b' /\ Forall3 (ended b') qs2 es2 args.
Proof.
  induction k as [|k IH]; intros qs1 qs2 es1 es2 args b b' Hle Hw H; [done|]. cbn [terminate_args] in H.
  destruct Hw as [|q e w qs2 es2 args Hw Hws].
  - rewrite app_nil_r in H. cbn [replicate] in H. rewrite (list_lookup_middle (Some <$> qs1) _ None) in H by (by rewrite length_fmap). simplify_eq/=.
    split; [apply marks_refl|constructor].
  - rewrite !fmap_app, <- !app_assoc in H. cbn [fmap list_fmap app] in H.
    rewrite (list_lookup_middle (Some <$> qs1)) in H by (by rewrite length_fmap). cbn [mbind option_bind] in H.
    rewrite (list_lookup_middle (Some <$> es1)) in H by (by rewrite length_fmap). cbn [mbind option_bind] in H.
    destruct (put b e 0) as [b1|] eqn:Hp; [|done]. destruct (marks_put _ _ _ _ _ Hw Hp) as [Hm He].
    destruct (IH (qs1 ++ [q]) qs2 (es1 ++ [e]) es2 args b1 b') as [Hm' Hall].
    + rewrite !length_app. simpl. lia.
    + done.
    + rewrite length_app, Nat.add_1_r, !fmap_app, <- !app_assoc. exact H.
    + split; [by eapply marks_trans|]. constructor; [|done]. split; [done|]. by eapply marks_keep.
Qed.

Lemma nulterminate_ends nodes : forall fuel i t b b', built word_at nodes i t -> nulterminate fuel nodes i b = Some b' ->
  marks b b' /\ built (ended b') nodes i t.
Proof.
  induction fuel as [|fuel IH]; intros i t b b' Hb H; [done|]. cbn [nulterminate] in H.
  destruct Hb as [i qs eqs args Hl Hi Ha|i c q e t file mode fd Hi Hc Hw|i l r tl tr Hi Hl Hr|i l r tl tr Hi Hl Hr|i c t Hi Hc];
    rewrite Hi in H; cbn [mbind option_bind] in H.
  - replace (MAXARGS - length qs)%nat with (S (MAXARGS - length qs - 1)) in H by lia.
    destruct (terminate_args_ends _ _ [] qs [] eqs args b b' eq_refl Ha H) as [Hm He]. split; [done|]. by eapply built_exec.
  - destruct (nulterminate fuel nodes c b) as [b1|] eqn:E; [|done]. cbn [mbind option_bind] in H.
    destruct (IH _ _ _ _ Hc E) as [Hm Hc']. destruct (marks_put _ _ _ _ _ Hw H) as [Hm' He].
    split; [by eapply marks_trans|]. eapply built_redir; [exact Hi|by eapply ended_keep|done].
  - destruct (nulterminate fuel nodes l b) as [b1|] eqn:E; [|done]. cbn [mbind option_bind] in H.
    destruct (IH _ _ _ _ Hl E) as [Hm Hl']. destruct (IH _ _ _ _ Hr H) as [Hm' Hr'].
    split; [by eapply marks_trans|]. eapply built_pipe; [exact Hi|by eapply ended_keep|done].
  - destruct (nulterminate fuel nodes l b) as [b1|] eqn:E; [|done]. cbn [mbind option_bind] in H.
    destruct (IH _ _ _ _ Hl E) as [Hm Hl']. destruct (IH _ _ _ _ Hr H) as [Hm' Hr'].
    split; [by eapply marks_trans|]. eapply built_list; [exact Hi|by eapply ended_keep|done].
  - destruct (IH _ _ _ _ Hc H) as [Hm Hc']. split; [done|]. by eapply built_back.
Qed.

(** The words are the strings of the buffer. *)
Lemma ended_string b q e w : marks buf b -> ended b q e w -> string_at b q e w.
Proof.
  intros [Hlen Hm] [(-> & Hw & Hle & r & Hd & Hr) He]. exists (drop (S (q + length w)) b).
  rewrite <- (take_drop (length w) (drop q b)) at 1. rewrite drop_drop, (drop_S _ _ _ He). f_equal.
  apply list_eq. intros k. destruct (decide (k < length w)%nat) as [Hk|Hk].
  - rewrite lookup_take, lookup_drop by done. rewrite decide_True by done.
    destruct (lookup_lt_is_Some_2 w k Hk) as [c Hc]. assert (text !! (q + k)%nat = Some c) as Ht.
    { rewrite <- lookup_drop, Hd. by apply lookup_app_l_Some. }
    rewrite Hc. destruct (Hm (q + k)%nat) as [->|[_ Hn]].
    + by apply lookup_app_l_Some.
    + destruct (Hn c Ht). rewrite Forall_lookup in Hw. by eapply Hw.
  - rewrite !lookup_ge_None_2; [done|lia|]. rewrite length_take, length_drop. lia.
Qed.
End read.

Lemma spells_nonzero ts text : spells ts text -> Forall (fun c => c <> 0) text.
Proof.
  assert (forall s, blank s -> Forall (fun c => c <> 0) s) as Hbl.
  { intros s Hs. eapply Forall_impl; [exact Hs|]. intros c. unfold whitespace. rewrite !elem_of_cons, elem_of_nil. lia. }
  induction 1; repeat first [apply Forall_app; split | constructor]; auto; try lia.
  - by apply symbol_facts.
  - eapply Forall_impl; [eassumption|]. by intros c [? _].
Qed.

(** The parser does what the grammar says, up to the memory of the commands. *)
Lemma parse_line_built room text junk l : spells (line_toks l) text -> line_ok l ->
  pwp (cmd ← parseline (text ++ 0 :: junk) (length text) room (4 * S (length text)); peek (text ++ 0 :: junk) (length text) (bytes_of "");;
       s ← pos; mret (cmd, s))
    (fun x st' => x.2 = length text /\ built (word_at text) (ps_nodes st') x.1 (meaning l)) resource (mkpst 0 []).
Proof.
  intros Hs Hok. pose proof (spells_nonzero _ _ Hs) as Ht. apply pwp_bind.
  apply (proj1 (parse_exact text junk Ht room _) (mkpst 0 []) [] l); [|by left|done|].
  { split; [simpl; lia|]. by rewrite app_nil_r. }
  intros c st Hb _ Hc. destruct (skip_blank text junk [] st Hb) as (s & Hsk & Hle & _ & Hc0 & _).
  destruct (buf_lookup text junk Ht s) as (c0 & E & Hz); [lia|]. simpl in Hc0.
  apply pwp_bind. unfold peek. pstep. simpl. split; [|done]. apply Hz. congruence.
Qed.

(** C8. A command line that spells a phrase of the shell's grammar, with any white space between its tokens, is parsed
    to the tree of commands the phrase means: pipes, lists, background jobs, blocks and redirections as the grammar
    nests them, and the words of the text as the C strings of the commands. A command may have at most nine words
    ([line_ok]; the shell panics at the tenth), and [malloc] must have room for the nodes. *)
Theorem parsecmd_meaning room text junk l : spells (line_toks l) text -> line_ok l -> (2 * length text < room)%nat ->
  exists buf nodes cmd, parse_line room (text ++ 0 :: junk) = Parsed buf nodes cmd /\ built (string_at buf) nodes cmd (meaning l).
Proof.
  intros Hs Hok Hr. pose proof (spells_nonzero _ _ Hs) as Ht. unfold parse_line. rewrite strlen_text, Nat2Z.id by done.
  pose proof (parse_run room text junk Ht Hr) as Hm. pose proof (parse_line_built room text junk l Hs Hok) as Hx.
  set (m := _ ≫= _) in Hm, Hx |- *. unfold pwp in Hm, Hx. destruct (m (mkpst 0 [])) as [e|[[cmd s] st]].
  { destruct Hm as [msg ->]. by destruct Hx. }
  simpl in Hm, Hx. destruct Hm as (Hc & Hnok & _), Hx as [-> Hb]. rewrite Nat.eqb_refl. cbn [negb].
  destruct (nulterminate_safe _ _ Hnok (S (length (ps_nodes st))) cmd (text ++ 0 :: junk)) as (buf' & Hn & Hl); [done|lia|rewrite length_app; simpl; lia|].
  destruct (nulterminate_ends text _ _ _ _ _ _ Hb Hn) as [Hmk He]. rewrite Hn. exists buf', (ps_nodes st), cmd. split; [done|].
  eapply built_mono; [|exact He]. intros q e w. by apply (ended_string text junk).
Qed.

#[local] Instance wordchar_dec c : Decision (wordchar c).
Proof. unfold wordchar. apply _. Defined.

Ltac spell_side := solve
  [ constructor | done | apply (bool_decide_unpack _); vm_compute; exact I
  | intros c [= <-]; apply (bool_decide_unpack _); vm_compute; exact I ].
Ltac spell_word s w := apply (spells_word s w); [spell_side|spell_side|spell_side|spell_side|].
Ltac spell_sym s c := apply (spells_sym s c); [spell_side|spell_side|spell_side|].

(** [ls<a ;(grep x*>>b )| wc&] *)
Lemma parsecmd_meaning_witness :
  let l := LSeq (POne (SWords [] [(bytes_of "ls", [(RIn, bytes_of "a")])])) 0
            (LEnd (PBar (SBlock (LEnd (POne (SWords [] [(bytes_of "grep", []); (bytes_of "x*", [(RApp, bytes_of "b")])])) 0) [])
                        (POne (SWords [] [(bytes_of "wc", [])]))) 1) in
  exists buf nodes cmd, parse_line 100 (bytes_of "ls<a ;(grep x*>>b )| wc&" ++ 0 :: []) = Parsed buf nodes cmd /\
    built (string_at buf) nodes cmd (meaning l).
Proof.
  intros l. apply (parsecmd_meaning 100 _ [] l).
  - change (bytes_of "ls<a ;(grep x*>>b )| wc&") with
      (bytes_of "ls" ++ 60 :: bytes_of "a" ++ [32] ++ 59 :: 40 :: bytes_of "grep" ++ [32] ++ bytes_of "x*" ++ 62 :: 62 :: bytes_of "b" ++
       [32] ++ 41 :: 124 :: [32] ++ bytes_of "wc" ++ 38 :: []).
    spell_word (@nil Z) (bytes_of "ls"). spell_sym (@nil Z) 60. spell_word (@nil Z) (bytes_of "a"). spell_sym [32] 59. spell_sym (@nil Z) 40.
    spell_word (@nil Z) (bytes_of "grep"). spell_word [32] (bytes_of "x*"). apply (spells_app []); [spell_side|].
    spell_word (@nil Z) (bytes_of "b"). spell_sym [32] 41. spell_sym (@nil Z) 124. spell_word [32] (bytes_of "wc"). spell_sym (@nil Z) 38.
    apply spells_nil. constructor.
  - vm_compute. lia.
  - vm_compute. lia.
Defined.
